(* ===== verification/_CoqProject ===== *)
-Q . S2P
Prelude.v
JsNum.v
Capacity.v
Store.v
Scheduler.v
Calendar.v
Subscriptions.v
JsString.v
Dto.v
IsoDate.v
Variables.v
Servers.v
Plans.v
PlanRules.v
Payments.v
Webhook.v
Billing.v
SubscriptionRules.v
ProviderClient.v
MercadoPago.v
PagBank.v
Intake.v
Transfers.v
Accounts.v
Sessions.v
AccountRules.v
Access.v
Setup.v
SetupRules.v
Fleet.v
Enrolment.v
FleetRules.v
Crypto.v
Controls.v
Schedules.v
ScheduleRules.v
Gateway.v
GatewayRules.v
Databases.v
DatabaseRules.v
SigningKeys.v
KeyRules.v
PowerDns.v
Presets.v
Discovery.v
DiscoveryRules.v
Templates.v
TemplateRules.v
Report.v
ReportRules.v
PublicSite.v
PublicSiteRules.v
RetryPlan.v
RetryRules.v
Catalogues.v
CatalogueRules.v
Modpacks.v
ModpackRules.v
Community.v
CommunityRules.v
