(* ===== verification/Prelude.v ===== *)
(** * A verification development of the GXhost panel API

    GXhost sells and runs game servers.  The program is the API of its panel
    ([src/apps/api/src], TypeScript on NestJS, Prisma and PostgreSQL, Redis and BullMQ): it
    sells plans through two payment gateways, places paid servers on a fleet of nodes within
    their capacity, drives the agent of each node over HTTP, and gives customers and staff
    access to what they own.  This library models its core services as executable functions
    and proves what makes them correct.

    ** How the code is modelled

    An [async] method of a service is a function of the monad [M S A = S -> Res A * S] of this
    file: the state of the component, and a result or the exception the method throws.  An
    awaited call is a bind, [if (...) throw] is [throwIf], [try/catch] is [tryCatch], a loop over
    a list is [forEach] or [forFold].  A table is the list of its rows, a row is a record with
    the columns the modelled code reads or writes, SQL NULL is [None], a timestamp is a number of
    milliseconds; [updId], [updWhere] and [findId] are UPDATE, updateMany and findUnique.  A
    transaction ([withRLS]) restores the tables on an exception and nothing else.  Constraints
    of the database (CHECK, UNIQUE, foreign keys) that can refuse a write are part of the
    operation that makes it.  Clock readings are arguments or a field of the state.

    JavaScript numbers are binary64 ([JsNum]), strings are their UTF-8 bytes with the language's
    [Number], [trim], [split], date and month arithmetic written out ([JsString], [Calendar],
    [IsoDate]).

    Concurrency is interleaving of steps, and the theorems quantify over sequences of them.
    Most operations are one step, also where the code runs several statements outside one
    transaction: the authentication requests, the node requests with their bootstrap, the
    subscription, order and transfer handlers, the requests on schedules and one task of a
    schedule's run.  Split into separate steps are the tick of the schedules (claim and enqueue
    can fail apart), its jobs and the tasks of a run, the late write of a schedule edit, the
    commit of a set-up, a transfer and what happens on the target meanwhile, and the agent's
    copy of the key list, which may be old.  Where the statements of one operation can be
    overtaken, a theorem runs its halves around the other operation and shows what goes wrong:
    [overlapping_bootstraps_split], [backup_after_suspension], [revoked_permission_race],
    [stale_transition_overwrites], [late_failure_takes_port].

    What the program calls and does not contain is a parameter, given as a type class, and what
    is relied on is a second class of named laws, inhabited by a concrete instance in a [Demo]
    module wherever a theorem assumes them: [Platform] (uuids, random draws, collation, case
    mapping; [PlatformLaws], [AsciiLower]), [Outside] and [Agents] (answers of the node agents and
    of the queues), [Providers], [MpHttp], [PbHttp], [Hmac], [PbCrypto] (the gateways and their
    signatures), [Secrets], [NodeSecrets] with [EnrolmentLaws] (hashes, tokens, encryption),
    [Gcm] with [GcmLaws] (AES-256-GCM), [Edge], [NameServer] with [NameServerLaws], [DnsNetwork]
    (the edge and its name servers), [Cron] with [ScheduleLaws] (cron-parser), [Net] (validators),
    [MysqlEngine] with [MysqlLaws] (the customers' database servers), [Ed25519] with [Ed25519Laws]
    (signatures), [DiscoveryWorld] with [SortLaws] (the interfaces of the game projects),
    [CatalogueWorld] (the modpack catalogues), [WebUrl] with [WebUrlLaws] (addresses), [PackAgents].
    Where a component of this library provides what another one assumes, a theorem says so:
    the adapters are the [Providers] of the payment pipeline ([Intake]), [CryptoService]
    discharges the encryption law of enrolment ([crypto_discharges_enrolment]).

    ** The files

    Foundations.
    - [Prelude]: record update, exceptions, the monad and its inversion tactic [mok], frame
      reasoning ([keeps], [keeps_auto]), tables, sorting and comparators.
    - [JsNum], [JsString], [Calendar], [IsoDate]: the language.  [Dto]: request bodies.
    - [Store]: rows, the world of the billing services, transactions, audit, outside calls.

    Capacity and placement.
    - [Capacity] ([capacity/capacity.math.ts]); [Scheduler] ([capacity/capacity.service.ts],
      [scheduler/], node health): the slots a plan shows are how many servers the locked create gate
      accepts one after the other (when no resource the plan asks nothing of is over its
      ceiling already), and node selection returns the best placeable node.
    - [Servers] ([servers/servers.service.ts]): creation within capacity, dispatch, suspension.
    - [Plans], [PlanRules] ([plans/]): the catalogue stays sellable; applying an edited plan is all
      or nothing and within capacity.
    - [Transfers] ([transfers/]): a transfer moves a server completely or restores it.
    - [Variables], [Setup], [SetupRules] ([servers/variable-*.ts], [server-setup.service.ts],
      [server-variables.service.ts], [templates/software-presets.ts]): software and variables.
    - [Presets], [Discovery], [DiscoveryRules] ([templates/software-presets.ts],
      [templates/software-discovery.service.ts]): the built-in software with its install scripts,
      and the published versions; [Templates], [TemplateRules] ([templates/templates.service.ts],
      [public/public-templates.service.ts]): the catalogue, its curation and its cached copy.
    - [Report], [ReportRules] ([capacity/capacity-report.service.ts]): the administrators' figures;
      [PublicSite], [PublicSiteRules] ([public/], [site-announcement/]): what visitors are shown.

    Money.
    - [Subscriptions] ([subscriptions/]): the state machine and its event log.
    - [Payments] ([payments/orders.service.ts] and around it): checkout, charges, amounts.
    - [Webhook] ([payments/payments-webhook.service.ts]): what a notification does to an order.
    - [Billing] ([payments/provisioning.service.ts], the billing processors of [queues/]).
    - [SubscriptionRules]: the subscription rows under all the handlers above, with the checkouts
      that replace a pending subscription set apart.
    - [ProviderClient], [MercadoPago], [PagBank], [Intake]: the gateways' clients and adapters, the
      webhook controllers, and the pipeline run against the adapters: an order becomes paid only
      when the gateway of the notification answered with an approved payment of exactly its amount.

    People.
    - [Accounts], [Sessions], [AccountRules] ([auth/], [users/], [admin/]): sign-in, refresh-token
      rotation, lockout, revocation, staff ranks.
    - [Access] ([authorization/server-access.service.ts], [subusers/]): who may do what on a
      server, with the permission cache.

    Nodes and operation.
    - [Fleet], [Enrolment], [FleetRules] ([nodes/]): node rows, ports, credentials of agents, and
      what an agent may report.  The requests refine a small transition system ([coreStep]).
    - [Crypto] ([core/crypto]): encrypted columns across a key rotation.
    - [Controls] ([servers/client-servers.service.ts], [backups/], [core/capability-token]): power,
      backups, console and download tokens.
    - [Schedules], [ScheduleRules] ([schedules/], [queues/schedule-*.ts]): unattended runs as an
      interleaving of requests, ticks and workers; every claimed schedule whose job was queued is
      released, none overlaps itself, no task passes its access check under a suspension.
    - [Gateway], [GatewayRules] ([gateway/], [servers/server-hostname.service.ts]): public ports and
      names; [PowerDns] ([gateway/dns/powerdns.dns-provider.ts]): their publication.
    - [Databases], [DatabaseRules] ([databases/]): customers' MySQL databases, against an abstract
      engine whose statements are the ones the services send.
    - [SigningKeys], [KeyRules] ([security/signing-keys.service.ts], [core/crypto/ed25519.service.ts]):
      the keys of capability tokens, with the verifier of the agent that consumes them.
    - [Catalogues], [CatalogueRules] ([plugins/curseforge.provider.ts], [modpacks/modrinth.provider.ts]
      and their cache), [Modpacks], [ModpackRules] ([modpacks/modpacks.service.ts]), [RetryPlan],
      [RetryRules] ([modpacks/curseforge-retry-plan.ts]): modpacks from the catalogue to the agent, with
      the automatic retries.
    - [Community], [CommunityRules] ([support/], [testimonials/], [social/], [servers/server-view.ts]).

    ** What the theorems show

    Safety of money: [webhook_order_moves], [paid_means_gateway_approved],
    [only_signed_notifications_enter], [checkout_single_charge], [provision_outcome].  Capacity is
    never oversold: [slotsForPlanOnNode_correct], [create_within_capacity],
    [plan_apply_within_capacity].  Histories: [subscription_history], [no_escalation_to_root],
    [one_live_session_per_family], [public_names_distinct], [node_credential_agrees] hold in every
    state the steps above reach.  Well-formed data: [plan_catalogue_well_formed].  Modpacks:
    [dispatched_packs_trusted], with [retry_chains_bounded], [cascade_exact] and
    [node_resolution_confined] beside it.
    Tenants are kept apart: [tenant_databases_isolated], [console_token_exact].
    Refinement and equivalence: [reconcile_serves_wanted], [permission_cache_transparent],
    [paid_means_gateway_approved], [quick_created_versions_exact], [plan_report_agrees].  Rotation:
    [secrets_survive_rotation], [tokens_outlive_rotation].  Liveness and termination: [claimed_schedule_released],
    [request_attempts], [scheduler_retry].  Round trips: [money_roundtrip],
    [failed_transfer_restores], [secrets_survive_rotation], [isoDate_roundtrip].  Errors:
    [provision_outcome], [setup_outcome].  Theorems without a claim number in their comment are
    supporting results, or show a behaviour that departs from what a comment of the source says.

    ** Bounds and fuel

    Recursion that is not structural has fuel that is provably enough or is the program's own
    bound: the placement retry (3 nodes), the gateway requests (3 attempts for a read, 1 for a
    write), the five tries of a short id and the fifty of a user name are the source's constants;
    trimming and splitting consume at least one character per step and get the length; the loop
    over a schedule's tasks gets their number; the loops over dependents of a modpack get one pass more
    than there are projects or files, which [dependents_spec] and [cascadeLoop_spec] show to be enough; the
    decimal logarithm and the shortest digits of a number are searched within the range of a double.  Versions, amounts and counters that pass
    through a JavaScript number are bounded by 2^53 in the statements that need it.

    ** Not modelled

    The panel's user interface ([src/apps/panel]) renders what the API decides.  The gateway
    sidecar and the node agent ([src/agent], in Go) are other programs; of the agent only the
    verifier of capability tokens is modelled.  Left out of the API: the plugin proxy and the searches
    of the modpack catalogues, the file manager, searches and downloads of the community, canary and
    diagnostics, the assistant, the OAuth client, configuration and
    mail, the cached usage snapshots of a server, controllers and module wiring.  Row-level
    security is modelled where it decides something ([Access]); elsewhere the services run as the
    administrator they say.  Database failures other than refused writes, and process crashes
    between two statements, are modelled only where a theorem is about them. *)

From stdpp Require Export base list strings gmap pretty.
From Stdlib Require Export ZArith.
From Stdlib Require Import Lia.

(** ** Functional record update

    [r <| field := v |>] copies a record with one field replaced, the
    [{ ...row, field: v }] of the sources.  A record opts in by giving its
    eta-expansion as a [Settable] instance; the setter of each projection is
    then found by abstracting the projection in that term. *)

Class Settable (R : Type) := eta_record : R -> R.

Class Setter {R T : Type} (proj : R -> T) := set : (T -> T) -> R -> R.
Arguments set {R T} proj {_} f r /.

Ltac derive_setter :=
  lazymatch goal with
  | |- @Setter ?R ?T ?proj =>
    let inst := constr:(_ : Settable R) in
    let body := eval red in inst in
    lazymatch eval pattern proj in body with
    | ?g _ =>
      let s := eval cbv beta in (fun f : T -> T => g (fun x : R => f (proj x))) in
      exact s
    end
  end.

#[export] Hint Extern 1 (Setter _) => derive_setter : typeclass_instances.

Declare Scope px_scope.
Delimit Scope px_scope with px.
Notation "r <| proj := v |>" := (set proj (fun _ => v) r)
  (at level 1, proj at level 99, v at level 200, left associativity, format "r  <| proj  :=  v |>") : px_scope.
Open Scope px_scope.

(** ** Exceptions

    The exceptions the services throw: the NestJS ones with their message, a
    payment provider's HTTP error ([PaymentProviderRequestError]), a write to a
    missing row (Prisma P2025), a UNIQUE (P2002) or CHECK constraint refusing a
    row, and an error coming from an outside service. *)

Inductive exn :=
  | BadRequest (msg : string)
  | Unauthorized (msg : string)
  | Forbidden (msg : string)
  | NotFound (msg : string)
  | Conflict (msg : string)
  | Http (msg : string) (status : Z)
  | ProviderRequest (msg : string) (status : Z)
  | RecordNotFound
  | UniqueViolation (constraint_name : string)
  | CheckViolation (constraint_name : string)
  | External (msg : string).

Definition message (e : exn) : string :=
  match e with
  | BadRequest m | Unauthorized m | Forbidden m | NotFound m | Conflict m
  | Http m _ | ProviderRequest m _ | External m => m
  | RecordNotFound => "Record not found"
  | UniqueViolation c | CheckViolation c => c
  end.

Inductive Res (A : Type) :=
  | Ok (a : A)
  | Throw (e : exn).
Arguments Ok {A} a.
Arguments Throw {A} e.

#[export] Instance Res_ret : MRet Res := fun A a => Ok a.
#[export] Instance Res_bind : MBind Res := fun A B k r =>
  match r with Ok a => k a | Throw e => Throw e end.

(** ** The state-and-exception monad

    An [async] method of a service is a function from the world to a result
    and the new world; an [await]ed call is a bind. *)

Definition M (S A : Type) : Type := S -> Res A * S.

#[export] Instance M_ret {S} : MRet (M S) := fun A a s => (Ok a, s).

#[export] Instance M_bind {S} : MBind (M S) := fun A B k m s =>
  match m s with
  | (Ok a, s') => k a s'
  | (Throw e, s') => (Throw e, s')
  end.

Definition throw {S A} (e : exn) : M S A := fun s => (Throw e, s).
Definition gets {S A} (f : S -> A) : M S A := fun s => (Ok (f s), s).
Definition modify {S} (f : S -> S) : M S unit := fun s => (Ok tt, f s).
Definition lift {S A} (r : Res A) : M S A := fun s => (r, s).

(** [if (!x) throw e] on a nullable. *)
Definition orThrow {S A} (o : option A) (e : exn) : M S A :=
  match o with Some a => mret a | None => throw e end.

Definition throwIf {S} (b : bool) (e : exn) : M S unit :=
  if b then throw e else mret tt.

Definition when {S} (b : bool) (m : M S unit) : M S unit :=
  if b then m else mret tt.

(** [try { m } catch (err) { h err }]. *)
Definition tryCatch {S A} (m : M S A) (h : exn -> M S A) : M S A := fun s =>
  match m s with
  | (Ok a, s') => (Ok a, s')
  | (Throw e, s') => h e s'
  end.

(** [for (const x of l) await f(x)]: an exception leaves the loop. *)
Fixpoint forEach {S A} (l : list A) (f : A -> M S unit) : M S unit :=
  match l with
  | [] => mret tt
  | x :: l' => f x ;; forEach l' f
  end.

(** The same loop with an accumulator (a [let count = 0] updated in the body). *)
Fixpoint forFold {S A B} (l : list A) (acc : B) (f : B -> A -> M S B) : M S B :=
  match l with
  | [] => mret acc
  | x :: l' => acc' ← f acc x; forFold l' acc' f
  end.

(** Whether a run succeeded. *)
Definition okRun {S A} (x : Res A * S) : bool := match x.1 with Ok _ => true | Throw _ => false end.

(** ** Tables

    A table is the list of its rows; theorems quantify over every list, so the
    order the database happens to return rows in is arbitrary. *)

Class Row (R : Type) := rid : R -> string.

Definition findFirst {R} (p : R -> bool) (t : list R) : option R := List.find p t.

Definition findId {R} `{Row R} (id : string) (t : list R) : option R :=
  findFirst (fun r => bool_decide (rid r = id)) t.

Definition updWhere {R} (p : R -> bool) (f : R -> R) (t : list R) : list R :=
  List.map (fun r => if p r then f r else r) t.

Fixpoint updFirst {R} (p : R -> bool) (f : R -> R) (t : list R) : list R :=
  match t with
  | [] => []
  | r :: t' => if p r then f r :: t' else r :: updFirst p f t'
  end.

(** [UPDATE ... WHERE id = id]: ids are primary keys, so one row at most. *)
Definition updId {R} `{Row R} (id : string) (f : R -> R) (t : list R) : list R :=
  updFirst (fun r => bool_decide (rid r = id)) f t.

Definition countWhere {R} (p : R -> bool) (t : list R) : Z :=
  Z.of_nat (length (List.filter p t)).

Definition sumZ {R} (f : R -> Z) (l : list R) : Z :=
  fold_right (fun r acc => (f r + acc)%Z) 0%Z l.

(** Equality test on nullable columns and ids. *)
Notation "a =s b" := (bool_decide (a = b)) (at level 70) : px_scope.

(** ** Strings *)

Definition zstr (z : Z) : string := pretty z.

Definition startsWith (pre s : string) : bool := String.prefix pre s.

Definition endsWith (suf s : string) : bool :=
  String.prefix (String.rev suf) (String.rev s).

Fixpoint includesStr (needle s : string) : bool :=
  String.prefix needle s ||
  match s with
  | String.EmptyString => false
  | String.String _ s' => includesStr needle s'
  end.

(** ** Sorting

    [Array.prototype.sort] with a comparator: a stable sort.  For a comparator
    that is a total preorder the result is unique, so insertion is as good a
    definition as any. *)

Section Sort.
Context {A : Type} (le : A -> A -> bool).

Fixpoint insertBy (x : A) (l : list A) : list A :=
  match l with
  | [] => [x]
  | y :: l' => if le x y then x :: l else y :: insertBy x l'
  end.

Definition sortBy (l : list A) : list A := fold_right insertBy [] l.

Inductive sortedBy : list A -> Prop :=
  | sortedBy_nil : sortedBy []
  | sortedBy_cons x l : (forall y, y ∈ l -> le x y = true) -> sortedBy l -> sortedBy (x :: l).

Lemma insertBy_perm x l : insertBy x l ≡ₚ x :: l.
Proof.
  induction l as [|y l IH]; simpl; [done|]. destruct (le x y); [done|].
  rewrite IH. apply Permutation_swap.
Qed.

Lemma sortBy_perm l : sortBy l ≡ₚ l.
Proof. induction l as [|x l IH]; simpl; [done|]. by rewrite insertBy_perm, IH. Qed.

Lemma insertBy_sorted x l :
  (forall a b, le a b = true \/ le b a = true) ->
  (forall a b c, le a b = true -> le b c = true -> le a c = true) ->
  sortedBy l -> sortedBy (insertBy x l).
Proof.
  intros Htot Htr. induction 1 as [|y l Hy Hl IH]; simpl.
  - constructor; [|constructor]. intros y Hy. by apply not_elem_of_nil in Hy.
  - destruct (le x y) eqn:E.
    + constructor; [|by constructor]. intros z Hz. apply elem_of_cons in Hz as [->|Hz]; eauto.
    + constructor; [|done]. intros z Hz. rewrite insertBy_perm in Hz.
      apply elem_of_cons in Hz as [->|Hz]; [|by apply Hy].
      destruct (Htot x y); congruence.
Qed.

Lemma sortBy_sorted l :
  (forall a b, le a b = true \/ le b a = true) ->
  (forall a b c, le a b = true -> le b c = true -> le a c = true) ->
  sortedBy (sortBy l).
Proof. intros Htot Htr. induction l; simpl; [constructor|]. by apply insertBy_sorted. Qed.

End Sort.

(** ** Inversion of monadic runs *)

Lemma bind_ok {S A B} (m : M S A) (k : A -> M S B) s b s' :
  (m ≫= k) s = (Ok b, s') <-> exists a s1, m s = (Ok a, s1) /\ k a s1 = (Ok b, s').
Proof.
  unfold mbind, M_bind. destruct (m s) as [[a|e] s1] eqn:E; split.
  - eauto.
  - by intros (a' & s1' & [= -> ->] & ?).
  - done.
  - by intros (a' & s1' & ? & ?).
Qed.

Lemma bind_run {S A B} (m : M S A) (k : A -> M S B) s a s1 :
  m s = (Ok a, s1) -> (m ≫= k) s = k a s1.
Proof. unfold mbind, M_bind. by intros ->. Qed.

Lemma bind_throw {S A B} (m : M S A) (k : A -> M S B) s e s1 :
  m s = (Throw e, s1) -> (m ≫= k) s = (Throw e, s1).
Proof. unfold mbind, M_bind. by intros ->. Qed.

Lemma bind_inv {S A B} (m : M S A) (k : A -> M S B) s r s' : (m ≫= k) s = (r, s') ->
  (exists e, m s = (Throw e, s') /\ r = Throw e) \/ (exists a s1, m s = (Ok a, s1) /\ k a s1 = (r, s')).
Proof. unfold mbind, M_bind. destruct (m s) as [[a|e] s1]; [eauto|]. intros [= <- <-]. eauto. Qed.

Lemma bind_throwIf {S A} b e (k : M S A) s r s' : (throwIf b e ;; k) s = (r, s') ->
  b = true /\ s' = s \/ b = false /\ k s = (r, s').
Proof. unfold mbind, M_bind, throwIf. destruct b; [intros [= _ <-]; by left|by right]. Qed.

Lemma bind_throwIf_inv {S A} b e (k : M S A) s r s' : (throwIf b e ;; k) s = (r, s') ->
  b = true /\ r = Throw e /\ s' = s \/ b = false /\ k s = (r, s').
Proof. unfold mbind, M_bind, throwIf. destruct b; [intros [= <- <-]; by left|by right]. Qed.

Lemma bind_orThrow_inv {S A B} (o : option A) e (k : A -> M S B) s r s' : (orThrow o e ≫= k) s = (r, s') ->
  o = None /\ r = Throw e /\ s' = s \/ exists a, o = Some a /\ k a s = (r, s').
Proof. unfold mbind, M_bind, orThrow. destruct o; [by eauto|intros [= <- <-]; by left]. Qed.

Lemma bind_gets {S A B} (f : S -> A) (k : A -> M S B) s : (gets f ≫= k) s = k (f s) s.
Proof. done. Qed.

Lemma bind_ret {S A B} (a : A) (k : A -> M S B) s : (mret a ≫= k) s = k a s.
Proof. done. Qed.

Lemma tryCatch_inv {S A} (m : M S A) h s r s' : tryCatch m h s = (r, s') ->
  (exists a, m s = (Ok a, s') /\ r = Ok a) \/ (exists e s1, m s = (Throw e, s1) /\ h e s1 = (r, s')).
Proof. unfold tryCatch. destruct (m s) as [[a|e] s1]; [|eauto]. intros [= <- <-]. eauto. Qed.

Section Inversion.
Context {S : Type}.

Lemma gets_ok {A} (f : S -> A) s r s' : gets f s = (r, s') <-> r = Ok (f s) /\ s' = s.
Proof. unfold gets. naive_solver. Qed.

Lemma mret_ok {A} (a : A) (s : S) r s' : mret (M := M S) a s = (r, s') <-> r = Ok a /\ s' = s.
Proof. unfold mret, M_ret. naive_solver. Qed.

Lemma lift_ok {A} (x : Res A) (s : S) r s' : lift x s = (r, s') <-> x = r /\ s' = s.
Proof. unfold lift. naive_solver. Qed.

Lemma orThrow_ok {A} (o : option A) e (s : S) a s' : orThrow o e s = (Ok a, s') <-> o = Some a /\ s' = s.
Proof. unfold orThrow. destruct o; cbv; naive_solver. Qed.

Lemma throwIf_ok b e (s : S) u s' : throwIf b e s = (Ok u, s') <-> b = false /\ s' = s.
Proof. destruct u. unfold throwIf. destruct b; cbv; naive_solver. Qed.

Lemma throw_ok {A} e (s : S) (a : A) s' : throw e s = (Ok a, s') <-> False.
Proof. cbv. naive_solver. Qed.

Lemma modify_ok (f : S -> S) s r s' : modify f s = (r, s') <-> r = Ok tt /\ s' = f s.
Proof. unfold modify. naive_solver. Qed.

End Inversion.

(** [mok] inverts the successful runs among the hypotheses, one primitive at a
    time, down to the operations it does not know. *)
Ltac mok_step :=
  match goal with
  | H : mbind _ _ _ = (Ok _, _) |- _ => apply bind_ok in H; destruct H as (? & ? & ? & H)
  | H : gets _ _ = (Ok _, _) |- _ => apply gets_ok in H; destruct H as [? ->]
  | H : mret _ _ = (Ok _, _) |- _ => apply mret_ok in H; destruct H as [? ->]
  | H : lift _ _ = (Ok _, _) |- _ => apply lift_ok in H; destruct H as [? ->]
  | H : orThrow _ _ _ = (Ok _, _) |- _ => apply orThrow_ok in H; destruct H as [? ->]
  | H : throwIf _ _ _ = (Ok _, _) |- _ => apply throwIf_ok in H; destruct H as [? ->]
  | H : throw _ _ = (Ok _, _) |- _ => by apply throw_ok in H
  | H : modify _ _ = (Ok _, _) |- _ => apply modify_ok in H; destruct H as [? ->]
  | H : Ok _ = Ok _ |- _ => injection H as H
  | H : @eq () _ _ |- _ => clear H
  | u : () |- _ => destruct u
  end.
Ltac mok := repeat mok_step.

(** ** Frame reasoning

    [keeps R m]: every run of [m], successful or not, relates its worlds by
    [R].  For a preorder [R] this is closed under the monad's combinators, so
    an invariant of a whole handler is proved from its primitive writes. *)

Definition keeps {S A} (R : S -> S -> Prop) (m : M S A) : Prop :=
  forall s r s', m s = (r, s') -> R s s'.

Section Keeps.
Context {S : Type} (R : S -> S -> Prop) `{!PreOrder R}.

Lemma keeps_ret {A} (a : A) : keeps R (mret (M := M S) a).
Proof. intros s r s' [= <- <-]. reflexivity. Qed.

Lemma keeps_throw {A} e : keeps R (throw (S := S) (A := A) e).
Proof. intros s r s' [= <- <-]. reflexivity. Qed.

Lemma keeps_gets {A} (f : S -> A) : keeps R (gets f).
Proof. intros s r s' [= <- <-]. reflexivity. Qed.

Lemma keeps_lift {A} (x : Res A) : keeps R (lift (S := S) x).
Proof. intros s r s' [= <- <-]. reflexivity. Qed.

Lemma keeps_bind {A B} (m : M S A) (k : A -> M S B) :
  keeps R m -> (forall a, keeps R (k a)) -> keeps R (m ≫= k).
Proof.
  intros Hm Hk s r s'. unfold mbind, M_bind.
  destruct (m s) as [[a|e] s1] eqn:E; intros Hr.
  - etransitivity; [by eapply Hm | by eapply Hk].
  - injection Hr as <- <-. by eapply Hm.
Qed.

Lemma keeps_tryCatch {A} (m : M S A) h :
  keeps R m -> (forall e, keeps R (h e)) -> keeps R (tryCatch m h).
Proof.
  intros Hm Hh s r s'. unfold tryCatch.
  destruct (m s) as [[a|e] s1] eqn:E; intros Hr.
  - injection Hr as <- <-. by eapply Hm.
  - etransitivity; [by eapply Hm | by eapply Hh].
Qed.

Lemma keeps_orThrow {A} (o : option A) e : keeps R (orThrow (S := S) o e).
Proof. destruct o; [apply keeps_ret | apply keeps_throw]. Qed.

Lemma keeps_throwIf b e : keeps R (throwIf (S := S) b e).
Proof. destruct b; [apply keeps_throw | apply keeps_ret]. Qed.

Lemma keeps_when b m : keeps R m -> keeps R (when b m).
Proof. destruct b; [done|]. intros _. apply keeps_ret. Qed.

Lemma keeps_forEach {A} (l : list A) f : (forall x, keeps R (f x)) -> keeps R (forEach l f).
Proof.
  intros Hf. induction l as [|x l IH]; simpl; [apply keeps_ret|].
  by apply keeps_bind; [|intros _].
Qed.

Lemma keeps_forFold {A B} (l : list A) (acc : B) f :
  (forall b x, keeps R (f b x)) -> keeps R (forFold l acc f).
Proof.
  intros Hf. revert acc. induction l as [|x l IH]; intros acc; simpl; [apply keeps_ret|].
  apply keeps_bind; [done | intros; apply IH].
Qed.

Lemma keeps_if {A} (b : bool) (m1 m2 : M S A) : keeps R m1 -> keeps R m2 -> keeps R (if b then m1 else m2).
Proof. by destruct b. Qed.

End Keeps.

Create HintDb keeps discriminated.
#[export] Hint Resolve keeps_ret keeps_throw keeps_gets keeps_lift keeps_orThrow keeps_throwIf : keeps.

(** [keeps_step] decomposes a handler down to its writes. *)
Ltac keeps_step :=
  lazymatch goal with
  | |- keeps ?R (mret _) => apply (keeps_ret R)
  | |- keeps ?R (throw _) => apply (keeps_throw R)
  | |- keeps ?R (gets _) => apply (keeps_gets R)
  | |- keeps ?R (lift _) => apply (keeps_lift R)
  | |- keeps ?R (orThrow _ _) => apply (keeps_orThrow R)
  | |- keeps ?R (throwIf _ _) => apply (keeps_throwIf R)
  | |- keeps ?R (when _ _) => apply (keeps_when R)
  | |- keeps ?R (mbind _ _) => apply (keeps_bind R); [|intros ?]
  | |- keeps ?R (tryCatch _ _) => apply (keeps_tryCatch R); [|intros ?]
  | |- keeps ?R (forEach _ _) => apply (keeps_forEach R); intros ?
  | |- keeps ?R (forFold _ _ _) => apply (keeps_forFold R); intros ? ?
  | |- keeps ?R (match ?x with _ => _ end) => destruct x
  | |- keeps ?R (let _ := _ in _) => cbv zeta
  end.

Ltac keeps_auto := repeat (first [solve [eauto with keeps] | keeps_step]).

(** ** Lemmas on tables *)

Section Tables.
Context {R : Type} `{Row R}.

Lemma findFirst_some (p : R -> bool) t r : findFirst p t = Some r -> r ∈ t /\ p r = true.
Proof. intros Hf. apply List.find_some in Hf as [Hin Hp]. by rewrite list_elem_of_In. Qed.

Lemma findFirst_app (p : R -> bool) l1 l2 :
  findFirst p (l1 ++ l2) = match findFirst p l1 with Some x => Some x | None => findFirst p l2 end.
Proof. unfold findFirst. induction l1 as [|x l1 IH]; simpl; [done|]. by destruct (p x). Qed.

Lemma findFirst_none (p : R -> bool) t : findFirst p t = None -> forall r, r ∈ t -> p r = false.
Proof. intros Hf r Hr. apply list_elem_of_In in Hr. by eapply List.find_none in Hf. Qed.

Lemma findId_some id t (r : R) : findId id t = Some r -> r ∈ t /\ rid r = id.
Proof. intros Hf%findFirst_some. by rewrite bool_decide_eq_true in Hf. Qed.

Lemma updWhere_elem (p : R -> bool) f t r' :
  r' ∈ updWhere p f t <-> exists r, r ∈ t /\ r' = if p r then f r else r.
Proof.
  unfold updWhere. rewrite list_elem_of_In, in_map_iff.
  split; intros (r & H1 & H2); exists r; rewrite ?list_elem_of_In in *; naive_solver.
Qed.

Lemma updWhere_length (p : R -> bool) f t : length (updWhere p f t) = length t.
Proof. apply length_map. Qed.

Lemma findId_updId (id : string) (f : R -> R) t r :
  (forall x, rid (f x) = rid x) -> findId id t = Some r -> findId id (updId id f t) = Some (f r).
Proof.
  intros Hf. unfold findId, findFirst, updId. induction t as [|x t IH]; simpl; [done|].
  destruct (bool_decide (rid x = id)) eqn:E; simpl.
  - intros [= ->]. rewrite Hf, E. done.
  - rewrite E. apply IH.
Qed.

Lemma findId_updId_at (id : string) (f : R -> R) t r :
  findId id t = Some r -> rid (f r) = rid r -> findId id (updId id f t) = Some (f r).
Proof.
  unfold findId, findFirst, updId. induction t as [|x t IH]; simpl; [done|].
  destruct (bool_decide (rid x = id)) eqn:E; simpl.
  - intros [= ->] ->. by rewrite E.
  - rewrite E. apply IH.
Qed.

Lemma findId_app_l id t (r : R) l : findId id t = Some r -> findId id (t ++ l) = Some r.
Proof. unfold findId. rewrite findFirst_app. by intros ->. Qed.

Lemma findId_updId_ne (id id' : string) (f : R -> R) t :
  (forall x, rid (f x) = rid x) -> id <> id' -> findId id' (updId id f t) = findId id' t.
Proof.
  intros Hf Hne. unfold findId, findFirst, updId. induction t as [|x t IH]; simpl; [done|].
  destruct (bool_decide (rid x = id)) eqn:E; simpl; [|by rewrite IH].
  rewrite Hf. apply bool_decide_eq_true in E. by rewrite bool_decide_eq_false_2 by congruence.
Qed.

Lemma findId_updId_none (id id' : string) (f : R -> R) t :
  (forall x, rid (f x) = rid x) -> findId id' t = None -> findId id' (updId id f t) = None.
Proof.
  intros Hf. unfold findId, findFirst, updId. induction t as [|x t IH]; simpl; [done|].
  destruct (bool_decide (rid x = id')) eqn:E; [done|]. intros Hn.
  destruct (bool_decide (rid x = id)); simpl; rewrite ?Hf, E; auto.
Qed.

Lemma updFirst_length (p : R -> bool) f t : length (updFirst p f t) = length t.
Proof. induction t as [|x t IH]; simpl; [done|]. destruct (p x); simpl; congruence. Qed.

Lemma updFirst_Forall2 (T : R -> R -> Prop) (p : R -> bool) f t :
  (forall r, T r r) -> (forall r, findFirst p t = Some r -> T r (f r)) -> Forall2 T t (updFirst p f t).
Proof.
  intros Hr. unfold findFirst. induction t as [|x t IH]; simpl; intros Hf; [constructor|].
  destruct (p x); constructor; auto. apply Forall2_same_length_lookup. split; [done|].
  intros i a b Ha Hb. rewrite Ha in Hb. injection Hb as ->. apply Hr.
Qed.

Lemma updFirst_elem (p : R -> bool) f t r' :
  r' ∈ updFirst p f t -> r' ∈ t \/ exists r, findFirst p t = Some r /\ r' = f r.
Proof.
  unfold findFirst. induction t as [|x t IH]; simpl; [auto|]. rewrite elem_of_cons.
  destruct (p x); rewrite elem_of_cons; naive_solver.
Qed.

Lemma findId_elem t (r : R) : r ∈ t -> is_Some (findId (rid r) t).
Proof.
  intros Hr. unfold findId. destruct (findFirst _ t) eqn:E; [eauto|].
  eapply findFirst_none in E; [|done]. by apply bool_decide_eq_false in E.
Qed.

Lemma findId_app_none id t (r : R) : findId id t = None -> findId id (t ++ [r]) = if rid r =s id then Some r else None.
Proof.
  unfold findId, findFirst. induction t as [|x t IH]; simpl; [done|].
  by destruct (bool_decide (rid x = id)).
Qed.

Lemma findId_app_some id t (r r' : R) : findId id t = Some r -> findId id (t ++ [r']) = Some r.
Proof.
  unfold findId, findFirst. induction t as [|x t IH]; simpl; [done|].
  by destruct (bool_decide (rid x = id)).
Qed.

Lemma sumZ_app (f : R -> Z) l1 l2 : sumZ f (l1 ++ l2) = (sumZ f l1 + sumZ f l2)%Z.
Proof. induction l1 as [|x l IH]; simpl; [done|]. rewrite IH. lia. Qed.

Lemma countWhere_app (p : R -> bool) l1 l2 : countWhere p (l1 ++ l2) = (countWhere p l1 + countWhere p l2)%Z.
Proof. unfold countWhere. rewrite List.filter_app, length_app. lia. Qed.

Lemma countWhere_nonneg (p : R -> bool) l : (0 <= countWhere p l)%Z.
Proof. unfold countWhere. lia. Qed.

End Tables.


Lemma updId_rids {R} `{Row R} id f (l : list R) :
  (forall x, rid (f x) = rid x) -> map rid (updId id f l) = map rid l.
Proof.
  intros Hf. unfold updId. induction l as [|x l IH]; simpl; [done|].
  destruct (rid x =s id); simpl; [by rewrite Hf|by rewrite IH].
Qed.

Lemma findId_none_ids {R} `{Row R} id (l : list R) : id ∉ map rid l -> findId id l = None.
Proof.
  intros Hn. destruct (findId id l) as [r|] eqn:E; [|done]. apply findId_some in E as [Hr <-].
  destruct Hn. apply list_elem_of_In, in_map. by apply list_elem_of_In.
Qed.

(** ** Comparators

    A comparator returning [Lt]/[Eq]/[Gt] that is consistent with some total
    preorder; closed under the [c1 || c2] chaining the sources use. *)

Class CompareOk {A} (cmp : A -> A -> comparison) : Prop := {
  cmp_opp x y : cmp y x = CompOpp (cmp x y);
  cmp_eq x y z : cmp x y = Eq -> cmp x z = cmp y z;
  cmp_lt x y z : cmp x y = Lt -> cmp y z = Lt -> cmp x z = Lt;
}.

Definition leOf {A} (cmp : A -> A -> comparison) (a b : A) : bool :=
  match cmp a b with Gt => false | _ => true end.

Section CompareOk.
Context {A : Type}.

Lemma leOf_total (cmp : A -> A -> comparison) `{!CompareOk cmp} a b : leOf cmp a b = true \/ leOf cmp b a = true.
Proof. unfold leOf. rewrite (cmp_opp a b). destruct (cmp a b); auto. Qed.

Lemma leOf_trans (cmp : A -> A -> comparison) `{!CompareOk cmp} a b c :
  leOf cmp a b = true -> leOf cmp b c = true -> leOf cmp a c = true.
Proof.
  unfold leOf. destruct (cmp a b) eqn:E1; [by rewrite (cmp_eq _ _ c E1) | | done].
  destruct (cmp b c) eqn:E2; [| by rewrite (cmp_lt _ _ _ E1 E2) | done].
  pose proof (cmp_opp b c) as O. rewrite E2 in O. apply cmp_eq with (z := a) in O.
  rewrite (cmp_opp c a), O. rewrite (cmp_opp a b), E1. done.
Qed.

Lemma leOf_antisym (cmp : A -> A -> comparison) `{!CompareOk cmp} a b :
  leOf cmp a b = true -> leOf cmp b a = true -> cmp a b = Eq.
Proof. unfold leOf. rewrite (cmp_opp a b). by destruct (cmp a b). Qed.

Lemma compare_lex (c1 c2 : A -> A -> comparison) `{!CompareOk c1, !CompareOk c2} :
  CompareOk (fun x y => match c1 x y with Eq => c2 x y | c => c end).
Proof.
  split.
  - intros x y. rewrite (cmp_opp (cmp := c1) x y). destruct (c1 x y); simpl; [apply cmp_opp|done..].
  - intros x y z. destruct (c1 x y) eqn:E; [|done..]. intros E2.
    rewrite (cmp_eq _ _ z E). by rewrite (cmp_eq _ _ z E2).
  - intros x y z. destruct (c1 x y) eqn:E1; [| |done]; intros E1'.
    + rewrite (cmp_eq _ _ z E1). destruct (c1 y z); [by apply cmp_lt|done..].
    + destruct (c1 y z) eqn:E2; [| |done]; intros E2'; [|by rewrite (cmp_lt _ _ _ E1 E2)].
      pose proof (cmp_opp (cmp := c1) y z) as O. rewrite E2 in O. apply cmp_eq with (z := x) in O.
      rewrite (cmp_opp (cmp := c1) z x), O, (cmp_opp x y), E1. done.
Qed.

Lemma compare_on {B} (f : A -> B) (c : B -> B -> comparison) `{!CompareOk c} :
  CompareOk (fun x y => c (f x) (f y)).
Proof. split; intros; [apply cmp_opp | by apply cmp_eq | by eapply cmp_lt]. Qed.

Lemma compare_flip (c : A -> A -> comparison) `{!CompareOk c} : CompareOk (fun x y => c y x).
Proof.
  split.
  - intros x y. apply cmp_opp.
  - intros x y z E. pose proof (cmp_opp y x) as O. rewrite E in O.
    rewrite (cmp_opp x z), (cmp_opp y z). f_equal. by apply cmp_eq.
  - intros x y z E1 E2. by eapply cmp_lt.
Qed.

End CompareOk.

#[export] Instance compare_Z : CompareOk Z.compare.
Proof.
  split; intros x y.
  - apply Z.compare_antisym.
  - by intros z ->%Z.compare_eq.
  - intros z. rewrite !Z.compare_lt_iff. lia.
Qed.

Lemma ascii_compare_N a b : Ascii.compare a b = N.compare (Ascii.N_of_ascii a) (Ascii.N_of_ascii b).
Proof. reflexivity. Qed.

#[export] Instance compare_string : CompareOk String.compare.
Proof.
  split.
  - intros x y. apply String.compare_antisym.
  - by intros x y z ->%String.compare_eq_iff.
  - intros x. induction x as [|a x IH]; intros [|b y] [|c z]; simpl; try done.
    rewrite !ascii_compare_N.
    destruct (N.compare_spec (Ascii.N_of_ascii a) (Ascii.N_of_ascii b)) as [E1|E1|E1];
      destruct (N.compare_spec (Ascii.N_of_ascii b) (Ascii.N_of_ascii c)) as [E2|E2|E2];
      destruct (N.compare_spec (Ascii.N_of_ascii a) (Ascii.N_of_ascii c)) as [E3|E3|E3];
      try done; try lia. apply IH.
Qed.

(** The head of a stable sort by an antisymmetric order does not depend on the
    order of the input. *)
Lemma sortBy_head_perm {A} (cmp : A -> A -> comparison) `{!CompareOk cmp} (l1 l2 : list A) :
  (forall a b, a ∈ l1 -> b ∈ l1 -> cmp a b = Eq -> a = b) -> l1 ≡ₚ l2 ->
  head (sortBy (leOf cmp) l1) = head (sortBy (leOf cmp) l2).
Proof.
  intros Hanti Hp.
  pose proof (sortBy_sorted (leOf cmp) l1 (leOf_total cmp) (leOf_trans cmp)) as S1.
  pose proof (sortBy_sorted (leOf cmp) l2 (leOf_total cmp) (leOf_trans cmp)) as S2.
  pose proof (sortBy_perm (leOf cmp) l1) as P1. pose proof (sortBy_perm (leOf cmp) l2) as P2.
  assert (sortBy (leOf cmp) l1 ≡ₚ sortBy (leOf cmp) l2) as P by (by rewrite P1, P2).
  destruct (sortBy (leOf cmp) l1) as [|a r1] eqn:E1.
  { apply Permutation_nil in P. by rewrite P. }
  destruct (sortBy (leOf cmp) l2) as [|b r2] eqn:E2.
  { by apply symmetry, Permutation_nil in P. }
  simpl. f_equal. inversion S1 as [|? ? H1 _]; inversion S2 as [|? ? H2 _]; subst.
  assert (a ∈ b :: r2) as Ha by (rewrite <- P; by apply elem_of_cons; left).
  assert (b ∈ a :: r1) as Hb by (rewrite P; by apply elem_of_cons; left).
  apply Hanti; [rewrite <- P1; by apply elem_of_cons; left | by rewrite <- P1 |].
  apply elem_of_cons in Ha as [->|Ha], Hb as [Hb|Hb]; subst; try (by apply leOf_antisym; auto).
  - pose proof (leOf_total cmp b b). by apply leOf_antisym; tauto.
Qed.

Lemma sortBy_head_least {A} (cmp : A -> A -> comparison) `{!CompareOk cmp} (l : list A) a :
  head (sortBy (leOf cmp) l) = Some a -> a ∈ l /\ forall b, b ∈ l -> leOf cmp a b = true.
Proof.
  pose proof (sortBy_sorted (leOf cmp) l (leOf_total cmp) (leOf_trans cmp)) as S1.
  pose proof (sortBy_perm (leOf cmp) l) as P.
  destruct (sortBy (leOf cmp) l) as [|x r]; [done|]. intros [= ->]. split.
  - rewrite <- P. by apply elem_of_cons; left.
  - intros b. rewrite <- P. intros [->|Hb]%elem_of_cons.
    + destruct (leOf_total cmp a a); done.
    + inversion S1; auto.
Qed.

Lemma sortBy_head_none {A} (le : A -> A -> bool) (l : list A) : head (sortBy le l) = None <-> l = [].
Proof.
  pose proof (sortBy_perm le l) as P. destruct (sortBy le l) eqn:E; simpl; split; intros H; try done.
  - by apply Permutation_nil in P.
  - subst. by apply symmetry, Permutation_nil in P.
Qed.

Lemma NoDup_map_inj {A B} (f : A -> B) l x y : NoDup (map f l) -> x ∈ l -> y ∈ l -> f x = f y -> x = y.
Proof.
  induction l as [|a l IH]; simpl; [by intros _ ?%not_elem_of_nil|].
  rewrite NoDup_cons, !elem_of_cons. intros [Ha Hl] Hx Hy E.
  assert (forall z, z ∈ l -> f z ∈ map f l) as Hm
    by (intros z Hz; apply list_elem_of_In, in_map; by apply list_elem_of_In).
  destruct Hx as [->|Hx], Hy as [->|Hy]; [done|exfalso|exfalso|by apply IH].
  - apply Ha. rewrite E. by apply Hm.
  - apply Ha. rewrite <- E. by apply Hm.
Qed.

#[export] Instance filter_bool_perm {A} (p : A -> bool) : Proper (Permutation ==> Permutation) (List.filter p).
Proof.
  intros l1 l2 H. induction H as [|x l1 l2 H IH|x y l|]; simpl.
  - done.
  - destruct (p x); by rewrite IH.
  - destruct (p x), (p y); try done. apply Permutation_swap.
  - by etransitivity.
Qed.

Lemma filter_filter {A} (p q : A -> bool) l : List.filter p (List.filter q l) = List.filter (fun x => q x && p x) l.
Proof.
  induction l as [|x l IH]; simpl; [done|]. destruct (q x); simpl; [|done].
  destruct (p x); by rewrite IH.
Qed.

Lemma filter_ext_in {A} (p q : A -> bool) l : (forall x, x ∈ l -> p x = q x) -> List.filter p l = List.filter q l.
Proof. intros H. apply List.filter_ext_in. intros x Hx. apply H. by apply list_elem_of_In. Qed.

Lemma filter_none {A} (p : A -> bool) l : (forall x, x ∈ l -> p x = false) -> List.filter p l = [].
Proof.
  intros H. induction l as [|x l IH]; simpl; [done|].
  rewrite H by (apply elem_of_cons; auto). apply IH. intros y Hy. apply H, elem_of_cons. auto.
Qed.

Lemma NoDup_map_filter {A B} (f : A -> B) (p : A -> bool) l : NoDup (map f l) -> NoDup (map f (List.filter p l)).
Proof.
  induction l as [|x l IH]; simpl; [done|]. intros [Hx Hl]%NoDup_cons. destruct (p x); simpl; [|auto].
  apply NoDup_cons. split; [|auto]. intros (y & E & Hy)%list_elem_of_In%in_map_iff. apply filter_In in Hy as [Hy _].
  apply Hx, list_elem_of_In, in_map_iff. eauto.
Qed.

Lemma countWhere_perm {A} (p : A -> bool) l1 l2 : l1 ≡ₚ l2 -> countWhere p l1 = countWhere p l2.
Proof. intros H. unfold countWhere. by rewrite H. Qed.

Lemma sumZ_map {A B} (f : B -> Z) (g : A -> B) l : sumZ f (map g l) = sumZ (fun x => f (g x)) l.
Proof. unfold sumZ. induction l as [|x l IH]; simpl; [done|]. by rewrite IH. Qed.

Lemma sumZ_perm {R} (f : R -> Z) l1 l2 : l1 ≡ₚ l2 -> sumZ f l1 = sumZ f l2.
Proof. induction 1; simpl; lia. Qed.

Lemma findId_unique {R} `{Row R} (l : list R) r : NoDup (map rid l) -> r ∈ l -> findId (rid r) l = Some r.
Proof.
  intros Hn Hr. destruct (findId_elem l r Hr) as [r' E]. rewrite E. f_equal.
  apply findId_some in E as [Hr' E]. by eapply (NoDup_map_inj rid).
Qed.

Lemma updId_updWhere {R} `{Row R} id f (l : list R) : NoDup (map rid l) -> updId id f l = updWhere (fun r => rid r =s id) f l.
Proof.
  unfold updId, updWhere. induction l as [|x l IH]; simpl; [done|]. rewrite NoDup_cons. intros [Hx Hl].
  destruct (bool_decide_reflect (rid x = id)) as [E|E]; [|by rewrite IH]. f_equal. symmetry. subst.
  rewrite <- (map_id l) at 2. apply map_ext_in. intros y Hy. rewrite bool_decide_eq_false_2; [done|].
  intros E. apply Hx. rewrite <- E. apply list_elem_of_In, in_map, Hy.
Qed.

Lemma replace_rids {R} `{Row R} id (r r' : R) l : findId id l = Some r -> rid r' = id -> map rid (updId id (fun _ => r') l) = map rid l.
Proof.
  unfold findId, findFirst, updId. intros Hf Hr. induction l as [|x l IH]; simpl in *; [done|]. destruct (rid x =s id) eqn:E; simpl.
  - apply bool_decide_eq_true in E. by rewrite Hr, E.
  - by rewrite IH.
Qed.

Lemma updId_elem {R} `{Row R} id f (l : list R) x : NoDup (map rid l) ->
  x ∈ updId id f l <-> exists y, y ∈ l /\ x = if rid y =s id then f y else y.
Proof. intros Hn. rewrite updId_updWhere by done. apply updWhere_elem. Qed.

Lemma map_updWhere {R B} (g : R -> B) (p : R -> bool) f (l : list R) : (forall x, g (f x) = g x) -> map g (updWhere p f l) = map g l.
Proof. intros Hf. unfold updWhere. rewrite map_map. apply map_ext. intros x. by destruct (p x). Qed.

Lemma map_updId {R B} `{Row R} (g : R -> B) id f (l : list R) : (forall x, g (f x) = g x) -> map g (updId id f l) = map g l.
Proof. intros Hf. unfold updId. induction l as [|x l IH]; simpl; [done|]. destruct (bool_decide _); simpl; congruence. Qed.

(** ** Table evolution

    [evolves T l l']: every row of [l] is still there, in place, related by [T]
    to its new version; new rows come after. *)

Lemma Forall2_compose {A} (P Q S : A -> A -> Prop) l1 l2 l3 :
  (forall x y z, P x y -> Q y z -> S x z) -> Forall2 P l1 l2 -> Forall2 Q l2 l3 -> Forall2 S l1 l3.
Proof. intros HS F. revert l3. induction F; inversion 1; subst; constructor; eauto. Qed.

Definition evolves {R} (T : R -> R -> Prop) (l l' : list R) : Prop :=
  exists l1 l2, l' = l1 ++ l2 /\ Forall2 T l l1.

#[export] Instance evolves_preorder {R} (T : R -> R -> Prop) `{!PreOrder T} : PreOrder (evolves T).
Proof.
  split.
  - intros l. exists l, []. rewrite app_nil_r. split; [done|]. induction l; constructor; auto. reflexivity.
  - intros a b c (b1 & b2 & -> & F1) (c1 & c2 & -> & F2).
    apply Forall2_app_inv_l in F2 as (c11 & c12 & F21 & F22 & ->).
    exists c11, (c12 ++ c2). split; [by rewrite app_assoc|]. eapply Forall2_compose; eauto. intros; by etransitivity.
Qed.

Lemma evolves_app {R} (T : R -> R -> Prop) `{!Reflexive T} l l2 : evolves T l (l ++ l2).
Proof. exists l, l2. split; [done|]. induction l; constructor; auto. Qed.

Lemma evolves_updId {R} `{Row R} (T : R -> R -> Prop) `{!Reflexive T} id f l :
  (forall r, findId id l = Some r -> T r (f r)) -> evolves T l (updId id f l).
Proof.
  intros Hf. exists (updId id f l), []. rewrite app_nil_r. split; [done|].
  apply updFirst_Forall2; [reflexivity|exact Hf].
Qed.

Lemma evolves_updWhere {R} (T : R -> R -> Prop) `{!Reflexive T} (p : R -> bool) f l :
  (forall r, r ∈ l -> p r = true -> T r (f r)) -> evolves T l (updWhere p f l).
Proof.
  intros Hf. exists (updWhere p f l), []. rewrite app_nil_r. split; [done|]. unfold updWhere.
  induction l as [|x l IH]; simpl; constructor.
  - destruct (p x) eqn:E; [|reflexivity]. apply Hf; [by apply elem_of_cons; left|done].
  - apply IH. intros r Hr. apply Hf, elem_of_cons. by right.
Qed.

Lemma evolves_impl {R} (T T' : R -> R -> Prop) l l' : (forall a b, T a b -> T' a b) -> evolves T l l' -> evolves T' l l'.
Proof. intros Ht (l1 & l2 & -> & F). exists l1, l2. split; [done|]. by eapply Forall2_impl. Qed.

Lemma evolves_prefix {R} (T : R -> R -> Prop) l k l' : evolves T (l ++ k) l' -> evolves T l l'.
Proof.
  intros (l1 & l2 & -> & F). apply Forall2_app_inv_l in F as (a & b & F1 & _ & ->).
  exists a, (b ++ l2). by rewrite app_assoc.
Qed.

Lemma evolves_elem {R} (T : R -> R -> Prop) l l' r : evolves T l l' -> r ∈ l -> exists r', r' ∈ l' /\ T r r'.
Proof.
  intros (l1 & l2 & -> & F) [i Hi]%list_elem_of_lookup.
  destruct (Forall2_lookup_l _ _ _ _ _ F Hi) as (r' & Hr' & HT). exists r'. split; [|done].
  apply elem_of_app. left. by eapply list_elem_of_lookup_2.
Qed.

Lemma evolves_findId {R} `{Row R} (T : R -> R -> Prop) l l' id r :
  (forall a b, T a b -> rid b = rid a) -> evolves T l l' -> findId id l = Some r ->
  exists r', findId id l' = Some r' /\ T r r'.
Proof.
  intros Hid (l1 & l2 & -> & F). unfold findId, findFirst.
  induction F as [|x y l l1 Hxy F IH]; simpl; [done|]. rewrite (Hid _ _ Hxy).
  destruct (bool_decide (rid x = id)); [intros [= <-]; eauto|apply IH].
Qed.
