(* ===== verification/JsNum.v ===== *)
(** JsNum: the [number] type of the TypeScript sources.

    A JavaScript number is an IEEE-754 binary64.  Its finite values are
    rationals, and [+ - * /] return the exact result rounded to nearest, ties
    to even, with a 53-bit significand.  [rnd] is that rounding on [Q]; the
    exponent range is left unbounded, which is exact for every value the
    modelled code computes (they come from 32-bit integer columns, far from
    overflow and from the subnormals).  NaN and the infinities do not occur in
    the modelled arithmetic: every division has a positive divisor.

    The second half of the file is the error analysis the components need:
    [rnd] is monotone, exact on the integers up to 2^53, and has relative error
    at most 2^-53, so a floor of a quotient of integers is the integer
    quotient ([floor_fdiv]). *)

From Stdlib Require Import ZArith QArith Qround Qabs Qpower Qminmax Lqa Lia.
From Stdlib Require Import Setoid Morphisms.

Local Open Scope Q_scope.

(** ** Rounding *)

Definition pow2 (e : Z) : Q := Qpower 2 e.

(** Round half to even, to an integer. *)
Definition rhe (q : Q) : Z :=
  let f := Qfloor q in
  match Qcompare (q - inject_Z f) (1 # 2) with
  | Lt => f
  | Gt => f + 1
  | Eq => if Z.even f then f else f + 1
  end%Z.

(** The integer [l] with [2^l <= q < 2^(l+1)], for [q > 0]. *)
Definition qlog2 (q : Q) : Z :=
  let l := (Z.log2 (Qnum q) - Z.log2 (Zpos (Qden q)))%Z in
  if Qle_bool (pow2 l) q then l else (l - 1)%Z.

(** The significand has 53 bits: the unit in the last place of [q] is
    [2^(qlog2 q - 52)]. *)
Definition rnd_pos (q : Q) : Q :=
  let e := (qlog2 q - 52)%Z in
  inject_Z (rhe (q * pow2 (- e))) * pow2 e.

Definition rnd (q : Q) : Q :=
  match Qnum q with
  | Z0 => 0
  | Zpos _ => rnd_pos q
  | Zneg _ => - rnd_pos (- q)
  end.

(** ** The operators and the [Math] functions *)

Definition fadd (x y : Q) : Q := rnd (x + y).
Definition fsub (x y : Q) : Q := rnd (x - y).
Definition fmul (x y : Q) : Q := rnd (x * y).
Definition fdiv (x y : Q) : Q := rnd (x / y).

Definition math_floor (x : Q) : Z := Qfloor x.
Definition math_ceil (x : Q) : Z := Qceiling x.

(** [Math.round]: the nearest integer, a tie going up. *)
Definition math_round (x : Q) : Z := Qfloor (x + (1 # 2)).
Definition math_min (x y : Q) : Q := if Qle_bool x y then x else y.

(** A decimal literal of the source is the binary64 nearest to it. *)
Definition lit (num : Z) (den : positive) : Q := rnd (num # den).

(** The integer result of arithmetic on integers is exact in this range. *)
Definition int_ok (z : Z) : Prop := (Z.abs z <= 2 ^ 53)%Z.

(** ** Powers of two *)

Lemma pow2_pos e : 0 < pow2 e.
Proof. apply Qpower_0_lt. lra. Qed.

Lemma pow2_nz e : ~ pow2 e == 0.
Proof. pose proof (pow2_pos e). lra. Qed.

Lemma pow2_plus a b : pow2 (a + b) == pow2 a * pow2 b.
Proof. apply Qpower_plus. lra. Qed.

Lemma pow2_S a : pow2 (a + 1) == pow2 a * 2.
Proof. rewrite pow2_plus. apply Qmult_comp; [reflexivity | vm_compute; reflexivity]. Qed.

Lemma pow2_opp a : pow2 a * pow2 (- a) == 1.
Proof. rewrite <- pow2_plus, Z.add_opp_diag_r. reflexivity. Qed.

Lemma pow2_le a b : (a <= b)%Z -> pow2 a <= pow2 b.
Proof. intros H. apply Qpower_le_compat_l; [exact H | lra]. Qed.

Lemma pow2_lt_inv a b : pow2 a < pow2 b -> (a < b)%Z.
Proof. intros H. apply (Qpower_lt_compat_l_inv 2); [exact H | lra]. Qed.

Lemma pow2_Z e : (0 <= e)%Z -> pow2 e == inject_Z (2 ^ e).
Proof. intros H. unfold pow2. rewrite Zpower_Qpower by exact H. reflexivity. Qed.

#[export] Instance pow2_proper : Proper (eq ==> Qeq) pow2.
Proof. intros a b ->. reflexivity. Qed.

(** ** Round half to even *)

Lemma floor_split q : inject_Z (Qfloor q) <= q < inject_Z (Qfloor q) + 1.
Proof.
  split; [apply Qfloor_le|].
  pose proof (Qlt_floor q) as H. rewrite inject_Z_plus in H. exact H.
Qed.

Lemma floor_unique q z : inject_Z z <= q -> q < inject_Z z + 1 -> Qfloor q = z.
Proof.
  intros H1 H2. pose proof (floor_split q) as [H3 H4].
  assert (inject_Z z < inject_Z (Qfloor q + 1)) as A by (rewrite inject_Z_plus; change (inject_Z 1) with 1; lra).
  assert (inject_Z (Qfloor q) < inject_Z (z + 1)) as B by (rewrite inject_Z_plus; change (inject_Z 1) with 1; lra).
  rewrite <- Zlt_Qlt in A, B. lia.
Qed.

#[export] Instance Qfloor_proper : Proper (Qeq ==> eq) Qfloor.
Proof. intros p q H. rewrite H. reflexivity. Qed.

#[export] Instance rhe_proper : Proper (Qeq ==> eq) rhe.
Proof.
  intros p q H. unfold rhe. rewrite (Qfloor_proper _ _ H).
  rewrite (Qcompare_comp (p - inject_Z (Qfloor q)) (q - inject_Z (Qfloor q))
             (ltac:(rewrite H; reflexivity)) (1 # 2) (1 # 2) (Qeq_refl _)).
  reflexivity.
Qed.

Lemma rhe_bound q : q - (1 # 2) <= inject_Z (rhe q) <= q + (1 # 2).
Proof.
  unfold rhe. pose proof (floor_split q) as [H1 H2].
  destruct (Qcompare_spec (q - inject_Z (Qfloor q)) (1 # 2)) as [E|E|E];
    [destruct (Z.even _)| |]; rewrite ?inject_Z_plus; change (inject_Z 1) with 1; lra.
Qed.

Lemma rhe_Z z : rhe (inject_Z z) = z.
Proof.
  unfold rhe. rewrite Qfloor_Z.
  destruct (Qcompare_spec (inject_Z z - inject_Z z) (1 # 2)) as [E|E|E]; first [reflexivity | exfalso; lra].
Qed.

Lemma rhe_floor q : (Qfloor q <= rhe q <= Qfloor q + 1)%Z.
Proof. unfold rhe. cbv zeta. destruct (Qcompare _ _), (Z.even (Qfloor q)); lia. Qed.

Lemma rhe_mono p q : p <= q -> (rhe p <= rhe q)%Z.
Proof.
  intros H. destruct (Z.lt_total (Qfloor p) (Qfloor q)) as [L|[E|G]].
  - pose proof (floor_split q) as [H1 H2]. pose proof (floor_split p) as [H3 H4].
    pose proof (rhe_floor p). pose proof (rhe_floor q). lia.
  - unfold rhe. rewrite E.
    destruct (Qcompare_spec (p - inject_Z (Qfloor q)) (1 # 2)),
             (Qcompare_spec (q - inject_Z (Qfloor q)) (1 # 2));
      try destruct (Z.even _); first [lia | exfalso; lra].
  - pose proof (Qfloor_resp_le _ _ H). lia.
Qed.

Lemma rhe_ge z q : inject_Z z <= q -> (z <= rhe q)%Z.
Proof. intros H. rewrite <- (rhe_Z z). apply rhe_mono, H. Qed.

Lemma rhe_le z q : q <= inject_Z z -> (rhe q <= z)%Z.
Proof. intros H. rewrite <- (rhe_Z z). apply rhe_mono, H. Qed.

(** ** The binary logarithm *)

Lemma qlog2_spec q : 0 < q -> pow2 (qlog2 q) <= q < pow2 (qlog2 q + 1).
Proof.
  intros Hq. unfold qlog2.
  set (a := Z.log2 (Qnum q)). set (b := Z.log2 (Zpos (Qden q))).
  assert (0 < Qnum q)%Z as Hn by (unfold Qlt in Hq; simpl in Hq; lia).
  pose proof (Z.log2_spec (Qnum q) Hn) as [A1 A2]. fold a in A1, A2.
  pose proof (Z.log2_spec (Zpos (Qden q)) eq_refl) as [B1 B2]. fold b in B1, B2.
  pose proof (Z.log2_nonneg (Qnum q)). pose proof (Z.log2_nonneg (Zpos (Qden q))).
  fold a in H. fold b in H0.
  assert (q * inject_Z (Zpos (Qden q)) == inject_Z (Qnum q)) as E.
  { destruct q as [n d]. unfold Qeq. simpl. rewrite Pos.mul_1_r. ring. }
  rewrite Zle_Qle, <- pow2_Z in A1, B1 by lia. rewrite Zlt_Qlt, <- pow2_Z in A2, B2 by lia.
  pose proof (pow2_pos a). pose proof (pow2_pos b).
  rewrite <- Z.add_1_r, pow2_S in A2, B2.
  set (d := inject_Z (Zpos (Qden q))) in *. set (n := inject_Z (Qnum q)) in *.
  assert (pow2 (a - b) * pow2 b == pow2 a) as Pab
    by (rewrite <- pow2_plus; apply pow2_proper; lia).
  pose proof (pow2_pos (a - b)) as Pp.
  (* q is between 2^(a-b)/2 and 2^(a-b)*2 *)
  assert (q < pow2 (a - b) * 2) as U.
  { apply Qnot_le_lt. intros C. assert (pow2 (a-b) * 2 * pow2 b <= q * d) by nra. nra. }
  assert (pow2 (a - b) < q * 2) as L.
  { apply Qnot_le_lt. intros C. assert (q * 2 * pow2 b <= pow2 (a-b) * pow2 b) by nra. nra. }
  destruct (Qle_bool (pow2 (a - b)) q) eqn:C.
  - apply Qle_bool_iff in C. rewrite pow2_S. lra.
  - assert (q < pow2 (a - b)).
    { apply Qnot_le_lt. rewrite <- Qle_bool_iff. congruence. }
    replace (a - b - 1 + 1)%Z with (a - b)%Z by lia. split; [|assumption].
    assert (pow2 (a - b) == pow2 (a - b - 1) * 2) as S.
    { rewrite <- pow2_S. apply pow2_proper. lia. }
    lra.
Qed.

Lemma qlog2_unique q l : pow2 l <= q -> q < pow2 (l + 1) -> qlog2 q = l.
Proof.
  intros H1 H2. pose proof (pow2_pos l).
  destruct (qlog2_spec q) as [H3 H4]; [lra|].
  assert (l < qlog2 q + 1)%Z by (apply pow2_lt_inv; lra).
  assert (qlog2 q < l + 1)%Z by (apply pow2_lt_inv; lra). lia.
Qed.

Lemma qlog2_mono p q : 0 < p -> p <= q -> (qlog2 p <= qlog2 q)%Z.
Proof.
  intros Hp H. destruct (qlog2_spec p Hp) as [H1 _].
  destruct (qlog2_spec q) as [_ H2]; [lra|].
  assert (qlog2 p < qlog2 q + 1)%Z by (apply pow2_lt_inv; lra). lia.
Qed.

(** ** Properties of the rounding *)

Lemma qlog2_ext p q : 0 < p -> p == q -> qlog2 p = qlog2 q.
Proof.
  intros Hp E. destruct (qlog2_spec p Hp) as [H1 H2]. symmetry.
  apply qlog2_unique; rewrite <- E; assumption.
Qed.

Lemma rnd_pos_ext p q : 0 < p -> p == q -> rnd_pos p == rnd_pos q.
Proof. intros Hp E. unfold rnd_pos. rewrite (qlog2_ext p q Hp E), E. reflexivity. Qed.

(** The scaled significand [q * 2^(52 - qlog2 q)] is in [2^52, 2^53). *)
Lemma scaled_bounds q : 0 < q ->
  inject_Z (2 ^ 52) <= q * pow2 (- (qlog2 q - 52)) < inject_Z (2 ^ 53).
Proof.
  intros Hq. destruct (qlog2_spec q Hq) as [H1 H2].
  set (l := qlog2 q) in *.
  pose proof (pow2_pos (- (l - 52))) as P.
  assert (pow2 l * pow2 (- (l - 52)) == inject_Z (2 ^ 52)) as E1.
  { rewrite <- pow2_plus, <- pow2_Z by lia. apply pow2_proper. lia. }
  assert (pow2 (l + 1) * pow2 (- (l - 52)) == inject_Z (2 ^ 53)) as E2.
  { rewrite <- pow2_plus, <- pow2_Z by lia. apply pow2_proper. lia. }
  rewrite <- E1, <- E2. split.
  - apply Qmult_le_compat_r; [exact H1 | lra].
  - apply Qmult_lt_compat_r; assumption.
Qed.

Lemma rnd_pos_binade q : 0 < q -> pow2 (qlog2 q) <= rnd_pos q <= pow2 (qlog2 q + 1).
Proof.
  intros Hq. destruct (scaled_bounds q Hq) as [H1 H2]. unfold rnd_pos.
  set (l := qlog2 q) in *. set (s := q * pow2 (- (l - 52))) in *.
  assert (2 ^ 52 <= rhe s)%Z as L by (apply rhe_ge; exact H1).
  assert (rhe s <= 2 ^ 53)%Z as U by (apply rhe_le; lra).
  rewrite Zle_Qle in L, U. pose proof (pow2_pos (l - 52)) as P.
  assert (pow2 l == inject_Z (2 ^ 52) * pow2 (l - 52)) as E1.
  { rewrite <- pow2_Z, <- pow2_plus by lia. apply pow2_proper. lia. }
  assert (pow2 (l + 1) == inject_Z (2 ^ 53) * pow2 (l - 52)) as E2.
  { rewrite <- pow2_Z, <- pow2_plus by lia. apply pow2_proper. lia. }
  rewrite E1, E2. split; apply Qmult_le_compat_r; try assumption; lra.
Qed.

Lemma rnd_pos_pos q : 0 < q -> 0 < rnd_pos q.
Proof. intros Hq. destruct (rnd_pos_binade q Hq). pose proof (pow2_pos (qlog2 q)). lra. Qed.

Lemma rnd_pos_error q : 0 < q ->
  q - pow2 (qlog2 q - 53) <= rnd_pos q <= q + pow2 (qlog2 q - 53).
Proof.
  intros Hq. unfold rnd_pos. set (l := qlog2 q).
  pose proof (rhe_bound (q * pow2 (- (l - 52)))) as [B1 B2].
  pose proof (pow2_pos (l - 52)) as P. pose proof (pow2_opp (l - 52)) as O.
  assert (pow2 (l - 52) == pow2 (l - 53) * 2) as E.
  { rewrite <- pow2_S. apply pow2_proper. lia. }
  set (r := inject_Z (rhe _)) in *. set (a := pow2 (l - 52)) in *.
  set (b := pow2 (- (l - 52))) in *.
  assert (q == q * b * a) as Q by (rewrite <- Qmult_assoc, (Qmult_comm b a), O; ring).
  split; nra.
Qed.

Lemma rnd_pos_mono p q : 0 < p -> p <= q -> rnd_pos p <= rnd_pos q.
Proof.
  intros Hp H. assert (0 < q) as Hq by lra.
  pose proof (qlog2_mono p q Hp H) as L.
  destruct (Z.eq_dec (qlog2 p) (qlog2 q)) as [E|N].
  - unfold rnd_pos. rewrite E. apply Qmult_le_compat_r; [|apply Qlt_le_weak, pow2_pos].
    rewrite <- Zle_Qle. apply rhe_mono, Qmult_le_compat_r; [exact H|].
    apply Qlt_le_weak, pow2_pos.
  - destruct (rnd_pos_binade p Hp) as [_ H1]. destruct (rnd_pos_binade q Hq) as [H2 _].
    pose proof (pow2_le (qlog2 p + 1) (qlog2 q) ltac:(lia)). lra.
Qed.

Lemma rnd_of_pos q : 0 < q -> rnd q = rnd_pos q.
Proof. destruct q as [[|n|n] d]; unfold Qlt; simpl; intros; reflexivity || lia. Qed.

Lemma rnd_of_neg q : q < 0 -> rnd q = - rnd_pos (- q).
Proof. destruct q as [[|n|n] d]; unfold Qlt; simpl; intros; reflexivity || lia. Qed.

Lemma rnd_of_zero q : q == 0 -> rnd q = 0.
Proof. destruct q as [[|n|n] d]; unfold Qeq; simpl; intros; reflexivity || lia. Qed.

Lemma Q_sign q : q < 0 \/ q == 0 \/ 0 < q.
Proof. destruct (Q_dec q 0) as [[H|H]|H]; auto. Qed.

#[export] Instance rnd_proper : Proper (Qeq ==> Qeq) rnd.
Proof.
  intros p q E. destruct (Q_sign p) as [H|[H|H]].
  - rewrite (rnd_of_neg p H), (rnd_of_neg q) by lra.
    apply Qopp_comp, rnd_pos_ext; lra.
  - rewrite (rnd_of_zero p H), (rnd_of_zero q) by lra. reflexivity.
  - rewrite (rnd_of_pos p H), (rnd_of_pos q) by lra. apply rnd_pos_ext; lra.
Qed.

Lemma rnd_opp q : rnd (- q) == - rnd q.
Proof.
  destruct (Q_sign q) as [H|[H|H]].
  - rewrite (rnd_of_neg q H), (rnd_of_pos (- q)) by lra. ring.
  - rewrite (rnd_of_zero q H), (rnd_of_zero (- q)) by lra. ring.
  - rewrite (rnd_of_pos q H), (rnd_of_neg (- q)) by lra.
    apply Qopp_comp, rnd_pos_ext; lra.
Qed.

(** Rounding preserves order. *)
Lemma rnd_mono p q : p <= q -> rnd p <= rnd q.
Proof.
  intros H. destruct (Q_sign p) as [Hp|[Hp|Hp]], (Q_sign q) as [Hq|[Hq|Hq]]; try lra;
    rewrite ?(rnd_of_neg p), ?(rnd_of_zero p), ?(rnd_of_pos p),
            ?(rnd_of_neg q), ?(rnd_of_zero q), ?(rnd_of_pos q) by assumption; try lra.
  - pose proof (rnd_pos_mono (- q) (- p) ltac:(lra) ltac:(lra)). lra.
  - pose proof (rnd_pos_pos (- p)). lra.
  - pose proof (rnd_pos_pos (- p) ltac:(lra)). pose proof (rnd_pos_pos q Hq). lra.
  - pose proof (rnd_pos_pos q Hq). lra.
  - apply rnd_pos_mono; lra.
Qed.

Lemma rnd_nonneg q : 0 <= q -> 0 <= rnd q.
Proof. intros H. change 0 with (rnd 0). apply rnd_mono, H. Qed.

(** Relative error: half a unit in the last place, so at most [2^-53]. *)
Lemma rnd_error q : 0 <= q -> q - q * pow2 (-53) <= rnd q <= q + q * pow2 (-53).
Proof.
  intros H. destruct (Q_sign q) as [N|[Z|P]]; [lra| |].
  - rewrite (rnd_of_zero q Z), Z. lra.
  - rewrite (rnd_of_pos q P). destruct (rnd_pos_error q P). destruct (qlog2_spec q P) as [B _].
    assert (pow2 (qlog2 q - 53) <= q * pow2 (-53)).
    { replace (qlog2 q - 53)%Z with (qlog2 q + -53)%Z by lia. rewrite pow2_plus.
      apply Qmult_le_compat_r; [exact B | apply Qlt_le_weak, pow2_pos]. }
    lra.
Qed.

Lemma rnd_pos_repr z e : (0 < z < 2 ^ 53)%Z ->
  rnd_pos (inject_Z z * pow2 e) == inject_Z z * pow2 e.
Proof.
  intros Hz. set (q := inject_Z z * pow2 e). pose proof (pow2_pos e) as Pe.
  assert (0 < inject_Z z) as Pz by (change 0 with (inject_Z 0); rewrite <- Zlt_Qlt; lia).
  assert (0 < q) as Pq by (unfold q; nra).
  destruct (qlog2_spec q Pq) as [L _].
  assert (qlog2 q < e + 53)%Z as B.
  { apply pow2_lt_inv. eapply Qle_lt_trans; [exact L|].
    unfold q. rewrite Z.add_comm, (pow2_plus 53 e), (pow2_Z 53) by lia.
    apply Qmult_lt_compat_r; [exact Pe|]. rewrite <- Zlt_Qlt. lia. }
  unfold rnd_pos. set (k := (qlog2 q - 52)%Z) in *.
  assert (q * pow2 (- k) == inject_Z (z * 2 ^ (e - k))) as E.
  { unfold q. rewrite inject_Z_mult, <- pow2_Z, <- Qmult_assoc, <- pow2_plus by (subst k; lia).
    apply Qmult_comp; [reflexivity | apply pow2_proper; lia]. }
  rewrite E, rhe_Z, <- E, <- Qmult_assoc, (Qmult_comm (pow2 (- k))), pow2_opp. ring.
Qed.

Lemma rnd_repr z e : int_ok z -> rnd (inject_Z z * pow2 e) == inject_Z z * pow2 e.
Proof.
  assert (forall z e, (0 < z <= 2 ^ 53)%Z -> rnd (inject_Z z * pow2 e) == inject_Z z * pow2 e) as Pos.
  { clear. intros z e Hz. pose proof (pow2_pos e).
    assert (0 < inject_Z z) as Pz by (change 0 with (inject_Z 0); rewrite <- Zlt_Qlt; lia).
    assert (0 < inject_Z z * pow2 e) as Pq by (apply Qmult_lt_0_compat; assumption).
    rewrite (rnd_of_pos _ Pq).
    destruct (Z.eq_dec z (2 ^ 53)) as [->|N]; [|apply rnd_pos_repr; lia].
    assert (inject_Z (2 ^ 53) * pow2 e == inject_Z 1 * pow2 (e + 53)) as E.
    { rewrite <- pow2_Z, <- pow2_plus by lia. rewrite Qmult_1_l. apply pow2_proper. lia. }
    rewrite (rnd_pos_ext _ _ Pq E), rnd_pos_repr, E by lia. reflexivity. }
  intros Hz. unfold int_ok in Hz. destruct (Z.lt_total z 0) as [N|[->|P]].
  - assert (inject_Z z * pow2 e == - (inject_Z (- z) * pow2 e)) as E by (rewrite inject_Z_opp; ring).
    rewrite E, rnd_opp, Pos by lia. reflexivity.
  - rewrite rnd_of_zero; ring_simplify; reflexivity.
  - apply Pos. lia.
Qed.

(** Integers up to 2^53 are binary64 values. *)
Lemma rnd_Z z : int_ok z -> rnd (inject_Z z) == inject_Z z.
Proof.
  intros H. assert (inject_Z z == inject_Z z * pow2 0) as E by (unfold pow2; simpl; ring).
  rewrite E. apply rnd_repr, H.
Qed.

Lemma fadd_Z a b : int_ok (a + b) -> fadd (inject_Z a) (inject_Z b) == inject_Z (a + b).
Proof. intros H. unfold fadd. rewrite <- inject_Z_plus. apply rnd_Z, H. Qed.

Lemma fsub_Z a b : int_ok (a - b) -> fsub (inject_Z a) (inject_Z b) == inject_Z (a - b).
Proof.
  intros H. unfold fsub, Qminus. rewrite <- inject_Z_opp, <- inject_Z_plus. apply rnd_Z, H.
Qed.

(** A rounded value is on the same side of a representable integer. *)
Lemma rnd_le_Z q z : int_ok z -> q <= inject_Z z -> rnd q <= inject_Z z.
Proof. intros Hz H. rewrite <- (rnd_Z z Hz). apply rnd_mono, H. Qed.

Lemma rnd_ge_Z q z : int_ok z -> inject_Z z <= q -> inject_Z z <= rnd q.
Proof. intros Hz H. rewrite <- (rnd_Z z Hz). apply rnd_mono, H. Qed.

Lemma pow2_m53 : pow2 (-53) == 1 # 9007199254740992.
Proof. vm_compute. reflexivity. Qed.

(** [Math.floor(a / b)] of integers is the integer quotient. *)
Lemma floor_fdiv a b : (0 <= a < 2 ^ 53)%Z -> (0 < b)%Z ->
  math_floor (fdiv (inject_Z a) (inject_Z b)) = (a / b)%Z.
Proof.
  intros Ha Hb. unfold math_floor, fdiv. set (n := (a / b)%Z).
  pose proof (Z.div_mod a b ltac:(lia)) as D. fold n in D.
  pose proof (Z.mod_pos_bound a b Hb) as M. set (r := (a mod b)%Z) in *.
  assert (0 <= n)%Z as Hn by (apply Z.div_pos; lia).
  assert (n <= a)%Z as Hna by nia.
  assert (0 < inject_Z b) as Pb by (change 0 with (inject_Z 0); rewrite <- Zlt_Qlt; lia).
  assert (inject_Z a == inject_Z b * inject_Z n + inject_Z r) as E
    by (rewrite D at 1; rewrite inject_Z_plus, inject_Z_mult; reflexivity).
  set (q := inject_Z a / inject_Z b) in *.
  assert (q * inject_Z b == inject_Z a) as Q by (unfold q; field; lra).
  assert (0 <= inject_Z r <= inject_Z b - 1) as R.
  { change 0 with (inject_Z 0). change 1 with (inject_Z 1).
    unfold Qminus. rewrite <- inject_Z_opp, <- inject_Z_plus, <- !Zle_Qle. lia. }
  assert (0 <= inject_Z n) as Pn by (change 0 with (inject_Z 0); rewrite <- Zle_Qle; lia).
  assert (inject_Z a < 9007199254740992) as A.
  { change 9007199254740992 with (inject_Z 9007199254740992). rewrite <- Zlt_Qlt. lia. }
  apply floor_unique.
  - apply rnd_ge_Z; [unfold int_ok; lia|]. nra.
  - assert (0 <= q) as Pq by nra.
    destruct (rnd_error q Pq) as [_ U]. rewrite pow2_m53 in U.
    assert ((inject_Z n + 1 - q) * inject_Z b >= 1) as G by nra.
    assert (q * inject_Z b < 9007199254740992) by lra. nra.
Qed.
