(* ===== verification/Capacity.v ===== *)
(** Capacity: the pure capacity arithmetic, [capacity.math.ts].

    Columns are integers ([Z]); the two places where the source computes with
    fractions (the overallocation factor and the safety margin) go through the
    binary64 operations of [JsNum].  [ceilingFor] returns [None] for the
    source's [null] (no ceiling). *)

From S2P Require Import Prelude JsNum.
From Stdlib Require Import QArith Qround Lqa Lia.

Local Open Scope Z_scope.

(** ** Data *)

Definition UNLIMITED : Z := -1.

Record NodeCapacityInputs := mkInputs {
  memoryTotalMb : Z; memoryReservedMb : Z; memoryOverallocatePct : Z;
  diskTotalMb : Z; diskReservedMb : Z; diskOverallocatePct : Z;
  cpuTotalPercent : Z; cpuReservedPercent : Z; cpuOverallocatePct : Z }.

Record NodeUsage := mkUsage { u_memoryMb : Z; u_diskMb : Z; u_cpuPercent : Z }.

Record ResourceRequest := mkRequest { r_memoryMb : Z; r_diskMb : Z; r_cpuPercent : Z }.

Inductive CapacityStatus := normal | warning | high | critical.

Record CapacityThresholds := mkThresholds { warnPct : Q; highPct : Q; criticalPct : Q }.

Definition DEFAULT_CAPACITY_THRESHOLDS : CapacityThresholds :=
  {| warnPct := 70; highPct := 85; criticalPct := 95 |}.

Inductive CapacityMode := manual | auto.
Inductive CapacityProvenance := prov_auto | prov_manual | prov_unconfigured.

#[export] Instance CapacityMode_eq_dec : EqDecision CapacityMode.
Proof. solve_decision. Defined.
#[export] Instance CapacityProvenance_eq_dec : EqDecision CapacityProvenance.
Proof. solve_decision. Defined.

Record ResolvedDimension := mkResolved {
  detected : option Z; declared : Z; effectiveTotal : Z; safetyMarginPct : Z;
  adminReserve : Z; d_reserved : Z; provenance : CapacityProvenance }.

(** [5 * 60_000] milliseconds. *)
Definition TELEMETRY_STALE_MS : Z := 5 * 60000.

(** [NodeCapacityConfig extends NodeCapacityInputs]; dates are milliseconds. *)
Record NodeCapacityConfig := mkConfig {
  nc_inputs : NodeCapacityInputs;
  capacityMode : string;
  memorySafetyMarginPct : Z; diskSafetyMarginPct : Z; cpuSafetyMarginPct : Z;
  reportedMemoryLimitMb : option Z; reportedMemoryTotalMb : option Z;
  reportedDiskTotalMb : option Z; reportedCpuCount : option Z;
  reportedAt : option Z }.

Record ResolvedCapacity := mkResolvedCapacity {
  rc_inputs : NodeCapacityInputs;
  rc_memory : ResolvedDimension; rc_disk : ResolvedDimension; rc_cpu : ResolvedDimension;
  telemetryStale : bool }.

Record NodeAcceptanceInputs := mkAcceptance {
  a_capacityMode : string; a_maintenanceMode : bool; a_health : string;
  a_memory : ResolvedDimension; a_disk : ResolvedDimension; a_telemetryStale : bool }.

Inductive Dim := memory | disk | cpu.

Definition dimLabel (d : Dim) : string :=
  match d with memory => "memory" | disk => "disk" | cpu => "cpu" end.

Record PlanSlotsResult := mkSlots { slots : option Z; limiting : option Dim }.

(** ** Operations *)

Definition ceilingFor (total reserved overallocatePct : Z) : option Z :=
  if overallocatePct =? UNLIMITED then None
  else if total <=? 0 then None
  else Some (math_floor (fmul (inject_Z (total - reserved))
                              (fadd 1 (fdiv (inject_Z overallocatePct) 100)))).

Definition assertCapacity (label : string) (used requested total reserved pct : Z)
    (unit_ : string) : Res unit :=
  match ceilingFor total reserved pct with
  | None => Ok tt
  | Some ceiling =>
    if used + requested >? ceiling
    then Throw (Conflict ("NO_CAPACITY: node " +:+ label +:+ " would be " +:+ zstr (used + requested)
                          +:+ unit_ +:+ ", ceiling is " +:+ zstr ceiling +:+ unit_))
    else Ok tt
  end.

Definition assertSlots (occupied : Z) (maxSlots : option Z) : Res unit :=
  match maxSlots with
  | None => Ok tt
  | Some m =>
    if occupied >=? m
    then Throw (Conflict ("NO_SLOTS: plan would be " +:+ zstr (occupied + 1) +:+ ", max is " +:+ zstr m))
    else Ok tt
  end.

Definition assertNodeFits (node : NodeCapacityInputs) (usage : NodeUsage) (request : ResourceRequest)
    : Res unit :=
  assertCapacity "memory" (u_memoryMb usage) (r_memoryMb request)
    (memoryTotalMb node) (memoryReservedMb node) (memoryOverallocatePct node) "MB" ;;
  assertCapacity "disk" (u_diskMb usage) (r_diskMb request)
    (diskTotalMb node) (diskReservedMb node) (diskOverallocatePct node) "MB" ;;
  assertCapacity "cpu" (u_cpuPercent usage) (r_cpuPercent request)
    (cpuTotalPercent node) (cpuReservedPercent node) (cpuOverallocatePct node) "%".

(** One row of the [checks] and [dims] tables of the source. *)
Record Check_ := mkCheck {
  c_dim : Dim; c_used : Z; c_requested : Z; c_total : Z; c_reserved : Z;
  c_overallocate : Z; c_unit : string }.

Definition checks (node : NodeCapacityInputs) (usage : NodeUsage) (request : ResourceRequest) : list Check_ :=
  [ mkCheck memory (u_memoryMb usage) (r_memoryMb request) (memoryTotalMb node) (memoryReservedMb node) (memoryOverallocatePct node) "MB";
    mkCheck disk (u_diskMb usage) (r_diskMb request) (diskTotalMb node) (diskReservedMb node) (diskOverallocatePct node) "MB";
    mkCheck cpu (u_cpuPercent usage) (r_cpuPercent request) (cpuTotalPercent node) (cpuReservedPercent node) (cpuOverallocatePct node) "%" ].

Definition fitReason (c : Check_) : list string :=
  match ceilingFor (c_total c) (c_reserved c) (c_overallocate c) with
  | None => []
  | Some ceiling =>
    if c_used c + c_requested c >? ceiling
    then [dimLabel (c_dim c) +:+ ": would be " +:+ zstr (c_used c + c_requested c) +:+ c_unit c
          +:+ ", ceiling is " +:+ zstr ceiling +:+ c_unit c]
    else []
  end.

Definition nodeFitReasons (node : NodeCapacityInputs) (usage : NodeUsage) (request : ResourceRequest)
    : list string :=
  flat_map fitReason (checks node usage request).

Definition capacityStatus (usedPct : Q) (thresholds : CapacityThresholds) : CapacityStatus :=
  if Qle_bool (criticalPct thresholds) usedPct then critical
  else if Qle_bool (highPct thresholds) usedPct then high
  else if Qle_bool (warnPct thresholds) usedPct then warning
  else normal.

Definition resolveDimension (mode : CapacityMode) (declaredTotal declaredReserved marginPct : Z)
    (det : option Z) : ResolvedDimension :=
  match mode with
  | manual => mkResolved det declaredTotal declaredTotal 0 declaredReserved declaredReserved prov_manual
  | auto =>
    match det with
    | None => mkResolved det declaredTotal declaredTotal marginPct declaredReserved declaredReserved prov_unconfigured
    | Some d =>
      let marginAmount := math_round (fdiv (fmul (inject_Z d) (inject_Z marginPct)) 100) in
      mkResolved det declaredTotal d marginPct declaredReserved (marginAmount + declaredReserved) prov_auto
    end
  end.

Definition modeOf (m : string) : CapacityMode := if m =s "auto" then auto else manual.

Definition resolveNodeCapacity (now : Z) (node : NodeCapacityConfig) : ResolvedCapacity :=
  let i := nc_inputs node in
  let mode := modeOf (capacityMode node) in
  let mem := resolveDimension mode (memoryTotalMb i) (memoryReservedMb i) (memorySafetyMarginPct node)
    (match reportedMemoryLimitMb node with Some v => Some v | None => reportedMemoryTotalMb node end) in
  let dsk := resolveDimension mode (diskTotalMb i) (diskReservedMb i) (diskSafetyMarginPct node)
    (reportedDiskTotalMb node) in
  let cp := resolveDimension mode (cpuTotalPercent i) (cpuReservedPercent i) (cpuSafetyMarginPct node)
    (match reportedCpuCount node with Some n => Some (n * 100) | None => None end) in
  let stale := bool_decide (mode = auto) &&
    match reportedAt node with
    | None => true
    | Some t => now - t >? TELEMETRY_STALE_MS
    end in
  {| rc_inputs := {|
       memoryTotalMb := effectiveTotal mem; memoryReservedMb := d_reserved mem;
       memoryOverallocatePct := memoryOverallocatePct i;
       diskTotalMb := effectiveTotal dsk; diskReservedMb := d_reserved dsk;
       diskOverallocatePct := diskOverallocatePct i;
       cpuTotalPercent := effectiveTotal cp; cpuReservedPercent := d_reserved cp;
       cpuOverallocatePct := cpuOverallocatePct i |};
     rc_memory := mem; rc_disk := dsk; rc_cpu := cp; telemetryStale := stale |}.

(** [{ ok: true }] is [None]; [{ ok: false, reason }] is [Some reason]. *)
Definition nodeAcceptsNewServers (node : NodeAcceptanceInputs) : option string :=
  if a_maintenanceMode node then Some "Node is in maintenance mode"
  else if negb (a_capacityMode node =s "auto") then None
  else if (a_health node =s "offline") || (a_health node =s "degraded")
  then Some ("Node is " +:+ a_health node +:+ " — automatic capacity requires a recent heartbeat")
  else if (provenance (a_memory node) =s prov_unconfigured) || (provenance (a_disk node) =s prov_unconfigured)
  then Some "Node is in automatic capacity mode but has not reported hardware telemetry yet"
  else if a_telemetryStale node then Some "Node capacity telemetry is stale"
  else None.

(** The body of the [for (const d of dims)] loop; [best] is the loop variable. *)
Definition slotsStep (best : option (Dim * Z)) (d : Check_) : option (Dim * Z) :=
  if c_requested d <=? 0 then best
  else match ceilingFor (c_total d) (c_reserved d) (c_overallocate d) with
  | None => best
  | Some ceiling =>
    let remaining := Z.max (ceiling - c_used d) 0 in
    let n := math_floor (fdiv (inject_Z remaining) (inject_Z (c_requested d))) in
    match best with
    | None => Some (c_dim d, n)
    | Some (_, b) => if n <? b then Some (c_dim d, n) else best
    end
  end.

Definition slotsForPlanOnNode (node : NodeCapacityInputs) (usage : NodeUsage) (request : ResourceRequest)
    : PlanSlotsResult :=
  match fold_left slotsStep (checks node usage request) None with
  | None => {| slots := None; limiting := None |}
  | Some (label, n) => {| slots := Some n; limiting := Some label |}
  end.

(** ** Specifications *)

(** What "the request fits in this dimension" means, without messages. *)
Definition dimFits (c : Check_) : bool :=
  match ceilingFor (c_total c) (c_reserved c) (c_overallocate c) with
  | None => true
  | Some ceiling => c_used c + c_requested c <=? ceiling
  end.

Definition nodeFits (node : NodeCapacityInputs) (usage : NodeUsage) (request : ResourceRequest) : Prop :=
  Forall (fun c => dimFits c = true) (checks node usage request).

(** The text both reporting functions build for a failing dimension. *)
Definition overText (c : Check_) : string :=
  "would be " +:+ zstr (c_used c + c_requested c) +:+ c_unit c +:+ ", ceiling is "
  +:+ zstr (default 0 (ceilingFor (c_total c) (c_reserved c) (c_overallocate c))) +:+ c_unit c.

(** The ceiling in exact integer arithmetic. *)
Definition exactCeiling (total reserved pct : Z) : Z := (total - reserved) * (100 + pct) / 100.

(** Usage once [k] servers of the request have been placed. *)
Definition usageAfter (u : NodeUsage) (r : ResourceRequest) (k : Z) : NodeUsage :=
  {| u_memoryMb := u_memoryMb u + k * r_memoryMb r; u_diskMb := u_diskMb u + k * r_diskMb r;
     u_cpuPercent := u_cpuPercent u + k * r_cpuPercent r |}.

(** Column ranges: 32-bit totals, an overallocation of at most 100x, and
    non-negative usage and requests. *)
Definition dimOk (c : Check_) : Prop :=
  0 <= c_reserved c /\ c_total c < 2 ^ 31 /\ -1 <= c_overallocate c <= 10000 /\
  0 <= c_used c /\ 0 <= c_requested c.

(** ** Lemmas: the failing checks *)

Definition failing (c : Check_) : bool := negb (dimFits c).

Definition assertDim (c : Check_) : Res unit :=
  assertCapacity (dimLabel (c_dim c)) (c_used c) (c_requested c) (c_total c) (c_reserved c)
    (c_overallocate c) (c_unit c).

Lemma assertCapacity_dim c :
  assertDim c = if failing c then Throw (Conflict ("NO_CAPACITY: node " +:+ dimLabel (c_dim c) +:+ " " +:+ overText c)) else Ok tt.
Proof.
  unfold assertDim, assertCapacity, failing, dimFits, overText.
  destruct (ceilingFor _ _ _) as [ceil|]; [|done]. rewrite Z.gtb_ltb, Z.leb_antisym.
  by destruct (ceil <? _).
Qed.

Lemma fitReason_dim c :
  fitReason c = if failing c then [dimLabel (c_dim c) +:+ ": " +:+ overText c] else [].
Proof.
  unfold fitReason, failing, dimFits, overText.
  destruct (ceilingFor _ _ _) as [ceil|]; [|done]. rewrite Z.gtb_ltb, Z.leb_antisym.
  by destruct (ceil <? _).
Qed.

Lemma assertNodeFits_first n u r :
  assertNodeFits n u r =
  match List.filter failing (checks n u r) with
  | [] => Ok tt
  | c :: _ => Throw (Conflict ("NO_CAPACITY: node " +:+ dimLabel (c_dim c) +:+ " " +:+ overText c))
  end.
Proof.
  unfold checks. set (c1 := mkCheck memory _ _ _ _ _ _). set (c2 := mkCheck disk _ _ _ _ _ _).
  set (c3 := mkCheck cpu _ _ _ _ _ _).
  change (assertNodeFits n u r) with (assertDim c1 ;; assertDim c2 ;; assertDim c3).
  rewrite !assertCapacity_dim. cbn [List.filter].
  destruct (failing c1), (failing c2), (failing c3); reflexivity.
Qed.

Lemma nodeFitReasons_all n u r :
  nodeFitReasons n u r = map (fun c => dimLabel (c_dim c) +:+ ": " +:+ overText c) (List.filter failing (checks n u r)).
Proof.
  unfold nodeFitReasons. induction (checks n u r) as [|c l IH]; simpl; [done|].
  rewrite fitReason_dim, IH. by destruct (failing c).
Qed.

Lemma nodeFits_failing n u r : nodeFits n u r <-> List.filter failing (checks n u r) = [].
Proof.
  unfold nodeFits. generalize (checks n u r) as l. induction l as [|c l IH]; simpl; [by split|].
  rewrite Forall_cons, IH. unfold failing at 2. destruct (dimFits c); simpl; naive_solver.
Qed.

Lemma assertNodeFits_ok n u r : assertNodeFits n u r = Ok tt <-> nodeFits n u r.
Proof. rewrite nodeFits_failing, assertNodeFits_first. destruct (List.filter _ _); naive_solver. Qed.

Lemma nodeFitReasons_nil n u r : nodeFitReasons n u r = [] <-> nodeFits n u r.
Proof. rewrite nodeFits_failing, nodeFitReasons_all. destruct (List.filter _ _); naive_solver. Qed.

(** ** Lemmas: the overallocation factor *)

Definition factor (pct : Z) : Q := fadd 1 (fdiv (inject_Z pct) 100).

Lemma ceilingFor_some t r p c : ceilingFor t r p = Some c <->
  p <> -1 /\ 0 < t /\ c = math_floor (fmul (inject_Z (t - r)) (factor p)).
Proof.
  unfold ceilingFor, UNLIMITED, factor. destruct (Z.eqb_spec p (-1)), (Z.leb_spec t 0); naive_solver lia.
Qed.

Lemma inject_Z_nonneg z : 0 <= z -> (0 <= inject_Z z)%Q.
Proof. change 0%Q with (inject_Z 0). by rewrite <- Zle_Qle. Qed.

Lemma factor_mono p q : p <= q -> (factor p <= factor q)%Q.
Proof.
  intros H. unfold factor, fadd, fdiv. apply rnd_mono, Qplus_le_compat; [apply Qle_refl|].
  apply rnd_mono. rewrite Zle_Qle in H. unfold Qdiv. apply Qmult_le_compat_r; [done|].
  unfold Qle. simpl. lia.
Qed.

(** The factor is within [204 * 2^-53] of [1 + pct/100]. *)
Lemma factor_error p : 0 <= p <= 10000 ->
  (1 + inject_Z p / 100 - 204 * (1 # 9007199254740992) <= factor p
   <= 1 + inject_Z p / 100 + 204 * (1 # 9007199254740992))%Q.
Proof.
  intros [Hp1 Hp2]. rewrite Zle_Qle in Hp1, Hp2. unfold factor, fadd, fdiv.
  set (x := (inject_Z p / 100)%Q).
  assert (0 <= x <= 100)%Q as Hx.
  { unfold x, Qdiv. change (/ 100)%Q with (1 # 100)%Q. change (inject_Z 0) with 0%Q in Hp1.
    change (inject_Z 10000) with 10000%Q in Hp2. lra. }
  destruct (rnd_error x) as [A1 A2]; [lra|]. rewrite pow2_m53 in A1, A2.
  destruct (rnd_error (1 + rnd x)) as [B1 B2]; [lra|]. rewrite pow2_m53 in B1, B2. lra.
Qed.

Lemma factor_pos p : 0 <= p <= 10000 -> (1 <= factor p <= 102)%Q.
Proof.
  intros H. split.
  - assert (factor 0 == 1)%Q as <- by (vm_compute; reflexivity). apply factor_mono. lia.
  - pose proof (factor_mono p 10000 ltac:(lia)) as M. eapply Qle_trans; [exact M|].
    vm_compute. discriminate.
Qed.

(** The product the code floors is within 1/100 of the exact value. *)
Lemma product_error n p : 0 <= n <= 2 ^ 31 -> 0 <= p <= 10000 ->
  (inject_Z n * (1 + inject_Z p / 100) - (1 # 200) <= fmul (inject_Z n) (factor p)
   <= inject_Z n * (1 + inject_Z p / 100) + (1 # 200))%Q.
Proof.
  intros [Hn1 Hn2] Hp. destruct (factor_error p Hp) as [F1 F2]. destruct (factor_pos p Hp) as [G1 G2].
  rewrite Zle_Qle in Hn1, Hn2. change (inject_Z 0) with 0%Q in Hn1.
  change (inject_Z (2 ^ 31)) with 2147483648%Q in Hn2.
  set (N := inject_Z n) in *. set (f := factor p) in *. set (x := (1 + inject_Z p / 100)%Q) in *.
  unfold fmul. assert (0 <= N * f)%Q as Hnf by nra.
  destruct (rnd_error (N * f) Hnf) as [E1 E2]. rewrite pow2_m53 in E1, E2.
  assert (N * f <= 2147483648 * 102)%Q by nra.
  assert (N * x - N * (204 * (1 # 9007199254740992)) <= N * f <= N * x + N * (204 * (1 # 9007199254740992)))%Q
    as [K1 K2] by (split; nra).
  split; lra.
Qed.

(** ** Lemmas: slots *)

Definition dimSlots (c : Check_) : option Z :=
  if c_requested c <=? 0 then None
  else match ceilingFor (c_total c) (c_reserved c) (c_overallocate c) with
  | None => None
  | Some ceiling => Some (Z.max (ceiling - c_used c) 0 / c_requested c)
  end.

Lemma ceiling_range c ceil : dimOk c ->
  ceilingFor (c_total c) (c_reserved c) (c_overallocate c) = Some ceil -> ceil < 2 ^ 40.
Proof.
  intros (Hr & Ht & Hp & _) (Hp1 & Ht1 & ->)%ceilingFor_some.
  assert (0 <= c_overallocate c <= 10000) as Hp2 by lia.
  set (n := c_total c - c_reserved c). unfold math_floor.
  assert (fmul (inject_Z n) (factor (c_overallocate c)) <= inject_Z (2 ^ 39))%Q as B.
  { destruct (factor_pos _ Hp2) as [G1 G2]. unfold fmul. apply rnd_le_Z; [unfold int_ok; simpl; lia|].
    assert (inject_Z n <= 2147483648)%Q as Hn.
    { change 2147483648%Q with (inject_Z 2147483648). rewrite <- Zle_Qle. subst n. simpl in Ht. lia. }
    change (inject_Z (2 ^ 39)) with 549755813888%Q. nra. }
  apply Qfloor_resp_le in B. rewrite Qfloor_Z in B. simpl in B. simpl. lia.
Qed.

Lemma slotsStep_dim c best : dimOk c ->
  slotsStep best c =
  match dimSlots c with
  | None => best
  | Some n => match best with
              | None => Some (c_dim c, n)
              | Some (_, b) => if n <? b then Some (c_dim c, n) else best
              end
  end.
Proof.
  intros Hc. unfold slotsStep, dimSlots. destruct (Z.leb_spec (c_requested c) 0); [done|].
  destruct (ceilingFor _ _ _) as [ceil|] eqn:E; [|done].
  pose proof (ceiling_range _ _ Hc E) as B. destruct Hc as (_ & _ & _ & Hu & _).
  rewrite floor_fdiv by (simpl; simpl in B; lia). done.
Qed.

(** The loop computes the minimum of the dimensions' slots, and the dimension
    it reports attains it. *)
Lemma slots_fold_spec l best : Forall dimOk l ->
  match fold_left slotsStep l best with
  | None => best = None /\ Forall (fun c => dimSlots c = None) l
  | Some (d, m) =>
    (best = Some (d, m) \/ exists c, c ∈ l /\ c_dim c = d /\ dimSlots c = Some m) /\
    (forall d' b, best = Some (d', b) -> m <= b) /\
    (forall c x, c ∈ l -> dimSlots c = Some x -> m <= x)
  end.
Proof.
  revert best. induction l as [|c l IH]; intros best Hl; simpl.
  - destruct best as [[d m]|]; [|done]. split_and!; [by left | intros ?? [= -> ->]; lia | ].
    intros c x Hc. by apply not_elem_of_nil in Hc.
  - apply Forall_cons in Hl as [Hc Hl]. rewrite slotsStep_dim by done.
    set (best' := match dimSlots c with None => _ | Some n => _ end).
    specialize (IH best' Hl). destruct (fold_left slotsStep l best') as [[d m]|].
    + destruct IH as (A & B & C). split_and!.
      * destruct A as [A|(c' & ? & ? & ?)]; [|right; exists c'; split_and!; [by apply elem_of_cons; right|done..]].
        unfold best' in A. destruct (dimSlots c) as [n|] eqn:E; [|by left].
        destruct best as [[d0 b]|]; [destruct (Z.ltb_spec n b)|]; simplify_eq; eauto.
        all: right; exists c; split_and!; [by apply elem_of_cons; left|done..].
      * intros d' b ->. unfold best' in B. destruct (dimSlots c) as [n|]; [|by eapply B].
        destruct (Z.ltb_spec n b); [|by eapply B]. specialize (B _ _ eq_refl). lia.
      * intros c' x [->|Hc']%elem_of_cons Hx; [|by eapply C].
        unfold best' in B. rewrite Hx in B. destruct best as [[d0 b]|]; [|by eapply B].
        destruct (Z.ltb_spec x b); [by eapply B|]. specialize (B _ _ eq_refl). lia.
    + destruct IH as [A B]. unfold best' in A. destruct (dimSlots c) eqn:E; [|by split; [|constructor]].
      destruct best as [[d0 b]|]; [case_match|]; done.
Qed.

(** Placing servers one at a time in one dimension. *)
Definition placed (c : Check_) (k : Z) : Check_ :=
  mkCheck (c_dim c) (c_used c + k * c_requested c) (c_requested c) (c_total c) (c_reserved c)
    (c_overallocate c) (c_unit c).

Lemma checks_placed n u r k : checks n (usageAfter u r k) r = map (fun c => placed c k) (checks n u r).
Proof. reflexivity. Qed.

Lemma dimSlots_none c k : dimOk c -> dimSlots c = None -> (c_requested c = 0 -> dimFits c = true) ->
  dimFits (placed c k) = true.
Proof.
  intros (_ & _ & _ & _ & Hr) Hs Hz. unfold dimSlots in Hs. unfold dimFits in *. simpl.
  destruct (ceilingFor _ _ _) as [ceil|]; [|done].
  destruct (Z.leb_spec (c_requested c) 0); [|done].
  replace (c_requested c) with 0 in * by lia. rewrite Z.mul_0_r, Z.add_0_r. auto.
Qed.

Lemma dimSlots_some c m k : dimSlots c = Some m -> 0 <= k ->
  ((forall i, 0 <= i < k -> dimFits (placed c i) = true) <-> k <= m).
Proof.
  unfold dimSlots, dimFits. destruct (Z.leb_spec (c_requested c) 0) as [|Hr]; [done|]. simpl.
  destruct (ceilingFor _ _ _) as [ceil|]; [|done]. intros [= <-] Hk.
  set (q := c_requested c) in *. set (a := c_used c).
  pose proof (Z.div_mod (Z.max (ceil - a) 0) q ltac:(lia)) as D.
  pose proof (Z.mod_pos_bound (Z.max (ceil - a) 0) q Hr) as B.
  set (m := Z.max (ceil - a) 0 / q) in *. split.
  - intros H. destruct (Z.le_gt_cases k m) as [|Hm]; [done|].
    assert (0 <= m) by (subst m; apply Z.div_pos; lia).
    specialize (H m ltac:(lia)). apply Z.leb_le in H. nia.
  - intros Hm i Hi. apply Z.leb_le. nia.
Qed.

(** ** Theorems *)

(** The throwing gate of the create and transfer paths and the read-only
    preview agree: [assertNodeFits] accepts exactly when [nodeFitReasons] is
    empty, and when it throws, it is the [NO_CAPACITY:] conflict for the first
    dimension the preview lists, with the same numbers. *)
Theorem fit_gates_agree n u r :
  match nodeFitReasons n u r with
  | [] => assertNodeFits n u r = Ok tt
  | reason :: _ => exists d txt, reason = dimLabel d +:+ ": " +:+ txt /\
      assertNodeFits n u r = Throw (Conflict ("NO_CAPACITY: node " +:+ dimLabel d +:+ " " +:+ txt))
  end.
Proof.
  rewrite nodeFitReasons_all, assertNodeFits_first.
  destruct (List.filter failing (checks n u r)) as [|c l]; simpl; eauto.
Qed.

(** For 32-bit totals and an overallocation up to 100x, the floating-point
    ceiling never exceeds the exact integer ceiling (so rounding never oversells
    a node), and it is at most one unit below it, which happens only when the
    exact product is a whole number. *)
Theorem ceilingFor_exact t r p :
  0 < t -> 0 <= r <= t -> t <= 2 ^ 31 -> 0 <= p <= 10000 ->
  exists c, ceilingFor t r p = Some c /\
    exactCeiling t r p - 1 <= c <= exactCeiling t r p /\
    (c < exactCeiling t r p -> (t - r) * (100 + p) mod 100 = 0).
Proof.
  intros Ht Hr Ht2 Hp. exists (math_floor (fmul (inject_Z (t - r)) (factor p))).
  split; [apply ceilingFor_some; split_and!; lia|].
  destruct (product_error (t - r) p ltac:(lia) Hp) as [E1 E2].
  unfold exactCeiling. set (n := t - r) in *. set (P := n * (100 + p)).
  pose proof (Z.div_mod P 100 ltac:(lia)) as D. pose proof (Z.mod_pos_bound P 100 ltac:(lia)) as B.
  set (q := P / 100) in *. set (m := P mod 100) in *.
  assert (inject_Z n * (1 + inject_Z p / 100) == inject_Z q + inject_Z m / 100)%Q as X.
  { assert (inject_Z n * (100 + inject_Z p) == 100 * inject_Z q + inject_Z m)%Q as X'.
    { change 100%Q with (inject_Z 100). rewrite <- !inject_Z_plus, <- !inject_Z_mult, <- inject_Z_plus.
      fold P. by rewrite D at 1. }
    field_simplify; field_simplify in X'. rewrite <- X'. field. }
  rewrite X in E1, E2. set (v := fmul (inject_Z n) (factor p)) in *.
  destruct (floor_split v) as [V1 V2]. unfold math_floor. set (f := Qfloor v) in *.
  assert (0 <= inject_Z m <= 99)%Q as [M1 M2].
  { change 99%Q with (inject_Z 99). change 0%Q with (inject_Z 0). rewrite <- !Zle_Qle. lia. }
  unfold Qdiv in *. change (/ 100)%Q with (1 # 100)%Q in *.
  assert (f < q + 1) as U by (rewrite Zlt_Qlt, inject_Z_plus; change (inject_Z 1) with 1%Q; lra).
  assert (q < f + 2) as L by (rewrite Zlt_Qlt, inject_Z_plus; change (inject_Z 2) with 2%Q; lra).
  split; [lia|]. intros Hlt. destruct (Z.eq_dec m 0) as [|Hm]; [done|exfalso].
  assert (1 <= inject_Z m)%Q as M3 by (change 1%Q with (inject_Z 1); rewrite <- Zle_Qle; lia).
  assert (q < f + 1) as L' by (rewrite Zlt_Qlt, inject_Z_plus; change (inject_Z 1) with 1%Q; lra).
  lia.
Qed.

Lemma ceilingFor_exact_witness :
  exists c, ceilingFor 65536 4096 20 = Some c /\
    exactCeiling 65536 4096 20 - 1 <= c <= exactCeiling 65536 4096 20 /\
    (c < exactCeiling 65536 4096 20 -> (65536 - 4096) * (100 + 20) mod 100 = 0).
Proof. apply (ceilingFor_exact 65536 4096 20); lia. Defined.

(** The shortfall of the ceiling is real: a node with 100000 MB and a 15%
    overallocation has an exact ceiling of 115000 MB, the code computes
    114999, and so refuses a request that exactly fills the node. *)
Theorem ceiling_shortfall :
  exactCeiling 100000 0 15 = 115000 /\ ceilingFor 100000 0 15 = Some 114999 /\
  assertCapacity "memory" 0 115000 100000 0 15 "MB" =
    Throw (Conflict "NO_CAPACITY: node memory would be 115000MB, ceiling is 114999MB").
Proof. split_and!; vm_compute; reflexivity. Qed.

(** More hardware, a smaller reserve or a larger overallocation never
    lowers the ceiling. *)
Theorem ceilingFor_mono t1 r1 p1 t2 r2 p2 c1 c2 :
  0 <= p1 <= p2 -> p2 <= 10000 -> r2 <= r1 -> r1 <= t1 -> t1 <= t2 ->
  ceilingFor t1 r1 p1 = Some c1 -> ceilingFor t2 r2 p2 = Some c2 -> c1 <= c2.
Proof.
  intros Hp Hp2 Hr Hrt Ht (_ & _ & ->)%ceilingFor_some (_ & _ & ->)%ceilingFor_some.
  unfold math_floor, fmul. apply Qfloor_resp_le, rnd_mono.
  pose proof (factor_mono p1 p2 ltac:(lia)). destruct (factor_pos p1 ltac:(lia)).
  assert (inject_Z (t1 - r1) <= inject_Z (t2 - r2))%Q by (rewrite <- Zle_Qle; lia).
  pose proof (inject_Z_nonneg (t1 - r1) ltac:(lia)). nra.
Qed.

Lemma ceilingFor_mono_witness : 9216 <= 20480.
Proof. apply (ceilingFor_mono 8192 512 20 16384 0 25); (lia || (vm_compute; reflexivity)). Defined.

(** Every dimension the plan asks nothing of is within its ceiling already. *)
Definition unrequestedFit (n : NodeCapacityInputs) (u : NodeUsage) (r : ResourceRequest) : bool :=
  forallb (fun c => (0 <? c_requested c) || dimFits c) (checks n u r).

Lemma unrequestedFit_spec n u r : Forall dimOk (checks n u r) ->
  unrequestedFit n u r = true <-> forall c, c ∈ checks n u r -> c_requested c = 0 -> dimFits c = true.
Proof.
  intros Hok. unfold unrequestedFit. rewrite forallb_forall. setoid_rewrite <- list_elem_of_In. rewrite Forall_forall in Hok. split; intros Hz c Hc.
  - intros Er. specialize (Hz c Hc). rewrite Er in Hz. exact Hz.
  - destruct (Z.ltb_spec 0 (c_requested c)) as [|Hr]; [done|]. apply (Hz c Hc). destruct (Hok c Hc) as (_ & _ & _ & _ & ?). lia.
Qed.

(** The gate after [i] servers of the plan, dimension by dimension. *)
Lemma gate_after n u r i : assertNodeFits n (usageAfter u r i) r = Ok tt <-> Forall (fun c => dimFits (placed c i) = true) (checks n u r).
Proof. rewrite assertNodeFits_ok. unfold nodeFits. by rewrite checks_placed, Forall_map. Qed.

(** The gates of [k] servers in a row and the slots. *)
Lemma gate_slots n u r k : Forall dimOk (checks n u r) -> 0 <= k ->
  (forall i, 0 <= i < k -> assertNodeFits n (usageAfter u r i) r = Ok tt) <->
  k = 0 \/ unrequestedFit n u r = true /\ match slots (slotsForPlanOnNode n u r) with None => True | Some m => k <= m end.
Proof.
  intros Hok Hk. rewrite (unrequestedFit_spec n u r Hok). setoid_rewrite gate_after. setoid_rewrite Forall_forall. unfold slotsForPlanOnNode.
  pose proof (slots_fold_spec (checks n u r) None Hok) as S. rewrite Forall_forall in Hok. split.
  - intros Hall. destruct (Z.eq_dec k 0) as [|Hk0]; [by left|]. right. split.
    + intros c Hc Er. specialize (Hall 0 ltac:(lia) c Hc). unfold dimFits, placed in *. simpl in Hall. by rewrite Z.add_0_r in Hall.
    + destruct (fold_left slotsStep _ None) as [[d m]|]; [|done]. simpl. destruct S as ([[=]|(c0 & Hc0 & _ & Hm)] & _).
      apply (dimSlots_some c0 m k Hm Hk). intros i Hi. by apply Hall.
  - intros [->|[Hz Hm]] i Hi c Hc; [lia|]. destruct (dimSlots c) as [x|] eqn:E; [|apply dimSlots_none; auto].
    destruct (fold_left slotsStep _ None) as [[d m]|]; simpl in Hm.
    + destruct S as (_ & _ & Hmin). specialize (Hmin c x Hc E). apply (dimSlots_some c x k E Hk); [lia|done].
    + destruct S as [_ S]. rewrite Forall_forall in S. rewrite (S c Hc) in E. done.
Qed.

(** C5: for numbers within their columns, how many servers of a plan the create gate accepts on a node, one after the other: for every [k], the
    [k] successive [assertNodeFits] checks all pass if and only if [k] is zero, or [k] is within the advertised
    slots (any [k] when they are unlimited) and no dimension the plan asks nothing of is over its ceiling already. *)
Theorem slotsForPlanOnNode_correct n u r k : Forall dimOk (checks n u r) -> 0 <= k ->
  (forall i, 0 <= i < k -> assertNodeFits n (usageAfter u r i) r = Ok tt) <->
  k = 0 \/ unrequestedFit n u r = true /\ match slots (slotsForPlanOnNode n u r) with None => True | Some m => k <= m end.
Proof. apply gate_slots. Qed.

Definition demoNode : NodeCapacityInputs := mkInputs 16384 1024 0 200000 0 0 0 0 (-1).

Lemma slotsForPlanOnNode_correct_witness :
  slots (slotsForPlanOnNode demoNode (mkUsage 4096 20000 100) (mkRequest 4096 20000 200)) = Some 2 /\
  (forall i, 0 <= i < 2 -> assertNodeFits demoNode (usageAfter (mkUsage 4096 20000 100) (mkRequest 4096 20000 200) i) (mkRequest 4096 20000 200) = Ok tt).
Proof.
  split; [vm_compute; reflexivity|].
  apply (slotsForPlanOnNode_correct demoNode (mkUsage 4096 20000 100) (mkRequest 4096 20000 200) 2);
    [repeat constructor; simpl; lia|lia|right; split; [vm_compute; reflexivity|vm_compute; discriminate]].
Defined.

(** A plan without a CPU limit is advertised on a node whose CPU is over its ceiling, where the gate refuses it. *)
Theorem unrequested_dimension_refused :
  let n := mkInputs 16384 1024 0 200000 0 0 400 0 0 in let u := mkUsage 4096 20000 500 in let r := mkRequest 4096 20000 0 in
  slots (slotsForPlanOnNode n u r) = Some 2 /\ exists e, assertNodeFits n u r = Throw e.
Proof. vm_compute. split; [reflexivity|by eexists]. Qed.

(** The dimension reported as limiting is one whose own slot count is the
    reported minimum; no dimension the plan consumes has fewer. *)
Theorem slots_limiting_dimension n u r d m :
  Forall dimOk (checks n u r) ->
  slotsForPlanOnNode n u r = {| slots := Some m; limiting := Some d |} ->
  (exists c, c ∈ checks n u r /\ c_dim c = d /\ dimSlots c = Some m) /\
  (forall c x, c ∈ checks n u r -> dimSlots c = Some x -> m <= x).
Proof.
  intros Hok. unfold slotsForPlanOnNode. pose proof (slots_fold_spec (checks n u r) None Hok) as S.
  destruct (fold_left slotsStep _ None) as [[d' m']|]; [|done]. intros [= -> ->].
  by destruct S as ([[=]|S] & _ & Hmin).
Qed.

Lemma slots_limiting_dimension_witness :
  exists c, c ∈ checks demoNode (mkUsage 4096 20000 100) (mkRequest 4096 20000 200) /\
    c_dim c = memory /\ dimSlots c = Some 2.
Proof.
  apply (slots_limiting_dimension demoNode (mkUsage 4096 20000 100) (mkRequest 4096 20000 200) memory 2).
  - repeat constructor; simpl; lia.
  - vm_compute. reflexivity.
Defined.

(** "no telemetry, no sale".  A node in automatic mode that accepts new
    servers is not in maintenance, not offline or degraded, has reported
    memory and disk within the last five minutes, and the totals its ceilings
    are computed from are the reported ones, with the safety margin added to
    the admin reserve.  A manual node accepts exactly when it is not in
    maintenance, with its declared columns as the ceiling inputs. *)
Theorem acceptance_trusts_telemetry now node maintenance health :
  let rc := resolveNodeCapacity now node in
  let verdict := nodeAcceptsNewServers (mkAcceptance (capacityMode node) maintenance health
                   (rc_memory rc) (rc_disk rc) (telemetryStale rc)) in
  if capacityMode node =s "auto" then
    verdict = None <->
    maintenance = false /\ health <> "offline" /\ health <> "degraded" /\
    exists mem dsk t,
      (reportedMemoryLimitMb node = Some mem \/
       reportedMemoryLimitMb node = None /\ reportedMemoryTotalMb node = Some mem) /\
      reportedDiskTotalMb node = Some dsk /\ reportedAt node = Some t /\ now - t <= TELEMETRY_STALE_MS /\
      memoryTotalMb (rc_inputs rc) = mem /\ diskTotalMb (rc_inputs rc) = dsk /\
      memoryReservedMb (rc_inputs rc) =
        math_round (fdiv (fmul (inject_Z mem) (inject_Z (memorySafetyMarginPct node))) 100)
        + memoryReservedMb (nc_inputs node)
  else
    (verdict = None <-> maintenance = false) /\ rc_inputs rc = nc_inputs node.
Proof.
  cbv zeta. unfold nodeAcceptsNewServers, resolveNodeCapacity, modeOf. simpl.
  destruct (capacityMode node =s "auto") eqn:M; simpl.
  - destruct maintenance; [naive_solver|].
    destruct (bool_decide_reflect (health = "offline")); [naive_solver|].
    destruct (bool_decide_reflect (health = "degraded")); [naive_solver|]. simpl.
    destruct (reportedMemoryLimitMb node) as [ml|], (reportedMemoryTotalMb node) as [mt|],
      (reportedDiskTotalMb node) as [dt|]; simpl; try naive_solver.
    all: destruct (reportedAt node) as [t|]; [|naive_solver].
    all: rewrite Z.gtb_ltb; destruct (Z.ltb_spec TELEMETRY_STALE_MS (now - t)); simpl;
      split; [naive_solver lia | | naive_solver lia | ].
    all: naive_solver lia.
  - destruct maintenance; simpl; (split; [naive_solver|]); by destruct (nc_inputs node).
Qed.
