(* ===== verification/Store.v ===== *)
(** Store: the database rows, the world and the primitive effects.

    One record per Prisma model the modelled services touch, with the columns
    they read or write (timestamps are milliseconds; [None] is SQL NULL).  The
    [World] is the database plus what the services do outside it: the audit
    trail, the enqueued jobs and the calls to outside services, in order.

    [withRLS] is the transaction of [prisma.service.ts]: an exception rolls the
    database back, and nothing else (audit rows are written on another
    connection, and a network call cannot be undone). *)

From S2P Require Import Prelude Capacity.

Local Open Scope Z_scope.

(** ** Enumerated columns *)

Inductive SubscriptionStatus :=
  | Sub_pending | Sub_active | Sub_past_due | Sub_suspended | Sub_cancelled | Sub_expired.

Inductive BillingPeriod := monthly | quarterly | semiannual | annual | period_none.

Inductive OrderKind := plan_initial | plan_renewal | addon.

Inductive OrderStatus :=
  | Ord_pending | Ord_paid | Ord_failed | Ord_cancelled | Ord_refunded | Ord_expired.

Inductive ProvisioningStatus :=
  | Prov_not_required | Prov_pending | Prov_running | Prov_done | Prov_failed.

Inductive PaymentMethod := pix | boleto | card.

Inductive ServerStatus :=
  | Srv_setup_pending | Srv_installing | Srv_install_failed | Srv_ready | Srv_suspended
  | Srv_restoring_backup | Srv_transferring | Srv_deleting.

Inductive SuspensionSource := by_admin | by_billing.

Inductive TransferStatus :=
  | Tr_pending | Tr_archiving | Tr_uploading | Tr_restoring | Tr_success | Tr_failed | Tr_cancelled.

Inductive WebhookEventStatus := Wh_received | Wh_processed | Wh_ignored | Wh_failed.

#[export] Instance SubscriptionStatus_eq : EqDecision SubscriptionStatus.
Proof. solve_decision. Defined.
#[export] Instance BillingPeriod_eq : EqDecision BillingPeriod.
Proof. solve_decision. Defined.
#[export] Instance OrderKind_eq : EqDecision OrderKind.
Proof. solve_decision. Defined.
#[export] Instance OrderStatus_eq : EqDecision OrderStatus.
Proof. solve_decision. Defined.
#[export] Instance ProvisioningStatus_eq : EqDecision ProvisioningStatus.
Proof. solve_decision. Defined.
#[export] Instance PaymentMethod_eq : EqDecision PaymentMethod.
Proof. solve_decision. Defined.
#[export] Instance ServerStatus_eq : EqDecision ServerStatus.
Proof. solve_decision. Defined.
#[export] Instance SuspensionSource_eq : EqDecision SuspensionSource.
Proof. solve_decision. Defined.
#[export] Instance TransferStatus_eq : EqDecision TransferStatus.
Proof. solve_decision. Defined.

Definition subStatusStr (s : SubscriptionStatus) : string :=
  match s with
  | Sub_pending => "pending" | Sub_active => "active" | Sub_past_due => "past_due"
  | Sub_suspended => "suspended" | Sub_cancelled => "cancelled" | Sub_expired => "expired"
  end.

Definition orderStatusStr (s : OrderStatus) : string :=
  match s with
  | Ord_pending => "pending" | Ord_paid => "paid" | Ord_failed => "failed"
  | Ord_cancelled => "cancelled" | Ord_refunded => "refunded" | Ord_expired => "expired"
  end.

Definition serverStatusStr (s : ServerStatus) : string :=
  match s with
  | Srv_setup_pending => "setup_pending" | Srv_installing => "installing"
  | Srv_install_failed => "install_failed" | Srv_ready => "ready" | Srv_suspended => "suspended"
  | Srv_restoring_backup => "restoring_backup" | Srv_transferring => "transferring"
  | Srv_deleting => "deleting"
  end.

(** ** Rows *)

Record User := mkUser {
  usr_id : string; usr_email : string; usr_deletedAt : option Z;
  usr_cpf : option string; usr_firstName : option string; usr_lastName : option string;
  usr_postalCode : option string; usr_addressLine : option string; usr_addressNumber : option string;
  usr_neighborhood : option string; usr_city : option string; usr_state : option string }.

(** The catalogue columns of a plan: what only its administration and its display use. *)
Record PlanDetails := mkPlanDetails {
  pd_slug : string; pd_description : option string; pd_sortOrder : Z; pd_backupRetentionDays : Z;
  pd_planFamily : option string; pd_playersMin : option Z; pd_playersMax : option Z; pd_modsMin : option Z;
  pd_modsMax : option Z; pd_pluginsMin : option Z; pd_pluginsMax : option Z; pd_maxServers : option Z;
  pd_compareAtPriceCents : option Z; pd_isFeatured : bool; pd_highlightLabel : option string;
  pd_hardwareLabel : option string }.

Record Plan := mkPlan {
  pl_id : string; pl_name : string; pl_deletedAt : option Z; pl_isPublic : bool;
  pl_memoryMb : Z; pl_diskMb : Z; pl_swapMb : Z; pl_cpuLimitPercent : Z; pl_ioWeight : Z;
  pl_oomKillEnabled : bool; pl_maxDatabases : Z; pl_maxBackups : Z; pl_maxAllocations : Z;
  pl_maxSchedules : Z; pl_maxSlots : option Z; pl_priceCents : Z; pl_currency : string;
  pl_billingPeriod : BillingPeriod; pl_details : PlanDetails }.

Record PlanNode := mkPlanNode { pn_planId : string; pn_nodeId : string; pn_priority : Z }.

Record Node := mkNode {
  nd_id : string; nd_name : string; nd_locationId : string; nd_deletedAt : option Z;
  nd_maintenanceMode : bool; nd_isPublic : bool; nd_lastHeartbeatAt : option Z;
  nd_reservedForPlansAbovePriceCents : option Z; nd_config : NodeCapacityConfig }.

Record Allocation := mkAllocation {
  al_id : Z; al_nodeId : string; al_ip : string; al_port : Z;
  al_serverId : option string; al_isPrimary : bool }.

Record Server := mkServer {
  sv_id : string; sv_shortId : string; sv_ownerId : string; sv_nodeId : string;
  sv_templateId : option string; sv_planId : option string; sv_uid : option Z; sv_name : string;
  sv_dockerImage : option string; sv_startupCommand : option string;
  sv_cpuLimitPercent : Z; sv_memoryMb : Z; sv_swapMb : Z; sv_diskMb : Z; sv_ioWeight : Z;
  sv_oomKillEnabled : bool; sv_maxDatabases : Z; sv_maxBackups : Z; sv_maxAllocations : Z;
  sv_maxSchedules : Z; sv_status : ServerStatus; sv_suspendedAt : option Z;
  sv_suspensionReason : option string; sv_suspensionSource : option SuspensionSource;
  sv_installedAt : option Z; sv_powerState : string }.

Record Transfer := mkTransfer {
  tr_id : string; tr_serverId : string; tr_sourceNodeId : string; tr_targetNodeId : string;
  tr_targetAllocationId : option Z; tr_targetUid : option Z; tr_status : TransferStatus;
  tr_errorMessage : option string; tr_startedAt : option Z; tr_completedAt : option Z }.

Record Subscription := mkSubscription {
  sb_id : string; sb_userId : string; sb_planId : string; sb_serverId : option string;
  sb_status : SubscriptionStatus; sb_priceCents : Z; sb_currency : string;
  sb_billingPeriod : BillingPeriod; sb_startedAt : option Z; sb_currentPeriodEndsAt : option Z;
  sb_cancelledAt : option Z; sb_cancelReason : option string; sb_cancelAtPeriodEnd : bool;
  sb_paymentMethod : option PaymentMethod; sb_paymentProvider : string;
  sb_externalSubscriptionId : option string; sb_autoRenew : bool }.

Record SubscriptionEvent := mkEvent {
  ev_subscriptionId : string; ev_fromStatus : option SubscriptionStatus;
  ev_toStatus : SubscriptionStatus; ev_actorId : option string; ev_reason : option string;
  ev_createdAt : Z }.

(** [Order.config]: the snapshot of [order-config-snapshot.ts]. *)
Record PlanSnapshot := mkPlanSnapshot {
  ps_id : string; ps_name : string; ps_memoryMb : Z; ps_diskMb : Z; ps_cpuLimitPercent : Z }.

Record OrderConfigSnapshot := mkSnapshot {
  cs_serverName : option string;
  cs_template : option (string * string);   (* id, name *)
  cs_variables : option (list (string * string));
  cs_plan : option PlanSnapshot }.          (* absent in the [{}] of a renewal order *)

Record Order := mkOrder {
  or_id : string; or_externalReference : string; or_userId : string; or_planId : string;
  or_subscriptionId : option string; or_serverId : option string; or_kind : OrderKind;
  or_amountCents : Z; or_currency : string; or_status : OrderStatus; or_provider : string;
  or_paymentMethod : option PaymentMethod; or_checkoutUrl : option string;
  or_externalPreferenceId : option string; or_pixQrCode : option string;
  or_pixQrCodeBase64 : option string; or_boletoDigitableLine : option string;
  or_boletoUrl : option string; or_paidAmountCents : option Z; or_paidAt : option Z;
  or_expiresAt : option Z; or_provisioningStatus : ProvisioningStatus;
  or_provisioningError : option string; or_provisioningAttempts : Z;
  or_config : OrderConfigSnapshot; or_archivedAt : option Z }.

Record Payment := mkPayment {
  pm_id : string; pm_orderId : string; pm_status : string; pm_statusDetail : option string;
  pm_amountCents : Z; pm_paidAmountCents : option Z; pm_currency : string;
  pm_paymentMethodId : option string; pm_paymentTypeId : option string;
  pm_installments : option Z; pm_approvedAt : option Z }.

Record WebhookEvent := mkWebhookEvent {
  we_id : string; we_provider : string; we_type : string; we_dataId : option string;
  we_status : WebhookEventStatus; we_error : option string; we_processedAt : option Z }.

Record Template := mkTemplate {
  tp_id : string; tp_name : string; tp_deletedAt : option Z; tp_isActive : bool; tp_isPublic : bool;
  tp_dockerImages : list (string * string); tp_softwareKind : option string;
  tp_startupCommand : string; tp_installImage : string; tp_installEntrypoint : string;
  tp_installScript : string }.

Record TemplateVariable := mkTemplateVariable {
  tv_id : Z; tv_templateId : string; tv_envVariable : string; tv_name : string;
  tv_defaultValue : string; tv_rules : string; tv_isUserViewable : bool; tv_isUserEditable : bool;
  tv_description : option string; tv_sortOrder : Z }.

Record ServerVariable := mkServerVariable { vv_serverId : string; vv_variableId : Z; vv_value : string }.

#[export] Instance User_row : Row User := usr_id.
#[export] Instance Plan_row : Row Plan := pl_id.
#[export] Instance Node_row : Row Node := nd_id.
#[export] Instance Server_row : Row Server := sv_id.
#[export] Instance Transfer_row : Row Transfer := tr_id.
#[export] Instance Subscription_row : Row Subscription := sb_id.
#[export] Instance Order_row : Row Order := or_id.
#[export] Instance Payment_row : Row Payment := pm_id.
#[export] Instance WebhookEvent_row : Row WebhookEvent := we_id.
#[export] Instance Template_row : Row Template := tp_id.

#[export] Instance Allocation_settable : Settable Allocation := fun r =>
  mkAllocation (al_id r) (al_nodeId r) (al_ip r) (al_port r) (al_serverId r) (al_isPrimary r).

#[export] Instance Server_settable : Settable Server := fun r =>
  mkServer (sv_id r) (sv_shortId r) (sv_ownerId r) (sv_nodeId r) (sv_templateId r) (sv_planId r)
    (sv_uid r) (sv_name r) (sv_dockerImage r) (sv_startupCommand r) (sv_cpuLimitPercent r)
    (sv_memoryMb r) (sv_swapMb r) (sv_diskMb r) (sv_ioWeight r) (sv_oomKillEnabled r)
    (sv_maxDatabases r) (sv_maxBackups r) (sv_maxAllocations r) (sv_maxSchedules r) (sv_status r)
    (sv_suspendedAt r) (sv_suspensionReason r) (sv_suspensionSource r) (sv_installedAt r) (sv_powerState r).

#[export] Instance Transfer_settable : Settable Transfer := fun r =>
  mkTransfer (tr_id r) (tr_serverId r) (tr_sourceNodeId r) (tr_targetNodeId r)
    (tr_targetAllocationId r) (tr_targetUid r) (tr_status r) (tr_errorMessage r) (tr_startedAt r)
    (tr_completedAt r).

#[export] Instance Subscription_settable : Settable Subscription := fun r =>
  mkSubscription (sb_id r) (sb_userId r) (sb_planId r) (sb_serverId r) (sb_status r)
    (sb_priceCents r) (sb_currency r) (sb_billingPeriod r) (sb_startedAt r)
    (sb_currentPeriodEndsAt r) (sb_cancelledAt r) (sb_cancelReason r) (sb_cancelAtPeriodEnd r)
    (sb_paymentMethod r) (sb_paymentProvider r) (sb_externalSubscriptionId r) (sb_autoRenew r).

#[export] Instance Order_settable : Settable Order := fun r =>
  mkOrder (or_id r) (or_externalReference r) (or_userId r) (or_planId r) (or_subscriptionId r)
    (or_serverId r) (or_kind r) (or_amountCents r) (or_currency r) (or_status r) (or_provider r)
    (or_paymentMethod r) (or_checkoutUrl r) (or_externalPreferenceId r) (or_pixQrCode r)
    (or_pixQrCodeBase64 r) (or_boletoDigitableLine r) (or_boletoUrl r) (or_paidAmountCents r)
    (or_paidAt r) (or_expiresAt r) (or_provisioningStatus r) (or_provisioningError r)
    (or_provisioningAttempts r) (or_config r) (or_archivedAt r).

#[export] Instance Payment_settable : Settable Payment := fun r =>
  mkPayment (pm_id r) (pm_orderId r) (pm_status r) (pm_statusDetail r) (pm_amountCents r)
    (pm_paidAmountCents r) (pm_currency r) (pm_paymentMethodId r) (pm_paymentTypeId r)
    (pm_installments r) (pm_approvedAt r).

#[export] Instance WebhookEvent_settable : Settable WebhookEvent := fun r =>
  mkWebhookEvent (we_id r) (we_provider r) (we_type r) (we_dataId r) (we_status r) (we_error r) (we_processedAt r).

Record Db := mkDb {
  db_users : list User; db_plans : list Plan; db_planNodes : list PlanNode; db_nodes : list Node;
  db_allocations : list Allocation; db_servers : list Server; db_transfers : list Transfer;
  db_subscriptions : list Subscription; db_events : list SubscriptionEvent; db_orders : list Order;
  db_payments : list Payment; db_webhookEvents : list WebhookEvent; db_templates : list Template;
  db_templateVariables : list TemplateVariable; db_serverVariables : list ServerVariable }.

#[export] Instance Db_settable : Settable Db := fun r =>
  mkDb (db_users r) (db_plans r) (db_planNodes r) (db_nodes r) (db_allocations r) (db_servers r)
    (db_transfers r) (db_subscriptions r) (db_events r) (db_orders r) (db_payments r)
    (db_webhookEvents r) (db_templates r) (db_templateVariables r) (db_serverVariables r).

(** ** The world *)

(** An audit row: action, actor, target.  (The free-form metadata JSON is not kept.) *)
Record AuditEntry := mkAudit {
  au_action : string; au_actor : option string; au_targetType : string; au_targetId : string }.

(** Calls to the outside, in the order they were made. *)
Inductive ExtCall :=
  | PixChargeCall (idempotencyKey reference : string) (amountCents : Z)
  | BoletoChargeCall (idempotencyKey reference : string) (amountCents : Z)
  | CardSubscriptionCall (idempotencyKey reference : string) (amountCents : Z)
  | CancelSubscriptionCall (provider externalId : string)
  | RefundCall (provider paymentId : string)
  | EnqueueProvision (orderId : string)
  | EnqueueTransfer (transferId : string)
  | EnqueueWebhook (provider notificationId : string)
  | AgentCreate (nodeId serverId : string) (uid : Z)
  | AgentReinstall (nodeId serverId : string)
  | AgentDelete (nodeId serverId : string)
  | AgentSuspend (nodeId serverId : string) (suspended : bool)
  | AgentStop (nodeId serverId : string)
  | AgentLimits (nodeId serverId : string) (cpuPercent memoryMb swapMb diskMb ioWeight : Z)
  | AgentVariables (nodeId serverId : string) (values : list (string * string))
  | ActivityRow (actorId serverId event : string)
  | AgentExport (nodeId serverId : string)
  | AgentImport (nodeId serverId transferId : string) (uid : Z).

Record World := mkWorld {
  w_db : Db; w_audit : list AuditEntry; w_calls : list ExtCall; w_next : N;
  w_counters : list (string * Z) }.

#[export] Instance World_settable : Settable World := fun w =>
  mkWorld (w_db w) (w_audit w) (w_calls w) (w_next w) (w_counters w).

(** What the database and Node's [crypto] provide: [uuidv7()] primary keys,
    the random part of an order reference, [randomBytes(8)] draws, the
    collation order of text columns ([ORDER BY name]), and Unicode lower-casing. *)
Class Platform := {
  uuidv7 : N -> string;
  randomRef : N -> string;
  randomBytes8 : N -> list Z;
  collate : string -> string -> bool;
  toLowerCase : string -> string;
}.

Abbreviation MW := (M World).

(** ** Primitive effects *)

Definition withRLS {A} (m : MW A) : MW A := fun w =>
  match m w with
  | (Ok a, w') => (Ok a, w')
  | (Throw e, w') => (Throw e, w' <| w_db := w_db w |>)
  end.

Definition onDb (f : Db -> Db) : MW unit := modify (fun w => w <| w_db := f (w_db w) |>).

Definition freshN : MW N := fun w => (Ok (w_next w), w <| w_next := (w_next w + 1)%N |>).

Definition call (c : ExtCall) : MW unit := modify (fun w => w <| w_calls := w_calls w ++ [c] |>).

(** What the node agents and the job queues answer: [None] is a success, [Some e]
    the exception [AgentClient] or BullMQ throws.  The answer may depend on
    everything sent before. *)
Class Outside := { agentReply : list ExtCall -> ExtCall -> option exn }.

Definition agentCall `{Outside} (c : ExtCall) : MW unit :=
  before ← gets w_calls;
  call c ;;
  match agentReply before c with Some e => throw e | None => mret tt end.

(** [queue.add]: fails when Redis does. *)
Definition enqueue `{Outside} (c : ExtCall) : MW unit := agentCall c.

(** [AuditService.record]: appends, and never throws. *)
Definition record (action : string) (actor : option string) (targetType targetId : string) : MW unit :=
  modify (fun w => w <| w_audit := w_audit w ++ [mkAudit action actor targetType targetId] |>).

(** Redis [INCR] of a counter key; returns the new value. *)
Definition incr (key : string) : MW Z := fun w =>
  let old := default 0 (snd <$> findFirst (fun p => fst p =s key) (w_counters w)) in
  (Ok (old + 1), w <| w_counters := (key, old + 1) :: List.filter (fun p => negb (fst p =s key)) (w_counters w) |>).

(** The CHECK constraints on [servers] (migrations 0001, 0028 and 0031). *)
Definition serverRowOk (s : Server) : bool :=
  Bool.eqb (sv_status s =s Srv_suspended) (bool_decide (is_Some (sv_suspendedAt s))) &&
  Bool.eqb (sv_status s =s Srv_suspended) (bool_decide (is_Some (sv_suspensionSource s))) &&
  Bool.eqb (sv_status s =s Srv_setup_pending) (sv_templateId s =s None) &&
  ((sv_status s =s Srv_setup_pending) ||
   (bool_decide (is_Some (sv_dockerImage s)) && bool_decide (is_Some (sv_startupCommand s)))).

(** [tx.server.create]: refused when the row violates a CHECK. *)
Definition createServerRow (s : Server) : MW Server :=
  if serverRowOk s
  then onDb (fun d => d <| db_servers := db_servers d ++ [s] |>) ;; mret s
  else throw (CheckViolation "servers").

(** [tx.server.delete] with the schema's referential actions: allocations,
    subscriptions and orders keep their row and lose the reference; transfers
    and variables of the server go with it. *)
Definition deleteServerRow (id : string) : MW unit :=
  row ← gets (fun w => findId id (db_servers (w_db w)));
  match row with
  | None => throw RecordNotFound
  | Some _ =>
    onDb (fun d => d <| db_servers := List.filter (fun s => negb (sv_id s =s id)) (db_servers d) |>
      <| db_allocations := updWhere (fun a => al_serverId a =s Some id) (fun a => a <| al_serverId := None |>) (db_allocations d) |>
      <| db_subscriptions := updWhere (fun s => sb_serverId s =s Some id) (fun s => s <| sb_serverId := None |>) (db_subscriptions d) |>
      <| db_orders := updWhere (fun o => or_serverId o =s Some id) (fun o => o <| or_serverId := None |>) (db_orders d) |>
      <| db_transfers := List.filter (fun t => negb (tr_serverId t =s id)) (db_transfers d) |>
      <| db_serverVariables := List.filter (fun v => negb (vv_serverId v =s id)) (db_serverVariables d) |>)
  end.

(** [tx.<model>.update({ where: { id }, data })]: P2025 when there is no row. *)
Definition updateSubscription (id : string) (f : Subscription -> Subscription) : MW Subscription :=
  row ← gets (fun w => findId id (db_subscriptions (w_db w)));
  match row with
  | None => throw RecordNotFound
  | Some s =>
    onDb (fun d => d <| db_subscriptions := updId id f (db_subscriptions d) |>) ;; mret (f s)
  end.

Definition updateOrder (id : string) (f : Order -> Order) : MW Order :=
  row ← gets (fun w => findId id (db_orders (w_db w)));
  match row with
  | None => throw RecordNotFound
  | Some o => onDb (fun d => d <| db_orders := updId id f (db_orders d) |>) ;; mret (f o)
  end.

(** A server row that would violate a CHECK is refused by the database. *)
Definition updateServer (id : string) (f : Server -> Server) : MW Server :=
  row ← gets (fun w => findId id (db_servers (w_db w)));
  match row with
  | None => throw RecordNotFound
  | Some s =>
    if serverRowOk (f s)
    then onDb (fun d => d <| db_servers := updId id f (db_servers d) |>) ;; mret (f s)
    else throw (CheckViolation "servers")
  end.

Definition updateTransfer (id : string) (f : Transfer -> Transfer) : MW Transfer :=
  row ← gets (fun w => findId id (db_transfers (w_db w)));
  match row with
  | None => throw RecordNotFound
  | Some t => onDb (fun d => d <| db_transfers := updId id f (db_transfers d) |>) ;; mret (f t)
  end.

Definition updateAllocation (id : Z) (f : Allocation -> Allocation) : MW unit :=
  rows ← gets (fun w => db_allocations (w_db w));
  if existsb (fun a => al_id a =? id) rows
  then onDb (fun d => d <| db_allocations := updWhere (fun a => al_id a =? id) f (db_allocations d) |>)
  else throw RecordNotFound.

Definition addSubscriptionEvent (e : SubscriptionEvent) : MW unit :=
  onDb (fun d => d <| db_events := db_events d ++ [e] |>).

(** ** The transaction rule *)

Lemma keeps_withRLS {A} (R : World -> World -> Prop) `{!PreOrder R} (m : MW A) :
  keeps R m ->
  (forall w w', R w w' -> R w (w' <| w_db := w_db w |>)) ->
  keeps R (withRLS m).
Proof.
  intros Hm Hroll w r w'. unfold withRLS. destruct (m w) as [[a|e] w1] eqn:E; intros Hr;
    injection Hr as <- <-; [by eapply Hm|]. apply Hroll. by eapply Hm.
Qed.

Lemma withRLS_ok {A} (m : MW A) w a w' : withRLS m w = (Ok a, w') <-> m w = (Ok a, w').
Proof. unfold withRLS. destruct (m w) as [[b|e] w1]; naive_solver. Qed.

Lemma withRLS_throw {A} (m : MW A) w e w' : withRLS m w = (Throw e, w') -> w_db w' = w_db w.
Proof. unfold withRLS. destruct (m w) as [[b|e'] w1]; [done|]. by intros [= _ <-]. Qed.

(** ** Frames

    [same π]: a run leaves the part [π] of the state alone.  [frame] proves
    [keeps (same π) m] by unfolding [m] down to its primitive effects and
    checking that none of them touches [π]. *)

Definition same {S A} (π : S -> A) (w w' : S) : Prop := π w' = π w.

#[export] Instance same_preorder {S A} (π : S -> A) : PreOrder (same π).
Proof. split; unfold same; congruence. Qed.

Create HintDb frame.
#[export] Hint Unfold createServerRow deleteServerRow updateSubscription updateOrder updateServer updateTransfer
  updateAllocation addSubscriptionEvent agentCall enqueue : frame.

Ltac frame_prim :=
  let E := fresh "E" in
  intros ? ? ? E; unfold onDb, record, call, freshN, incr, modify in E; injection E as <- <-;
  first [reflexivity | unfold same; simpl; repeat case_match; reflexivity].

Ltac frame_withRLS :=
  match goal with
  | |- keeps ?R (withRLS _) => apply (keeps_withRLS R); [|intros ? ? ?; first [assumption | reflexivity]]
  end.

Ltac frame :=
  autounfold with frame;
  repeat (first [solve [eauto with keeps] | frame_withRLS | progress keeps_step | frame_prim]).

Lemma keeps_same {S A B} (π : S -> B) (m : M S A) w r w' : keeps (same π) m -> m w = (r, w') -> π w' = π w.
Proof. intros K E. exact (K _ _ _ E). Qed.

Lemma agentCall_ok `{Outside} c w u w' : agentCall c w = (Ok u, w') -> w_db w' = w_db w /\ w_calls w' = w_calls w ++ [c].
Proof.
  unfold agentCall, mbind, M_bind, gets, call, modify. destruct (agentReply _ _); [done|]. intros [= _ <-]. done.
Qed.

Lemma bind_ok_record {A} (k : MW A) a b c d w r w' : (record a b c d ;; k) w = (r, w') ->
  exists w1, w_db w1 = w_db w /\ w_calls w1 = w_calls w /\ k w1 = (r, w').
Proof. unfold record, modify, mbind, M_bind. intros E. eexists. split; [|split; [|exact E]]; done. Qed.

(** The calls made so far are never taken back. *)
Definition callsGrow (w w' : World) : Prop := exists rest, w_calls w' = w_calls w ++ rest.

#[export] Instance callsGrow_preorder : PreOrder callsGrow.
Proof.
  split; [intros w; exists []; by rewrite app_nil_r|].
  intros a b c [r1 E1] [r2 E2]. exists (r1 ++ r2). by rewrite E2, E1, app_assoc.
Qed.

Lemma onDb_grow f : keeps callsGrow (onDb f).
Proof. intros w r w' [= <- <-]. exists []. by rewrite app_nil_r. Qed.

Lemma record_grow a b c d : keeps callsGrow (record a b c d).
Proof. intros w r w' [= <- <-]. exists []. by rewrite app_nil_r. Qed.

Lemma call_grow c : keeps callsGrow (call c).
Proof. intros w r w' [= <- <-]. by exists [c]. Qed.

Ltac grow := autounfold with frame; repeat first
  [ apply onDb_grow | apply record_grow | apply call_grow
  | apply (keeps_withRLS callsGrow); [|by intros ?? [rest ?]; exists rest] | keeps_step ].
