(* ===== verification/Scheduler.v ===== *)
(** Scheduler: node health, committed usage and node selection.

    [deriveHealthStatus] and [deriveTelemetryDivergence] of [nodes.service.ts],
    the read side of [capacity.service.ts] as functions of the database, the
    scoring of [scheduler.math.ts] and [NodeSchedulerService.selectNode].
    Every clock read is the [now] argument. *)

From S2P Require Import Prelude JsNum Capacity Store.
From Stdlib Require Import QArith Qround Lqa Lia.

Local Open Scope Z_scope.

(** ** nodes.service.ts *)

Definition ONLINE_THRESHOLD_MS : Z := 45000.
Definition DEGRADED_THRESHOLD_MS : Z := 120000.

Definition deriveHealthStatus (now : Z) (lastHeartbeatAt : option Z) : string :=
  match lastHeartbeatAt with
  | None => "unknown"
  | Some t =>
    let age := now - t in
    if age <? ONLINE_THRESHOLD_MS then "online"
    else if age <? DEGRADED_THRESHOLD_MS then "degraded"
    else "offline"
  end.

Inductive DivergenceStatus := div_ok | div_over | div_unknown.

Definition deriveTelemetryDivergence (node : NodeCapacityConfig)
    : DivergenceStatus * DivergenceStatus * DivergenceStatus :=
  let i := nc_inputs node in
  let mem := match reportedMemoryTotalMb node with
             | None => div_unknown
             | Some r => if memoryTotalMb i >? r then div_over else div_ok end in
  let dsk := match reportedDiskTotalMb node with
             | None => div_unknown
             | Some r => if diskTotalMb i >? r then div_over else div_ok end in
  let cp := if cpuTotalPercent i <=? 0 then div_unknown
            else match reportedCpuCount node with
                 | None => div_unknown
                 | Some r => if negb (Qle_bool (fdiv (inject_Z (cpuTotalPercent i)) 100) (inject_Z r))
                             then div_over else div_ok end in
  (mem, dsk, cp).

(** ** capacity.service.ts *)

Definition UID_BASE : Z := 100000.

Definition ACTIVE_TRANSFER_STATUSES : list TransferStatus :=
  [Tr_pending; Tr_archiving; Tr_uploading; Tr_restoring].

Definition SLOT_HOLDING_SUBSCRIPTION_STATUSES : list SubscriptionStatus := [Sub_active].

Definition occupiedSlots (d : Db) (planId : string) : Z :=
  countWhere (fun s => (sv_planId s =s Some planId) && negb (sv_status s =s Srv_deleting)) (db_servers d) +
  countWhere (fun s => (sb_planId s =s planId) && (sb_serverId s =s None) &&
                       bool_decide (sb_status s ∈ SLOT_HOLDING_SUBSCRIPTION_STATUSES)) (db_subscriptions d).

Definition isNodeAllowedForPlan (d : Db) (planId nodeId : string) : bool :=
  let restrictions := countWhere (fun r => pn_planId r =s planId) (db_planNodes d) in
  if restrictions =? 0 then true
  else countWhere (fun r => (pn_planId r =s planId) && (pn_nodeId r =s nodeId)) (db_planNodes d) >? 0.

(** [select: { server: ... }]: the transfer's server, a required foreign key. *)
Definition transferServers (d : Db) (ts : list Transfer) : list Server :=
  omap (fun t => findId (tr_serverId t) (db_servers d)) ts.

Definition settledOn (d : Db) (nodeId : string) : list Server :=
  List.filter (fun s => (sv_nodeId s =s nodeId) && negb (sv_status s =s Srv_deleting)) (db_servers d).

Definition inFlightTo (d : Db) (nodeId : string) : list Transfer :=
  List.filter (fun t => (tr_targetNodeId t =s nodeId) && bool_decide (tr_status t ∈ ACTIVE_TRANSFER_STATUSES))
    (db_transfers d).

Definition usageForNode (d : Db) (nodeId : string) : NodeUsage :=
  let settled := settledOn d nodeId in
  let inFlight := transferServers d (inFlightTo d nodeId) in
  {| u_memoryMb := sumZ sv_memoryMb settled + sumZ sv_memoryMb inFlight;
     u_diskMb := sumZ sv_diskMb settled + sumZ sv_diskMb inFlight;
     u_cpuPercent := sumZ sv_cpuLimitPercent settled + sumZ sv_cpuLimitPercent inFlight |}.

Definition addUsage (u : NodeUsage) (mem dsk cp : Z) : NodeUsage :=
  mkUsage (u_memoryMb u + mem) (u_diskMb u + dsk) (u_cpuPercent u + cp).

(** [groupBy(['nodeId'])] with the sums: one row per node id that occurs. *)
Definition groupByNode (rows : list Server) : list (string * NodeUsage) :=
  map (fun id =>
         let own := List.filter (fun s => sv_nodeId s =s id) rows in
         (id, mkUsage (sumZ sv_memoryMb own) (sumZ sv_diskMb own) (sumZ sv_cpuLimitPercent own)))
      (remove_dups (map sv_nodeId rows)).

Definition settledStep (usage : gmap string NodeUsage) (row : string * NodeUsage) : gmap string NodeUsage :=
  match usage !! row.1 with
  | None => usage
  | Some u => <[row.1 := addUsage u (u_memoryMb row.2) (u_diskMb row.2) (u_cpuPercent row.2)]> usage
  end.

Definition inFlightStep (d : Db) (usage : gmap string NodeUsage) (t : Transfer) : gmap string NodeUsage :=
  match usage !! tr_targetNodeId t, findId (tr_serverId t) (db_servers d) with
  | Some u, Some s =>
    <[tr_targetNodeId t := addUsage u (sv_memoryMb s) (sv_diskMb s) (sv_cpuLimitPercent s)]> usage
  | _, _ => usage
  end.

Definition usageForNodes (d : Db) (nodeIds : list string) : gmap string NodeUsage :=
  let usage := fold_left (fun m id => <[id := mkUsage 0 0 0]> m) nodeIds ∅ in
  match nodeIds with
  | [] => usage
  | _ =>
    let settled := groupByNode (List.filter (fun s => bool_decide (sv_nodeId s ∈ nodeIds) &&
                                                 negb (sv_status s =s Srv_deleting)) (db_servers d)) in
    let inFlight := List.filter (fun t => bool_decide (tr_targetNodeId t ∈ nodeIds) &&
                                     bool_decide (tr_status t ∈ ACTIVE_TRANSFER_STATUSES)) (db_transfers d) in
    fold_left (inFlightStep d) inFlight (fold_left settledStep settled usage)
  end.

Definition hasAnyHealthyNode (now : Z) (d : Db) : bool :=
  existsb (fun n => let health := deriveHealthStatus now (nd_lastHeartbeatAt n) in
                    (health =s "online") || (health =s "degraded"))
    (List.filter (fun n => nd_deletedAt n =s None) (db_nodes d)).

Definition planRequest (p : Plan) : ResourceRequest :=
  mkRequest (pl_memoryMb p) (pl_diskMb p) (pl_cpuLimitPercent p).

(** The [nodeAcceptsNewServers] call every placement path makes on a node row. *)
Definition acceptanceOf (now : Z) (node : Node) : option string :=
  let resolved := resolveNodeCapacity now (nd_config node) in
  nodeAcceptsNewServers {|
    a_capacityMode := capacityMode (nd_config node); a_maintenanceMode := nd_maintenanceMode node;
    a_health := deriveHealthStatus now (nd_lastHeartbeatAt node);
    a_memory := rc_memory resolved; a_disk := rc_disk resolved;
    a_telemetryStale := telemetryStale resolved |}.

Definition restrictionsStep (m : gmap string (gset string)) (row : PlanNode) : gmap string (gset string) :=
  <[pn_planId row := {[pn_nodeId row]} ∪ default ∅ (m !! pn_planId row)]> m.

(** One turn of the inner loop; [derived] is the running sum, [None] the source's [null]. *)
Definition derivedStep (now : Z) (usageByNode : gmap string NodeUsage) (request : ResourceRequest)
    (derived : option Z) (node : Node) : option Z :=
  match acceptanceOf now node with
  | Some _ => derived
  | None =>
    let usage := default (mkUsage 0 0 0) (usageByNode !! nd_id node) in
    match slots (slotsForPlanOnNode (rc_inputs (resolveNodeCapacity now (nd_config node))) usage request) with
    | None => None
    | Some n => match derived with None => None | Some x => Some (x + n) end
    end
  end.

Definition derivedSlotsForPlans (now : Z) (d : Db) (plans : list Plan) : gmap string (option Z) :=
  match plans with
  | [] => ∅
  | _ =>
    let nodes := List.filter (fun n => nd_deletedAt n =s None) (db_nodes d) in
    let planNodeRows := List.filter (fun r => bool_decide (pn_planId r ∈ map pl_id plans)) (db_planNodes d) in
    let usageByNode := usageForNodes d (map nd_id nodes) in
    let restrictionsByPlan := fold_left restrictionsStep planNodeRows ∅ in
    fold_left (fun result plan =>
      let eligibleNodes := match restrictionsByPlan !! pl_id plan with
                           | Some restricted => List.filter (fun n => bool_decide (nd_id n ∈ restricted)) nodes
                           | None => nodes end in
      <[pl_id plan := fold_left (derivedStep now usageByNode (planRequest plan)) eligibleNodes (Some 0)]> result)
      plans ∅
  end.

Definition maxUid (rows : list Server) : option Z :=
  fold_right (fun s acc => match sv_uid s, acc with
                           | None, _ => acc
                           | Some u, None => Some u
                           | Some u, Some m => Some (Z.max u m)
                           end) None rows.

Definition nextUid (d : Db) (nodeId : string) : Z :=
  let highest := default (UID_BASE - 1) (maxUid (List.filter (fun s => sv_nodeId s =s nodeId) (db_servers d))) in
  Z.max highest (UID_BASE - 1) + 1.

Definition pickFreeAllocation (d : Db) (nodeId : string) : option Allocation :=
  head (sortBy (fun a b => al_id a <=? al_id b)
          (List.filter (fun a => (al_nodeId a =s nodeId) && (al_serverId a =s None)) (db_allocations d))).

Definition freeAllocationCount (d : Db) (nodeId : string) : Z :=
  countWhere (fun a => (al_nodeId a =s nodeId) && (al_serverId a =s None)) (db_allocations d).

(** ** scheduler.math.ts *)

Definition headroomFor (total reserved overallocatePct used requested : Z) : Q :=
  match ceilingFor total reserved overallocatePct with
  | None => 1
  | Some ceiling =>
    if ceiling <=? 0 then -1
    else fdiv (inject_Z (ceiling - used - requested)) (inject_Z ceiling)
  end%Q.

Definition fitScore (node : NodeCapacityInputs) (usage : NodeUsage) (request : ResourceRequest)
    (priority : Z) (healthUnknown : bool) : Q :=
  let mem := headroomFor (memoryTotalMb node) (memoryReservedMb node) (memoryOverallocatePct node)
               (u_memoryMb usage) (r_memoryMb request) in
  let dsk := headroomFor (diskTotalMb node) (diskReservedMb node) (diskOverallocatePct node)
               (u_diskMb usage) (r_diskMb request) in
  let cp := headroomFor (cpuTotalPercent node) (cpuReservedPercent node) (cpuOverallocatePct node)
               (u_cpuPercent usage) (r_cpuPercent request) in
  let fit := math_min (math_min mem dsk) cp in
  fsub (fadd fit (fmul (lit 1 5) (fdiv (inject_Z priority) 100)))
       (if healthUnknown then 1 # 2 else 0).

Record RankableCandidate := mkRankable {
  k_nodeId : string; k_name : string; k_score : Q; k_priority : Z; k_memoryFreeMb : Z }.

(** [localeCompare] on the ids it is applied to, lowercase hexadecimal UUIDs,
    where the collation order is the code-unit order. *)
Definition localeCompare (a b : string) : comparison := String.compare a b.

(** The comparator of [rankCandidates]: [x || y] takes [y] when [x] is zero. *)
Definition rankCompare (a b : RankableCandidate) : comparison :=
  match Qcompare (k_score b) (k_score a) with
  | Eq => match k_priority b ?= k_priority a with
          | Eq => match k_memoryFreeMb b ?= k_memoryFreeMb a with
                  | Eq => localeCompare (k_nodeId a) (k_nodeId b)
                  | c => c
                  end
          | c => c
          end
  | c => c
  end.

Definition ranksBefore : RankableCandidate -> RankableCandidate -> bool := leOf rankCompare.

Definition rankCandidates (candidates : list RankableCandidate) : list RankableCandidate :=
  sortBy ranksBefore candidates.

(** ** node-scheduler.service.ts *)

Record SchedulerCandidate := mkCandidate {
  s_nodeId : string; s_name : string; s_eliminated : bool; s_reason : option string; s_score : option Q }.

Record SchedulerSelection := mkSelection {
  selected : option (string * string * Q); candidates : list SchedulerCandidate }.

(** The body of the loop over nodes: the first elimination that applies, or the survivor. *)
Definition evaluateNode (now : Z) (d : Db) (plan : Plan) (excluded : list string) (node : Node)
    : string + RankableCandidate :=
  let restrictions := List.filter (fun r => pn_planId r =s pl_id plan) (db_planNodes d) in
  let request := planRequest plan in
  let health := deriveHealthStatus now (nd_lastHeartbeatAt node) in
  if bool_decide (nd_id node ∈ excluded) then inl "Excluído nesta tentativa (falhou antes)"
  else if negb (restrictions =s []) && negb (bool_decide (nd_id node ∈ map pn_nodeId restrictions))
  then inl "Plano não permitido neste node"
  else if (health =s "offline") || (health =s "degraded") then inl ("Node " +:+ health)
  else if match nd_reservedForPlansAbovePriceCents node with
          | Some c => pl_priceCents plan <? c | None => false end
  then inl "Reservado para planos mais caros"
  else match acceptanceOf now node with
  | Some reason => inl reason
  | None =>
    let resolved := rc_inputs (resolveNodeCapacity now (nd_config node)) in
    let usage := usageForNode d (nd_id node) in
    match nodeFitReasons resolved usage request with
    | r :: rs => inl (String.concat "; " (r :: rs))
    | [] =>
      if freeAllocationCount d (nd_id node) =? 0 then inl "Sem alocação livre"
      else
        let priority := default 0 (pn_priority <$> findFirst (fun r => pn_nodeId r =s nd_id node) (rev restrictions)) in
        inr {| k_nodeId := nd_id node; k_name := nd_name node;
               k_score := fitScore resolved usage request priority (health =s "unknown");
               k_priority := priority;
               k_memoryFreeMb := Z.max (memoryTotalMb resolved - memoryReservedMb resolved - u_memoryMb usage) 0 |}
    end
  end.

Definition candidateOf (node : Node) (v : string + RankableCandidate) : SchedulerCandidate :=
  match v with
  | inl reason => mkCandidate (nd_id node) (nd_name node) true (Some reason) None
  | inr k => mkCandidate (nd_id node) (nd_name node) false None (Some (k_score k))
  end.

Definition survivorOf (v : string + RankableCandidate) : option RankableCandidate :=
  match v with inl _ => None | inr k => Some k end.

(** [opts.locationId ? { locationId } : {}]: an empty string is no filter. *)
Definition inLocation (locationId : option string) (n : Node) : bool :=
  match locationId with
  | None => true
  | Some l => (l =s "") || (nd_locationId n =s l)
  end.

Definition schedulable (locationId : option string) (n : Node) : bool :=
  (nd_deletedAt n =s None) && negb (nd_maintenanceMode n) && nd_isPublic n && inLocation locationId n.

Definition selectNode `{Platform} (now : Z) (d : Db) (planId : string) (excludeNodeIds : list string)
    (locationId : option string) : Res SchedulerSelection :=
  match findFirst (fun p => (pl_id p =s planId) && (pl_deletedAt p =s None)) (db_plans d) with
  | None => Throw (NotFound "Plan not found")
  | Some plan =>
    let nodes := sortBy (fun a b => collate (nd_name a) (nd_name b))
                   (List.filter (schedulable locationId) (db_nodes d)) in
    let survivors := omap (fun n => survivorOf (evaluateNode now d plan excludeNodeIds n)) nodes in
    Ok {| selected := match rankCandidates survivors with
                      | [] => None
                      | k :: _ => Some (k_nodeId k, k_name k, k_score k)
                      end;
          candidates := map (fun n => candidateOf n (evaluateNode now d plan excludeNodeIds n)) nodes |}
  end.

(** ** Lemmas: usage *)

Lemma usage_ext (u v : NodeUsage) :
  u_memoryMb u = u_memoryMb v -> u_diskMb u = u_diskMb v -> u_cpuPercent u = u_cpuPercent v -> u = v.
Proof. destruct u, v; simpl; congruence. Qed.

Definition sumUsage (l : list Server) : NodeUsage :=
  mkUsage (sumZ sv_memoryMb l) (sumZ sv_diskMb l) (sumZ sv_cpuLimitPercent l).

Lemma usage_init ids (m : gmap string NodeUsage) id :
  fold_left (fun m id => <[id := mkUsage 0 0 0]> m) ids m !! id =
  if bool_decide (id ∈ ids) then Some (mkUsage 0 0 0) else m !! id.
Proof.
  revert m. induction ids as [|x ids IH]; intros m; simpl; [done|]. rewrite IH.
  destruct (bool_decide_reflect (id ∈ ids)) as [H|H].
  - by rewrite bool_decide_true by (apply elem_of_cons; auto).
  - destruct (decide (id = x)) as [->|Hx].
    + rewrite lookup_insert_eq. by rewrite bool_decide_true by (apply elem_of_cons; auto).
    + rewrite lookup_insert_ne by done. rewrite bool_decide_false; [done|].
      rewrite elem_of_cons. tauto.
Qed.

(** Adding the grouped rows: a row of the grouping adds the node's own servers. *)
Lemma settled_fold rows ids (m : gmap string NodeUsage) id u : NoDup ids -> m !! id = Some u ->
  fold_left settledStep
    (map (fun id => (id, sumUsage (List.filter (fun s => sv_nodeId s =s id) rows))) ids) m !! id =
  Some (if bool_decide (id ∈ ids)
        then let own := sumUsage (List.filter (fun s => sv_nodeId s =s id) rows) in
             addUsage u (u_memoryMb own) (u_diskMb own) (u_cpuPercent own)
        else u).
Proof.
  intros Hnd. revert m u. induction Hnd as [|x ids Hx Hnd IH]; intros m u Hm; simpl; [done|].
  unfold settledStep at 2. simpl. destruct (decide (id = x)) as [->|Hne].
  - rewrite Hm. erewrite IH by apply lookup_insert_eq.
    rewrite (bool_decide_false (x ∈ ids)) by done.
    by rewrite bool_decide_true by (apply elem_of_cons; auto).
  - assert (bool_decide (id ∈ x :: ids) = bool_decide (id ∈ ids)) as ->.
    { apply bool_decide_ext. rewrite elem_of_cons. naive_solver. }
    destruct (m !! x) as [v|]; [|by apply IH]. apply IH. by rewrite lookup_insert_ne.
Qed.

Lemma settled_fold_none rows ids (m : gmap string NodeUsage) id : m !! id = None ->
  fold_left settledStep
    (map (fun id => (id, sumUsage (List.filter (fun s => sv_nodeId s =s id) rows))) ids) m !! id = None.
Proof.
  revert m. induction ids as [|x ids IH]; intros m Hm; simpl; [done|].
  apply IH. unfold settledStep. simpl. destruct (m !! x) eqn:E; [|done].
  rewrite lookup_insert_ne; [done|]. by intros ->; rewrite Hm in E.
Qed.

Lemma transferServers_cons d t l :
  transferServers d (t :: l) =
  match findId (tr_serverId t) (db_servers d) with
  | Some s => s :: transferServers d l
  | None => transferServers d l
  end.
Proof. reflexivity. Qed.

Lemma inFlight_fold d l (m : gmap string NodeUsage) id u : m !! id = Some u ->
  fold_left (inFlightStep d) l m !! id =
  Some (let inc := sumUsage (transferServers d (List.filter (fun t => tr_targetNodeId t =s id) l)) in
        addUsage u (u_memoryMb inc) (u_diskMb inc) (u_cpuPercent inc)).
Proof.
  revert m u. induction l as [|t l IH]; intros m u Hm; simpl.
  - rewrite Hm. f_equal. apply usage_ext; simpl; lia.
  - unfold inFlightStep at 2. destruct (bool_decide_reflect (tr_targetNodeId t = id)) as [<-|Hne].
    + rewrite Hm, transferServers_cons.
      destruct (findId (tr_serverId t) (db_servers d)) as [s|] eqn:Es; [|by rewrite (IH _ _ Hm)].
      erewrite IH by apply lookup_insert_eq. f_equal. apply usage_ext; simpl; lia.
    + rewrite (IH _ u); [done|]. destruct (m !! tr_targetNodeId t); [|done].
      destruct (findId _ _); [|done]. by rewrite lookup_insert_ne.
Qed.

Lemma inFlight_fold_none d l (m : gmap string NodeUsage) id : m !! id = None ->
  fold_left (inFlightStep d) l m !! id = None.
Proof.
  revert m. induction l as [|t l IH]; intros m Hm; simpl; [done|]. apply IH. unfold inFlightStep.
  destruct (m !! tr_targetNodeId t) eqn:E; [|done]. destruct (findId _ _); [|done].
  rewrite lookup_insert_ne; [done|]. by intros E'; rewrite E', Hm in E.
Qed.

Lemma usageForNode_sum d id :
  usageForNode d id = addUsage (sumUsage (settledOn d id))
    (sumZ sv_memoryMb (transferServers d (inFlightTo d id)))
    (sumZ sv_diskMb (transferServers d (inFlightTo d id)))
    (sumZ sv_cpuLimitPercent (transferServers d (inFlightTo d id))).
Proof. reflexivity. Qed.

Lemma usageForNodes_lookup d ids id :
  usageForNodes d ids !! id = if bool_decide (id ∈ ids) then Some (usageForNode d id) else None.
Proof.
  unfold usageForNodes. destruct ids as [|i0 ids0]; [by rewrite bool_decide_false by (by intros ?%not_elem_of_nil)|].
  set (ids := i0 :: ids0). set (m0 := fold_left _ ids ∅).
  assert (m0 !! id = if bool_decide (id ∈ ids) then Some (mkUsage 0 0 0) else None) as H0.
  { unfold m0. by rewrite usage_init, lookup_empty. }
  unfold groupByNode. set (rows := List.filter _ (db_servers d)). set (ts := List.filter _ (db_transfers d)).
  destruct (bool_decide_reflect (id ∈ ids)) as [Hin|Hin].
  - erewrite inFlight_fold by (by apply settled_fold; [apply NoDup_remove_dups|]). f_equal.
    assert (List.filter (fun t => tr_targetNodeId t =s id) ts = inFlightTo d id) as ->.
    { unfold ts, inFlightTo. rewrite filter_filter. apply filter_ext_in. intros t _.
      destruct (bool_decide_reflect (tr_targetNodeId t = id)) as [->|]; simpl; [|by rewrite andb_false_r].
      by rewrite (bool_decide_true (id ∈ ids)), andb_true_r. }
    assert (List.filter (fun s => sv_nodeId s =s id) rows = settledOn d id) as E.
    { unfold rows, settledOn. rewrite filter_filter. apply filter_ext_in. intros s _.
      destruct (bool_decide_reflect (sv_nodeId s = id)) as [->|]; simpl; [|by rewrite andb_false_r].
      by rewrite (bool_decide_true (id ∈ ids)), andb_true_r. }
    rewrite E, usageForNode_sum. destruct (bool_decide_reflect (id ∈ remove_dups (map sv_nodeId rows))) as [Hr|Hr].
    + by apply usage_ext; simpl; lia.
    + assert (settledOn d id = []) as ->; [|by apply usage_ext; simpl; lia].
      rewrite <- E. apply filter_none. intros s Hs. apply bool_decide_eq_false. intros <-.
      apply Hr. rewrite elem_of_remove_dups. apply list_elem_of_In, in_map. by apply list_elem_of_In.
  - rewrite inFlight_fold_none; [done|]. by apply settled_fold_none.
Qed.

(** ** Lemmas: plan restrictions and derived slots *)

Lemma restrictions_lookup rows (m : gmap string (gset string)) p :
  fold_left restrictionsStep rows m !! p =
  match List.filter (fun r => pn_planId r =s p) rows with
  | [] => m !! p
  | own => Some (list_to_set (map pn_nodeId own) ∪ default ∅ (m !! p))
  end.
Proof.
  revert m. induction rows as [|r rows IH]; intros m; simpl; [done|]. rewrite IH.
  unfold restrictionsStep. destruct (bool_decide_reflect (pn_planId r = p)) as [<-|Hne].
  - rewrite lookup_insert_eq. destruct (List.filter _ rows); simpl; f_equal; set_solver.
  - by rewrite lookup_insert_ne.
Qed.

(** The opt-in rule, as a proposition. *)
Lemma isNodeAllowedForPlan_spec d p n :
  isNodeAllowedForPlan d p n = true <->
  (forall r, r ∈ db_planNodes d -> pn_planId r <> p) \/
  (exists r, r ∈ db_planNodes d /\ pn_planId r = p /\ pn_nodeId r = n).
Proof.
  unfold isNodeAllowedForPlan, countWhere.
  assert (forall (q : PlanNode -> bool) l, (Z.of_nat (length (List.filter q l)) =? 0) = true <->
    forall r, r ∈ l -> q r = false) as Z0.
  { intros q l. rewrite Z.eqb_eq. split.
    - intros H r Hr. destruct (q r) eqn:E; [|done].
      assert (r ∈ List.filter q l) as Hf by (rewrite list_elem_of_In, filter_In, <- list_elem_of_In; done).
      destruct (List.filter q l); [by apply not_elem_of_nil in Hf|simpl in H; lia].
    - intros H. by rewrite (filter_none q l H). }
  destruct (Z.eqb_spec (Z.of_nat (length (List.filter (fun r => pn_planId r =s p) (db_planNodes d)))) 0) as [E|E].
  - apply Z.eqb_eq in E. rewrite Z0 in E. split; [|done]. intros _. left. intros r Hr.
    by apply E, bool_decide_eq_false in Hr.
  - rewrite Z.gtb_lt. set (q := fun r => _ && _).
    destruct (Z.eqb_spec (Z.of_nat (length (List.filter q (db_planNodes d)))) 0) as [E2|E2].
    + apply Z.eqb_eq in E2. pose proof E2 as E3. rewrite Z0 in E3. apply Z.eqb_eq in E2. split; [lia|].
      intros [H|(r & Hr & H1 & H2)].
      * exfalso. apply E. apply Z.eqb_eq, Z0. intros r Hr. by apply bool_decide_eq_false, H.
      * specialize (E3 r Hr). unfold q in E3. by rewrite !bool_decide_true in E3 by done.
    + split; [intros _; right|intros _; lia].
      destruct (List.filter q (db_planNodes d)) as [|r l] eqn:F; [done|].
      assert (In r (List.filter q (db_planNodes d))) as Hr by (rewrite F; by left).
      apply filter_In in Hr as [Hr Hq]. exists r. split; [by apply list_elem_of_In|].
      unfold q in Hq. rewrite andb_true_iff, !bool_decide_eq_true in Hq. done.
Qed.

Lemma eligible_allowed d plans p n : p ∈ map pl_id plans ->
  isNodeAllowedForPlan d p n =
  match fold_left restrictionsStep (List.filter (fun r => bool_decide (pn_planId r ∈ map pl_id plans)) (db_planNodes d))
          (∅ : gmap string (gset string)) !! p with
  | Some restricted => bool_decide (n ∈ restricted)
  | None => true
  end.
Proof.
  intros Hp. rewrite restrictions_lookup, lookup_empty, filter_filter.
  assert (List.filter (fun x => bool_decide (pn_planId x ∈ map pl_id plans) && (pn_planId x =s p)) (db_planNodes d) =
          List.filter (fun x => pn_planId x =s p) (db_planNodes d)) as ->.
  { apply filter_ext_in. intros r _. destruct (bool_decide_reflect (pn_planId r = p)) as [->|];
      [by rewrite bool_decide_true|by rewrite andb_false_r]. }
  apply eq_bool_prop_intro. rewrite !Is_true_true, isNodeAllowedForPlan_spec.
  destruct (List.filter _ _) as [|r0 l] eqn:F.
  - split; [done|]. intros _. left. intros r Hr E.
    assert (In r (List.filter (fun x => pn_planId x =s p) (db_planNodes d))) as H.
    { apply filter_In. by rewrite <- list_elem_of_In, bool_decide_eq_true. }
    by rewrite F in H.
  - rewrite bool_decide_eq_true. simpl default. rewrite union_empty_r_L, elem_of_list_to_set, <- F.
    rewrite list_elem_of_In, in_map_iff. split.
    + intros [H|(r & Hr & E1 & E2)].
      * assert (In r0 (List.filter (fun x => pn_planId x =s p) (db_planNodes d))) as H0 by (rewrite F; by left).
        apply filter_In in H0 as [H0 E]. apply bool_decide_eq_true in E. exfalso.
        by apply (H r0); [apply list_elem_of_In|].
      * exists r. split; [done|]. apply filter_In. by rewrite <- list_elem_of_In, bool_decide_eq_true.
    + intros (r & E & Hr). right. apply filter_In in Hr as [Hr E2]. exists r.
      rewrite list_elem_of_In. by apply bool_decide_eq_true in E2.
Qed.

(** What one node contributes to a plan: nothing unless it is eligible and
    accepting; [Some None] is "unlimited". *)
Definition nodeContribution (now : Z) (d : Db) (plan : Plan) (node : Node) : option (option Z) :=
  if isNodeAllowedForPlan d (pl_id plan) (nd_id node) && (acceptanceOf now node =s None)
  then Some (slots (slotsForPlanOnNode (rc_inputs (resolveNodeCapacity now (nd_config node)))
                      (usageForNode d (nd_id node)) (planRequest plan)))
  else None.

Definition isNone {A} (o : option A) : bool := match o with None => true | Some _ => false end.

(** The specification of the derived number: unlimited as soon as one
    contributing node is, the sum of the contributions otherwise. *)
Definition derivedSpec (now : Z) (d : Db) (plan : Plan) : option Z :=
  let contributions := omap (nodeContribution now d plan) (List.filter (fun n => nd_deletedAt n =s None) (db_nodes d)) in
  if existsb isNone contributions then None else Some (sumZ (default 0) contributions).

Lemma derived_fold now d plan (usageByNode : gmap string NodeUsage) (restricted : option (gset string)) nodes acc :
  (forall n, n ∈ nodes -> usageByNode !! nd_id n = Some (usageForNode d (nd_id n))) ->
  (forall n, isNodeAllowedForPlan d (pl_id plan) n =
             match restricted with Some r => bool_decide (n ∈ r) | None => true end) ->
  fold_left (derivedStep now usageByNode (planRequest plan))
    (match restricted with Some r => List.filter (fun n => bool_decide (nd_id n ∈ r)) nodes | None => nodes end) acc =
  let cs := omap (nodeContribution now d plan) nodes in
  if existsb isNone cs then None else (fun x => x + sumZ (default 0) cs) <$> acc.
Proof.
  intros Hu Hr. assert (match restricted with Some r => List.filter (fun n => bool_decide (nd_id n ∈ r)) nodes | None => nodes end
    = List.filter (fun n => isNodeAllowedForPlan d (pl_id plan) (nd_id n)) nodes) as ->.
  { destruct restricted as [r|].
    - apply filter_ext_in. intros n _. by rewrite Hr.
    - symmetry. rewrite (filter_ext_in _ (fun _ => true)) by (intros n _; by rewrite Hr).
      induction nodes as [|n l IH]; [done|]. simpl. rewrite IH; [done|]. intros m Hm. apply Hu, elem_of_cons. auto. }
  clear Hr. revert acc. induction nodes as [|n nodes IH]; intros acc; simpl.
  { destruct acc; simpl; [|done]. f_equal; lia. }
  assert (forall n, n ∈ nodes -> usageByNode !! nd_id n = Some (usageForNode d (nd_id n))) as Hu'.
  { intros m Hm. apply Hu, elem_of_cons. auto. }
  specialize (IH Hu').
  assert (omap (nodeContribution now d plan) (n :: nodes) =
          match nodeContribution now d plan n with
          | Some c => c :: omap (nodeContribution now d plan) nodes
          | None => omap (nodeContribution now d plan) nodes end) as E by reflexivity.
  simpl in E. rewrite E. clear E.
  destruct (nodeContribution now d plan n) as [c|] eqn:C; unfold nodeContribution in C.
  all: set (cs := omap (nodeContribution now d plan) nodes) in *.
  all: destruct (isNodeAllowedForPlan d (pl_id plan) (nd_id n)); simpl in *; try discriminate C; try apply IH.
  all: rewrite IH; unfold derivedStep; destruct (acceptanceOf now n) as [a|]; simpl in *; try done.
  injection C as <-. rewrite (Hu n) by (apply elem_of_cons; auto). simpl.
  destruct (slots _) as [k|]; simpl; [|by destruct (existsb _ _)].
  destruct (existsb _ _); [done|]. destruct acc; simpl; [|done]. f_equal. lia.
Qed.

Lemma derivedSlots_fold now (usageByNode : gmap string NodeUsage) (restrictionsByPlan : gmap string (gset string))
    (nodes : list Node) plans (m : gmap string (option Z)) plan :
  NoDup (map pl_id plans) -> plan ∈ plans ->
  fold_left (fun result plan =>
      let eligibleNodes := match restrictionsByPlan !! pl_id plan with
                           | Some restricted => List.filter (fun n => bool_decide (nd_id n ∈ restricted)) nodes
                           | None => nodes end in
      <[pl_id plan := fold_left (derivedStep now usageByNode (planRequest plan)) eligibleNodes (Some 0)]> result)
      plans m !! pl_id plan =
  Some (fold_left (derivedStep now usageByNode (planRequest plan))
          (match restrictionsByPlan !! pl_id plan with
           | Some restricted => List.filter (fun n => bool_decide (nd_id n ∈ restricted)) nodes
           | None => nodes end) (Some 0)).
Proof.
  revert m. induction plans as [|p plans IH]; intros m Hnd Hin; [by apply not_elem_of_nil in Hin|].
  simpl in Hnd. apply NoDup_cons in Hnd as [Hp Hnd]. simpl.
  apply elem_of_cons in Hin as [->|Hin]; [|by apply IH].
  set (v := fold_left (derivedStep _ _ _) _ _). clear IH Hnd. revert m.
  assert (forall m : gmap string (option Z), m !! pl_id p = Some v ->
    fold_left (fun result plan =>
      let eligibleNodes := match restrictionsByPlan !! pl_id plan with
                           | Some restricted => List.filter (fun n => bool_decide (nd_id n ∈ restricted)) nodes
                           | None => nodes end in
      <[pl_id plan := fold_left (derivedStep now usageByNode (planRequest plan)) eligibleNodes (Some 0)]> result)
      plans m !! pl_id p = Some v) as G; [|intros m; apply G, lookup_insert_eq].
  induction plans as [|q plans IH]; intros m Hm; simpl; [done|].
  simpl in Hp. rewrite elem_of_cons in Hp. apply IH; [tauto|]. rewrite lookup_insert_ne; [done|].
  intros E. apply Hp. by left.
Qed.

(** ** Lemmas: uids and allocations *)

Lemma maxUid_ge rows s u : s ∈ rows -> sv_uid s = Some u -> exists m, maxUid rows = Some m /\ u <= m.
Proof.
  induction rows as [|x rows IH]; intros Hs Hu; [by apply not_elem_of_nil in Hs|]. simpl.
  apply elem_of_cons in Hs as [<-|Hs].
  - rewrite Hu. destruct (maxUid rows); eexists; (split; [done|lia]).
  - destruct (IH Hs Hu) as (m & -> & Hm). destruct (sv_uid x); eexists; (split; [done|lia]).
Qed.

Lemma nextUid_fresh d n s u : s ∈ db_servers d -> sv_nodeId s = n -> sv_uid s = Some u -> u < nextUid d n.
Proof.
  intros Hs Hn Hu. unfold nextUid.
  destruct (maxUid_ge (List.filter (fun s => sv_nodeId s =s n) (db_servers d)) s u) as (m & -> & Hm); [|done|simpl; lia].
  rewrite list_elem_of_In, filter_In, <- list_elem_of_In. by rewrite bool_decide_true.
Qed.

Lemma nextUid_base d n : UID_BASE <= nextUid d n.
Proof. unfold nextUid. lia. Qed.

Lemma pickFreeAllocation_some d n a : pickFreeAllocation d n = Some a ->
  a ∈ db_allocations d /\ al_nodeId a = n /\ al_serverId a = None.
Proof.
  unfold pickFreeAllocation. intros H.
  assert (a ∈ List.filter (fun a => (al_nodeId a =s n) && (al_serverId a =s None)) (db_allocations d)) as Ha.
  { destruct (sortBy _ _) eqn:E; [done|]. injection H as ->.
    rewrite <- (sortBy_perm (fun a b => al_id a <=? al_id b)), E. by apply elem_of_cons; left. }
  rewrite list_elem_of_In, filter_In, <- list_elem_of_In, andb_true_iff, !bool_decide_eq_true in Ha. tauto.
Qed.

Lemma pickFreeAllocation_none d n : pickFreeAllocation d n = None <-> freeAllocationCount d n = 0.
Proof.
  unfold pickFreeAllocation, freeAllocationCount, countWhere. rewrite sortBy_head_none.
  destruct (List.filter _ _); simpl; split; (done || lia).
Qed.

(** ** Lemmas: ranking *)

#[export] Instance compare_Q : CompareOk Qcompare.
Proof.
  split.
  - intros x y. symmetry. apply Qcompare_antisym.
  - intros x y z H. apply Qeq_alt in H. by rewrite H.
  - intros x y z. rewrite <- !Qlt_alt. apply Qlt_trans.
Qed.

#[export] Instance rankCompare_ok : CompareOk rankCompare.
Proof.
  unshelve eapply (compare_lex (fun a b => Qcompare (k_score b) (k_score a))).
  { unshelve eapply (compare_on k_score (fun a b => Qcompare b a)). apply (compare_flip Qcompare). }
  unshelve eapply (compare_lex (fun a b => k_priority b ?= k_priority a)).
  { unshelve eapply (compare_on k_priority (fun a b => b ?= a)). apply (compare_flip Z.compare). }
  unshelve eapply (compare_lex (fun a b => k_memoryFreeMb b ?= k_memoryFreeMb a)).
  { unshelve eapply (compare_on k_memoryFreeMb (fun a b => b ?= a)). apply (compare_flip Z.compare). }
  apply (compare_on k_nodeId String.compare).
Qed.

Lemma rankCompare_eq a b : rankCompare a b = Eq -> k_nodeId a = k_nodeId b.
Proof.
  unfold rankCompare. destruct (Qcompare _ _); [|done..]. destruct (Z.compare _ _); [|done..].
  destruct (Z.compare _ _); [|done..]. apply String.compare_eq_iff.
Qed.

Lemma evaluateNode_id now d plan ex n k : evaluateNode now d plan ex n = inr k ->
  k_nodeId k = nd_id n /\ k_name k = nd_name n.
Proof. unfold evaluateNode. repeat case_match; intros; simplify_eq; done. Qed.

(** What surviving every elimination means. *)
Definition placeable (now : Z) (d : Db) (plan : Plan) (excluded : list string) (n : Node) : Prop :=
  (nd_id n ∉ excluded) /\
  isNodeAllowedForPlan d (pl_id plan) (nd_id n) = true /\
  (deriveHealthStatus now (nd_lastHeartbeatAt n) = "online" \/ nd_lastHeartbeatAt n = None) /\
  (forall c, nd_reservedForPlansAbovePriceCents n = Some c -> c <= pl_priceCents plan) /\
  acceptanceOf now n = None /\
  assertNodeFits (rc_inputs (resolveNodeCapacity now (nd_config n))) (usageForNode d (nd_id n)) (planRequest plan) = Ok tt /\
  exists a, pickFreeAllocation d (nd_id n) = Some a.

Lemma restricted_allowed d p n :
  isNodeAllowedForPlan d p n = true <->
  (negb (List.filter (fun r => pn_planId r =s p) (db_planNodes d) =s []) &&
   negb (bool_decide (n ∈ map pn_nodeId (List.filter (fun r => pn_planId r =s p) (db_planNodes d))))) = false.
Proof.
  rewrite isNodeAllowedForPlan_spec. set (rs := List.filter _ _).
  assert (forall r, r ∈ rs <-> r ∈ db_planNodes d /\ pn_planId r = p) as Hrs.
  { intros r. unfold rs. by rewrite list_elem_of_In, filter_In, <- list_elem_of_In, bool_decide_eq_true. }
  rewrite andb_false_iff, !negb_false_iff, !bool_decide_eq_true, list_elem_of_In, in_map_iff.
  split; (intros [H|(r & H)]; [left | right; exists r]).
  - destruct rs as [|r rs']; [done|]. exfalso. destruct (proj1 (Hrs r)) as [H1 H2]; [by apply elem_of_cons; left|].
    by apply (H r).
  - rewrite <- list_elem_of_In, Hrs. tauto.
  - intros r Hr E. assert (r ∈ rs) as Hin by (by apply Hrs). rewrite H in Hin. by apply not_elem_of_nil in Hin.
  - rewrite <- list_elem_of_In, Hrs in H. tauto.
Qed.

Lemma health_placeable now n :
  ((deriveHealthStatus now (nd_lastHeartbeatAt n) =s "offline") ||
   (deriveHealthStatus now (nd_lastHeartbeatAt n) =s "degraded")) = false <->
  deriveHealthStatus now (nd_lastHeartbeatAt n) = "online" \/ nd_lastHeartbeatAt n = None.
Proof.
  unfold deriveHealthStatus. destruct (nd_lastHeartbeatAt n); [|naive_solver].
  repeat case_match; naive_solver.
Qed.

Lemma evaluateNode_placeable now d plan ex n :
  (exists k, evaluateNode now d plan ex n = inr k) <-> placeable now d plan ex n.
Proof.
  unfold placeable. rewrite restricted_allowed, <- health_placeable, assertNodeFits_ok, <- nodeFitReasons_nil.
  unfold evaluateNode.
  destruct (bool_decide_reflect (nd_id n ∈ ex)); [naive_solver|].
  destruct (negb _ && negb _); [naive_solver|]. destruct (_ || _); [naive_solver|].
  assert (forall A (o : option A), o = None -> (exists a, o = Some a) -> False) as N by naive_solver.
  destruct (nd_reservedForPlansAbovePriceCents n) as [c|]; [destruct (Z.ltb_spec (pl_priceCents plan) c)|].
  { split; [naive_solver|]. intros (_ & _ & _ & H' & _). specialize (H' c eq_refl). lia. }
  all: destruct (acceptanceOf now n); [naive_solver|].
  all: destruct (nodeFitReasons _ _ _); [|naive_solver].
  all: destruct (Z.eqb_spec (freeAllocationCount d (nd_id n)) 0) as [E|E];
    [apply pickFreeAllocation_none in E; naive_solver|].
  all: rewrite <- pickFreeAllocation_none in E; destruct (pickFreeAllocation d (nd_id n)); [|done].
  all: split; [intros _; naive_solver lia | eauto].
Qed.

Lemma selectNode_sound `{Platform} now d planId ex loc sel :
  selectNode now d planId ex loc = Ok sel ->
  exists plan, plan ∈ db_plans d /\ pl_id plan = planId /\ pl_deletedAt plan = None /\
  match selected sel with
  | None => forall n, n ∈ db_nodes d -> schedulable loc n = true -> ~ placeable now d plan ex n
  | Some (id, name, score) =>
    exists n k, n ∈ db_nodes d /\ schedulable loc n = true /\ nd_id n = id /\ nd_name n = name /\
      placeable now d plan ex n /\ evaluateNode now d plan ex n = inr k /\ k_score k = score /\
      forall n' k', n' ∈ db_nodes d -> schedulable loc n' = true ->
        evaluateNode now d plan ex n' = inr k' -> ranksBefore k k' = true
  end.
Proof.
  unfold selectNode. destruct (findFirst _ _) as [plan|] eqn:Ep; [|done]. intros [= <-]. exists plan.
  apply findFirst_some in Ep as [Hp Ep]. rewrite andb_true_iff, !bool_decide_eq_true in Ep.
  destruct Ep as [Ep1 Ep2]. split_and!; [done..|]. cbn [selected].
  set (nodes := sortBy _ _). set (survivors := omap _ nodes).
  assert (forall n k, n ∈ db_nodes d -> schedulable loc n = true -> evaluateNode now d plan ex n = inr k ->
    k ∈ survivors) as Hin.
  { intros n k Hn Hs Hk. apply list_elem_of_omap. exists n. rewrite Hk. split; [|done]. unfold nodes.
    rewrite sortBy_perm, list_elem_of_In, filter_In, <- list_elem_of_In. done. }
  destruct (rankCandidates survivors) as [|k rest] eqn:E.
  - intros n Hn Hs Hpl. apply evaluateNode_placeable in Hpl as [k Hk]. specialize (Hin n k Hn Hs Hk).
    apply (f_equal head), sortBy_head_none in E. rewrite E in Hin. by apply not_elem_of_nil in Hin.
  - apply (f_equal head), (sortBy_head_least rankCompare) in E as [Hk Hmin]. apply list_elem_of_omap in Hk as (n & Hn & Hk).
    unfold nodes in Hn. rewrite sortBy_perm, list_elem_of_In, filter_In, <- list_elem_of_In in Hn.
    unfold survivorOf in Hk. destruct (evaluateNode now d plan ex n) as [|k0] eqn:Ek; [done|].
    injection Hk as ->. destruct (evaluateNode_id _ _ _ _ _ _ Ek) as [I1 I2].
    exists n, k. destruct Hn. assert (placeable now d plan ex n) by (apply evaluateNode_placeable; eauto).
    split_and!; try done. intros n' k' Hn' Hs' Hk'. apply Hmin. by eapply Hin.
Qed.


Lemma selectNode_fresh `{Platform} now d planId ex loc sel id name score :
  selectNode now d planId ex loc = Ok sel -> selected sel = Some (id, name, score) -> id ∉ ex.
Proof.
  intros Hs He. destruct (selectNode_sound _ _ _ _ _ _ Hs) as (plan & _ & _ & _ & Hsel).
  rewrite He in Hsel. destruct Hsel as (n & k & _ & _ & <- & _ & Hp & _). apply Hp.
Qed.

(** ** Theorems *)

(** The batched usage query agrees with the per-node one the locked write
    paths use: every requested node maps to exactly [usageForNode], and no
    other key appears. *)
Theorem usageForNodes_agrees d ids id :
  usageForNodes d ids !! id = if bool_decide (id ∈ ids) then Some (usageForNode d id) else None.
Proof. apply usageForNodes_lookup. Qed.

(** The public catalogue's derived slots are the sum, over the nodes the
    write path would allow and that accept new servers, of the slots computed
    from the same usage the write path checks; one unlimited node makes the
    plan unlimited, no contributing node makes it zero. *)
Theorem derivedSlotsForPlans_spec now d plans plan :
  NoDup (map pl_id plans) -> plan ∈ plans ->
  derivedSlotsForPlans now d plans !! pl_id plan = Some (derivedSpec now d plan).
Proof.
  intros Hnd Hin. unfold derivedSlotsForPlans.
  destruct plans as [|p0 ps]; [by apply not_elem_of_nil in Hin|]. set (plans := p0 :: ps) in *.
  cbv zeta. rewrite derivedSlots_fold by done. f_equal.
  set (nodes := List.filter _ (db_nodes d)).
  rewrite (derived_fold now d).
  - unfold derivedSpec. fold nodes. destruct (existsb _ _); [done|]. reflexivity.
  - intros n Hn. rewrite usageForNodes_lookup, bool_decide_true; [done|].
    apply list_elem_of_In, in_map. by apply list_elem_of_In.
  - intros n. apply eligible_allowed. apply list_elem_of_In, in_map. by apply list_elem_of_In.
Qed.

(** C6: what [selectNode] returns.  The winner is a live, public node outside
    maintenance, in the requested location, that passes every check the create
    path makes (restriction, health, price reservation, acceptance, capacity,
    a free allocation), and no other such node ranks before it; [null] is
    returned only when no node is placeable. *)
Theorem selectNode_correct `{Platform} now d planId ex loc sel :
  selectNode now d planId ex loc = Ok sel ->
  exists plan, plan ∈ db_plans d /\ pl_id plan = planId /\ pl_deletedAt plan = None /\
  match selected sel with
  | None => forall n, n ∈ db_nodes d -> schedulable loc n = true -> ~ placeable now d plan ex n
  | Some (id, name, score) =>
    exists n k, n ∈ db_nodes d /\ schedulable loc n = true /\ nd_id n = id /\ nd_name n = name /\
      placeable now d plan ex n /\ evaluateNode now d plan ex n = inr k /\ k_score k = score /\
      forall n' k', n' ∈ db_nodes d -> schedulable loc n' = true ->
        evaluateNode now d plan ex n' = inr k' -> ranksBefore k k' = true
  end.
Proof. apply selectNode_sound. Qed.

(** The selection does not depend on the order rows come back in: for any
    permutation of the nodes table the same node is selected with the same
    score (ties are broken down to the node id). *)
Theorem selectNode_deterministic `{Platform} now d nodes planId ex loc sel sel' :
  NoDup (map nd_id (db_nodes d)) -> nodes ≡ₚ db_nodes d ->
  selectNode now d planId ex loc = Ok sel ->
  selectNode now (d <| db_nodes := nodes |>) planId ex loc = Ok sel' ->
  selected sel = selected sel'.
Proof.
  intros Hnd Hperm. unfold selectNode. simpl.
  destruct (findFirst _ _) as [plan|]; [|done]. intros [= <-] [= <-]. cbn [selected].
  set (f := fun n => survivorOf (evaluateNode now d plan ex n)).
  set (byName := fun a b => collate (nd_name a) (nd_name b)).
  set (l1 := omap f (sortBy byName (List.filter (schedulable loc) (db_nodes d)))).
  set (l2 := omap f (sortBy byName (List.filter (schedulable loc) nodes))).
  change (match rankCandidates l1 with [] => None | k :: _ => Some (k_nodeId k, k_name k, k_score k) end =
          match rankCandidates l2 with [] => None | k :: _ => Some (k_nodeId k, k_name k, k_score k) end).
  assert (head (rankCandidates l1) = head (rankCandidates l2)) as E.
  { apply sortBy_head_perm; [apply _| |].
    - assert (forall k, k ∈ l1 -> exists n, n ∈ db_nodes d /\ evaluateNode now d plan ex n = inr k) as Hl1.
      { intros k Hk. apply list_elem_of_omap in Hk as (n & Hn & Hk). exists n.
        rewrite sortBy_perm, list_elem_of_In, filter_In, <- list_elem_of_In in Hn.
        split; [tauto|]. unfold f, survivorOf in Hk. destruct (evaluateNode _ _ _ _ n); congruence. }
      intros a b (n1 & Hn1 & E1)%Hl1 (n2 & Hn2 & E2)%Hl1 Hab%rankCompare_eq.
      destruct (evaluateNode_id _ _ _ _ _ _ E1) as [I1 _], (evaluateNode_id _ _ _ _ _ _ E2) as [I2 _].
      assert (n1 = n2) as ->; [|congruence]. eapply NoDup_map_inj; [exact Hnd|done..|congruence].
    - unfold l1, l2. apply omap_Permutation. rewrite !sortBy_perm. by rewrite Hperm. }
  destruct (rankCandidates l1), (rankCandidates l2); simplify_eq/=; done.
Qed.

(** ** Witnesses *)

Module Demo.

#[export] Instance platform : Platform :=
  {| uuidv7 n := "id-" +:+ pretty n; randomRef n := "ref-" +:+ pretty n;
     randomBytes8 n := [Z.of_N n]; collate a b := leOf String.compare a b; toLowerCase s := s |}.

Definition config (mem disk : Z) : NodeCapacityConfig :=
  mkConfig (mkInputs mem 0 0 disk 0 0 0 0 (-1)) "manual" 0 0 0 None None None None None.

Definition node (id : string) (mem : Z) : Node :=
  mkNode id ("node " +:+ id) "loc" None false true (Some 1000) None (config mem 100000).

Definition plan (id : string) (price : Z) (maxSlots : option Z) : Plan :=
  mkPlan id "Basic" None true 2048 10000 0 100 500 true 1 1 1 1 maxSlots price "BRL" monthly
    (mkPlanDetails id None 0 7 None None None None None None None None None false None None).

Definition alloc (id : Z) (nodeId : string) (owner : option string) : Allocation :=
  mkAllocation id nodeId "10.0.0.1" (25565 + id) owner false.

Definition db : Db :=
  mkDb [] [plan "p" 2990 (Some 1)] [] [node "a" 4096; node "b" 8192]
    [alloc 1 "a" None; alloc 2 "b" None] [] [] [] [] [] [] [] [] [] [].

End Demo.

#[local] Existing Instance Demo.platform.

Lemma derivedSlotsForPlans_spec_witness :
  derivedSlotsForPlans 2000 Demo.db [Demo.plan "p" 2990 (Some 1)] !! "p" = Some (Some 6).
Proof.
  assert (derivedSpec 2000 Demo.db (Demo.plan "p" 2990 (Some 1)) = Some 6) as E by (vm_compute; reflexivity).
  rewrite <- E. apply (derivedSlotsForPlans_spec 2000 Demo.db [Demo.plan "p" 2990 (Some 1)] (Demo.plan "p" 2990 (Some 1))).
  - apply NoDup_singleton.
  - apply elem_of_cons. left. reflexivity.
Defined.

Lemma selectNode_correct_witness :
  exists plan sel, selectNode 2000 Demo.db "p" [] None = Ok sel /\ pl_id plan = "p" /\
    match selected sel with
    | Some (id, _, _) => id = "b" /\ exists n, nd_id n = id /\ placeable 2000 Demo.db plan [] n
    | None => False
    end.
Proof.
  destruct (selectNode 2000 Demo.db "p" [] None) as [sel|e] eqn:E; [|discriminate E].
  destruct (selectNode_correct 2000 Demo.db "p" [] None sel E) as (plan & _ & Hp & _ & H).
  assert (match selected sel with Some (id, _, _) => id | None => "" end = "b") as S.
  { vm_compute in E. injection E as <-. reflexivity. }
  exists plan, sel. split; [reflexivity|split; [exact Hp|]].
  destruct (selected sel) as [[[id name] score]|]; [|discriminate S]. split; [exact S|].
  destruct H as (n & k & _ & _ & Hid & _ & Hpl & _). exists n. split; [exact Hid|exact Hpl].
Defined.

Lemma selectNode_deterministic_witness :
  exists s1 s2, selectNode 2000 Demo.db "p" [] None = Ok s1 /\
    selectNode 2000 (Demo.db <| db_nodes := [Demo.node "b" 8192; Demo.node "a" 4096] |>) "p" [] None = Ok s2 /\
    selected s1 = selected s2.
Proof.
  destruct (selectNode 2000 Demo.db "p" [] None) as [s1|] eqn:E1; [|discriminate E1].
  destruct (selectNode 2000 (Demo.db <| db_nodes := [Demo.node "b" 8192; Demo.node "a" 4096] |>) "p" [] None)
    as [s2|] eqn:E2; [|discriminate E2].
  exists s1, s2. split; [reflexivity|split; [reflexivity|]].
  refine (selectNode_deterministic 2000 Demo.db _ "p" [] None s1 s2 _ _ E1 E2).
  - apply NoDup_cons. split; [intros H%list_elem_of_singleton; discriminate H | apply NoDup_singleton].
  - apply Permutation_swap.
Defined.
