(* ===== verification/Calendar.v ===== *)
(** Calendar: the UTC month arithmetic of JavaScript dates.

    [nextPeriodEnd] of [subscription-status.ts] is one [setUTCMonth]; the
    definitions here are the ones of the ECMAScript specification
    ([DayFromYear], [YearFromTime], [MakeDay], ...), over milliseconds since
    the epoch. *)

From S2P Require Import Prelude Store.
From Stdlib Require Import Lia.

Local Open Scope Z_scope.

Definition msPerDay : Z := 86400000.

Definition Day (t : Z) : Z := t / msPerDay.
Definition TimeWithinDay (t : Z) : Z := t mod msPerDay.

Definition DayFromYear (y : Z) : Z :=
  365 * (y - 1970) + (y - 1969) / 4 - (y - 1901) / 100 + (y - 1601) / 400.

Definition isLeap (y : Z) : bool :=
  (y mod 4 =? 0) && (negb (y mod 100 =? 0) || (y mod 400 =? 0)).

(** The largest [y] with [DayFromYear y <= d]: the average-length estimate is
    off by at most one. *)
Definition YearFromDay (d : Z) : Z :=
  let y := 1970 + (d * 400) / 146097 in
  if DayFromYear (y + 1) <=? d then y + 1
  else if d <? DayFromYear y then y - 1
  else y.

(** Days of the year before month [m] (0 is January), [m] up to 12. *)
Definition daysBeforeMonth (leap : bool) (m : Z) : Z :=
  let b := if leap then 1 else 0 in
  if m <=? 0 then 0 else if m =? 1 then 31 else if m =? 2 then 59 + b else if m =? 3 then 90 + b
  else if m =? 4 then 120 + b else if m =? 5 then 151 + b else if m =? 6 then 181 + b
  else if m =? 7 then 212 + b else if m =? 8 then 243 + b else if m =? 9 then 273 + b
  else if m =? 10 then 304 + b else if m =? 11 then 334 + b else 365 + b.

Definition monthOfDayInYear (leap : bool) (k : Z) : Z :=
  let before := daysBeforeMonth leap in
  if k <? before 1 then 0 else if k <? before 2 then 1 else if k <? before 3 then 2
  else if k <? before 4 then 3 else if k <? before 5 then 4 else if k <? before 6 then 5
  else if k <? before 7 then 6 else if k <? before 8 then 7 else if k <? before 9 then 8
  else if k <? before 10 then 9 else if k <? before 11 then 10 else 11.

Definition MonthFromDay (d : Z) : Z :=
  let y := YearFromDay d in monthOfDayInYear (isLeap y) (d - DayFromYear y).

(** Day of the month, from 1. *)
Definition DateFromDay (d : Z) : Z :=
  let y := YearFromDay d in
  d - DayFromYear y - daysBeforeMonth (isLeap y) (MonthFromDay d) + 1.

(** [MakeDay]: a month outside 0..11 carries into the year, and a day past the
    end of the month runs into the next one. *)
Definition MakeDay (year month date : Z) : Z :=
  let ym := year + month / 12 in
  let mn := month mod 12 in
  DayFromYear ym + daysBeforeMonth (isLeap ym) mn + date - 1.

(** [d.setUTCMonth(d.getUTCMonth() + n)]. *)
Definition addUTCMonths (t n : Z) : Z :=
  let d := Day t in
  MakeDay (YearFromDay d) (MonthFromDay d + n) (DateFromDay d) * msPerDay + TimeWithinDay t.

(** ** Lemmas *)

Lemma DayFromYear_step y : DayFromYear (y + 1) = DayFromYear y + (if isLeap y then 366 else 365).
Proof.
  unfold DayFromYear, isLeap.
  destruct (Z.eqb_spec (y mod 4) 0), (Z.eqb_spec (y mod 100) 0), (Z.eqb_spec (y mod 400) 0); simpl;
    Z.div_mod_to_equations; lia.
Qed.

Lemma YearFromDay_spec d : DayFromYear (YearFromDay d) <= d < DayFromYear (YearFromDay d + 1).
Proof.
  unfold YearFromDay. set (y := 1970 + d * 400 / 146097).
  assert (DayFromYear (y - 1) <= d < DayFromYear (y + 2)) as B.
  { unfold DayFromYear, y. Z.div_mod_to_equations. lia. }
  destruct (Z.leb_spec (DayFromYear (y + 1)) d); [replace (y + 1 + 1) with (y + 2) by lia; lia|].
  destruct (Z.ltb_spec d (DayFromYear y)); [replace (y - 1 + 1) with y by lia|]; lia.
Qed.

Lemma DayFromYear_mono y z : y <= z -> DayFromYear y <= DayFromYear z.
Proof. intros H. unfold DayFromYear. Z.div_mod_to_equations. lia. Qed.

Lemma YearFromDay_unique d y : DayFromYear y <= d < DayFromYear (y + 1) -> YearFromDay d = y.
Proof.
  intros H. pose proof (YearFromDay_spec d) as S. set (z := YearFromDay d) in *.
  destruct (Z.lt_trichotomy z y) as [L|[E|G]]; [|done|].
  - pose proof (DayFromYear_mono (z + 1) y). lia.
  - pose proof (DayFromYear_mono (y + 1) z). lia.
Qed.

Lemma monthOfDayInYear_spec (leap : bool) k : 0 <= k < (if leap then 366 else 365) ->
  let m := monthOfDayInYear leap k in
  0 <= m <= 11 /\ daysBeforeMonth leap m <= k < daysBeforeMonth leap (m + 1).
Proof.
  intros H. destruct leap; unfold monthOfDayInYear, daysBeforeMonth; simpl;
    repeat match goal with |- context [Z.ltb ?a ?b] => destruct (Z.ltb_spec a b) end; simpl; lia.
Qed.

Lemma daysBeforeMonth_range leap m : 0 <= m <= 11 ->
  daysBeforeMonth leap m + 28 <= daysBeforeMonth leap (m + 1) <= daysBeforeMonth leap m + 31.
Proof.
  intros H. assert (m = 0 \/ m = 1 \/ m = 2 \/ m = 3 \/ m = 4 \/ m = 5 \/ m = 6 \/ m = 7 \/ m = 8 \/
    m = 9 \/ m = 10 \/ m = 11) as E by lia.
  destruct leap; repeat destruct E as [->|E]; try subst m; vm_compute; split; discriminate.
Qed.

Lemma daysBeforeMonth_12 (leap : bool) : daysBeforeMonth leap 12 = if leap then 366 else 365.
Proof. by destruct leap. Qed.

Lemma monthOfDayInYear_unique leap k m : 0 <= m <= 11 ->
  daysBeforeMonth leap m <= k < daysBeforeMonth leap (m + 1) -> monthOfDayInYear leap k = m.
Proof.
  intros H. assert (m = 0 \/ m = 1 \/ m = 2 \/ m = 3 \/ m = 4 \/ m = 5 \/ m = 6 \/ m = 7 \/ m = 8 \/
    m = 9 \/ m = 10 \/ m = 11) as E by lia. clear H.
  unfold monthOfDayInYear, daysBeforeMonth.
  destruct leap; repeat destruct E as [->|E]; try subst m; simpl; intros B;
    repeat match goal with |- context [Z.ltb ?a ?b] => destruct (Z.ltb_spec a b) end; lia.
Qed.

(** A day, read as year, month and date, and made again. *)
Lemma civil_spec d :
  let y := YearFromDay d in let m := MonthFromDay d in let dt := DateFromDay d in
  0 <= m <= 11 /\ 1 <= dt /\ dt <= daysBeforeMonth (isLeap y) (m + 1) - daysBeforeMonth (isLeap y) m /\
  d = DayFromYear y + daysBeforeMonth (isLeap y) m + dt - 1.
Proof.
  cbv zeta. pose proof (YearFromDay_spec d) as S. rewrite DayFromYear_step in S.
  unfold DateFromDay, MonthFromDay. set (y := YearFromDay d) in *.
  destruct (monthOfDayInYear_spec (isLeap y) (d - DayFromYear y)) as [M1 M2]; [destruct (isLeap y); lia|].
  set (m := monthOfDayInYear _ _) in *. lia.
Qed.

Lemma civil_unique d y m dt : 0 <= m <= 11 -> 1 <= dt ->
  dt <= daysBeforeMonth (isLeap y) (m + 1) - daysBeforeMonth (isLeap y) m ->
  d = DayFromYear y + daysBeforeMonth (isLeap y) m + dt - 1 ->
  YearFromDay d = y /\ MonthFromDay d = m /\ DateFromDay d = dt.
Proof.
  intros Hm H1 H2 ->.
  assert (0 <= daysBeforeMonth (isLeap y) m) as P0.
  { unfold daysBeforeMonth. destruct (isLeap y); repeat case_match; lia. }
  assert (daysBeforeMonth (isLeap y) (m + 1) <= (if isLeap y then 366 else 365)) as P1.
  { unfold daysBeforeMonth. destruct (isLeap y); repeat case_match; lia. }
  assert (YearFromDay (DayFromYear y + daysBeforeMonth (isLeap y) m + dt - 1) = y) as EY.
  { apply YearFromDay_unique. rewrite DayFromYear_step. destruct (isLeap y); lia. }
  assert (MonthFromDay (DayFromYear y + daysBeforeMonth (isLeap y) m + dt - 1) = m) as EM.
  { unfold MonthFromDay. rewrite EY. apply monthOfDayInYear_unique; [done|lia]. }
  split_and!; [done..|]. unfold DateFromDay. rewrite EY, EM. lia.
Qed.

(** The first day of a month counted from year 0: [monthStart (12 * y + m)]. *)
Definition monthStart (k : Z) : Z := DayFromYear (k / 12) + daysBeforeMonth (isLeap (k / 12)) (k mod 12).

Lemma MakeDay_monthStart y m dt : MakeDay y m dt = monthStart (12 * y + m) + dt - 1.
Proof.
  unfold MakeDay, monthStart. replace ((12 * y + m) / 12) with (y + m / 12) by (Z.div_mod_to_equations; lia).
  replace ((12 * y + m) mod 12) with (m mod 12) by (Z.div_mod_to_equations; lia). lia.
Qed.

Lemma monthStart_step k : monthStart k + 28 <= monthStart (k + 1) <= monthStart k + 31.
Proof.
  unfold monthStart. pose proof (Z.mod_pos_bound k 12 ltac:(lia)) as B.
  pose proof (daysBeforeMonth_range (isLeap (k / 12)) (k mod 12) ltac:(lia)) as R.
  destruct (Z.eq_dec (k mod 12) 11) as [E|E].
  - replace ((k + 1) / 12) with (k / 12 + 1) by (Z.div_mod_to_equations; lia).
    replace ((k + 1) mod 12) with 0 by (Z.div_mod_to_equations; lia).
    rewrite DayFromYear_step. rewrite E in *. replace (11 + 1) with 12 in R by lia.
    rewrite daysBeforeMonth_12 in R. change (daysBeforeMonth (isLeap (k / 12 + 1)) 0) with 0. lia.
  - replace ((k + 1) / 12) with (k / 12) by (Z.div_mod_to_equations; lia).
    replace ((k + 1) mod 12) with (k mod 12 + 1) by (Z.div_mod_to_equations; lia). lia.
Qed.

Lemma monthStart_add k n : 0 <= n -> monthStart k + 28 * n <= monthStart (k + n) <= monthStart k + 31 * n.
Proof.
  intros Hn. pattern n. apply natlike_ind; [|clear n Hn; intros n Hn IH|done].
  - replace (k + 0) with k by lia. lia.
  - pose proof (monthStart_step (k + n)). replace (k + Z.succ n) with (k + n + 1) by lia. lia.
Qed.

Lemma addUTCMonths_bounds t n : 0 <= n ->
  t + 28 * n * msPerDay <= addUTCMonths t n <= t + 31 * n * msPerDay.
Proof.
  intros Hn. unfold addUTCMonths. rewrite MakeDay_monthStart.
  pose proof (civil_spec (Day t)) as (M & D1 & D2 & E). set (y := YearFromDay (Day t)) in *.
  set (m := MonthFromDay (Day t)) in *. set (dt := DateFromDay (Day t)) in *.
  assert (monthStart (12 * y + m) = DayFromYear y + daysBeforeMonth (isLeap y) m) as S0.
  { unfold monthStart. replace ((12 * y + m) / 12) with y by (Z.div_mod_to_equations; lia).
    replace ((12 * y + m) mod 12) with m by (Z.div_mod_to_equations; lia). done. }
  pose proof (monthStart_add (12 * y + m) n Hn) as A.
  replace (12 * y + (m + n)) with (12 * y + m + n) by lia.
  assert (t = Day t * msPerDay + TimeWithinDay t) as ET.
  { unfold Day, TimeWithinDay. pose proof (Z.div_mod t msPerDay ltac:(done)). lia. }
  unfold msPerDay in *. lia.
Qed.

(** A date that exists in every month is kept: the month advances by [n], the
    date and the time of day stay. *)
Lemma addUTCMonths_date t n : DateFromDay (Day t) <= 28 ->
  let t' := addUTCMonths t n in
  12 * YearFromDay (Day t') + MonthFromDay (Day t') = 12 * YearFromDay (Day t) + MonthFromDay (Day t) + n /\
  DateFromDay (Day t') = DateFromDay (Day t) /\ TimeWithinDay t' = TimeWithinDay t.
Proof.
  intros Hd. cbv zeta. pose proof (civil_spec (Day t)) as (M & D1 & _ & _).
  assert (0 <= TimeWithinDay t < msPerDay) as T by (apply Z.mod_pos_bound; done).
  unfold addUTCMonths. set (y := YearFromDay (Day t)) in *. set (m := MonthFromDay (Day t)) in *.
  set (dt := DateFromDay (Day t)) in *. clearbody y m dt. set (d' := MakeDay y (m + n) dt).
  assert (Day (d' * msPerDay + TimeWithinDay t) = d') as ED.
  { unfold Day. rewrite Z.div_add_l by done. rewrite Z.div_small by done. lia. }
  rewrite ED. pose proof (Z.mod_pos_bound (m + n) 12 ltac:(lia)) as B.
  pose proof (daysBeforeMonth_range (isLeap (y + (m + n) / 12)) ((m + n) mod 12) ltac:(lia)) as R.
  assert (0 <= (m + n) mod 12 <= 11) as B' by (clear -B; lia).
  destruct (civil_unique d' (y + (m + n) / 12) ((m + n) mod 12) dt) as (-> & -> & ->); [exact B'|exact D1| |reflexivity|].
  { etransitivity; [exact Hd|]. clear -R. lia. }
  split_and!; [Z.div_mod_to_equations; lia|done|].
  unfold TimeWithinDay at 1. rewrite Z.add_comm, Z.mod_add by done. by rewrite Z.mod_small.
Qed.
