(* ===== verification/Subscriptions.v ===== *)
(** Subscriptions: the subscription lifecycle.

    The state machine of [subscription-status.ts] and the operations of
    [subscriptions.service.ts], each a whole transaction over the world.  The
    clock is the [now] argument of an operation. *)

From S2P Require Import Prelude JsNum Capacity Store Scheduler Calendar.
From Stdlib Require Import Lia.

Local Open Scope Z_scope.

(** ** subscription-status.ts *)

Definition ALLOWED_TRANSITIONS (from : SubscriptionStatus) : list SubscriptionStatus :=
  match from with
  | Sub_pending => [Sub_active; Sub_cancelled]
  | Sub_active => [Sub_past_due; Sub_suspended; Sub_cancelled; Sub_expired]
  | Sub_past_due => [Sub_active; Sub_suspended; Sub_cancelled; Sub_expired]
  | Sub_suspended => [Sub_active; Sub_cancelled; Sub_expired]
  | Sub_cancelled => []
  | Sub_expired => []
  end.

Definition canTransition (from to : SubscriptionStatus) : bool :=
  bool_decide (to ∈ ALLOWED_TRANSITIONS from).

Definition assertTransition (from to : SubscriptionStatus) : Res unit :=
  if canTransition from to then Ok tt
  else Throw (Conflict ("INVALID_TRANSITION: subscription is " +:+ subStatusStr from
                        +:+ ", cannot become " +:+ subStatusStr to)).

(** [None] is the [undefined] a lookup of ['none'] gives. *)
Definition PERIOD_MONTHS (p : BillingPeriod) : option Z :=
  match p with
  | monthly => Some 1 | quarterly => Some 3 | semiannual => Some 6 | annual => Some 12
  | period_none => None
  end.

Definition periodMonths (p : BillingPeriod) : option Z := PERIOD_MONTHS p.

(** [None] is an Invalid Date. *)
Definition nextPeriodEnd (from : Z) (period : BillingPeriod) : option Z :=
  (fun n => addUTCMonths from n) <$> PERIOD_MONTHS period.

(** Writing an Invalid Date to the database is refused by the client. *)
Definition writeDate (d : option Z) : MW Z := orThrow d (External "Invalid Date").

(** ** subscriptions.service.ts *)

Section Service.
Context `{Platform} (now : Z).

Definition lockAndValidatePlanForSubscription (planId : string) : MW Plan :=
  d ← gets w_db;
  plan ← orThrow (findFirst (fun p => (pl_id p =s planId) && (pl_deletedAt p =s None) && pl_isPublic p) (db_plans d))
           (NotFound "Plan not found");
  throwIf (pl_billingPeriod plan =s period_none)
    (Conflict "PLAN_NOT_SUBSCRIBABLE: this plan is not sold on a recurring basis") ;;
  mret plan.

Definition filled (v : option string) : bool :=
  match v with None => false | Some s => negb (s =s "") end.

Definition billingComplete (u : User) : bool :=
  forallb filled [usr_cpf u; usr_postalCode u; usr_addressLine u; usr_addressNumber u;
                  usr_neighborhood u; usr_city u; usr_state u].

(** The row [tx.subscription.create] inserts, defaults of the schema included. *)
Definition newSubscription (id userId : string) (plan : Plan) : Subscription :=
  {| sb_id := id; sb_userId := userId; sb_planId := pl_id plan; sb_serverId := None;
     sb_status := Sub_pending; sb_priceCents := pl_priceCents plan; sb_currency := pl_currency plan;
     sb_billingPeriod := pl_billingPeriod plan; sb_startedAt := None; sb_currentPeriodEndsAt := None;
     sb_cancelledAt := None; sb_cancelReason := None; sb_cancelAtPeriodEnd := false;
     sb_paymentMethod := None; sb_paymentProvider := "mercadopago"; sb_externalSubscriptionId := None;
     sb_autoRenew := false |}.

Definition createPendingSubscription (userId : string) (plan : Plan) : MW Subscription :=
  d ← gets w_db;
  billing ← orThrow (findId userId (db_users d)) RecordNotFound;
  throwIf (negb (billingComplete billing))
    (Conflict "BILLING_PROFILE_REQUIRED: complete seus dados de cobrança antes de assinar") ;;
  lift (assertSlots (occupiedSlots d (pl_id plan)) (pl_maxSlots plan)) ;;
  n ← freshN;
  let subscription := newSubscription (uuidv7 n) userId plan in
  onDb (fun d => d <| db_subscriptions := db_subscriptions d ++ [subscription] |>) ;;
  addSubscriptionEvent (mkEvent (sb_id subscription) None Sub_pending (Some userId) None now) ;;
  mret subscription.

Definition createForUser (userId planId : string) : MW Subscription :=
  withRLS (plan ← lockAndValidatePlanForSubscription planId; createPendingSubscription userId plan).

Definition getForUser (userId id : string) : MW Subscription :=
  withRLS (
    d ← gets w_db;
    orThrow (findFirst (fun s => (sb_id s =s id) && (sb_userId s =s userId)) (db_subscriptions d))
      (NotFound "Subscription not found")).

Definition cancelForUser (userId id : string) (reason : option string) : MW Subscription :=
  withRLS (
    d ← gets w_db;
    subscription ← orThrow (findFirst (fun s => (sb_id s =s id) && (sb_userId s =s userId)) (db_subscriptions d))
                     (NotFound "Subscription not found");
    let from := sb_status subscription in
    lift (assertTransition from Sub_cancelled) ;;
    updated ← updateSubscription id (fun s =>
      s <| sb_status := Sub_cancelled |> <| sb_cancelledAt := Some now |> <| sb_cancelReason := reason |>);
    addSubscriptionEvent (mkEvent id (Some from) Sub_cancelled (Some userId) reason now) ;;
    mret updated).

(** The writes of [applyTransition], on the row [existing] it read. *)
Definition writeTransition (existing : Subscription) (id : string) (to : SubscriptionStatus)
    (actorId reason : option string) : MW (Subscription * SubscriptionStatus) :=
  let from := sb_status existing in
  data ← (if to =s Sub_active then
            periodEnd ← writeDate (nextPeriodEnd now (sb_billingPeriod existing));
            mret (fun s : Subscription => s <| sb_status := to |>
              <| sb_startedAt := Some (default now (sb_startedAt existing)) |>
              <| sb_currentPeriodEndsAt := Some periodEnd |>)
          else if to =s Sub_cancelled then
            mret (fun s : Subscription => s <| sb_status := to |>
              <| sb_cancelledAt := Some now |> <| sb_cancelReason := reason |>)
          else mret (fun s : Subscription => s <| sb_status := to |>));
  updated ← updateSubscription id data;
  addSubscriptionEvent (mkEvent id (Some from) to actorId reason now) ;;
  mret (updated, from).

Definition applyTransition (id : string) (to : SubscriptionStatus) (actorId reason : option string)
    : MW (Subscription * SubscriptionStatus) :=
  d ← gets w_db;
  existing ← orThrow (findId id (db_subscriptions d)) (NotFound "Subscription not found");
  lift (assertTransition (sb_status existing) to) ;;
  writeTransition existing id to actorId reason.

Definition updateStatusAsAdmin (id : string) (status : SubscriptionStatus) (reason : option string)
    (actorId : string) : MW Subscription :=
  '(subscription, _) ← withRLS (applyTransition id status (Some actorId) reason);
  record "admin.subscription.status" (Some actorId) "subscription" id ;;
  mret subscription.

(** The date a renewal counts from. *)
Definition renewalAnchor (existing : Subscription) : Z :=
  match sb_currentPeriodEndsAt existing with
  | Some e => if e >? now then e else now
  | None => now
  end.

Definition applyRenewal (id : string) (actorId : option string) : MW (Subscription * SubscriptionStatus) :=
  d ← gets w_db;
  existing ← orThrow (findId id (db_subscriptions d)) (NotFound "Subscription not found");
  let from := sb_status existing in
  let currentPeriodEndsAt := nextPeriodEnd (renewalAnchor existing) (sb_billingPeriod existing) in
  if from =s Sub_past_due then
    result ← applyTransition id Sub_active actorId (Some "payment.webhook: renewal");
    e ← writeDate currentPeriodEndsAt;
    updated ← updateSubscription id (fun s => s <| sb_currentPeriodEndsAt := Some e |>);
    mret (updated, snd result)
  else
    e ← writeDate currentPeriodEndsAt;
    updated ← updateSubscription id (fun s => s <| sb_currentPeriodEndsAt := Some e |>);
    mret (updated, from).

End Service.

(** ** Specification: the history of a subscription

    [replay] runs the recorded events through the state machine; [None] is a
    log the machine refuses. *)

Definition replayStep (st : option (option SubscriptionStatus)) (e : SubscriptionEvent)
    : option (option SubscriptionStatus) :=
  match st with
  | None => None
  | Some cur =>
    if ev_fromStatus e =s cur then
      match cur with
      | None => if ev_toStatus e =s Sub_pending then Some (Some Sub_pending) else None
      | Some f => if canTransition f (ev_toStatus e) then Some (Some (ev_toStatus e)) else None
      end
    else None
  end.

Definition eventsOf (id : string) (evs : list SubscriptionEvent) : list SubscriptionEvent :=
  List.filter (fun e => ev_subscriptionId e =s id) evs.

Definition replay (evs : list SubscriptionEvent) : option (option SubscriptionStatus) :=
  fold_left replayStep evs (Some None).

(** The recorded events of every subscription but those of [X] are a legal run of the
    state machine from creation to its current status. *)
Definition historyOk (X : string -> Prop) (d : Db) : Prop :=
  forall id s, ~ X id -> findId id (db_subscriptions d) = Some s ->
    replay (eventsOf id (db_events d)) = Some (Some (sb_status s)).

(** Ids still to be drawn name no row yet. *)
Definition idsFresh `{Platform} (w : World) : Prop :=
  forall n, (w_next w <= n)%N ->
    findId (uuidv7 n) (db_subscriptions (w_db w)) = None /\
    eventsOf (uuidv7 n) (db_events (w_db w)) = [].

Class PlatformLaws `{Platform} : Prop := { uuidv7_inj : Inj (=) (=) uuidv7 }.

(** ** Lemmas: runs *)

Definition transitionData (now : Z) (existing : Subscription) (to : SubscriptionStatus) (reason : option string)
    : option (Subscription -> Subscription) :=
  if to =s Sub_active then
    (fun periodEnd (s : Subscription) => s <| sb_status := to |>
       <| sb_startedAt := Some (default now (sb_startedAt existing)) |>
       <| sb_currentPeriodEndsAt := Some periodEnd |>) <$> nextPeriodEnd now (sb_billingPeriod existing)
  else if to =s Sub_cancelled then
    Some (fun s => s <| sb_status := to |> <| sb_cancelledAt := Some now |> <| sb_cancelReason := reason |>)
  else Some (fun s => s <| sb_status := to |>).

Definition withEvent (e : SubscriptionEvent) (d : Db) : Db := d <| db_events := db_events d ++ [e] |>.
Definition withSub (id : string) (f : Subscription -> Subscription) (d : Db) : Db :=
  d <| db_subscriptions := updId id f (db_subscriptions d) |>.

Lemma updateSubscription_run id f w s : findId id (db_subscriptions (w_db w)) = Some s ->
  updateSubscription id f w = (Ok (f s), w <| w_db := withSub id f (w_db w) |>).
Proof. intros E. unfold updateSubscription, mbind, M_bind, gets. simpl. by rewrite E. Qed.

Lemma applyTransition_run now id to actor reason w :
  applyTransition now id to actor reason w =
  match findId id (db_subscriptions (w_db w)) with
  | None => (Throw (NotFound "Subscription not found"), w)
  | Some s =>
    match assertTransition (sb_status s) to, transitionData now s to reason with
    | Throw e, _ => (Throw e, w)
    | Ok _, None => (Throw (External "Invalid Date"), w)
    | Ok _, Some f =>
      (Ok (f s, sb_status s),
       w <| w_db := withEvent (mkEvent id (Some (sb_status s)) to actor reason now) (withSub id f (w_db w)) |>)
    end
  end.
Proof.
  unfold applyTransition, writeTransition, transitionData, writeDate. unfold mbind, M_bind, gets, lift, orThrow, throw, mret, M_ret. simpl.
  destruct (findId id _) as [s|] eqn:E; [|done]. destruct (assertTransition _ _); [|done].
  destruct (to =s Sub_active); [|destruct (to =s Sub_cancelled)]; simpl.
  - destruct (nextPeriodEnd _ _); simpl; [|done]. by rewrite (updateSubscription_run _ _ _ _ E).
  - by rewrite (updateSubscription_run _ _ _ _ E).
  - by rewrite (updateSubscription_run _ _ _ _ E).
Qed.

(** What a contract fixes for good. *)
Definition contract (s : Subscription) :=
  (sb_id s, sb_userId s, sb_planId s, sb_priceCents s, sb_currency s, sb_billingPeriod s).

Lemma contract_id s s' : contract s = contract s' -> sb_id s = sb_id s'.
Proof. unfold contract. congruence. Qed.

Lemma transitionData_status now s to reason f x : transitionData now s to reason = Some f ->
  sb_status (f x) = to /\ contract (f x) = contract x.
Proof.
  unfold transitionData. destruct (nextPeriodEnd now _); repeat case_match; simpl; intros; simplify_eq; done.
Qed.

Lemma applyRenewal_run now id actor w :
  applyRenewal now id actor w =
  match findId id (db_subscriptions (w_db w)) with
  | None => (Throw (NotFound "Subscription not found"), w)
  | Some s =>
    match nextPeriodEnd (renewalAnchor now s) (sb_billingPeriod s) with
    | None => (Throw (External "Invalid Date"), w)
    | Some e =>
      if sb_status s =s Sub_past_due then
        match transitionData now s Sub_active (Some "payment.webhook: renewal") with
        | None => (Throw (External "Invalid Date"), w)
        | Some f =>
          (Ok ((f s) <| sb_currentPeriodEndsAt := Some e |>, sb_status s),
           w <| w_db := withSub id (fun s => s <| sb_currentPeriodEndsAt := Some e |>)
             (withEvent (mkEvent id (Some (sb_status s)) Sub_active actor (Some "payment.webhook: renewal") now)
               (withSub id f (w_db w))) |>)
        end
      else (Ok (s <| sb_currentPeriodEndsAt := Some e |>, sb_status s),
            w <| w_db := withSub id (fun s => s <| sb_currentPeriodEndsAt := Some e |>) (w_db w) |>)
    end
  end.
Proof.
  unfold applyRenewal. unfold mbind at 1 2, M_bind at 1 2, gets, orThrow, throw, mret at 1, M_ret at 1.
  cbn [w_db]. destruct (findId id _) as [s|] eqn:E; [|done].
  destruct (bool_decide_reflect (sb_status s = Sub_past_due)) as [P|P].
  - unfold mbind at 1, M_bind at 1. rewrite applyTransition_run, E, P. simpl.
    unfold transitionData. simpl.
    destruct (PERIOD_MONTHS (sb_billingPeriod s)) eqn:M; unfold nextPeriodEnd; rewrite M; simpl; [|done].
    unfold mbind, M_bind, writeDate, orThrow, mret, M_ret. simpl.
    erewrite updateSubscription_run by (simpl; apply findId_updId; [done|exact E]). done.
  - unfold mbind, M_bind, writeDate, orThrow, mret, M_ret.
    destruct (nextPeriodEnd _ _); simpl; [|done]. by rewrite (updateSubscription_run _ _ _ _ E).
Qed.

Lemma cancelForUser_run now userId id reason w :
  cancelForUser now userId id reason w =
  match findFirst (fun s => (sb_id s =s id) && (sb_userId s =s userId)) (db_subscriptions (w_db w)) with
  | None => (Throw (NotFound "Subscription not found"), w <| w_db := w_db w |>)
  | Some s =>
    match assertTransition (sb_status s) Sub_cancelled, findId id (db_subscriptions (w_db w)) with
    | Throw e, _ => (Throw e, w <| w_db := w_db w |>)
    | Ok _, None => (Throw RecordNotFound, w <| w_db := w_db w |>)
    | Ok _, Some s0 =>
      let f := fun s => s <| sb_status := Sub_cancelled |> <| sb_cancelledAt := Some now |> <| sb_cancelReason := reason |> in
      (Ok (f s0), w <| w_db := withEvent (mkEvent id (Some (sb_status s)) Sub_cancelled (Some userId) reason now)
                                 (withSub id f (w_db w)) |>)
    end
  end.
Proof.
  unfold cancelForUser, withRLS, mbind, M_bind, gets, lift, orThrow, throw, mret, M_ret. simpl.
  destruct (findFirst _ _) as [s|]; [|done]. destruct (assertTransition _ _); [|done].
  destruct (findId id _) as [s0|] eqn:E.
  - by rewrite (updateSubscription_run _ _ _ _ E).
  - unfold updateSubscription, mbind, M_bind, gets. simpl. by rewrite E.
Qed.

(** ** Lemmas: history *)

Lemma eventsOf_app id l e :
  eventsOf id (l ++ [e]) = if ev_subscriptionId e =s id then eventsOf id l ++ [e] else eventsOf id l.
Proof.
  unfold eventsOf. rewrite List.filter_app. simpl.
  destruct (ev_subscriptionId e =s id); [done|by rewrite app_nil_r].
Qed.

Lemma replay_snoc evs e : replay (evs ++ [e]) = replayStep (replay evs) e.
Proof. unfold replay. by rewrite fold_left_app. Qed.

Lemma assertTransition_ok from to u : assertTransition from to = Ok u -> canTransition from to = true.
Proof. unfold assertTransition. by destruct (canTransition from to). Qed.

Lemma historyOk_transition X d id s f to actor reason now :
  historyOk X d -> findId id (db_subscriptions d) = Some s -> canTransition (sb_status s) to = true ->
  (forall x, sb_status (f x) = to /\ sb_id (f x) = sb_id x) ->
  historyOk X (withEvent (mkEvent id (Some (sb_status s)) to actor reason now) (withSub id f d)).
Proof.
  intros Hh Hs Ht Hf id' s' HX. simpl. rewrite eventsOf_app. simpl.
  destruct (bool_decide_reflect (id = id')) as [<-|Hne].
  - rewrite (findId_updId id f _ s); [|intros; apply Hf|done]. intros [= <-].
    rewrite replay_snoc, (Hh _ _ HX Hs). simpl. rewrite bool_decide_true, Ht by done.
    by destruct (Hf s) as [-> _].
  - rewrite findId_updId_ne; [by apply Hh|intros; apply Hf|done].
Qed.

Lemma historyOk_exempt (X : string -> Prop) d id f :
  historyOk X d -> X id -> (forall x, sb_id (f x) = sb_id x) -> historyOk X (withSub id f d).
Proof.
  intros Hh Hx Hf id' s' HX E. simpl in E. rewrite findId_updId_ne in E; [by apply Hh|done|]. by intros ->.
Qed.

Lemma historyOk_create X d s actor now :
  historyOk X d -> findId (sb_id s) (db_subscriptions d) = None -> eventsOf (sb_id s) (db_events d) = [] ->
  sb_status s = Sub_pending ->
  historyOk X (withEvent (mkEvent (sb_id s) None Sub_pending actor None now)
               (d <| db_subscriptions := db_subscriptions d ++ [s] |>)).
Proof.
  intros Hh Hn He Hp id' s' HX E. simpl in *. rewrite eventsOf_app. simpl.
  destruct (findId id' (db_subscriptions d)) as [x|] eqn:Ex.
  - erewrite findId_app_some in E by exact Ex. injection E as <-.
    rewrite bool_decide_false by congruence. by apply Hh.
  - rewrite findId_app_none in E by done. case_bool_decide as E'; [|done]. injection E as <-.
    change (rid s) with (sb_id s) in E'. subst id'. rewrite bool_decide_true by done.
    rewrite He. simpl. unfold replay. simpl. by rewrite Hp.
Qed.

(** One operation of the service, and a run of many; a failed operation is a
    rolled-back transaction, and the run goes on.  The histories of all the code that
    writes subscriptions are in [SubscriptionRules]. *)
Inductive SubOp :=
  | OpCreate (now : Z) (userId planId : string)
  | OpCancel (now : Z) (userId id : string) (reason : option string)
  | OpStatus (now : Z) (id : string) (status : SubscriptionStatus) (reason : option string) (actorId : string)
  | OpRenew (now : Z) (id : string) (actorId : option string).

Section Runs.
Context `{PlatformLaws}.

Definition runOp (op : SubOp) (w : World) : World :=
  match op with
  | OpCreate now u p => (createForUser now u p w).2
  | OpCancel now u id r => (cancelForUser now u id r w).2
  | OpStatus now id st r a => (updateStatusAsAdmin now id st r a w).2
  | OpRenew now id a => (withRLS (applyRenewal now id a) w).2
  end.

Definition runOps (ops : list SubOp) (w : World) : World := fold_left (fun w op => runOp op w) ops w.

(** What a write does to the subscriptions and their events: nothing, a new row with its
    first event, a legal move with its event, or, for the rows of [X], anything that
    respects the contract. *)
Inductive SubStep (X : string -> Prop) (w : World) : World -> Prop :=
  | step_none w' : w_db w' = w_db w -> (w_next w <= w_next w')%N -> SubStep X w w'
  | step_create w' s actor now :
      sb_id s = uuidv7 (w_next w) -> sb_status s = Sub_pending ->
      w_db w' = withEvent (mkEvent (sb_id s) None Sub_pending actor None now)
                  ((w_db w) <| db_subscriptions := db_subscriptions (w_db w) ++ [s] |>) ->
      w_next w' = (w_next w + 1)%N -> SubStep X w w'
  | step_move w' id s f to actor reason now :
      findId id (db_subscriptions (w_db w)) = Some s -> canTransition (sb_status s) to = true ->
      (forall x, sb_status (f x) = to /\ contract (f x) = contract x) ->
      w_db w' = withEvent (mkEvent id (Some (sb_status s)) to actor reason now) (withSub id f (w_db w)) ->
      w_next w' = w_next w -> SubStep X w w'
  | step_exempt w' id f :
      X id -> (forall x, contract (f x) = contract x) ->
      w_db w' = withSub id f (w_db w) -> w_next w' = w_next w -> SubStep X w w'.

(** The row a guarded [findFirst] by id and owner returns is the row of that
    id, ids being unique. *)
Definition uniqueIds (d : Db) : Prop := NoDup (map sb_id (db_subscriptions d)).

Lemma findFirst_owner d id u s : uniqueIds d ->
  findFirst (fun s => (sb_id s =s id) && (sb_userId s =s u)) (db_subscriptions d) = Some s ->
  findId id (db_subscriptions d) = Some s.
Proof.
  intros Hu [Hs E]%findFirst_some. rewrite andb_true_iff, !bool_decide_eq_true in E. destruct E as [<- _].
  destruct (findId_elem (db_subscriptions d) s Hs) as [s' Es]. change (rid s) with (sb_id s) in Es.
  rewrite Es. f_equal. apply findId_some in Es as [Hs' E']. by eapply NoDup_map_inj.
Qed.

Lemma cancelForUser_step X now u id r w : uniqueIds (w_db w) -> SubStep X w (cancelForUser now u id r w).2.
Proof.
  intros Hu. rewrite cancelForUser_run. destruct (findFirst _ _) as [s|] eqn:E; simpl; [|by apply step_none].
  destruct (assertTransition _ _) eqn:T; simpl; [|by apply step_none].
  pose proof (findFirst_owner _ _ _ _ Hu E) as E'. rewrite E'. apply assertTransition_ok in T.
  eapply (step_move X w _ id s); [exact E'|exact T| |reflexivity|reflexivity]. done.
Qed.

End Runs.

(** ** Lemmas: the invariant over runs *)

Section Invariant.
Context `{PlatformLaws}.

Context (X : string -> Prop).

Definition SubInv (w : World) : Prop := historyOk X (w_db w) /\ idsFresh w /\ uniqueIds (w_db w).

(** Contract unchanged; but for [X], status moves along the edges of the state machine. *)
Definition lifecycle (s s' : Subscription) : Prop :=
  contract s' = contract s /\ (~ X (sb_id s) -> rtc (fun a b => canTransition a b = true) (sb_status s) (sb_status s')).

#[export] Instance lifecycle_preorder : PreOrder lifecycle.
Proof.
  split.
  - intros s. by split.
  - intros a b c [H1 H2] [H3 H4]. split; [congruence|]. intros Hx.
    etransitivity; [by apply H2|]. apply H4. by rewrite (contract_id _ _ H1).
Qed.

Lemma lifecycle_id s s' : lifecycle s s' -> rid s' = rid s.
Proof. intros [Hc _]. by apply contract_id. Qed.

Lemma updId_ids id f (l : list Subscription) :
  (forall x, sb_id (f x) = sb_id x) -> map sb_id (updId id f l) = map sb_id l.
Proof.
  intros Hf. unfold updId. induction l as [|x l IH]; simpl; [done|].
  destruct (rid x =s id); simpl; [by rewrite Hf|by rewrite IH].
Qed.

Lemma SubStep_inv w w' : SubInv w -> SubStep X w w' -> SubInv w'.
Proof.
  intros (Hh & Hf & Hu) [w1 Hd Hn | w1 s actor now Hid Hp Hd Hn | w1 id s f to a r now Hs Ht Hfx Hd Hn | w1 id f Hx Hfx Hd Hn];
    unfold SubInv, idsFresh, uniqueIds in *; rewrite Hd.
  - split_and!; [done| |done]. intros n Hle. apply Hf. lia.
  - destruct (Hf (w_next w)) as [F1 F2]; [lia|]. split_and!.
    + apply historyOk_create; rewrite ?Hid; done.
    + intros n Hle. rewrite Hn in Hle. destruct (Hf n) as [G1 G2]; [lia|]. simpl.
      rewrite findId_app_none, eventsOf_app, G2 by done. simpl. change (rid s) with (sb_id s). rewrite Hid.
      rewrite bool_decide_false; [done|]. intros E. apply uuidv7_inj in E. lia.
    + simpl. rewrite List.map_app. simpl. apply NoDup_app. split_and!; [done| |apply NoDup_singleton].
      intros x Hx ->%list_elem_of_singleton. apply list_elem_of_In, in_map_iff in Hx as (y & E & Hy).
      rewrite <- list_elem_of_In in Hy. destruct (findId_elem _ _ Hy) as [z Hz]. change (rid y) with (sb_id y) in Hz.
      rewrite E, Hid in Hz. congruence.
  - assert (forall x, sb_id (f x) = sb_id x) as Hfid by (intros x; apply contract_id, Hfx). split_and!.
    + apply historyOk_transition; try done. intros x. split; [apply Hfx|done].
    + intros n Hle. rewrite Hn in Hle. destruct (Hf n Hle) as [G1 G2]. simpl.
      rewrite eventsOf_app, G2. simpl. split; [by apply findId_updId_none|].
      rewrite bool_decide_false; [done|]. intros ->. congruence.
    + simpl. by rewrite updId_ids.
  - assert (forall x, sb_id (f x) = sb_id x) as Hfid by (intros x; apply contract_id, Hfx). split_and!.
    + by apply historyOk_exempt.
    + intros n Hle. rewrite Hn in Hle. destruct (Hf n Hle) as [G1 G2]. split; [by apply findId_updId_none|done].
    + simpl. by rewrite updId_ids.
Qed.

Lemma SubStep_lifecycle w w' : SubStep X w w' ->
  evolves lifecycle (db_subscriptions (w_db w)) (db_subscriptions (w_db w')).
Proof.
  intros [w1 Hd Hn | w1 s actor now Hid Hp Hd Hn | w1 id s f to a r now Hs Ht Hfx Hd Hn | w1 id f Hx Hfx Hd Hn]; rewrite Hd.
  - reflexivity.
  - apply evolves_app, _.
  - apply evolves_updId; [apply _|]. intros x Hx. rewrite Hs in Hx. injection Hx as ->.
    split; [apply Hfx|]. intros _. apply rtc_once. by rewrite (proj1 (Hfx x)).
  - apply evolves_updId; [apply _|]. intros x [_ Ex]%findId_some. split; [apply Hfx|].
    change (rid x) with (sb_id x) in Ex. by rewrite Ex.
Qed.

(** What a run of any handler must do: draw fresh ids, keep the invariant, and move the
    subscriptions only as [lifecycle] says. *)
Definition subRel (w w' : World) : Prop :=
  (w_next w <= w_next w')%N /\
  (SubInv w -> SubInv w' /\ evolves lifecycle (db_subscriptions (w_db w)) (db_subscriptions (w_db w'))).

#[export] Instance subRel_preorder : PreOrder subRel.
Proof.
  split.
  - intros w. split; [lia|]. intros Hw. split; [done|reflexivity].
  - intros a b c [N1 H1] [N2 H2]. split; [lia|]. intros Ha. destruct (H1 Ha) as [Hb E1]. destruct (H2 Hb) as [Hc E2].
    split; [done|by etransitivity].
Qed.

Lemma SubStep_rel w w' : SubStep X w w' -> subRel w w'.
Proof.
  intros S. split.
  - destruct S as [? ? ?|? ? ? ? ? ? ? E|? ? ? ? ? ? ? ? ? ? ? ? E|? ? ? ? ? ? E]; rewrite ?E; lia.
  - intros Hw. split; [by eapply SubStep_inv|by apply SubStep_lifecycle].
Qed.

(** A rolled-back transaction only draws ids. *)
Lemma subRel_rollback w w' : subRel w w' -> subRel w (w' <| w_db := w_db w |>).
Proof. intros [N _]. by apply SubStep_rel, step_none. Qed.

Lemma terminal_rtc a b : a = Sub_cancelled \/ a = Sub_expired ->
  rtc (fun a b => canTransition a b = true) a b -> b = a.
Proof. intros Ht Hr. inversion Hr as [|? c ? Hc]; [done|]. by destruct Ht; subst. Qed.

End Invariant.

(** ** Theorems on the single operations *)

Section Operations.
Context `{Platform}.

Definition createGuard (w : World) (userId planId : string) (plan : Plan) (u : User) : Prop :=
  findFirst (fun p => (pl_id p =s planId) && (pl_deletedAt p =s None) && pl_isPublic p) (db_plans (w_db w)) = Some plan /\
  pl_billingPeriod plan <> period_none /\
  findId userId (db_users (w_db w)) = Some u /\ billingComplete u = true /\
  (forall m, pl_maxSlots plan = Some m -> occupiedSlots (w_db w) (pl_id plan) < m).

Lemma occupiedSlots_pending d s p : sb_status s = Sub_pending ->
  occupiedSlots (d <| db_subscriptions := db_subscriptions d ++ [s] |>) p = occupiedSlots d p.
Proof.
  intros Hs. unfold occupiedSlots. simpl. rewrite countWhere_app. unfold countWhere at 3. simpl.
  rewrite Hs. rewrite (bool_decide_false (Sub_pending ∈ _)) by (intros E; by inversion E as [|? ? ? E']; inversion E').
  rewrite andb_false_r. simpl. lia.
Qed.

Lemma assertSlots_ok o m : assertSlots o m = Ok tt <-> (forall x, m = Some x -> o < x).
Proof.
  unfold assertSlots. destruct m as [x|]; [|naive_solver].
  rewrite Z.geb_leb. destruct (Z.leb_spec x o) as [L|L]; split; intros G; try done.
  - specialize (G x eq_refl). lia.
  - by intros ? [= <-].
Qed.

(** [createForUser] succeeds exactly when the plan exists, is live, public
    and recurring, the customer's billing profile is complete and the plan has
    a free slot.  The new subscription is pending, priced from the plan row and
    from nothing the caller sent, and does not take a slot of any plan; on
    every refusal the database is unchanged. *)
Theorem createForUser_spec now w userId planId :
  match createForUser now userId planId w with
  | (Ok s, w') =>
    (exists plan u, createGuard w userId planId plan u /\
       s = newSubscription (uuidv7 (w_next w)) userId plan) /\
    db_subscriptions (w_db w') = db_subscriptions (w_db w) ++ [s] /\
    forall p, occupiedSlots (w_db w') p = occupiedSlots (w_db w) p
  | (Throw _, w') => w_db w' = w_db w /\ forall plan u, ~ createGuard w userId planId plan u
  end.
Proof.
  unfold createForUser, lockAndValidatePlanForSubscription, createPendingSubscription, withRLS, createGuard.
  unfold mbind, M_bind, gets, orThrow, throw, throwIf, lift, freshN, mret, M_ret. simpl.
  destruct (findFirst _ _) as [plan|]; simpl; [|split; [done|naive_solver]].
  destruct (bool_decide_reflect (pl_billingPeriod plan = period_none)) as [B|B]; simpl; [split; [done|naive_solver]|].
  destruct (findId userId _) as [u|]; simpl; [|split; [done|naive_solver]].
  destruct (billingComplete u) eqn:Bc; simpl; [|split; [done|intros plan' u' (_ & _ & [= <-] & ? & _); congruence]].
  pose proof (assertSlots_ok (occupiedSlots (w_db w) (pl_id plan)) (pl_maxSlots plan)) as A.
  destruct (assertSlots _ _) as [[]|e] eqn:E; simpl.
  - split_and!; [|done|].
    + exists plan, u. split; [|done]. split_and!; try done. by apply A.
    + intros p. by apply (occupiedSlots_pending (w_db w) (newSubscription (uuidv7 (w_next w)) userId plan)).
  - split; [done|]. intros plan' u' ([= <-] & _ & [= <-] & _ & Hs). apply A in Hs. done.
Qed.

(** A renewal adds at least a full period on top of what is already paid:
    the new end is 28 to 31 days per month after the later of the old end and
    now.  It clears past_due, and leaves every other status as it is. *)
Theorem applyRenewal_extends now id actor w s' from w' :
  applyRenewal now id actor w = (Ok (s', from), w') ->
  exists s n e, findId id (db_subscriptions (w_db w)) = Some s /\ from = sb_status s /\
    PERIOD_MONTHS (sb_billingPeriod s) = Some n /\ sb_currentPeriodEndsAt s' = Some e /\
    renewalAnchor now s + 28 * n * msPerDay <= e <= renewalAnchor now s + 31 * n * msPerDay /\
    now <= renewalAnchor now s /\ (forall old, sb_currentPeriodEndsAt s = Some old -> old <= renewalAnchor now s) /\
    sb_status s' = (if sb_status s =s Sub_past_due then Sub_active else sb_status s) /\
    findId id (db_subscriptions (w_db w')) = Some s'.
Proof.
  rewrite applyRenewal_run. destruct (findId id _) as [s|] eqn:E; [|done].
  unfold nextPeriodEnd. destruct (PERIOD_MONTHS _) as [n|] eqn:M; simpl; [|done]. intros Hr.
  assert (0 <= n) as Hn by (destruct (sb_billingPeriod s); simplify_eq/=; lia).
  pose proof (addUTCMonths_bounds (renewalAnchor now s) n Hn) as B.
  exists s, n, (addUTCMonths (renewalAnchor now s) n).
  assert (now <= renewalAnchor now s /\ (forall old, sb_currentPeriodEndsAt s = Some old -> old <= renewalAnchor now s)) as [A1 A2].
  { unfold renewalAnchor. destruct (sb_currentPeriodEndsAt s) as [o|]; [|split; [lia|done]].
    rewrite Z.gtb_ltb. destruct (Z.ltb_spec now o); split; try lia; intros ? [= <-]; lia. }
  destruct (bool_decide_reflect (sb_status s = Sub_past_due)) as [P|P].
  - unfold transitionData, nextPeriodEnd in Hr. rewrite M in Hr. simpl in Hr. injection Hr as <- <- <-.
    split_and!; try done; try lia. simpl.
    eapply eq_trans; [apply findId_updId; [done|apply findId_updId; [done|exact E]]|reflexivity].
  - injection Hr as <- <- <-. split_and!; try done; try lia. simpl.
    eapply eq_trans; [apply findId_updId; [done|exact E]|reflexivity].
Qed.

(** The period end keeps the day of the month and the time of day whenever
    that day exists in every month, and moves by exactly the plan's months. *)
Theorem nextPeriodEnd_calendar t p n t' :
  PERIOD_MONTHS p = Some n -> nextPeriodEnd t p = Some t' -> DateFromDay (Day t) <= 28 ->
  12 * YearFromDay (Day t') + MonthFromDay (Day t') = 12 * YearFromDay (Day t) + MonthFromDay (Day t) + n /\
  DateFromDay (Day t') = DateFromDay (Day t) /\ TimeWithinDay t' = TimeWithinDay t.
Proof. unfold nextPeriodEnd. intros -> Hr Hd. apply Some_inj in Hr. rewrite <- Hr. exact (addUTCMonths_date t n Hd). Qed.

(** A month-end date overflows: a monthly period starting on 31 January 2026
    (day 20484) ends on 3 March (day 20515), skipping February altogether. *)
Theorem nextPeriodEnd_month_end :
  (YearFromDay 20484, MonthFromDay 20484, DateFromDay 20484) = (2026, 0, 31) /\
  nextPeriodEnd (20484 * msPerDay) monthly = Some (20515 * msPerDay) /\
  (YearFromDay 20515, MonthFromDay 20515, DateFromDay 20515) = (2026, 2, 3).
Proof. split_and!; vm_compute; reflexivity. Qed.

End Operations.

(** ** Witnesses *)

Module DemoSub.

#[export] Instance laws : @PlatformLaws Demo.platform.
Proof. split. intros x y E. cbn in E. injection E as E. by apply (inj pretty). Qed.

Definition user (id : string) : User :=
  mkUser id "a@b.c" None (Some "39053344705") (Some "Ana") (Some "Lima") (Some "01001000") (Some "Rua A")
    (Some "1") (Some "Centro") (Some "São Paulo") (Some "SP").

Definition world : World :=
  mkWorld (Demo.db <| db_users := [user "u"] |>) [] [] 0%N [].

Definition ops : list SubOp :=
  [OpCreate 1000 "u" "p"; OpStatus 2000 "id-0" Sub_active None "admin"; OpCancel 3000 "u" "id-0" None;
   OpStatus 4000 "id-0" Sub_active None "admin"].

End DemoSub.

#[local] Existing Instance Demo.platform.
#[local] Existing Instance DemoSub.laws.

Lemma applyRenewal_extends_witness :
  exists s' from w', applyRenewal 5000 "id-0" None (runOps (take 2 DemoSub.ops) DemoSub.world) = (Ok (s', from), w') /\
    exists e, sb_currentPeriodEndsAt s' = Some e /\ 5000 + 28 * msPerDay <= e.
Proof.
  destruct (applyRenewal 5000 "id-0" None (runOps (take 2 DemoSub.ops) DemoSub.world)) as [[[s' from]|x] w'] eqn:E; [|discriminate E].
  destruct (applyRenewal_extends 5000 "id-0" None _ s' from w' E) as (s & n & e & Hs & _ & Hn & He & B & A & _).
  exists s', from, w'. split; [reflexivity|]. exists e. split; [exact He|].
  vm_compute in Hs. injection Hs as <-. vm_compute in Hn. injection Hn as <-. unfold msPerDay in *. lia.
Defined.

Lemma nextPeriodEnd_calendar_witness :
  exists t', nextPeriodEnd 1000 quarterly = Some t' /\ DateFromDay (Day t') = 1.
Proof.
  destruct (nextPeriodEnd 1000 quarterly) as [t'|] eqn:E; [|discriminate E].
  destruct (nextPeriodEnd_calendar 1000 quarterly 3 t' eq_refl E) as (_ & Hd & _); [vm_compute; discriminate|].
  exists t'. split; [reflexivity|]. rewrite Hd. vm_compute. reflexivity.
Defined.
