(* ===== verification/JsString.v ===== *)
(** JsString: the string operations of the language the services use.

    A string is its UTF-8 encoding; [jsLength] counts UTF-16 code units.
    [jsNumber] is the [Number(string)] conversion and [numStr] the
    number-to-string conversion of the ECMAScript specification. *)

From S2P Require Import Prelude JsNum.
From Stdlib Require Import QArith Qround Ascii String Lia.

Local Open Scope Z_scope.

(** ** Characters *)

Definition code (c : ascii) : N := N_of_ascii c.

Definition isDigit (c : ascii) : bool := (48 <=? code c)%N && (code c <=? 57)%N.

Definition digitVal (c : ascii) : Z := Z.of_N (code c) - 48.

(** UTF-16 length of a UTF-8 string: continuation bytes count nothing, a
    four-byte sequence is a surrogate pair. *)
Fixpoint jsLength (s : string) : Z :=
  match s with
  | EmptyString => 0
  | String c s' =>
    (if (code c <? 128)%N then 1 else if (code c <? 192)%N then 0 else if (code c <? 240)%N then 1 else 2)
    + jsLength s'
  end.

(** ** [split], [join], slices *)

(** [s.split(sep)] for a one-character separator. *)
Fixpoint splitOn (sep : ascii) (s : string) : list string :=
  match s with
  | EmptyString => [EmptyString]
  | String c s' =>
    if Ascii.eqb c sep then EmptyString :: splitOn sep s'
    else match splitOn sep s' with
         | [] => [String c EmptyString]
         | x :: xs => String c x :: xs
         end
  end.

Definition join (sep : string) (l : list string) : string := String.concat sep l.

Fixpoint dropS (n : nat) (s : string) : string :=
  match n, s with
  | S n', String _ s' => dropS n' s'
  | _, _ => s
  end.

(** [s.slice(0, n)], in UTF-16 code units of the UTF-8 text (a pair that
    straddles the end is dropped whole). *)
Fixpoint sliceTo (n : nat) (s : string) : string :=
  match s with
  | EmptyString => EmptyString
  | String c rest =>
    let b := code c in
    if ((128 <=? b) && (b <? 192))%N then String c (sliceTo n rest)
    else if (240 <=? b)%N then
      match n with S (S k) => String c (sliceTo k rest) | _ => EmptyString end
    else match n with S k => String c (sliceTo k rest) | O => EmptyString end
  end.

(** ** Whitespace *)

Definition bytes (l : list N) : string :=
  fold_right (fun b s => String (ascii_of_N b) s) EmptyString l.

(** WhiteSpace and LineTerminator of the specification, UTF-8 encoded. *)
Definition jsSpaces : list string :=
  map bytes ([[9]; [10]; [11]; [12]; [13]; [32]; [194; 160]; [225; 154; 128]]
    ++ map (fun b => [226; 128; b]) [128; 129; 130; 131; 132; 133; 134; 135; 136; 137; 138; 168; 169; 175]
    ++ [[226; 129; 159]; [227; 128; 128]; [239; 187; 191]])%N.

Definition spaceAt (s : string) : option string := findFirst (fun w => startsWith w s) jsSpaces.

Fixpoint trimStartF (fuel : nat) (s : string) : string :=
  match fuel with
  | O => s
  | S f => match spaceAt s with
           | Some w => trimStartF f (dropS (String.length w) s)
           | None => s
           end
  end.

Definition trimStart (s : string) : string := trimStartF (String.length s) s.

Definition spaceAtEnd (s : string) : option string := findFirst (fun w => endsWith w s) jsSpaces.

Fixpoint trimEndF (fuel : nat) (s : string) : string :=
  match fuel with
  | O => s
  | S f => match spaceAtEnd s with
           | Some w => trimEndF f (String.substring 0 (String.length s - String.length w) s)
           | None => s
           end
  end.

Definition trim (s : string) : string := let t := trimStart s in trimEndF (String.length t) t.

(** ** Numbers *)

Inductive JsNumber := NaN | PosInf | NegInf | Fin (q : Q).

Definition jsNeg (n : JsNumber) : JsNumber :=
  match n with NaN => NaN | PosInf => NegInf | NegInf => PosInf | Fin q => Fin (- q) end.

Definition jsLt (a b : JsNumber) : bool :=
  match a, b with
  | NaN, _ | _, NaN => false
  | NegInf, NegInf => false | NegInf, _ => true
  | _, NegInf => false
  | PosInf, _ => false | _, PosInf => true
  | Fin x, Fin y => negb (Qle_bool y x)
  end.

Definition jsGt (a b : JsNumber) : bool := jsLt b a.

Definition isInteger (n : JsNumber) : bool :=
  match n with Fin q => Qeq_bool q (inject_Z (Qfloor q)) | _ => false end.

(** The longest prefix of digits, with its value and length. *)
Fixpoint takeDigits (acc : Z) (len : nat) (s : string) : Z * nat * string :=
  match s with
  | String c s' => if isDigit c then takeDigits (acc * 10 + digitVal c) (S len) s' else (acc, len, s)
  | EmptyString => (acc, len, s)
  end.

Definition pow10 (e : Z) : Q := Qpower 10 e.

(** An optional exponent; [None] when the text is not one. *)
Definition readExponent (s : string) : option Z :=
  match s with
  | EmptyString => Some 0
  | String c s' =>
    if Ascii.eqb c "e" || Ascii.eqb c "E" then
      let '(sign, body) := match s' with
                           | String "-" b => (-1, b) | String "+" b => (1, b) | _ => (1, s') end in
      match takeDigits 0 0 body with
      | (v, S _, EmptyString) => Some (sign * v)
      | _ => None
      end
    else None
  end.

(** The largest finite double is below [2^1024]; larger decimals are Infinity. *)
Definition toDouble (q : Q) : JsNumber :=
  let r := rnd q in if Qle_bool (pow2 1024) r then PosInf else Fin (Qred r).

(** StrUnsignedDecimalLiteral. *)
Definition readUnsigned (s : string) : JsNumber :=
  if s =s "Infinity" then PosInf else
  let '(int, ni, rest) := takeDigits 0 0 s in
  let '(frac, nf, rest') := match rest with
                            | String "." r => takeDigits 0 0 r
                            | _ => (0, O, rest) end in
  match (ni + nf)%nat with
  | O => NaN
  | _ => match readExponent rest' with
         | None => NaN
         | Some e => toDouble ((inject_Z int + inject_Z frac * pow10 (- Z.of_nat nf)) * pow10 e)%Q
         end
  end.

Definition hexVal (c : ascii) : option Z :=
  let n := Z.of_N (code c) in
  if (48 <=? n) && (n <=? 57) then Some (n - 48)
  else if (97 <=? n) && (n <=? 102) then Some (n - 87)
  else if (65 <=? n) && (n <=? 70) then Some (n - 55)
  else None.

Fixpoint readRadix (radix acc : Z) (s : string) : option Z :=
  match s with
  | EmptyString => Some acc
  | String c s' => match hexVal c with
                   | Some v => if v <? radix then readRadix radix (acc * radix + v) s' else None
                   | None => None
                   end
  end.

Definition nonDecimal (radix : Z) (s : string) : JsNumber :=
  match s with
  | EmptyString => NaN
  | _ => match readRadix radix 0 s with Some v => toDouble (inject_Z v) | None => NaN end
  end.

(** [Number(s)]. *)
Definition jsNumber (s : string) : JsNumber :=
  match trim s with
  | EmptyString => Fin 0
  | String "-" t => jsNeg (readUnsigned t)
  | String "+" t => readUnsigned t
  | String "0" (String c t) as u =>
    if Ascii.eqb c "x" || Ascii.eqb c "X" then nonDecimal 16 t
    else if Ascii.eqb c "o" || Ascii.eqb c "O" then nonDecimal 8 t
    else if Ascii.eqb c "b" || Ascii.eqb c "B" then nonDecimal 2 t
    else readUnsigned u
  | u => readUnsigned u
  end.

(** [Number(undefined)] is NaN. *)
Definition jsNumberOpt (s : option string) : JsNumber :=
  match s with Some x => jsNumber x | None => NaN end.

(** [BigInt(s)]; [None] is the SyntaxError. *)
Definition bigInt (s : string) : option Z :=
  let decimal (t : string) := match takeDigits 0 0 t with (v, S _, EmptyString) => Some v | _ => None end in
  let radix (r : Z) (t : string) := match t with EmptyString => None | _ => readRadix r 0 t end in
  match trim s with
  | EmptyString => Some 0
  | String "-" t => Z.opp <$> decimal t
  | String "+" t => decimal t
  | String "0" (String c t) as u =>
    if Ascii.eqb c "x" || Ascii.eqb c "X" then radix 16 t
    else if Ascii.eqb c "o" || Ascii.eqb c "O" then radix 8 t
    else if Ascii.eqb c "b" || Ascii.eqb c "B" then radix 2 t
    else decimal u
  | u => decimal u
  end.

(** ** Number to string *)

Definition zeros (n : Z) : string := String.concat "" (repeat "0" (Z.to_nat n)).

(** Digit strings come from [pretty] on non-negative integers. *)
Definition digitsOf (n : Z) : string := zstr n.

(** The shortest digits that read back: the first [k] for which rounding [q]
    to [k] significant digits gives a decimal whose double is [q].  [e] is the
    exponent of the first digit, so [n * 10^(e - k + 1)] is the value. *)
Fixpoint shortest (fuel : nat) (k e : Z) (q : Q) : Z * Z :=
  let n := rhe (q * pow10 (k - 1 - e)) in
  match fuel with
  | O => (n, k)
  | S f => if Qeq_bool (rnd (inject_Z n * pow10 (e - k + 1))) q then (n, k) else shortest f (k + 1) e q
  end.

(** Floor of the base-10 logarithm of a positive rational, searched from the
    base-2 one. *)
Fixpoint log10F (fuel : nat) (e : Z) (q : Q) : Z :=
  match fuel with
  | O => e
  | S f => if Qle_bool (pow10 (e + 1)) q then log10F f (e + 1) q
           else if Qle_bool (pow10 e) q then e else log10F f (e - 1) q
  end.

Definition posStr (q : Q) : string :=
  let e := log10F 400 (qlog2 q * 3 / 10) q in
  let '(n0, k0) := shortest 16 1 e q in
  (* a rounding up to the next power of ten has one digit more *)
  let '(n, k, e) := if n0 =? 10 ^ k0 then (1, 1, e + 1) else (n0, k0, e) in
  let ds := digitsOf n in
  let p := e + 1 in
  if (k <=? p) && (p <=? 21) then ds +:+ zeros (p - k)
  else if (0 <? p) && (p <=? 21) then String.substring 0 (Z.to_nat p) ds +:+ "." +:+ dropS (Z.to_nat p) ds
  else if (-6 <? p) && (p <=? 0) then "0." +:+ zeros (- p) +:+ ds
  else
    let ex := (if p - 1 <? 0 then "e-" else "e+") +:+ digitsOf (Z.abs (p - 1)) in
    if k =? 1 then ds +:+ ex
    else String.substring 0 1 ds +:+ "." +:+ dropS 1 ds +:+ ex.

Definition numStr (n : JsNumber) : string :=
  match n with
  | NaN => "NaN" | PosInf => "Infinity" | NegInf => "-Infinity"
  | Fin q => if Qeq_bool q 0 then "0"
             else if Qle_bool 0 q then posStr q else "-" +:+ posStr (- q)
  end.

(** ** Regular expressions of the sources *)

Fixpoint allDigits (s : string) : bool :=
  match s with EmptyString => true | String c s' => isDigit c && allDigits s' end.

(** [\d+] on the whole string. *)
Definition digits1 (s : string) : bool := negb (s =s "") && allDigits s.

Definition stripMinus (s : string) : string :=
  match s with String "-" t => t | _ => s end.

(** [/^-?\d+$/]. *)
Definition reInteger (s : string) : bool := digits1 (stripMinus s).

(** [/^-?\d+(\.\d+)?$/]. *)
Definition reDecimal (s : string) : bool :=
  match splitOn "." (stripMinus s) with
  | [a] => digits1 a
  | [a; b] => digits1 a && digits1 b
  | _ => false
  end.

Example jsNumber_ex : map jsNumber [" 42 "; ""; "1e3"; "0x10"; "abc"; "-Infinity"; "."] =
  [Fin 42; Fin 0; Fin 1000; Fin 16; NaN; NegInf; NaN].
Proof. vm_compute. reflexivity. Qed.

Example numStr_ex : map (fun s => numStr (jsNumber s)) ["512"; "0.1"; "1e21"; "-2.50"; "123456789012"; "1e-7"; "99999999999999999999"] =
  ["512"; "0.1"; "1e+21"; "-2.5"; "123456789012"; "1e-7"; "100000000000000000000"].
Proof. vm_compute. reflexivity. Qed.

(** A non-negative integer prints as digits. *)
Lemma pretty_go_digits (x : N) : forall s, allDigits s = true -> allDigits (pretty_N_go x s) = true.
Proof.
  induction (N.lt_wf_0 x) as [x _ IH]. intros s Hs. destruct (decide (x = 0%N)) as [->|Hx]; [by rewrite pretty_N_go_0|].
  rewrite pretty_N_go_step by lia. apply IH; [apply N.div_lt; lia|]. simpl. rewrite Hs, andb_true_r.
  assert (x `mod` 10 < 10)%N as Hm by (apply N.mod_lt; lia). set (d := (x `mod` 10)%N) in *. clearbody d. clear -Hm.
  assert (d ∈ [0;1;2;3;4;5;6;7;8;9]%N) as Hd by (rewrite !elem_of_cons; lia).
  rewrite !elem_of_cons, elem_of_nil in Hd. naive_solver.
Qed.

Lemma zstr_digits z : 0 <= z -> allDigits (zstr z) = true.
Proof.
  intros Hz. destruct z as [|p|p]; [done| |lia]. change (allDigits (pretty (Npos p)) = true). unfold pretty, pretty_N.
  rewrite decide_False by done. by apply pretty_go_digits.
Qed.

(** ** Separators *)

Fixpoint noChar (c : ascii) (s : string) : bool :=
  match s with EmptyString => true | String x s' => negb (Ascii.eqb x c) && noChar c s' end.

Lemma splitOn_noChar c s : noChar c s = true -> splitOn c s = [s].
Proof.
  induction s as [|x s IH]; simpl; [done|]. destruct (Ascii.eqb x c); [done|]. simpl. intros E. by rewrite IH.
Qed.

Lemma noChar_app c a b : noChar c (a +:+ b) = noChar c a && noChar c b.
Proof. induction a as [|x a IH]; [done|]. change (negb (Ascii.eqb x c) && noChar c (a +:+ b) = negb (Ascii.eqb x c) && noChar c a && noChar c b). by rewrite IH, andb_assoc. Qed.

(** The text before the first separator. *)
Lemma splitOn_segment sep a b : noChar sep a = true -> splitOn sep (a +:+ String sep b) = a :: splitOn sep b.
Proof.
  induction a as [|c a IH]; intros Hn.
  - change (splitOn sep (String sep b) = "" :: splitOn sep b). simpl. by rewrite Ascii.eqb_refl.
  - simpl in Hn. apply andb_true_iff in Hn as [Hc Hn]. apply negb_true_iff in Hc.
    change (splitOn sep (String c (a +:+ String sep b)) = String c a :: splitOn sep b). simpl. rewrite Hc.
    rewrite (IH Hn : splitOn sep (a +:+ String sep b) = _). done.
Qed.
