(* ===== verification/Dto.v ===== *)
(** Dto: request bodies and the columns they are written to.

    What the administration endpoints share: an optional property of a body as the global
    validation pipe leaves it, the validators of [class-validator] the DTO classes use, the
    width of an [Int] column, and a partial update of a row through the database client. *)

From S2P Require Import Prelude JsNum Capacity Store Scheduler Subscriptions JsString.
From Stdlib Require Import Ascii String Lia.

Local Open Scope Z_scope.

(** An optional property of a request body: left out, [null] (which [@IsOptional] lets
    through), or a value. *)
Inductive Field (A : Type) := Unset | Null | Val (a : A).
Arguments Unset {A}. Arguments Null {A}. Arguments Val {A}.

(** [field ?? fallback] and [field != null]. *)
Definition given {A} (f : Field A) : option A := match f with Val a => Some a | _ => None end.

(** [@Min(lo)] and [@Length(lo, hi)]. *)
Definition minOk (lo : Z) (f : Field Z) : bool := match f with Val v => lo <=? v | _ => true end.
Definition lengthOk (lo hi : Z) (s : string) : bool := (lo <=? jsLength s) && (jsLength s <=? hi).
Definition lengthOkF (lo hi : Z) (f : Field string) : bool := match f with Val s => lengthOk lo hi s | _ => true end.

Fixpoint everyChar (p : ascii -> bool) (s : string) : bool :=
  match s with EmptyString => true | String c s' => p c && everyChar p s' end.

(** An [Int] column holds 32 bits. *)
Definition fitsInt4 (z : Z) : bool := (-2147483648 <=? z) && (z <=? 2147483647).

(** A required column set to [null] is refused by the database client. *)
Definition patch {A} (f : Field A) (current : A) : Res A :=
  match f with Unset => Ok current | Val a => Ok a | Null => Throw (External "Argument must not be null.") end.

Definition patchNull {A} (f : Field A) (current : option A) : option A :=
  match f with Unset => current | Null => None | Val a => Some a end.

(** ** Lemmas *)

Lemma minOk_given lo f v : minOk lo f = true -> given f = Some v -> lo <= v.
Proof. destruct f; simpl; try done. intros H [= <-]. lia. Qed.

Lemma minOk_default lo f dflt : minOk lo f = true -> lo <= dflt -> lo <= default dflt (given f).
Proof. destruct f; simpl; lia. Qed.

Lemma minOk_patch lo (f : Field Z) cur v : patch f cur = Ok v -> minOk lo f = true -> lo <= cur -> lo <= v.
Proof. destruct f; simpl; intros [= <-] H Hc; lia. Qed.

Lemma minOk_patchNull lo (f : Field Z) cur v : minOk lo f = true -> (forall n, cur = Some n -> lo <= n) -> patchNull f cur = Some v -> lo <= v.
Proof. destruct f; simpl; intros H Hc; try done; [by apply Hc|]. intros [= <-]. lia. Qed.

(** ** White space *)

Definition visible (c : ascii) : bool := (33 <=? code c)%N && (code c <=? 127)%N.

Definition hiddenHead (w : string) : bool := match w with EmptyString => false | String c _ => negb (visible c) end.

Lemma prefix_visible w s : hiddenHead w = true -> everyChar visible s = true -> String.prefix w s = false.
Proof.
  destruct w as [|c w]; [done|]. destruct s as [|d s]; [done|]. simpl. rewrite negb_true_iff, andb_true_iff. intros Hc [Hd _].
  destruct (ascii_dec c d) as [->|]; [congruence|done].
Qed.

Lemma everyChar_app p a b : everyChar p (a +:+ b) = everyChar p a && everyChar p b.
Proof. induction a as [|c a IH]; [done|]. change (p c && everyChar p (a +:+ b) = p c && everyChar p a && everyChar p b). by rewrite IH, andb_assoc. Qed.

Lemma everyChar_impl (p q : ascii -> bool) s : (forall c, p c = true -> q c = true) -> everyChar p s = true -> everyChar q s = true.
Proof. intros Hpq. induction s as [|c s IH]; [done|]. simpl. rewrite !andb_true_iff. intros [Hc Hs]. auto. Qed.

Lemma everyChar_rev p s : everyChar p s = true -> everyChar p (String.rev s) = true.
Proof.
  assert (forall a b, everyChar p (String.rev_app a b) = everyChar p a && everyChar p b) as Hr.
  { induction a as [|c a IH]; intros b; simpl; [done|]. rewrite IH. simpl. by rewrite andb_assoc, (andb_comm (everyChar p a)). }
  intros Hs. unfold String.rev. rewrite Hr. simpl. by rewrite andb_true_r.
Qed.

(** Text without white space is left alone by [trim]. *)
Lemma trim_visible s : everyChar visible s = true -> trim s = s.
Proof.
  intros Hs. assert (spaceAt s = None) as H1.
  { unfold spaceAt, findFirst. assert (forallb hiddenHead jsSpaces = true) as Hh by (vm_compute; reflexivity).
    revert Hh. induction jsSpaces as [|w l IH]; simpl; [done|]. rewrite andb_true_iff. intros [Hw Hl].
    by rewrite (prefix_visible w s Hw Hs : startsWith w s = false), (IH Hl). }
  assert (spaceAtEnd s = None) as H2.
  { unfold spaceAtEnd, findFirst. assert (forallb (fun w => hiddenHead (String.rev w)) jsSpaces = true) as Hh by (vm_compute; reflexivity).
    revert Hh. induction jsSpaces as [|w l IH]; simpl; [done|]. rewrite andb_true_iff. intros [Hw Hl].
    by rewrite (prefix_visible (String.rev w) (String.rev s) Hw (everyChar_rev _ _ Hs) : endsWith w s = false), (IH Hl). }
  unfold trim, trimStart. assert (trimStartF (String.length s) s = s) as ->.
  { destruct (String.length s); simpl; [done|]. by rewrite H1. }
  destruct (String.length s); simpl; [done|]. by rewrite H2.
Qed.

Lemma startsWith_app w t r : startsWith w t = true -> startsWith w (t +:+ r) = true.
Proof.
  unfold startsWith. revert w. induction t as [|c t IH]; intros [|x w]; simpl; try done; try (by destruct r).
  change (String c t +:+ r) with (String c (t +:+ r)). simpl. destruct (ascii_dec x c); [apply IH|done].
Qed.

Lemma startsWith_length w s : startsWith w s = true -> (String.length w <= String.length s)%nat.
Proof.
  unfold startsWith. revert w. induction s as [|c s IH]; intros [|x w]; simpl; try done; try lia. destruct (ascii_dec x c); [|done]. intros Hw%IH. lia.
Qed.

Lemma rev_length s : String.length (String.rev s) = String.length s.
Proof.
  assert (forall a b, String.length (String.rev_app a b) = (String.length a + String.length b)%nat) as Hr.
  { induction a as [|c a IH]; intros b; simpl; [done|]. rewrite IH. simpl. lia. }
  unfold String.rev. rewrite Hr. simpl. lia.
Qed.

Lemma dropS_length n s : String.length (dropS n s) = (String.length s - n)%nat.
Proof. revert s. induction n as [|n IH]; intros [|c s]; simpl; by auto with lia. Qed.

Lemma substring_prefix n s : (n <= String.length s)%nat -> String.length (String.substring 0 n s) = n /\ exists r, s = String.substring 0 n s +:+ r.
Proof.
  revert n. induction s as [|c s IH]; intros [|n]; simpl; intros Hn; try lia; try (split; [done|by eexists]).
  destruct (IH n) as [Hl [r Hr]]; [lia|]. split; [by rewrite Hl|]. exists r. change (String c s = String c (String.substring 0 n s +:+ r)). by rewrite <- Hr.
Qed.

Lemma space_nonempty w : w ∈ jsSpaces -> (1 <= String.length w)%nat.
Proof.
  intros Hw%list_elem_of_In. assert (forallb (fun w => (1 <=? String.length w)%nat) jsSpaces = true) as Hall by (vm_compute; reflexivity).
  rewrite forallb_forall in Hall. by apply Nat.leb_le, Hall.
Qed.

Lemma trimStartF_done f s : (String.length s <= f)%nat -> spaceAt (trimStartF f s) = None.
Proof.
  revert s. induction f as [|f IH]; intros s Hf; simpl; [destruct s; simpl in Hf; [vm_compute; reflexivity|lia]|].
  destruct (spaceAt s) as [w|] eqn:E; [|done]. apply IH. rewrite dropS_length. apply findFirst_some in E as [Hw%space_nonempty Hs%startsWith_length]. lia.
Qed.

Lemma trimEndF_done f s : (String.length s <= f)%nat -> spaceAtEnd (trimEndF f s) = None /\ exists r, s = trimEndF f s +:+ r.
Proof.
  revert s. induction f as [|f IH]; intros s Hf; simpl.
  - destruct s; simpl in Hf; [|lia]. split; [vm_compute; reflexivity|by exists ""].
  - destruct (spaceAtEnd s) as [w|] eqn:E; [|split; [done|]; exists ""; clear; induction s as [|c s IHs]; [done|exact (f_equal (String c) IHs)]].
    apply findFirst_some in E as [Hw%space_nonempty Hs]. unfold endsWith in Hs. apply startsWith_length in Hs. rewrite !rev_length in Hs.
    destruct (substring_prefix (String.length s - String.length w) s) as [Hl [r Hr]]; [lia|].
    destruct (IH (String.substring 0 (String.length s - String.length w) s)) as [H1 [r' Hr']]; [lia|]. split; [done|]. exists (r' +:+ r).
    rewrite Hr at 1. rewrite Hr' at 1. generalize (trimEndF f (String.substring 0 (String.length s - String.length w) s)). clear.
    intros u. induction u as [|c u IHu]; [done|]. exact (f_equal (String c) IHu).
Qed.

Lemma trim_none s : spaceAt s = None -> spaceAtEnd s = None -> trim s = s.
Proof.
  intros H1 H2. unfold trim, trimStart. assert (trimStartF (String.length s) s = s) as ->.
  { destruct (String.length s); simpl; [done|]. by rewrite H1. }
  destruct (String.length s); simpl; [done|]. by rewrite H2.
Qed.

(** What is trimmed once stays. *)
Lemma trim_trim s : trim (trim s) = trim s.
Proof.
  unfold trim at 2 3. set (t := trimStart s). destruct (trimEndF_done (String.length t) t) as [He [r Hr]]; [done|]. apply trim_none; [|done].
  assert (spaceAt t = None) as Ht by (by apply trimStartF_done). destruct (spaceAt (trimEndF (String.length t) t)) as [w|] eqn:E; [|done]. exfalso.
  apply findFirst_some in E as [Hw Hs]. apply (startsWith_app _ _ r) in Hs. rewrite <- Hr in Hs.
  pose proof (findFirst_none _ _ Ht w Hw) as Hf. simpl in Hf. congruence.
Qed.

(** Decomposes a successful partial update into the patches of its columns. *)
Ltac patches E :=
  unfold mbind, Res_bind in E; cbv zeta in E;
  repeat match type of E with match ?p with _ => _ end = _ => let Hp := fresh "Hp" in destruct p eqn:Hp; [|discriminate E] end;
  injection E as <-.
