(* ===== verification/IsoDate.v ===== *)
(** IsoDate: the date-time strings of the language.

    [Date.prototype.toISOString] and [new Date(text)] for the Date Time String Format of
    the ECMAScript specification, as the payment gateways use it: a calendar date, or a
    date and time with a zone offset.  [None] is the Invalid Date. *)

From S2P Require Import Prelude JsNum Store Calendar JsString.
From Stdlib Require Import Ascii String Lia.

Local Open Scope Z_scope.

Definition digitChar (d : Z) : ascii := ascii_of_N (Z.to_N (48 + d)).

(** The last [w] decimal digits of [n]. *)
Fixpoint pad (w : nat) (n : Z) : string :=
  match w with
  | O => ""
  | S w' => pad w' (n / 10) +:+ String (digitChar (n mod 10)) ""
  end.

Definition HourFromTime (t : Z) : Z := TimeWithinDay t / 3600000.
Definition MinFromTime (t : Z) : Z := TimeWithinDay t / 60000 mod 60.
Definition SecFromTime (t : Z) : Z := TimeWithinDay t / 1000 mod 60.
Definition msFromTime (t : Z) : Z := TimeWithinDay t mod 1000.

(** Years 0 to 9999 have four digits, the others a sign and six. *)
Definition yearText (y : Z) : string :=
  if (0 <=? y) && (y <=? 9999) then pad 4 y
  else if y <? 0 then "-" +:+ pad 6 (- y) else "+" +:+ pad 6 y.

Definition toISOString (t : Z) : string :=
  let d := Day t in
  yearText (YearFromDay d) +:+ "-" +:+ pad 2 (MonthFromDay d + 1) +:+ "-" +:+ pad 2 (DateFromDay d) +:+ "T" +:+
  pad 2 (HourFromTime t) +:+ ":" +:+ pad 2 (MinFromTime t) +:+ ":" +:+ pad 2 (SecFromTime t) +:+ "." +:+
  pad 3 (msFromTime t) +:+ "Z".

(** Exactly [w] digits. *)
Fixpoint readN (w : nat) (acc : Z) (s : string) : option (Z * string) :=
  match w with
  | O => Some (acc, s)
  | S w' => match s with
            | String c s' => if isDigit c then readN w' (acc * 10 + digitVal c) s' else None
            | EmptyString => None
            end
  end.

Definition expect (c : ascii) (s : string) : option string :=
  match s with
  | String c' s' => if Ascii.eqb c' c then Some s' else None
  | EmptyString => None
  end.

(** The zone: [Z], or a sign, hours and minutes; its distance to UTC in minutes. *)
Definition readOffset (s : string) : option Z :=
  match s with
  | String "Z" EmptyString => Some 0
  | String c s1 =>
    sign ← if Ascii.eqb c "+" then Some 1 else if Ascii.eqb c "-" then Some (-1) else None;
    '(h, s2) ← readN 2 0 s1;
    s3 ← expect ":" s2;
    '(m, s4) ← readN 2 0 s3;
    if (s4 =s "") && (h <=? 23) && (m <=? 59) then Some (sign * (h * 60 + m)) else None
  | EmptyString => None
  end.

Definition msInDay (h m s ms : Z) : Z := h * 3600000 + m * 60000 + s * 1000 + ms.

(** Seconds and milliseconds may be left out. *)
Definition readSeconds (s : string) : option (Z * Z * string) :=
  match expect ":" s with
  | None => Some (0, 0, s)
  | Some s1 =>
    '(sec, s2) ← readN 2 0 s1;
    match expect "." s2 with
    | None => Some (sec, 0, s2)
    | Some s3 => '(ms, s4) ← readN 3 0 s3; Some (sec, ms, s4)
    end
  end.

Definition readTime (s : string) : option Z :=
  '(h, s1) ← readN 2 0 s;
  s2 ← expect ":" s1;
  '(m, s3) ← readN 2 0 s2;
  '(sec, ms, s4) ← readSeconds s3;
  off ← readOffset s4;
  if (m <=? 59) && (sec <=? 59) && ((h <=? 23) || ((h =? 24) && (m =? 0) && (sec =? 0) && (ms =? 0)))
  then Some (msInDay h m sec ms - off * 60000) else None.

(** [new Date(text)]: a date is midnight UTC; a day past the end of its month runs into
    the next one. *)
Definition parseDate (text : string) : option Z :=
  '(y, s1) ← readN 4 0 text;
  s2 ← expect "-" s1;
  '(mo, s3) ← readN 2 0 s2;
  s4 ← expect "-" s3;
  '(d, s5) ← readN 2 0 s4;
  if (1 <=? mo) && (mo <=? 12) && (1 <=? d) && (d <=? 31) then
    let day := MakeDay y (mo - 1) d * msPerDay in
    match s5 with
    | EmptyString => Some day
    | _ => s6 ← expect "T" s5; ms ← readTime s6; Some (day + ms)
    end
  else None.

(** ** Reading back what was written *)

Lemma digitChar_ok d : 0 <= d <= 9 -> isDigit (digitChar d) = true /\ digitVal (digitChar d) = d.
Proof.
  intros H. assert (d = 0 \/ d = 1 \/ d = 2 \/ d = 3 \/ d = 4 \/ d = 5 \/ d = 6 \/ d = 7 \/ d = 8 \/ d = 9) as E by lia.
  repeat destruct E as [->|E]; try subst d; split; reflexivity.
Qed.

Lemma readN_snoc w : forall acc s n d rest, 0 <= d <= 9 -> readN w acc s = Some (n, String (digitChar d) rest) ->
  readN (S w) acc s = Some (n * 10 + d, rest).
Proof.
  induction w as [|w IH]; intros acc s n d rest Hd E.
  - injection E as <- ->. destruct (digitChar_ok d Hd) as [Hi Hv]. cbn [readN]. by rewrite Hi, Hv.
  - simpl in E. destruct s as [|c s]; [done|]. destruct (isDigit c) eqn:Ec; [|done].
    change (readN (S (S w)) acc (String c s)) with (if isDigit c then readN (S w) (acc * 10 + digitVal c) s else None).
    rewrite Ec. by apply IH.
Qed.

Lemma app_assoc_s (a b c : string) : (a +:+ b) +:+ c = a +:+ (b +:+ c).
Proof. induction a as [|x a IH]; [done|]. change (String x ((a +:+ b) +:+ c) = String x (a +:+ (b +:+ c))). by f_equal. Qed.

Lemma readN_pad w : forall acc n s, 0 <= n < 10 ^ Z.of_nat w -> readN w acc (pad w n +:+ s) = Some (acc * 10 ^ Z.of_nat w + n, s).
Proof.
  induction w as [|w IH]; intros acc n s Hn.
  - change (10 ^ Z.of_nat 0) with 1 in *. replace (acc * 1 + n) with acc by lia. reflexivity.
  - rewrite Nat2Z.inj_succ, Z.pow_succ_r in * by lia. cbn [pad]. rewrite app_assoc_s.
    assert (0 <= n mod 10 <= 9) as Hd by (pose proof (Z.mod_pos_bound n 10); lia).
    rewrite (readN_snoc w acc _ (acc * 10 ^ Z.of_nat w + n / 10) (n mod 10) s); [|done|apply IH].
    + do 2 f_equal. pose proof (Z.div_mod n 10 ltac:(lia)). lia.
    + split; [apply Z.div_pos; lia|]. apply Z.div_lt_upper_bound; lia.
Qed.

Lemma app_cons c s : String c "" +:+ s = String c s.
Proof. reflexivity. Qed.

Lemma expect_cons c s : expect c (String c s) = Some s.
Proof. simpl. by rewrite Ascii.eqb_refl. Qed.

(** The clock of a day, taken apart and put together. *)
Lemma clock_parts t : let h := HourFromTime t in let m := MinFromTime t in let s := SecFromTime t in let ms := msFromTime t in
  0 <= h <= 23 /\ 0 <= m <= 59 /\ 0 <= s <= 59 /\ 0 <= ms <= 999 /\ msInDay h m s ms = TimeWithinDay t.
Proof.
  cbv zeta. unfold HourFromTime, MinFromTime, SecFromTime, msFromTime, msInDay.
  assert (0 <= TimeWithinDay t < msPerDay) as H by (apply Z.mod_pos_bound; done). unfold msPerDay in H.
  set (x := TimeWithinDay t) in *. clearbody x. Z.div_mod_to_equations. lia.
Qed.

Lemma readTime_written t : readTime (pad 2 (HourFromTime t) +:+ ":" +:+ pad 2 (MinFromTime t) +:+ ":" +:+ pad 2 (SecFromTime t) +:+ "." +:+
  pad 3 (msFromTime t) +:+ "Z") = Some (TimeWithinDay t).
Proof.
  destruct (clock_parts t) as (Hh & Hm & Hs & Hms & E). unfold readTime, readSeconds. rewrite !app_cons.
  rewrite readN_pad by (simpl; lia). cbn [mbind option_bind]. rewrite expect_cons. cbn [mbind option_bind].
  rewrite readN_pad by (simpl; lia). cbn [mbind option_bind]. rewrite expect_cons. cbn [mbind option_bind].
  rewrite readN_pad by (simpl; lia). cbn [mbind option_bind]. rewrite expect_cons. cbn [mbind option_bind].
  rewrite readN_pad by (simpl; lia). cbn [mbind option_bind readOffset]. simpl Z.of_nat. rewrite !Z.mul_0_l, !Z.add_0_l.
  rewrite (proj2 (Z.leb_le _ 59)), (proj2 (Z.leb_le _ 59)), (proj2 (Z.leb_le _ 23)) by lia. simpl. f_equal. lia.
Qed.

(** Years 0 to 9999, in milliseconds since the epoch. *)
Definition fourDigitYear (t : Z) : Prop := -62167219200000 <= t < 253402300800000.

Lemma fourDigitYear_year t : fourDigitYear t -> 0 <= YearFromDay (Day t) <= 9999.
Proof.
  intros [H1 H2]. assert (-719528 <= Day t < 2932897) as Hd.
  { unfold Day, msPerDay. split; [apply Z.div_le_lower_bound; lia|apply Z.div_lt_upper_bound; lia]. }
  pose proof (YearFromDay_spec (Day t)) as [S1 S2]. set (y := YearFromDay (Day t)) in *. clearbody y. split.
  - destruct (Z.lt_ge_cases y 0) as [L|]; [|done]. pose proof (DayFromYear_mono (y + 1) 0 ltac:(lia)) as M.
    change (DayFromYear 0) with (-719528) in M. lia.
  - destruct (Z.lt_ge_cases 9999 y) as [L|]; [|done]. pose proof (DayFromYear_mono 10000 y ltac:(lia)) as M.
    change (DayFromYear 10000) with 2932897 in M. lia.
Qed.

(** A date written with [toISOString] and read back with [new Date] is the same
    instant, to the millisecond, for every year from 0 to 9999. *)
Theorem isoDate_roundtrip t : fourDigitYear t -> parseDate (toISOString t) = Some t.
Proof.
  intros Ht. pose proof (fourDigitYear_year t Ht) as Hy. destruct (civil_spec (Day t)) as (Hm & Hd1 & Hd2 & E).
  pose proof (daysBeforeMonth_range (isLeap (YearFromDay (Day t))) (MonthFromDay (Day t)) Hm) as R.
  unfold parseDate, toISOString, yearText. cbv zeta.
  rewrite !app_cons.
  rewrite (proj2 (Z.leb_le 0 _)), (proj2 (Z.leb_le _ 9999)) by lia. cbn [andb].
  rewrite readN_pad by (simpl; lia). cbn [mbind option_bind]. rewrite expect_cons. cbn [mbind option_bind].
  rewrite readN_pad by (simpl; lia). cbn [mbind option_bind]. rewrite expect_cons. cbn [mbind option_bind].
  rewrite readN_pad by (simpl; lia). cbn [mbind option_bind]. simpl Z.of_nat. rewrite !Z.mul_0_l, !Z.add_0_l.
  rewrite (proj2 (Z.leb_le 1 _)), (proj2 (Z.leb_le _ 12)), (proj2 (Z.leb_le 1 _)), (proj2 (Z.leb_le _ 31)) by lia. cbn [andb].
  rewrite expect_cons. cbn [mbind option_bind]. rewrite readTime_written. cbn [mbind option_bind]. f_equal.
  replace (MonthFromDay (Day t) + 1 - 1) with (MonthFromDay (Day t)) by lia. unfold MakeDay.
  rewrite (Z.div_small (MonthFromDay (Day t)) 12), (Z.mod_small (MonthFromDay (Day t)) 12) by lia. rewrite Z.add_0_r, <- E.
  unfold Day, TimeWithinDay. pose proof (Z.div_mod t msPerDay ltac:(done)). lia.
Qed.

Lemma isoDate_roundtrip_witness : parseDate (toISOString 1709210096789) = Some 1709210096789.
Proof. apply (isoDate_roundtrip 1709210096789). split; vm_compute; congruence. Defined.

(** The gateways' own formats. *)
Example gateway_dates : map parseDate ["2024-02-29T12:34:56.789Z"; "2024-02-29T08:34:56.789-04:00"; "2024-02-29T23:59:59-03:00"; "2024-02-29"; "soon"] =
  [Some 1709210096789; Some 1709210096789; Some 1709261999000; Some 1709164800000; None].
Proof. vm_compute. reflexivity. Qed.

Example iso_text : toISOString 1709210096789 = "2024-02-29T12:34:56.789Z".
Proof. vm_compute. reflexivity. Qed.
