(* ===== verification/Variables.v ===== *)
(** Variables: template variables and software selection.

    The rule-string validator of [variable-rules.ts], the resolution of
    [variable-resolution.ts], and the version-driven choices of
    [software-presets.ts].  A JavaScript object used as a dictionary of
    requested values is an association list (its entry order decides which
    error is reported first); the resolved values are a map. *)

From S2P Require Import Prelude JsNum Store JsString.
From Stdlib Require Import QArith Qround Lqa Ascii String Lia.

Local Open Scope Z_scope.

(** ** variable-rules.ts *)

Inductive VariableOptionKind := kind_text | kind_integer | kind_boolean | kind_choice.

Record VariableOptionShape := mkShape {
  sh_kind : VariableOptionKind; sh_required : bool; sh_min : option JsNumber; sh_max : option JsNumber;
  sh_choices : option (list string) }.

(** [rules.split('|').map(trim).filter(Boolean)]. *)
Definition ruleTokens (rules : string) : list string :=
  List.filter (fun t => negb (t =s "")) (map trim (splitOn "|" rules)).

Definition includes (x : string) (l : list string) : bool := existsb (fun y => y =s x) l.

Definition deriveVariableOptionShape (rules : string) : VariableOptionShape :=
  let tokens := ruleTokens rules in
  let required := includes "required" tokens in
  match findFirst (startsWith "in:") tokens with
  | Some inToken => mkShape kind_choice required None None (Some (splitOn "," (dropS 3 inToken)))
  | None =>
    if includes "boolean" tokens then mkShape kind_boolean required None None None
    else if includes "integer" tokens then
      let bound pre := (fun t => jsNumber (dropS 4 t)) <$> findFirst (startsWith pre) tokens in
      mkShape kind_integer required (bound "min:") (bound "max:") None
    else mkShape kind_text required None None None
  end.

(** [const [name, arg] = token.split(':')]. *)
Definition tokenName (token : string) : string := default "" (head (splitOn ":" token)).
Definition tokenArg (token : string) : option string := nth_error (splitOn ":" token) 1.

(** One turn of the [switch]: the error message, if the token refuses the value. *)
Definition checkToken (tokens : list string) (value token : string) : option string :=
  let name := tokenName token in
  let arg := tokenArg token in
  let n := if reDecimal value then Some (jsNumber value) else None in
  let len := Fin (inject_Z (jsLength value)) in
  if name =s "integer" then
    if reInteger value then None else Some "deve ser um número inteiro."
  else if name =s "boolean" then
    if includes value ["true"; "false"; "0"; "1"] then None else Some "deve ser verdadeiro ou falso."
  else if name =s "max" then
    let max := jsNumberOpt arg in
    match n, includes "integer" tokens with
    | Some x, true => if jsGt x max then Some ("deve ser no máximo " +:+ numStr max +:+ ".") else None
    | _, _ => if jsGt len max then Some ("deve ter no máximo " +:+ numStr max +:+ " caracteres.") else None
    end
  else if name =s "min" then
    let min := jsNumberOpt arg in
    match n, includes "integer" tokens with
    | Some x, true => if jsLt x min then Some ("deve ser no mínimo " +:+ numStr min +:+ ".") else None
    | _, _ => if jsLt len min then Some ("deve ter no mínimo " +:+ numStr min +:+ " caracteres.") else None
    end
  else if name =s "in" then
    let allowed := splitOn "," (default "" arg) in
    if includes value allowed then None
    else Some ("deve ser um dos seguintes valores: " +:+ join ", " allowed +:+ ".")
  else None.

Fixpoint firstError (check : string -> option string) (tokens : list string) : option string :=
  match tokens with
  | [] => None
  | t :: ts => match check t with Some e => Some e | None => firstError check ts end
  end.

Definition validateVariableValue (value rules : string) : option string :=
  let tokens := ruleTokens rules in
  let nullable := includes "nullable" tokens in
  let required := includes "required" tokens in
  if value =s "" then
    if required && negb nullable then Some "é obrigatório." else None
  else firstError (checkToken tokens value) tokens.

(** ** variable-resolution.ts *)

Definition assoc (k : string) (l : list (string * string)) : option string :=
  snd <$> findFirst (fun p => fst p =s k) l.

(** [new Map(templateVars.map(tv => [tv.envVariable, tv])).get(key)]: the last one wins. *)
Definition byEnvVar (templateVars : list TemplateVariable) (key : string) : option TemplateVariable :=
  findFirst (fun tv => tv_envVariable tv =s key) (rev templateVars).

Fixpoint forEntries (f : string * string -> Res unit) (entries : list (string * string)) : Res unit :=
  match entries with
  | [] => Ok tt
  | e :: es => f e ;; forEntries f es
  end.

Definition checkDeclared (templateVars : list TemplateVariable) (entry : string * string) : Res unit :=
  let '(key, value) := entry in
  match byEnvVar templateVars key with
  | None => Throw (BadRequest ("Variável desconhecida: " +:+ key))
  | Some tv =>
    if negb (tv_isUserViewable tv) || negb (tv_isUserEditable tv)
    then Throw (Forbidden ("Variável não configurável: " +:+ key))
    else match validateVariableValue value (tv_rules tv) with
         | Some error => Throw (BadRequest (tv_name tv +:+ ": " +:+ error))
         | None => Ok tt
         end
  end.

Definition resolveValues (templateVars : list TemplateVariable) (valueOf : TemplateVariable -> string)
    : gmap string string :=
  fold_left (fun m tv => <[tv_envVariable tv := valueOf tv]> m) templateVars ∅.

Definition resolveDeclaredVariables (templateVars : list TemplateVariable) (requested : list (string * string))
    : Res (gmap string string) :=
  forEntries (checkDeclared templateVars) requested ;;
  mret (resolveValues templateVars (fun tv => default (tv_defaultValue tv) (assoc (tv_envVariable tv) requested))).

Definition MIN_HEAP_MB : Z := 512.
Definition MIN_JVM_HEADROOM_MB : Z := 512.
Definition JVM_HEADROOM_RATIO : Q := lit 15 100.

Definition jvmHeapMb (memoryMb : Z) : Z :=
  let headroom := Z.max MIN_JVM_HEADROOM_MB (math_ceil (fmul (inject_Z memoryMb) JVM_HEADROOM_RATIO)) in
  Z.max MIN_HEAP_MB (memoryMb - headroom).

Definition applyPlanManagedVariables (values : gmap string string) (memoryMb : Z) : gmap string string :=
  match values !! "SERVER_MEMORY" with
  | Some _ => <["SERVER_MEMORY" := zstr (jvmHeapMb memoryMb)]> values
  | None => values
  end.

(** ** software-presets.ts *)

Definition jsNumberAt (parts : list string) (i : nat) : JsNumber := jsNumberOpt (nth_error parts i).

(** The integer value of a number known to be one. *)
Definition toZ (n : JsNumber) : Z := match n with Fin q => Qfloor q | _ => 0 end.

Definition requiredJavaMajor (minecraftVersion : string) : option Z :=
  let parts := splitOn "." (trim minecraftVersion) in
  let first := jsNumberAt parts 0 in
  if negb (isInteger first) then None
  else if negb (toZ first =? 1) then (if 26 <=? toZ first then Some 25 else None)
  else
    let minor := jsNumberAt parts 1 in
    if negb (isInteger minor) then None
    else if toZ minor <=? 16 then Some 8
    else if toZ minor <=? 19 then Some 17
    else if toZ minor =? 20 then
      let patch := jsNumber (default "0" (nth_error parts 2)) in
      if isInteger patch && (5 <=? toZ patch) then Some 21 else Some 17
    else Some 21.

(** [/:java_(\d+)$/]: the digits after the last [":java_"] when they end the string. *)
Fixpoint javaTag (s : string) : option string :=
  match (if startsWith ":java_" s && digits1 (dropS 6 s) then Some (dropS 6 s) else None) with
  | Some d => Some d
  | None => match s with EmptyString => None | String _ s' => javaTag s' end
  end.

Fixpoint digitPrefix (s : string) : string :=
  match s with
  | String c s' => if isDigit c then String c (digitPrefix s') else EmptyString
  | EmptyString => EmptyString
  end.

(** [/(\d+)/]: the first run of digits. *)
Fixpoint firstDigits (s : string) : option string :=
  match s with
  | EmptyString => None
  | String c s' => if isDigit c then Some (digitPrefix s) else firstDigits s'
  end.

Definition javaMajorOf (entry : string * string) : JsNumber :=
  let '(label, ref) := entry in
  match javaTag ref with
  | Some d => jsNumber d
  | None => match firstDigits label with Some d => jsNumber d | None => Fin (-1) end
  end.

Definition pickDockerImage (images : list (string * string)) (minecraftVersion : option string) : option string :=
  match images with
  | [] => None
  | [e] => Some (snd e)
  | e :: es =>
    let newest := fold_left (fun a b => if jsGt (javaMajorOf b) (javaMajorOf a) then b else a) es e in
    let major := match minecraftVersion with
                 | None => None
                 | Some v => if v =s "" then None else requiredJavaMajor v end in
    match major with
    | None => Some (snd newest)
    | Some m =>
      let wanted := findFirst (fun p => (fst p =s ("Java " +:+ zstr m)) || endsWith (":java_" +:+ zstr m) (snd p)) images in
      Some (snd (default newest wanted))
    end
  end.

(** [/^1\.(\d+)(?:\.|$)/.exec(s)]. *)
Definition legacyMinor (s : string) : option string :=
  if startsWith "1." s then
    let rest := dropS 2 s in
    let d := digitPrefix rest in
    let after := dropS (String.length d) rest in
    if negb (d =s "") && ((after =s "") || startsWith "." after) then Some d else None
  else None.

Definition ARGS_TOKEN : string := "@unix_args.txt".

(** [replace(/(^|\s)@unix_args\.txt(?=\s|$)/, '$1-jar {{SERVER_JARFILE}}')]: the
    first whole-token occurrence; [boundary] holds at the start and after a space. *)
Fixpoint replaceArgsF (fuel : nat) (boundary : bool) (s : string) : string :=
  let after := dropS (String.length ARGS_TOKEN) s in
  if boundary && startsWith ARGS_TOKEN s && ((after =s "") || bool_decide (is_Some (spaceAt after)))
  then "-jar {{SERVER_JARFILE}}" +:+ after
  else match fuel, s with
  | S f, String c s' =>
    match spaceAt s with
    | Some w => w +:+ replaceArgsF f true (dropS (String.length w) s)
    | None => String c (replaceArgsF f false s')
    end
  | _, _ => s
  end.

Definition replaceArgs (s : string) : string := replaceArgsF (String.length s) true s.

Definition pickStartupCommand (softwareKind : option string) (configuredCommand : string)
    (minecraftVersion : option string) : string :=
  match minecraftVersion with
  | None => configuredCommand
  | Some v =>
    if negb (softwareKind =s Some "forge") || (v =s "") then configuredCommand
    else match legacyMinor (trim v) with
         | None => configuredCommand
         | Some d => if jsGt (jsNumber d) (Fin 16) then configuredCommand else replaceArgs configuredCommand
         end
  end.

Example java_versions : map requiredJavaMajor ["1.16.5"; "1.18"; "1.20.4"; "1.20.5"; "1.21.1"; "26.3"; "latest"; "24.1"] =
  [Some 8; Some 17; Some 17; Some 21; Some 21; Some 25; None; None].
Proof. vm_compute. reflexivity. Qed.

Example startup_legacy :
  pickStartupCommand (Some "forge") "java -Xmx1M @unix_args.txt nogui" (Some "1.12.2") =
  "java -Xmx1M -jar {{SERVER_JARFILE}} nogui".
Proof. vm_compute. reflexivity. Qed.

(** ** Lemmas *)

Lemma firstError_none check ts : firstError check ts = None <-> forall t, t ∈ ts -> check t = None.
Proof.
  induction ts as [|t ts IH]; simpl; [split; [by intros _ ? ?%not_elem_of_nil|done]|].
  destruct (check t) eqn:E.
  - split; [done|]. intros Hc. rewrite (Hc t) in E; [done|]. by apply elem_of_cons; left.
  - rewrite IH. setoid_rewrite elem_of_cons. naive_solver.
Qed.

Lemma includes_elem x l : includes x l = true <-> x ∈ l.
Proof.
  unfold includes. rewrite existsb_exists. setoid_rewrite bool_decide_eq_true.
  setoid_rewrite <- list_elem_of_In. naive_solver.
Qed.

Lemma startsWith_split p t : startsWith p t = true -> t = p +:+ dropS (String.length p) t.
Proof.
  unfold startsWith. revert t. induction p as [|a p IH]; intros [|b t]; simpl; try done.
  destruct (ascii_dec a b) as [->|]; [|done]. intros E.
  change (String b t = String b (p +:+ dropS (String.length p) t)). f_equal. by apply IH.
Qed.

(** An [in:] token with no further colon is read the same way by both functions. *)
Lemma in_token t : startsWith "in:" t = true -> noChar ":" (dropS 3 t) = true ->
  tokenName t = "in" /\ tokenArg t = Some (dropS 3 t).
Proof.
  intros Ht Hn. rewrite (startsWith_split _ t Ht). change (String.length "in:") with 3%nat. set (r := dropS 3 t) in *.
  unfold tokenName, tokenArg. simpl. by rewrite splitOn_noChar.
Qed.

Lemma resolveValues_lookup tvs f k (m : gmap string string) :
  fold_left (fun m tv => <[tv_envVariable tv := f tv]> m) tvs m !! k =
  match byEnvVar tvs k with Some tv => Some (f tv) | None => m !! k end.
Proof.
  revert m. induction tvs as [|tv tvs IH]; intros m; simpl; [done|]. rewrite IH. unfold byEnvVar. simpl.
  rewrite findFirst_app. simpl. destruct (findFirst _ (rev tvs)); [done|]. unfold findFirst. simpl.
  case_bool_decide as E; [subst; by rewrite lookup_insert_eq|by rewrite lookup_insert_ne].
Qed.

Lemma forEntries_ok f l u : forEntries f l = Ok u <-> forall e, e ∈ l -> f e = Ok tt.
Proof.
  destruct u. induction l as [|e l IH]; simpl; [split; [by intros _ ? ?%not_elem_of_nil|done]|].
  unfold mbind, Res_bind. setoid_rewrite elem_of_cons.
  destruct (f e) as [[]|x] eqn:E.
  - rewrite IH. naive_solver.
  - split; [done|]. intros Hc. rewrite (Hc e) in E by auto. done.
Qed.

Lemma forEntries_throw f l x : forEntries f l = Throw x -> exists e, e ∈ l /\ f e <> Ok tt.
Proof.
  induction l as [|e l IH]; simpl; [done|]. unfold mbind, Res_bind. setoid_rewrite elem_of_cons.
  destruct (f e) as [[]|y] eqn:E; [intros H; destruct (IH H) as (e' & ? & ?); eauto|].
  intros _. exists e. rewrite E. by split; [left|].
Qed.

(** What it means for one requested entry to be acceptable from a customer. *)
Definition entryOk (tvs : list TemplateVariable) (e : string * string) : Prop :=
  exists tv, byEnvVar tvs (fst e) = Some tv /\ tv_isUserViewable tv = true /\ tv_isUserEditable tv = true /\
    validateVariableValue (snd e) (tv_rules tv) = None.

Lemma checkDeclared_ok tvs e : checkDeclared tvs e = Ok tt <-> entryOk tvs e.
Proof.
  destruct e as [k v]. unfold checkDeclared, entryOk. simpl. destruct (byEnvVar tvs k) as [tv|]; [|naive_solver].
  destruct (tv_isUserViewable tv) eqn:A, (tv_isUserEditable tv) eqn:B; simpl;
    try (split; [done|intros (tv' & [= <-] & ? & ? & ?); congruence]).
  destruct (validateVariableValue v (tv_rules tv)) eqn:C;
    [split; [done|intros (tv' & [= <-] & ? & ? & ?); congruence]|naive_solver].
Qed.

Lemma jvm_ceil m : 0 <= m <= 2 ^ 31 ->
  15 * m <= 100 * math_ceil (fmul (inject_Z m) JVM_HEADROOM_RATIO) <= 15 * m + 200.
Proof.
  intros [H0 H1]. set (x := fmul (inject_Z m) JVM_HEADROOM_RATIO).
  assert (0 <= inject_Z m <= 2147483648)%Q as [M0 M1].
  { change 2147483648%Q with (inject_Z 2147483648). change 0%Q with (inject_Z 0). rewrite <- !Zle_Qle. simpl in H1. lia. }
  assert ((15 # 100) - (1 # 1000000000000000) <= JVM_HEADROOM_RATIO <= (15 # 100))%Q as [R1 R2].
  { split; vm_compute; discriminate. }
  assert (inject_Z m * (15 # 100) - (1 # 1000) <= x <= inject_Z m * (15 # 100) + (1 # 1000))%Q as [X1 X2].
  { assert (0 <= inject_Z m * JVM_HEADROOM_RATIO)%Q as P by nra.
    destruct (rnd_error _ P) as [A B]. fold x in A, B. unfold x, fmul in *.
    rewrite pow2_m53 in A, B. set (y := (inject_Z m * JVM_HEADROOM_RATIO)%Q) in *.
    assert (inject_Z m * (15 # 100) - (1 # 2000) <= y <= inject_Z m * (15 # 100))%Q as [Y1 Y2] by (unfold y; nra).
    set (r := rnd y) in *. split; lra. }
  unfold math_ceil. pose proof (Qle_ceiling x) as C1. pose proof (Qceiling_lt x) as C2.
  set (c := Qceiling x) in *.
  assert (inject_Z m * 15 - (1 # 10) <= inject_Z c * 100)%Q as L by lra.
  assert (inject_Z c * 100 <= inject_Z m * 15 + 101)%Q as U.
  { rewrite inject_Z_plus in C2 || idtac. replace (c - 1) with (c + -1) in C2 by lia. rewrite inject_Z_plus in C2.
    change (inject_Z (-1)) with (-1)%Q in C2. lra. }
  assert (15 * m - 1 < 100 * c) as L'.
  { rewrite Zlt_Qlt. change (15 * m - 1) with (15 * m + -1). rewrite inject_Z_plus, !inject_Z_mult.
    change (inject_Z 15) with 15%Q. change (inject_Z 100) with 100%Q. change (inject_Z (-1)) with (-1)%Q. lra. }
  assert (100 * c <= 15 * m + 101) as U'.
  { rewrite Zle_Qle, inject_Z_plus, !inject_Z_mult.
    change (inject_Z 15) with 15%Q. change (inject_Z 100) with 100%Q. change (inject_Z 101) with 101%Q. lra. }
  lia.
Qed.

(** ** Theorems *)

(** The dropdown and the validator agree: when the rules offer a choice
    list whose token has no second colon, every non-empty value the validator
    accepts is one of the offered choices. *)
Theorem validator_within_choices rules t value :
  findFirst (startsWith "in:") (ruleTokens rules) = Some t -> noChar ":" (dropS 3 t) = true ->
  value <> "" -> validateVariableValue value rules = None ->
  exists choices, sh_choices (deriveVariableOptionShape rules) = Some choices /\
    sh_kind (deriveVariableOptionShape rules) = kind_choice /\ value ∈ choices.
Proof.
  intros Ht Hn Hv Hok. exists (splitOn "," (dropS 3 t)).
  unfold deriveVariableOptionShape. rewrite Ht. split_and!; [done|done|].
  apply findFirst_some in Ht as [Hin Hp]. unfold validateVariableValue in Hok.
  rewrite bool_decide_false in Hok by done. rewrite firstError_none in Hok. specialize (Hok t Hin).
  destruct (in_token t Hp Hn) as [E1 E2]. unfold checkToken in Hok. rewrite E1, E2 in Hok. simpl in Hok.
  destruct (includes value _) eqn:I; [|done]. by apply includes_elem.
Qed.

(** With a second colon in the choice list they disagree: the panel offers
    the value "a:b", and the validator refuses it. *)
Theorem choices_diverge :
  sh_choices (deriveVariableOptionShape "required|in:a:b,c") = Some ["a:b"; "c"] /\
  validateVariableValue "a:b" "required|in:a:b,c" = Some "deve ser um dos seguintes valores: a.".
Proof. split; vm_compute; reflexivity. Qed.

(** Customer-supplied variables are resolved strictly: the call succeeds
    exactly when every requested entry is declared by the template, visible,
    editable and valid for its rules, and then the result has exactly the
    declared names, each with the requested value or the template's default. *)
Theorem resolveDeclaredVariables_spec tvs requested :
  match resolveDeclaredVariables tvs requested with
  | Ok m => (forall e, e ∈ requested -> entryOk tvs e) /\
      forall k, m !! k = (fun tv => default (tv_defaultValue tv) (assoc (tv_envVariable tv) requested)) <$> byEnvVar tvs k
  | Throw _ => exists e, e ∈ requested /\ ~ entryOk tvs e
  end.
Proof.
  unfold resolveDeclaredVariables. unfold mbind, Res_bind, mret, Res_ret.
  destruct (forEntries _ _) as [u|x] eqn:E.
  - rewrite forEntries_ok in E. split; [intros e He; by apply checkDeclared_ok, E|].
    intros k. unfold resolveValues. rewrite resolveValues_lookup, lookup_empty. by destruct (byEnvVar tvs k).
  - apply forEntries_throw in E as (e & He & Hne). exists e. by rewrite <- checkDeclared_ok.
Qed.

(** The memory given to the JVM is owned by the plan: whatever the customer
    or the template put in SERVER_MEMORY, the resolved value is the heap derived
    from the server's own limit, and no other variable is touched. *)
Theorem plan_owns_server_memory values memoryMb k :
  applyPlanManagedVariables values memoryMb !! k =
  if (k =s "SERVER_MEMORY") && bool_decide (is_Some (values !! k)) then Some (zstr (jvmHeapMb memoryMb)) else values !! k.
Proof.
  unfold applyPlanManagedVariables. destruct (bool_decide_reflect (k = "SERVER_MEMORY")) as [->|Hk]; simpl.
  - destruct (values !! "SERVER_MEMORY") as [v|] eqn:E; [|by rewrite E].
    rewrite lookup_insert_eq. by rewrite bool_decide_true.
  - destruct (values !! "SERVER_MEMORY"); [by rewrite lookup_insert_ne|done].
Qed.

(** For every limit from 1 GB up, the heap leaves the JVM its headroom: at
    least 512 MB and at least 15% of the limit, and is itself at least 512 MB. *)
Theorem jvm_headroom memoryMb :
  1024 <= memoryMb <= 2 ^ 31 ->
  512 <= jvmHeapMb memoryMb /\ jvmHeapMb memoryMb + 512 <= memoryMb /\
  15 * memoryMb <= 100 * (memoryMb - jvmHeapMb memoryMb).
Proof.
  intros Hm. pose proof (jvm_ceil memoryMb ltac:(lia)) as C. unfold jvmHeapMb, MIN_HEAP_MB, MIN_JVM_HEADROOM_MB. lia.
Qed.

Lemma jvm_headroom_witness : 512 <= jvmHeapMb 6144 /\ jvmHeapMb 6144 + 512 <= 6144 /\ 15 * 6144 <= 100 * (6144 - jvmHeapMb 6144).
Proof. apply (jvm_headroom 6144). lia. Defined.

Lemma validator_within_choices_witness :
  exists choices, sh_choices (deriveVariableOptionShape "required|in:survival,creative") = Some choices /\
    sh_kind (deriveVariableOptionShape "required|in:survival,creative") = kind_choice /\ "creative" ∈ choices.
Proof.
  apply (validator_within_choices "required|in:survival,creative" "in:survival,creative" "creative");
    [vm_compute; reflexivity|vm_compute; reflexivity|discriminate|vm_compute; reflexivity].
Defined.

(** Below 1 GB the floor wins: a 512 MB server gets a heap equal to its
    whole limit, with no headroom at all. *)
Theorem jvm_small_plan_no_headroom : jvmHeapMb 512 = 512 /\ jvmHeapMb 768 = 512.
Proof. split; vm_compute; reflexivity. Qed.
