(* ===== verification/Servers.v ===== *)
(** Servers: creation, suspension and removal of game servers.

    [servers.service.ts] and [short-id.ts].  The create transaction is
    [createTx]; what happens after its commit (audit, agent dispatch) is in
    [createOnNode].  Public routes and per-server databases live in tables
    this development does not have: [gateway.ensureRouteForServer],
    [gateway.markRemoving] and [databases.deleteAllForServer] are best effort
    in the source and are left out. *)

From S2P Require Import Prelude JsNum Capacity Store Scheduler Subscriptions JsString Variables.
From Stdlib Require Import Ascii String Lia.

Local Open Scope Z_scope.

(** ** short-id.ts *)

Definition ALPHABET : string := "0123456789ABCDEFGHJKMNPQRSTVWXYZ".

Definition alphabetAt (b : Z) : string :=
  match String.get (Z.to_nat (b mod Z.of_nat (String.length ALPHABET))) ALPHABET with
  | Some c => String c EmptyString
  | None => ""
  end.

Definition generateShortId (bytes : list Z) : string :=
  String.concat "" (map (fun i => alphabetAt (nth i bytes 0)) (seq 0 8)).

(** ** servers.service.ts *)

Definition MAX_SCHEDULER_ATTEMPTS : nat := 3.
Definition DEFAULT_INSTALL_IMAGE : string := "ghcr.io/parkervcp/installers:debian".
Definition DEFAULT_INSTALL_ENTRYPOINT : string := "bash".

Record CreateOnNodeInput := mkCreateInput {
  ci_ownerId : string; ci_planId : string; ci_name : option string;
  ci_variables : option (list (string * string)); ci_allocationId : option string;
  ci_attachSubscriptionId : option string }.

(** [{ template, dockerImage }]. *)
Definition TemplateContext : Type := Template * string.

Record CreateServerDto := mkCreateDto {
  dto_input : CreateOnNodeInput; dto_templateId : option string; dto_nodeId : option string }.

Record CreatedServer := mkCreated { cr_id : string; cr_shortId : string; cr_status : ServerStatus }.

(** A falsy optional string: absent or empty. *)
Definition truthy (o : option string) : option string :=
  match o with Some s => if s =s "" then None else Some s | None => None end.

Section Service.
Context `{Platform} `{Outside} (now : Z).

Fixpoint generateUniqueShortId (attempts : nat) : MW string :=
  match attempts with
  | O => throw (Conflict "Could not allocate a unique short_id, please retry")
  | S k =>
    n ← freshN;
    let candidate := generateShortId (randomBytes8 n) in
    servers ← gets (fun w => db_servers (w_db w));
    match findFirst (fun s => sv_shortId s =s candidate) servers with
    | None => mret candidate
    | Some _ => generateUniqueShortId k
    end
  end.

(** The requested allocation, or the first free one of the node. *)
Definition chooseAllocation (dto : CreateOnNodeInput) (nodeId : string) : MW Allocation :=
  d ← gets w_db;
  match truthy (ci_allocationId dto) with
  | Some a =>
    id ← orThrow (bigInt a) (External "SyntaxError: Cannot convert to a BigInt");
    orThrow (findFirst (fun x => (al_id x =? id) && (al_nodeId x =s nodeId) && (al_serverId x =s None)) (db_allocations d))
      (Conflict "Requested allocation is not free")
  | None =>
    orThrow (pickFreeAllocation d nodeId) (Conflict "No free allocation available on this node")
  end.

(** The row of [tx.server.create]. *)
Definition newServer (id shortId nodeId : string) (dto : CreateOnNodeInput) (ctx : option TemplateContext)
    (plan : Plan) (uid : Z) : Server :=
  {| sv_id := id; sv_shortId := shortId; sv_ownerId := ci_ownerId dto; sv_nodeId := nodeId;
     sv_templateId := (fun c => tp_id (fst c)) <$> ctx; sv_planId := Some (ci_planId dto); sv_uid := Some uid;
     sv_name := default ("Servidor " +:+ shortId) (ci_name dto);
     sv_dockerImage := snd <$> ctx;
     sv_startupCommand := (fun c : TemplateContext =>
        pickStartupCommand (tp_softwareKind (fst c)) (tp_startupCommand (fst c))
          (ci_variables dto ≫= assoc "MINECRAFT_VERSION")) <$> ctx;
     sv_cpuLimitPercent := pl_cpuLimitPercent plan; sv_memoryMb := pl_memoryMb plan;
     sv_swapMb := pl_swapMb plan; sv_diskMb := pl_diskMb plan; sv_ioWeight := pl_ioWeight plan;
     sv_oomKillEnabled := pl_oomKillEnabled plan; sv_maxDatabases := pl_maxDatabases plan;
     sv_maxBackups := pl_maxBackups plan; sv_maxAllocations := pl_maxAllocations plan;
     sv_maxSchedules := pl_maxSchedules plan;
     sv_status := match ctx with Some _ => Srv_installing | None => Srv_setup_pending end;
     sv_suspendedAt := None; sv_suspensionReason := None; sv_suspensionSource := None;
     sv_installedAt := None; sv_powerState := "offline" |}.

(** [attachSubscriptionId]: a compare-and-swap on [serverId IS NULL]. *)
Definition attachSubscription (dto : CreateOnNodeInput) (serverId : string) : MW unit :=
  match truthy (ci_attachSubscriptionId dto) with
  | None => mret tt
  | Some subId =>
    d ← gets w_db;
    subscription ← orThrow (findFirst (fun s => (sb_id s =s subId) && (sb_userId s =s ci_ownerId dto)) (db_subscriptions d))
                     (NotFound "Subscription not found for attach");
    let matches := fun s => (sb_id s =s sb_id subscription) && (sb_serverId s =s None) in
    throwIf (countWhere matches (db_subscriptions d) =? 0)
      (Conflict "SUBSCRIPTION_ALREADY_HAS_SERVER: this subscription is already attached to a server") ;;
    onDb (fun d => d <| db_subscriptions := updWhere matches (fun s => s <| sb_serverId := Some serverId |>) (db_subscriptions d) |>)
  end.

(** The validation loop over the requested variables: unknown keys are ignored. *)
Definition checkRequested (templateVars : list TemplateVariable) (entry : string * string) : Res unit :=
  let '(key, value) := entry in
  match byEnvVar templateVars key with
  | None => Ok tt
  | Some tv =>
    if negb (tv_isUserEditable tv) then Throw (Forbidden ("Variável não editável: " +:+ key))
    else match validateVariableValue value (tv_rules tv) with
         | Some error => Throw (BadRequest (tv_name tv +:+ ": " +:+ error))
         | None => Ok tt
         end
  end.

(** The template half of the transaction: variables and startup command. *)
Definition applyTemplate (dto : CreateOnNodeInput) (template : Template) (server : Server)
    : MW (Server * list string * gmap string string) :=
  d ← gets w_db;
  let templateVars := List.filter (fun tv => tv_templateId tv =s tp_id template) (db_templateVariables d) in
  let requested := default [] (ci_variables dto) in
  lift (forEntries (checkRequested templateVars) requested) ;;
  let resolvedValues := applyPlanManagedVariables
    (resolveValues templateVars (fun tv => default (tv_defaultValue tv) (assoc (tv_envVariable tv) requested)))
    (sv_memoryMb server) in
  let startupCommand := pickStartupCommand (tp_softwareKind template) (tp_startupCommand template)
                          (resolvedValues !! "MINECRAFT_VERSION") in
  server ← (if sv_startupCommand server =s Some startupCommand then mret server
            else updateServer (sv_id server) (fun s => s <| sv_startupCommand := Some startupCommand |>));
  forEach templateVars (fun tv =>
    onDb (fun d => d <| db_serverVariables := db_serverVariables d ++
      [mkServerVariable (sv_id server) (tv_id tv) (default "" (resolvedValues !! tv_envVariable tv))] |>)) ;;
  mret (server, map tv_envVariable templateVars, resolvedValues).

(** Everything checked under the plan and node locks before the row is written. *)
Definition createChecks (dto : CreateOnNodeInput) (nodeId : string) : MW Plan :=
  d ← gets w_db;
  plan ← orThrow (findFirst (fun p => (pl_id p =s ci_planId dto) && (pl_deletedAt p =s None)) (db_plans d))
           (NotFound "Plan not found");
  lift (assertSlots (occupiedSlots d (ci_planId dto)) (pl_maxSlots plan)) ;;
  throwIf (negb (isNodeAllowedForPlan d (ci_planId dto) nodeId))
    (Conflict "This plan is not allowed on the requested node") ;;
  node ← orThrow (findFirst (fun n => (nd_id n =s nodeId) && (nd_deletedAt n =s None)) (db_nodes d))
           (NotFound "Node not found");
  match acceptanceOf now node with
  | Some reason => throw (Conflict reason)
  | None =>
    lift (assertNodeFits (rc_inputs (resolveNodeCapacity now (nd_config node))) (usageForNode d nodeId) (planRequest plan)) ;;
    mret plan
  end.

(** The reservation: allocation, uid, short id, row, attachment. *)
Definition createRow (dto : CreateOnNodeInput) (nodeId : string) (ctx : option TemplateContext) (plan : Plan)
    : MW (Server * Z * Allocation) :=
  allocation ← chooseAllocation dto nodeId;
  uid ← gets (fun w => nextUid (w_db w) nodeId);
  shortId ← generateUniqueShortId 5;
  n ← freshN;
  server ← createServerRow (newServer (uuidv7 n) shortId nodeId dto ctx plan uid);
  updateAllocation (al_id allocation) (fun a => a <| al_serverId := Some (sv_id server) |> <| al_isPrimary := true |>) ;;
  attachSubscription dto (sv_id server) ;;
  mret (server, uid, allocation).

Definition createTx (dto : CreateOnNodeInput) (nodeId : string) (ctx : option TemplateContext)
    : MW (Server * Z * Allocation) :=
  plan ← createChecks dto nodeId;
  '(server, uid, allocation) ← createRow dto nodeId ctx plan;
  match ctx with
  | None => mret (server, uid, allocation)
  | Some (template, _) =>
    '(server, _, _) ← applyTemplate dto template server;
    mret (server, uid, allocation)
  end.

Definition isServerExists (e : exn) : bool :=
  match e with Conflict m => includesStr "SERVER_EXISTS" m | _ => false end.

Definition dispatchToAgent (serverId nodeId : string) (uid : Z) (rethrow : bool) : MW unit :=
  let failed := fun failure =>
    withRLS (updateServer serverId (fun s => s <| sv_status := Srv_install_failed |>)) ;;
    record "server.create.dispatch_failed" None "server" serverId ;;
    if rethrow : bool then throw failure else mret tt in
  reply ← tryCatch (agentCall (AgentCreate nodeId serverId uid) ;; mret None) (fun err => mret (Some err));
  match reply with
  | None => mret tt
  | Some err =>
    if isServerExists err then
      retried ← tryCatch (agentCall (AgentReinstall nodeId serverId) ;; mret None) (fun e => mret (Some e));
      match retried with
      | None => record "server.create.dispatch_rerouted_to_reinstall" None "server" serverId
      | Some reinstallErr => failed reinstallErr
      end
    else failed err
  end.

Definition dispatchReinstallToAgent (serverId nodeId : string)
    (previous : string * string * string) (rethrow : bool) : MW unit :=
  reply ← tryCatch (agentCall (AgentReinstall nodeId serverId) ;; mret None) (fun err => mret (Some err));
  match reply with
  | None => mret tt
  | Some err =>
    let '(templateId, dockerImage, startupCommand) := previous in
    withRLS (updateServer serverId (fun s => s <| sv_status := Srv_ready |> <| sv_templateId := Some templateId |>
      <| sv_dockerImage := Some dockerImage |> <| sv_startupCommand := Some startupCommand |>)) ;;
    record "server.reinstall.dispatch_failed" None "server" serverId ;;
    if rethrow then throw err else mret tt
  end.

Definition createOnNode (dto : CreateOnNodeInput) (ctx : option TemplateContext) (nodeId : string) : MW CreatedServer :=
  '(server, uid, _) ← withRLS (createTx dto nodeId ctx);
  record "server.create" None "server" (sv_id server) ;;
  match ctx with
  | None => mret tt
  | Some _ => dispatchToAgent (sv_id server) nodeId uid false
  end ;;
  mret (mkCreated (sv_id server) (sv_shortId server) (sv_status server)).

Definition isNoSlots (e : exn) : bool :=
  match e with Conflict m => startsWith "NO_SLOTS:" m | _ => false end.

(** The [for] loop; [remaining] counts the attempts left. *)
Fixpoint schedulerLoop {A} (planId : string) (attempt : string -> MW A) (remaining : nat) (excluded : list string) : MW A :=
  match remaining with
  | O => throw (Conflict "No eligible node found for this plan")
  | S k =>
    d ← gets w_db;
    selection ← lift (selectNode now d planId excluded None);
    match selected selection with
    | None => throw (Conflict "No eligible node found for this plan")
    | Some (nodeId, _, _) =>
      tryCatch (attempt nodeId) (fun err =>
        if isNoSlots err then throw err
        else match k with
             | O => throw err
             | _ => schedulerLoop planId attempt k (excluded ++ [nodeId])
             end)
    end
  end.

Definition withSchedulerRetry {A} (planId : string) (nodeId : option string) (attempt : string -> MW A) : MW A :=
  match truthy nodeId with
  | Some n => attempt n
  | None => schedulerLoop planId attempt MAX_SCHEDULER_ATTEMPTS []
  end.

Definition requireOwner (ownerId : string) : MW unit :=
  d ← gets w_db;
  _ ← orThrow (findFirst (fun u => (usr_id u =s ownerId) && (usr_deletedAt u =s None)) (db_users d)) (NotFound "Owner not found");
  mret tt.

Definition requirePlan (planId : string) : MW unit :=
  d ← gets w_db;
  _ ← orThrow (findFirst (fun p => (pl_id p =s planId) && (pl_deletedAt p =s None)) (db_plans d)) (NotFound "Plan not found");
  mret tt.

Definition loadTemplate (templateId : string) (variables : option (list (string * string))) : MW TemplateContext :=
  d ← gets w_db;
  template ← orThrow (findFirst (fun t => (tp_id t =s templateId) && (tp_deletedAt t =s None)) (db_templates d))
               (NotFound "Template not found");
  throwIf (negb (tp_isActive template)) (Conflict "Template is not active") ;;
  dockerImage ← orThrow (truthy (pickDockerImage (tp_dockerImages template) (variables ≫= assoc "MINECRAFT_VERSION")))
                  (Conflict "Template has no docker images configured");
  mret (template, dockerImage).

Definition create (dto : CreateServerDto) : MW CreatedServer :=
  let input := dto_input dto in
  requireOwner (ci_ownerId input) ;;
  ctx ← match truthy (dto_templateId dto) with
        | None => mret None
        | Some t => c ← loadTemplate t (ci_variables input); mret (Some c)
        end;
  requirePlan (ci_planId input) ;;
  withSchedulerRetry (ci_planId input) (dto_nodeId dto) (createOnNode input ctx).

Definition createSetupPending (input : CreateOnNodeInput) (nodeId : option string) : MW CreatedServer :=
  requireOwner (ci_ownerId input) ;;
  requirePlan (ci_planId input) ;;
  withSchedulerRetry (ci_planId input) nodeId (createOnNode input None).

Definition getServer (id : string) : MW Server :=
  d ← gets w_db;
  orThrow (findId id (db_servers d)) (NotFound "Server not found").

Definition remove (id : string) : MW unit :=
  server ← getServer id;
  agentCall (AgentDelete (sv_nodeId server) (sv_id server)) ;;
  withRLS (
    onDb (fun d => d <| db_allocations := updWhere (fun a => al_serverId a =s Some id) (fun a => a <| al_isPrimary := false |>) (db_allocations d) |>) ;;
    deleteServerRow id) ;;
  record "server.delete" None "server" id.

(** The [data] of the two updates. *)
Definition suspendRow (reason : string) (source : SuspensionSource) (s : Server) : Server :=
  s <| sv_status := Srv_suspended |> <| sv_suspendedAt := Some now |>
    <| sv_suspensionReason := Some reason |> <| sv_suspensionSource := Some source |>.

Definition unsuspendRow (s : Server) : Server :=
  s <| sv_status := Srv_ready |> <| sv_suspendedAt := None |>
    <| sv_suspensionReason := None |> <| sv_suspensionSource := None |>.

Definition suspend (id reason : string) (actorId : option string) (source : SuspensionSource) : MW unit :=
  server ← getServer id;
  withRLS (updateServer id (suspendRow reason source)) ;;
  record "admin.server.suspend" actorId "server" id ;;
  tryCatch (agentCall (AgentSuspend (sv_nodeId server) id true))
    (fun _ => record "admin.server.suspend.agent_push_failed" actorId "server" id).

Definition unsuspend (id : string) (actorId : option string) (requireSource : option SuspensionSource) : MW bool :=
  server ← getServer id;
  if match requireSource with None => false | Some src => negb (sv_suspensionSource server =s Some src) end
  then mret false
  else
    withRLS (updateServer id unsuspendRow) ;;
    record "admin.server.unsuspend" actorId "server" id ;;
    tryCatch (agentCall (AgentSuspend (sv_nodeId server) id false))
      (fun _ => record "admin.server.unsuspend.agent_push_failed" actorId "server" id) ;;
    mret true.

Definition reportInstallResult (nodeId serverUuid : string) (successful : bool) : MW unit :=
  withRLS (
    d ← gets w_db;
    _ ← orThrow (findFirst (fun s => (sv_id s =s serverUuid) && (sv_nodeId s =s nodeId)) (db_servers d))
          (NotFound "Server not found on this node");
    updateServer serverUuid (fun s =>
      if successful then s <| sv_status := Srv_ready |> <| sv_installedAt := Some now |>
      else s <| sv_status := Srv_install_failed |>)) ;;
  record (if successful then "server.install.completed" else "server.install.failed") None "server" serverUuid.

End Service.

(** ** Lemmas: runs of the primitives *)

Section Lemmas.
Context `{Platform} `{Outside}.

Lemma updateServer_ok id f w s' w' : updateServer id f w = (Ok s', w') ->
  exists s, findId id (db_servers (w_db w)) = Some s /\ s' = f s /\ serverRowOk (f s) = true /\
    w' = w <| w_db := (w_db w) <| db_servers := updId id f (db_servers (w_db w)) |> |>.
Proof.
  unfold updateServer. intros Hr. mok. subst. destruct (findId id _) as [s|] eqn:E; [|mok].
  destruct (serverRowOk (f s)) eqn:C; [|mok]. unfold onDb in Hr. mok. subst. eauto.
Qed.

Lemma createServerRow_ok s w s' w' : createServerRow s w = (Ok s', w') ->
  s' = s /\ serverRowOk s = true /\ w' = w <| w_db := (w_db w) <| db_servers := db_servers (w_db w) ++ [s] |> |>.
Proof.
  unfold createServerRow, onDb. destruct (serverRowOk s); intros Hr; mok; subst; done.
Qed.

Lemma updateAllocation_ok id f w u w' : updateAllocation id f w = (Ok u, w') ->
  w' = w <| w_db := (w_db w) <| db_allocations := updWhere (fun a => al_id a =? id) f (db_allocations (w_db w)) |> |>.
Proof.
  unfold updateAllocation, onDb. intros Hr. mok. destruct (existsb _ _); mok; subst; done.
Qed.

(** Drawing a short id touches nothing but the counter, and returns one that is free. *)
Lemma generateUniqueShortId_ok k w sid w' : generateUniqueShortId k w = (Ok sid, w') ->
  w' = w <| w_next := w_next w' |> /\ (w_next w <= w_next w')%N /\
  (forall s, s ∈ db_servers (w_db w) -> sv_shortId s <> sid) /\ exists n, sid = generateShortId (randomBytes8 n).
Proof.
  revert w. induction k as [|k IH]; intros w; simpl; intros Hr; [mok|].
  unfold freshN in Hr. mok. simplify_eq. destruct (findFirst _ _) as [s|] eqn:E.
  - destruct (IH _ Hr) as (E1 & E2 & E3 & E4). simpl in *. split_and!; [by rewrite E1| lia | done | done].
  - mok. subst. split_and!; [done|simpl; lia| |eauto]. intros s Hs. eapply findFirst_none in E; [|done].
    by apply bool_decide_eq_false in E.
Qed.

Lemma chooseAllocation_ok dto n w a w' : chooseAllocation dto n w = (Ok a, w') ->
  w' = w /\ a ∈ db_allocations (w_db w) /\ al_nodeId a = n /\ al_serverId a = None.
Proof.
  unfold chooseAllocation. intros Hr. mok. destruct (truthy _) as [aid|]; mok; split; try done.
  - match goal with Hf : findFirst _ _ = Some _ |- _ => apply findFirst_some in Hf as [? E] end.
    rewrite !andb_true_iff, !bool_decide_eq_true in E. subst. naive_solver.
  - subst. by apply pickFreeAllocation_some.
Qed.

(** ** What a committed create did *)

(** The parts of a row the capacity queries read. *)
Definition core (s : Server) := (sv_id s, sv_nodeId s, sv_status s, sv_memoryMb s, sv_diskMb s, sv_cpuLimitPercent s, sv_uid s, sv_planId s).

Definition sameCore (s s' : Server) : Prop := core s' = core s.

#[export] Instance sameCore_preorder : PreOrder sameCore.
Proof. split; unfold sameCore; congruence. Qed.

(** The guards a committed transaction went through. *)
Definition checksPassed (now : Z) (d : Db) (dto : CreateOnNodeInput) (nodeId : string) (plan : Plan) (node : Node) : Prop :=
  plan ∈ db_plans d /\ pl_id plan = ci_planId dto /\ pl_deletedAt plan = None /\
  (forall m, pl_maxSlots plan = Some m -> occupiedSlots d (ci_planId dto) < m) /\
  isNodeAllowedForPlan d (ci_planId dto) nodeId = true /\
  node ∈ db_nodes d /\ nd_id node = nodeId /\ nd_deletedAt node = None /\ acceptanceOf now node = None /\
  nodeFits (rc_inputs (resolveNodeCapacity now (nd_config node))) (usageForNode d nodeId) (planRequest plan).

Lemma createChecks_ok now dto nodeId w plan w' : createChecks now dto nodeId w = (Ok plan, w') ->
  w' = w /\ exists node, checksPassed now (w_db w) dto nodeId plan node.
Proof.
  unfold createChecks. intros Hr. mok. subst.
  destruct (acceptanceOf now _) eqn:Ea; [mok|]. mok. subst. split; [done|].
  repeat match goal with Hf : findFirst _ _ = Some _ |- _ =>
    apply findFirst_some in Hf as [? Hf]; rewrite andb_true_iff, !bool_decide_eq_true in Hf; destruct Hf end.
  match goal with Hs : assertSlots _ _ = Ok _ |- _ => pose proof (proj1 (assertSlots_ok _ _) Hs) end.
  match goal with Hs : assertNodeFits _ _ _ = Ok _ |- _ => apply assertNodeFits_ok in Hs end.
  match goal with Hs : negb _ = false |- _ => apply negb_false_iff in Hs end.
  eexists. unfold checksPassed. split_and!; done.
Qed.


(** What the steps after the insert leave alone. *)
Definition afterInsert (w w' : World) : Prop :=
  Forall2 sameCore (db_servers (w_db w)) (db_servers (w_db w')) /\
  db_allocations (w_db w') = db_allocations (w_db w) /\ db_transfers (w_db w') = db_transfers (w_db w) /\
  w_next w' = w_next w.

Lemma Forall2_sameCore_refl l : Forall2 sameCore l l.
Proof. induction l; constructor; auto. reflexivity. Qed.

#[export] Instance afterInsert_preorder : PreOrder afterInsert.
Proof.
  split.
  - intros w. split_and!; first [done|apply Forall2_sameCore_refl].
  - intros a b c (A1 & A2 & A3 & A4) (B1 & B2 & B3 & B4). split_and!; try congruence.
    eapply Forall2_compose; [|exact A1|exact B1]. intros ????; etransitivity; eauto.
Qed.

Lemma attachSubscription_frame dto id : keeps afterInsert (attachSubscription dto id).
Proof.
  unfold attachSubscription, onDb. keeps_auto. intros w r w' E%modify_ok. destruct E as [_ ->].
  split_and!; first [done|apply Forall2_sameCore_refl].
Qed.

Lemma updateServer_frame id f : (forall s, sameCore s (f s)) -> keeps afterInsert (updateServer id f).
Proof.
  intros Hf. unfold updateServer, onDb. keeps_auto. intros w r w' E%modify_ok. destruct E as [_ ->].
  split_and!; try done. simpl. apply updFirst_Forall2; [reflexivity|auto].
Qed.

Lemma applyTemplate_frame dto t sv : keeps afterInsert (applyTemplate dto t sv).
Proof.
  unfold applyTemplate, onDb. keeps_auto; try (by apply updateServer_frame).
  intros w r w' E%modify_ok. destruct E as [_ ->]. split_and!; first [done|apply Forall2_sameCore_refl].
Qed.

Lemma applyTemplate_core dto t sv w sv' vs m w' : applyTemplate dto t sv w = (Ok (sv', vs, m), w') ->
  findId (sv_id sv) (db_servers (w_db w)) = Some sv -> sameCore sv sv'.
Proof.
  unfold applyTemplate. intros Hr Hs. mok. simplify_eq.
  match goal with Hif : (if _ then _ else _) _ = _ |- _ => destruct (sv_startupCommand sv =s _); [mok; subst; reflexivity|];
    apply updateServer_ok in Hif as (s0 & Hf & -> & _) end.
  rewrite Hs in Hf. injection Hf as <-. reflexivity.
Qed.

(** The committed effect of the create transaction. *)
Record Created (now : Z) (dto : CreateOnNodeInput) (nodeId : string) (ctx : option TemplateContext)
    (w w' : World) (sv : Server) (uid : Z) (al : Allocation) (plan : Plan) (node : Node) (n : N) (sid : string) : Prop := {
  cd_checks : checksPassed now (w_db w) dto nodeId plan node;
  cd_uid : uid = nextUid (w_db w) nodeId;
  cd_alloc : al ∈ db_allocations (w_db w) /\ al_nodeId al = nodeId /\ al_serverId al = None;
  cd_sid : forall s, s ∈ db_servers (w_db w) -> sv_shortId s <> sid;
  cd_servers : Forall2 sameCore (db_servers (w_db w) ++ [newServer (uuidv7 n) sid nodeId dto ctx plan uid]) (db_servers (w_db w'));
  cd_allocations : db_allocations (w_db w') =
    updWhere (fun a => al_id a =? al_id al) (fun a => a <| al_serverId := Some (uuidv7 n) |> <| al_isPrimary := true |>) (db_allocations (w_db w));
  cd_transfers : db_transfers (w_db w') = db_transfers (w_db w);
  cd_next : (w_next w <= n < w_next w')%N }.

Lemma createRow_ok dto nodeId ctx plan w sv uid al w' :
  createRow dto nodeId ctx plan w = (Ok (sv, uid, al), w') ->
  exists n sid, uid = nextUid (w_db w) nodeId /\
    (al ∈ db_allocations (w_db w) /\ al_nodeId al = nodeId /\ al_serverId al = None) /\
    (forall s, s ∈ db_servers (w_db w) -> sv_shortId s <> sid) /\
    sv = newServer (uuidv7 n) sid nodeId dto ctx plan uid /\ (w_next w <= n < w_next w')%N /\
    Forall2 sameCore (db_servers (w_db w) ++ [sv]) (db_servers (w_db w')) /\
    db_allocations (w_db w') =
      updWhere (fun a => al_id a =? al_id al) (fun a => a <| al_serverId := Some (uuidv7 n) |> <| al_isPrimary := true |>) (db_allocations (w_db w)) /\
    db_transfers (w_db w') = db_transfers (w_db w).
Proof.
  unfold createRow. intros Hr. apply bind_ok in Hr as (al0 & w1 & Ha & Hr).
  apply chooseAllocation_ok in Ha as [-> Ha]. mok.
  match goal with Hg : generateUniqueShortId _ _ = (Ok ?s, ?w1) |- _ =>
    apply generateUniqueShortId_ok in Hg as (G1 & G2 & G3 & _) end.
  match goal with Hf : freshN _ = _ |- _ => unfold freshN in Hf; simplify_eq end.
  match goal with Hc : createServerRow _ _ = _ |- _ => apply createServerRow_ok in Hc as (-> & _ & ->) end.
  match goal with Hc : updateAllocation _ _ _ = _ |- _ => apply updateAllocation_ok in Hc as -> end.
  match goal with Hc : attachSubscription _ _ _ = _ |- _ => apply attachSubscription_frame in Hc as (F1 & F2 & F3 & F4) end.
  rewrite G1 in *. simpl in *. eexists _, _. split_and!; try done; try lia; try apply Ha.
Qed.

Lemma createTx_ok now dto nodeId ctx w sv uid al w' :
  createTx now dto nodeId ctx w = (Ok (sv, uid, al), w') ->
  exists plan node n sid, Created now dto nodeId ctx w w' sv uid al plan node n sid.
Proof.
  unfold createTx. intros Hr. apply bind_ok in Hr as (plan & w1 & Hc & Hr).
  apply createChecks_ok in Hc as [-> [node Hc]]. apply bind_ok in Hr as ([[sv0 uid0] al0] & w1 & Hrow & Hr).
  apply createRow_ok in Hrow as (n & sid & H1 & H2 & H3 & H4 & H5 & H6 & H7 & H8).
  assert (afterInsert w1 w' /\ uid = uid0 /\ al = al0) as (Hf & -> & ->).
  { destruct ctx as [[t img]|]; [|mok; simplify_eq; split_and!; done || reflexivity].
    apply bind_ok in Hr as ([[sv1 vs] m] & w2 & Ht & Hr). mok. simplify_eq.
    split_and!; try done. by apply applyTemplate_frame in Ht. }
  destruct Hf as (F1 & F2 & F3 & F4). exists plan, node, n, sid. split; try done.
  - subst sv0. eapply Forall2_compose; [|exact H6|exact F1]. intros ????; etransitivity; eauto.
  - congruence.
  - congruence.
  - rewrite F4. lia.
Qed.

End Lemmas.

(** ** Lemmas: usage, slots and uids after a create *)

(** Every transfer row has its server (a required foreign key). *)
Definition transfersHaveServers (d : Db) : Prop :=
  forall t, t ∈ db_transfers d -> is_Some (findId (tr_serverId t) (db_servers d)).

Lemma sameCore_fields s s' : sameCore s s' ->
  sv_id s' = sv_id s /\ sv_nodeId s' = sv_nodeId s /\ sv_status s' = sv_status s /\ sv_memoryMb s' = sv_memoryMb s /\
  sv_diskMb s' = sv_diskMb s /\ sv_cpuLimitPercent s' = sv_cpuLimitPercent s /\ sv_uid s' = sv_uid s /\ sv_planId s' = sv_planId s.
Proof. unfold sameCore, core. intros E. by simplify_eq. Qed.

Lemma sumUsage_cons s l : sumUsage (s :: l) = addUsage (sumUsage l) (sv_memoryMb s) (sv_diskMb s) (sv_cpuLimitPercent s).
Proof. apply usage_ext; simpl; lia. Qed.

(** What the usage of a node depends on. *)
Definition load (s : Server) :=
  (sv_id s, sv_nodeId s, sv_status s =s Srv_deleting, sv_memoryMb s, sv_diskMb s, sv_cpuLimitPercent s).
Definition sameLoad (s s' : Server) : Prop := load s' = load s.

Lemma sameCore_load s s' : sameCore s s' -> sameLoad s s'.
Proof. intros (E1 & E2 & E3 & E4 & E5 & E6 & _)%sameCore_fields. unfold sameLoad, load. by rewrite E1, E2, E3, E4, E5, E6. Qed.

Lemma sameLoad_fields s s' : sameLoad s s' ->
  sv_id s' = sv_id s /\ sv_nodeId s' = sv_nodeId s /\ (sv_status s' =s Srv_deleting) = (sv_status s =s Srv_deleting) /\
  sv_memoryMb s' = sv_memoryMb s /\ sv_diskMb s' = sv_diskMb s /\ sv_cpuLimitPercent s' = sv_cpuLimitPercent s.
Proof. unfold sameLoad, load. intros E. injection E as E1 E2 E3 E4 E5 E6. done. Qed.

Lemma sumUsage_load l l' : Forall2 sameLoad l l' -> sumUsage l = sumUsage l'.
Proof.
  induction 1 as [|s s' l l' Hs Hl IH]; [done|]. rewrite !sumUsage_cons, IH.
  apply sameLoad_fields in Hs as (_ & _ & _ & -> & -> & ->). done.
Qed.

Lemma filter_load (p : Server -> bool) l l' :
  (forall s s', sameLoad s s' -> p s' = p s) -> Forall2 sameLoad l l' ->
  Forall2 sameLoad (List.filter p l) (List.filter p l').
Proof.
  intros Hp. induction 1 as [|s s' l l' Hs Hl IH]; simpl; [constructor|].
  rewrite (Hp _ _ Hs). destruct (p s); [by constructor|done].
Qed.

Lemma findId_load id l l' : Forall2 sameLoad l l' ->
  match findId id l, findId id l' with
  | Some s, Some s' => sameLoad s s'
  | None, None => True
  | _, _ => False
  end.
Proof.
  unfold findId, findFirst. induction 1 as [|s s' l l' Hs Hl IH]; simpl; [done|].
  change (rid s') with (sv_id s'). change (rid s) with (sv_id s).
  rewrite (proj1 (sameLoad_fields _ _ Hs)). by destruct (bool_decide (sv_id s = id)).
Qed.

Lemma transferServers_load d d' ts : Forall2 sameLoad (db_servers d) (db_servers d') ->
  Forall2 sameLoad (transferServers d ts) (transferServers d' ts).
Proof.
  intros Hf. induction ts as [|t ts IH]; [constructor|]. rewrite !transferServers_cons.
  pose proof (findId_load (tr_serverId t) _ _ Hf) as Hi.
  destruct (findId _ (db_servers d)), (findId _ (db_servers d')); try done. by constructor.
Qed.

Lemma usageForNode_load d d' n : Forall2 sameLoad (db_servers d) (db_servers d') ->
  db_transfers d' = db_transfers d -> usageForNode d' n = usageForNode d n.
Proof.
  intros Hf Ht. pose proof (transferServers_load d d' (inFlightTo d n) Hf) as T.
  assert (inFlightTo d' n = inFlightTo d n) as E by (unfold inFlightTo; by rewrite Ht).
  assert (Forall2 sameLoad (settledOn d n) (settledOn d' n)) as S.
  { apply filter_load; [|done]. intros s s' Hs. apply sameLoad_fields in Hs as (_ & -> & -> & _). done. }
  apply sumUsage_load in T, S. rewrite !usageForNode_sum, E, S.
  unfold sumUsage in T. injection T as T1 T2 T3. by rewrite T1, T2, T3.
Qed.

(** An admitted transfer counts on its target like a server of that node. *)
Lemma usageForNode_inFlight d t s n : tr_targetNodeId t = n -> tr_status t ∈ ACTIVE_TRANSFER_STATUSES ->
  findId (tr_serverId t) (db_servers d) = Some s ->
  usageForNode (d <| db_transfers := db_transfers d ++ [t] |>) n =
  addUsage (usageForNode d n) (sv_memoryMb s) (sv_diskMb s) (sv_cpuLimitPercent s).
Proof.
  intros Hn Hst Hs. unfold usageForNode, inFlightTo, transferServers, settledOn. simpl. rewrite List.filter_app. simpl.
  rewrite !bool_decide_eq_true_2 by done. simpl. rewrite omap_app. simpl. rewrite Hs.
  apply usage_ext; simpl; rewrite !sumZ_app; simpl; lia.
Qed.

Lemma maxUid_core l l' : Forall2 sameCore l l' -> maxUid l' = maxUid l.
Proof.
  induction 1 as [|s s' l l' Hs Hl IH]; [done|]. simpl. rewrite IH.
  apply sameCore_fields in Hs as (_ & _ & _ & _ & _ & _ & -> & _). done.
Qed.

Lemma nextUid_core d d' n : Forall2 sameCore (db_servers d) (db_servers d') -> nextUid d' n = nextUid d n.
Proof.
  intros Hf. unfold nextUid. do 3 f_equal. apply maxUid_core. revert Hf. generalize (db_servers d) (db_servers d').
  induction 1 as [|s s' l l' Hs Hl IH]; simpl; [constructor|].
  rewrite (proj1 (proj2 (sameCore_fields _ _ Hs))). destruct (bool_decide _); [by constructor|done].
Qed.

Lemma transferServers_app d s : (forall t, t ∈ db_transfers d -> is_Some (findId (tr_serverId t) (db_servers d))) ->
  forall ts, (forall t, t ∈ ts -> t ∈ db_transfers d) ->
  transferServers (d <| db_servers := db_servers d ++ [s] |>) ts = transferServers d ts.
Proof.
  intros Hfk ts Hts. induction ts as [|t ts IH]; [done|]. rewrite !transferServers_cons. simpl.
  destruct (Hfk t) as [x Hx]; [by apply Hts, elem_of_cons; left|].
  rewrite (findId_app_some _ _ _ _ Hx), Hx. f_equal. apply IH. intros y Hy. by apply Hts, elem_of_cons; right.
Qed.

Lemma usageForNode_insert d s n : transfersHaveServers d -> sv_nodeId s = n -> sv_status s <> Srv_deleting ->
  usageForNode (d <| db_servers := db_servers d ++ [s] |>) n =
  addUsage (usageForNode d n) (sv_memoryMb s) (sv_diskMb s) (sv_cpuLimitPercent s).
Proof.
  intros Hfk Hn Hs. rewrite !usageForNode_sum.
  assert (inFlightTo (d <| db_servers := db_servers d ++ [s] |>) n = inFlightTo d n) as -> by done.
  rewrite transferServers_app; [|done|].
  - assert (settledOn (d <| db_servers := db_servers d ++ [s] |>) n = settledOn d n ++ [s]) as ->.
    { unfold settledOn. simpl. rewrite List.filter_app. simpl.
      by rewrite (bool_decide_true (sv_nodeId s = n)), (bool_decide_false (sv_status s = Srv_deleting)). }
    apply usage_ext; simpl; rewrite sumZ_app; simpl; lia.
  - intros t Ht. unfold inFlightTo in Ht. rewrite list_elem_of_In, filter_In, <- list_elem_of_In in Ht. tauto.
Qed.

(** Committed usage stays within every ceiling of the node. *)
Definition withinCeilings (i : NodeCapacityInputs) (u : NodeUsage) : Prop := nodeFits i u (mkRequest 0 0 0).

Lemma nodeFits_after i u r :
  nodeFits i u r -> withinCeilings i (addUsage u (r_memoryMb r) (r_diskMb r) (r_cpuPercent r)).
Proof.
  unfold withinCeilings, nodeFits, checks. rewrite !Forall_cons, Forall_nil. unfold dimFits. simpl.
  intros (A & B & C & _). rewrite !Z.add_0_r. done.
Qed.

Lemma newServer_fields `{Platform} id sid n dto ctx plan uid :
  let s := newServer id sid n dto ctx plan uid in
  sv_nodeId s = n /\ sv_status s <> Srv_deleting /\ sv_status s <> Srv_suspended.
Proof. simpl. by destruct ctx. Qed.

(** ** Lemmas: frames *)

Definition sameCalls (w w' : World) : Prop := w_calls w' = w_calls w.

#[export] Instance sameCalls_preorder : PreOrder sameCalls.
Proof. split; unfold sameCalls; congruence. Qed.

Section Frames.
Context `{Platform} `{Outside}.

Lemma keeps_onDb_calls f : keeps sameCalls (onDb f).
Proof. intros w r w' E%modify_ok. by destruct E as [_ ->]. Qed.

Lemma keeps_freshN_calls : keeps sameCalls freshN.
Proof. intros w r w' E. unfold freshN in E. by simplify_eq. Qed.

Lemma keeps_record_calls a b c d : keeps sameCalls (record a b c d).
Proof. intros w r w' E%modify_ok. by destruct E as [_ ->]. Qed.

Lemma keeps_withRLS_calls {A} (m : MW A) : keeps sameCalls m -> keeps sameCalls (withRLS m).
Proof. intros Hm. by apply (keeps_withRLS sameCalls). Qed.

Hint Resolve keeps_onDb_calls keeps_freshN_calls keeps_record_calls : keeps.

Lemma generateUniqueShortId_calls k : keeps sameCalls (generateUniqueShortId k).
Proof. induction k as [|k IH]; simpl; keeps_auto. Qed.

Lemma chooseAllocation_calls dto n : keeps sameCalls (chooseAllocation dto n).
Proof. unfold chooseAllocation. keeps_auto. Qed.

Lemma createServerRow_calls s : keeps sameCalls (createServerRow s).
Proof. unfold createServerRow. keeps_auto. Qed.

Lemma updateServer_calls id f : keeps sameCalls (updateServer id f).
Proof. unfold updateServer. keeps_auto. Qed.

Lemma updateAllocation_calls id f : keeps sameCalls (updateAllocation id f).
Proof. unfold updateAllocation. keeps_auto. Qed.

Lemma attachSubscription_calls dto id : keeps sameCalls (attachSubscription dto id).
Proof. unfold attachSubscription. keeps_auto. Qed.

Hint Resolve generateUniqueShortId_calls chooseAllocation_calls createServerRow_calls updateServer_calls
  updateAllocation_calls attachSubscription_calls : keeps.

Lemma createTx_calls now dto n ctx : keeps sameCalls (createTx now dto n ctx).
Proof. unfold createTx, createChecks, createRow, applyTemplate. keeps_auto. Qed.

Lemma createOnNode_setup_calls now dto n : keeps sameCalls (createOnNode now dto None n).
Proof. unfold createOnNode. keeps_auto. apply keeps_withRLS_calls, createTx_calls. Qed.

Lemma schedulerLoop_keeps {A} (R : World -> World -> Prop) `{!PreOrder R} now p (attempt : string -> MW A) k ex :
  (forall n, keeps R (attempt n)) -> keeps R (schedulerLoop now p attempt k ex).
Proof.
  intros Ha. revert ex. induction k as [|k IH]; intros ex; [apply (keeps_throw R)|].
  cbn [schedulerLoop]. keeps_auto.
Qed.

(** A failed reservation with no template leaves the database as it was. *)
Lemma createOnNode_setup_throw now dto n w e w' : createOnNode now dto None n w = (Throw e, w') -> w_db w' = w_db w.
Proof.
  unfold createOnNode. unfold mbind at 1, M_bind at 1. destruct (withRLS _ w) as [[[[sv uid] al]|e0] w1] eqn:E.
  - unfold record, modify, mbind, M_bind, mret, M_ret. done.
  - intros [= <- <-]. by eapply withRLS_throw.
Qed.

Lemma schedulerLoop_throw {A} now p (attempt : string -> MW A) k ex w e w' :
  (forall n w e w', attempt n w = (Throw e, w') -> w_db w' = w_db w) ->
  schedulerLoop now p attempt k ex w = (Throw e, w') -> w_db w' = w_db w.
Proof.
  intros Ha. revert ex w. induction k as [|k IH]; intros ex w; [by intros [= <- <-]|]. cbn [schedulerLoop].
  unfold mbind, M_bind, gets, lift. destruct (selectNode _ _ _ _ _) as [sel|x]; [|by intros [= <- <-]].
  destruct (selected sel) as [[[n nm] sc]|]; [|by intros [= <- <-]]. unfold tryCatch.
  destruct (attempt n w) as [[a|x] w1] eqn:E; [done|]. apply Ha in E. rewrite <- E.
  destruct (isNoSlots x); [by intros [= <- <-]|]. destruct k; [by intros [= <- <-]|]. apply IH.
Qed.

(** The attempts a scheduled call makes: every one but the last failed with an
    error other than [NO_SLOTS], the last one's result is the result. *)
Fixpoint chain {A} (attempt : string -> MW A) (ns : list string) (w : World) (r : Res A) (w' : World) : Prop :=
  match ns with
  | [] => w' = w /\ exists e, r = Throw e
  | n :: rest =>
    (attempt n w = (r, w') /\ rest = []) \/
    exists e w1, attempt n w = (Throw e, w1) /\ isNoSlots e = false /\ chain attempt rest w1 r w'
  end.

Lemma schedulerLoop_chain {A} now p (attempt : string -> MW A) k ex w r w' :
  schedulerLoop now p attempt k ex w = (r, w') ->
  exists ns, NoDup ns /\ (forall n, n ∈ ns -> n ∉ ex) /\ (List.length ns <= k)%nat /\ chain attempt ns w r w'.
Proof.
  revert ex w. induction k as [|k IH]; intros ex w.
  { intros [= <- <-]. exists []. split; [constructor|]. split; [by intros ? ?%not_elem_of_nil|]. split; [done|].
    simpl. eauto. }
  assert (forall e, exists ns : list string, NoDup ns /\ (forall n, n ∈ ns -> n ∉ ex) /\
    (List.length ns <= S k)%nat /\ chain attempt ns w (Throw e) w) as Stop.
  { intros e. exists []. split; [constructor|]. split; [by intros ? ?%not_elem_of_nil|]. split; [simpl; lia|].
    simpl. eauto. }
  cbn [schedulerLoop]. unfold mbind, M_bind, gets, lift.
  destruct (selectNode _ _ _ _ _) as [sel|x] eqn:Es; [|by intros [= <- <-]].
  destruct (selected sel) as [[[n nm] sc]|] eqn:En; [|by intros [= <- <-]].
  pose proof (selectNode_fresh _ _ _ _ _ _ _ _ _ Es En) as Hfresh.
  assert (forall r w1, attempt n w = (r, w1) -> exists ns : list string, NoDup ns /\ (forall m, m ∈ ns -> m ∉ ex) /\
    (List.length ns <= S k)%nat /\ chain attempt ns w r w1) as One.
  { intros r0 w1 E. exists [n]. split_and!; [apply NoDup_singleton| |simpl; lia|by left].
    by intros m ->%list_elem_of_singleton. }
  unfold tryCatch. destruct (attempt n w) as [[a|x] w1] eqn:E; [intros [= <- <-]; by apply One|].
  destruct (isNoSlots x) eqn:Ens; [intros [= <- <-]; by apply One|].
  destruct k as [|k]; [intros [= <- <-]; by apply One|]. intros Hr.
  destruct (IH _ _ Hr) as (ns & Hnd & Hex & Hlen & Hc). exists (n :: ns). split_and!.
  - apply NoDup_cons. split; [|done]. intros Hin. apply (Hex n Hin). apply elem_of_app. right. by apply elem_of_cons; left.
  - intros m [->|Hm]%elem_of_cons; [done|]. intros Hin. apply (Hex m Hm). apply elem_of_app. by left.
  - simpl in *. lia.
  - right. eauto.
Qed.

End Frames.

(** ** Theorems *)

Section Theorems.
Context `{Platform} `{Outside}.

(** C4: a committed create never oversells.  It only commits when the plan is
    live and had a free slot, the node is live, allowed for the plan and
    accepting, and the node's committed usage after the commit, in-flight
    transfers included, is the old usage plus exactly the plan's resources and
    within every ceiling. *)
Theorem create_within_capacity now dto nodeId ctx w sv uid al w' :
  createTx now dto nodeId ctx w = (Ok (sv, uid, al), w') -> transfersHaveServers (w_db w) ->
  exists plan node, checksPassed now (w_db w) dto nodeId plan node /\
    usageForNode (w_db w') nodeId =
      addUsage (usageForNode (w_db w) nodeId) (pl_memoryMb plan) (pl_diskMb plan) (pl_cpuLimitPercent plan) /\
    withinCeilings (rc_inputs (resolveNodeCapacity now (nd_config node))) (usageForNode (w_db w') nodeId).
Proof.
  intros Hr Hfk. apply createTx_ok in Hr as (plan & node & n & sid & [C1 C2 C3 C4 C5 C6 C7 C8]).
  exists plan, node. set (new := newServer _ _ _ _ _ _ _) in *.
  destruct (newServer_fields (uuidv7 n) sid nodeId dto ctx plan uid) as (N1 & N2 & _).
  assert (usageForNode (w_db w') nodeId = addUsage (usageForNode (w_db w) nodeId) (pl_memoryMb plan) (pl_diskMb plan) (pl_cpuLimitPercent plan)) as E.
  { etransitivity; [|exact (usageForNode_insert (w_db w) new nodeId Hfk N1 N2)].
    apply usageForNode_load; [|exact C7]. eapply Forall2_impl; [exact C5|apply sameCore_load]. }
  split_and!; [done|done|]. rewrite E. apply (nodeFits_after _ _ (planRequest plan)). apply C1.
Qed.

Lemma remove_servers id w u w' : remove id w = (Ok u, w') ->
  db_servers (w_db w') = List.filter (fun s => negb (sv_id s =s id)) (db_servers (w_db w)).
Proof.
  unfold remove. intros Hr. apply bind_ok in Hr as (server & ? & E & Hr). unfold getServer in E.
  apply bind_ok in E as (? & ? & E1 & E). apply gets_ok in E1 as [_ ->]. apply orThrow_ok in E as [_ ->].
  apply bind_ok in Hr as (? & w1 & E & Hr). apply agentCall_ok in E as (D & _). rewrite <- D.
  apply bind_ok in Hr as (? & w2 & E2 & Hr). rewrite withRLS_ok in E2. apply modify_ok in Hr as [_ ->]. simpl.
  apply bind_ok in E2 as (? & w3 & E3 & E2). apply modify_ok in E3 as [_ ->].
  unfold deleteServerRow in E2. apply bind_ok in E2 as (row & ? & E & E2). apply gets_ok in E as [_ ->].
  destruct row; [|mok]. by apply modify_ok in E2 as [_ ->].
Qed.

(** Uids do come back: deleting the server a node created last makes its uid the next
    one handed out, because the highest uid is taken over the rows that are left. *)
Theorem uid_reused_after_delete now dto nodeId ctx w sv uid al w1 :
  createTx now dto nodeId ctx w = (Ok (sv, uid, al), w1) ->
  (forall s n, s ∈ db_servers (w_db w) -> (w_next w <= n)%N -> sv_id s <> uuidv7 n) ->
  exists new, new ∈ db_servers (w_db w1) /\ sv_uid new = Some uid /\ sv_nodeId new = nodeId /\
    forall u w2, remove (sv_id new) w1 = (Ok u, w2) -> nextUid (w_db w2) nodeId = uid.
Proof.
  intros Hr Hid. apply createTx_ok in Hr as (plan & node & n & sid & [_ -> _ _ C5 _ _ C8]).
  apply Forall2_app_inv_l in C5 as (l1 & l2 & F1 & F2 & E). inversion F2 as [|? new ? ? Hs F3]; subst. inversion F3; subst.
  apply sameCore_fields in Hs as (I1 & I2 & _ & _ & _ & _ & I3 & _). simpl in I1.
  exists new. rewrite E. split_and!; [apply elem_of_app; right; by apply elem_of_cons; left|done|done|].
  intros u w2 Hr. apply remove_servers in Hr. rewrite E, List.filter_app in Hr. simpl in Hr.
  rewrite (bool_decide_eq_true_2 (sv_id new = sv_id new)) in Hr by done. rewrite app_nil_r in Hr.
  apply nextUid_core. rewrite Hr, List.forallb_filter_id; [done|]. apply forallb_forall. intros s' Hs.
  apply negb_true_iff, bool_decide_eq_false. rewrite I1. apply list_elem_of_In, list_elem_of_lookup in Hs as [i Hi].
  destruct (Forall2_lookup_r _ _ _ _ _ F1 Hi) as (s & Hs & Hc). apply sameCore_fields in Hc as [-> _].
  apply Hid; [by apply list_elem_of_lookup; exists i|lia].
Qed.
(** What a committed create reserves.  The server gets a uid no server of
    the node has or had while in the table, a short id no other server has, and
    an allocation of that node that was free; every other allocation and the
    transfers are untouched. *)
Theorem create_reservation now dto nodeId ctx w sv uid al w' :
  createTx now dto nodeId ctx w = (Ok (sv, uid, al), w') ->
  UID_BASE <= uid /\ (forall s u, s ∈ db_servers (w_db w) -> sv_nodeId s = nodeId -> sv_uid s = Some u -> u < uid) /\
  al ∈ db_allocations (w_db w) /\ al_nodeId al = nodeId /\ al_serverId al = None /\
  (forall a', a' ∈ db_allocations (w_db w') -> al_id a' <> al_id al -> a' ∈ db_allocations (w_db w)) /\
  exists n sid new, List.length (db_servers (w_db w')) = S (List.length (db_servers (w_db w))) /\
    new ∈ db_servers (w_db w') /\ sv_id new = uuidv7 n /\ sv_uid new = Some uid /\ sv_nodeId new = nodeId /\
    (forall s, s ∈ db_servers (w_db w) -> sv_shortId s <> sid) /\
    (forall a', a' ∈ db_allocations (w_db w') -> al_id a' = al_id al -> al_serverId a' = Some (uuidv7 n)).
Proof.
  intros Hr. apply createTx_ok in Hr as (plan & node & n & sid & [C1 C2 C3 C4 C5 C6 C7 C8]).
  destruct C3 as (A1 & A2 & A3). split_and!; try done.
  - subst. apply nextUid_base.
  - intros s u Hs Hn Hu. subst uid. by eapply nextUid_fresh.
  - intros a' Ha Hne. rewrite C6 in Ha. apply updWhere_elem in Ha as (a & Ha & ->).
    destruct (Z.eqb_spec (al_id a) (al_id al)); done.
  - set (new := newServer _ _ _ _ _ _ _) in *. pose proof (Forall2_length _ _ _ C5) as L. rewrite length_app in L.
    apply Forall2_app_inv_l in C5 as (l1 & l2 & F1 & F2 & E). inversion F2 as [|? s' ? ? Hs F3]; subst.
    inversion F3; subst. apply sameCore_fields in Hs as (I1 & I2 & _ & _ & _ & _ & I3 & _).
    exists n, sid, s'. rewrite E. split_and!; try done.
    + rewrite E in L. simpl in *. lia.
    + apply elem_of_app. right. by apply elem_of_cons; left.
    + intros a' Ha Hid. rewrite C6 in Ha. apply updWhere_elem in Ha as (a & Ha & ->).
      destruct (Z.eqb_spec (al_id a) (al_id al)); done.
Qed.

(** Automatic placement tries at most three nodes, all different; a
    [NO_SLOTS] failure is never retried, and the result is that of the last
    attempt.  With an explicit node there is exactly one attempt. *)
Theorem scheduler_retry {A} now planId nodeId (attempt : string -> MW A) w r w' :
  withSchedulerRetry now planId nodeId attempt w = (r, w') ->
  match truthy nodeId with
  | Some n => attempt n w = (r, w')
  | None => exists ns, NoDup ns /\ (List.length ns <= 3)%nat /\ chain attempt ns w r w'
  end.
Proof.
  unfold withSchedulerRetry. destruct (truthy nodeId); [done|].
  intros Hr. apply schedulerLoop_chain in Hr as (ns & ? & _ & ? & ?). eauto.
Qed.

(** Reserving a server after a purchase never talks to an agent, whatever
    the outcome, and is all or nothing: if it fails, over all its attempts, the
    database is exactly as before. *)
Theorem createSetupPending_atomic now input nodeId w r w' :
  createSetupPending now input nodeId w = (r, w') ->
  w_calls w' = w_calls w /\ (forall e, r = Throw e -> w_db w' = w_db w).
Proof.
  intros Hr. split.
  - assert (keeps sameCalls (createSetupPending now input nodeId)) as K.
    { unfold createSetupPending, requireOwner, requirePlan, withSchedulerRetry. keeps_auto.
      - apply createOnNode_setup_calls.
      - apply schedulerLoop_keeps; [apply _|]. intros n. apply createOnNode_setup_calls. }
    by apply K in Hr.
  - intros e ->. revert Hr. unfold createSetupPending, requireOwner, requirePlan, withSchedulerRetry.
    unfold mbind, M_bind, gets, orThrow, mret, M_ret. destruct (findFirst _ (db_users _)); [|by intros [= <- <-]].
    simpl. destruct (findFirst _ (db_plans _)); [|by intros [= <- <-]]. simpl. destruct (truthy nodeId).
    + apply createOnNode_setup_throw.
    + apply (schedulerLoop_throw now (ci_planId input) (createOnNode now input None) 3 []).
      intros. by eapply createOnNode_setup_throw.
Qed.

(** A plan whose slots are all held is refused, on every node, even when
    one of the holders is the paid, serverless subscription the server is being
    created for: it counts itself as occupied. *)
Theorem paid_last_slot_refused now input nodeId ctx w plan m :
  findFirst (fun p => (pl_id p =s ci_planId input) && (pl_deletedAt p =s None)) (db_plans (w_db w)) = Some plan ->
  pl_maxSlots plan = Some m -> occupiedSlots (w_db w) (ci_planId input) = m ->
  createOnNode now input ctx nodeId w =
    (Throw (Conflict ("NO_SLOTS: plan would be " +:+ zstr (m + 1) +:+ ", max is " +:+ zstr m)), w <| w_db := w_db w |>).
Proof.
  intros Hp Hm Ho. unfold createOnNode, withRLS, createTx, createChecks.
  unfold mbind, M_bind, gets, orThrow, lift, mret, M_ret. rewrite Hp. unfold assertSlots. rewrite Hm, Ho.
  by rewrite Z.geb_leb, Z.leb_refl.
Qed.

(** A payment cannot lift a suspension it did not make: an unsuspend that
    requires the billing source is a no-op returning false on a server suspended
    by an admin. *)
Theorem billing_respects_admin_suspension id actor w s :
  findId id (db_servers (w_db w)) = Some s -> sv_suspensionSource s = Some by_admin ->
  unsuspend id actor (Some by_billing) w = (Ok false, w).
Proof.
  intros Hs Ha. unfold unsuspend, getServer, mbind, M_bind, gets, orThrow, mret, M_ret. rewrite Hs.
  by rewrite Ha.
Qed.

Lemma updateServer_run id f w s : findId id (db_servers (w_db w)) = Some s -> serverRowOk (f s) = true ->
  updateServer id f w = (Ok (f s), w <| w_db := (w_db w) <| db_servers := updId id f (db_servers (w_db w)) |> |>).
Proof. intros E C. unfold updateServer, mbind, M_bind, gets, onDb, modify, mret, M_ret. by rewrite E, C. Qed.

Lemma suspend_run now id reason actor src w s :
  findId id (db_servers (w_db w)) = Some s -> serverRowOk (suspendRow now reason src s) = true ->
  exists w1, suspend now id reason actor src w = (Ok tt, w1) /\
    w_db w1 = (w_db w) <| db_servers := updId id (suspendRow now reason src) (db_servers (w_db w)) |>.
Proof.
  intros Hs Hc. unfold suspend, getServer, mbind, M_bind, gets, orThrow, mret, M_ret, withRLS. rewrite Hs.
  rewrite (updateServer_run id _ w s Hs Hc). unfold record, tryCatch, agentCall, mbind, M_bind, gets, call, modify.
  destruct (agentReply _ _); simpl; eauto.
Qed.

Lemma unsuspend_run id actor req w s :
  findId id (db_servers (w_db w)) = Some s ->
  match req with None => false | Some src => negb (sv_suspensionSource s =s Some src) end = false ->
  serverRowOk (unsuspendRow s) = true ->
  exists w1, unsuspend id actor req w = (Ok true, w1) /\
    w_db w1 = (w_db w) <| db_servers := updId id unsuspendRow (db_servers (w_db w)) |>.
Proof.
  intros Hs Hr Hc. unfold unsuspend, getServer, mbind, M_bind, gets, orThrow, mret, M_ret, withRLS. rewrite Hs, Hr.
  rewrite (updateServer_run id _ w s Hs Hc). unfold record, tryCatch, agentCall, mbind, M_bind, gets, call, modify.
  destruct (agentReply _ _); simpl; eauto.
Qed.

(** But the guard can be bypassed: when the billing job suspends a server
    an admin had already suspended, it overwrites the recorded source, and the
    next payment does lift the admin's suspension, whatever the agent answers. *)
Theorem billing_overrides_admin_suspension now id reason w s :
  findId id (db_servers (w_db w)) = Some s -> serverRowOk s = true ->
  sv_status s = Srv_suspended -> sv_suspensionSource s = Some by_admin ->
  exists w1 w2 s2, suspend now id reason None by_billing w = (Ok tt, w1) /\
    unsuspend id None (Some by_billing) w1 = (Ok true, w2) /\
    findId id (db_servers (w_db w2)) = Some s2 /\ sv_status s2 = Srv_ready.
Proof.
  intros Hs Hok Hst Hsrc.
  assert (exists t, sv_templateId s = Some t /\ is_Some (sv_dockerImage s) /\ is_Some (sv_startupCommand s)) as (t & Ht & Hd & Hc).
  { unfold serverRowOk in Hok. rewrite Hst in Hok. destruct (sv_templateId s) as [t|]; [|by rewrite !andb_false_r in Hok].
    exists t. rewrite !andb_true_iff in Hok. destruct Hok as [_ Hok]. simpl in Hok.
    by rewrite andb_true_iff, !bool_decide_eq_true in Hok. }
  assert (serverRowOk (suspendRow now reason by_billing s) = true) as C1.
  { unfold serverRowOk. simpl. destruct Hd as [i Hi], Hc as [c Hc]. by rewrite Ht, Hi, Hc. }
  assert (serverRowOk (unsuspendRow (suspendRow now reason by_billing s)) = true) as C2.
  { unfold serverRowOk. simpl. destruct Hd as [i Hi], Hc as [c Hc]. by rewrite Ht, Hi, Hc. }
  destruct (suspend_run now id reason None by_billing w s Hs C1) as (w1 & Hw1 & D1).
  assert (findId id (db_servers (w_db w1)) = Some (suspendRow now reason by_billing s)) as F1.
  { rewrite D1. by apply findId_updId. }
  destruct (unsuspend_run id None (Some by_billing) w1 _ F1 eq_refl C2) as (w2 & Hw2 & D2).
  exists w1, w2, (unsuspendRow (suspendRow now reason by_billing s)). split_and!; try done.
  rewrite D2. by apply findId_updId.
Qed.

(** An install callback for a suspended server is always refused by the
    database (a suspended row must keep its suspension columns), whatever the
    reported result; the server stays suspended. *)
Theorem install_result_on_suspended now nodeId id ok w s :
  findId id (db_servers (w_db w)) = Some s -> is_Some (sv_suspendedAt s) ->
  exists e w', reportInstallResult now nodeId id ok w = (Throw e, w') /\ w_db w' = w_db w.
Proof.
  intros Hs Hsus. unfold reportInstallResult, withRLS, mbind, M_bind, gets, orThrow, mret, M_ret.
  destruct (findFirst _ _) as [x|]; simpl; [|eauto].
  unfold updateServer, mbind, M_bind, gets. rewrite Hs.
  destruct (serverRowOk _) eqn:C; [exfalso|simpl; eauto]. revert C. unfold serverRowOk.
  destruct ok; simpl; by rewrite (bool_decide_true (is_Some (sv_suspendedAt s))).
Qed.

End Theorems.

(** ** Witnesses *)

#[local] Existing Instance Demo.platform.
#[local] Existing Instance DemoSub.laws.

Module DemoSrv.

#[export] Instance outside : Outside := {| agentReply _ _ := None |}.

Definition input : CreateOnNodeInput := mkCreateInput "u" "p" None None None (Some "id-0").

(** After the payment: one active, serverless subscription on a plan with [m] slots. *)
Definition paid (m : option Z) : World :=
  runOps [OpCreate 1000 "u" "p"; OpStatus 1500 "id-0" Sub_active None "admin"]
    (mkWorld ((w_db DemoSub.world) <| db_plans := [Demo.plan "p" 2990 m] |>) [] [] 0%N []).

Definition suspended (src : SuspensionSource) : Server :=
  mkServer "s" "SHORT" "u" "a" (Some "t") (Some "p") (Some 100000) "srv" (Some "img") (Some "run")
    100 2048 0 10000 500 true 1 1 1 1 Srv_suspended (Some 1) (Some "abuse") (Some src) None "offline".

Definition world (s : Server) : World :=
  mkWorld ((w_db DemoSub.world) <| db_servers := [s] |>) [] [] 0%N [].

End DemoSrv.

#[local] Existing Instance DemoSrv.outside.

Lemma create_within_capacity_witness :
  exists w', usageForNode (w_db w') "b" = mkUsage 2048 10000 100 /\
    withinCeilings (nc_inputs (Demo.config 8192 100000)) (usageForNode (w_db w') "b").
Proof.
  assert (okRun (createTx 2000 DemoSrv.input "b" None (DemoSrv.paid None)) = true) as K by (vm_compute; reflexivity).
  assert (usageForNode (w_db (createTx 2000 DemoSrv.input "b" None (DemoSrv.paid None)).2) "b" = mkUsage 2048 10000 100) as U
    by (vm_compute; reflexivity).
  destruct (createTx 2000 DemoSrv.input "b" None (DemoSrv.paid None)) as [[[[sv uid] al]|e] w'] eqn:E; [|discriminate K].
  destruct (create_within_capacity 2000 DemoSrv.input "b" None _ sv uid al w' E) as (plan & node & Hc & _ & Hw).
  { intros t Ht. exfalso. exact (not_elem_of_nil t Ht). }
  exists w'. split; [exact U|].
  destruct Hc as (_ & _ & _ & _ & _ & Hn & Hid & _).
  assert (node = Demo.node "b" 8192) as ->; [|exact Hw].
  apply list_elem_of_In in Hn. destruct Hn as [<-|[<-|[]]]; [discriminate Hid|reflexivity].
Defined.

Lemma uid_reused_after_delete_witness :
  exists id w1 w2, okRun (createTx 2000 DemoSrv.input "b" None (DemoSrv.paid None)) = true /\
    remove id w1 = (Ok tt, w2) /\ nextUid (w_db w2) "b" = UID_BASE.
Proof.
  set (run := createTx 2000 DemoSrv.input "b" None (DemoSrv.paid None)).
  assert (okRun run = true) as K by (vm_compute; reflexivity).
  assert ((fun r => match r with Ok (_, u, _) => u | Throw _ => 0 end) run.1 = UID_BASE) as U by (vm_compute; reflexivity).
  assert (map (fun s => (remove (sv_id s) run.2).1) (db_servers (w_db run.2)) = [Ok tt]) as R by (vm_compute; reflexivity).
  destruct run as [[[[sv uid] al]|e] w1] eqn:E; [|discriminate K]. simpl in U. cbn [snd] in R.
  destruct (uid_reused_after_delete 2000 DemoSrv.input "b" None _ sv uid al w1 E) as (new & Hin & _ & _ & H).
  { intros s n Hs. exfalso. exact (not_elem_of_nil s Hs). }
  destruct (db_servers (w_db w1)) as [|s [|s2 l]]; [discriminate R| |discriminate R].
  apply list_elem_of_singleton in Hin as ->. cbn [map] in R. injection R as R.
  destruct (remove (sv_id s) w1) as [r w2] eqn:E2. cbn [fst] in R. subst r.
  exists (sv_id s), w1, w2. split; [exact K|split; [exact E2|]]. rewrite <- U. exact (H tt w2 eq_refl).
Defined.

Lemma create_reservation_witness :
  exists sv uid al w', createTx 2000 DemoSrv.input "b" None (DemoSrv.paid None) = (Ok (sv, uid, al), w') /\
    UID_BASE <= uid /\ al_serverId al = None.
Proof.
  assert (okRun (createTx 2000 DemoSrv.input "b" None (DemoSrv.paid None)) = true) as K by (vm_compute; reflexivity).
  destruct (createTx 2000 DemoSrv.input "b" None (DemoSrv.paid None)) as [[[[sv uid] al]|e] w'] eqn:E; [|discriminate K].
  destruct (create_reservation 2000 DemoSrv.input "b" None _ sv uid al w' E) as (Hu & _ & _ & _ & Ha & _).
  exists sv, uid, al, w'. split; [reflexivity|split; [exact Hu|exact Ha]].
Defined.

Lemma scheduler_retry_witness :
  exists r w' ns, withSchedulerRetry 2000 "p" None (createOnNode 2000 DemoSrv.input None) (DemoSrv.paid None) = (r, w') /\
    (List.length ns <= 3)%nat /\ chain (createOnNode 2000 DemoSrv.input None) ns (DemoSrv.paid None) r w'.
Proof.
  destruct (withSchedulerRetry 2000 "p" None (createOnNode 2000 DemoSrv.input None) (DemoSrv.paid None)) as [r w'] eqn:E.
  destruct (scheduler_retry 2000 "p" None _ _ r w' E) as (ns & _ & Hl & Hc). exists r, w', ns.
  split; [reflexivity|split; [exact Hl|exact Hc]].
Defined.

Lemma createSetupPending_atomic_witness :
  exists e w', createSetupPending 2000 DemoSrv.input None (DemoSrv.paid (Some 1)) = (Throw e, w') /\
    w_db w' = w_db (DemoSrv.paid (Some 1)).
Proof.
  assert (okRun (createSetupPending 2000 DemoSrv.input None (DemoSrv.paid (Some 1))) = false) as K by (vm_compute; reflexivity).
  destruct (createSetupPending 2000 DemoSrv.input None (DemoSrv.paid (Some 1))) as [[c|e] w'] eqn:E; [discriminate K|].
  exists e, w'. split; [reflexivity|].
  exact (proj2 (createSetupPending_atomic 2000 DemoSrv.input None _ _ w' E) e eq_refl).
Defined.

Lemma paid_last_slot_refused_witness :
  map (fun s => (sb_id s, sb_userId s, sb_status s, sb_serverId s)) (db_subscriptions (w_db (DemoSrv.paid (Some 1)))) =
    [("id-0", "u", Sub_active, None)] /\ db_servers (w_db (DemoSrv.paid (Some 1))) = [] /\
  fst (createOnNode 2000 DemoSrv.input None "b" (DemoSrv.paid (Some 1))) =
    Throw (Conflict "NO_SLOTS: plan would be 2, max is 1").
Proof.
  split; [vm_compute; reflexivity|split; [vm_compute; reflexivity|]].
  rewrite (paid_last_slot_refused 2000 DemoSrv.input "b" None (DemoSrv.paid (Some 1)) (Demo.plan "p" 2990 (Some 1)) 1);
    vm_compute; reflexivity.
Defined.

Lemma billing_respects_admin_suspension_witness :
  unsuspend "s" None (Some by_billing) (DemoSrv.world (DemoSrv.suspended by_admin)) =
    (Ok false, DemoSrv.world (DemoSrv.suspended by_admin)).
Proof.
  apply (billing_respects_admin_suspension "s" None _ (DemoSrv.suspended by_admin)); reflexivity.
Defined.

Lemma billing_overrides_admin_suspension_witness :
  exists w1 w2 s2, suspend 5 "s" "overdue" None by_billing (DemoSrv.world (DemoSrv.suspended by_admin)) = (Ok tt, w1) /\
    unsuspend "s" None (Some by_billing) w1 = (Ok true, w2) /\
    findId "s" (db_servers (w_db w2)) = Some s2 /\ sv_status s2 = Srv_ready.
Proof.
  apply (billing_overrides_admin_suspension 5 "s" "overdue" _ (DemoSrv.suspended by_admin)); vm_compute; reflexivity.
Defined.

Lemma install_result_on_suspended_witness :
  exists e w', reportInstallResult 5 "a" "s" true (DemoSrv.world (DemoSrv.suspended by_admin)) = (Throw e, w') /\
    w_db w' = w_db (DemoSrv.world (DemoSrv.suspended by_admin)).
Proof.
  apply (install_result_on_suspended 5 "a" "s" true _ (DemoSrv.suspended by_admin)); [reflexivity|].
  exists 1. reflexivity.
Defined.
