(* ===== verification/Plans.v ===== *)
(** Plans: administration of the plan catalogue, and resizing servers to an edited plan.

    [plans/plans.service.ts] with the validators of [plans/dto/plan.dto.ts] and the CHECK
    constraints of [plans] (migrations 0007 and 0015).  The display cache the service
    invalidates after an edit is not part of the state: its deletion never fails. *)

From S2P Require Import Prelude JsNum Capacity Store Scheduler Subscriptions JsString Dto Variables Servers.
From Stdlib Require Import Ascii String Lia.

Local Open Scope Z_scope.

(** ** Requests *)

Record PlanCommercialFields := mkCommercial {
  cf_priceCents : Field Z; cf_compareAtPriceCents : Field Z; cf_currency : Field string;
  cf_billingPeriod : Field BillingPeriod; cf_planFamily : Field string; cf_backupRetentionDays : Field Z;
  cf_sortOrder : Field Z; cf_playersMin : Field Z; cf_playersMax : Field Z; cf_modsMin : Field Z; cf_modsMax : Field Z;
  cf_pluginsMin : Field Z; cf_pluginsMax : Field Z; cf_maxServers : Field Z; cf_maxSlots : Field Z;
  cf_isFeatured : Field bool; cf_highlightLabel : Field string; cf_hardwareLabel : Field string }.

Record PlanResourceFields := mkResources {
  xf_description : Field string; xf_cpuLimitPercent : Field Z; xf_swapMb : Field Z; xf_ioWeight : Field Z;
  xf_oomKillEnabled : Field bool; xf_maxDatabases : Field Z; xf_maxBackups : Field Z; xf_maxAllocations : Field Z;
  xf_maxSchedules : Field Z; xf_isPublic : Field bool }.

Record CreatePlanDto := mkCreatePlan {
  cp_name : string; cp_slug : string; cp_memoryMb : Z; cp_diskMb : Z; cp_resources : PlanResourceFields;
  cp_commercial : PlanCommercialFields }.

Record UpdatePlanDto := mkUpdatePlan {
  up_name : Field string; up_memoryMb : Field Z; up_diskMb : Field Z; up_resources : PlanResourceFields;
  up_commercial : PlanCommercialFields }.

Definition isUpper (c : ascii) : bool := (65 <=? code c)%N && (code c <=? 90)%N.
Definition slugChar (c : ascii) : bool := ((97 <=? code c)%N && (code c <=? 122)%N) || isDigit c || Ascii.eqb c "-".
Definition validCommercial (f : PlanCommercialFields) : bool :=
  minOk 0 (cf_priceCents f) && minOk 0 (cf_compareAtPriceCents f) &&
  match cf_currency f with Val c => lengthOk 3 3 c && everyChar isUpper c && negb (c =s "") | _ => true end &&
  match cf_billingPeriod f with Val p => negb (p =s period_none) | _ => true end &&
  lengthOkF 1 100 (cf_planFamily f) && minOk 1 (cf_backupRetentionDays f) && minOk 0 (cf_sortOrder f) &&
  minOk 0 (cf_playersMin f) && minOk 0 (cf_playersMax f) && minOk 0 (cf_modsMin f) && minOk 0 (cf_modsMax f) &&
  minOk 0 (cf_pluginsMin f) && minOk 0 (cf_pluginsMax f) && minOk 0 (cf_maxServers f) && minOk 0 (cf_maxSlots f) &&
  lengthOkF 1 60 (cf_highlightLabel f) && lengthOkF 1 120 (cf_hardwareLabel f).

Definition validResources (f : PlanResourceFields) : bool :=
  minOk 0 (xf_cpuLimitPercent f) && minOk (-1) (xf_swapMb f) && minOk 10 (xf_ioWeight f) && minOk 0 (xf_maxDatabases f) &&
  minOk 0 (xf_maxBackups f) && minOk 1 (xf_maxAllocations f) && minOk 0 (xf_maxSchedules f).

Definition validCreatePlanDto (dto : CreatePlanDto) : bool :=
  lengthOk 1 191 (cp_name dto) && everyChar slugChar (cp_slug dto) && lengthOk 1 191 (cp_slug dto) &&
  (0 <=? cp_memoryMb dto) && (0 <=? cp_diskMb dto) && validResources (cp_resources dto) && validCommercial (cp_commercial dto).

Definition validUpdatePlanDto (dto : UpdatePlanDto) : bool :=
  lengthOkF 1 191 (up_name dto) && minOk 0 (up_memoryMb dto) && minOk 0 (up_diskMb dto) &&
  validResources (up_resources dto) && validCommercial (up_commercial dto).

(** ** Rows *)

(** [min != null && max != null && min > max]. *)
Definition badRange (lo hi : option Z) : bool := match lo, hi with Some a, Some b => b <? a | _, _ => false end.

Definition assertRange (minKey maxKey : string) (lo hi : option Z) : Res unit :=
  if badRange lo hi then Throw (BadRequest (minKey +:+ " must be <= " +:+ maxKey)) else Ok tt.

Definition assertRecommendationRanges (playersMin playersMax modsMin modsMax pluginsMin pluginsMax : option Z) : Res unit :=
  assertRange "recommendedPlayersMin" "recommendedPlayersMax" playersMin playersMax ;;
  assertRange "recommendedModsMin" "recommendedModsMax" modsMin modsMax ;;
  assertRange "recommendedPluginsMin" "recommendedPluginsMax" pluginsMin pluginsMax.

Definition badPrice (price compareAt : option Z) : bool := match compareAt, price with Some c, Some p => c <=? p | _, _ => false end.

Definition assertComparePrice (price compareAt : option Z) : Res unit :=
  if badPrice price compareAt then Throw (BadRequest "compareAtPriceCents must be greater than priceCents") else Ok tt.

Definition planInts (p : Plan) : list Z :=
  let d := pl_details p in
  [pl_memoryMb p; pl_diskMb p; pl_swapMb p; pl_cpuLimitPercent p; pl_ioWeight p; pl_maxDatabases p; pl_maxBackups p;
   pl_maxAllocations p; pl_maxSchedules p; pl_priceCents p; pd_sortOrder d; pd_backupRetentionDays d] ++
  omap id [pl_maxSlots p; pd_playersMin d; pd_playersMax d; pd_modsMin d; pd_modsMax d; pd_pluginsMin d; pd_pluginsMax d;
   pd_maxServers d; pd_compareAtPriceCents d].

(** The CHECK constraints of [plans]. *)
Definition planRowOk (p : Plan) : bool :=
  let d := pl_details p in
  negb (badRange (pd_playersMin d) (pd_playersMax d)) && negb (badRange (pd_modsMin d) (pd_modsMax d)) &&
  negb (badRange (pd_pluginsMin d) (pd_pluginsMax d)) && negb (badPrice (Some (pl_priceCents p)) (pd_compareAtPriceCents d)) &&
  match pd_maxServers d with Some n => 0 <=? n | None => true end.

(** What the database says to a row: the column widths, then the constraints. *)
Definition acceptRow (p : Plan) : Res unit :=
  if negb (forallb fitsInt4 (planInts p)) then Throw (External "Unable to fit integer value into an INT4 (32-bit signed integer).")
  else if negb (planRowOk p) then Throw (CheckViolation "plans") else Ok tt.

Definition livePlan (id : string) (p : Plan) : bool := (pl_id p =s id) && (pl_deletedAt p =s None).

Definition newPlan (id : string) (dto : CreatePlanDto) : Plan :=
  let r := cp_resources dto in let c := cp_commercial dto in
  {| pl_id := id; pl_name := cp_name dto; pl_deletedAt := None; pl_isPublic := default true (given (xf_isPublic r));
     pl_memoryMb := cp_memoryMb dto; pl_diskMb := cp_diskMb dto; pl_swapMb := default 0 (given (xf_swapMb r));
     pl_cpuLimitPercent := default 100 (given (xf_cpuLimitPercent r)); pl_ioWeight := default 500 (given (xf_ioWeight r));
     pl_oomKillEnabled := default false (given (xf_oomKillEnabled r)); pl_maxDatabases := default 0 (given (xf_maxDatabases r));
     pl_maxBackups := default 0 (given (xf_maxBackups r)); pl_maxAllocations := default 1 (given (xf_maxAllocations r));
     pl_maxSchedules := default 5 (given (xf_maxSchedules r)); pl_maxSlots := given (cf_maxSlots c);
     pl_priceCents := default 0 (given (cf_priceCents c)); pl_currency := default "BRL" (given (cf_currency c));
     pl_billingPeriod := default monthly (given (cf_billingPeriod c));
     pl_details := {| pd_slug := cp_slug dto; pd_description := given (xf_description r);
       pd_sortOrder := default 0 (given (cf_sortOrder c)); pd_backupRetentionDays := default 7 (given (cf_backupRetentionDays c));
       pd_planFamily := given (cf_planFamily c); pd_playersMin := given (cf_playersMin c); pd_playersMax := given (cf_playersMax c);
       pd_modsMin := given (cf_modsMin c); pd_modsMax := given (cf_modsMax c); pd_pluginsMin := given (cf_pluginsMin c);
       pd_pluginsMax := given (cf_pluginsMax c); pd_maxServers := given (cf_maxServers c);
       pd_compareAtPriceCents := given (cf_compareAtPriceCents c); pd_isFeatured := default false (given (cf_isFeatured c));
       pd_highlightLabel := given (cf_highlightLabel c); pd_hardwareLabel := given (cf_hardwareLabel c) |} |}.

(** [plan.update({ data: dto })] on one row. *)
Definition patchPlan (dto : UpdatePlanDto) (p : Plan) : Res Plan :=
  let r := up_resources dto in let c := up_commercial dto in let d := pl_details p in
  name ← patch (up_name dto) (pl_name p);
  isPublic ← patch (xf_isPublic r) (pl_isPublic p);
  memoryMb ← patch (up_memoryMb dto) (pl_memoryMb p);
  diskMb ← patch (up_diskMb dto) (pl_diskMb p);
  swapMb ← patch (xf_swapMb r) (pl_swapMb p);
  cpuLimitPercent ← patch (xf_cpuLimitPercent r) (pl_cpuLimitPercent p);
  ioWeight ← patch (xf_ioWeight r) (pl_ioWeight p);
  oomKillEnabled ← patch (xf_oomKillEnabled r) (pl_oomKillEnabled p);
  maxDatabases ← patch (xf_maxDatabases r) (pl_maxDatabases p);
  maxBackups ← patch (xf_maxBackups r) (pl_maxBackups p);
  maxAllocations ← patch (xf_maxAllocations r) (pl_maxAllocations p);
  maxSchedules ← patch (xf_maxSchedules r) (pl_maxSchedules p);
  priceCents ← patch (cf_priceCents c) (pl_priceCents p);
  currency ← patch (cf_currency c) (pl_currency p);
  billingPeriod ← patch (cf_billingPeriod c) (pl_billingPeriod p);
  sortOrder ← patch (cf_sortOrder c) (pd_sortOrder d);
  backupRetentionDays ← patch (cf_backupRetentionDays c) (pd_backupRetentionDays d);
  isFeatured ← patch (cf_isFeatured c) (pd_isFeatured d);
  Ok (mkPlan (pl_id p) name (pl_deletedAt p) isPublic memoryMb diskMb swapMb cpuLimitPercent ioWeight oomKillEnabled maxDatabases
        maxBackups maxAllocations maxSchedules (patchNull (cf_maxSlots c) (pl_maxSlots p)) priceCents currency billingPeriod
        (mkPlanDetails (pd_slug d) (patchNull (xf_description r) (pd_description d)) sortOrder backupRetentionDays
          (patchNull (cf_planFamily c) (pd_planFamily d)) (patchNull (cf_playersMin c) (pd_playersMin d))
          (patchNull (cf_playersMax c) (pd_playersMax d)) (patchNull (cf_modsMin c) (pd_modsMin d)) (patchNull (cf_modsMax c) (pd_modsMax d))
          (patchNull (cf_pluginsMin c) (pd_pluginsMin d)) (patchNull (cf_pluginsMax c) (pd_pluginsMax d))
          (patchNull (cf_maxServers c) (pd_maxServers d)) (patchNull (cf_compareAtPriceCents c) (pd_compareAtPriceCents d)) isFeatured
          (patchNull (cf_highlightLabel c) (pd_highlightLabel d)) (patchNull (cf_hardwareLabel c) (pd_hardwareLabel d)))).

Definition removedPlan (now : Z) (p : Plan) : Plan :=
  mkPlan (pl_id p) (pl_name p) (Some now) (pl_isPublic p) (pl_memoryMb p) (pl_diskMb p) (pl_swapMb p) (pl_cpuLimitPercent p)
    (pl_ioWeight p) (pl_oomKillEnabled p) (pl_maxDatabases p) (pl_maxBackups p) (pl_maxAllocations p) (pl_maxSchedules p)
    (pl_maxSlots p) (pl_priceCents p) (pl_currency p) (pl_billingPeriod p) (pl_details p).

(** ** Operations *)

Definition getPlan (id : string) : MW Plan :=
  d ← gets w_db; orThrow (findFirst (livePlan id) (db_plans d)) (NotFound "Plan not found").

Definition createPlan `{Platform} (dto : CreatePlanDto) : MW Plan :=
  let c := cp_commercial dto in
  lift (assertRecommendationRanges (given (cf_playersMin c)) (given (cf_playersMax c)) (given (cf_modsMin c)) (given (cf_modsMax c))
          (given (cf_pluginsMin c)) (given (cf_pluginsMax c))) ;;
  lift (assertComparePrice (Some (default 0 (given (cf_priceCents c)))) (given (cf_compareAtPriceCents c))) ;;
  d ← gets w_db;
  throwIf (existsb (fun p => (pd_slug (pl_details p) =s cp_slug dto) && (pl_deletedAt p =s None)) (db_plans d)) (Conflict "slug already in use") ;;
  n ← freshN;
  let row := newPlan (uuidv7 n) dto in
  lift (acceptRow row) ;;
  onDb (fun d => d <| db_plans := db_plans d ++ [row] |>) ;;
  mret row.

(** The checks see [{ ...current, ...dto }].  The DTO class declares its properties, so an
    instance has all of them, the ones that were not sent with the value [undefined], and
    the spread puts those over the current values. *)
Definition updatePlan (id : string) (dto : UpdatePlanDto) : MW Plan :=
  current ← getPlan id;
  let c := up_commercial dto in
  lift (assertRecommendationRanges (given (cf_playersMin c)) (given (cf_playersMax c)) (given (cf_modsMin c)) (given (cf_modsMax c))
          (given (cf_pluginsMin c)) (given (cf_pluginsMax c))) ;;
  lift (assertComparePrice (given (cf_priceCents c)) (given (cf_compareAtPriceCents c))) ;;
  row ← lift (patchPlan dto current);
  lift (acceptRow row) ;;
  onDb (fun d => d <| db_plans := updId id (fun _ => row) (db_plans d) |>) ;;
  mret row.

Definition removePlan (now : Z) (id : string) : MW unit :=
  getPlan id ;;
  d ← gets w_db;
  throwIf (countWhere (fun s => sv_planId s =s Some id) (db_servers d) >? 0) (Conflict "Plan is in use by existing servers") ;;
  onDb (fun d => d <| db_plans := updId id (removedPlan now) (db_plans d) |>).

Definition listAllowedNodes (planId : string) : MW (list PlanNode) :=
  getPlan planId ;;
  d ← gets w_db;
  mret (sortBy (fun a b => pn_priority b <=? pn_priority a) (List.filter (fun r => pn_planId r =s planId) (db_planNodes d))).

(** One [planNode.create] of the transaction: the node exists, and the pair is new. *)
Definition addPlanNode (planId : string) (n : string * option Z) : MW unit :=
  d ← gets w_db;
  throwIf (negb (existsb (fun x => nd_id x =s fst n) (db_nodes d))) (CheckViolation "plan_nodes_node_id_fkey") ;;
  throwIf (existsb (fun r => (pn_planId r =s planId) && (pn_nodeId r =s fst n)) (db_planNodes d)) (UniqueViolation "plan_nodes_pkey") ;;
  onDb (fun d => d <| db_planNodes := db_planNodes d ++ [mkPlanNode planId (fst n) (default 0 (snd n))] |>).

Definition setAllowedNodes (planId : string) (nodes : list (string * option Z)) (actorId : string) : MW unit :=
  getPlan planId ;;
  withRLS (
    onDb (fun d => d <| db_planNodes := List.filter (fun r => negb (pn_planId r =s planId)) (db_planNodes d) |>) ;;
    forEach nodes (addPlanNode planId)) ;;
  record "admin.plan.nodes.set" (Some actorId) "plan" planId.

(** ** Drift *)

(** The plan columns copied onto a server when it is created. *)
Inductive DriftableField := f_cpuLimitPercent | f_memoryMb | f_swapMb | f_diskMb | f_ioWeight | f_oomKillEnabled | f_maxDatabases | f_maxBackups | f_maxSchedules.
#[export] Instance DriftableField_eq : EqDecision DriftableField.
Proof. solve_decision. Defined.

Definition LIVE_RESOURCE_FIELDS : list DriftableField := [f_cpuLimitPercent; f_memoryMb; f_swapMb; f_diskMb; f_ioWeight].

Definition driftsIn (s : Server) (p : Plan) (f : DriftableField) : bool :=
  match f with
  | f_cpuLimitPercent => negb (sv_cpuLimitPercent s =? pl_cpuLimitPercent p)
  | f_memoryMb => negb (sv_memoryMb s =? pl_memoryMb p)
  | f_swapMb => negb (sv_swapMb s =? pl_swapMb p)
  | f_diskMb => negb (sv_diskMb s =? pl_diskMb p)
  | f_ioWeight => negb (sv_ioWeight s =? pl_ioWeight p)
  | f_oomKillEnabled => negb (Bool.eqb (sv_oomKillEnabled s) (pl_oomKillEnabled p))
  | f_maxDatabases => negb (sv_maxDatabases s =? pl_maxDatabases p)
  | f_maxBackups => negb (sv_maxBackups s =? pl_maxBackups p)
  | f_maxSchedules => negb (sv_maxSchedules s =? pl_maxSchedules p)
  end.

Definition DRIFTABLE_FIELDS : list DriftableField :=
  [f_cpuLimitPercent; f_memoryMb; f_swapMb; f_diskMb; f_ioWeight; f_oomKillEnabled; f_maxDatabases; f_maxBackups; f_maxSchedules].

Definition diffFields (s : Server) (p : Plan) : list DriftableField := List.filter (driftsIn s p) DRIFTABLE_FIELDS.

(** A drifted server with the fields that differ. *)
Definition DriftRow : Type := Server * list DriftableField.

Definition drifted (p : Plan) (s : Server) : bool :=
  (sv_planId s =s Some (pl_id p)) && negb (sv_status s =s Srv_deleting) && negb (diffFields s p =s []).

Definition computeDriftRows (p : Plan) (d : Db) : list DriftRow :=
  map (fun s => (s, diffFields s p)) (List.filter (drifted p) (db_servers d)).

Definition deltaStep (p : Plan) (deltas : gmap string ResourceRequest) (row : DriftRow) : gmap string ResourceRequest :=
  let s := fst row in
  let old := default (mkRequest 0 0 0) (deltas !! sv_nodeId s) in
  <[sv_nodeId s := mkRequest (r_memoryMb old + (pl_memoryMb p - sv_memoryMb s)) (r_diskMb old + (pl_diskMb p - sv_diskMb s))
                     (r_cpuPercent old + (pl_cpuLimitPercent p - sv_cpuLimitPercent s))]> deltas.

Definition computeNodeDeltas (p : Plan) (rows : list DriftRow) : gmap string ResourceRequest := fold_left (deltaStep p) rows ∅.

(** [new Set(l)]: the distinct elements, in order of first occurrence. *)
Definition distinct (l : list string) : list string := rev (remove_dups (rev l)).

(** The nodes of the rows in ascending order. *)
Definition nodeIdsOf (rows : list DriftRow) : list string :=
  sortBy (leOf String.compare) (distinct (map (fun r => sv_nodeId (fst r)) rows)).

Section Apply.
Context `{Outside} (now : Z).

Definition liveNode (id : string) (n : Node) : bool := (nd_id n =s id) && (nd_deletedAt n =s None).

Definition shortfall (d : Db) (deltas : gmap string ResourceRequest) (nodeId : string) : option string :=
  match findFirst (liveNode nodeId) (db_nodes d) with
  | None => None
  | Some node =>
    match nodeFitReasons (rc_inputs (resolveNodeCapacity now (nd_config node))) (usageForNode d nodeId)
            (default (mkRequest 0 0 0) (deltas !! nodeId)) with
    | [] => None
    | reasons => Some (nd_name node +:+ " (" +:+ join "; " reasons +:+ ")")
    end
  end.

(** One entry of the preview: the node, the reasons it would refuse, the servers concerned. *)
Definition capacityPreview (d : Db) (p : Plan) (rows : list DriftRow) : list (string * string * list string * list string) :=
  let deltas := computeNodeDeltas p rows in
  omap (fun nodeId =>
    node ← findFirst (liveNode nodeId) (db_nodes d);
    Some (nodeId, nd_name node,
          nodeFitReasons (rc_inputs (resolveNodeCapacity now (nd_config node))) (usageForNode d nodeId) (default (mkRequest 0 0 0) (deltas !! nodeId)),
          map (fun r => sv_id (fst r)) (List.filter (fun r => sv_nodeId (fst r) =s nodeId) rows)))
    (distinct (map (fun r => sv_nodeId (fst r)) rows)).

Definition drift (planId : string) : MW (list DriftRow * list (string * string * list string * list string)) :=
  plan ← getPlan planId;
  d ← gets w_db;
  let rows := computeDriftRows plan d in
  mret (rows, capacityPreview d plan rows).

Definition resized (p : Plan) (s : Server) : Server :=
  s <| sv_cpuLimitPercent := pl_cpuLimitPercent p |> <| sv_memoryMb := pl_memoryMb p |> <| sv_swapMb := pl_swapMb p |>
    <| sv_diskMb := pl_diskMb p |> <| sv_ioWeight := pl_ioWeight p |> <| sv_oomKillEnabled := pl_oomKillEnabled p |>
    <| sv_maxDatabases := pl_maxDatabases p |> <| sv_maxBackups := pl_maxBackups p |> <| sv_maxSchedules := pl_maxSchedules p |>.

(** The locked transaction: every node is checked before any server is written. *)
Definition applyTx (planId : string) : MW (list DriftRow * Plan) :=
  withRLS (
    plan ← getPlan planId;
    d ← gets w_db;
    let rows := computeDriftRows plan d in
    if rows =s [] then mret (rows, plan)
    else
      let deltas := computeNodeDeltas plan rows in
      let shortfalls := omap (shortfall d deltas) (nodeIdsOf rows) in
      throwIf (negb (shortfalls =s []))
        (Conflict ("NO_CAPACITY: applying this plan would exceed capacity on " +:+ zstr (Z.of_nat (List.length shortfalls)) +:+
                   " node(s) — " +:+ join " | " shortfalls)) ;;
      onDb (fun d => d <| db_servers := updWhere (fun s => bool_decide (sv_id s ∈ map (fun r => sv_id (fst r)) rows)) (resized plan) (db_servers d) |>) ;;
      mret (rows, plan)).

Definition touchesLiveResources (row : DriftRow) : bool := existsb (fun f => bool_decide (f ∈ LIVE_RESOURCE_FIELDS)) (snd row).

(** The push to the agents after the commit; a failing one is listed and the others go on. *)
Definition pushLimits (p : Plan) (acc : Z * list (string * string)) (row : DriftRow) : MW (Z * list (string * string)) :=
  let '(applied, failures) := acc in
  if touchesLiveResources row then
    let s := fst row in
    reply ← tryCatch (agentCall (AgentLimits (sv_nodeId s) (sv_id s) (pl_cpuLimitPercent p) (pl_memoryMb p) (pl_swapMb p) (pl_diskMb p) (pl_ioWeight p)) ;; mret None)
              (fun e => mret (Some e));
    match reply with
    | None => mret (applied + 1, failures)
    | Some e => mret (applied, failures ++ [(sv_id s, message e)])
    end
  else mret (applied + 1, failures).

Definition applyToServers (planId actorId : string) : MW (Z * list (string * string)) :=
  getPlan planId ;;
  '(rows, plan) ← applyTx planId;
  result ← forFold rows (0, []) (pushLimits plan);
  record "plan.apply" (Some actorId) "plan" planId ;;
  mret result.

End Apply.
