(* ===== verification/PlanRules.v ===== *)
(** PlanRules: what the administration of plans guarantees.

    The catalogue stays well formed under every edit, and applying a plan to its servers
    either resizes all of them within the capacity of their nodes or none. *)

From S2P Require Import Prelude JsNum Capacity Store Scheduler Subscriptions JsString Dto Variables Servers Plans.
From Stdlib Require Import Ascii String Lia.

Local Open Scope Z_scope.

(** ** A well-formed catalogue *)

(** A plan the rest of the platform can sell: non-negative resources and price, the weights
    and quotas in range, every number in its column, the published ranges in order. *)
Definition planWf (p : Plan) : Prop :=
  0 <= pl_memoryMb p /\ 0 <= pl_diskMb p /\ -1 <= pl_swapMb p /\ 0 <= pl_cpuLimitPercent p /\ 10 <= pl_ioWeight p /\
  0 <= pl_maxDatabases p /\ 0 <= pl_maxBackups p /\ 1 <= pl_maxAllocations p /\ 0 <= pl_maxSchedules p /\ 0 <= pl_priceCents p /\
  pl_billingPeriod p <> period_none /\ (forall n, pl_maxSlots p = Some n -> 0 <= n) /\
  (forall c, pd_compareAtPriceCents (pl_details p) = Some c -> pl_priceCents p < c) /\
  Forall (fun z => -2147483648 <= z <= 2147483647) (planInts p) /\ planRowOk p = true.

Definition liveSlugs (l : list Plan) : list string := map (fun p => pd_slug (pl_details p)) (List.filter (fun p => pl_deletedAt p =s None) l).

Definition plansOk (l : list Plan) : Prop := Forall planWf l /\ NoDup (liveSlugs l).

Lemma acceptRow_ok p : acceptRow p = Ok tt -> Forall (fun z => -2147483648 <= z <= 2147483647) (planInts p) /\ planRowOk p = true.
Proof.
  unfold acceptRow. destruct (forallb fitsInt4 (planInts p)) eqn:Ef; [|done]. destruct (planRowOk p); [|done]. intros _. split; [|done].
  apply Forall_forall. intros z Hz. rewrite forallb_forall in Ef. apply list_elem_of_In in Hz. specialize (Ef z Hz).
  unfold fitsInt4 in Ef. lia.
Qed.

(** The last column of a row that passed its constraints. *)
Lemma rowOk_compare p c : planRowOk p = true -> pd_compareAtPriceCents (pl_details p) = Some c -> pl_priceCents p < c.
Proof.
  unfold planRowOk. cbv zeta. rewrite !andb_true_iff. intros ((_ & Hb) & _) Hc. unfold badPrice in Hb. rewrite Hc in Hb. lia.
Qed.

Lemma newPlan_wf id dto : validCreatePlanDto dto = true -> acceptRow (newPlan id dto) = Ok tt -> planWf (newPlan id dto).
Proof.
  intros Hv [Hi Hr]%acceptRow_ok. unfold validCreatePlanDto, validResources, validCommercial in Hv.
  rewrite !andb_true_iff in Hv. destruct_and! Hv. unfold planWf. cbn [newPlan pl_memoryMb pl_diskMb pl_swapMb pl_cpuLimitPercent pl_ioWeight
    pl_maxDatabases pl_maxBackups pl_maxAllocations pl_maxSchedules pl_priceCents pl_billingPeriod pl_maxSlots].
  split_and!; try (apply minOk_default; [done|lia]); try lia; try done.
  - match goal with H : match cf_billingPeriod _ with _ => _ end = true |- _ => destruct (cf_billingPeriod (cp_commercial dto)); simpl in *; try done end.
    match goal with H : negb (_ =s _) = true |- _ => apply negb_true_iff, bool_decide_eq_false in H; done end.
  - intros n Hn. by eapply minOk_given.
  - intros c Hc. apply (rowOk_compare (newPlan id dto) c Hr Hc).
Qed.

(** A successful patch, column by column. *)
Lemma patchPlan_ok dto p q : patchPlan dto p = Ok q ->
  let r := up_resources dto in let c := up_commercial dto in
  pl_id q = pl_id p /\ pl_deletedAt q = pl_deletedAt p /\ pd_slug (pl_details q) = pd_slug (pl_details p) /\
  pl_maxSlots q = patchNull (cf_maxSlots c) (pl_maxSlots p) /\
  patch (up_memoryMb dto) (pl_memoryMb p) = Ok (pl_memoryMb q) /\ patch (up_diskMb dto) (pl_diskMb p) = Ok (pl_diskMb q) /\
  patch (xf_swapMb r) (pl_swapMb p) = Ok (pl_swapMb q) /\ patch (xf_cpuLimitPercent r) (pl_cpuLimitPercent p) = Ok (pl_cpuLimitPercent q) /\
  patch (xf_ioWeight r) (pl_ioWeight p) = Ok (pl_ioWeight q) /\ patch (xf_maxDatabases r) (pl_maxDatabases p) = Ok (pl_maxDatabases q) /\
  patch (xf_maxBackups r) (pl_maxBackups p) = Ok (pl_maxBackups q) /\ patch (xf_maxAllocations r) (pl_maxAllocations p) = Ok (pl_maxAllocations q) /\
  patch (xf_maxSchedules r) (pl_maxSchedules p) = Ok (pl_maxSchedules q) /\ patch (cf_priceCents c) (pl_priceCents p) = Ok (pl_priceCents q) /\
  patch (cf_billingPeriod c) (pl_billingPeriod p) = Ok (pl_billingPeriod q).
Proof.
  unfold patchPlan. intros E. patches E. done.
Qed.

Lemma patchPlan_wf dto p q : validUpdatePlanDto dto = true -> planWf p -> patchPlan dto p = Ok q -> acceptRow q = Ok tt -> planWf q.
Proof.
  intros Hv Hp E [Hi Hr]%acceptRow_ok. apply patchPlan_ok in E. cbv zeta in E. destruct_and! E. unfold planWf in Hp. destruct_and! Hp.
  unfold validUpdatePlanDto, validResources, validCommercial in Hv. rewrite !andb_true_iff in Hv. destruct_and! Hv.
  unfold planWf. split_and!; try (by eapply minOk_patch); try done.
  - match goal with H : patch (cf_billingPeriod _) _ = _ |- _ => revert H end. destruct (cf_billingPeriod (up_commercial dto)); simpl in *; intros [= <-]; [done|].
    match goal with H : negb (_ =s _) = true |- _ => apply negb_true_iff, bool_decide_eq_false in H; done end.
  - intros n Hn. match goal with H : pl_maxSlots q = patchNull _ _ |- _ => rewrite H in Hn end. by apply (minOk_patchNull 0 (cf_maxSlots (up_commercial dto)) (pl_maxSlots p)).
  - intros c Hc. by apply rowOk_compare.
Qed.

Lemma liveSlugs_app l p : liveSlugs (l ++ [p]) = liveSlugs l ++ (if pl_deletedAt p =s None then [pd_slug (pl_details p)] else []).
Proof. unfold liveSlugs. rewrite List.filter_app, map_app. simpl. by destruct (pl_deletedAt p =s None). Qed.

Lemma liveSlugs_updId id f l :
  (forall p, p ∈ l -> pl_id p = id ->
     (pl_deletedAt (f p) = pl_deletedAt p \/ pl_deletedAt (f p) <> None) /\ pd_slug (pl_details (f p)) = pd_slug (pl_details p)) ->
  sublist (liveSlugs (updId id f l)) (liveSlugs l).
Proof.
  unfold liveSlugs, updId. induction l as [|p l IH]; simpl; intros Hf; [done|]. change (rid p) with (pl_id p).
  destruct (pl_id p =s id) eqn:Ei; simpl.
  - apply bool_decide_eq_true in Ei. destruct (Hf p ltac:(apply elem_of_cons; by left) Ei) as [[Hd|Hd] Hs].
    + rewrite Hd. destruct (pl_deletedAt p =s None); simpl; [by rewrite Hs|done].
    + rewrite (bool_decide_eq_false_2 (pl_deletedAt (f p) = None)) by done. destruct (pl_deletedAt p =s None); simpl; [by apply sublist_cons|done].
  - assert (sublist (map (fun p => pd_slug (pl_details p)) (List.filter (fun p => pl_deletedAt p =s None) (updFirst (fun r => rid r =s id) f l)))
      (map (fun p => pd_slug (pl_details p)) (List.filter (fun p => pl_deletedAt p =s None) l))) as Hl.
    { apply IH. intros q Hq. apply Hf, elem_of_cons. by right. }
    destruct (pl_deletedAt p =s None); simpl; [by apply sublist_skip|done].
Qed.

Lemma updId_planIds id (row : Plan) l : pl_id row = id -> map pl_id (updId id (fun _ => row) l) = map pl_id l.
Proof.
  intros Hr. unfold updId. induction l as [|p l IH]; simpl; [done|]. change (rid p) with (pl_id p).
  destruct (pl_id p =s id) eqn:E; simpl; [|by rewrite IH]. apply bool_decide_eq_true in E. congruence.
Qed.

Section Catalogue.
Context `{Platform} `{Outside}.

Lemma getPlan_inv id w r w' : getPlan id w = (r, w') -> w' = w /\
  match r with Ok p => p ∈ db_plans (w_db w) /\ pl_id p = id /\ pl_deletedAt p = None | Throw e => e = NotFound "Plan not found" end.
Proof.
  unfold getPlan. rewrite bind_gets. unfold orThrow. destruct (findFirst (livePlan id) _) as [p|] eqn:E; intros [= <- <-]; [|done].
  apply findFirst_some in E as [Hin Hp]. unfold livePlan in Hp. rewrite andb_true_iff, !bool_decide_eq_true in Hp. naive_solver.
Qed.

Lemma createPlan_ok dto w r w' : validCreatePlanDto dto = true -> plansOk (db_plans (w_db w)) -> createPlan dto w = (r, w') ->
  plansOk (db_plans (w_db w')) /\
  (map pl_id (db_plans (w_db w')) = map pl_id (db_plans (w_db w)) /\ (w_next w <= w_next w')%N \/
   map pl_id (db_plans (w_db w')) = map pl_id (db_plans (w_db w)) ++ [uuidv7 (w_next w)] /\ w_next w' = (w_next w + 1)%N).
Proof.
  intros Hv [Hwf Hnd] E. unfold createPlan in E. cbv zeta in E.
  apply bind_inv in E as [(e & E & _)|([] & w1 & E1 & E)]; [injection E as _ <-; split; [done|left; split; [done|lia]]|]. injection E1 as _ <-.
  apply bind_inv in E as [(e & E & _)|([] & w1 & E1 & E)]; [injection E as _ <-; split; [done|left; split; [done|lia]]|]. injection E1 as _ <-.
  rewrite bind_gets in E. apply bind_throwIf_inv in E as [(_ & _ & ->)|(Hs & E)]; [split; [done|left; split; [done|lia]]|].
  erewrite bind_run in E by reflexivity. set (row := newPlan _ dto) in E.
  apply bind_inv in E as [(e & E & _)|([] & w1 & E1 & E)]; [injection E as _ <-; split; [done|left; simpl; split; [done|lia]]|]. injection E1 as Ea <-.
  injection E as _ <-. simpl. split; [split|right; by rewrite map_app].
  - apply Forall_app. split; [done|]. apply Forall_singleton. by apply newPlan_wf.
  - rewrite liveSlugs_app. change (pl_deletedAt row) with (@None Z). rewrite bool_decide_eq_true_2 by done. apply NoDup_app. split; [done|].
    split; [|apply NoDup_singleton]. intros x Hx ->%list_elem_of_singleton. unfold liveSlugs in Hx. apply list_elem_of_fmap in Hx as (q & Hq & Hin).
    apply list_elem_of_In, filter_In in Hin as [Hin Hd].
    assert (existsb (fun p => (pd_slug (pl_details p) =s cp_slug dto) && (pl_deletedAt p =s None)) (db_plans (w_db w)) = true) as Hc; [|congruence].
    apply existsb_exists. exists q. split; [done|]. rewrite Hd, andb_true_r. apply bool_decide_eq_true. by rewrite <- Hq.
Qed.

Lemma updatePlan_ok id dto w r w' : validUpdatePlanDto dto = true -> NoDup (map pl_id (db_plans (w_db w))) -> plansOk (db_plans (w_db w)) ->
  updatePlan id dto w = (r, w') -> plansOk (db_plans (w_db w')) /\ map pl_id (db_plans (w_db w')) = map pl_id (db_plans (w_db w)).
Proof.
  intros Hv Hids [Hwf Hnd] E. unfold updatePlan in E. apply bind_inv in E as [(e & E & _)|(cur & w1 & E1 & E)].
  { apply getPlan_inv in E as [-> _]. done. }
  apply getPlan_inv in E1 as [-> (Hin & Hid & Hlive)]. cbv zeta in E.
  apply bind_inv in E as [(e & E & _)|([] & w1 & E1 & E)]; [by injection E as _ <-|]. injection E1 as _ <-.
  apply bind_inv in E as [(e & E & _)|([] & w1 & E1 & E)]; [by injection E as _ <-|]. injection E1 as _ <-.
  apply bind_inv in E as [(e & E & _)|(row & w1 & E1 & E)]; [by injection E as _ <-|]. injection E1 as Ep <-.
  apply bind_inv in E as [(e & E & _)|([] & w1 & E1 & E)]; [by injection E as _ <-|]. injection E1 as Ea <-.
  injection E as _ <-. simpl.
  pose proof (patchPlan_ok _ _ _ Ep) as (Ri & Rd & Rs & _). rewrite Forall_forall in Hwf. split; [split|].
  - apply Forall_forall. intros p Hp. apply updFirst_elem in Hp as [Hp|(q & _ & ->)]; [by apply Hwf|].
    eapply patchPlan_wf; [done|by apply Hwf|done..].
  - eapply sublist_NoDup; [exact Hnd|]. apply liveSlugs_updId. intros q Hq Eq.
    assert (q = cur) as -> by (eapply (NoDup_map_inj pl_id); [exact Hids|done..|congruence]). split; [left; congruence|done].
  - apply updId_planIds. congruence.
Qed.

Lemma removePlan_ok now id w r w' : plansOk (db_plans (w_db w)) -> removePlan now id w = (r, w') ->
  plansOk (db_plans (w_db w')) /\ map pl_id (db_plans (w_db w')) = map pl_id (db_plans (w_db w)) /\ w_next w' = w_next w.
Proof.
  intros [Hwf Hnd] E. unfold removePlan in E. apply bind_inv in E as [(e & E & _)|(cur & w1 & E1 & E)].
  { apply getPlan_inv in E as [-> _]. done. }
  apply getPlan_inv in E1 as [-> _]. rewrite bind_gets in E. apply bind_throwIf_inv in E as [(_ & _ & ->)|(_ & E)]; [done|].
  injection E as _ <-. simpl. split; [split|split; [|done]].
  - apply Forall_forall. rewrite Forall_forall in Hwf. intros p Hp. apply updFirst_elem in Hp as [Hp|(q & Hq & ->)]; [by apply Hwf|].
    apply findFirst_some in Hq as [Hq _]. exact (Hwf q Hq).
  - eapply sublist_NoDup; [exact Hnd|]. by apply liveSlugs_updId; intros; split; [right|].
  - by apply (updId_rids id (removedPlan now)).
Qed.

(** The other operations leave the plans as they are. *)
Definition plansOf (w : World) : list Plan := db_plans (w_db w).

Lemma setAllowedNodes_plans id nodes actor : keeps (same plansOf) (setAllowedNodes id nodes actor) /\ keeps (same w_next) (setAllowedNodes id nodes actor).
Proof. split; unfold setAllowedNodes, getPlan, addPlanNode; frame. Qed.

Lemma applyToServers_plans now id actor : keeps (same plansOf) (applyToServers now id actor) /\ keeps (same w_next) (applyToServers now id actor).
Proof. split; unfold applyToServers, applyTx, pushLimits, getPlan; frame. Qed.

(** The requests of the plan administration, with validated bodies. *)
Inductive planStep (w w' : World) : Prop :=
  | Step_create dto r : validCreatePlanDto dto = true -> createPlan dto w = (r, w') -> planStep w w'
  | Step_update id dto r : validUpdatePlanDto dto = true -> updatePlan id dto w = (r, w') -> planStep w w'
  | Step_remove now id r : removePlan now id w = (r, w') -> planStep w w'
  | Step_nodes id nodes actor r : setAllowedNodes id nodes actor w = (r, w') -> planStep w w'
  | Step_apply now id actor r : applyToServers now id actor w = (r, w') -> planStep w w'.

(** The catalogue: well-formed rows, live slugs and ids unique, the ids to come unused. *)
Definition catalogueOk (w : World) : Prop :=
  plansOk (db_plans (w_db w)) /\ NoDup (map pl_id (db_plans (w_db w))) /\
  forall n, (w_next w <= n)%N -> uuidv7 n ∉ map pl_id (db_plans (w_db w)).

Lemma updatePlan_next id dto : keeps (same w_next) (updatePlan id dto).
Proof. unfold updatePlan, getPlan. frame. Qed.

Lemma planStep_ok `{!PlatformLaws} w w' : catalogueOk w -> planStep w w' -> catalogueOk w'.
Proof.
  intros (Hok & Hnd & Hfr) [dto r Hv E|id dto r Hv E|now id r E|id nodes actor r E|now id actor r E].
  - destruct (createPlan_ok _ _ _ _ Hv Hok E) as [Hok' [[Hi Hn]|[Hi Hn]]]; split; [done| |done|]; rewrite Hi.
    + split; [done|]. intros n Hle. apply Hfr. lia.
    + split.
      * apply NoDup_app. split; [done|]. split; [|apply NoDup_singleton]. intros x Hx ->%list_elem_of_singleton. by apply (Hfr (w_next w)); [lia|].
      * intros n Hle [Hx|Hx%list_elem_of_singleton]%elem_of_app; [by apply (Hfr n); [lia|]|]. apply uuidv7_inj in Hx. lia.
  - destruct (updatePlan_ok _ _ _ _ _ Hv Hnd Hok E) as [Hok' Hi]. pose proof (updatePlan_next _ _ _ _ _ E) as Hn. split; [done|]. rewrite Hi, Hn. done.
  - destruct (removePlan_ok _ _ _ _ _ Hok E) as (Hok' & Hi & Hn). split; [done|]. by rewrite Hi, Hn.
  - destruct (setAllowedNodes_plans id nodes actor) as [K1 K2]. apply K1 in E as Hp. apply K2 in E as Hn. unfold same, plansOf in *. unfold catalogueOk. by rewrite Hp, Hn.
  - destruct (applyToServers_plans now id actor) as [K1 K2]. apply K1 in E as Hp. apply K2 in E as Hn. unfold same, plansOf in *. unfold catalogueOk. by rewrite Hp, Hn.
Qed.

(** C8: whatever the administrators submit, every plan on file stays one the platform can
    sell (no negative resource, price or stock, except a swap of -1, which means unlimited;
    every number within its column, the anchor price above the price, the published ranges in
    order), no two live plans share a slug, and no two plans an id. *)
Theorem plan_catalogue_well_formed `{!PlatformLaws} w w' : rtc planStep w w' -> catalogueOk w -> catalogueOk w'.
Proof. induction 1 as [|w w1 w' Hs _ IH]; [done|]. intros Hok. apply IH. by eapply planStep_ok. Qed.

End Catalogue.

(** ** Applying a plan to its servers *)

Section ApplyRules.
Context `{Outside} (now : Z).

Lemma Server_resized_fields p s : sv_id (resized p s) = sv_id s /\ sv_nodeId (resized p s) = sv_nodeId s /\ sv_status (resized p s) = sv_status s /\
  sv_planId (resized p s) = sv_planId s /\ sv_memoryMb (resized p s) = pl_memoryMb p /\ sv_diskMb (resized p s) = pl_diskMb p /\
  sv_cpuLimitPercent (resized p s) = pl_cpuLimitPercent p.
Proof. done. Qed.

(** A server after the plan was applied. *)
Definition applied (p : Plan) (s : Server) : Server := if drifted p s then resized p s else s.

Lemma resized_no_drift p s : diffFields (resized p s) p = [].
Proof. unfold diffFields, DRIFTABLE_FIELDS. simpl. by rewrite !Z.eqb_refl, eqb_reflx. Qed.

Lemma applied_no_drift p s : drifted p (applied p s) = false.
Proof.
  unfold applied. destruct (drifted p s) eqn:E; [|done]. unfold drifted.
  rewrite resized_no_drift, (bool_decide_eq_true_2 ([] = [])) by done. by rewrite andb_false_r.
Qed.

Lemma applied_view p s : sv_id (applied p s) = sv_id s /\ sv_nodeId (applied p s) = sv_nodeId s /\ sv_status (applied p s) = sv_status s.
Proof. unfold applied. by destruct (drifted p s). Qed.

Lemma updWhere_applied p l : NoDup (map sv_id l) ->
  updWhere (fun s => bool_decide (sv_id s ∈ map (fun r : DriftRow => sv_id (fst r)) (map (fun s => (s, diffFields s p)) (List.filter (drifted p) l)))) (resized p) l =
  map (applied p) l.
Proof.
  intros Hnd. unfold updWhere. apply map_ext_in. intros s Hs%list_elem_of_In. unfold applied. rewrite map_map. simpl.
  destruct (drifted p s) eqn:Ed.
  - rewrite bool_decide_eq_true_2; [done|]. apply list_elem_of_fmap. exists s. split; [done|]. apply list_elem_of_In, filter_In. split; [by apply list_elem_of_In|done].
  - rewrite bool_decide_eq_false_2; [done|]. intros (t & Et & Ht)%list_elem_of_fmap. apply list_elem_of_In, filter_In in Ht as [Ht Hd].
    apply list_elem_of_In in Ht. assert (t = s) as -> by (eapply (NoDup_map_inj sv_id); done). congruence.
Qed.

(** What the locked transaction does. *)
Lemma applyTx_inv planId w r w' : NoDup (map sv_id (db_servers (w_db w))) -> applyTx now planId w = (r, w') ->
  match r with
  | Throw _ => w' = w
  | Ok (rows, plan) => rows = computeDriftRows plan (w_db w) /\ findFirst (livePlan planId) (db_plans (w_db w)) = Some plan /\
      w' = w <| w_db := (w_db w) <| db_servers := map (applied plan) (db_servers (w_db w)) |> |> /\
      (rows <> [] -> forall n, n ∈ nodeIdsOf rows -> shortfall now (w_db w) (computeNodeDeltas plan rows) n = None)
  end.
Proof.
  intros Hnd E. unfold applyTx, withRLS in E. destruct ((getPlan planId ≫= _) w) as [r1 w1] eqn:Er.
  apply bind_inv in Er as [(e & Eg & ->)|(plan & w2 & Eg & Er)].
  { unfold getPlan in Eg. rewrite bind_gets in Eg. unfold orThrow in Eg. destruct (findFirst _ _); [done|]. injection Eg as <- <-. injection E as <- <-. by destruct w. }
  unfold getPlan in Eg. rewrite bind_gets in Eg. unfold orThrow in Eg. destruct (findFirst _ _) as [q|] eqn:Ef; [|done]. injection Eg as -> <-.
  rewrite bind_gets in Er. cbv zeta in Er. set (rows := computeDriftRows plan (w_db w)) in *. destruct (rows =s []) eqn:E0.
  - injection Er as <- <-. injection E as <- <-. apply bool_decide_eq_true in E0. split_and!; [by symmetry|done| |done].
    assert (map (applied plan) (db_servers (w_db w)) = db_servers (w_db w)) as ->; [|by destruct w as [[] ? ? ? ?]].
    rewrite <- (map_id (db_servers (w_db w))) at 2. apply map_ext_in. intros s Hs. unfold applied.
    destruct (drifted plan s) eqn:Ed; [|done]. assert (s ∈ List.filter (drifted plan) (db_servers (w_db w))) as Hin.
    { apply list_elem_of_In, filter_In. done. }
    unfold rows, computeDriftRows in E0. destruct (List.filter _ _); [by apply not_elem_of_nil in Hin|done].
  - apply bind_throwIf_inv in Er as [(_ & -> & ->)|(Hs & Er)]; [injection E as <- <-; by destruct w|].
    injection Er as <- <-. injection E as <- <-. split_and!; [done|done| |].
    + by rewrite <- (updWhere_applied plan (db_servers (w_db w)) Hnd).
    + intros _ n Hn. apply negb_false_iff, bool_decide_eq_true in Hs. destruct (shortfall _ _ _ n) eqn:Esf; [|done].
      assert (s ∈ omap (shortfall now (w_db w) (computeNodeDeltas plan rows)) (nodeIdsOf rows)) as Hin by (apply list_elem_of_omap; eauto).
      rewrite Hs in Hin. by apply not_elem_of_nil in Hin.
Qed.

(** The sum over a node after a change of each server, and the change itself. *)
Lemma sumZ_filter_map (f : Server -> Z) (g : Server -> Server) (p : Server -> bool) l : (forall s, p (g s) = p s) ->
  sumZ f (List.filter p (map g l)) = sumZ f (List.filter p l) + sumZ (fun s => f (g s) - f s) (List.filter p l).
Proof.
  intros Hp. unfold sumZ. induction l as [|s l IH]; simpl; [done|]. rewrite Hp. destruct (p s); simpl; lia.
Qed.

(** Only the drifted servers of a node change its sum. *)
Lemma sumZ_drift p (f : Server -> Z) (v : Z) n l : (forall s, f (resized p s) = v) ->
  sumZ (fun s => f (applied p s) - f s) (List.filter (fun s => (sv_nodeId s =s n) && negb (sv_status s =s Srv_deleting)) l) =
  sumZ (fun r : DriftRow => v - f (fst r)) (List.filter (fun r => sv_nodeId (fst r) =s n) (map (fun s => (s, diffFields s p)) (List.filter (drifted p) l))).
Proof.
  intros Hv. unfold sumZ. induction l as [|s l IH]; simpl; [done|].
  assert (applied p s = if drifted p s then resized p s else s) as Ha by done. destruct (drifted p s) eqn:Ed; simpl.
  - assert ((sv_status s =s Srv_deleting) = false) as Hs by (unfold drifted in Ed; destruct (sv_status s =s Srv_deleting); [by rewrite andb_false_r in Ed|done]).
    rewrite Hs. rewrite andb_true_r. destruct (sv_nodeId s =s n); simpl; [|done]. by rewrite Ha, Hv, IH.
  - destruct (_ && _); simpl; [|done]. rewrite Ha, <- IH. lia.
Qed.

Definition zeroRequest : ResourceRequest := mkRequest 0 0 0.

Lemma deltas_fold p rows : forall (m : gmap string ResourceRequest) n,
  default zeroRequest (fold_left (deltaStep p) rows m !! n) =
  let old := default zeroRequest (m !! n) in
  let own := List.filter (fun r => sv_nodeId (fst r) =s n) rows in
  mkRequest (r_memoryMb old + sumZ (fun r => pl_memoryMb p - sv_memoryMb (fst r)) own)
            (r_diskMb old + sumZ (fun r => pl_diskMb p - sv_diskMb (fst r)) own)
            (r_cpuPercent old + sumZ (fun r => pl_cpuLimitPercent p - sv_cpuLimitPercent (fst r)) own).
Proof.
  unfold sumZ. induction rows as [|row rows IH]; intros m n; cbv zeta; simpl.
  - destruct (default zeroRequest (m !! n)); simpl. f_equal; lia.
  - rewrite IH. cbv zeta. unfold deltaStep. destruct (sv_nodeId (fst row) =s n) eqn:En.
    + apply bool_decide_eq_true in En. subst n. rewrite lookup_insert_eq. unfold zeroRequest. simpl. f_equal; lia.
    + apply bool_decide_eq_false in En. by rewrite lookup_insert_ne.
Qed.

Lemma findId_map (g : Server -> Server) id l : (forall s, sv_id (g s) = sv_id s) -> findId id (map g l) = g <$> findId id l.
Proof.
  intros Hg. unfold findId, findFirst. induction l as [|s l IH]; simpl; [done|]. change (rid (g s)) with (sv_id (g s)). change (rid s) with (sv_id s).
  rewrite Hg. by destruct (sv_id s =s id).
Qed.

(** A server on its way that has not drifted is not resized. *)
Lemma transferServers_applied p d ts : (forall s, s ∈ transferServers d ts -> drifted p s = false) ->
  transferServers (d <| db_servers := map (applied p) (db_servers d) |>) ts = transferServers d ts.
Proof.
  induction ts as [|t ts IH]; intros Hfl; [done|]. rewrite !transferServers_cons in *. simpl.
  rewrite findId_map by (intros s; apply applied_view). destruct (findId (tr_serverId t) (db_servers d)) as [s|]; simpl in *; [|by apply IH].
  rewrite IH by (intros x Hx; apply Hfl, elem_of_cons; by right). f_equal. unfold applied. by rewrite (Hfl s) by (apply elem_of_cons; by left).
Qed.

(** The usage of a node no drifted server is on its way to moves by exactly the checked delta. *)
Lemma usage_applied p d n :
  (forall s, s ∈ transferServers d (inFlightTo d n) -> drifted p s = false) ->
  usageForNode (d <| db_servers := map (applied p) (db_servers d) |>) n =
  let delta := default zeroRequest (computeNodeDeltas p (computeDriftRows p d) !! n) in
  addUsage (usageForNode d n) (r_memoryMb delta) (r_diskMb delta) (r_cpuPercent delta).
Proof.
  intros Hfl. pose proof (transferServers_applied p d (inFlightTo d n) Hfl) as Ht. cbv zeta.
  unfold computeNodeDeltas. rewrite deltas_fold. cbv zeta. rewrite lookup_empty. unfold usageForNode.
  change (inFlightTo (d <| db_servers := map (applied p) (db_servers d) |>) n) with (inFlightTo d n). rewrite Ht.
  unfold settledOn, computeDriftRows. simpl.
  assert (forall s, (sv_nodeId (applied p s) =s n) && negb (sv_status (applied p s) =s Srv_deleting) = (sv_nodeId s =s n) && negb (sv_status s =s Srv_deleting)) as Hp.
  { intros s. destruct (applied_view p s) as (_ & -> & ->). done. }
  pose proof (sumZ_filter_map sv_memoryMb (applied p) _ (db_servers d) Hp) as E1.
  pose proof (sumZ_filter_map sv_diskMb (applied p) _ (db_servers d) Hp) as E2.
  pose proof (sumZ_filter_map sv_cpuLimitPercent (applied p) _ (db_servers d) Hp) as E3. cbv beta in E1, E2, E3.
  rewrite (sumZ_drift p sv_memoryMb (pl_memoryMb p)) in E1 by done. rewrite (sumZ_drift p sv_diskMb (pl_diskMb p)) in E2 by done.
  rewrite (sumZ_drift p sv_cpuLimitPercent (pl_cpuLimitPercent p)) in E3 by done.
  unfold DriftRow in *. apply usage_ext; simpl; lia.
Qed.

(** The push goes over every row, whatever the agents answer, and leaves the database alone. *)
Lemma pushAll_inv p rows : forall acc w r w', forFold rows acc (pushLimits p) w = (r, w') ->
  w_db w' = w_db w /\ exists k fs, r = Ok (k, fs) /\ k + Z.of_nat (List.length fs) = fst acc + Z.of_nat (List.length (snd acc)) + Z.of_nat (List.length rows).
Proof.
  induction rows as [|row rows IH]; intros [k fs] w r w' E; cbn [forFold] in E.
  { injection E as <- <-. split; [done|]. exists k, fs. split; [done|]. simpl. lia. }
  assert (exists acc' w1, pushLimits p (k, fs) row w = (Ok acc', w1) /\ w_db w1 = w_db w /\
    fst acc' + Z.of_nat (List.length (snd acc')) = k + Z.of_nat (List.length fs) + 1) as (acc' & w1 & E1 & Hdb & Hn).
  { unfold pushLimits. destruct (touchesLiveResources row).
    - unfold agentCall, tryCatch, mbind, M_bind, gets, call, modify, mret, M_ret. destruct (agentReply _ _); simpl; eexists _, _; split_and!;
        [reflexivity|done|simpl; rewrite ?List.length_app; simpl; lia|reflexivity|done|simpl; lia].
    - eexists _, _. split_and!; [reflexivity|done|simpl; lia]. }
  rewrite (bind_run _ _ _ _ _ E1) in E. apply IH in E as (Hdb' & k' & fs' & -> & Hn'). split; [by rewrite Hdb'|]. exists k', fs'. split; [done|]. simpl. lia.
Qed.

Lemma elem_distinct x l : x ∈ distinct l <-> x ∈ l.
Proof. unfold distinct. by rewrite list_elem_of_In, <- in_rev, <- list_elem_of_In, elem_of_remove_dups, list_elem_of_In, <- in_rev, <- list_elem_of_In. Qed.

Lemma nodeIdsOf_drifted p d n : n ∈ nodeIdsOf (computeDriftRows p d) <-> exists s, s ∈ db_servers d /\ drifted p s = true /\ sv_nodeId s = n.
Proof.
  unfold nodeIdsOf, computeDriftRows. rewrite sortBy_perm, elem_distinct, map_map. split.
  - intros (s & -> & Hs)%list_elem_of_fmap. apply list_elem_of_In, filter_In in Hs as [Hs Hd]. exists s. split_and!; [by apply list_elem_of_In|done|done].
  - intros (s & Hs & Hd & <-). apply list_elem_of_fmap. exists s. split; [done|]. apply list_elem_of_In, filter_In. split; [by apply list_elem_of_In|done].
Qed.

(** The nodes the apply is answerable for: live, hosting a drifted server, and no drifted
    server on its way to them. *)
Definition answerable (plan : Plan) (d : Db) (n : string) (node : Node) : Prop :=
  findFirst (liveNode n) (db_nodes d) = Some node /\
  (exists s, s ∈ db_servers d /\ drifted plan s = true /\ sv_nodeId s = n) /\
  (forall s, s ∈ transferServers d (inFlightTo d n) -> drifted plan s = false).

(** C7: applying a plan to its servers is all or nothing.  A refusal leaves the database as
    it was and calls no agent; otherwise every drifted server gets the plan's values and none
    is left drifted, every one is accounted for as applied or as a failed push, and each node
    that hosts one (and no drifted server is in transfer to) ends within its ceilings. *)
Theorem plan_apply_within_capacity planId actor w r w' :
  NoDup (map sv_id (db_servers (w_db w))) -> applyToServers now planId actor w = (r, w') ->
  match r with
  | Throw _ => w_db w' = w_db w /\ w_calls w' = w_calls w
  | Ok (count, failures) => exists plan, findFirst (livePlan planId) (db_plans (w_db w)) = Some plan /\
      w_db w' = (w_db w) <| db_servers := map (applied plan) (db_servers (w_db w)) |> /\
      (forall s, s ∈ db_servers (w_db w') -> drifted plan s = false) /\
      count + Z.of_nat (List.length failures) = Z.of_nat (List.length (computeDriftRows plan (w_db w))) /\
      (forall n node, answerable plan (w_db w) n node ->
         withinCeilings (rc_inputs (resolveNodeCapacity now (nd_config node))) (usageForNode (w_db w') n))
  end.
Proof.
  intros Hnd E. unfold applyToServers in E. apply bind_inv in E as [(e & Eg & ->)|(p0 & w0 & Eg & E)].
  { unfold getPlan in Eg. rewrite bind_gets in Eg. unfold orThrow in Eg. destruct (findFirst _ _); [done|]. by injection Eg as <- <-. }
  assert (w0 = w) as ->.
  { unfold getPlan in Eg. rewrite bind_gets in Eg. unfold orThrow in Eg. destruct (findFirst _ _); [|done]. by injection Eg as _ <-. }
  apply bind_inv in E as [(e & Et & ->)|([rows plan] & w1 & Et & E)]; apply (applyTx_inv planId w _ _ Hnd) in Et; [by simpl in Et; rewrite Et|].
  destruct Et as (-> & Hp & -> & Hfit). apply bind_inv in E as [(e & Ef & _)|([k fs] & w2 & Ef & E)]; apply pushAll_inv in Ef as (Hdb & k' & fs' & Er & Hn);
    [done|]. injection Er as <- <-. injection E as <- Ew. simpl in Hn. exists plan.
  assert (w_db w' = (w_db w) <| db_servers := map (applied plan) (db_servers (w_db w)) |>) as Hdb2 by (rewrite <- Ew; exact Hdb).
  rewrite Hdb2. split_and!; [done|done| |lia|].
  - intros s (t & -> & _)%list_elem_of_fmap. apply applied_no_drift.
  - intros n node (Hl & Hs & Hfl). pose proof Hs as Hin. rewrite <- nodeIdsOf_drifted in Hin.
    assert (computeDriftRows plan (w_db w) <> []) as Hne by (intros E0; rewrite E0 in Hin; by apply not_elem_of_nil in Hin).
    specialize (Hfit Hne n Hin). unfold shortfall in Hfit. rewrite Hl in Hfit. rewrite usage_applied by done. cbv zeta.
    apply nodeFits_after, nodeFitReasons_nil. by destruct (nodeFitReasons _ _ _).
Qed.

End ApplyRules.

(** ** Witnesses and what the administrators may meet *)

Module DemoPlan.

#[export] Instance outside : Outside := {| agentReply _ _ := None |}.

Definition noResources : PlanResourceFields := mkResources Unset Unset Unset Unset Unset Unset Unset Unset Unset Unset.
(** The commercial part of a body with a price, an anchor price and a stock. *)
Definition commercial (price compareAt maxSlots : Field Z) : PlanCommercialFields :=
  mkCommercial price compareAt Unset Unset Unset Unset Unset Unset Unset Unset Unset Unset Unset Unset maxSlots Unset Unset Unset.

Definition newBasic : CreatePlanDto :=
  mkCreatePlan "Basic" "basic" 2048 10000 noResources (commercial (Val 2990) (Val 3990) Unset).

Definition edit (c : PlanCommercialFields) : UpdatePlanDto := mkUpdatePlan Unset Unset Unset noResources c.

Definition empty : World := mkWorld (Demo.db <| db_plans := [] |>) [] [] 0%N [].

(** A server of plan "p" on node [n] with [mem] MB instead of the plan's 2048. *)
Definition server (n : string) (mem : Z) : Server :=
  mkServer "s" "SHORT" "u" n (Some "t") (Some "p") (Some 100000) "srv" (Some "img") (Some "run")
    100 mem 0 10000 500 true 1 1 1 1 Srv_ready None None None None "offline".

Definition world (nodes : list Node) (s : Server) (ts : list Transfer) : World :=
  mkWorld (Demo.db <| db_nodes := nodes |> <| db_servers := [s] |> <| db_transfers := ts |>) [] [] 0%N [].

Definition moving : Transfer := mkTransfer "tr" "s" "a" "b" (Some 2) (Some 100000) Tr_uploading None (Some 1) None.

End DemoPlan.

#[local] Existing Instance Demo.platform.
#[local] Existing Instance DemoSub.laws.
#[local] Existing Instance DemoPlan.outside.

Lemma plan_catalogue_well_formed_witness :
  catalogueOk (createPlan DemoPlan.newBasic DemoPlan.empty).2 /\
  map pl_priceCents (db_plans (w_db (createPlan DemoPlan.newBasic DemoPlan.empty).2)) = [2990].
Proof.
  split; [|vm_compute; reflexivity]. apply (plan_catalogue_well_formed DemoPlan.empty).
  - apply rtc_once. apply (Step_create _ _ DemoPlan.newBasic (createPlan DemoPlan.newBasic DemoPlan.empty).1); [vm_compute; reflexivity|].
    apply surjective_pairing.
  - split; [split; [apply Forall_nil_2|apply NoDup_nil_2]|split; [apply NoDup_nil_2|]]. intros n _. apply not_elem_of_nil.
Defined.

Lemma plan_apply_within_capacity_witness :
  exists w', applyToServers 2000 "p" "admin" (DemoPlan.world [Demo.node "a" 4096] (DemoPlan.server "a" 1024) []) = (Ok (1, []), w') /\
    usageForNode (w_db w') "a" = mkUsage 2048 10000 100 /\
    withinCeilings (rc_inputs (resolveNodeCapacity 2000 (nd_config (Demo.node "a" 4096)))) (usageForNode (w_db w') "a").
Proof.
  set (w := DemoPlan.world [Demo.node "a" 4096] (DemoPlan.server "a" 1024) []).
  assert ((applyToServers 2000 "p" "admin" w).1 = Ok (1, [])) as K by (vm_compute; reflexivity).
  assert (usageForNode (w_db (applyToServers 2000 "p" "admin" w).2) "a" = mkUsage 2048 10000 100) as U by (vm_compute; reflexivity).
  destruct (applyToServers 2000 "p" "admin" w) as [r w'] eqn:E. cbn [fst snd] in K, U. subst r. exists w'. split; [reflexivity|]. split; [exact U|].
  destruct (plan_apply_within_capacity 2000 "p" "admin" w _ w' (NoDup_singleton _) E) as (plan & Hp & _ & _ & _ & Hn).
  apply (Hn "a" (Demo.node "a" 4096)). vm_compute in Hp. injection Hp as <-. split; [vm_compute; reflexivity|]. split.
  - exists (DemoPlan.server "a" 1024). split; [apply list_elem_of_singleton; reflexivity|]. split; [vm_compute; reflexivity|reflexivity].
  - intros s Hs. exfalso. exact (not_elem_of_nil s Hs).
Defined.

(** The delta is charged to the node a server is on.  One in transfer is charged to its
    target as well, so growing it there is not checked: node b, with 1500 MB and the moving
    server's 1024 MB on it, ends at 2048 MB. *)
Lemma apply_oversells_transfer_target :
  let w := DemoPlan.world [Demo.node "a" 4096; Demo.node "b" 1500] ((DemoPlan.server "a" 1024) <| sv_status := Srv_transferring |>) [DemoPlan.moving] in
  let '(r, w') := applyToServers 2000 "p" "admin" w in
  r = Ok (1, []) /\ usageForNode (w_db w) "b" = mkUsage 1024 10000 100 /\ usageForNode (w_db w') "b" = mkUsage 2048 10000 100 /\
  nodeFitReasons (rc_inputs (resolveNodeCapacity 2000 (nd_config (Demo.node "b" 1500)))) (usageForNode (w_db w') "b") zeroRequest <> [].
Proof. vm_compute. split_and!; done. Qed.

(** A plan that shrinks is still refused on a node that stays above its ceiling. *)
Lemma shrinking_plan_refused :
  exists m, (applyToServers 2000 "p" "admin" (DemoPlan.world [Demo.node "a" 1000] (DemoPlan.server "a" 4096) [])).1 = Throw (Conflict m).
Proof. eexists. vm_compute. reflexivity. Qed.

(** Raising only the price above the anchor price passes the check of the merged plan and
    fails in the database. *)
Lemma lone_price_edit_reaches_database :
  let w := (createPlan DemoPlan.newBasic DemoPlan.empty).2 in
  (updatePlan "id-0" (DemoPlan.edit (DemoPlan.commercial (Val 5990) Unset Unset)) w).1 = Throw (CheckViolation "plans") /\
  (updatePlan "id-0" (DemoPlan.edit (DemoPlan.commercial (Val 5990) (Val 3990) Unset)) w).1 =
    Throw (BadRequest "compareAtPriceCents must be greater than priceCents").
Proof. vm_compute. done. Qed.

(** [null] takes the stock limit of a plan away. *)
Lemma null_clears_max_slots :
  let w := mkWorld Demo.db [] [] 0%N [] in
  (pl_maxSlots <$> db_plans (w_db w)) = [Some 1] /\
  (pl_maxSlots <$> db_plans (w_db (updatePlan "p" (DemoPlan.edit (DemoPlan.commercial Unset Unset Null)) w).2)) = [None].
Proof. vm_compute. done. Qed.
