(* ===== verification/Payments.v ===== *)
(** Payments: the provider interface, payment rows and orders.

    The types of [payment-provider.interface.ts], the registry, [money.ts],
    [payments.service.ts] and [orders.service.ts].  A payment provider is a
    record of operations: its answers may depend on every call made before.
    Each operation below is proved correct against that record, whatever the
    gateway answers. *)

From S2P Require Import Prelude JsNum Capacity Store Scheduler Subscriptions JsString Servers.
From Stdlib Require Import QArith Qround Lqa Ascii String Lia.

Local Open Scope Z_scope.

(** ** payment-provider.interface.ts *)

Inductive InternalPaymentEvent :=
  | PaymentConfirmed | PaymentPending | PaymentFailed | PaymentCanceled | PaymentRefunded
  | PaymentChargeback | SubscriptionSynced | SubscriptionPastDue | SubscriptionCanceled | Ignored.

#[export] Instance InternalPaymentEvent_eq : EqDecision InternalPaymentEvent.
Proof. solve_decision. Defined.

Record PayerAddressInput := mkAddress {
  pa_postalCode : option string; pa_addressLine : option string; pa_addressNumber : option string;
  pa_neighborhood : option string; pa_city : option string; pa_state : option string }.

Record PayerInput := mkPayer {
  py_userId : string; py_email : string; py_firstName : option string; py_lastName : option string;
  py_cpf : option string; py_address : PayerAddressInput }.

(** [ChargeInputBase] with the fields of the three requests that extend it. *)
Record ChargeInput := mkCharge {
  ch_payer : PayerInput; ch_amountCents : Z; ch_currency : string; ch_description : string;
  ch_externalReference : string; ch_idempotencyKey : string; ch_expiresAt : option Z;
  ch_billingPeriod : option BillingPeriod; ch_backUrl : option string }.

Record GatewayPayment := mkGatewayPayment {
  gp_id : string; gp_status : string; gp_statusDetail : option string;
  gp_subscriptionExternalId : option string; gp_externalReference : option string;
  gp_amountCents : option Z; gp_paidAmountCents : option Z; gp_currency : option string;
  gp_paymentMethodId : option string; gp_paymentTypeId : option string;
  gp_installments : option Z; gp_approvedAt : option Z }.

Record PixCharge := mkPixCharge {
  px_payment : GatewayPayment; px_qrCode : string; px_qrCodeBase64 : string; px_expiresAt : option Z }.

Record BoletoCharge := mkBoletoCharge {
  bo_payment : GatewayPayment; bo_ticketUrl : string; bo_digitableLine : option string; bo_expiresAt : option Z }.

Record GatewaySubscription := mkGatewaySubscription {
  gs_id : string; gs_status : string; gs_externalReference : option string;
  gs_nextDueDate : option Z; gs_initPoint : option string }.

Record RefundResult := mkRefund { rf_id : string; rf_status : option string; rf_amountCents : option Z }.

Inductive WebhookResourceKind := res_payment | res_preapproval | res_authorized_payment.

Record ParsedWebhook := mkParsed {
  pw_notificationId : string; pw_rawEvent : string; pw_resourceKind : option WebhookResourceKind;
  pw_resourceId : option string }.

(** Optional methods are [option]s; the others answer from the calls made so far. *)
Record PaymentProvider := mkProvider {
  pp_name : string;
  pp_isConfigured : option bool;
  pp_supportedPaymentMethods : option (list PaymentMethod);
  pp_createPixCharge : list ExtCall -> ChargeInput -> Res PixCharge;
  pp_createBoletoCharge : list ExtCall -> ChargeInput -> Res BoletoCharge;
  pp_createCardSubscription : list ExtCall -> ChargeInput -> Res GatewaySubscription;
  pp_getPayment : list ExtCall -> string -> Res GatewayPayment;
  pp_getAuthorizedPayment : list ExtCall -> string -> Res GatewayPayment;
  pp_getSubscription : list ExtCall -> string -> Res GatewaySubscription;
  pp_cancelSubscription : list ExtCall -> string -> Res unit;
  pp_refund : list ExtCall -> string -> Res RefundResult;
  pp_classifyPayment : GatewayPayment -> InternalPaymentEvent;
  pp_classifySubscription : GatewaySubscription -> InternalPaymentEvent }.

(** ** payment-provider.registry.ts *)

Class Providers := { mercadoPago : PaymentProvider; pagBank : PaymentProvider }.

Definition registryGet `{Providers} (name : string) : Res PaymentProvider :=
  if (name =s "") || (name =s "mercadopago") then Ok mercadoPago
  else if name =s "pagbank" then Ok pagBank
  else Throw (BadRequest ("PAYMENT_PROVIDER_UNSUPPORTED: " +:+ name)).

Definition available `{Providers} : list string :=
  map fst (List.filter (fun p => negb (pp_isConfigured (snd p) =s Some false))
             [("mercadopago", mercadoPago); ("pagbank", pagBank)]).

Definition methodsOf (p : PaymentProvider) : list PaymentMethod :=
  default [pix; boleto; card] (pp_supportedPaymentMethods p).

Definition availableWithCapabilities `{Providers} : list (string * list PaymentMethod) :=
  omap (fun name => match registryGet name with Ok p => Some (name, methodsOf p) | Throw _ => None end) available.

(** [ConfigService] keys the services read. *)
Class Config := {
  CHECKOUT_ORDER_TTL_MINUTES : option Z;
  BILLING_GRACE_DAYS : option Z;
  PUBLIC_SITE_URL : option string;
  PANEL_URL : option string }.

(** A call to a provider: recorded, then answered. *)
Definition providerCall {A I} (c : ExtCall) (op : list ExtCall -> I -> Res A) (input : I) : MW A :=
  before ← gets w_calls;
  call c ;;
  lift (op before input).

(** A read from a provider leaves no trace. *)
Definition providerRead {A I} (op : list ExtCall -> I -> Res A) (input : I) : MW A :=
  before ← gets w_calls;
  lift (op before input).

(** ** money.ts *)

Definition centsToAmount (cents : Z) : Q := fdiv (inject_Z cents) 100.

Definition amountToCents (amount : Q) : Z := math_round (fmul amount 100).

(** ** payments.service.ts *)

Definition newPayment (orderId : string) (p : GatewayPayment) : Payment :=
  {| pm_id := gp_id p; pm_orderId := orderId; pm_status := gp_status p; pm_statusDetail := gp_statusDetail p;
     pm_amountCents := default 0 (gp_amountCents p); pm_paidAmountCents := gp_paidAmountCents p;
     pm_currency := default "BRL" (gp_currency p); pm_paymentMethodId := gp_paymentMethodId p;
     pm_paymentTypeId := gp_paymentTypeId p; pm_installments := gp_installments p;
     pm_approvedAt := gp_approvedAt p |}.

Definition refreshPayment (p : GatewayPayment) (row : Payment) : Payment :=
  row <| pm_status := gp_status p |> <| pm_statusDetail := gp_statusDetail p |>
      <| pm_paidAmountCents := gp_paidAmountCents p |> <| pm_installments := gp_installments p |>
      <| pm_approvedAt := gp_approvedAt p |>.

(** An upsert by the provider's payment id. *)
Definition recordFromGateway (orderId : string) (p : GatewayPayment) : MW unit :=
  onDb (fun d =>
    match findId (gp_id p) (db_payments d) with
    | Some _ => d <| db_payments := updId (gp_id p) (refreshPayment p) (db_payments d) |>
    | None => d <| db_payments := db_payments d ++ [newPayment orderId p] |>
    end).

(** ** orders.service.ts *)

Definition CHECKOUT_RL_LIMIT_PER_USER : Z := 10.
Definition CHECKOUT_RL_LIMIT_PER_IP : Z := 30.

Record BillingProfile := mkProfile {
  bp_userId : string; bp_email : string; bp_cpf : option string; bp_firstName : option string;
  bp_lastName : option string; bp_postalCode : option string; bp_addressLine : option string;
  bp_addressNumber : option string; bp_neighborhood : option string; bp_city : option string;
  bp_state : option string }.

Record CreateCheckoutDto := mkCheckout {
  co_planId : string; co_paymentMethod : PaymentMethod; co_provider : option string; co_payerEmail : option string }.

Definition methodStr (m : PaymentMethod) : string :=
  match m with pix => "pix" | boleto => "boleto" | card => "card" end.

Definition DAY_MS : Z := 24 * 60 * 60 * 1000.

Definition emptySnapshot : OrderConfigSnapshot := mkSnapshot None None None None.

(** [tx.order.create] with the schema's defaults. *)
Definition newOrder (id reference userId planId : string) (subscriptionId : option string) (kind : OrderKind)
    (amountCents : Z) (currency provider : string) (method : option PaymentMethod) (prov : ProvisioningStatus)
    (expiresAt : option Z) (config : OrderConfigSnapshot) : Order :=
  {| or_id := id; or_externalReference := reference; or_userId := userId; or_planId := planId;
     or_subscriptionId := subscriptionId; or_serverId := None; or_kind := kind; or_amountCents := amountCents;
     or_currency := currency; or_status := Ord_pending; or_provider := provider; or_paymentMethod := method;
     or_checkoutUrl := None; or_externalPreferenceId := None; or_pixQrCode := None; or_pixQrCodeBase64 := None;
     or_boletoDigitableLine := None; or_boletoUrl := None; or_paidAmountCents := None; or_paidAt := None;
     or_expiresAt := expiresAt; or_provisioningStatus := prov; or_provisioningError := None;
     or_provisioningAttempts := 0; or_config := config; or_archivedAt := None |}.

Definition insertOrder (o : Order) : MW Order :=
  onDb (fun d => d <| db_orders := db_orders d ++ [o] |>) ;; mret o.

Definition clampToMercadoPagoMaxExpiry (now requested : Z) : Z :=
  let max := now + 29 * DAY_MS in if requested >? max then max else requested.

Definition clampOfflineExpiry (now : Z) (method : PaymentMethod) (requested : Z) : Z :=
  let minimum := if method =s boleto then now + 3 * DAY_MS else requested in
  clampToMercadoPagoMaxExpiry now (if requested <? minimum then minimum else requested).

Section Orders.
Context `{Platform} `{Outside} `{Providers} `{Config} (now : Z).

(** The fixed window ends by the key's expiry, outside the model: counters only grow here. *)
Definition checkCheckoutRateLimit (userId : string) (ip : option string) : MW unit :=
  userCount ← incr ("checkout_rl:user:" +:+ userId);
  ipCount ← match truthy ip with Some i => incr ("checkout_rl:ip:" +:+ i) | None => mret 0 end;
  throwIf ((userCount >? CHECKOUT_RL_LIMIT_PER_USER) || (ipCount >? CHECKOUT_RL_LIMIT_PER_IP))
    (Http "Muitas tentativas de checkout em pouco tempo — aguarde antes de tentar novamente." 429).

Definition generateExternalReference : MW string :=
  n ← freshN; mret ("ord_" +:+ randomRef n).

Definition toPayerInput (profile : BillingProfile) (payerEmail : option string) : PayerInput :=
  mkPayer (bp_userId profile) (default (bp_email profile) payerEmail) (bp_firstName profile) (bp_lastName profile)
    (bp_cpf profile)
    (mkAddress (bp_postalCode profile) (bp_addressLine profile) (bp_addressNumber profile)
       (bp_neighborhood profile) (bp_city profile) (bp_state profile)).

Definition stripSlash (s : string) : string :=
  if endsWith "/" s then String.substring 0 (String.length s - 1) s else s.

Definition checkoutReturnUrl (orderId : string) : string :=
  let base := match PUBLIC_SITE_URL with Some u => u | None => default "" PANEL_URL end in
  stripSlash base +:+ "/client/orders/" +:+ orderId.

Definition loadBillingProfile (userId : string) : MW BillingProfile :=
  d ← gets w_db;
  u ← orThrow (findId userId (db_users d)) RecordNotFound;
  mret (mkProfile userId (usr_email u) (usr_cpf u) (usr_firstName u) (usr_lastName u) (usr_postalCode u)
          (usr_addressLine u) (usr_addressNumber u) (usr_neighborhood u) (usr_city u) (usr_state u)).

(** The live, unpaid checkout of the same user and plan. *)
Definition duplicateOf (userId planId : string) (o : Order) : bool :=
  (or_userId o =s userId) && (or_planId o =s planId) && (or_kind o =s plan_initial) && (or_status o =s Ord_pending) &&
  bool_decide (is_Some (or_subscriptionId o)) &&
  match or_expiresAt o with Some e => e >? now | None => false end.

Definition checkoutTtlMinutes (m : PaymentMethod) : Z :=
  let configured := default 1440 CHECKOUT_ORDER_TTL_MINUTES in
  if m =s boleto then Z.max configured (3 * 24 * 60) else configured.

Inductive CheckoutTx :=
  | Reused (order : Order)
  | Fresh (order : Order) (subscriptionId planName : string) (period : BillingPeriod).

Definition planSnapshot (plan : Plan) : OrderConfigSnapshot :=
  mkSnapshot None None None
    (Some (mkPlanSnapshot (pl_id plan) (pl_name plan) (pl_memoryMb plan) (pl_diskMb plan) (pl_cpuLimitPercent plan))).

(** The duplicate is reused when method and provider are the same, cancelled otherwise. *)
Definition reuseOrCancel (userId : string) (dto : CreateCheckoutDto) (providerName : string) (plan : Plan)
    : MW (option Order) :=
  d ← gets w_db;
  match findFirst (duplicateOf userId (pl_id plan)) (db_orders d) with
  | None => mret None
  | Some o =>
    if (or_paymentMethod o =s Some (co_paymentMethod dto)) && (or_provider o =s providerName) then mret (Some o)
    else
      updateOrder (or_id o) (fun o => o <| or_status := Ord_cancelled |>) ;;
      match or_subscriptionId o with
      | Some sid => updateSubscription sid (fun s => s <| sb_status := Sub_cancelled |>) ;; mret None
      | None => mret None
      end
  end.

Definition freshCheckout (userId : string) (dto : CreateCheckoutDto) (providerName : string) (plan : Plan)
    : MW CheckoutTx :=
  subscription ← createPendingSubscription now userId plan;
  updateSubscription (sb_id subscription) (fun s =>
    s <| sb_paymentMethod := Some (co_paymentMethod dto) |> <| sb_paymentProvider := providerName |>) ;;
  reference ← generateExternalReference;
  n ← freshN;
  order ← insertOrder (newOrder (uuidv7 n) reference userId (pl_id plan) (Some (sb_id subscription)) plan_initial
            (pl_priceCents plan) (pl_currency plan) providerName (Some (co_paymentMethod dto)) Prov_pending
            (Some (now + checkoutTtlMinutes (co_paymentMethod dto) * 60000)) (planSnapshot plan));
  mret (Fresh order (sb_id subscription) (pl_name plan) (pl_billingPeriod plan)).

(** The transaction of [createCheckoutOrder]. *)
Definition checkoutTx (userId : string) (dto : CreateCheckoutDto) (providerName : string) : MW CheckoutTx :=
  plan ← lockAndValidatePlanForSubscription (co_planId dto);
  reused ← reuseOrCancel userId dto providerName plan;
  match reused with
  | Some order => mret (Reused order)
  | None => freshCheckout userId dto providerName plan
  end.

Record StartInput := mkStart {
  st_userId : string; st_description : string; st_amountCents : Z; st_currency : string;
  st_paymentMethod : PaymentMethod; st_billingPeriod : BillingPeriod; st_expiresAt : Z;
  st_externalReference : string; st_payerEmail : option string; st_provider : string }.

Definition findOrderOrThrow (id : string) : MW Order :=
  d ← gets w_db; orThrow (findId id (db_orders d)) RecordNotFound.

(** The [try] block of [startProviderSubscription]. *)
Definition startCharge (orderId subscriptionId : string) (input : StartInput) : MW unit :=
  provider ← lift (registryGet (st_provider input));
  profile ← withRLS (loadBillingProfile (st_userId input));
  let payer := toPayerInput profile (st_payerEmail input) in
  let charge := fun expires period back =>
    mkCharge payer (st_amountCents input) (st_currency input) (st_description input) (st_externalReference input)
      ("order-" +:+ orderId) expires period back in
  match st_paymentMethod input with
  | pix =>
    c ← providerCall (PixChargeCall ("order-" +:+ orderId) (st_externalReference input) (st_amountCents input))
          (pp_createPixCharge provider) (charge (Some (st_expiresAt input)) None None);
    recordFromGateway orderId (px_payment c) ;;
    withRLS (updateOrder orderId (fun o => o <| or_pixQrCode := Some (px_qrCode c) |> <| or_pixQrCodeBase64 := Some (px_qrCodeBase64 c) |>)) ;;
    mret tt
  | boleto =>
    c ← providerCall (BoletoChargeCall ("order-" +:+ orderId) (st_externalReference input) (st_amountCents input))
          (pp_createBoletoCharge provider) (charge (Some (st_expiresAt input)) None None);
    recordFromGateway orderId (bo_payment c) ;;
    withRLS (updateOrder orderId (fun o => o <| or_boletoDigitableLine := bo_digitableLine c |>
      <| or_boletoUrl := Some (bo_ticketUrl c) |> <| or_expiresAt := Some (default (st_expiresAt input) (bo_expiresAt c)) |>)) ;;
    mret tt
  | card =>
    c ← providerCall (CardSubscriptionCall ("order-" +:+ orderId) (st_externalReference input) (st_amountCents input))
          (pp_createCardSubscription provider)
          (charge None (Some (st_billingPeriod input)) (Some (checkoutReturnUrl orderId)));
    withRLS (
      updateSubscription subscriptionId (fun s => s <| sb_externalSubscriptionId := Some (gs_id c) |>) ;;
      updateOrder orderId (fun o => o <| or_checkoutUrl := gs_initPoint c |> <| or_externalPreferenceId := Some (gs_id c) |>)) ;;
    mret tt
  end.

Definition startProviderSubscription (orderId subscriptionId : string) (input : StartInput) : MW Order :=
  tryCatch (startCharge orderId subscriptionId input) (fun err =>
    withRLS (updateOrder orderId (fun o => o <| or_status := Ord_failed |>)) ;;
    match err with
    | ProviderRequest _ status =>
      if (400 <=? status) && (status <? 500)
      then throw (Http "O provedor de pagamento recusou os dados da cobrança. Confira seus dados cadastrais e tente novamente." 422)
      else throw (Http "O provedor de pagamento está indisponível. Tente novamente em instantes." 502)
    | _ => throw err
    end) ;;
  withRLS (findOrderOrThrow orderId).

Definition createCheckoutOrder (userId : string) (dto : CreateCheckoutDto) (ip : option string) : MW Order :=
  checkCheckoutRateLimit userId ip ;;
  let providerName := default "mercadopago" (co_provider dto) in
  provider ← lift (registryGet providerName);
  throwIf (pp_isConfigured provider =s Some false) (Conflict ("PAYMENT_PROVIDER_UNAVAILABLE: " +:+ providerName)) ;;
  throwIf (negb (bool_decide (co_paymentMethod dto ∈ methodsOf provider)))
    (Conflict ("PAYMENT_METHOD_UNAVAILABLE: " +:+ methodStr (co_paymentMethod dto) +:+ " is not available with " +:+ providerName)) ;;
  created ← withRLS (checkoutTx userId dto providerName);
  match created with
  | Reused order => withRLS (findOrderOrThrow (or_id order))
  | Fresh order subscriptionId planName period =>
    record "payment.checkout.created" (Some userId) "order" (or_id order) ;;
    startProviderSubscription (or_id order) subscriptionId
      {| st_userId := userId; st_description := if planName =s "" then "Assinatura" else planName;
         st_amountCents := or_amountCents order; st_currency := or_currency order;
         st_paymentMethod := co_paymentMethod dto; st_billingPeriod := period;
         st_expiresAt := default 0 (or_expiresAt order); st_externalReference := or_externalReference order;
         st_payerEmail := (fun e => toLowerCase (trim e)) <$> co_payerEmail dto; st_provider := providerName |}
  end.

(** The new renewal order with its payer, plan name, expiry and method. *)
Definition openRenewal (subscription : Subscription) (method : PaymentMethod)
    : MW (Order * BillingProfile * string * Z * PaymentMethod) :=
  let graceDays := default 3 BILLING_GRACE_DAYS in
  let periodEnd := default now (sb_currentPeriodEndsAt subscription) in
  let expiresAt := clampOfflineExpiry now method (periodEnd + graceDays * DAY_MS) in
  reference ← generateExternalReference;
  n ← freshN;
  order ← insertOrder (newOrder (uuidv7 n) reference (sb_userId subscription) (sb_planId subscription)
            (Some (sb_id subscription)) plan_renewal (sb_priceCents subscription) (sb_currency subscription)
            (sb_paymentProvider subscription) (Some method) Prov_not_required (Some expiresAt) emptySnapshot);
  profile ← loadBillingProfile (sb_userId subscription);
  d ← gets w_db;
  let planName := default "Assinatura" (pl_name <$> findId (sb_planId subscription) (db_plans d)) in
  mret (order, profile, planName, expiresAt, method).

(** A renewal order still waiting for its payment. *)
Definition liveRenewal (subscriptionId : string) (o : Order) : bool :=
  (or_subscriptionId o =s Some subscriptionId) && (or_kind o =s plan_renewal) && (or_status o =s Ord_pending) &&
  match or_expiresAt o with Some e => e >? now | None => false end.

(** The transaction of [createOfflineRenewalCharge]; [None] when there is nothing to do. *)
Definition renewalTx (subscriptionId : string) : MW (option (Order * BillingProfile * string * Z * PaymentMethod)) :=
  d ← gets w_db;
  match findId subscriptionId (db_subscriptions d) with
  | None => mret None
  | Some subscription =>
    match sb_paymentMethod subscription with
    | None | Some card => mret None
    | Some method =>
      match findFirst (liveRenewal subscriptionId) (db_orders d) with
      | Some _ => mret None
      | None => x ← openRenewal subscription method; mret (Some x)
      end
    end
  end.

Definition chargeRenewal (order : Order) (profile : BillingProfile) (planName : string) (expiresAt : Z)
    (method : PaymentMethod) : MW unit :=
  provider ← lift (registryGet (or_provider order));
  let key := "order-" +:+ or_id order in
  let input := mkCharge (toPayerInput profile None) (or_amountCents order) (or_currency order) planName
                 (or_externalReference order) key (Some expiresAt) None None in
  match method with
  | pix =>
    c ← providerCall (PixChargeCall key (or_externalReference order) (or_amountCents order)) (pp_createPixCharge provider) input;
    recordFromGateway (or_id order) (px_payment c) ;;
    withRLS (updateOrder (or_id order) (fun o => o <| or_pixQrCode := Some (px_qrCode c) |> <| or_pixQrCodeBase64 := Some (px_qrCodeBase64 c) |>)) ;;
    mret tt
  | _ =>
    c ← providerCall (BoletoChargeCall key (or_externalReference order) (or_amountCents order)) (pp_createBoletoCharge provider) input;
    recordFromGateway (or_id order) (bo_payment c) ;;
    withRLS (updateOrder (or_id order) (fun o => o <| or_boletoDigitableLine := bo_digitableLine c |>
      <| or_boletoUrl := Some (bo_ticketUrl c) |> <| or_expiresAt := Some (default expiresAt (bo_expiresAt c)) |>)) ;;
    mret tt
  end.

Definition createOfflineRenewalCharge (subscriptionId : string) : MW (option string) :=
  prepared ← withRLS (renewalTx subscriptionId);
  match prepared with
  | None => mret None
  | Some (order, profile, planName, expiresAt, method) =>
    tryCatch (
      chargeRenewal order profile planName expiresAt method ;;
      record "payment.renewal.created" None "order" (or_id order) ;;
      mret (Some (or_id order)))
    (fun err =>
      withRLS (updateOrder (or_id order) (fun o => o <| or_status := Ord_failed |>)) ;;
      throw err)
  end.

Definition cancelSubscriptionForUser (userId subscriptionId : string) (reason : option string) (atPeriodEnd : bool)
    : MW Subscription :=
  subscription ← withRLS (
    d ← gets w_db;
    mret (findFirst (fun s => (sb_id s =s subscriptionId) && (sb_userId s =s userId)) (db_subscriptions d)));
  subscription ← orThrow subscription (NotFound "Subscription not found");
  match truthy (sb_externalSubscriptionId subscription) with
  | None => mret tt
  | Some ext =>
    provider ← lift (registryGet (sb_paymentProvider subscription));
    providerCall (CancelSubscriptionCall (sb_paymentProvider subscription) ext) (pp_cancelSubscription provider) ext
  end ;;
  if atPeriodEnd && ((sb_status subscription =s Sub_active) || (sb_status subscription =s Sub_past_due)) then
    updated ← withRLS (updateSubscription subscriptionId (fun s =>
      s <| sb_cancelAtPeriodEnd := true |> <| sb_cancelReason := reason |>));
    record "subscription.cancel_at_period_end" (Some userId) "subscription" subscriptionId ;;
    mret updated
  else
    cancelled ← cancelForUser now userId subscriptionId reason;
    match truthy (sb_serverId subscription) with
    | None => mret tt
    | Some serverId =>
      tryCatch (suspend now serverId "billing: subscription cancelled" None by_billing) (fun _ => mret tt)
    end ;;
    mret cancelled.

Definition retryProvisioningAsAdmin (orderId actorId : string) : MW unit :=
  d ← gets w_db;
  order ← orThrow (findId orderId (db_orders d)) (NotFound "Order not found");
  throwIf (negb (or_status order =s Ord_paid) || negb (or_provisioningStatus order =s Prov_failed))
    (Conflict "ORDER_NOT_RETRYABLE: only a paid order with failed provisioning can be retried") ;;
  record "admin.order.retry_provisioning" (Some actorId) "order" orderId ;;
  enqueue (EnqueueProvision orderId).

(** [payments: { orderBy: { createdAt: 'desc' }, take: 1 }]: rows are appended, so
    the latest payment of an order is its last row. *)
Definition latestPayment (d : Db) (orderId : string) : option Payment :=
  findFirst (fun p => pm_orderId p =s orderId) (rev (db_payments d)).

Definition refundAsAdmin (orderId actorId : string) : MW (option string) :=
  d ← gets w_db;
  order ← orThrow (findId orderId (db_orders d)) (NotFound "Order not found");
  throwIf (negb (or_status order =s Ord_paid)) (Conflict "ORDER_NOT_REFUNDABLE: only a paid order can be refunded") ;;
  payment ← orThrow (latestPayment d orderId) (Conflict "ORDER_NOT_REFUNDABLE: no payment on file for this order");
  provider ← lift (registryGet (or_provider order));
  result ← providerCall (RefundCall (or_provider order) (pm_id payment)) (pp_refund provider) (pm_id payment);
  record "admin.order.refund" (Some actorId) "order" orderId ;;
  mret (rf_status result).

Definition archiveOrdersAsAdmin (orderIds : list string) (actorId : string) : MW Z :=
  let ids := remove_dups orderIds in
  archivedIds ← withRLS (
    d ← gets w_db;
    let matches := List.filter (fun o => bool_decide (or_id o ∈ ids) && (or_archivedAt o =s None)) (db_orders d) in
    match matches with
    | [] => mret []
    | _ =>
      let found := map or_id matches in
      onDb (fun d => d <| db_orders := updWhere (fun o => bool_decide (or_id o ∈ found))
                            (fun o => o <| or_archivedAt := Some now |>) (db_orders d) |>) ;;
      mret found
    end);
  forEach archivedIds (fun id => record "admin.order.archived" (Some actorId) "order" id) ;;
  mret (Z.of_nat (List.length archivedIds)).

End Orders.

#[export] Hint Unfold recordFromGateway insertOrder generateExternalReference loadBillingProfile findOrderOrThrow
  providerCall providerRead suspend unsuspend getServer applyTransition writeTransition applyRenewal writeDate cancelForUser
  createPendingSubscription lockAndValidatePlanForSubscription checkCheckoutRateLimit : frame.

(** ** Lemmas: how orders evolve *)

Lemma providerCall_run {A I} c (op : list ExtCall -> I -> Res A) i w r w' :
  providerCall c op i w = (r, w') <-> op (w_calls w) i = r /\ w' = w <| w_calls := w_calls w ++ [c] |>.
Proof. unfold providerCall, call, lift, modify, gets, mbind, M_bind. simpl. naive_solver. Qed.

Definition orderEvo (T : Order -> Order -> Prop) (w w' : World) : Prop :=
  evolves T (db_orders (w_db w)) (db_orders (w_db w')).

#[export] Instance orderEvo_preorder T `{!PreOrder T} : PreOrder (orderEvo T).
Proof. split; unfold orderEvo; [intros w; reflexivity | intros ???; etransitivity; eauto]. Qed.

Section OrderEvo.
Context (T : Order -> Order -> Prop) `{!PreOrder T}.

Lemma orderEvo_same {A} (m : MW A) : keeps (same (fun w => db_orders (w_db w))) m -> keeps (orderEvo T) m.
Proof. intros K w r w' E. unfold orderEvo. rewrite (K _ _ _ E). reflexivity. Qed.

Lemma updateOrder_evo id f : (forall o, T o (f o)) -> keeps (orderEvo T) (updateOrder id f).
Proof.
  intros Hf. unfold updateOrder. keeps_auto. intros w r w' E%modify_ok. destruct E as [_ ->].
  apply evolves_updId; [apply _|auto].
Qed.

Lemma withRLS_evo {A} (m : MW A) : keeps (orderEvo T) m -> keeps (orderEvo T) (withRLS m).
Proof. intros K. apply keeps_withRLS; [apply _|done|]. intros. unfold orderEvo. simpl. reflexivity. Qed.
End OrderEvo.

Lemma updateOrder_ok id f w o' w' : updateOrder id f w = (Ok o', w') ->
  exists o, findId id (db_orders (w_db w)) = Some o /\ o' = f o /\
    w' = w <| w_db := (w_db w) <| db_orders := updId id f (db_orders (w_db w)) |> |>.
Proof.
  unfold updateOrder, onDb. intros Hr. mok. subst. destruct (findId id _) as [o|]; mok; subst; eauto.
Qed.

Lemma updateOrder_run id f w o : findId id (db_orders (w_db w)) = Some o ->
  updateOrder id f w = (Ok (f o), w <| w_db := (w_db w) <| db_orders := updId id f (db_orders (w_db w)) |> |>).
Proof. intros E. unfold updateOrder, mbind, M_bind, gets, onDb, modify, mret, M_ret. by rewrite E. Qed.

(** What no operation changes about an order once it exists. *)
Definition terms (o : Order) :=
  (or_id o, or_externalReference o, or_userId o, or_planId o, or_subscriptionId o, or_kind o, or_amountCents o,
   or_currency o, or_provider o).

Definition sameTerms (o o' : Order) : Prop := terms o' = terms o /\ or_status o' = or_status o.

#[export] Instance sameTerms_preorder : PreOrder sameTerms.
Proof. split; unfold sameTerms; [done|]. intros ??? [] []. split; congruence. Qed.

Lemma terms_id o o' : terms o' = terms o -> rid o' = rid o.
Proof. unfold terms. intros E. injection E. intros. done. Qed.

Section Charge.
Context `{Platform} `{Outside} `{Providers} `{Config} (now : Z).

Definition chargeCall (m : PaymentMethod) (key ref : string) (cents : Z) : ExtCall :=
  match m with
  | pix => PixChargeCall key ref cents
  | boleto => BoletoChargeCall key ref cents
  | card => CardSubscriptionCall key ref cents
  end.

Lemma startCharge_orders orderId sid input : keeps (orderEvo sameTerms) (startCharge orderId sid input).
Proof.
  unfold startCharge. repeat first [apply withRLS_evo; [apply _|] | apply updateOrder_evo; [apply _|done] | keeps_step
    | apply orderEvo_same; [apply _|]; by frame].
Qed.

Lemma startCharge_calls orderId sid input w r w' :
  startCharge orderId sid input w = (r, w') ->
  (w_calls w' = w_calls w /\ exists e, r = Throw e) \/
  w_calls w' = w_calls w ++ [chargeCall (st_paymentMethod input) ("order-" +:+ orderId) (st_externalReference input) (st_amountCents input)].
Proof.
  unfold startCharge. intros Hr.
  apply bind_inv in Hr as [(e & Hr & ->)|(p & w1 & E1 & Hr)]; [apply lift_ok in Hr as [_ ->]; eauto|].
  apply lift_ok in E1 as [_ ->].
  apply bind_inv in Hr as [(e & Hr & ->)|(prof & w1 & E1 & Hr)].
  { left. split; [|eauto]. eapply (keeps_same w_calls); [|exact Hr]. frame. }
  assert (w_calls w1 = w_calls w) as <- by (eapply (keeps_same w_calls); [|exact E1]; frame).
  right. destruct (st_paymentMethod input); simpl.
  all: apply bind_inv in Hr as [(e & Hr & ->)|(c & w2 & E2 & Hr)]; [apply providerCall_run in Hr as [_ ->]; done|].
  all: apply providerCall_run in E2 as [_ ->].
  all: match type of Hr with ?m _ = _ => assert (keeps (same w_calls) m) as K by frame; exact (K _ _ _ Hr) end.
Qed.

End Charge.

Lemma updateSubscription_ok id f w s' w' : updateSubscription id f w = (Ok s', w') ->
  exists s, findId id (db_subscriptions (w_db w)) = Some s /\ s' = f s /\
    w' = w <| w_db := (w_db w) <| db_subscriptions := updId id f (db_subscriptions (w_db w)) |> |>.
Proof.
  unfold updateSubscription, onDb. intros Hr. mok. subst. destruct (findId id _) as [o|]; mok; subst; eauto.
Qed.

(** Order ids are unique, and the ids still to be drawn are unused. *)
Definition ordersOk `{Platform} (w : World) : Prop :=
  NoDup (map rid (db_orders (w_db w))) /\ forall n, (w_next w <= n)%N -> uuidv7 n ∉ map rid (db_orders (w_db w)).

Section Checkout.
Context `{Platform} `{Outside} `{Providers} `{Config} (now : Z).

Lemma createPendingSubscription_ok u plan w s w' : createPendingSubscription now u plan w = (Ok s, w') ->
  s = newSubscription (uuidv7 (w_next w)) u plan /\ db_orders (w_db w') = db_orders (w_db w) /\ (w_next w <= w_next w')%N /\
  db_plans (w_db w') = db_plans (w_db w).
Proof.
  unfold createPendingSubscription, freshN, addSubscriptionEvent, onDb. intros Hr. mok. simplify_eq. simpl.
  split_and!; [done|done|lia|done].
Qed.

Lemma lockAndValidate_ok id w plan w' : lockAndValidatePlanForSubscription id w = (Ok plan, w') ->
  w' = w /\ plan ∈ db_plans (w_db w) /\ pl_id plan = id /\ pl_deletedAt plan = None /\ pl_isPublic plan = true.
Proof.
  unfold lockAndValidatePlanForSubscription. intros Hr. mok. subst.
  match goal with Hf : findFirst _ (db_plans _) = Some _ |- _ => apply findFirst_some in Hf as [Hp E] end.
  rewrite !andb_true_iff, !bool_decide_eq_true in E. naive_solver.
Qed.

Lemma reuseOrCancel_ok u dto prov plan w o w' : reuseOrCancel now u dto prov plan w = (Ok o, w') ->
  map rid (db_orders (w_db w')) = map rid (db_orders (w_db w)) /\ w_next w' = w_next w /\
  (forall o', o = Some o' -> w' = w /\ o' ∈ db_orders (w_db w) /\ duplicateOf now u (pl_id plan) o' = true /\
     or_paymentMethod o' = Some (co_paymentMethod dto) /\ or_provider o' = prov).
Proof.
  unfold reuseOrCancel. intros Hr. apply bind_ok in Hr as (d & w1 & E & Hr). mok. subst.
  destruct (findFirst _ _) as [x|] eqn:Ex; [|by mok; subst]. apply findFirst_some in Ex as [Hx Hd].
  destruct (_ && _) eqn:C; [mok; subst; rewrite andb_true_iff, !bool_decide_eq_true in C; naive_solver|].
  apply bind_ok in Hr as (? & ? & E & Hr). apply updateOrder_ok in E as (? & _ & _ & ->).
  destruct (or_subscriptionId x).
  - apply bind_ok in Hr as (? & ? & E & Hr). apply updateSubscription_ok in E as (? & _ & _ & ->). mok. subst.
    simpl. by rewrite updId_rids.
  - mok. subst. simpl. by rewrite updId_rids.
Qed.

Lemma freshCheckout_ok u dto prov plan w c w' : freshCheckout now u dto prov plan w = (Ok c, w') ->
  exists ref n, (w_next w <= n)%N /\
  let sid := uuidv7 (w_next w) in
  let o := newOrder (uuidv7 n) ref u (pl_id plan) (Some sid) plan_initial (pl_priceCents plan) (pl_currency plan) prov
    (Some (co_paymentMethod dto)) Prov_pending (Some (now + checkoutTtlMinutes (co_paymentMethod dto) * 60000)) (planSnapshot plan) in
  c = Fresh o sid (pl_name plan) (pl_billingPeriod plan) /\ db_orders (w_db w') = db_orders (w_db w) ++ [o].
Proof.
  unfold freshCheckout. intros Hr. apply bind_ok in Hr as (s & w1 & E1 & Hr).
  apply createPendingSubscription_ok in E1 as (-> & O1 & N1 & _).
  apply bind_ok in Hr as (? & ? & E & Hr). apply updateSubscription_ok in E as (? & _ & _ & ->).
  unfold generateExternalReference, insertOrder, freshN, onDb in Hr. mok. simplify_eq. simpl.
  eexists _, _. split; [|split; [reflexivity|by rewrite O1]]. lia.
Qed.

(** A row of the transaction that is not the reused order is a fresh one at the plan's price. *)
Lemma checkoutTx_ok u dto prov w c w' : ordersOk w -> checkoutTx now u dto prov w = (Ok c, w') ->
  match c with
  | Reused o => w' = w /\ o ∈ db_orders (w_db w) /\ duplicateOf now u (co_planId dto) o = true /\
      or_paymentMethod o = Some (co_paymentMethod dto) /\ or_provider o = prov
  | Fresh o sid name period => exists plan,
      plan ∈ db_plans (w_db w) /\ pl_id plan = co_planId dto /\ pl_deletedAt plan = None /\ pl_isPublic plan = true /\
      or_amountCents o = pl_priceCents plan /\ or_currency o = pl_currency plan /\ or_userId o = u /\
      or_status o = Ord_pending /\ findId (or_id o) (db_orders (w_db w)) = None /\
      findId (or_id o) (db_orders (w_db w')) = Some o
  end.
Proof.
  intros [Hnd Hfr]. unfold checkoutTx. intros Hr. apply bind_ok in Hr as (plan & w1 & E1 & Hr).
  apply lockAndValidate_ok in E1 as (-> & Hp & Hid & Hdel & Hpub).
  apply bind_ok in Hr as (re & w2 & E2 & Hr). apply reuseOrCancel_ok in E2 as (I1 & I2 & I3). rewrite Hid in I3.
  destruct re as [o|].
  { destruct (I3 o eq_refl) as (-> & ?). mok. by subst. }
  destruct (freshCheckout_ok _ _ _ _ _ _ _ Hr) as (ref & n & Hn & -> & D).
  exists plan. split_and!; try done.
  - simpl. apply findId_none_ids. apply Hfr. lia.
  - rewrite D. rewrite findId_app_none; [by rewrite bool_decide_eq_true_2|].
    apply findId_none_ids. rewrite I1. apply Hfr. lia.
Qed.
End Checkout.

Section CheckoutSpec.
Context `{Platform} `{Outside} `{Providers} `{Config} (now : Z).

Lemma findOrder_run id w o : findId id (db_orders (w_db w)) = Some o ->
  withRLS (findOrderOrThrow id) w = (Ok o, w).
Proof. intros E. unfold withRLS, findOrderOrThrow, mbind, M_bind, gets, orThrow, mret, M_ret. by rewrite E. Qed.

(** A charge attempt leaves its order pending with the charge made, or failed. *)
Lemma startProviderSubscription_spec oid sid input w o r w' :
  findId oid (db_orders (w_db w)) = Some o -> or_status o = Ord_pending ->
  startProviderSubscription oid sid input w = (r, w') ->
  (w_calls w' = w_calls w \/
   w_calls w' = w_calls w ++ [chargeCall (st_paymentMethod input) ("order-" +:+ oid) (st_externalReference input) (st_amountCents input)]) /\
  exists o', findId oid (db_orders (w_db w')) = Some o' /\ terms o' = terms o /\
    match r with
    | Ok x => x = o' /\ or_status o' = Ord_pending /\ w_calls w' <> w_calls w
    | Throw _ => or_status o' = Ord_failed
    end.
Proof.
  intros Ho Hp. unfold startProviderSubscription. intros Hr.
  assert (forall w1 x, startCharge oid sid input w = (x, w1) -> exists o1, findId oid (db_orders (w_db w1)) = Some o1 /\ sameTerms o o1) as Evo.
  { intros w1 x E. apply startCharge_orders in E. eapply evolves_findId in E; [|by intros ?? [? _]; apply terms_id|exact Ho]. done. }
  apply bind_inv in Hr as [(e & Hr & ->)|(u & w1 & E1 & Hr)].
  - apply tryCatch_inv in Hr as [(? & _ & [=])|(e1 & w1 & E1 & Hr)].
    destruct (Evo _ _ E1) as (o1 & Ho1 & T1 & S1). apply startCharge_calls in E1.
    unfold withRLS at 1 in Hr. unfold mbind at 1, M_bind at 1 in Hr. rewrite (updateOrder_run _ _ _ _ Ho1) in Hr.
    assert (w' = w1 <| w_db := (w_db w1) <| db_orders := updId oid (fun o => o <| or_status := Ord_failed |>) (db_orders (w_db w1)) |> |>) as ->.
    { destruct e1; try (by injection Hr). destruct (_ && _); by injection Hr. }
    simpl. split; [naive_solver|]. eexists. split; [by apply findId_updId|]. done.
  - assert (startCharge oid sid input w = (Ok u, w1)) as E.
    { apply tryCatch_inv in E1 as [(? & ? & ?)|(e1 & w2 & E1 & E2)]; [congruence|exfalso].
      apply bind_ok in E2 as (? & ? & _ & E2). destruct e1; try done. by destruct (_ && _). }
    destruct (Evo _ _ E) as (o1 & Ho1 & T1 & S1). apply startCharge_calls in E.
    rewrite (findOrder_run _ _ _ Ho1) in Hr. injection Hr as <- <-.
    destruct E as [(_ & ? & [=])|E]. split; [eauto|]. exists o1. split_and!; try done; [congruence|].
    rewrite E. intros F. apply (f_equal List.length) in F. rewrite length_app in F. simpl in F. lia.
Qed.

Lemma checkRateLimit_frame u ip w r w' : checkCheckoutRateLimit u ip w = (r, w') ->
  w_db w' = w_db w /\ w_calls w' = w_calls w /\ w_next w' = w_next w.
Proof.
  intros E. split_and!; [eapply (keeps_same w_db)|eapply (keeps_same w_calls)|eapply (keeps_same w_next)];
    try exact E; frame.
Qed.

Hint Unfold checkoutTx reuseOrCancel freshCheckout : frame.

(** C23: a checkout asks the gateway for at most one charge, of exactly the plan's
    current price for a public, live plan, whatever the client sent and whether or
    not it succeeds; the order it leaves is pending when the charge was created and
    failed when it was not. *)
Theorem checkout_single_charge u dto ip w r w' :
  ordersOk w -> createCheckoutOrder now u dto ip w = (r, w') ->
  w_calls w' = w_calls w \/
  exists plan oid ref o, plan ∈ db_plans (w_db w) /\ pl_id plan = co_planId dto /\ pl_deletedAt plan = None /\ pl_isPublic plan = true /\
    w_calls w' = w_calls w ++ [chargeCall (co_paymentMethod dto) ("order-" +:+ oid) ref (pl_priceCents plan)] /\
    findId oid (db_orders (w_db w)) = None /\ findId oid (db_orders (w_db w')) = Some o /\
    or_externalReference o = ref /\ or_amountCents o = pl_priceCents plan /\ or_userId o = u /\
    match r with Ok x => x = o /\ or_status o = Ord_pending | Throw _ => or_status o = Ord_failed end.
Proof.
  intros Hok. unfold createCheckoutOrder. intros Hr.
  apply bind_inv in Hr as [(e & Hr & ->)|(? & w1 & E1 & Hr)].
  { left. apply checkRateLimit_frame in Hr. naive_solver. }
  apply checkRateLimit_frame in E1 as (D1 & C1 & N1).
  assert (ordersOk w1) as Hok1 by (unfold ordersOk; by rewrite D1, N1). rewrite <- D1, <- C1. clear Hok D1 C1 N1.
  do 3 (apply bind_inv in Hr as [(e & Hr & ->)|(? & w2 & E2 & Hr)];
    [left; eapply (keeps_same w_calls); [|exact Hr]; frame|mok; subst]).
  apply bind_inv in Hr as [(e & Hr & ->)|(c & w2 & E2 & Hr)].
  { left. eapply (keeps_same w_calls); [|exact Hr]. frame. }
  assert (w_calls w2 = w_calls w1) as C2 by (eapply (keeps_same w_calls); [|exact E2]; frame).
  rewrite withRLS_ok in E2. apply checkoutTx_ok in E2; [|done]. destruct c as [o|o sid nm per].
  { left. rewrite <- C2. eapply (keeps_same w_calls); [|exact Hr]. frame. }
  destruct E2 as (plan & ? & ? & ? & ? & Ha & _ & Hu & Hp & Hn & Hf).
  apply bind_ok_record in Hr as (w3 & D3 & C3 & Hr). rewrite <- D3 in Hf. rewrite <- C2, <- C3.
  apply startProviderSubscription_spec with (o := o) in Hr as ([Hc|Hc] & o' & Ho' & T & Hr); [by left| |done|done].
  right. exists plan, (or_id o), (or_externalReference o), o'. simpl in Hc. rewrite Ha in Hc.
  unfold terms in T. injection T as T1 T2 T3 T4 T5 T6 T7 T8 T9. rewrite D3 in *.
  split_and!; try done; try congruence. by destruct r; destruct_and?.
Qed.
End CheckoutSpec.

Section PaymentTheorems.
Context `{Platform} `{Outside} `{Providers} `{Config} (now : Z).

Hint Unfold checkoutTx reuseOrCancel freshCheckout startProviderSubscription startCharge : frame.

(** Retrying a checkout that is still pending, with the same method and
    provider, resumes it: the same order comes back, no row changes, and the
    gateway is not called again. *)
Theorem checkout_resume u dto ip w o x w' :
  ordersOk w -> findFirst (duplicateOf now u (co_planId dto)) (db_orders (w_db w)) = Some o ->
  or_paymentMethod o = Some (co_paymentMethod dto) -> or_provider o = default "mercadopago" (co_provider dto) ->
  createCheckoutOrder now u dto ip w = (Ok x, w') ->
  x = o /\ w_db w' = w_db w /\ w_calls w' = w_calls w.
Proof.
  intros [Hnd _] Hf Hm Hpr. unfold createCheckoutOrder. intros Hr.
  apply bind_ok in Hr as (? & w1 & E1 & Hr). apply checkRateLimit_frame in E1 as (D1 & C1 & _). rewrite <- D1, <- C1 in *.
  do 3 (apply bind_ok in Hr as (? & ? & E & Hr); first [apply lift_ok in E as [_ ->] | apply throwIf_ok in E as [_ ->]]).
  apply bind_ok in Hr as (c & w2 & E2 & Hr). rewrite withRLS_ok in E2. unfold checkoutTx in E2.
  apply bind_ok in E2 as (plan & w3 & E3 & E2). apply lockAndValidate_ok in E3 as (-> & _ & Hid & _).
  apply bind_ok in E2 as (re & w3 & E3 & E2). unfold reuseOrCancel in E3.
  apply bind_ok in E3 as (? & ? & E & E3). apply gets_ok in E as [[= ->] ->]. rewrite Hid, Hf, Hm, Hpr in E3.
  rewrite !bool_decide_eq_true_2 in E3 by done. simpl in E3. apply mret_ok in E3 as [[= ->] ->].
  apply mret_ok in E2 as [[= ->] ->].
  apply findFirst_some in Hf as [Ho _]. destruct (findId_elem _ _ Ho) as [o' Eo].
  change (rid o) with (or_id o) in Eo. rewrite (findOrder_run _ _ _ Eo) in Hr. injection Hr as <- <-.
  split; [|done]. apply findId_some in Eo as [Ho' Eo]. by eapply (NoDup_map_inj rid).
Qed.

(** The counter behind a rate-limit key. *)
Definition counter (w : World) (key : string) : Z := default 0 (snd <$> findFirst (fun p => fst p =s key) (w_counters w)).

Lemma incr_counter key key' w : counter (incr key w).2 key' = if key =s key' then counter w key + 1 else counter w key'.
Proof.
  unfold incr, counter. simpl. destruct (bool_decide_reflect (key = key')) as [->|Hne]; simpl; [done|].
  do 2 f_equal. unfold findFirst. induction (w_counters w) as [|[k v] l IH]; simpl; [done|].
  destruct (bool_decide_reflect (k = key)) as [->|Hk]; simpl.
  - by rewrite bool_decide_eq_false_2.
  - destruct (k =s key'); done.
Qed.

Lemma checkRateLimit_spec u ip w :
  let key := "checkout_rl:user:" +:+ u in
  let r := checkCheckoutRateLimit u ip w in
  counter r.2 key = counter w key + 1 /\ (counter w key >= 10 -> exists msg, r.1 = Throw (Http msg 429)).
Proof.
  intros key r. unfold r, checkCheckoutRateLimit, mbind, M_bind. fold key.
  change (incr key w) with (Ok (counter w key + 1), (incr key w).2). cbn beta iota.
  assert (counter (incr key w).2 key = counter w key + 1) as K by (rewrite incr_counter; by rewrite bool_decide_eq_true_2).
  assert (forall n w1, counter w1 key = counter w key + 1 ->
    let x := throwIf ((counter w key + 1 >? CHECKOUT_RL_LIMIT_PER_USER) || (n >? CHECKOUT_RL_LIMIT_PER_IP))
      (Http "Muitas tentativas de checkout em pouco tempo — aguarde antes de tentar novamente." 429) w1 in
    counter x.2 key = counter w key + 1 /\ (counter w key >= 10 -> exists msg, x.1 = Throw (Http msg 429))) as T.
  { intros n w1 Hc x. unfold x, throwIf. split; [by destruct (_ || _)|]. intros Hge.
    rewrite (proj2 (Z.gtb_lt (counter w key + 1) CHECKOUT_RL_LIMIT_PER_USER)) by (unfold CHECKOUT_RL_LIMIT_PER_USER; lia).
    simpl. eauto. }
  destruct (truthy ip) as [i|]; [|exact (T 0 _ K)].
  apply T. change (counter (incr ("checkout_rl:ip:" +:+ i) (incr key w).2).2 key = counter w key + 1).
  rewrite incr_counter, bool_decide_eq_false_2; [done|]. intros F. discriminate F.
Qed.

(** Every checkout attempt counts against the customer's window, whatever
    its outcome, and once ten were counted the next is refused with 429 before
    any row is written or the gateway is called. *)
Theorem checkout_rate_limit u dto ip w :
  let c := counter w ("checkout_rl:user:" +:+ u) in
  let r := createCheckoutOrder now u dto ip w in
  counter r.2 ("checkout_rl:user:" +:+ u) = c + 1 /\
  (c >= 10 -> (exists msg, r.1 = Throw (Http msg 429)) /\ w_db r.2 = w_db w /\ w_calls r.2 = w_calls w).
Proof.
  intros c r. destruct (checkRateLimit_spec u ip w) as [Hc Ht]. fold c in Hc, Ht.
  assert (forall w1 k, w_counters k = w_counters w1 -> counter k ("checkout_rl:user:" +:+ u) = counter w1 ("checkout_rl:user:" +:+ u)) as Ext
    by (unfold counter; by intros ?? ->).
  unfold r, createCheckoutOrder. destruct (checkCheckoutRateLimit u ip w) as [[v|e] w1] eqn:E.
  - rewrite (bind_run _ _ _ _ _ E). simpl in *. split; [|intros Hge; destruct (Ht Hge) as [? [=]]].
    rewrite <- Hc. apply Ext.
    match goal with |- w_counters (?m w1).2 = _ => assert (keeps (same w_counters) m) as K by frame;
      destruct (m w1) as [a b] eqn:Em; exact (K _ _ _ Em) end.
  - rewrite (bind_throw _ _ _ _ _ E). simpl in *. apply checkRateLimit_frame in E as (D & C & _). naive_solver.
Qed.
End PaymentTheorems.

Section RenewalTheorems.
Context `{Platform} `{Outside} `{Providers} `{Config} (now : Z).

Lemma chargeRenewal_orders o prof nm e m : keeps (orderEvo sameTerms) (chargeRenewal o prof nm e m).
Proof.
  unfold chargeRenewal. repeat first [apply withRLS_evo; [apply _|] | apply updateOrder_evo; [apply _|done] | keeps_step
    | apply orderEvo_same; [apply _|]; by frame].
Qed.

Lemma chargeRenewal_calls o prof nm e m w r w' : m <> card ->
  chargeRenewal o prof nm e m w = (r, w') ->
  (w_calls w' = w_calls w /\ exists x, r = Throw x) \/
  w_calls w' = w_calls w ++ [chargeCall m ("order-" +:+ or_id o) (or_externalReference o) (or_amountCents o)].
Proof.
  intros Hm. unfold chargeRenewal. intros Hr.
  apply bind_inv in Hr as [(x & Hr & ->)|(p & w1 & E1 & Hr)]; [apply lift_ok in Hr as [_ ->]; eauto|].
  apply lift_ok in E1 as [_ ->]. right. destruct m; [| |done]; simpl.
  all: apply bind_inv in Hr as [(x & Hr & ->)|(c & w2 & E2 & Hr)]; [apply providerCall_run in Hr as [_ ->]; done|].
  all: apply providerCall_run in E2 as [_ ->].
  all: match type of Hr with ?m _ = _ => assert (keeps (same w_calls) m) as K by frame; exact (K _ _ _ Hr) end.
Qed.

Definition renewalOrder (n : N) (ref : string) (s : Subscription) (m : PaymentMethod) (expires : Z) : Order :=
  newOrder (uuidv7 n) ref (sb_userId s) (sb_planId s) (Some (sb_id s)) plan_renewal (sb_priceCents s) (sb_currency s)
    (sb_paymentProvider s) (Some m) Prov_not_required (Some expires) emptySnapshot.

Lemma renewalTx_ok sid w x w' : renewalTx now sid w = (Ok x, w') ->
  match x with
  | None => w' = w
  | Some (o, _, _, e, m) => exists s n ref, findId sid (db_subscriptions (w_db w)) = Some s /\
      sb_paymentMethod s = Some m /\ m <> card /\ findFirst (liveRenewal now sid) (db_orders (w_db w)) = None /\
      (w_next w <= n)%N /\ o = renewalOrder n ref s m e /\ db_orders (w_db w') = db_orders (w_db w) ++ [o]
  end.
Proof.
  unfold renewalTx. intros Hr. apply bind_ok in Hr as (d & ? & E & Hr). apply gets_ok in E as [[= ->] ->].
  destruct (findId sid _) as [s|] eqn:Es; [|by mok; subst].
  destruct (sb_paymentMethod s) as [[]|] eqn:Ep; try (by mok; subst).
  all: destruct (findFirst (liveRenewal now sid) _) eqn:El; [by mok; subst|].
  all: unfold openRenewal, generateExternalReference, insertOrder, loadBillingProfile, freshN, onDb in Hr; mok; simplify_eq; simpl in *.
  all: exists s, (w_next w + 1)%N; eexists; split_and!; try done; lia.
Qed.

(** The renewal job never double-charges: it creates a charge only when the
    subscription is paid by pix or boleto and has no live renewal order, at most
    one, for exactly the contracted price; the renewal order is pending when the
    gateway accepted it and failed otherwise, and never asks for a new server.
    In every other case nothing changes. *)
Theorem renewal_charge sid w r w' :
  ordersOk w -> createOfflineRenewalCharge now sid w = (r, w') ->
  (w_db w' = w_db w /\ w_calls w' = w_calls w /\ (r = Ok None \/ exists e, r = Throw e)) \/
  exists s m n ref e o, findId sid (db_subscriptions (w_db w)) = Some s /\ sb_paymentMethod s = Some m /\ m <> card /\
    findFirst (liveRenewal now sid) (db_orders (w_db w)) = None /\
    (w_calls w' = w_calls w \/ w_calls w' = w_calls w ++ [chargeCall m ("order-" +:+ uuidv7 n) ref (sb_priceCents s)]) /\
    findId (uuidv7 n) (db_orders (w_db w')) = Some o /\ terms o = terms (renewalOrder n ref s m e) /\
    match r with
    | Ok x => x = Some (uuidv7 n) /\ or_status o = Ord_pending /\ w_calls w' <> w_calls w
    | Throw _ => or_status o = Ord_failed
    end.
Proof.
  intros [Hnd Hfr]. unfold createOfflineRenewalCharge. intros Hr.
  apply bind_inv in Hr as [(e & Hr & ->)|(x & w1 & E1 & Hr)].
  { left. split_and!; [by eapply withRLS_throw| |eauto]. eapply (keeps_same w_calls); [|exact Hr]. unfold renewalTx, openRenewal. frame. }
  assert (w_calls w1 = w_calls w) as C1 by (eapply (keeps_same w_calls); [|exact E1]; unfold renewalTx, openRenewal; frame).
  rewrite withRLS_ok in E1. apply renewalTx_ok in E1. destruct x as [[[[[o prof] nm] ex] m]|]; [|left; injection Hr as <- <-; subst; by eauto].
  destruct E1 as (s & n & ref & Hs & Hm & Hc & Hl & Hn & -> & D1). right.
  assert (findId (uuidv7 n) (db_orders (w_db w1)) = Some (renewalOrder n ref s m ex)) as Hf.
  { rewrite D1, findId_app_none; [by rewrite bool_decide_eq_true_2|]. apply findId_none_ids. apply Hfr. done. }
  assert (forall y w2, chargeRenewal (renewalOrder n ref s m ex) prof nm ex m w1 = (y, w2) ->
    exists o2, findId (uuidv7 n) (db_orders (w_db w2)) = Some o2 /\ sameTerms (renewalOrder n ref s m ex) o2) as Evo.
  { intros y w2 E. apply chargeRenewal_orders in E. eapply evolves_findId in E; [done|by intros ?? [? _]; apply terms_id|exact Hf]. }
  exists s, m, n, ref, ex. rewrite <- C1. apply tryCatch_inv in Hr as [(y & Hr & ->)|(e & w2 & Hr & Hh)].
  - apply bind_ok in Hr as ([] & w2 & E2 & Hr). destruct (Evo _ _ E2) as (o2 & Ho2 & T2 & S2).
    apply chargeRenewal_calls in E2; [|done]. apply bind_ok_record in Hr as (w3 & D3 & C3 & Hr). mok. subst.
    destruct E2 as [(_ & ? & [=])|E2]. exists o2. rewrite D3, C3. split_and!; try done; [by right|].
    rewrite E2. intros F. apply (f_equal List.length) in F. rewrite length_app in F. simpl in F. lia.
  - assert (chargeRenewal (renewalOrder n ref s m ex) prof nm ex m w1 = (Throw e, w2)) as E2.
    { apply bind_inv in Hr as [(e' & E & [= <-])|(? & ? & _ & Hr)]; [done|].
      apply bind_ok_record in Hr as (? & _ & _ & Hr). by injection Hr. }
    destruct (Evo _ _ E2) as (o2 & Ho2 & T2 & S2). apply chargeRenewal_calls in E2; [|done].
    unfold withRLS, mbind, M_bind in Hh. rewrite (updateOrder_run _ _ _ _ Ho2) in Hh. injection Hh as <- <-.
    assert (findId (uuidv7 n) (updId (uuidv7 n) (fun o : Order => o <| or_status := Ord_failed |>) (db_orders (w_db w2)))
      = Some (o2 <| or_status := Ord_failed |>)) as G by (by apply findId_updId).
    exists (o2 <| or_status := Ord_failed |>). split_and!; try done. naive_solver.
Qed.

(** Cancelling asks the gateway to stop charging before anything else; if
    the gateway refuses, the cancellation fails and no row changes. *)
Theorem cancel_stops_gateway_first userId sid reason atEnd w s ext p r w' :
  findFirst (fun s => (sb_id s =s sid) && (sb_userId s =s userId)) (db_subscriptions (w_db w)) = Some s ->
  truthy (sb_externalSubscriptionId s) = Some ext -> registryGet (sb_paymentProvider s) = Ok p ->
  cancelSubscriptionForUser now userId sid reason atEnd w = (r, w') ->
  (exists rest, w_calls w' = w_calls w ++ CancelSubscriptionCall (sb_paymentProvider s) ext :: rest) /\
  (forall e, pp_cancelSubscription p (w_calls w) ext = Throw e -> r = Throw e /\ w_db w' = w_db w).
Proof.
  intros Hs He Hp. unfold cancelSubscriptionForUser.
  set (c := CancelSubscriptionCall (sb_paymentProvider s) ext).
  unfold mbind at 1, M_bind at 1, withRLS at 1, mbind at 1, M_bind at 1, gets at 1. cbn beta iota.
  unfold mret at 1, M_ret at 1. rewrite Hs. cbn beta iota. unfold orThrow at 1. unfold mbind at 1, M_bind at 1, mret at 1, M_ret at 1.
  rewrite He, Hp. intros Hr. apply bind_inv in Hr as [(e & Hr & ->)|(? & w1 & E1 & Hr)].
  - unfold mbind, M_bind, lift in Hr. apply providerCall_run in Hr as [Hc ->]. split; [by exists []|].
    intros e' He'. simpl. split; congruence.
  - unfold mbind at 1, M_bind at 1, lift at 1 in E1. apply providerCall_run in E1 as [Hc ->]. split.
    + match type of Hr with ?m ?w1 = _ => set (w2 := w1) in *; assert (keeps callsGrow m) as K by grow end.
      destruct (K _ _ _ Hr) as [rest E]. exists rest. rewrite E. simpl. by rewrite <- app_assoc.
    + intros e' E'. congruence.
Qed.
End RenewalTheorems.

(** An amount survives the trip through the gateway's decimal reais, for every
    amount up to 2^50 cents. *)
Theorem money_roundtrip c : 0 <= c <= 2 ^ 50 -> amountToCents (centsToAmount c) = c.
Proof.
  intros [H0 H1]. unfold amountToCents, centsToAmount, fmul, fdiv, math_round. apply floor_unique.
  all: assert (0 <= inject_Z c)%Q as Q0 by (rewrite (Zle_Qle 0) in H0; exact H0).
  all: assert (inject_Z c <= inject_Z (2 ^ 50))%Q as Q1 by (rewrite <- Zle_Qle; exact H1).
  all: set (x := inject_Z c) in *; assert (0 <= x / 100)%Q as X0 by (apply Qle_shift_div_l; lra).
  all: pose proof (rnd_error (x / 100) X0) as [E1 E2]; set (y := rnd (x / 100)) in *.
  all: assert (x / 100 == x * (1 # 100))%Q as D by (unfold Qdiv; reflexivity); rewrite D in E1, E2.
  all: pose proof (rnd_nonneg (x/100) X0) as Y0; fold y in Y0.
  all: assert (0 <= y * 100)%Q as Z0 by lra; pose proof (rnd_error (y * 100) Z0) as [F1 F2].
  all: change (pow2 (-53)) with (1 # 9007199254740992)%Q in *; change (inject_Z (2^50)) with (1125899906842624 # 1)%Q in *; lra.
Qed.

(** ** Witnesses *)

#[local] Existing Instance Demo.platform.
#[local] Existing Instance DemoSub.laws.
#[local] Existing Instance DemoSrv.outside.

Module DemoPay.

Definition payment (id ref : string) (cents : Z) : GatewayPayment :=
  mkGatewayPayment id "pending" None None (Some ref) (Some cents) None (Some "BRL") None None None None.

(** A gateway that accepts everything and has one approved payment, ["pay"], of 29.90. *)
Definition provider (name : string) : PaymentProvider := {|
  pp_name := name; pp_isConfigured := None; pp_supportedPaymentMethods := None;
  pp_createPixCharge _ i := Ok (mkPixCharge (payment "pay" (ch_externalReference i) (ch_amountCents i)) "qr" "qr64" None);
  pp_createBoletoCharge _ i := Ok (mkBoletoCharge (payment "pay" (ch_externalReference i) (ch_amountCents i)) "url" None None);
  pp_createCardSubscription _ i := Ok (mkGatewaySubscription "sub" "pending" (Some (ch_externalReference i)) None (Some "init"));
  pp_getPayment _ id := if id =s "pay" then Ok (payment "pay" "ord_ref-1" 2990) else Throw (ProviderRequest "not found" 404);
  pp_getAuthorizedPayment _ _ := Throw (ProviderRequest "not found" 404);
  pp_getSubscription _ id := Ok (mkGatewaySubscription id "authorized" None (Some 5) None);
  pp_cancelSubscription _ _ := Throw (ProviderRequest "down" 503);
  pp_refund _ id := Ok (mkRefund "r" (Some "approved") (Some 2990));
  pp_classifyPayment _ := PaymentConfirmed;
  pp_classifySubscription _ := SubscriptionCanceled |}.

#[export] Instance providers : Providers := {| mercadoPago := provider "mercadopago"; pagBank := provider "pagbank" |}.

#[export] Instance config : Config := {|
  CHECKOUT_ORDER_TTL_MINUTES := None; BILLING_GRACE_DAYS := None; PUBLIC_SITE_URL := Some "https://h/"; PANEL_URL := None |}.

Definition world : World :=
  mkWorld ((w_db DemoSub.world) <| db_plans := [Demo.plan "p" 2990 None] |>) [] [] 0%N [].

Definition dto : CreateCheckoutDto := mkCheckout "p" pix None None.

(** The world after one checkout. *)
Definition ordered : World := (createCheckoutOrder 1000 "u" dto None world).2.

End DemoPay.

#[local] Existing Instance DemoPay.providers.
#[local] Existing Instance DemoPay.config.

Lemma demo_ordersOk : ordersOk DemoPay.world.
Proof. split; [apply NoDup_nil_2|]. intros n _ F. exact (not_elem_of_nil _ F). Qed.

Lemma demo_ordered_ok : ordersOk DemoPay.ordered.
Proof.
  assert (map rid (db_orders (w_db DemoPay.ordered)) = ["id-2"]) as E by (vm_compute; reflexivity).
  assert (w_next DemoPay.ordered = 3%N) as N3 by (vm_compute; reflexivity).
  split; rewrite E; [apply NoDup_singleton|]. intros n Hn Hx. apply list_elem_of_singleton in Hx.
  assert (uuidv7 n = uuidv7 2%N) as F by exact Hx. apply (inj uuidv7) in F. rewrite N3 in Hn. subst n. by apply Hn.
Qed.

Lemma checkout_single_charge_witness :
  exists oid ref o, w_calls DemoPay.ordered = [PixChargeCall ("order-" +:+ oid) ref 2990] /\
    findId oid (db_orders (w_db DemoPay.ordered)) = Some o /\ or_amountCents o = 2990.
Proof.
  assert (w_calls DemoPay.ordered <> w_calls DemoPay.world) as K by (vm_compute; discriminate).
  destruct (checkout_single_charge 1000 "u" DemoPay.dto None DemoPay.world (createCheckoutOrder 1000 "u" DemoPay.dto None DemoPay.world).1
              DemoPay.ordered demo_ordersOk (surjective_pairing _))
    as [F|(plan & oid & ref & o & Hp & _ & _ & _ & Hc & _ & Ho & _ & Ha & _)]; [contradiction (K F)|].
  assert (plan = Demo.plan "p" 2990 None) as -> by (apply list_elem_of_singleton in Hp; exact Hp).
  exists oid, ref, o. split; [exact Hc|split; [exact Ho|exact Ha]].
Defined.

Lemma checkout_resume_witness :
  exists o w', createCheckoutOrder 2000 "u" DemoPay.dto None DemoPay.ordered = (Ok o, w') /\ or_id o = "id-2" /\
    w_calls w' = w_calls DemoPay.ordered.
Proof.
  destruct (findFirst (duplicateOf 2000 "u" (co_planId DemoPay.dto)) (db_orders (w_db DemoPay.ordered))) as [o|] eqn:Ef;
    [|vm_compute in Ef; discriminate Ef].
  assert (okRun (createCheckoutOrder 2000 "u" DemoPay.dto None DemoPay.ordered) = true) as K by (vm_compute; reflexivity).
  destruct (createCheckoutOrder 2000 "u" DemoPay.dto None DemoPay.ordered) as [[x|e] w'] eqn:E; [|discriminate K].
  assert (or_paymentMethod o = Some pix /\ or_provider o = "mercadopago" /\ or_id o = "id-2") as (H1 & H2 & H3)
    by (vm_compute in Ef; injection Ef as <-; split; [reflexivity|split; reflexivity]).
  destruct (checkout_resume 2000 "u" DemoPay.dto None _ o x w' demo_ordered_ok Ef H1 H2 E) as (-> & _ & Hc).
  exists o, w'. split; [reflexivity|split; [exact H3|exact Hc]].
Defined.

(** A pix subscription in its last days. *)
Lemma renewal_charge_witness :
  exists w' n ref, createOfflineRenewalCharge 2000 "id-0" DemoPay.ordered = (Ok (Some (uuidv7 n)), w') /\
    w_calls w' = w_calls DemoPay.ordered ++ [PixChargeCall ("order-" +:+ uuidv7 n) ref 2990].
Proof.
  assert (exists x, (createOfflineRenewalCharge 2000 "id-0" DemoPay.ordered).1 = Ok (Some x)) as [x K]
    by (eexists; vm_compute; reflexivity).
  destruct (createOfflineRenewalCharge 2000 "id-0" DemoPay.ordered) as [r w'] eqn:E. simpl in K. subst r.
  destruct (renewal_charge 2000 "id-0" DemoPay.ordered _ w' demo_ordered_ok E)
    as [(_ & _ & [F|[e F]])|(s & m & n & ref & ex & o & Hs & Hm & _ & _ & Hc & _ & _ & Hx & _ & Hne)];
    [discriminate F|discriminate F|].
  assert (m = pix /\ sb_priceCents s = 2990) as [-> Hp].
  { vm_compute in Hs. injection Hs as <-. vm_compute in Hm. injection Hm as <-. split; reflexivity. }
  exists w', n, ref. rewrite <- Hx. split; [reflexivity|]. rewrite Hp in Hc.
  destruct Hc as [Hc|Hc]; [contradiction (Hne Hc)|exact Hc].
Defined.

Module DemoCard.
(** After a card checkout the subscription carries the gateway's id. *)
Definition world : World := (createCheckoutOrder 1000 "u" (mkCheckout "p" card None None) None DemoPay.world).2.
End DemoCard.

Lemma cancel_stops_gateway_first_witness :
  exists w', cancelSubscriptionForUser 2000 "u" "id-0" None true DemoCard.world = (Throw (ProviderRequest "down" 503), w') /\
    w_db w' = w_db DemoCard.world.
Proof.
  destruct (findFirst (fun s => (sb_id s =s "id-0") && (sb_userId s =s "u")) (db_subscriptions (w_db DemoCard.world))) as [s|] eqn:Es;
    [|vm_compute in Es; discriminate Es].
  assert (truthy (sb_externalSubscriptionId s) = Some "sub" /\ sb_paymentProvider s = "mercadopago") as [H1 H2]
    by (vm_compute in Es; injection Es as <-; split; reflexivity).
  destruct (cancelSubscriptionForUser 2000 "u" "id-0" None true DemoCard.world) as [r w'] eqn:E.
  assert (registryGet (sb_paymentProvider s) = Ok (DemoPay.provider "mercadopago")) as H3 by (rewrite H2; reflexivity).
  destruct (cancel_stops_gateway_first 2000 "u" "id-0" None true _ s "sub" _ r w' Es H1 H3 E) as [_ Hf].
  destruct (Hf _ eq_refl) as [-> Hd]. exists w'. split; [reflexivity|exact Hd].
Defined.

Lemma money_roundtrip_witness : amountToCents (centsToAmount 2990) = 2990.
Proof. apply money_roundtrip. lia. Defined.
