(* ===== verification/Webhook.v ===== *)
(** Webhook: what a payment notification does.

    [payments-webhook.service.ts], entry point [process].  The server calls of
    [applyPaymentOutcome] run on their own connection in the source; here they
    are part of the enclosing transaction, which is the same thing because
    nothing that can fail follows them in it. *)

From S2P Require Import Prelude JsNum Capacity Store Scheduler Calendar Subscriptions JsString Servers Payments.
From Stdlib Require Import Ascii String Lia.

Local Open Scope Z_scope.

Definition eventStr (e : InternalPaymentEvent) : string :=
  match e with
  | PaymentConfirmed => "PaymentConfirmed" | PaymentPending => "PaymentPending"
  | PaymentFailed => "PaymentFailed" | PaymentCanceled => "PaymentCanceled"
  | PaymentRefunded => "PaymentRefunded" | PaymentChargeback => "PaymentChargeback"
  | SubscriptionSynced => "SubscriptionSynced" | SubscriptionPastDue => "SubscriptionPastDue"
  | SubscriptionCanceled => "SubscriptionCanceled" | Ignored => "Ignored"
  end.

Section Webhook.
Context `{Platform} `{Outside} `{Providers} (now : Z).

Definition markEvent (notificationId : string) (status : WebhookEventStatus) (error : option string) : MW unit :=
  onDb (fun d => d <| db_webhookEvents := updId notificationId (fun e =>
    e <| we_status := status |> <| we_error := error |> <| we_processedAt := Some now |>) (db_webhookEvents d) |>).

Definition findSubscriptionForPayment (payment : GatewayPayment) (providerName : string) : MW (option Subscription) :=
  withRLS (
    d ← gets w_db;
    match truthy (gp_subscriptionExternalId payment) with
    | Some ext =>
      mret (findFirst (fun s => (sb_externalSubscriptionId s =s Some ext) && (sb_paymentProvider s =s providerName)) (db_subscriptions d))
    | None =>
      match truthy (gp_externalReference payment) with
      | None => mret None
      | Some ref =>
        match findFirst (fun o => (or_externalReference o =s ref) && (or_provider o =s providerName)) (db_orders d) with
        | None => mret None
        | Some order =>
          match or_subscriptionId order with
          | None => mret None
          | Some sid => mret (findId sid (db_subscriptions d))
          end
        end
      end
    end).

Definition findOrCreateOrderForPayment (subscription : Subscription) (payment : GatewayPayment) (providerName : string)
    : MW (option Order) :=
  d ← gets w_db;
  match findId (gp_id payment) (db_payments d) with
  | Some existingPayment => mret (findId (pm_orderId existingPayment) (db_orders d))
  | None =>
    match (ref ← truthy (gp_externalReference payment);
           findFirst (fun o => or_externalReference o =s ref) (db_orders d)) with
    | Some referenced => mret (Some referenced)
    | None =>
      let initialOrder := findFirst (fun o => (or_subscriptionId o =s Some (sb_id subscription)) &&
                            (or_kind o =s plan_initial) && (or_status o =s Ord_pending)) (db_orders d) in
      match initialOrder with
      | Some o => mret (existsb (fun p => pm_orderId p =s or_id o) (db_payments d))
      | None => mret true
      end ≫= fun hasPayments : bool =>
      match initialOrder, hasPayments with
      | Some o, false => mret (Some o)
      | _, _ =>
        reference ← generateExternalReference;
        n ← freshN;
        order ← insertOrder (newOrder (uuidv7 n) reference (sb_userId subscription) (sb_planId subscription)
                  (Some (sb_id subscription)) plan_renewal (default (sb_priceCents subscription) (gp_amountCents payment))
                  (sb_currency subscription) providerName None Prov_not_required None emptySnapshot);
        mret (Some order)
      end
    end
  end.

(** [case 'PaymentConfirmed']. *)
Definition applyConfirmed (subscription : Subscription) (order : Order) (payment : GatewayPayment)
    : MW (option string) :=
  let subscriptionId := sb_id subscription in
  if negb (gp_amountCents payment =s Some (or_amountCents order)) then
    record "payment.amount_mismatch" None "order" (or_id order) ;; mret None
  else
    recordFromGateway (or_id order) payment ;;
    updateOrder (or_id order) (fun o => o <| or_status := Ord_paid |>
      <| or_paidAt := Some (default now (gp_approvedAt payment)) |>
      <| or_paymentMethod := sb_paymentMethod subscription |>
      <| or_paidAmountCents := match gp_paidAmountCents payment with Some c => Some c | None => gp_amountCents payment end |>) ;;
    record "payment.approved" None "order" (or_id order) ;;
    (if or_kind order =s plan_renewal then
       applyRenewal now subscriptionId None ;;
       record "subscription.renewed" None "subscription" subscriptionId
     else if sb_status subscription =s Sub_pending then
       applyTransition now subscriptionId Sub_active None (Some "payment webhook: confirmed") ;;
       updateSubscription subscriptionId (fun s => s <| sb_autoRenew := (sb_paymentMethod subscription =s Some card) |>) ;;
       record "subscription.activated" None "subscription" subscriptionId
     else if (sb_status subscription =s Sub_past_due) || (sb_status subscription =s Sub_suspended) then
       applyTransition now subscriptionId Sub_active None (Some "payment webhook: confirmed (recovered)") ;;
       record "subscription.reactivated.billing" None "subscription" subscriptionId ;;
       match sb_status subscription =s Sub_suspended, truthy (sb_serverId subscription) with
       | true, Some serverId =>
         reactivated ← unsuspend serverId None (Some by_billing);
         when reactivated (record "server.reactivated.billing" None "server" serverId)
       | _, _ => mret tt
       end
     else mret tt) ;;
    mret (if or_provisioningStatus order =s Prov_pending then Some (or_id order) else None).

(** [case 'PaymentRefunded'] and [case 'PaymentChargeback']. *)
Definition applyRefund (event : InternalPaymentEvent) (subscription : Subscription) (order : Order)
    (payment : GatewayPayment) : MW (option string) :=
  recordFromGateway (or_id order) payment ;;
  updateOrder (or_id order) (fun o => o <| or_status := Ord_refunded |>) ;;
  (if canTransition (sb_status subscription) Sub_suspended then
     applyTransition now (sb_id subscription) Sub_suspended None (Some ("payment webhook: " +:+ eventStr event)) ;; mret tt
   else mret tt) ;;
  record "payment.refunded" None "order" (or_id order) ;;
  match truthy (sb_serverId subscription) with
  | Some serverId =>
    tryCatch (suspend now serverId ("billing: " +:+ (if event =s PaymentChargeback then "chargeback" else "payment refunded")) None by_billing)
      (fun _ => mret tt)
  | None => mret tt
  end ;;
  mret None.

(** [case 'PaymentFailed']. *)
Definition applyFailed (subscription : Subscription) (order : Order) (payment : GatewayPayment) : MW (option string) :=
  recordFromGateway (or_id order) payment ;;
  (if or_status order =s Ord_pending
   then updateOrder (or_id order) (fun o => o <| or_status := Ord_failed |>) ;; mret tt else mret tt) ;;
  record "payment.rejected" None "order" (or_id order) ;;
  (if (or_kind order =s plan_renewal) && canTransition (sb_status subscription) Sub_past_due
   then applyTransition now (sb_id subscription) Sub_past_due None (Some "payment webhook: renewal charge rejected") ;; mret tt
   else mret tt) ;;
  mret None.

(** The body of [applyPaymentOutcome] once the order is known. *)
Definition applyToOrder (event : InternalPaymentEvent) (subscription : Subscription) (order : Order)
    (payment : GatewayPayment) : MW (option string) :=
  if (or_status order =s Ord_refunded) || (or_status order =s Ord_cancelled) then mret None
  else if (or_status order =s Ord_paid) && negb (event =s PaymentRefunded) && negb (event =s PaymentChargeback) then
    recordFromGateway (or_id order) payment ;; mret None
  else match event with
  | PaymentPending => recordFromGateway (or_id order) payment ;; mret None
  | PaymentConfirmed => applyConfirmed subscription order payment
  | PaymentRefunded | PaymentChargeback => applyRefund event subscription order payment
  | PaymentCanceled =>
    (if or_status order =s Ord_pending
     then updateOrder (or_id order) (fun o => o <| or_status := Ord_cancelled |>) ;; mret tt else mret tt) ;;
    mret None
  | PaymentFailed => applyFailed subscription order payment
  | _ => mret None
  end.

Definition applyPaymentOutcome (subscriptionId : string) (event : InternalPaymentEvent)
    (payment : GatewayPayment) (providerName : string) : MW (option string) :=
  withRLS (
    d ← gets w_db;
    match findId subscriptionId (db_subscriptions d) with
    | None => mret None
    | Some subscription =>
      order ← findOrCreateOrderForPayment subscription payment providerName;
      match order with
      | None => mret None
      | Some order => applyToOrder event subscription order payment
      end
    end).

Definition processPaymentEvent (parsed : ParsedWebhook) (provider : PaymentProvider) : MW unit :=
  match truthy (pw_resourceId parsed) with
  | None => mret tt
  | Some resourceId =>
    payment ← match pw_resourceKind parsed with
              | Some res_authorized_payment => providerRead (pp_getAuthorizedPayment provider) resourceId
              | _ => providerRead (pp_getPayment provider) resourceId
              end;
    let event := pp_classifyPayment provider payment in
    if event =s Ignored then mret tt
    else
      subscription ← findSubscriptionForPayment payment (pp_name provider);
      match subscription with
      | None => record "payment.webhook.order_not_found" None "payment_webhook_event" (pw_notificationId parsed)
      | Some s =>
        shouldProvision ← applyPaymentOutcome (sb_id s) event payment (pp_name provider);
        match shouldProvision with
        | Some orderId => enqueue (EnqueueProvision orderId)
        | None => mret tt
        end
      end
  end.

Definition findSubscriptionForGateway (externalSubscriptionId : string) (gateway : GatewaySubscription)
    (providerName : string) : MW (option Subscription) :=
  d ← gets w_db;
  let direct := findFirst (fun s => (sb_externalSubscriptionId s =s Some externalSubscriptionId) &&
                                    (sb_paymentProvider s =s providerName)) (db_subscriptions d) in
  let found := match direct with
    | Some s => Some s
    | None =>
      ref ← truthy (gs_externalReference gateway);
      order ← findFirst (fun o => (or_externalReference o =s ref) && (or_provider o =s providerName)) (db_orders d);
      sid ← or_subscriptionId order;
      findId sid (db_subscriptions d)
    end in
  match found with
  | None => mret None
  | Some s =>
    if sb_externalSubscriptionId s =s Some externalSubscriptionId then mret (Some s)
    else
      updated ← updateSubscription (sb_id s) (fun x => x <| sb_externalSubscriptionId := Some externalSubscriptionId |>);
      mret (Some updated)
  end.

Definition processSubscriptionCanceled (ext : string) (gateway : GatewaySubscription) (providerName : string) : MW unit :=
  withRLS (
    subscription ← findSubscriptionForGateway ext gateway providerName;
    match subscription with
    | None => mret tt
    | Some s =>
      if canTransition (sb_status s) Sub_cancelled
      then applyTransition now (sb_id s) Sub_cancelled None (Some ("subscription webhook: cancelled at " +:+ providerName)) ;; mret tt
      else mret tt
    end).

Definition processSubscriptionSynced (ext : string) (gateway : GatewaySubscription) (providerName : string) : MW unit :=
  withRLS (
    subscription ← findSubscriptionForGateway ext gateway providerName;
    match subscription, gs_nextDueDate gateway with
    | Some s, Some due =>
      if sb_status s =s Sub_active
      then updateSubscription (sb_id s) (fun x => x <| sb_currentPeriodEndsAt := Some due |>) ;; mret tt
      else mret tt
    | _, _ => mret tt
    end).

Definition processSubscriptionPastDue (ext : string) (gateway : GatewaySubscription) (providerName : string) : MW unit :=
  withRLS (
    subscription ← findSubscriptionForGateway ext gateway providerName;
    match subscription with
    | None => mret tt
    | Some s =>
      if canTransition (sb_status s) Sub_past_due
      then applyTransition now (sb_id s) Sub_past_due None (Some ("subscription webhook: overdue at " +:+ providerName)) ;; mret tt
      else mret tt
    end).

Definition processPreapprovalEvent (parsed : ParsedWebhook) (provider : PaymentProvider) : MW unit :=
  match truthy (pw_resourceId parsed) with
  | None => mret tt
  | Some resourceId =>
    subscription ← providerRead (pp_getSubscription provider) resourceId;
    match pp_classifySubscription provider subscription with
    | SubscriptionCanceled => processSubscriptionCanceled resourceId subscription (pp_name provider)
    | SubscriptionPastDue => processSubscriptionPastDue resourceId subscription (pp_name provider)
    | SubscriptionSynced => processSubscriptionSynced resourceId subscription (pp_name provider)
    | _ => mret tt
    end
  end.

(** The [try] block of [process], up to the bookkeeping. *)
Definition handle (parsed : ParsedWebhook) (provider : PaymentProvider) : MW unit :=
  match pw_resourceKind parsed with
  | Some res_payment | Some res_authorized_payment => processPaymentEvent parsed provider
  | Some res_preapproval => processPreapprovalEvent parsed provider
  | None => mret tt
  end.

Definition process (parsed : ParsedWebhook) (providerName : string) : MW unit :=
  provider ← lift (registryGet providerName);
  tryCatch (handle parsed provider ;; markEvent (pw_notificationId parsed) Wh_processed None)
  (fun err =>
    markEvent (pw_notificationId parsed) Wh_failed (Some (message err)) ;;
    throw err).

End Webhook.

(** ** Lemmas: the orders a notification touches *)

#[export] Hint Unfold markEvent findSubscriptionForPayment findSubscriptionForGateway : frame.

(** The moves a payment event can make on an order. *)
Definition orderMove (event : InternalPaymentEvent) (payment : GatewayPayment) (o : Order) (to : OrderStatus) : Prop :=
  to = or_status o \/
  match event with
  | PaymentConfirmed => to = Ord_paid /\ gp_amountCents payment = Some (or_amountCents o) /\
      (or_status o = Ord_pending \/ or_status o = Ord_failed \/ or_status o = Ord_expired)
  | PaymentRefunded | PaymentChargeback =>
      to = Ord_refunded /\ or_status o <> Ord_refunded /\ or_status o <> Ord_cancelled
  | PaymentCanceled => to = Ord_cancelled /\ or_status o = Ord_pending
  | PaymentFailed => to = Ord_failed /\ or_status o = Ord_pending
  | _ => False
  end.

Section WebhookLemmas.
Context `{Platform} `{Outside} `{Providers} (now : Z).

Lemma applyConfirmed_ok s o p w r w' :
  applyConfirmed now s o p w = (Ok r, w') ->
  if gp_amountCents p =s Some (or_amountCents o) then
    r = (if or_provisioningStatus o =s Prov_pending then Some (or_id o) else None) /\
    exists f, db_orders (w_db w') = updId (or_id o) f (db_orders (w_db w)) /\
      (forall x, terms (f x) = terms x /\ or_status (f x) = Ord_paid /\ or_provisioningStatus (f x) = or_provisioningStatus x)
  else r = None /\ w_db w' = w_db w /\ w_calls w' = w_calls w /\ w_next w' = w_next w.
Proof.
  unfold applyConfirmed. destruct (gp_amountCents p =s Some (or_amountCents o)); simpl; intros Hr.
  - apply bind_ok in Hr as (? & w1 & E1 & Hr). apply bind_ok in Hr as (? & w2 & E2 & Hr).
    assert (db_orders (w_db w1) = db_orders (w_db w)) as O1 by (eapply (keeps_same (fun w => db_orders (w_db w))); [|exact E1]; frame).
    apply updateOrder_ok in E2 as (? & _ & _ & ->).
    apply bind_ok in Hr as (? & w3 & E3 & Hr). apply bind_ok in Hr as (? & w4 & E4 & Hr). apply mret_ok in Hr as [[= ->] ->].
    split; [done|]. eexists. split; [|]. 
    + transitivity (db_orders (w_db w3)); [eapply (keeps_same (fun w => db_orders (w_db w))); [|exact E4]; frame|].
      apply modify_ok in E3 as [_ ->]. simpl. rewrite O1. reflexivity.
    + done.
  - unfold record in Hr. mok. subst. done.
Qed.

Lemma applyRefund_ok ev s o p w r w' :
  applyRefund now ev s o p w = (Ok r, w') ->
  r = None /\ db_orders (w_db w') = updId (or_id o) (fun o => o <| or_status := Ord_refunded |>) (db_orders (w_db w)).
Proof.
  unfold applyRefund. intros Hr.
  apply bind_ok in Hr as (? & w1 & E1 & Hr). apply bind_ok in Hr as (? & w2 & E2 & Hr).
  assert (db_orders (w_db w1) = db_orders (w_db w)) as O1 by (eapply (keeps_same (fun w => db_orders (w_db w))); [|exact E1]; frame).
  apply updateOrder_ok in E2 as (? & _ & _ & ->).
  match type of Hr with ?m ?w0 = _ => set (w2 := w0) in *; assert (keeps (same (fun w => db_orders (w_db w))) m) as K by frame end.
  split; [|rewrite (K _ _ _ Hr); unfold w2; simpl; by rewrite O1].
  do 3 (apply bind_ok in Hr as (? & ? & _ & Hr)). by mok.
Qed.

Lemma applyFailed_ok s o p w r w' :
  applyFailed now s o p w = (Ok r, w') ->
  r = None /\ db_orders (w_db w') = if or_status o =s Ord_pending
    then updId (or_id o) (fun o => o <| or_status := Ord_failed |>) (db_orders (w_db w)) else db_orders (w_db w).
Proof.
  unfold applyFailed. intros Hr.
  apply bind_ok in Hr as (? & w1 & E1 & Hr). apply bind_ok in Hr as (? & w2 & E2 & Hr).
  assert (db_orders (w_db w1) = db_orders (w_db w)) as O1 by (eapply (keeps_same (fun w => db_orders (w_db w))); [|exact E1]; frame).
  match type of Hr with ?m ?w0 = _ => assert (keeps (same (fun w => db_orders (w_db w))) m) as K by frame end.
  split; [do 2 (apply bind_ok in Hr as (? & ? & _ & Hr)); by mok|]. rewrite (K _ _ _ Hr).
  destruct (or_status o =s Ord_pending).
  - apply bind_ok in E2 as (? & ? & E & E2). apply updateOrder_ok in E as (? & _ & _ & ->). mok. subst. simpl. by rewrite O1.
  - mok. subst. done.
Qed.

(** The effect of a notification on the order it is about. *)
Lemma applyToOrder_ok ev s o p w r w' :
  findId (or_id o) (db_orders (w_db w)) = Some o ->
  applyToOrder now ev s o p w = (Ok r, w') ->
  exists f, db_orders (w_db w') = updId (or_id o) f (db_orders (w_db w)) /\
    terms (f o) = terms o /\ or_provisioningStatus (f o) = or_provisioningStatus o /\ orderMove ev p o (or_status (f o)) /\
    (forall id, r = Some id -> id = or_id o /\ or_status (f o) = Ord_paid /\ or_status o <> Ord_paid /\ or_provisioningStatus o = Prov_pending).
Proof.
  intros Ho. unfold applyToOrder.
  assert (forall r1, r1 = None -> db_orders (w_db w') = db_orders (w_db w) ->
    exists f, db_orders (w_db w') = updId (or_id o) f (db_orders (w_db w)) /\
    terms (f o) = terms o /\ or_provisioningStatus (f o) = or_provisioningStatus o /\ orderMove ev p o (or_status (f o)) /\
    (forall id, r1 = Some id -> id = or_id o /\ or_status (f o) = Ord_paid /\ or_status o <> Ord_paid /\ or_provisioningStatus o = Prov_pending)) as Same.
  { intros r1 -> D. exists id. rewrite D. split_and!; [|done|done|by left|done]. unfold updId. clear.
    induction (db_orders (w_db w)) as [|x l IH]; simpl; [done|]. destruct (_ =s _); [done|]. by rewrite <- IH. }
  destruct (_ || _) eqn:T; [intros Hr; mok; subst; by apply Same|].
  apply orb_false_iff in T as [T1 T2]. apply bool_decide_eq_false in T1, T2.
  destruct (_ && _ && _) eqn:P.
  { intros Hr. apply bind_ok in Hr as (? & w1 & E1 & Hr). mok. subst. apply Same; [done|].
    eapply (keeps_same (fun w => db_orders (w_db w))); [|exact E1]; frame. }
  assert (ev = PaymentConfirmed \/ ev = PaymentFailed \/ ev = PaymentCanceled -> or_status o <> Ord_paid) as NP.
  { intros Hev E. rewrite E in P. destruct Hev as [->|[->| ->]]; discriminate P. }
  destruct ev; intros Hr; try (mok; subst; by apply Same).
  - apply applyConfirmed_ok in Hr. destruct (bool_decide_reflect (gp_amountCents p = Some (or_amountCents o))) as [A|A].
    + destruct Hr as (-> & f & D & Hf). destruct (Hf o) as (F1 & F2 & F3). specialize (NP (or_introl eq_refl)).
      exists f. split_and!; try done.
      * right. split_and!; try done. destruct (or_status o); auto; done.
      * intros id. destruct (bool_decide_reflect (or_provisioningStatus o = Prov_pending)) as [Q|Q]; [|done].
        intros [= <-]. done.
    + destruct Hr as (-> & D & _). apply Same; [done|by rewrite D].
  - apply bind_ok in Hr as (? & w1 & E1 & Hr). mok. subst. apply Same; [done|].
    eapply (keeps_same (fun w => db_orders (w_db w))); [|exact E1]; frame.
  - apply applyFailed_ok in Hr as [-> D]. destruct (bool_decide_reflect (or_status o = Ord_pending)) as [Q|Q]; [|by apply Same].
    eexists. split; [exact D|]. split_and!; try done. by right.
  - apply bind_ok in Hr as (? & w1 & E1 & Hr). mok. subst.
    destruct (bool_decide_reflect (or_status o = Ord_pending)) as [Q|Q]; [|mok; subst; by apply Same].
    apply bind_ok in E1 as (? & w2 & E1 & E2). apply updateOrder_ok in E1 as (? & _ & _ & ->). mok. subst.
    eexists. split; [reflexivity|]. split_and!; try done. by right.
  - apply applyRefund_ok in Hr as [-> D]. eexists. split; [exact D|]. split_and!; try done. by right.
  - apply applyRefund_ok in Hr as [-> D]. eexists. split; [exact D|]. split_and!; try done. by right.
Qed.

(** Looking the order up, or creating a renewal order for a charge the gateway made on its own. *)
Lemma findOrCreate_ok `{!PlatformLaws} s p name w x w' : ordersOk w ->
  findOrCreateOrderForPayment s p name w = (Ok x, w') ->
  ordersOk w' /\ (exists l, db_orders (w_db w') = db_orders (w_db w) ++ l) /\
  (forall o, x = Some o -> findId (or_id o) (db_orders (w_db w')) = Some o).
Proof.
  intros [Hnd Hfr]. unfold findOrCreateOrderForPayment. intros Hr.
  assert (forall o, o ∈ db_orders (w_db w) -> x = Some o -> w' = w ->
    ordersOk w' /\ (exists l, db_orders (w_db w') = db_orders (w_db w) ++ l) /\
    (forall o, x = Some o -> findId (or_id o) (db_orders (w_db w')) = Some o)) as Found.
  { intros o Ho -> ->. split; [done|split; [exists []; by rewrite app_nil_r|]]. intros ? [= <-]. by apply (findId_unique _ o). }
  apply bind_ok in Hr as (d & ? & E & Hr). apply gets_ok in E as [[= ->] ->].
  destruct (findId (gp_id p) _) as [pay|].
  { mok. subst. destruct (findId (pm_orderId pay) _) as [o|] eqn:Eo.
    - apply findId_some in Eo as [Ho _]. eauto.
    - split; [done|split; [exists []; by rewrite app_nil_r|done]]. }
  destruct (ref ← truthy _; _) as [o|] eqn:Er.
  { mok. subst. destruct (truthy _); [|done]. simpl in Er. apply findFirst_some in Er as [Ho _]. eauto. }
  apply bind_ok in Hr as (has & w1 & E & Hr).
  assert (w1 = w) as -> by (destruct (findFirst _ _); by mok; subst).
  destruct (findFirst _ _) as [o|] eqn:Ei; [destruct has|].
  2: { mok. subst. apply findFirst_some in Ei as [Ho _]. eauto. }
  all: unfold generateExternalReference, insertOrder, freshN, onDb in Hr; mok; simplify_eq; simpl in *.
  all: split; [split; simpl; rewrite map_app; simpl|split; [by eexists|]].
  1, 4: apply NoDup_app; split_and!; [done| |apply NoDup_singleton];
    intros y Hy Hy'; apply list_elem_of_singleton in Hy'; subst; revert Hy; apply Hfr; lia.
  1, 3: intros n Hn [Hy|Hy%list_elem_of_singleton]%elem_of_app; [revert Hy; apply Hfr; lia|];
    assert (n = (w_next w + 1)%N) by (apply uuidv7_inj; exact Hy); lia.
  all: intros ? [= <-]; simpl; rewrite findId_app_none; [by rewrite bool_decide_eq_true_2|];
    apply findId_none_ids, Hfr; lia.
Qed.
End WebhookLemmas.

(** ** Lemmas: a whole notification *)

(** The payment the gateway reports for the notified resource. *)
Definition fetched (prov : PaymentProvider) (parsed : ParsedWebhook) (p : GatewayPayment) : Prop :=
  exists before rid, truthy (pw_resourceId parsed) = Some rid /\
    (pp_getPayment prov before rid = Ok p \/ pp_getAuthorizedPayment prov before rid = Ok p).

(** What a notification may do to an order: keep its terms, and move its status
    as the event of the fetched payment allows. *)
Definition webhookMove (prov : PaymentProvider) (parsed : ParsedWebhook) (o o' : Order) : Prop :=
  terms o' = terms o /\
  (or_status o' = or_status o \/
   exists p, fetched prov parsed p /\ orderMove (pp_classifyPayment prov p) p o (or_status o')).

#[export] Instance webhookMove_refl prov parsed : Reflexive (webhookMove prov parsed).
Proof. split; auto. Qed.

(** An order this run marked paid, still to be provisioned. *)
Definition paidNow (w w' : World) (id : string) : Prop :=
  exists o', findId id (db_orders (w_db w')) = Some o' /\ or_status o' = Ord_paid /\ or_provisioningStatus o' = Prov_pending /\
    forall o, findId id (db_orders (w_db w)) = Some o -> or_status o <> Ord_paid.

Definition sameEnqueued (w w' : World) : Prop :=
  forall id, EnqueueProvision id ∈ w_calls w' -> EnqueueProvision id ∈ w_calls w.

#[export] Instance sameEnqueued_preorder : PreOrder sameEnqueued.
Proof. split; unfold sameEnqueued; naive_solver. Qed.

Lemma sameEnqueued_calls {A} (m : MW A) : keeps (same w_calls) m -> keeps sameEnqueued m.
Proof. intros K w r w' E id. by rewrite (K _ _ _ E). Qed.

Lemma agentSuspend_enqueued `{Outside} n s b : keeps sameEnqueued (agentCall (AgentSuspend n s b)).
Proof.
  intros w r w' E id. unfold agentCall, mbind, M_bind, gets, call, modify in E.
  destruct (agentReply _ _); injection E as <- <-; simpl; intros [?|[=]%list_elem_of_singleton]%elem_of_app; done.
Qed.

Ltac enqueued := autounfold with frame; repeat first
  [ apply agentSuspend_enqueued
  | apply (keeps_withRLS sameEnqueued); [|by intros ?? ?]
  | keeps_step
  | apply sameEnqueued_calls; by frame ].

Section WebhookRuns.
Context `{Platform} `{Outside} `{Providers} `{!PlatformLaws} (now : Z).

Lemma suspend_enqueued id reason actor src : keeps sameEnqueued (suspend now id reason actor src).
Proof. unfold suspend, getServer. enqueued. Qed.

Lemma unsuspend_enqueued id actor src : keeps sameEnqueued (unsuspend id actor src).
Proof. unfold unsuspend, getServer. enqueued. Qed.

Lemma applyPaymentOutcome_enqueued sid ev p name : keeps sameEnqueued (applyPaymentOutcome now sid ev p name).
Proof.
  unfold applyPaymentOutcome, applyToOrder, applyConfirmed, applyRefund, applyFailed, findOrCreateOrderForPayment.
  repeat first [ apply suspend_enqueued | apply unsuspend_enqueued
    | apply (keeps_withRLS sameEnqueued); [|by intros ?? ?] | keeps_step | apply sameEnqueued_calls; by frame ].
Qed.

Lemma applyPaymentOutcome_orders sid ev p name w r w' : ordersOk w ->
  applyPaymentOutcome now sid ev p name w = (r, w') ->
  evolves (fun o o' => terms o' = terms o /\ orderMove ev p o (or_status o')) (db_orders (w_db w)) (db_orders (w_db w')) /\
  (forall id, r = Ok (Some id) -> paidNow w w' id).
Proof.
  intros Hok Hr. set (T := fun o o' => _).
  assert (Reflexive T) as RT by (intros o; split; [done|by left]).
  assert (forall l, evolves T l l) as Refl.
  { intros l. exists l, []. rewrite app_nil_r. split; [done|]. induction l; by constructor. }
  destruct r as [x|e]; [|apply withRLS_throw in Hr; rewrite Hr; split; [apply Refl|done]].
  unfold applyPaymentOutcome in Hr. rewrite withRLS_ok in Hr. apply bind_ok in Hr as (d & ? & E & Hr). apply gets_ok in E as [[= ->] ->].
  destruct (findId sid _) as [s|]; [|mok; subst; split; [apply Refl|done]].
  apply bind_ok in Hr as (order & w1 & E1 & Hr). apply findOrCreate_ok in E1 as (Hok1 & (l & D1) & Hf); [|done].
  destruct order as [o|]; [|mok; subst; rewrite D1; split; [by apply evolves_app|done]].
  specialize (Hf o eq_refl). apply applyToOrder_ok in Hr as (f & D & F1 & F2 & F3 & F4); [|done].
  split.
  - apply evolves_prefix with l. rewrite <- D1, D. apply evolves_updId; [done|]. intros y Hy.
    assert (y = o) as -> by congruence. done.
  - intros id [= ->]. destruct (F4 id eq_refl) as (-> & P1 & P2 & P3). exists (f o).
    rewrite D, (findId_updId_at _ f _ o Hf (terms_id _ _ F1)). split_and!; try done; [congruence|].
    intros o0 Ho0. rewrite D1 in Hf. rewrite (findId_app_l _ _ _ l Ho0) in Hf. by injection Hf as ->.
Qed.
End WebhookRuns.

Lemma enqueue_inv `{Outside} c w r w' : enqueue c w = (r, w') -> w_db w' = w_db w /\ w_calls w' = w_calls w ++ [c].
Proof.
  unfold enqueue, agentCall, mbind, M_bind, gets, call, modify. simpl. destruct (agentReply _ _); by intros [= <- <-].
Qed.

Section WebhookTheorems.
Context `{Platform} `{Outside} `{Providers} `{!PlatformLaws} (now : Z).

(** [process] is [handle] plus the mark on the event row. *)
Lemma process_inv parsed name w r w' : process now parsed name w = (r, w') ->
  (w' = w /\ exists e, r = Throw e /\ registryGet name = Throw e) \/
  exists prov r1 w1 l, registryGet name = Ok prov /\ handle now parsed prov w = (r1, w1) /\ r = r1 /\
    w' = w1 <| w_db := (w_db w1) <| db_webhookEvents := l |> |>.
Proof.
  unfold process. intros Hr. apply bind_inv in Hr as [(e & Hr & ->)|(prov & w0 & E & Hr)].
  { apply lift_ok in Hr as [? ->]. eauto. }
  apply lift_ok in E as [E ->]. right. destruct (handle now parsed prov w) as [[[]|e] w1] eqn:Eh.
  - exists prov, (Ok tt), w1. unfold tryCatch, mbind, M_bind in Hr. rewrite Eh in Hr. injection Hr as <- <-. eauto.
  - exists prov, (Throw e), w1. unfold tryCatch, mbind, M_bind in Hr. rewrite Eh in Hr. injection Hr as <- <-. eauto.
Qed.

Lemma preapproval_orders parsed prov : keeps (same (fun w => db_orders (w_db w))) (processPreapprovalEvent now parsed prov).
Proof. unfold processPreapprovalEvent, processSubscriptionCanceled, processSubscriptionPastDue, processSubscriptionSynced. frame. Qed.

Lemma preapproval_calls parsed prov : keeps (same w_calls) (processPreapprovalEvent now parsed prov).
Proof. unfold processPreapprovalEvent, processSubscriptionCanceled, processSubscriptionPastDue, processSubscriptionSynced. frame. Qed.

(** The part of a payment notification up to applying its outcome. *)
Lemma processPaymentEvent_inv parsed prov w r w' : processPaymentEvent now parsed prov w = (r, w') ->
  (db_orders (w_db w') = db_orders (w_db w) /\ w_calls w' = w_calls w) \/
  exists p s r1 w1, fetched prov parsed p /\ applyPaymentOutcome now s (pp_classifyPayment prov p) p (pp_name prov) w = (r1, w1) /\
    w_db w' = w_db w1 /\
    match r1 with
    | Ok (Some id) => w_calls w' = w_calls w1 ++ [EnqueueProvision id]
    | _ => w_calls w' = w_calls w1
    end.
Proof.
  unfold processPaymentEvent. intros Hr. destruct (truthy (pw_resourceId parsed)) as [rid|] eqn:Er; [|left; by injection Hr as <- <-].
  apply bind_inv in Hr as [(e & Hr & ->)|(p & w1 & E1 & Hr)].
  { left. destruct (pw_resourceKind parsed) as [[]|]; unfold providerRead, mbind, M_bind, gets, lift in Hr; by injection Hr as _ <-. }
  assert (w1 = w /\ fetched prov parsed p) as [-> Hf].
  { destruct (pw_resourceKind parsed) as [[]|]; unfold providerRead in E1; mok; subst; (split; [done|]); exists (w_calls w), rid; (split; [done|]); auto. }
  destruct (_ =s Ignored); [left; by injection Hr as <- <-|].
  clear E1. apply bind_inv in Hr as [(e & Hr & ->)|(s & w1 & E1 & Hr)].
  { left. split; [eapply (keeps_same (fun w => db_orders (w_db w)))|eapply (keeps_same w_calls)]; try exact Hr; frame. }
  assert (w1 = w) as ->.
  { unfold findSubscriptionForPayment in E1. rewrite withRLS_ok in E1. apply bind_ok in E1 as (d & ? & E & E1). apply gets_ok in E as [[= ->] ->].
    repeat case_match; by mok. }
  destruct s as [s|]; [|left; by injection Hr as <- <-].
  right. exists p, (sb_id s). apply bind_inv in Hr as [(e & Hr & ->)|(x & w1 & E2 & Hr)].
  - exists (Throw e), w'. done.
  - exists (Ok x), w1. split_and!; try done; destruct x as [id|]; [|by injection Hr as <- <-| |by injection Hr as <- <-].
    all: apply enqueue_inv in Hr as [Hd Hc]; done.
Qed.

Lemma process_orders_evolve parsed name prov w r w' :
  ordersOk w -> registryGet name = Ok prov -> process now parsed name w = (r, w') ->
  evolves (webhookMove prov parsed) (db_orders (w_db w)) (db_orders (w_db w')).
Proof.
  intros Hok Hp Hr. assert (forall l, evolves (webhookMove prov parsed) l l) as Refl.
  { intros l. pose proof (evolves_app (webhookMove prov parsed) l []) as E. by rewrite app_nil_r in E. }
  apply process_inv in Hr as [[-> _]|(prov' & r1 & w1 & l & Hp' & Hr & _ & ->)]; [apply Refl|]. simpl.
  assert (prov' = prov) as -> by congruence. unfold handle in Hr.
  assert (processPaymentEvent now parsed prov w = (r1, w1) ->
    evolves (webhookMove prov parsed) (db_orders (w_db w)) (db_orders (w_db w1))) as Pay.
  { intros Hr'. apply processPaymentEvent_inv in Hr' as [[-> _]|(p & s & r2 & w2 & Hf & Ha & Hd & _)]; [apply Refl|].
    apply applyPaymentOutcome_orders in Ha as [Ha _]; [|done]. rewrite Hd. eapply evolves_impl; [|exact Ha].
    intros o o' [Ht Hm]. split; [done|]. right. eauto. }
  destruct (pw_resourceKind parsed) as [[]|]; try (by apply Pay).
  - rewrite (preapproval_orders _ _ _ _ _ Hr). apply Refl.
  - injection Hr as _ <-. apply Refl.
Qed.

(** C1: the status of an order only moves as its payments justify.  Whatever a
    notification says, it never changes an order's customer, plan, amount or
    reference; an order becomes paid only when the gateway itself reports a
    confirmed payment of exactly the order's amount, and only from pending, failed
    or expired; a refunded or cancelled order never moves again; a paid order can
    only become refunded.  No order disappears. *)
Theorem webhook_order_moves parsed name prov w r w' :
  ordersOk w -> registryGet name = Ok prov -> process now parsed name w = (r, w') ->
  evolves (webhookMove prov parsed) (db_orders (w_db w)) (db_orders (w_db w')).
Proof. apply process_orders_evolve. Qed.

(** A server is queued for provisioning only for an order that this very
    notification moved to paid and that was waiting for one: never for an unpaid
    order, and never again for an order already paid. *)
Theorem webhook_enqueues_paid_only parsed name w r w' id :
  ordersOk w -> process now parsed name w = (r, w') -> EnqueueProvision id ∈ w_calls w' ->
  EnqueueProvision id ∈ w_calls w \/ paidNow w w' id.
Proof.
  intros Hok Hr Hin. apply process_inv in Hr as [[-> _]|(prov & r1 & w1 & l & _ & Hr & _ & ->)]; [by left|]. simpl in Hin.
  change (paidNow w _ id) with (paidNow w w1 id). unfold handle in Hr.
  assert (processPaymentEvent now parsed prov w = (r1, w1) -> EnqueueProvision id ∈ w_calls w \/ paidNow w w1 id) as Pay.
  { intros Hr'. apply processPaymentEvent_inv in Hr' as [[_ C]|(p & s & r2 & w2 & _ & Ha & Hd & Hc)]; [left; congruence|].
    assert (paidNow w w1 id <-> paidNow w w2 id) as -> by (unfold paidNow; by rewrite Hd).
    pose proof (applyPaymentOutcome_enqueued now _ _ _ _ _ _ _ Ha) as Hq.
    apply applyPaymentOutcome_orders in Ha as [_ Hi]; [|done].
    destruct r2 as [[i|]|e]; rewrite Hc in Hin; [|left; by apply Hq|left; by apply Hq].
    apply elem_of_app in Hin as [Hin|[= ->]%list_elem_of_singleton]; [left; by apply Hq|right; by apply Hi]. }
  destruct (pw_resourceKind parsed) as [[]|]; try (by apply Pay).
  - left. by rewrite (preapproval_calls _ _ _ _ _ Hr) in Hin.
  - injection Hr as _ <-. by left.
Qed.
End WebhookTheorems.

(** ** Redelivery *)

Section Replay.
Context `{Platform} `{Outside} `{Providers} `{!PlatformLaws} (now : Z).
Context (parsed : ParsedWebhook) (prov : PaymentProvider) (p : GatewayPayment) (rid : string).

(** The notified payment, as the gateway keeps reporting it: confirmed. *)
Context (Hrid : truthy (pw_resourceId parsed) = Some rid).
Context (Hfetch : forall before, match pw_resourceKind parsed with
  | Some res_payment => pp_getPayment prov before rid = Ok p
  | Some res_authorized_payment => pp_getAuthorizedPayment prov before rid = Ok p
  | _ => False end).
Context (Hclass : pp_classifyPayment prov p = PaymentConfirmed).

Definition subLookup (d : Db) : option Subscription :=
  match truthy (gp_subscriptionExternalId p) with
  | Some ext => findFirst (fun s => (sb_externalSubscriptionId s =s Some ext) && (sb_paymentProvider s =s pp_name prov)) (db_subscriptions d)
  | None =>
    ref ← truthy (gp_externalReference p);
    order ← findFirst (fun o => (or_externalReference o =s ref) && (or_provider o =s pp_name prov)) (db_orders d);
    sid ← or_subscriptionId order;
    findId sid (db_subscriptions d)
  end.

Lemma findSubscriptionForPayment_run w :
  findSubscriptionForPayment p (pp_name prov) w = (Ok (subLookup (w_db w)), w).
Proof.
  unfold findSubscriptionForPayment, subLookup, withRLS, mbind, M_bind, gets, option_bind.
  destruct (truthy (gp_subscriptionExternalId p)); [done|]. destruct (truthy (gp_externalReference p)); [|done].
  destruct (findFirst _ (db_orders _)) as [o|]; [|done]. by destruct (or_subscriptionId o).
Qed.

(** The tables a delivery reads or writes, the event and payment rows apart. *)
Definition tables (w : World) :=
  (db_subscriptions (w_db w), db_events (w_db w), db_orders (w_db w), db_servers (w_db w), w_calls w).

Lemma handle_run w : handle now parsed prov w =
  match subLookup (w_db w) with
  | None => record "payment.webhook.order_not_found" None "payment_webhook_event" (pw_notificationId parsed) w
  | Some s => (shouldProvision ← applyPaymentOutcome now (sb_id s) PaymentConfirmed p (pp_name prov);
      match shouldProvision with Some orderId => enqueue (EnqueueProvision orderId) | None => mret tt end) w
  end.
Proof.
  unfold handle, processPaymentEvent. rewrite Hrid. pose proof (Hfetch (w_calls w)) as F.
  destruct (pw_resourceKind parsed) as [[]|]; try done.
  all: unfold providerRead, mbind at 1, M_bind at 1, mbind at 1, M_bind at 1, gets at 1, lift at 1; rewrite F, Hclass; simpl.
  all: unfold mbind at 1, M_bind at 1; rewrite findSubscriptionForPayment_run; by destruct (subLookup _).
Qed.

(** The payment is on file for an order already paid. *)
Definition onFilePaid (d : Db) : Prop :=
  exists row o, findId (gp_id p) (db_payments d) = Some row /\ findId (pm_orderId row) (db_orders d) = Some o /\ or_status o = Ord_paid.

Lemma recordFromGateway_tables oid w : tables (recordFromGateway oid p w).2 = tables w.
Proof. unfold recordFromGateway, onDb, modify, tables. simpl. by destruct (findId _ _). Qed.

Lemma onFilePaid_noop w r w' : onFilePaid (w_db w) -> handle now parsed prov w = (r, w') -> tables w' = tables w /\ r = Ok tt.
Proof.
  intros (row & o & Hrow & Ho & Hpaid). rewrite handle_run. destruct (subLookup _) as [s|]; [|intros [= <- <-]; done].
  unfold applyPaymentOutcome, withRLS, mbind, M_bind, gets. destruct (findId (sb_id s) _) as [s'|]; [|intros [= <- <-]; done].
  unfold findOrCreateOrderForPayment, mbind, M_bind, gets. rewrite Hrow. unfold mret at 1, M_ret at 1. rewrite Ho.
  unfold applyToOrder. rewrite Hpaid. simpl. unfold mbind, M_bind.
  pose proof (recordFromGateway_tables (or_id o) w) as T. unfold recordFromGateway, onDb, modify in *. simpl in *.
  by intros [= <- <-].
Qed.









(** A paid order whose provisioning job was never queued is out of reach.  When
    the queue refuses the job after the payment was committed, the delivery fails and
    is retried, but the retry finds the order paid and succeeds without queueing
    anything, and the administrator's retry is refused because the order's
    provisioning is pending, not failed. *)
Theorem lost_provisioning name w1 row o r2 w2 actor :
  registryGet name = Ok prov ->
  findId (gp_id p) (db_payments (w_db w1)) = Some row -> findId (pm_orderId row) (db_orders (w_db w1)) = Some o ->
  or_status o = Ord_paid -> or_provisioningStatus o = Prov_pending ->
  process now parsed name w1 = (r2, w2) ->
  r2 = Ok tt /\ w_calls w2 = w_calls w1 /\
  exists m w3, retryProvisioningAsAdmin (or_id o) actor w2 = (Throw (Conflict m), w3).
Proof.
  intros Hp Hrow Ho Hpaid Hprov R. apply process_inv in R as [[_ (e & _ & He)]|(q & x & v & l & Hq & Hh & -> & ->)]; [congruence|].
  assert (q = prov) as -> by congruence.
  assert (onFilePaid (w_db w1)) as Hf by (exists row, o; done).
  destruct (onFilePaid_noop _ _ _ Hf Hh) as [T ->]. injection T as _ _ To _ Tc. split_and!; [done|exact Tc|].
  assert (or_id o = pm_orderId row) as Hid by (by apply findId_some in Ho as [_ ?]).
  unfold retryProvisioningAsAdmin, mbind, M_bind, gets, orThrow, mret, M_ret. simpl. rewrite To, Hid, Ho, Hprov.
  rewrite orb_true_r. unfold throwIf, throw. eauto.
Qed.
End Replay.

(** ** Subscription notifications *)

Definition subEvo (T : Subscription -> Subscription -> Prop) (w w' : World) : Prop :=
  evolves T (db_subscriptions (w_db w)) (db_subscriptions (w_db w')).

#[export] Instance subEvo_preorder T `{!PreOrder T} : PreOrder (subEvo T).
Proof. split; unfold subEvo; [intros w; reflexivity | intros ???; etransitivity; eauto]. Qed.

(** A subscription that only lost ground: same contract, moved along the machine
    to past due or cancelled. *)
Definition declined (s s' : Subscription) : Prop :=
  contract s' = contract s /\
  rtc (fun a b => canTransition a b = true /\ (b = Sub_past_due \/ b = Sub_cancelled)) (sb_status s) (sb_status s').

#[export] Instance declined_preorder : PreOrder declined.
Proof.
  split; unfold declined; [intros s; split; [done|constructor]|].
  intros a b c [E1 R1] [E2 R2]. split; [congruence|by etransitivity].
Qed.

Section Preapproval.
Context `{Platform} `{Outside} `{Providers} (now : Z).

Lemma subEvo_same {A} (m : MW A) : keeps (same (fun w => db_subscriptions (w_db w))) m -> keeps (subEvo declined) m.
Proof. intros K w r w' E. unfold subEvo. rewrite (K _ _ _ E). reflexivity. Qed.

Lemma updateSubscription_evo id f : (forall s, declined s (f s)) -> keeps (subEvo declined) (updateSubscription id f).
Proof.
  intros Hf. unfold updateSubscription. keeps_auto. intros w r w' E%modify_ok. destruct E as [_ ->].
  apply evolves_updId; [apply _|auto].
Qed.

Lemma applyTransition_evo id to a reason : to = Sub_past_due \/ to = Sub_cancelled ->
  keeps (subEvo declined) (applyTransition now id to a reason).
Proof.
  intros Hto w r w'. rewrite applyTransition_run. destruct (findId id _) as [s|] eqn:Es; [|intros [= <- <-]; reflexivity].
  destruct (assertTransition _ _) eqn:Et; [|intros [= <- <-]; reflexivity].
  destruct (transitionData _ _ _ _) as [f|] eqn:Ef; [|intros [= <- <-]; reflexivity].
  intros [= <- <-]. apply evolves_updId; [apply _|]. intros x Hx. rewrite Es in Hx. injection Hx as <-.
  destruct (transitionData_status _ _ _ _ _ s Ef) as [S1 S2]. split; [done|]. rewrite S1.
  apply rtc_once. split; [by eapply assertTransition_ok|done].
Qed.

Lemma preapproval_subs parsed prov : keeps (subEvo declined) (processPreapprovalEvent now parsed prov).
Proof.
  unfold processPreapprovalEvent, processSubscriptionCanceled, processSubscriptionPastDue, processSubscriptionSynced,
    findSubscriptionForGateway.
  repeat first [ apply applyTransition_evo; by auto
    | apply updateSubscription_evo; intros ?; split; [done|constructor]
    | apply (keeps_withRLS (subEvo declined)); [|intros; unfold subEvo; simpl; reflexivity]
    | keeps_step | apply subEvo_same; by frame ].
Qed.

(** A subscription notification moves no money.  It changes no order, payment or
    server, calls nothing, and queues nothing; subscriptions keep their contract
    and at most move, along the state machine, to past due or cancelled: no
    subscription is activated by it. *)
Theorem preapproval_never_pays parsed name w r w' :
  pw_resourceKind parsed = Some res_preapproval -> process now parsed name w = (r, w') ->
  db_orders (w_db w') = db_orders (w_db w) /\ db_payments (w_db w') = db_payments (w_db w) /\
  db_servers (w_db w') = db_servers (w_db w) /\ w_calls w' = w_calls w /\
  evolves declined (db_subscriptions (w_db w)) (db_subscriptions (w_db w')).
Proof.
  intros Hk Hr. apply process_inv in Hr as [[-> _]|(prov & r1 & w1 & l & _ & Hr & _ & ->)]; [split_and!; reflexivity|].
  unfold handle in Hr. rewrite Hk in Hr. simpl. split_and!; [| | |by apply preapproval_calls in Hr|exact (preapproval_subs _ _ _ _ _ Hr)].
  - exact (preapproval_orders _ _ _ _ _ _ Hr).
  - eapply (keeps_same (fun w => db_payments (w_db w))); [|exact Hr].
    unfold processPreapprovalEvent, processSubscriptionCanceled, processSubscriptionPastDue, processSubscriptionSynced. frame.
  - eapply (keeps_same (fun w => db_servers (w_db w))); [|exact Hr].
    unfold processPreapprovalEvent, processSubscriptionCanceled, processSubscriptionPastDue, processSubscriptionSynced. frame.
Qed.
End Preapproval.

(** ** Refunds *)

Section Refund.
Context `{Platform} `{Outside} `{Providers} (now : Z).

Lemma recordFromGateway_run oid p w :
  exists l, recordFromGateway oid p w = (Ok tt, w <| w_db := (w_db w) <| db_payments := l |> |>).
Proof. unfold recordFromGateway, onDb, modify. destruct (findId (gp_id p) (db_payments (w_db w))); by eexists. Qed.

Definition refundReason (ev : InternalPaymentEvent) : string :=
  "billing: " +:+ (if ev =s PaymentChargeback then "chargeback" else "payment refunded").

(** The constraints on a server accept its suspension unless it still waits for its set-up. *)
Lemma suspendRow_ok reason v : serverRowOk v = true ->
  serverRowOk (suspendRow now reason by_billing v) = negb (sv_status v =s Srv_setup_pending).
Proof.
  unfold serverRowOk. simpl. rewrite !andb_true_iff. intros [[[_ _] Ht] Hi].
  destruct (bool_decide_reflect (sv_status v = Srv_setup_pending)) as [E|E]; simpl in *.
  - destruct (bool_decide (sv_templateId v = None)); [done|discriminate Ht].
  - destruct (bool_decide (sv_templateId v = None)); [discriminate Ht|]. simpl. by rewrite Hi.
Qed.

(** The server after a suspension by billing. *)
Definition suspendedByBilling (reason : string) (v : Server) : Server :=
  if sv_status v =s Srv_setup_pending then v else suspendRow now reason by_billing v.

(** Suspending the server never undoes the refund. *)
Lemma suspendQuietly_run id reason w :
  exists w', tryCatch (suspend now id reason None by_billing) (fun _ => mret tt) w = (Ok tt, w') /\
    db_orders (w_db w') = db_orders (w_db w) /\ db_subscriptions (w_db w') = db_subscriptions (w_db w) /\
    (forall v, findId id (db_servers (w_db w)) = Some v -> serverRowOk v = true ->
       findId id (db_servers (w_db w')) = Some (suspendedByBilling reason v)).
Proof.
  destruct (tryCatch _ _ w) as [r w'] eqn:E. exists w'. split_and!.
  - f_equal. apply tryCatch_inv in E as [([] & _ & ->)|(? & ? & _ & [= <- _])]; done.
  - eapply (keeps_same (fun w => db_orders (w_db w))); [|exact E]. frame.
  - eapply (keeps_same (fun w => db_subscriptions (w_db w))); [|exact E]. frame.
  - intros v Hv Hok. apply (suspendRow_ok reason) in Hok. unfold suspendedByBilling. destruct (sv_status v =s Srv_setup_pending).
    + assert (suspend now id reason None by_billing w = (Throw (CheckViolation "servers"), w)) as Hs.
      { unfold suspend, getServer, withRLS, updateServer, mbind, M_bind, gets, orThrow, mret, M_ret. rewrite Hv. cbv beta iota. rewrite Hv. cbv beta iota. rewrite Hok. by destruct w. }
      unfold tryCatch in E. rewrite Hs in E. by injection E as _ <-.
    + destruct (suspend_run now id reason None by_billing w v Hv Hok) as (w1 & Hs & D).
      unfold tryCatch in E. rewrite Hs in E. injection E as _ <-. rewrite D. by apply findId_updId.
Qed.

(** C24: a refund or chargeback of a payment on file for a paid order always takes: the order
    becomes refunded, the subscription is suspended when the state machine allows it (from active
    and past due; otherwise it keeps its status), the customer's server, if it exists, is
    suspended by billing unless it still waits for its set-up (then the database refuses and the
    server keeps its status), and nothing is queued; a failure to suspend the server does not
    undo the rest. *)
Theorem refund_stops_service ev p name w sid s row o :
  ev = PaymentRefunded \/ ev = PaymentChargeback ->
  findId sid (db_subscriptions (w_db w)) = Some s -> findId (gp_id p) (db_payments (w_db w)) = Some row ->
  findId (pm_orderId row) (db_orders (w_db w)) = Some o -> or_status o = Ord_paid ->
  exists w', applyPaymentOutcome now sid ev p name w = (Ok None, w') /\
    (exists o', findId (or_id o) (db_orders (w_db w')) = Some o' /\ or_status o' = Ord_refunded /\ terms o' = terms o) /\
    (exists s', findId sid (db_subscriptions (w_db w')) = Some s' /\
       sb_status s' = if canTransition (sb_status s) Sub_suspended then Sub_suspended else sb_status s) /\
    (forall srv v, truthy (sb_serverId s) = Some srv -> findId srv (db_servers (w_db w)) = Some v ->
       serverRowOk v = true -> findId srv (db_servers (w_db w')) = Some (suspendedByBilling (refundReason ev) v)).
Proof.
  intros Hev Hs Hrow Ho Hpaid.
  assert (sb_id s = sid) as Hsid by (by apply findId_some in Hs as [_ ?]).
  assert (or_id o = pm_orderId row) as Hoid by (by apply findId_some in Ho as [_ ?]).
  assert (applyPaymentOutcome now sid ev p name w = withRLS (applyRefund now ev s o p) w) as ->.
  { unfold applyPaymentOutcome, withRLS. unfold mbind at 1, M_bind at 1, gets at 1. rewrite Hs.
    unfold mbind at 1, M_bind at 1, findOrCreateOrderForPayment. unfold mbind at 1, M_bind at 1, gets at 1. rewrite Hrow.
    unfold mret at 1, M_ret at 1. rewrite Ho. unfold applyToOrder. rewrite Hpaid.
    by destruct Hev as [-> | ->]. }
  unfold applyRefund. destruct (recordFromGateway_run (or_id o) p w) as (l & R1).
  set (w1 := w <| w_db := _ |>) in R1.
  assert (findId (or_id o) (db_orders (w_db w1)) = Some o) as Ho1 by (rewrite Hoid; exact Ho).
  pose proof (updateOrder_run (or_id o) (fun o => o <| or_status := Ord_refunded |>) w1 o Ho1) as R2.
  set (w2 := w1 <| w_db := _ |>) in R2.
  assert (findId (or_id o) (db_orders (w_db w2)) = Some (o <| or_status := Ord_refunded |>)) as Ho2 by (by apply findId_updId).
  assert (exists w3 s', (if canTransition (sb_status s) Sub_suspended then
     applyTransition now (sb_id s) Sub_suspended None (Some ("payment webhook: " +:+ eventStr ev)) ;; mret tt
     else mret tt) w2 = (Ok tt, w3) /\ db_orders (w_db w3) = db_orders (w_db w2) /\ db_servers (w_db w3) = db_servers (w_db w) /\
     findId sid (db_subscriptions (w_db w3)) = Some s' /\
     sb_status s' = if canTransition (sb_status s) Sub_suspended then Sub_suspended else sb_status s) as (w3 & s3 & R3 & O3 & V3 & S3 & T3).
  { destruct (canTransition (sb_status s) Sub_suspended) eqn:Ec; [|by exists w2, s].
    unfold mbind, M_bind. rewrite applyTransition_run, Hsid. change (db_subscriptions (w_db w2)) with (db_subscriptions (w_db w)).
    rewrite Hs. unfold assertTransition. rewrite Ec. simpl. eexists _, _. split; [reflexivity|]. split_and!; [done|done| |].
    - simpl. apply findId_updId; [done|exact Hs].
    - done. }
  assert (exists w4, match truthy (sb_serverId s) with
      | Some serverId => tryCatch (suspend now serverId (refundReason ev) None by_billing) (fun _ => mret tt)
      | None => mret tt end (record "payment.refunded" None "order" (or_id o) w3).2 = (Ok tt, w4) /\
      db_orders (w_db w4) = db_orders (w_db w3) /\ db_subscriptions (w_db w4) = db_subscriptions (w_db w3) /\
      (forall srv v, truthy (sb_serverId s) = Some srv -> findId srv (db_servers (w_db w)) = Some v ->
       serverRowOk v = true -> findId srv (db_servers (w_db w4)) = Some (suspendedByBilling (refundReason ev) v))) as (w4 & R4 & O4 & S4 & V4).
  { destruct (truthy (sb_serverId s)) as [srv|]; [|by eexists].
    destruct (suspendQuietly_run srv (refundReason ev) (record "payment.refunded" None "order" (or_id o) w3).2) as (w4 & E4 & O4 & S4 & V4).
    exists w4. split_and!; try done. intros ? v [= <-] Hv. apply V4. simpl. by rewrite V3. }
  exists w4. split_and!.
  - unfold withRLS. rewrite (bind_run _ _ _ _ _ R1), (bind_run _ _ _ _ _ R2), (bind_run _ _ _ _ _ R3).
    rewrite (bind_run _ _ _ tt (record "payment.refunded" None "order" (or_id o) w3).2) by done.
    rewrite (bind_run _ _ _ _ _ R4). done.
  - exists (o <| or_status := Ord_refunded |>). rewrite O4, O3, Ho2. done.
  - exists s3. by rewrite S4.
  - exact V4.
Qed.
End Refund.

(** ** Two behaviours the comments do not describe *)

Section Surprises.
Context `{Platform} `{Outside} `{Providers} (now : Z).

(** The run of a confirmed payment that is on file for an open order. *)
Lemma confirmed_run p name w sid s row o :
  findId sid (db_subscriptions (w_db w)) = Some s -> findId (gp_id p) (db_payments (w_db w)) = Some row ->
  findId (pm_orderId row) (db_orders (w_db w)) = Some o -> or_status o = Ord_pending \/ or_status o = Ord_expired ->
  applyPaymentOutcome now sid PaymentConfirmed p name w = withRLS (applyConfirmed now s o p) w.
Proof.
  intros Hs Hrow Ho Hst. unfold applyPaymentOutcome, withRLS. unfold mbind at 1, M_bind at 1, gets at 1. rewrite Hs.
  unfold mbind at 1, M_bind at 1, findOrCreateOrderForPayment. unfold mbind at 1, M_bind at 1, gets at 1. rewrite Hrow.
  unfold mret at 1, M_ret at 1. rewrite Ho. unfold applyToOrder. by destruct Hst as [-> | ->].
Qed.

(** Paying the renewal order of a suspended subscription extends its period but does
    not reactivate it: the [plan_renewal] branch comes first and only lifts
    [past_due], so the recovery branch never sees a renewal, and the server stays
    suspended. *)
Theorem suspended_renewal_not_reactivated p name w sid s row o r w' :
  findId sid (db_subscriptions (w_db w)) = Some s -> sb_status s = Sub_suspended ->
  findId (gp_id p) (db_payments (w_db w)) = Some row -> findId (pm_orderId row) (db_orders (w_db w)) = Some o ->
  or_status o = Ord_pending \/ or_status o = Ord_expired -> or_kind o = plan_renewal ->
  applyPaymentOutcome now sid PaymentConfirmed p name w = (Ok r, w') ->
  db_servers (w_db w') = db_servers (w_db w) /\ w_calls w' = w_calls w /\
  exists s', findId sid (db_subscriptions (w_db w')) = Some s' /\ sb_status s' = Sub_suspended.
Proof.
  intros Hs Hsus Hrow Ho Hst Hk. rewrite (confirmed_run p name w sid s row o Hs Hrow Ho Hst), withRLS_ok.
  assert (sb_id s = sid) as Hid by (by apply findId_some in Hs as [_ ?]).
  unfold applyConfirmed. rewrite Hk. simpl. intros Hr.
  split_and!; [eapply (keeps_same (fun w => db_servers (w_db w))); [|exact Hr]; frame|eapply (keeps_same w_calls); [|exact Hr]; frame|].
  destruct (negb _); [unfold record in Hr; mok; subst; eauto|].
  apply bind_ok in Hr as (? & w1 & E1 & Hr). apply bind_ok in Hr as (? & w2 & E2 & Hr). apply bind_ok in Hr as (? & w3 & E3 & Hr).
  assert (db_subscriptions (w_db w3) = db_subscriptions (w_db w)) as D3.
  { transitivity (db_subscriptions (w_db w2)); [|transitivity (db_subscriptions (w_db w1))].
    - eapply (keeps_same (fun w => db_subscriptions (w_db w))); [|exact E3]; frame.
    - eapply (keeps_same (fun w => db_subscriptions (w_db w))); [|exact E2]; frame.
    - eapply (keeps_same (fun w => db_subscriptions (w_db w))); [|exact E1]; frame. }
  apply bind_ok in Hr as (? & w4 & E4 & Hr). mok. subst.
  match goal with Ha : applyRenewal _ _ _ _ = _ |- _ => rewrite applyRenewal_run, D3, Hs, Hsus in Ha end.
  destruct (nextPeriodEnd _ _); [|done]. simpl in *. simplify_eq. match goal with Hm : record _ _ _ _ _ = _ |- _ => unfold record in Hm end. mok. subst.
  simpl. rewrite D3. eexists. split; [apply findId_updId; [done|exact Hs]|done].
Qed.

(** A payment that arrives after its checkout expired (and the subscription was
    therefore cancelled) still marks the order paid and queues a server, although the
    subscription stays cancelled: nothing will ever bill that server again. *)
Theorem late_payment_provisions_cancelled p name w sid s row o :
  findId sid (db_subscriptions (w_db w)) = Some s -> sb_status s = Sub_cancelled ->
  findId (gp_id p) (db_payments (w_db w)) = Some row -> findId (pm_orderId row) (db_orders (w_db w)) = Some o ->
  or_status o = Ord_expired -> or_kind o = plan_initial -> or_provisioningStatus o = Prov_pending ->
  gp_amountCents p = Some (or_amountCents o) ->
  exists w', applyPaymentOutcome now sid PaymentConfirmed p name w = (Ok (Some (or_id o)), w') /\
    db_subscriptions (w_db w') = db_subscriptions (w_db w) /\
    exists o', findId (or_id o) (db_orders (w_db w')) = Some o' /\ or_status o' = Ord_paid.
Proof.
  intros Hs Hc Hrow Ho Hst Hk Hpr Ha. rewrite (confirmed_run p name w sid s row o Hs Hrow Ho (or_intror Hst)).
  assert (or_id o = pm_orderId row) as Hoid by (by apply findId_some in Ho as [_ ?]).
  unfold applyConfirmed, withRLS. rewrite Ha, Hk, Hpr, Hc. rewrite bool_decide_eq_true_2 by done. simpl.
  destruct (recordFromGateway_run (or_id o) p w) as (l & R1). rewrite (bind_run _ _ _ _ _ R1).
  erewrite bind_run; [|apply updateOrder_run; simpl; rewrite Hoid; exact Ho].
  unfold record, modify, mbind, M_bind, mret, M_ret. eexists. split; [reflexivity|]. split; [done|].
  simpl. eexists. split; [apply findId_updId; [done|rewrite Hoid; exact Ho]|done].
Qed.
End Surprises.

(** ** Witnesses *)

#[local] Existing Instance Demo.platform.
#[local] Existing Instance DemoSub.laws.
#[local] Existing Instance DemoSrv.outside.
#[local] Existing Instance DemoPay.providers.
#[local] Existing Instance DemoPay.config.

Module DemoHook.
(** The notification of the checkout's approved payment, and the world after it. *)
Definition parsed : ParsedWebhook := mkParsed "n1" "payment" (Some res_payment) (Some "pay").
Definition paid : World := (process 3000 parsed "mercadopago" DemoPay.ordered).2.
Definition cancelled : ParsedWebhook := mkParsed "n2" "preapproval" (Some res_preapproval) (Some "sub").
End DemoHook.

Lemma webhook_order_moves_witness :
  exists o', o' ∈ db_orders (w_db DemoHook.paid) /\ or_status o' = Ord_paid /\ or_amountCents o' = 2990 /\ or_id o' = "id-2".
Proof.
  pose proof (webhook_order_moves 3000 DemoHook.parsed "mercadopago" (DemoPay.provider "mercadopago") DemoPay.ordered
    (process 3000 DemoHook.parsed "mercadopago" DemoPay.ordered).1 DemoHook.paid demo_ordered_ok eq_refl (surjective_pairing _)) as Ev.
  destruct (findId "id-2" (db_orders (w_db DemoPay.ordered))) as [o|] eqn:Eo; [|vm_compute in Eo; discriminate Eo].
  destruct (evolves_elem _ _ _ o Ev (proj1 (findId_some _ _ _ Eo))) as (o' & Ho' & Hm).
  assert (terms o' = terms o) as T by exact (proj1 Hm). exists o'. split; [exact Ho'|].
  assert (forall x, x ∈ db_orders (w_db DemoHook.paid) -> or_status x = Ord_paid) as P.
  { assert (forallb (fun x => or_status x =s Ord_paid) (db_orders (w_db DemoHook.paid)) = true) as F by (vm_compute; reflexivity).
    intros x Hx. rewrite forallb_forall in F. apply list_elem_of_In in Hx. exact (proj1 (bool_decide_eq_true _) (F x Hx)). }
  split; [exact (P o' Ho')|].
  assert (or_amountCents o = 2990 /\ or_id o = "id-2") as [A B] by (vm_compute in Eo; injection Eo as <-; split; reflexivity).
  unfold terms in T. injection T. intros. split; congruence.
Defined.

Lemma webhook_enqueues_paid_only_witness : paidNow DemoPay.ordered DemoHook.paid "id-2".
Proof.
  assert (existsb (fun c => match c with EnqueueProvision i => i =s "id-2" | _ => false end) (w_calls DemoHook.paid) = true) as E
    by (vm_compute; reflexivity).
  assert (forallb (fun c => match c with EnqueueProvision i => false | _ => true end) (w_calls DemoPay.ordered) = true) as N
    by (vm_compute; reflexivity).
  assert (EnqueueProvision "id-2" ∈ w_calls DemoHook.paid) as Hin.
  { apply existsb_exists in E as (c & Hc & E). destruct c; try discriminate E. apply bool_decide_eq_true in E. subst.
    apply list_elem_of_In. exact Hc. }
  destruct (webhook_enqueues_paid_only 3000 DemoHook.parsed "mercadopago" DemoPay.ordered
    (process 3000 DemoHook.parsed "mercadopago" DemoPay.ordered).1 DemoHook.paid "id-2" demo_ordered_ok (surjective_pairing _) Hin) as [F|F];
    [exfalso|exact F].
  rewrite forallb_forall in N. apply list_elem_of_In in F. discriminate (N _ F).
Defined.


Lemma preapproval_never_pays_witness :
  map sb_status (db_subscriptions (w_db (process 3000 DemoHook.cancelled "mercadopago" DemoCard.world).2)) = [Sub_cancelled] /\
  db_orders (w_db (process 3000 DemoHook.cancelled "mercadopago" DemoCard.world).2) = db_orders (w_db DemoCard.world).
Proof.
  split; [vm_compute; reflexivity|].
  exact (proj1 (preapproval_never_pays 3000 DemoHook.cancelled "mercadopago" DemoCard.world
    (process 3000 DemoHook.cancelled "mercadopago" DemoCard.world).1 _ eq_refl (surjective_pairing _))).
Defined.

Lemma refund_stops_service_witness :
  exists w' s', applyPaymentOutcome 5000 "id-0" PaymentRefunded (DemoPay.payment "pay" "ord_ref-1" 2990) "mercadopago" DemoHook.paid = (Ok None, w') /\
    findId "id-0" (db_subscriptions (w_db w')) = Some s' /\ sb_status s' = Sub_suspended.
Proof.
  destruct (findId "id-0" (db_subscriptions (w_db DemoHook.paid))) as [s|] eqn:Es; [|vm_compute in Es; discriminate Es].
  destruct (findId "pay" (db_payments (w_db DemoHook.paid))) as [row|] eqn:Er; [|vm_compute in Er; discriminate Er].
  assert (pm_orderId row = "id-2") as Hid by (vm_compute in Er; injection Er as <-; reflexivity).
  destruct (findId "id-2" (db_orders (w_db DemoHook.paid))) as [o|] eqn:Eo; [|vm_compute in Eo; discriminate Eo].
  assert (or_status o = Ord_paid) as Hp by (vm_compute in Eo; injection Eo as <-; reflexivity).
  assert (sb_status s = Sub_active) as Ha by (vm_compute in Es; injection Es as <-; reflexivity).
  rewrite <- Hid in Eo.
  destruct (refund_stops_service 5000 PaymentRefunded (DemoPay.payment "pay" "ord_ref-1" 2990) "mercadopago" DemoHook.paid "id-0" s row o
    (or_introl eq_refl) Es Er Eo Hp) as (w' & Hr & _ & (s' & Hs' & St) & _).
  exists w', s'. rewrite Ha in St. split; [exact Hr|split; [exact Hs'|exact St]].
Defined.

Module DemoLost.
(** A queue that is down. *)
#[local] Instance outside : Outside := {| agentReply _ c := match c with EnqueueProvision _ => Some (External "redis down") | _ => None end |}.
Definition run : Res unit * World := process (H0 := outside) 3000 DemoHook.parsed "mercadopago" DemoPay.ordered.
End DemoLost.

(** The first delivery throws with the payment committed; the retry says nothing went wrong. *)
Lemma lost_provisioning_witness :
  DemoLost.run.1 = Throw (External "redis down") /\
  (process 4000 DemoHook.parsed "mercadopago" DemoLost.run.2).1 = Ok tt /\
  w_calls (process 4000 DemoHook.parsed "mercadopago" DemoLost.run.2).2 = w_calls DemoLost.run.2.
Proof.
  split; [vm_compute; reflexivity|].
  destruct (findId "pay" (db_payments (w_db DemoLost.run.2))) as [row|] eqn:Er; [|vm_compute in Er; discriminate Er].
  assert (pm_orderId row = "id-2") as Hid by (vm_compute in Er; injection Er as <-; reflexivity).
  destruct (findId "id-2" (db_orders (w_db DemoLost.run.2))) as [o|] eqn:Eo; [|vm_compute in Eo; discriminate Eo].
  assert (or_status o = Ord_paid /\ or_provisioningStatus o = Prov_pending) as [Hp Hv]
    by (vm_compute in Eo; injection Eo as <-; split; reflexivity).
  rewrite <- Hid in Eo.
  assert (registryGet "mercadopago" = Ok (DemoPay.provider "mercadopago")) as Hreg by reflexivity.
  destruct (lost_provisioning 4000 DemoHook.parsed (DemoPay.provider "mercadopago") (DemoPay.payment "pay" "ord_ref-1" 2990) "pay"
    eq_refl (fun _ => eq_refl) eq_refl "mercadopago" DemoLost.run.2 row o (process 4000 DemoHook.parsed "mercadopago" DemoLost.run.2).1
    (process 4000 DemoHook.parsed "mercadopago" DemoLost.run.2).2 "admin" Hreg Er Eo Hp Hv (surjective_pairing _)) as (R & C & _).
  split; [exact R|exact C].
Defined.
