(* ===== verification/Billing.v ===== *)
(** Billing: provisioning a paid order, and the daily billing jobs.

    [payments/provisioning.service.ts], [queues/billing-cycle.processor.ts] and
    [queues/billing-reconciliation.processor.ts].  A job run reads the clock once
    here ([now]); the queues themselves (Redis, BullMQ's retries) are outside. *)

From S2P Require Import Prelude JsNum Capacity Store Scheduler Calendar Subscriptions JsString Servers Payments Webhook.
From Stdlib Require Import Ascii String Lia.

Local Open Scope Z_scope.

(** ** provisioning.service.ts *)

Section Billing.
Context `{Platform} `{Outside} `{Providers} `{Config} (now : Z).

(** The server call of [provisionOrder]: the legacy shape when the snapshot names a template. *)
Definition createFor (order : Order) : MW CreatedServer :=
  match cs_template (or_config order) with
  | Some (templateId, templateName) =>
    create now {| dto_input := mkCreateInput (or_userId order) (or_planId order)
                    (Some (default templateName (cs_serverName (or_config order)))) (cs_variables (or_config order)) None
                    (or_subscriptionId order);
                  dto_templateId := Some templateId; dto_nodeId := None |}
  | None =>
    createSetupPending now (mkCreateInput (or_userId order) (or_planId order) None None None (or_subscriptionId order)) None
  end.

Definition provisionOrder (orderId : string) : MW unit :=
  order ← withRLS (d ← gets w_db; mret (findId orderId (db_orders d)));
  order ← orThrow order (NotFound "Order not found");
  if bool_decide (is_Some (truthy (or_serverId order))) || (or_provisioningStatus order =s Prov_done) then mret tt
  else if or_provisioningStatus order =s Prov_not_required then mret tt
  else
    throwIf (negb (or_status order =s Ord_paid))
      (Conflict ("Order " +:+ orderId +:+ " is not paid (status=" +:+ orderStatusStr (or_status order) +:+ ") — refusing to provision")) ;;
    withRLS (updateOrder orderId (fun o => o <| or_provisioningStatus := Prov_running |>
      <| or_provisioningAttempts := or_provisioningAttempts o + 1 |>)) ;;
    tryCatch (
      created ← createFor order;
      withRLS (updateOrder orderId (fun o => o <| or_serverId := Some (cr_id created) |>
        <| or_provisioningStatus := Prov_done |> <| or_provisioningError := None |>)) ;;
      record "provisioning.succeeded" None "order" orderId)
    (fun err =>
      withRLS (updateOrder orderId (fun o => o <| or_provisioningStatus := Prov_failed |>
        <| or_provisioningError := Some (sliceTo 1000 (message err)) |>)) ;;
      record "provisioning.failed" None "order" orderId ;;
      throw err).

(** ** billing-cycle.processor.ts *)

Definition OFFLINE_RENEWAL_LOOKAHEAD_DAYS : Z := 3.

Definition renewalDue (s : Subscription) : bool :=
  ((sb_paymentMethod s =s Some pix) || (sb_paymentMethod s =s Some boleto)) &&
  ((sb_status s =s Sub_active) || (sb_status s =s Sub_past_due)) && negb (sb_cancelAtPeriodEnd s) &&
  match sb_currentPeriodEndsAt s with
  | Some e => e <=? now + OFFLINE_RENEWAL_LOOKAHEAD_DAYS * DAY_MS
  | None => false
  end.

Definition generateOfflineRenewalCharges : MW Z :=
  due ← withRLS (d ← gets w_db; mret (List.filter renewalDue (db_subscriptions d)));
  forFold due 0 (fun created sub =>
    tryCatch (
      orderId ← createOfflineRenewalCharge now (sb_id sub);
      mret (match truthy orderId with Some _ => created + 1 | None => created end))
    (fun _ => mret created)).

Definition staleOrder (o : Order) : bool :=
  (or_status o =s Ord_pending) && match or_expiresAt o with Some e => e <? now | None => false end.

(** The transaction for one stale order. *)
Definition expireOrder (order : Order) : MW unit :=
  updateOrder (or_id order) (fun o => o <| or_status := Ord_expired |>) ;;
  match truthy (or_subscriptionId order) with
  | None => mret tt
  | Some sid =>
    d ← gets w_db;
    match findId sid (db_subscriptions d) with
    | None => mret tt
    | Some subscription =>
      if or_kind order =s plan_initial then
        if canTransition (sb_status subscription) Sub_cancelled
        then applyTransition now sid Sub_cancelled None (Some "billing-cycle: checkout abandoned (order expired)") ;; mret tt
        else mret tt
      else if canTransition (sb_status subscription) Sub_past_due
      then applyTransition now sid Sub_past_due None (Some "billing-cycle: renewal charge expired unpaid") ;; mret tt
      else mret tt
    end
  end.

Definition expireStaleOrders : MW Z :=
  stale ← withRLS (d ← gets w_db; mret (List.filter staleOrder (db_orders d)));
  forEach stale (fun order =>
    withRLS (expireOrder order) ;;
    record "payment.checkout.expired" None "order" (or_id order)) ;;
  mret (Z.of_nat (List.length stale)).

(** [createdAt] of the most recent event that made the subscription past due. *)
Definition lastPastDue (d : Db) (subscriptionId : string) : option Z :=
  fold_left (fun best e =>
    if (ev_subscriptionId e =s subscriptionId) && (ev_toStatus e =s Sub_past_due)
    then Some (match best with Some b => Z.max b (ev_createdAt e) | None => ev_createdAt e end)
    else best) (db_events d) None.

Definition graceReason : string :=
  "past_due for more than " +:+ zstr (default 3 BILLING_GRACE_DAYS) +:+ " day(s)".

Definition graceCutoff : Z := now - default 3 BILLING_GRACE_DAYS * DAY_MS.

(** The loop body of [suspendOverdueSubscriptions]. *)
Definition suspendOverdue (sub : Subscription) : MW bool :=
  last ← withRLS (d ← gets w_db; mret (lastPastDue d (sb_id sub)));
  match last with
  | None => mret false
  | Some createdAt =>
    if createdAt >? graceCutoff then mret false
    else
      withRLS (applyTransition now (sb_id sub) Sub_suspended None (Some ("billing-cycle: " +:+ graceReason)) ;; mret tt) ;;
      record "subscription.suspended.billing" None "subscription" (sb_id sub) ;;
      match truthy (sb_serverId sub) with
      | Some serverId => suspend now serverId ("billing: " +:+ graceReason) None by_billing
      | None => mret tt
      end ;;
      mret true
  end.

Definition suspendOverdueSubscriptions : MW Z :=
  pastDue ← withRLS (d ← gets w_db; mret (List.filter (fun s => sb_status s =s Sub_past_due) (db_subscriptions d)));
  forFold pastDue 0 (fun suspendedCount sub =>
    done ← suspendOverdue sub;
    mret (if done : bool then suspendedCount + 1 else suspendedCount)).

Definition periodEnded (s : Subscription) : bool :=
  sb_cancelAtPeriodEnd s &&
  ((sb_status s =s Sub_active) || (sb_status s =s Sub_past_due) || (sb_status s =s Sub_suspended)) &&
  match sb_currentPeriodEndsAt s with Some e => e <=? now | None => false end.

Definition finishCancellationsAtPeriodEnd : MW Z :=
  ended ← withRLS (d ← gets w_db; mret (List.filter periodEnded (db_subscriptions d)));
  forFold ended 0 (fun finished sub =>
    tryCatch (
      withRLS (applyTransition now (sb_id sub) Sub_cancelled None
                 (Some (default "billing-cycle: cancelled at period end" (sb_cancelReason sub)))) ;;
      record "subscription.cancelled.period_end" None "subscription" (sb_id sub) ;;
      match truthy (sb_serverId sub) with
      | Some serverId => suspend now serverId "billing: subscription cancelled (period ended)" None by_billing
      | None => mret tt
      end ;;
      mret (finished + 1))
    (fun _ => mret finished)).

Definition billingCycle : MW unit :=
  generateOfflineRenewalCharges ;;
  expireStaleOrders ;;
  suspendOverdueSubscriptions ;;
  finishCancellationsAtPeriodEnd ;;
  mret tt.

(** ** billing-reconciliation.processor.ts *)

Definition reconcile : MW Z :=
  subscriptions ← withRLS (
    d ← gets w_db;
    mret (List.filter (fun s => ((sb_status s =s Sub_active) || (sb_status s =s Sub_past_due)) &&
                                bool_decide (is_Some (sb_externalSubscriptionId s))) (db_subscriptions d)));
  forFold subscriptions 0 (fun divergences sub =>
    tryCatch (
      provider ← lift (registryGet (sb_paymentProvider sub));
      remote ← providerRead (pp_getSubscription provider) (default "" (sb_externalSubscriptionId sub));
      let remoteSuggestsActive := pp_classifySubscription provider remote =s SubscriptionSynced in
      let localIsActive := sb_status sub =s Sub_active in
      if Bool.eqb remoteSuggestsActive localIsActive then mret divergences
      else record "billing.reconciliation.divergence" None "subscription" (sb_id sub) ;; mret (divergences + 1))
    (fun _ => mret divergences)).

End Billing.

(** ** Lemmas: creating a server leaves the orders alone *)

#[export] Hint Unfold createOnNode createTx createChecks createRow chooseAllocation attachSubscription checkRequested
  applyTemplate dispatchToAgent requireOwner requirePlan loadTemplate : frame.

Section BillingLemmas.
Context `{Platform} `{Outside} `{Providers} `{Config} (now : Z).

Lemma createOnNode_orders dto ctx n : keeps (same (fun w => db_orders (w_db w))) (createOnNode now dto ctx n).
Proof.
  assert (forall k, keeps (same (fun w => db_orders (w_db w))) (generateUniqueShortId k)) as G.
  { induction k as [|k IH]; simpl; frame. }
  autounfold with frame. frame.
Qed.

Lemma createFor_orders o : keeps (same (fun w => db_orders (w_db w))) (createFor now o).
Proof.
  unfold createFor, create, createSetupPending, withSchedulerRetry, requireOwner, requirePlan, loadTemplate.
  repeat first [ apply createOnNode_orders | apply schedulerLoop_keeps; [apply _|intros ?] | keeps_step ].
Qed.
End BillingLemmas.

Section Provisioning.
Context `{Platform} `{Outside} `{Providers} `{Config} (now : Z).

(** An order provisioning has nothing left to do for. *)
Definition settledOrder (o : Order) : bool :=
  bool_decide (is_Some (truthy (or_serverId o))) || (or_provisioningStatus o =s Prov_done) || (or_provisioningStatus o =s Prov_not_required).

(** C3: provisioning never serves an unpaid order and never serves one twice, and
    its failures never touch the payment.  An order that has its server, or needs
    none, is left exactly as it is; an unpaid one is refused with nothing written; on
    a paid one exactly one server creation is attempted, and the order ends done with
    that server's id, or failed with the error, its payment status and terms
    untouched and the attempt counted. *)
Theorem provision_outcome oid w o r w' :
  findId oid (db_orders (w_db w)) = Some o -> provisionOrder now oid w = (r, w') ->
  if settledOrder o then r = Ok tt /\ w' = w
  else if negb (or_status o =s Ord_paid) then (exists m, r = Throw (Conflict m)) /\ w' = w
  else exists x w1 w2 o', createFor now o w1 = (x, w2) /\ w_calls w1 = w_calls w /\ w_calls w' = w_calls w2 /\
    findId oid (db_orders (w_db w')) = Some o' /\ terms o' = terms o /\ or_status o' = Ord_paid /\
    or_provisioningAttempts o' = or_provisioningAttempts o + 1 /\
    match x with
    | Ok c => r = Ok tt /\ or_serverId o' = Some (cr_id c) /\ or_provisioningStatus o' = Prov_done /\ or_provisioningError o' = None
    | Throw e => r = Throw e /\ or_serverId o' = or_serverId o /\ or_provisioningStatus o' = Prov_failed /\
        or_provisioningError o' = Some (sliceTo 1000 (message e))
    end.
Proof.
  intros Ho. unfold provisionOrder, settledOrder.
  unfold mbind at 1, M_bind at 1, withRLS at 1, mbind at 1, M_bind at 1, gets at 1, mret at 1, M_ret at 1. rewrite Ho.
  unfold mbind at 1, M_bind at 1, orThrow, mret at 1, M_ret at 1.
  destruct (_ || _) eqn:D1; simpl; [by intros [= <- <-]|]. destruct (or_provisioningStatus o =s Prov_not_required); simpl; [by intros [= <- <-]|].
  destruct (bool_decide_reflect (or_status o = Ord_paid)) as [P|P]; simpl; [|intros [= <- <-]; eauto].
  unfold mbind at 1, M_bind at 1, mret at 1, M_ret at 1.
  unfold mbind at 1, M_bind at 1. unfold withRLS at 1. rewrite (updateOrder_run _ _ _ _ Ho).
  set (w1 := w <| w_db := _ |>). set (o1 := o <| or_provisioningStatus := Prov_running |> <| or_provisioningAttempts := or_provisioningAttempts o + 1 |>).
  assert (findId oid (db_orders (w_db w1)) = Some o1) as Ho1 by (etransitivity; [by apply (findId_updId oid _ _ o)|done]).
  destruct (createFor now o w1) as [x w2] eqn:Ec.
  assert (findId oid (db_orders (w_db w2)) = Some o1) as Ho2 by (by rewrite (createFor_orders now o _ _ _ Ec)).
  intros Hr. exists x, w1, w2. destruct x as [c|e]; unfold tryCatch, mbind, M_bind, withRLS in Hr; rewrite Ec in Hr.
  - rewrite (updateOrder_run _ _ _ _ Ho2) in Hr. injection Hr as <- <-. eexists. split; [done|]. split; [done|]. split; [done|].
    split; [by apply findId_updId|]. split_and!; done.
  - rewrite (updateOrder_run _ _ _ _ Ho2) in Hr. injection Hr as <- <-. eexists. split; [done|]. split; [done|]. split; [done|].
    split; [by apply findId_updId|]. split_and!; done.
Qed.
End Provisioning.

(** ** Lemmas: expiring orders *)

Section Expiry.
Context `{Platform} `{Outside} `{Providers} `{Config} (now : Z).

Definition expire (o : Order) : Order := o <| or_status := Ord_expired |>.

(** One stale order: it expires, whatever its subscription, and nothing is thrown. *)
Lemma expireOrder_run o w x : findId (or_id o) (db_orders (w_db w)) = Some x ->
  exists w', withRLS (expireOrder now o) w = (Ok tt, w') /\
    db_orders (w_db w') = updId (or_id o) expire (db_orders (w_db w)) /\ subEvo declined w w'.
Proof.
  intros Hx. destruct (withRLS (expireOrder now o) w) as [r w'] eqn:E.
  assert (keeps (subEvo declined) (withRLS (expireOrder now o))) as K.
  { unfold expireOrder. repeat first [ apply applyTransition_evo; by auto
    | apply (keeps_withRLS (subEvo declined)); [|intros; unfold subEvo; simpl; reflexivity]
    | keeps_step | apply subEvo_same; by frame ]. }
  pose proof (K _ _ _ E) as Hs. clear K. exists w'.
  unfold withRLS, expireOrder in E. unfold mbind at 1, M_bind at 1 in E. rewrite (updateOrder_run _ _ _ _ Hx) in E.
  set (w1 := w <| w_db := _ |>) in E.
  assert (forall sid s to reason, findId sid (db_subscriptions (w_db w1)) = Some s -> to <> Sub_active -> canTransition (sb_status s) to = true ->
    exists w2, (applyTransition now sid to None (Some reason) ;; mret tt) w1 = (Ok tt, w2) /\ db_orders (w_db w2) = db_orders (w_db w1)) as Tr.
  { intros sid s to reason Hs' Hto Hc. unfold mbind, M_bind. rewrite applyTransition_run, Hs'. unfold assertTransition. rewrite Hc.
    unfold transitionData. rewrite (bool_decide_eq_false_2 _ Hto). destruct (to =s Sub_cancelled); eexists; split; done. }
  assert (exists w2, (match truthy (or_subscriptionId o) with
    | None => mret tt
    | Some sid => d ← gets w_db; match findId sid (db_subscriptions d) with
      | None => mret tt
      | Some s => if or_kind o =s plan_initial then
          if canTransition (sb_status s) Sub_cancelled
          then applyTransition now sid Sub_cancelled None (Some "billing-cycle: checkout abandoned (order expired)") ;; mret tt else mret tt
        else if canTransition (sb_status s) Sub_past_due
        then applyTransition now sid Sub_past_due None (Some "billing-cycle: renewal charge expired unpaid") ;; mret tt else mret tt
      end end) w1 = (Ok tt, w2) /\ db_orders (w_db w2) = db_orders (w_db w1)) as (w2 & E2 & D2).
  { destruct (truthy (or_subscriptionId o)) as [sid|]; [|by eexists]. unfold mbind at 1, M_bind at 1, gets at 1.
    destruct (findId sid (db_subscriptions (w_db w1))) as [s|] eqn:Es; [|by eexists].
    destruct (or_kind o =s plan_initial).
    - destruct (canTransition (sb_status s) Sub_cancelled) eqn:Ec; [|by eexists]. by eapply Tr.
    - destruct (canTransition (sb_status s) Sub_past_due) eqn:Ec; [|by eexists]. by eapply Tr. }
  rewrite E2 in E. injection E as <- <-. split_and!; [done| |done]. by rewrite D2.
Qed.

Lemma expireLoop_run l w : NoDup (map rid (db_orders (w_db w))) -> (forall o, o ∈ l -> or_id o ∈ map rid (db_orders (w_db w))) ->
  exists w', forEach l (fun order => withRLS (expireOrder now order) ;; record "payment.checkout.expired" None "order" (or_id order)) w = (Ok tt, w') /\
    db_orders (w_db w') = updWhere (fun o => bool_decide (or_id o ∈ map or_id l)) expire (db_orders (w_db w)) /\ subEvo declined w w'.
Proof.
  revert w. induction l as [|o l IH]; intros w Hn Hl; cbn [forEach map].
  - exists w. split_and!; [done| |reflexivity]. unfold updWhere. symmetry. rewrite <- (map_id (db_orders _)) at 2.
    by apply map_ext.
  - assert (or_id o ∈ map rid (db_orders (w_db w))) as Ho by (apply Hl, elem_of_cons; by left).
    apply list_elem_of_In, in_map_iff in Ho as (x & Ex & Hx). apply list_elem_of_In in Hx.
    assert (findId (or_id o) (db_orders (w_db w)) = Some x) as Hf by (rewrite <- Ex; by apply findId_unique).
    destruct (expireOrder_run o w x Hf) as (w1 & E1 & D1 & S1).
    set (w2 := (record "payment.checkout.expired" None "order" (or_id o) w1).2).
    assert (map rid (db_orders (w_db w2)) = map rid (db_orders (w_db w))) as M by (unfold w2; simpl; rewrite D1; by apply updId_rids).
    destruct (IH w2) as (w' & E' & D' & S').
    { by rewrite M. } { intros y Hy. rewrite M. apply Hl, elem_of_cons. by right. }
    exists w'. split_and!.
    + rewrite (bind_run _ _ w tt w2); [done|]. by rewrite (bind_run _ _ _ _ _ E1).
    + rewrite D'. unfold w2. simpl. rewrite D1, updId_updWhere by done. unfold updWhere. rewrite map_map. apply map_ext. intros y.
      change (rid y) with (or_id y). destruct (bool_decide_reflect (or_id y = or_id o)) as [E|E]; simpl.
      * rewrite (bool_decide_eq_true_2 (or_id y ∈ or_id o :: map or_id l)) by (rewrite elem_of_cons; by left). by destruct (bool_decide _).
      * rewrite (bool_decide_ext (or_id y ∈ or_id o :: map or_id l) (or_id y ∈ map or_id l)); [done|]. rewrite elem_of_cons. tauto.
    + etransitivity; [exact S1|exact S'].
Qed.

(** The daily expiry is exact and never fails: every pending order past its
    deadline becomes expired and no other order changes at all; subscriptions keep
    their contract and at most move, along the state machine, to past due or
    cancelled. *)
Theorem expireStaleOrders_exact w : NoDup (map rid (db_orders (w_db w))) ->
  exists w', expireStaleOrders now w = (Ok (countWhere (staleOrder now) (db_orders (w_db w))), w') /\
    db_orders (w_db w') = updWhere (staleOrder now) expire (db_orders (w_db w)) /\
    evolves declined (db_subscriptions (w_db w)) (db_subscriptions (w_db w')).
Proof.
  intros Hn. set (l := List.filter (staleOrder now) (db_orders (w_db w))).
  destruct (expireLoop_run l w Hn) as (w' & E & D & S).
  { intros o Ho. apply list_elem_of_In, filter_In in Ho as [Ho _]. apply list_elem_of_In. by apply (in_map rid). }
  exists w'. split_and!; [|rewrite D|exact S].
  - unfold expireStaleOrders. rewrite (bind_run _ _ w l w) by done. rewrite (bind_run _ _ _ _ _ E). done.
  - unfold updWhere. apply map_ext_in. intros o Ho. erewrite bool_decide_ext with (Q := staleOrder now o = true).
    + by destruct (staleOrder now o).
    + split.
      * intros Hi%list_elem_of_In. apply in_map_iff in Hi as (x & Ex & Hx). apply filter_In in Hx as [Hx Hs].
        assert (x = o) as -> by (apply (NoDup_map_inj rid (db_orders (w_db w))); try done; by apply list_elem_of_In). done.
      * intros Hs. apply list_elem_of_In, in_map, filter_In. done.
Qed.
End Expiry.

(** ** Suspension after the grace period *)

Lemma forFold_inv {S A B} (Inv : S -> Prop) (f : B -> A -> M S B) (l : list A) :
  (forall x b v r v', x ∈ l -> Inv v -> f b x v = (r, v') -> Inv v') ->
  forall b v r v', Inv v -> forFold l b f v = (r, v') -> Inv v'.
Proof.
  intros Hf. induction l as [|x l IH]; intros b v r v' Hv; simpl; [by intros [= <- <-]|].
  intros Hr. apply bind_inv in Hr as [(e & Hr & ->)|(b' & v1 & E & Hr)].
  - eapply Hf; [|exact Hv|exact Hr]. apply elem_of_cons. by left.
  - eapply IH; [|eapply Hf; [|exact Hv|exact E]|exact Hr]; [|apply elem_of_cons; by left].
    intros y b0 v0 r0 v0' Hy. apply Hf, elem_of_cons. by right.
Qed.

Section Overdue.
Context `{Platform} `{Outside} `{Providers} `{Config} (now : Z).

(** What the job may do to a subscription, given the history at its start. *)
Definition overdueMove (d : Db) (s s' : Subscription) : Prop :=
  contract s' = contract s /\
  (sb_status s' = sb_status s \/
   sb_status s = Sub_past_due /\ sb_status s' = Sub_suspended /\
   exists t, lastPastDue d (sb_id s) = Some t /\ t <= graceCutoff now).

#[local] Instance overdueMove_preorder d : PreOrder (overdueMove d).
Proof.
  split; [intros s; split; auto|]. intros a b c [E1 M1] [E2 M2]. split; [congruence|].
  assert (sb_id b = sb_id a) as Hid by (by apply contract_id).
  destruct M1 as [M1|(P1 & S1 & T1)], M2 as [M2|(P2 & S2 & T2)]; [left; congruence|right|right|congruence].
  - rewrite <- Hid. split_and!; [congruence|done|done].
  - split_and!; [done|congruence|done].
Qed.

Definition overdueInv (d : Db) (v : World) : Prop :=
  evolves (overdueMove d) (db_subscriptions d) (db_subscriptions (w_db v)) /\
  forall id, lastPastDue (w_db v) id = lastPastDue d id.

Lemma suspendOverdue_inv d sub v r v' : NoDup (map rid (db_subscriptions d)) -> sub ∈ db_subscriptions d ->
  sb_status sub = Sub_past_due -> overdueInv d v -> suspendOverdue now sub v = (r, v') -> overdueInv d v'.
Proof.
  intros Hn Hin Hpd [Hev Hl]. unfold suspendOverdue. intros Hr.
  unfold mbind at 1, M_bind at 1, withRLS at 1, mbind at 1, M_bind at 1, gets at 1, mret at 1, M_ret at 1 in Hr.
  rewrite Hl in Hr. destruct (lastPastDue d (sb_id sub)) as [t|] eqn:Et; [|by injection Hr as <- <-].
  destruct (Z.gtb_spec t (graceCutoff now)) as [Hg|Hg]; [by injection Hr as <- <-|].
  assert (forall m : MW bool, keeps (same (fun w => (db_subscriptions (w_db w), db_events (w_db w)))) m -> forall v1 r1 v1',
    overdueInv d v1 -> m v1 = (r1, v1') -> overdueInv d v1') as Keep.
  { intros m K v1 r1 v1' [I1 I2] E. apply K in E. injection E as E1 E2. split; [by rewrite E1|].
    intros id. rewrite <- I2. unfold lastPastDue. by rewrite E2. }
  apply bind_inv in Hr as [(e & Hr & ->)|([] & v1 & E & Hr)].
  { apply withRLS_throw in Hr. split; rewrite Hr; done. }
  eapply Keep; [|clear Hr|exact Hr]; [frame|]. rewrite withRLS_ok in E. apply bind_ok in E as ([s' from] & v2 & E & Hm). mok. subst.
  rewrite applyTransition_run in E. destruct (findId (sb_id sub) (db_subscriptions (w_db v))) as [s|] eqn:Es; [|done].
  destruct (assertTransition _ _) eqn:Ea; [|done]. injection E as _ _ <-. apply assertTransition_ok in Ea.
  assert (overdueMove d sub s) as [Hc Hs].
  { assert (forall a b, overdueMove d a b -> rid b = rid a) as Hid by (intros ?? [Hc _]; by apply contract_id).
    destruct (evolves_findId _ _ _ (sb_id sub) sub Hid Hev (findId_unique _ _ Hn Hin)) as (s1 & Es1 & M).
    rewrite Es in Es1. by injection Es1 as ->. }
  assert (sb_status s = Sub_past_due) as Hst by (destruct Hs as [->|(_ & Hs & _)]; [done|by rewrite Hs in Ea]).
  split.
  - etransitivity; [exact Hev|]. simpl. apply evolves_updId; [apply _|]. intros x Hx. rewrite Es in Hx. injection Hx as <-.
    split; [done|]. right. split_and!; [done|done|]. exists t. rewrite (contract_id _ _ Hc). done.
  - intros id. rewrite <- Hl. unfold lastPastDue. simpl. rewrite fold_left_app. simpl. by rewrite andb_false_r.
Qed.

(** Billing suspends only after the grace period.  However far a run of the
    job gets, the only subscriptions it changes were past due, and had become past
    due at least the configured number of days ago; each goes to suspended and keeps
    its contract, and no subscription disappears. *)
Theorem overdue_grace w r w' : NoDup (map rid (db_subscriptions (w_db w))) ->
  suspendOverdueSubscriptions now w = (r, w') ->
  evolves (overdueMove (w_db w)) (db_subscriptions (w_db w)) (db_subscriptions (w_db w')).
Proof.
  intros Hn. unfold suspendOverdueSubscriptions.
  unfold mbind at 1, M_bind at 1, withRLS at 1, mbind at 1, M_bind at 1, gets at 1, mret at 1, M_ret at 1. intros Hr.
  eapply (forFold_inv (overdueInv (w_db w))) in Hr; [exact (proj1 Hr)| |split; [reflexivity|done]].
  intros x b v r0 v' Hx Hv Hb. apply list_elem_of_In, filter_In in Hx as [Hx Hp]. apply list_elem_of_In in Hx.
  apply bool_decide_eq_true in Hp.
  apply bind_inv in Hb as [(e & Hb & ->)|(k & v1 & E & Hb)]; [by eapply suspendOverdue_inv|].
  apply mret_ok in Hb as [_ ->]. by eapply suspendOverdue_inv.
Qed.

(** A past-due subscription whose server is not set up yet stops the whole job: the
    database refuses to suspend a server without a template, the loop has no
    [try], and every past-due subscription after it is left alone that day; the
    subscription itself is suspended while its server is not. *)
Theorem overdue_setup_pending_aborts w sub rest t srv v :
  List.filter (fun s => sb_status s =s Sub_past_due) (db_subscriptions (w_db w)) = sub :: rest ->
  findId (sb_id sub) (db_subscriptions (w_db w)) = Some sub ->
  lastPastDue (w_db w) (sb_id sub) = Some t -> t <= graceCutoff now ->
  truthy (sb_serverId sub) = Some srv -> findId srv (db_servers (w_db w)) = Some v -> sv_templateId v = None ->
  exists w', suspendOverdueSubscriptions now w = (Throw (CheckViolation "servers"), w') /\
    db_subscriptions (w_db w') = updId (sb_id sub) (fun s => s <| sb_status := Sub_suspended |>) (db_subscriptions (w_db w)) /\
    db_servers (w_db w') = db_servers (w_db w).
Proof.
  intros Hf Hs Ht Hg Hsrv Hv Htpl.
  assert (sb_status sub = Sub_past_due) as Hpd.
  { assert (In sub (sub :: rest)) as Hin by (by left). rewrite <- Hf in Hin. apply filter_In in Hin as [_ Hin]. by apply bool_decide_eq_true in Hin. }
  unfold suspendOverdueSubscriptions.
  unfold mbind at 1, M_bind at 1, withRLS at 1, mbind at 1, M_bind at 1, gets at 1, mret at 1, M_ret at 1. rewrite Hf. cbn [forFold].
  unfold suspendOverdue, mbind, M_bind, withRLS, gets, mret, M_ret. rewrite Ht.
  destruct (Z.gtb_spec t (graceCutoff now)) as [?|_]; [lia|].
  rewrite applyTransition_run, Hs, Hpd. simpl. rewrite Hsrv. unfold suspend, getServer, record, modify, mbind, M_bind, gets, orThrow, mret, M_ret. simpl. rewrite Hv.
  unfold withRLS, updateServer, mbind, M_bind, gets. simpl. rewrite Hv. unfold serverRowOk. simpl. rewrite Htpl. simpl.
  eexists. split; [reflexivity|]. done.
Qed.
End Overdue.

(** ** Witnesses *)

#[local] Existing Instance Demo.platform.
#[local] Existing Instance DemoSub.laws.
#[local] Existing Instance DemoSrv.outside.
#[local] Existing Instance DemoPay.providers.
#[local] Existing Instance DemoPay.config.

Lemma provision_outcome_witness :
  exists o', findId "id-2" (db_orders (w_db (provisionOrder 4000 "id-2" DemoHook.paid).2)) = Some o' /\
    or_status o' = Ord_paid /\ or_provisioningAttempts o' = 1 /\ or_provisioningStatus o' = Prov_done.
Proof.
  destruct (findId "id-2" (db_orders (w_db DemoHook.paid))) as [o|] eqn:Eo; [|vm_compute in Eo; discriminate Eo].
  assert (settledOrder o = false /\ (or_status o =s Ord_paid) = true /\ or_provisioningAttempts o = 0) as (H1 & H2 & H3)
    by (vm_compute in Eo; injection Eo as <-; split; [reflexivity|split; reflexivity]).
  assert ((provisionOrder 4000 "id-2" DemoHook.paid).1 = Ok tt) as K by (vm_compute; reflexivity).
  pose proof (provision_outcome 4000 "id-2" DemoHook.paid o (provisionOrder 4000 "id-2" DemoHook.paid).1
    (provisionOrder 4000 "id-2" DemoHook.paid).2 Eo (surjective_pairing _)) as P.
  rewrite H1, H2 in P. destruct P as (x & w1 & w2 & o' & _ & _ & _ & Ho & _ & Hs & Ha & Hx).
  exists o'. split; [exact Ho|]. split; [exact Hs|]. split; [rewrite Ha, H3; reflexivity|].
  destruct x as [c|e]; [exact (proj1 (proj2 (proj2 Hx)))|].
  discriminate (eq_trans (eq_sym K) (proj1 Hx)).
Defined.

Lemma expireStaleOrders_exact_witness :
  exists w', expireStaleOrders 1000000000000 DemoPay.ordered = (Ok 1, w') /\
    db_orders (w_db w') = updWhere (staleOrder 1000000000000) expire (db_orders (w_db DemoPay.ordered)).
Proof.
  destruct (expireStaleOrders_exact 1000000000000 DemoPay.ordered (proj1 demo_ordered_ok)) as (w' & E & D & _).
  exists w'. split; [|exact D]. rewrite E. apply f_equal2; [|reflexivity]. vm_compute. reflexivity.
Defined.

Module DemoLate.
(** A subscription that became past due at 2000, and a sweep ten days later. *)
Definition world : World :=
  runOps [OpCreate 1000 "u" "p"; OpStatus 1500 "id-0" Sub_active None "admin"; OpStatus 2000 "id-0" Sub_past_due None "admin"] DemoSub.world.
Definition later : Z := 2000 + 10 * DAY_MS.
End DemoLate.

Lemma overdue_grace_witness :
  exists s', s' ∈ db_subscriptions (w_db (suspendOverdueSubscriptions DemoLate.later DemoLate.world).2) /\ sb_status s' = Sub_suspended /\
    exists t, lastPastDue (w_db DemoLate.world) "id-0" = Some t /\ t <= graceCutoff DemoLate.later.
Proof.
  assert (map rid (db_subscriptions (w_db DemoLate.world)) = ["id-0"]) as Hid by (vm_compute; reflexivity).
  assert (NoDup (map rid (db_subscriptions (w_db DemoLate.world)))) as Hn by (rewrite Hid; apply NoDup_singleton).
  pose proof (overdue_grace DemoLate.later DemoLate.world _ _ Hn (surjective_pairing (suspendOverdueSubscriptions DemoLate.later DemoLate.world))) as Ev.
  destruct (findId "id-0" (db_subscriptions (w_db DemoLate.world))) as [s|] eqn:Es; [|vm_compute in Es; discriminate Es].
  destruct (evolves_elem _ _ _ s Ev (proj1 (findId_some _ _ _ Es))) as (s' & Hs' & _ & Hm).
  assert (sb_status s = Sub_past_due /\ sb_id s = "id-0") as [Hp Hi] by (vm_compute in Es; injection Es as <-; split; reflexivity).
  assert (forallb (fun x => sb_status x =s Sub_suspended) (db_subscriptions (w_db (suspendOverdueSubscriptions DemoLate.later DemoLate.world).2)) = true) as F
    by (vm_compute; reflexivity).
  assert (sb_status s' = Sub_suspended) as Hs.
  { rewrite forallb_forall in F. apply list_elem_of_In in Hs'. exact (proj1 (bool_decide_eq_true _) (F s' Hs')). }
  exists s'. split; [exact Hs'|split; [exact Hs|]].
  destruct Hm as [Hm|(_ & _ & Ht)]; [rewrite Hm, Hp in Hs; discriminate Hs|]. rewrite Hi in Ht. exact Ht.
Defined.

Module DemoRenewal.
(** A suspended subscription with an unpaid renewal order for the payment on file. *)
Definition world : World :=
  DemoHook.paid <| w_db := (w_db DemoHook.paid)
    <| db_orders := map (fun o => o <| or_kind := plan_renewal |> <| or_status := Ord_pending |> <| or_provisioningStatus := Prov_not_required |>) (db_orders (w_db DemoHook.paid)) |>
    <| db_subscriptions := map (fun s => s <| sb_status := Sub_suspended |>) (db_subscriptions (w_db DemoHook.paid)) |> |>.
Definition payment : GatewayPayment := DemoPay.payment "pay" "ord_ref-1" 2990.
End DemoRenewal.

Lemma suspended_renewal_not_reactivated_witness :
  (applyPaymentOutcome 9000 "id-0" PaymentConfirmed DemoRenewal.payment "mercadopago" DemoRenewal.world).1 = Ok None /\
  exists s', findId "id-0" (db_subscriptions (w_db (applyPaymentOutcome 9000 "id-0" PaymentConfirmed DemoRenewal.payment "mercadopago" DemoRenewal.world).2)) = Some s' /\
    sb_status s' = Sub_suspended.
Proof.
  assert ((applyPaymentOutcome 9000 "id-0" PaymentConfirmed DemoRenewal.payment "mercadopago" DemoRenewal.world).1 = Ok None) as K by (vm_compute; reflexivity).
  split; [exact K|].
  destruct (findId "id-0" (db_subscriptions (w_db DemoRenewal.world))) as [s|] eqn:Es; [|vm_compute in Es; discriminate Es].
  destruct (findId "pay" (db_payments (w_db DemoRenewal.world))) as [row|] eqn:Er; [|vm_compute in Er; discriminate Er].
  assert (pm_orderId row = "id-2") as Hid by (vm_compute in Er; injection Er as <-; reflexivity).
  destruct (findId "id-2" (db_orders (w_db DemoRenewal.world))) as [o|] eqn:Eo; [|vm_compute in Eo; discriminate Eo].
  assert (or_status o = Ord_pending /\ or_kind o = plan_renewal) as [Hp Hk] by (vm_compute in Eo; injection Eo as <-; split; reflexivity).
  assert (sb_status s = Sub_suspended) as Hs by (vm_compute in Es; injection Es as <-; reflexivity).
  rewrite <- Hid in Eo.
  assert (applyPaymentOutcome 9000 "id-0" PaymentConfirmed DemoRenewal.payment "mercadopago" DemoRenewal.world =
    (Ok None, (applyPaymentOutcome 9000 "id-0" PaymentConfirmed DemoRenewal.payment "mercadopago" DemoRenewal.world).2)) as E
    by (rewrite <- K; exact (surjective_pairing _)).
  exact (proj2 (proj2 (suspended_renewal_not_reactivated 9000 DemoRenewal.payment "mercadopago" DemoRenewal.world "id-0" s row o None _
    Es Hs Er Eo (or_introl Hp) Hk E))).
Defined.

Module DemoExpired.
(** The checkout expired, so the sweep cancelled its subscription. *)
Definition world : World := (expireStaleOrders 1000000000000 DemoPay.ordered).2.
End DemoExpired.

Lemma late_payment_provisions_cancelled_witness :
  exists w', applyPaymentOutcome 1000000000001 "id-0" PaymentConfirmed DemoRenewal.payment "mercadopago" DemoExpired.world = (Ok (Some "id-2"), w') /\
    map sb_status (db_subscriptions (w_db w')) = [Sub_cancelled].
Proof.
  destruct (findId "id-0" (db_subscriptions (w_db DemoExpired.world))) as [s|] eqn:Es; [|vm_compute in Es; discriminate Es].
  destruct (findId "pay" (db_payments (w_db DemoExpired.world))) as [row|] eqn:Er; [|vm_compute in Er; discriminate Er].
  assert (pm_orderId row = "id-2") as Hid by (vm_compute in Er; injection Er as <-; reflexivity).
  destruct (findId "id-2" (db_orders (w_db DemoExpired.world))) as [o|] eqn:Eo; [|vm_compute in Eo; discriminate Eo].
  assert (or_status o = Ord_expired /\ or_kind o = plan_initial /\ or_provisioningStatus o = Prov_pending /\ or_amountCents o = 2990 /\ or_id o = "id-2")
    as (Hp & Hk & Hv & Ha & Ho) by (vm_compute in Eo; injection Eo as <-; split_and!; reflexivity).
  assert (sb_status s = Sub_cancelled) as Hs by (vm_compute in Es; injection Es as <-; reflexivity).
  rewrite <- Hid in Eo.
  destruct (late_payment_provisions_cancelled 1000000000001 DemoRenewal.payment "mercadopago" DemoExpired.world "id-0" s row o
    Es Hs Er Eo Hp Hk Hv (f_equal Some (eq_sym Ha))) as (w' & E & D & _).
  exists w'. rewrite Ho in E. split; [exact E|]. rewrite D. vm_compute. reflexivity.
Defined.

Module DemoUnset.
(** Past due, with a server its owner never set up. *)
Definition server : Server :=
  mkServer "s" "SHORT" "u" "a" None (Some "p") (Some 100000) "srv" None None
    100 2048 0 10000 500 true 1 1 1 1 Srv_setup_pending None None None None "offline".
Definition world : World :=
  DemoLate.world <| w_db := (w_db DemoLate.world) <| db_servers := [server] |>
    <| db_subscriptions := map (fun s => s <| sb_serverId := Some "s" |>) (db_subscriptions (w_db DemoLate.world)) |> |>.
End DemoUnset.

Lemma overdue_setup_pending_aborts_witness :
  exists w', suspendOverdueSubscriptions DemoLate.later DemoUnset.world = (Throw (CheckViolation "servers"), w') /\
    db_servers (w_db w') = [DemoUnset.server].
Proof.
  destruct (List.filter (fun s => sb_status s =s Sub_past_due) (db_subscriptions (w_db DemoUnset.world))) as [|sub rest] eqn:Ef;
    [vm_compute in Ef; discriminate Ef|].
  assert (sb_id sub = "id-0" /\ truthy (sb_serverId sub) = Some "s" /\ findId "id-0" (db_subscriptions (w_db DemoUnset.world)) = Some sub) as (Hi & Hv & Hf).
  { vm_compute in Ef. injection Ef as <- _. split_and!; vm_compute; reflexivity. }
  assert (lastPastDue (w_db DemoUnset.world) "id-0" = Some 2000) as Hl by (vm_compute; reflexivity).
  rewrite <- Hi in Hf, Hl.
  destruct (overdue_setup_pending_aborts DemoLate.later DemoUnset.world sub rest 2000 "s" DemoUnset.server Ef Hf Hl) as (w' & E & _ & D);
    [vm_compute; discriminate|exact Hv|vm_compute; reflexivity|reflexivity|]. exists w'. split; [exact E|exact D].
Defined.
