(* ===== verification/SubscriptionRules.v ===== *)
(** SubscriptionRules: the life of a subscription under everything that writes it.

    [Subscriptions] holds the state machine and the service; this file follows the
    subscription rows through all the code that writes them: the customer's and the
    administrator's requests, the checkout and the renewals of [orders.service.ts], the
    notifications of [payments-webhook.service.ts], provisioning, the billing cycle and the
    creation and deletion of servers, each handled as one step.  The checkout that replaces
    a pending one writes the old subscription's status without the state machine and
    without an event, so the theorems are about the subscriptions no checkout replaced;
    [replaced_checkout_unrecorded] shows the others, and [stale_transition_overwrites] what
    two transitions of one subscription do when the second reads before the first
    commits. *)

From S2P Require Import Prelude JsNum Capacity Store Scheduler Calendar Subscriptions JsString Servers Payments Webhook Billing.
From Stdlib Require Import Lia.

Local Open Scope Z_scope.

(** ** Writes that leave the lifecycle alone *)

(** A row of which neither the status nor the contract changed. *)
Definition touched (s s' : Subscription) : Prop := sb_status s' = sb_status s /\ contract s' = contract s.

#[export] Instance touched_preorder : PreOrder touched.
Proof. split; [done|]. intros a b c [? ?] [? ?]. split; congruence. Qed.

(** Runs that record no event and only touch rows. *)
Definition calm (w w' : World) : Prop :=
  db_events (w_db w') = db_events (w_db w) /\ (w_next w <= w_next w')%N /\
  Forall2 touched (db_subscriptions (w_db w)) (db_subscriptions (w_db w')).

#[export] Instance calm_preorder : PreOrder calm.
Proof.
  split.
  - intros w. split; [done|]. split; [lia|reflexivity].
  - intros a b c (E1 & N1 & F1) (E2 & N2 & F2). split; [congruence|]. split; [lia|by etransitivity].
Qed.

Lemma touched_findId l l' id s' : Forall2 touched l l' -> findId id l' = Some s' ->
  exists s, findId id l = Some s /\ touched s s'.
Proof.
  intros F. induction F as [|x y l l' T F IH]; [done|]. unfold findId in *. simpl.
  assert (sb_id y = sb_id x) as E by apply contract_id, T. change (rid y) with (sb_id y). change (rid x) with (sb_id x).
  rewrite E. destruct (sb_id x =s id); [|done]. intros [= <-]. by exists x.
Qed.

Lemma touched_ids l l' : Forall2 touched l l' -> map sb_id l' = map sb_id l.
Proof. intros F. induction F as [|x y l l' T F IH]; [done|]. simpl. by rewrite IH, (contract_id _ _ (proj2 T)). Qed.

Lemma touched_updId id f l : (forall s, touched s (f s)) -> Forall2 touched l (updId id f l).
Proof.
  intros Hf. unfold updId. induction l as [|x l IH]; simpl; [done|].
  destruct (rid x =s id); constructor; try done; reflexivity.
Qed.

Lemma touched_updWhere p f l : (forall s, touched s (f s)) -> Forall2 touched l (updWhere p f l).
Proof.
  intros Hf. unfold updWhere. induction l as [|x l IH]; simpl; [done|]. constructor; [|done].
  destruct (p x); [done|reflexivity].
Qed.

(** [calm_auto] decomposes a handler that only touches rows. *)
Ltac calm_prim :=
  let E := fresh "E" in
  intros ? ? ? E; unfold onDb, record, call, freshN, incr, modify in E; injection E as <- <-; unfold calm; simpl; repeat case_match;
  (split; [done|split; [simpl; lia|simpl; first [reflexivity | by apply touched_updId | by apply touched_updWhere]]]).

Lemma calm_rollback w w' : calm w w' -> calm w (w' <| w_db := w_db w |>).
Proof. intros (_ & N & _). split; [done|]. split; [done|reflexivity]. Qed.

Ltac calm_auto :=
  autounfold with frame;
  repeat first [ progress keeps_step | apply (keeps_withRLS calm); [|apply calm_rollback] | calm_prim ].

Section Writers.
Context `{PlatformLaws} `{Outside} `{Providers} `{Config} (X : string -> Prop).

Lemma calm_rel w w' : calm w w' -> subRel X w w'.
Proof.
  intros (E & N & F). split; [done|]. intros (Hh & Hf & Hu). split; [split_and!|].
  - intros id s' HX Hs. destruct (touched_findId _ _ _ _ F Hs) as (s & Hs0 & [-> _]). rewrite E. by apply Hh.
  - intros n Hn. destruct (Hf n) as [F1 F2]; [lia|]. rewrite E. split; [|done].
    destruct (findId (uuidv7 n) (db_subscriptions (w_db w'))) as [s'|] eqn:Hs; [|done].
    destruct (touched_findId _ _ _ _ F Hs) as (s & Hs0 & _). congruence.
  - unfold uniqueIds. by rewrite (touched_ids _ _ F).
  - exists (db_subscriptions (w_db w')), []. split; [by rewrite app_nil_r|].
    eapply Forall2_impl; [exact F|]. intros s s' [E1 E2]. split; [done|]. by rewrite E1.
Qed.

Lemma rel_calm {A} (m : MW A) : keeps calm m -> keeps (subRel X) m.
Proof. intros K w r w' E. by eapply calm_rel, K. Qed.

Lemma rel_withRLS {A} (m : MW A) : keeps (subRel X) m -> keeps (subRel X) (withRLS m).
Proof. intros K. apply (keeps_withRLS (subRel X)); [done|]. intros w w'. apply subRel_rollback. Qed.

(** ** Writes that move the lifecycle *)

Lemma createPending_rel now u plan : keeps (subRel X) (createPendingSubscription now u plan).
Proof.
  intros w r w'. unfold createPendingSubscription, addSubscriptionEvent, onDb, freshN, lift, throwIf, orThrow, throw.
  unfold mbind, M_bind, gets, modify, mret, M_ret. simpl.
  destruct (findId u _) as [usr|]; simpl; [|intros [= <- <-]; reflexivity].
  destruct (billingComplete usr); simpl; [|intros [= <- <-]; reflexivity].
  destruct (assertSlots _ _); simpl; [|intros [= <- <-]; reflexivity]. intros [= <- <-].
  by apply SubStep_rel, (step_create X w _ (newSubscription (uuidv7 (w_next w)) u plan) (Some u) now).
Qed.

Lemma applyTransition_rel now id to a reason : keeps (subRel X) (applyTransition now id to a reason).
Proof.
  intros w r w'. rewrite applyTransition_run. destruct (findId id _) as [s|] eqn:E; [|intros [= <- <-]; reflexivity].
  destruct (assertTransition _ _) eqn:T; [|intros [= <- <-]; reflexivity]. apply assertTransition_ok in T.
  destruct (transitionData _ _ _ _) as [f|] eqn:F; [|intros [= <- <-]; reflexivity]. intros [= <- <-].
  eapply SubStep_rel, (step_move X w _ id s); [exact E|exact T| |reflexivity|reflexivity].
  intros x. by eapply transitionData_status.
Qed.

Lemma updateSubscription_rel id f : (forall s, touched s (f s)) -> keeps (subRel X) (updateSubscription id f).
Proof.
  intros Hf. apply rel_calm. unfold updateSubscription. repeat keeps_step. intros w r w' [= _ <-].
  split; [done|]. split; [simpl; lia|]. by apply touched_updId.
Qed.

Lemma applyRenewal_rel now id a : keeps (subRel X) (applyRenewal now id a).
Proof.
  unfold applyRenewal, writeDate.
  repeat first [ keeps_step | apply applyTransition_rel | by apply updateSubscription_rel ].
Qed.

Lemma cancelForUser_rel now u id reason : keeps (subRel X) (cancelForUser now u id reason).
Proof.
  intros w r w' E. assert (w' = (cancelForUser now u id reason w).2) as -> by (by rewrite E). split.
  - rewrite cancelForUser_run. destruct (findFirst _ _); simpl; [|lia].
    destruct (assertTransition _ _), (findId id (db_subscriptions (w_db w))); simpl; lia.
  - intros Hw. pose proof Hw as (_ & _ & Hu). by apply (SubStep_rel X _ _ (cancelForUser_step X now u id reason w Hu)).
Qed.

Lemma updateStatusAsAdmin_rel now id st reason a : keeps (subRel X) (updateStatusAsAdmin now id st reason a).
Proof.
  unfold updateStatusAsAdmin. repeat first [ keeps_step | apply rel_withRLS, applyTransition_rel | apply rel_calm; by calm_auto ].
Qed.

Lemma createForUser_rel now u p : keeps (subRel X) (createForUser now u p).
Proof.
  unfold createForUser, lockAndValidatePlanForSubscription. apply rel_withRLS. repeat first [ keeps_step | apply createPending_rel ].
Qed.

End Writers.

(** [rel_auto] decomposes a handler down to its subscription writes. *)
Ltac rel_auto :=
  repeat first [ apply applyTransition_rel | apply applyRenewal_rel | apply cancelForUser_rel | apply createPending_rel
    | (apply updateSubscription_rel; done) | progress keeps_step | apply rel_withRLS | solve [apply rel_calm; calm_auto] ].

(** ** The handlers *)

Section Handlers.
Context `{PlatformLaws} `{Outside} `{Providers} `{Config} (X : string -> Prop).

Lemma process_rel now parsed name : keeps (subRel X) (process now parsed name).
Proof.
  unfold process, handle, processPaymentEvent, processPreapprovalEvent, applyPaymentOutcome, applyToOrder, applyConfirmed,
    applyRefund, applyFailed, processSubscriptionCanceled, processSubscriptionSynced, processSubscriptionPastDue,
    findSubscriptionForGateway, findOrCreateOrderForPayment.
  rel_auto.
Qed.

Lemma renewal_rel now id : keeps (subRel X) (createOfflineRenewalCharge now id).
Proof. unfold createOfflineRenewalCharge, renewalTx, openRenewal, chargeRenewal. rel_auto. Qed.

Lemma cancelSubscription_rel now u id reason b : keeps (subRel X) (cancelSubscriptionForUser now u id reason b).
Proof. unfold cancelSubscriptionForUser. rel_auto. Qed.

Lemma createOnNode_rel now dto ctx n : keeps (subRel X) (createOnNode now dto ctx n).
Proof.
  apply rel_calm. assert (forall k, keeps calm (generateUniqueShortId k)) as G.
  { induction k as [|k IH]; simpl; repeat first [done | progress keeps_step | calm_prim]. }
  autounfold with frame. repeat first [apply G | progress keeps_step | apply (keeps_withRLS calm); [|apply calm_rollback] | calm_prim].
Qed.

Lemma create_rel now dto : keeps (subRel X) (create now dto).
Proof.
  unfold create, withSchedulerRetry, requireOwner, requirePlan, loadTemplate.
  repeat first [ apply createOnNode_rel | apply schedulerLoop_keeps; [apply _|intros ?] | keeps_step ].
Qed.

Lemma createSetupPending_rel now dto n : keeps (subRel X) (createSetupPending now dto n).
Proof.
  unfold createSetupPending, withSchedulerRetry, requireOwner, requirePlan.
  repeat first [ apply createOnNode_rel | apply schedulerLoop_keeps; [apply _|intros ?] | keeps_step ].
Qed.

Lemma provisionOrder_rel now id : keeps (subRel X) (provisionOrder now id).
Proof.
  unfold provisionOrder, createFor. repeat first [ apply create_rel | apply createSetupPending_rel | progress rel_auto ].
Qed.

Lemma billingCycle_rel now : keeps (subRel X) (billingCycle now).
Proof.
  unfold billingCycle, generateOfflineRenewalCharges, expireStaleOrders, expireOrder, suspendOverdueSubscriptions,
    suspendOverdue, finishCancellationsAtPeriodEnd.
  repeat first [ apply renewal_rel | progress rel_auto ].
Qed.

Lemma remove_rel id : keeps (subRel X) (remove id).
Proof. unfold remove. rel_auto. Qed.

End Handlers.

(** ** The checkout *)

(** The subscription a checkout replaces: that of the customer's live unpaid checkout of
    the same plan, when the payment method or the provider is another one. *)
Definition supersededBy (now : Z) (userId : string) (dto : CreateCheckoutDto) (w : World) : option string :=
  match findFirst (duplicateOf now userId (co_planId dto)) (db_orders (w_db w)) with
  | Some o =>
    if (or_paymentMethod o =s Some (co_paymentMethod dto)) && (or_provider o =s default "mercadopago" (co_provider dto))
    then None else or_subscriptionId o
  | None => None
  end.

Section Checkout.
Context `{PlatformLaws} `{Outside} `{Providers} `{Config} (X : string -> Prop).

Lemma supersede_rel id f : X id -> (forall s, contract (f s) = contract s) -> keeps (subRel X) (updateSubscription id f).
Proof.
  intros Hx Hf. unfold updateSubscription. repeat keeps_step. intros w r w' [= _ <-].
  by eapply SubStep_rel, (step_exempt X w _ id f).
Qed.

Lemma reuseOrCancel_rel now u dto plan w r w' : pl_id plan = co_planId dto ->
  (forall sid, supersededBy now u dto w = Some sid -> X sid) ->
  reuseOrCancel now u dto (default "mercadopago" (co_provider dto)) plan w = (r, w') -> subRel X w w'.
Proof.
  intros Hp Hx. unfold reuseOrCancel. rewrite bind_gets, Hp. unfold supersededBy in Hx.
  destruct (findFirst _ _) as [o|]; [|by intros [= _ <-]]. destruct (_ && _); [by intros [= _ <-]|]. revert w r w' Hx.
  intros w r w' Hx. assert (forall k : MW (option Order), keeps (subRel X) k ->
    (updateOrder (or_id o) (fun o => o <| or_status := Ord_cancelled |>) ;; k) w = (r, w') -> subRel X w w') as K.
  { intros k Hk. apply keeps_bind; [apply _|apply rel_calm; calm_auto|done]. }
  destruct (or_subscriptionId o) as [sid|]; apply K; [|by apply (keeps_ret (subRel X))].
  apply keeps_bind; [apply _|apply supersede_rel; [by apply Hx|done]|intros _; apply (keeps_ret (subRel X))].
Qed.

Lemma checkoutTx_rel now u dto w r w' : (forall sid, supersededBy now u dto w = Some sid -> X sid) ->
  checkoutTx now u dto (default "mercadopago" (co_provider dto)) w = (r, w') -> subRel X w w'.
Proof.
  intros Hx. unfold checkoutTx. intros [(e & E & ->)|(plan & w1 & E & Hr)]%bind_inv.
  { eapply rel_calm; [|exact E]. calm_auto. }
  apply lockAndValidate_ok in E as (-> & _ & Hid & _).
  apply bind_inv in Hr as [(e & E & ->)|(re & w2 & E & Hr)]; [by eapply reuseOrCancel_rel|].
  transitivity w2; [by eapply reuseOrCancel_rel|]. eapply (fun K : keeps (subRel X) _ => K _ _ _ Hr).
  unfold freshCheckout. rel_auto.
Qed.

Lemma checkout_rel now u dto ip w r w' : (forall sid, supersededBy now u dto w = Some sid -> X sid) ->
  createCheckoutOrder now u dto ip w = (r, w') -> subRel X w w'.
Proof.
  intros Hx. unfold createCheckoutOrder. intros [(e & E & ->)|(? & w1 & E1 & Hr)]%bind_inv.
  { eapply rel_calm; [|exact E]. calm_auto. }
  assert (w_db w1 = w_db w) as D1 by (eapply (keeps_same w_db); [|exact E1]; frame).
  transitivity w1; [eapply rel_calm; [|exact E1]; calm_auto|]. cbv zeta in Hr.
  apply bind_inv in Hr as [(e & E & ->)|(prov & w2 & E & Hr)]; unfold lift in E; injection E as _ <-; [reflexivity|].
  apply bind_throwIf in Hr as [[_ ->]|[_ Hr]]; [reflexivity|].
  apply bind_throwIf in Hr as [[_ ->]|[_ Hr]]; [reflexivity|].
  assert (forall sid, supersededBy now u dto w1 = Some sid -> X sid) as Hx1 by (unfold supersededBy; by rewrite D1).
  assert (forall r w', withRLS (checkoutTx now u dto (default "mercadopago" (co_provider dto))) w1 = (r, w') -> subRel X w1 w') as K.
  { intros r0 w0. unfold withRLS. destruct (checkoutTx _ _ _ _ w1) as [[c|e] w2] eqn:E; intros [= <- <-];
      [|apply subRel_rollback]; by eapply checkoutTx_rel. }
  apply bind_inv in Hr as [(e & E & ->)|(c & w2 & E & Hr)]; [by eapply K|].
  transitivity w2; [by eapply K|]. eapply (fun K : keeps (subRel X) _ => K _ _ _ Hr).
  unfold startProviderSubscription, startCharge. rel_auto.
Qed.

End Checkout.

(** ** Histories *)

(** One request, job or notification, handled from start to end.  [X] holds at least the
    subscriptions a checkout replaces. *)
Inductive subscriptionStep `{Platform} `{Outside} `{Providers} `{Config} (X : string -> Prop) (w : World) : World -> Prop :=
  | ss_subscribe now userId planId : subscriptionStep X w (createForUser now userId planId w).2
  | ss_admin now id status reason actorId : subscriptionStep X w (updateStatusAsAdmin now id status reason actorId w).2
  | ss_cancel now userId id reason atPeriodEnd : subscriptionStep X w (cancelSubscriptionForUser now userId id reason atPeriodEnd w).2
  | ss_checkout now userId dto ip : (forall sid, supersededBy now userId dto w = Some sid -> X sid) ->
      subscriptionStep X w (createCheckoutOrder now userId dto ip w).2
  | ss_renewal now id : subscriptionStep X w (createOfflineRenewalCharge now id w).2
  | ss_notification now parsed provider : subscriptionStep X w (process now parsed provider w).2
  | ss_provision now orderId : subscriptionStep X w (provisionOrder now orderId w).2
  | ss_billing now : subscriptionStep X w (billingCycle now w).2
  | ss_server now dto : subscriptionStep X w (create now dto w).2
  | ss_remove id : subscriptionStep X w (remove id w).2
  | ss_other w' : calm w w' -> subscriptionStep X w w'.

Section Histories.
Context `{PlatformLaws} `{Outside} `{Providers} `{Config} (X : string -> Prop).

Lemma run_rel {A} (m : MW A) w : keeps (subRel X) m -> subRel X w (m w).2.
Proof. intros K. apply (K w (m w).1). by destruct (m w). Qed.

Lemma step_rel w w' : subscriptionStep X w w' -> subRel X w w'.
Proof.
  intros [now u p|now id st rs a|now u id rs b|now u dto ip Hx|now id|now p n|now id|now|now dto|id|w1 Hc].
  - apply run_rel, createForUser_rel.
  - apply run_rel, updateStatusAsAdmin_rel.
  - apply run_rel, cancelSubscription_rel.
  - by eapply checkout_rel, surjective_pairing.
  - apply run_rel, renewal_rel.
  - apply run_rel, process_rel.
  - apply run_rel, provisionOrder_rel.
  - apply run_rel, billingCycle_rel.
  - apply run_rel, create_rel.
  - apply run_rel, remove_rel.
  - by apply calm_rel.
Qed.

Lemma steps_rel w w' : rtc (subscriptionStep X) w w' -> subRel X w w'.
Proof. induction 1 as [w|w w1 w' S _ IH]; [reflexivity|]. etransitivity; [by apply step_rel|done]. Qed.

(** C21: the event log is a faithful history.  Whatever requests, checkouts, payment and
    subscription notifications, renewals, provisioning and billing jobs are handled, one
    after the other, successful or refused, the events recorded for every subscription that
    no checkout replaced are, in order, a legal run of the state machine from its creation
    to its current status. *)
Theorem subscription_history w w' id s :
  SubInv X w -> rtc (subscriptionStep X) w w' -> ~ X id -> findId id (db_subscriptions (w_db w')) = Some s ->
  replay (eventsOf id (db_events (w_db w'))) = Some (Some (sb_status s)).
Proof. intros Hw S. by apply (steps_rel w w' S). Qed.

(** C22: under the same histories no subscription is lost and its contract (customer, plan,
    price, currency, period) never changes; unless a checkout replaced it, its status only
    moves along the machine's edges, and cancelled and expired are terminal. *)
Theorem subscription_lifecycle w w' id s :
  SubInv X w -> rtc (subscriptionStep X) w w' -> findId id (db_subscriptions (w_db w)) = Some s ->
  exists s', findId id (db_subscriptions (w_db w')) = Some s' /\ contract s' = contract s /\
    (~ X id -> rtc (fun a b => canTransition a b = true) (sb_status s) (sb_status s') /\
       (sb_status s = Sub_cancelled \/ sb_status s = Sub_expired -> sb_status s' = sb_status s)).
Proof.
  intros Hw S Hs. destruct (steps_rel w w' S) as [_ [_ Ev]]; [done|].
  destruct (evolves_findId _ _ _ _ _ (lifecycle_id X) Ev Hs) as (s' & Hs' & Hc & Hr).
  exists s'. split_and!; [done|done|]. intros HX. apply findId_some in Hs as [_ Hid]. change (rid s) with (sb_id s) in Hid.
  rewrite <- Hid in HX. specialize (Hr HX). split; [done|]. intros Ht. by eapply terminal_rtc.
Qed.

End Histories.

(** ** Witnesses and counterexamples *)

#[local] Existing Instance Demo.platform.
#[local] Existing Instance DemoSub.laws.
#[local] Existing Instance DemoSrv.outside.
#[local] Existing Instance DemoPay.providers.
#[local] Existing Instance DemoPay.config.

Module DemoLife.

Definition byCard : CreateCheckoutDto := mkCheckout "p" card None None.

(** The customer of [DemoPay.ordered] comes back and pays by card instead. *)
Definition switched : World := (createCheckoutOrder 2000 "u" byCard None DemoPay.ordered).2.

(** The subscription the first checkout made, and nothing else. *)
Definition replaced (id : string) : Prop := id = "id-0".

(** A paid subscription, and the same after the administrator expired it. *)
Definition expired : World := (updateStatusAsAdmin 4000 "id-0" Sub_expired None "admin" DemoHook.paid).2.

(** Activated by the administrator while its order is still waiting, then expired. *)
Definition early : World :=
  runOps [OpStatus 1500 "id-0" Sub_active None "admin"; OpStatus 1600 "id-0" Sub_expired None "admin"] DemoPay.ordered.

Definition statusOf (id : string) (w : World) : option SubscriptionStatus := sb_status <$> findId id (db_subscriptions (w_db w)).
Definition replayOf (id : string) (w : World) : option (option SubscriptionStatus) := replay (eventsOf id (db_events (w_db w))).

Lemma world_inv X : SubInv X DemoPay.world.
Proof. split_and!; [by intros ? ? _ [=]|done|apply NoDup_nil_2]. Qed.

End DemoLife.

Lemma subscription_history_witness :
  exists s, findId "id-3" (db_subscriptions (w_db DemoLife.switched)) = Some s /\
    replay (eventsOf "id-3" (db_events (w_db DemoLife.switched))) = Some (Some (sb_status s)).
Proof.
  destruct (findId "id-3" (db_subscriptions (w_db DemoLife.switched))) as [s|] eqn:E; [|vm_compute in E; discriminate E].
  exists s. split; [reflexivity|].
  apply (subscription_history DemoLife.replaced DemoPay.world DemoLife.switched "id-3" s (DemoLife.world_inv _)); [|discriminate|exact E].
  apply (rtc_l _ _ DemoPay.ordered); [|apply (rtc_l _ _ DemoLife.switched); [|apply rtc_refl]].
  - apply ss_checkout. intros sid F. vm_compute in F. discriminate F.
  - apply ss_checkout. intros sid F. vm_compute in F. injection F as <-. reflexivity.
Defined.

Lemma subscription_lifecycle_witness :
  exists s s', findId "id-0" (db_subscriptions (w_db DemoLife.expired)) = Some s /\ sb_status s = Sub_expired /\
    findId "id-0" (db_subscriptions (w_db (process 5000 DemoHook.cancelled "mercadopago" DemoLife.expired).2)) = Some s' /\
    contract s' = contract s /\ sb_status s' = sb_status s.
Proof.
  destruct (findId "id-0" (db_subscriptions (w_db DemoLife.expired))) as [s|] eqn:E; [|vm_compute in E; discriminate E].
  assert (sb_status s = Sub_expired) as C by (vm_compute in E; injection E as <-; reflexivity).
  assert (SubInv (fun _ => False) DemoLife.expired) as I.
  { apply (steps_rel (fun _ => False) DemoPay.world); [|apply DemoLife.world_inv].
    apply (rtc_l _ _ DemoPay.ordered); [|apply (rtc_l _ _ DemoHook.paid); [|apply rtc_once]].
    - apply ss_checkout. intros sid F. vm_compute in F. discriminate F.
    - apply ss_notification.
    - apply ss_admin. }
  destruct (subscription_lifecycle (fun _ => False) DemoLife.expired _ "id-0" s I (rtc_once _ _ (ss_notification _ _ 5000 DemoHook.cancelled "mercadopago")) E)
    as (s' & Hs' & Hc & Hr).
  exists s, s'. split; [reflexivity|split; [exact C|split; [exact Hs'|split; [exact Hc|]]]].
  apply Hr; [intros []|right; exact C].
Defined.

(** A checkout that replaces a pending one cancels the old subscription without an event
    and without asking the state machine: its log still ends at pending, and one that had
    expired meanwhile becomes cancelled. *)
Theorem replaced_checkout_unrecorded :
  DemoLife.statusOf "id-0" DemoLife.switched = Some Sub_cancelled /\
  DemoLife.replayOf "id-0" DemoLife.switched = Some (Some Sub_pending) /\
  DemoLife.statusOf "id-0" DemoLife.early = Some Sub_expired /\
  DemoLife.statusOf "id-0" (createCheckoutOrder 2000 "u" DemoLife.byCard None DemoLife.early).2 = Some Sub_cancelled.
Proof. split_and!; vm_compute; reflexivity. Qed.

(** A transition reads the row, checks the move, and writes later: an administrator's
    suspension that read an active subscription before the customer's cancellation
    committed revives it, and the log is no run of the machine any more. *)
Theorem stale_transition_overwrites :
  exists s, findId "id-0" (db_subscriptions (w_db DemoHook.paid)) = Some s /\ assertTransition (sb_status s) Sub_suspended = Ok tt /\
    let cancelled := (cancelForUser 4000 "u" "id-0" None DemoHook.paid).2 in
    let late := (writeTransition 4000 s "id-0" Sub_suspended (Some "admin") None cancelled).2 in
    DemoLife.statusOf "id-0" cancelled = Some Sub_cancelled /\
    DemoLife.statusOf "id-0" late = Some Sub_suspended /\ DemoLife.replayOf "id-0" late = None.
Proof. eexists. split; [vm_compute; reflexivity|]. cbv zeta. split_and!; vm_compute; reflexivity. Qed.
