(* ===== verification/ProviderClient.v ===== *)
(** ProviderClient: the HTTP clients of the two payment gateways.

    The request loop of [payments/mercadopago.client.ts] and [payments/pagbank.client.ts]:
    a read is tried up to three times, a write exactly once.  What the network answers to
    each attempt is a parameter; the waits between attempts and the time-outs have no
    effect but time. *)

From S2P Require Import Prelude JsNum Store JsString Servers Payments.
From Stdlib Require Import Ascii String Lia.

Local Open Scope Z_scope.

(** What one [fetch] and the reading of its body give: no connection or the abort after the
    time-out, a body that is not JSON, a status outside 200-299 with the parsed error body,
    or a success, whose body may be empty ([undefined]). *)
Inductive HttpReply (E T : Type) :=
  | Unreachable
  | Malformed
  | Refused (status : Z) (error : option E)
  | Success (data : option T).
Arguments Unreachable {E T}. Arguments Malformed {E T}. Arguments Refused {E T}. Arguments Success {E T}.

Inductive Method := GET | POST | PUT.
#[export] Instance Method_eq : EqDecision Method.
Proof. solve_decision. Defined.

Definition MAX_RETRIES : nat := 3.
Definition RETRYABLE_STATUSES : list Z := [429; 500; 502; 503; 504].
Definition retryable (status : Z) : bool := existsb (Z.eqb status) RETRYABLE_STATUSES.

Definition attemptsFor (m : Method) : nat := match m with GET => MAX_RETRIES | _ => 1%nat end.

(** How a client reports a refusal, an unusable answer and a missing credential. *)
Record ClientTexts (E : Type) := mkTexts {
  ct_refusal : option E -> Z -> string; ct_unreachable : string; ct_unconfigured : string }.
Arguments mkTexts {E}. Arguments ct_refusal {E}. Arguments ct_unreachable {E}. Arguments ct_unconfigured {E}.

Section Request.
Context {E T : Type} (texts : ClientTexts E) (token : option string) (send : nat -> HttpReply E T).

(** The loop from attempt number [attempt] with [left] attempts left, and how many
    requests it sent. *)
Fixpoint attempt (left n : nat) : Res (option T) * nat :=
  match left with
  | O => (Throw (ProviderRequest (ct_unreachable texts) 0), O)
  | S left' =>
    match truthy token with
    | None => (Throw (Http (ct_unconfigured texts) 503), O)
    | Some _ =>
      let again := let '(r, k) := attempt left' (S n) in (r, S k) in
      match send n with
      | Success data => (Ok data, 1%nat)
      | Refused status error =>
        if retryable status && negb (left' =? 0)%nat then again
        else (Throw (ProviderRequest (ct_refusal texts error status) status), 1%nat)
      | Malformed | Unreachable => again
      end
    end
  end.

Definition request (m : Method) : Res (option T) * nat := attempt (attemptsFor m) 1.

(** ** Lemmas *)

(** An answer the loop does not try again on. *)
Definition decisive (left : nat) (r : HttpReply E T) : bool :=
  match r with
  | Success _ => true
  | Refused status _ => negb (retryable status) || (left =? 0)%nat
  | _ => false
  end.

Lemma attempt_sent left : forall n, ((attempt left n).2 <= left)%nat.
Proof.
  induction left as [|left IH]; intros n; simpl; [lia|]. destruct (truthy token); [|simpl; lia].
  specialize (IH (S n)). destruct (attempt left (S n)) as [r k]. destruct (send n); simpl in *; try lia. case_match; simpl; lia.
Qed.

Lemma attempt_ok left : forall n data k, attempt left n = (Ok data, k) ->
  exists i, (n <= i < n + left)%nat /\ k = (i - n + 1)%nat /\ send i = Success data.
Proof.
  induction left as [|left IH]; intros n data k E0; simpl in E0; [done|]. destruct (truthy token); [|done].
  assert (forall k', (let '(r, k) := attempt left (S n) in (r, S k)) = (Ok data, k') ->
    exists i, (n <= i < n + S left)%nat /\ k' = (i - n + 1)%nat /\ send i = Success data) as again.
  { intros k' Ek. destruct (attempt left (S n)) as [r k0] eqn:Ea. injection Ek as -> <-. destruct (IH _ _ _ Ea) as (i & Hi & -> & Hs).
    exists i. split; [lia|]. split; [lia|done]. }
  destruct (send n) eqn:Es; [by apply again|by apply again| |].
  - destruct (retryable status && negb (left =? 0)%nat); [by apply again|done].
  - injection E0 as -> <-. exists n. split; [lia|]. split; [lia|done].
Qed.

Lemma attempt_decisive left : forall n i, is_Some (truthy token) -> (i < left)%nat ->
  (forall j, (j < i)%nat -> decisive (left - 1 - j) (send (n + j)) = false) -> decisive (left - 1 - i) (send (n + i)) = true ->
  attempt left n = (match send (n + i) with
                    | Success data => Ok data
                    | Refused status error => Throw (ProviderRequest (ct_refusal texts error status) status)
                    | _ => Throw (ProviderRequest (ct_unreachable texts) 0)
                    end, (i + 1)%nat).
Proof.
  induction left as [|left IH]; intros n i [t Ht] Hi Hb Hd; [lia|]. simpl. rewrite Ht.
  replace (S left - 1)%nat with left in * by lia. destruct i as [|i].
  - rewrite Nat.add_0_r, Nat.sub_0_r in *. destruct (send n); try done. simpl in Hd.
    destruct (retryable status) eqn:Er; simpl in *; [|done]. by rewrite Hd.
  - assert (decisive left (send n) = false) as H0.
    { specialize (Hb 0%nat ltac:(lia)). by rewrite Nat.add_0_r, Nat.sub_0_r in Hb. }
    assert (attempt left (S n) = (match send (S n + i) with
                    | Success data => Ok data
                    | Refused status error => Throw (ProviderRequest (ct_refusal texts error status) status)
                    | _ => Throw (ProviderRequest (ct_unreachable texts) 0)
                    end, (i + 1)%nat)) as Ea.
    { apply IH; [by eexists|lia| |].
      - intros j Hj. specialize (Hb (S j) ltac:(lia)). by replace (left - 1 - j)%nat with (left - S j)%nat by lia; replace (S n + j)%nat with (n + S j)%nat by lia.
      - by replace (left - 1 - i)%nat with (left - S i)%nat by lia; replace (S n + i)%nat with (n + S i)%nat by lia. }
    rewrite Ea. replace (n + S i)%nat with (S n + i)%nat by lia.
    destruct (send n); try done. simpl in H0. apply orb_false_iff in H0 as [H0 H1]. apply negb_false_iff in H0. by rewrite H0, H1.
Qed.

(** C37: a request that changes something at a gateway (a charge, a subscription, a
    cancellation, a refund) is sent at most once; a read is sent at most three times and
    answers with the first decisive reply; the loop always ends, with the data of a
    successful reply it received or an error. *)
Theorem request_attempts m :
  let '(r, sent) := request m in
  (sent <= 3)%nat /\ (m <> GET -> (sent <= 1)%nat) /\
  (forall data, r = Ok data -> exists i, (1 <= i <= sent)%nat /\ i = sent /\ send i = Success data) /\
  (forall i, is_Some (truthy token) -> (i < attemptsFor m)%nat ->
     (forall j, (j < i)%nat -> decisive (attemptsFor m - 1 - j) (send (1 + j)) = false) ->
     decisive (attemptsFor m - 1 - i) (send (1 + i)) = true ->
     sent = (i + 1)%nat /\
     r = match send (1 + i)%nat with
         | Success data => Ok data
         | Refused status error => Throw (ProviderRequest (ct_refusal texts error status) status)
         | _ => Throw (ProviderRequest (ct_unreachable texts) 0)
         end).
Proof.
  unfold request. destruct (attempt (attemptsFor m) 1) as [r sent] eqn:Ea.
  pose proof (attempt_sent (attemptsFor m) 1) as Hs. rewrite Ea in Hs. simpl in Hs. split_and!.
  - destruct m; simpl in Hs; unfold MAX_RETRIES in *; lia.
  - intros Hm. destruct m; simpl in Hs; [done|lia|lia].
  - intros data ->. destruct (attempt_ok _ _ _ _ Ea) as (i & Hi & -> & Hsend). exists i. split; [lia|]. split; [lia|done].
  - intros i Ht Hi Hb Hd. rewrite (attempt_decisive _ _ _ Ht Hi Hb Hd) in Ea. by injection Ea as <- <-.
Qed.

End Request.
