(* ===== verification/MercadoPago.v ===== *)
(** MercadoPago: the Mercado Pago adapter.

    [payments/mercadopago.provider.ts] over the request loop of [ProviderClient]: what is
    sent for a charge, how the gateway's answers become the platform's own vocabulary, and
    how a notification is authenticated.  The answers of Mercado Pago's HTTP interface are
    parameters, typed as the source types them; Node's HMAC is a parameter.  The [raw]
    copies kept for diagnosis are left out.  The last section of the file assembles the
    adapter as the [PaymentProvider] the rest of the platform uses. *)

From S2P Require Import Prelude JsNum Store Calendar JsString IsoDate Subscriptions Servers Payments ProviderClient.
From Stdlib Require Import QArith Ascii String Lia.

Local Open Scope Z_scope.

(** ** Vocabulary *)

(** The two tables are closed; a name outside them (an own key of no table: the names of
    [Object.prototype] are not statuses of the gateway) is [Ignored]. *)
Definition PAYMENT_STATUS_MAP : list (string * InternalPaymentEvent) :=
  [("approved", PaymentConfirmed); ("pending", PaymentPending); ("in_process", PaymentPending);
   ("authorized", PaymentPending); ("rejected", PaymentFailed); ("cancelled", PaymentCanceled);
   ("refunded", PaymentRefunded); ("charged_back", PaymentChargeback); ("in_mediation", PaymentChargeback)].

Definition PREAPPROVAL_STATUS_MAP : list (string * InternalPaymentEvent) :=
  [("authorized", SubscriptionSynced); ("pending", SubscriptionSynced); ("paused", SubscriptionCanceled);
   ("cancelled", SubscriptionCanceled)].

Definition TOPIC_RESOURCE : list (string * WebhookResourceKind) :=
  [("payment", res_payment); ("subscription_preapproval", res_preapproval);
   ("subscription_authorized_payment", res_authorized_payment)].

Definition lookupIn {A} (key : string) (table : list (string * A)) : option A :=
  snd <$> findFirst (fun e => fst e =s key) table.

Definition classifyMercadoPagoPayment (status : string) : InternalPaymentEvent :=
  default Ignored (lookupIn status PAYMENT_STATUS_MAP).

Definition classifyMercadoPagoPreapproval (status : string) : InternalPaymentEvent :=
  default Ignored (lookupIn status PREAPPROVAL_STATUS_MAP).

(** In months. *)
Definition RECURRENCE (p : BillingPeriod) : option Z :=
  match p with monthly => Some 1 | quarterly => Some 3 | semiannual => Some 6 | annual => Some 12 | period_none => None end.

(** ** The gateway's own shapes *)

(** An id is a number or a string; [String(id)]. *)
Inductive MpId := IdNum (n : Z) | IdStr (s : string).
Definition idString (i : MpId) : string := match i with IdNum n => zstr n | IdStr s => s end.

Record MpPayment := mkMpPayment {
  mp_id : MpId; mp_status : string; mp_status_detail : option string; mp_external_reference : option string;
  mp_transaction_amount : option Q; mp_total_paid_amount : option Q; mp_external_resource_url : option string;
  mp_currency_id : option string; mp_payment_method_id : option string; mp_payment_type_id : option string;
  mp_installments : option Z; mp_date_approved : option string; mp_qr_code : option string;
  mp_qr_code_base64 : option string; mp_ticket_url : option string; mp_barcode : option string;
  mp_date_of_expiration : option string }.

Record MpInnerPayment := mkMpInner { mi_id : MpId; mi_status : option string; mi_status_detail : option string }.

Record MpAuthorizedPayment := mkMpAuthorized {
  ma_id : MpId; ma_preapproval_id : option string; ma_external_reference : option string; ma_status : option string;
  ma_transaction_amount : option Q; ma_currency_id : option string; ma_date_created : option string;
  ma_payment : option MpInnerPayment }.

Record MpPreapproval := mkMpPreapproval {
  mq_id : string; mq_status : string; mq_external_reference : option string; mq_init_point : option string;
  mq_next_payment_date : option string }.

Record MpRefund := mkMpRefund { mr_id : MpId; mr_status : option string; mr_amount : option Q }.

Record MpPayer := mkMpPayer {
  mpp_email : string; mpp_first_name : string; mpp_last_name : string; mpp_cpf : option string; mpp_address : PayerAddressInput }.

(** The body of [POST /v1/payments]. *)
Record MpPaymentBody := mkMpPaymentBody {
  mb_transaction_amount : Q; mb_description : string; mb_payment_method_id : string; mb_external_reference : string;
  mb_notification_url : option string; mb_date_of_expiration : string; mb_payer : MpPayer }.

(** The body of [POST /preapproval]. *)
Record MpPreapprovalBody := mkMpPreapprovalBody {
  mv_reason : string; mv_external_reference : string; mv_payer_email : string; mv_back_url : option string;
  mv_frequency : Z; mv_transaction_amount : Q; mv_currency_id : string }.

(** The requests of the adapter, typed by what the source reads the answer as. *)
Inductive MpRequest : Type -> Type :=
  | MpCreatePayment (body : MpPaymentBody) (idempotencyKey : string) : MpRequest MpPayment
  | MpCreatePreapproval (body : MpPreapprovalBody) (idempotencyKey : string) : MpRequest MpPreapproval
  | MpGetPayment (id : string) : MpRequest MpPayment
  | MpGetAuthorizedPayment (id : string) : MpRequest MpAuthorizedPayment
  | MpGetPreapproval (id : string) : MpRequest MpPreapproval
  | MpCancelPreapproval (id : string) : MpRequest unit
  | MpCreateRefund (id : string) (amount : option Q) (idempotencyKey : string) : MpRequest MpRefund.

Definition mpMethod {T} (r : MpRequest T) : Method :=
  match r with
  | MpCreatePayment _ _ | MpCreatePreapproval _ _ | MpCreateRefund _ _ _ => POST
  | MpCancelPreapproval _ => PUT
  | _ => GET
  end.

Record MercadoPagoErrorBody := mkMpError { me_message : option string; me_error : option string }.

Definition mpTexts : ClientTexts MercadoPagoErrorBody := {|
  ct_refusal err status := match err ≫= me_message with
    | Some m => m
    | None => match err ≫= me_error with
              | Some m => m
              | None => "Mercado Pago request failed (status " +:+ zstr status +:+ ")"
              end
    end;
  ct_unreachable := "Falha ao comunicar com o Mercado Pago";
  ct_unconfigured := "Mercado Pago não está configurado neste ambiente" |}.

(** The configuration keys of the adapters. *)
Class ProviderConfig := {
  MERCADOPAGO_ACCESS_TOKEN : option string; MERCADOPAGO_WEBHOOK_SECRET : option string;
  MERCADOPAGO_NOTIFICATION_URL : option string; PAGBANK_TOKEN : option string;
  PAGBANK_RECURRING_ENABLED : option bool; PAGBANK_NOTIFICATION_URL : option string }.

(** Mercado Pago's answer to attempt [n] of a request, after the calls made so far. *)
Class MpHttp := { mpSend : forall T, MpRequest T -> list ExtCall -> nat -> HttpReply MercadoPagoErrorBody T }.

(** [createHmac('sha256', secret).update(text).digest('hex')]. *)
Class Hmac := { hmacSha256Hex : string -> string -> string }.

(** Reading a field of [undefined] is a [TypeError]. *)
Definition defined {T} (r : Res (option T)) : Res T :=
  match r with
  | Ok (Some v) => Ok v
  | Ok None => Throw (External "TypeError: Cannot read properties of undefined")
  | Throw e => Throw e
  end.

(** [text ? new Date(text) : null]; an Invalid Date counts as absent. *)
Definition dateOr (fallback : option Z) (text : option string) : option Z :=
  match truthy text with Some t => parseDate t | None => fallback end.

(** ** Pure helpers *)

(** [a ?? b]. *)
Definition orElse {A} (a b : option A) : option A := match a with Some x => Some x | None => b end.

(** [text.replace(/\s+/g, ' ')]; [inSpace] inside a run already replaced. *)
Fixpoint collapseF (fuel : nat) (inSpace : bool) (s : string) : string :=
  match fuel with
  | O => ""
  | S f =>
    match s with
    | EmptyString => ""
    | String c s' =>
      match spaceAt s with
      | Some w => (if inSpace then "" else " ") +:+ collapseF f true (dropS (String.length w) s)
      | None => String c (collapseF f false s')
      end
    end
  end.

Definition collapseSpaces (s : string) : string := collapseF (S (String.length s)) false s.

Definition cleanName (n : option string) : string := default "" ((fun s => collapseSpaces (trim s)) <$> n).

Definition mercadoPagoPayerName (firstName lastName : option string) : string * string :=
  let first := cleanName firstName in
  let last := cleanName lastName in
  if negb (first =s "") && negb (last =s "") then (first, last)
  else
    match List.filter (fun p => negb (p =s "")) (splitOn " " (if negb (first =s "") then first else last)) with
    | p :: q :: rest => (p, join " " (q :: rest))
    | [p] => (p, p)
    | [] => ("Cliente", "Cliente")
    end.

Definition toGatewayPayment (payment : MpPayment) : GatewayPayment :=
  {| gp_id := idString (mp_id payment); gp_status := mp_status payment; gp_statusDetail := mp_status_detail payment;
     gp_subscriptionExternalId := None; gp_externalReference := mp_external_reference payment;
     gp_amountCents := amountToCents <$> mp_transaction_amount payment;
     gp_paidAmountCents := amountToCents <$> mp_total_paid_amount payment;
     gp_currency := mp_currency_id payment; gp_paymentMethodId := mp_payment_method_id payment;
     gp_paymentTypeId := mp_payment_type_id payment; gp_installments := mp_installments payment;
     gp_approvedAt := dateOr None (mp_date_approved payment) |}.

Definition toGatewaySubscription (preapproval : MpPreapproval) : GatewaySubscription :=
  {| gs_id := mq_id preapproval; gs_status := mq_status preapproval;
     gs_externalReference := mq_external_reference preapproval;
     gs_nextDueDate := dateOr None (mq_next_payment_date preapproval); gs_initPoint := mq_init_point preapproval |}.

Definition mapAuthorizedPaymentStatus (status : option string) : option string :=
  match status with
  | Some s => if s =s "processed" then Some "approved" else if s =s "cancelled" then Some "cancelled" else None
  | None => None
  end.

(** The inner payment's status wins over the one of the retry cycle. *)
Definition authorizedStatus (authorized : MpAuthorizedPayment) : option string :=
  match ma_payment authorized ≫= mi_status with
  | Some s => Some s
  | None => mapAuthorizedPaymentStatus (ma_status authorized)
  end.

Definition toAuthorizedPayment (authorized : MpAuthorizedPayment) : GatewayPayment :=
  let status := authorizedStatus authorized in
  {| gp_id := idString (default (ma_id authorized) (mi_id <$> ma_payment authorized)); gp_status := default "pending" status;
     gp_statusDetail := ma_payment authorized ≫= mi_status_detail;
     gp_subscriptionExternalId := ma_preapproval_id authorized; gp_externalReference := ma_external_reference authorized;
     gp_amountCents := amountToCents <$> ma_transaction_amount authorized; gp_paidAmountCents := None;
     gp_currency := ma_currency_id authorized; gp_paymentMethodId := Some "credit_card"; gp_paymentTypeId := Some "credit_card";
     gp_installments := None;
     gp_approvedAt := if status =s Some "approved" then dateOr None (ma_date_created authorized) else None |}.

(** ** Notifications *)

(** A header or a query parameter: absent, one value, or several. *)
Inductive HeaderValue := OneValue (s : string) | ManyValues (l : list string).

Definition firstString (v : option HeaderValue) : option string :=
  match v with
  | None => None
  | Some (OneValue s) => Some s
  | Some (ManyValues l) => head l
  end.

Record WebhookRequestInput (Body : Type) := mkWebhookRequest {
  wr_headers : string -> option HeaderValue; wr_query : string -> option HeaderValue; wr_body : Body;
  wr_rawBody : option string }.
Arguments mkWebhookRequest {Body}. Arguments wr_headers {Body}. Arguments wr_query {Body}. Arguments wr_body {Body}.
Arguments wr_rawBody {Body}.

Record MpWebhookBody := mkMpBody {
  mw_id : option MpId; mw_type : option string; mw_topic : option string; mw_action : option string; mw_data_id : option MpId }.

(** [ts=1704908010,v1=<hex>]: both parts by name, the last one of a name wins. *)
Definition signaturePart (acc : option string * option string) (part : string) : option string * option string :=
  match splitOn "=" part with
  | [] => acc
  | rawKey :: rest =>
    let key := trim rawKey in
    let value := trim (join "=" rest) in
    if key =s "ts" then (Some value, snd acc) else if key =s "v1" then (fst acc, Some value) else acc
  end.

Definition parseSignatureHeader (header : option string) : option string * option string :=
  match truthy header with
  | None => (None, None)
  | Some h => foldl signaturePart (None, None) (splitOn "," h)
  end.

Fixpoint hasUppercase (s : string) : bool :=
  match s with
  | EmptyString => false
  | String c s' => ((65 <=? code c)%N && (code c <=? 90)%N) || hasUppercase s'
  end.

Definition lowercaseIfNeeded `{Platform} (dataId : string) : string :=
  if hasUppercase dataId then toLowerCase dataId else dataId.

Definition constantTimeEquals (a b : string) : bool :=
  (String.length a =? String.length b)%nat && (a =s b).

(** The text Mercado Pago signs: an absent segment is left out. *)
Definition manifestOf `{Platform} (dataId requestId : option string) (ts : string) : string :=
  (match truthy dataId with Some d => "id:" +:+ lowercaseIfNeeded d +:+ ";" | None => "" end) +:+
  (match truthy requestId with Some r => "request-id:" +:+ r +:+ ";" | None => "" end) +:+
  "ts:" +:+ ts +:+ ";".

(** The id of the resource is taken from the query, else from the body. *)
Definition dataIdOf (req : WebhookRequestInput MpWebhookBody) : option string :=
  orElse (firstString (wr_query req "data.id")) (idString <$> mw_data_id (wr_body req)).

Definition requestIdOf (req : WebhookRequestInput MpWebhookBody) : option string := firstString (wr_headers req "x-request-id").

Definition signatureOf (req : WebhookRequestInput MpWebhookBody) : option string * option string :=
  parseSignatureHeader (firstString (wr_headers req "x-signature")).


Section Provider.
Context `{Platform} `{Config} `{ProviderConfig} `{MpHttp} `{Hmac}.

Definition mpRequest {T} (r : MpRequest T) (before : list ExtCall) : Res (option T) :=
  (request mpTexts MERCADOPAGO_ACCESS_TOKEN (mpSend T r before) (mpMethod r)).1.

Definition isConfigured : bool := bool_decide (is_Some (truthy MERCADOPAGO_ACCESS_TOKEN)).

Definition mpNotificationUrl : option string :=
  match truthy MERCADOPAGO_NOTIFICATION_URL with
  | Some explicit => Some explicit
  | None => (fun base => stripSlash base +:+ "/api/webhooks/mercadopago") <$> truthy PUBLIC_SITE_URL
  end.

Definition paymentBody (input : ChargeInput) (methodId : string) (expiresAt : Z) : MpPaymentBody :=
  let payer := ch_payer input in
  let '(firstName, lastName) := mercadoPagoPayerName (py_firstName payer) (py_lastName payer) in
  mkMpPaymentBody (centsToAmount (ch_amountCents input)) (ch_description input) methodId (ch_externalReference input)
    mpNotificationUrl (toISOString expiresAt) (mkMpPayer (py_email payer) firstName lastName (py_cpf payer) (py_address payer)).

(** [input.expiresAt.toISOString()] on a charge without an expiry is a [TypeError]. *)
Definition expiryOf (input : ChargeInput) : Res Z :=
  match ch_expiresAt input with Some e => Ok e | None => Throw (External "TypeError: Cannot read properties of undefined") end.

Definition createPixCharge (before : list ExtCall) (input : ChargeInput) : Res PixCharge :=
  expiresAt ← expiryOf input;
  payment ← defined (mpRequest (MpCreatePayment (paymentBody input "pix" expiresAt) (ch_idempotencyKey input)) before);
  match truthy (mp_qr_code payment), truthy (mp_qr_code_base64 payment) with
  | Some qr, Some qr64 => Ok (mkPixCharge (toGatewayPayment payment) qr qr64 (dateOr None (mp_date_of_expiration payment)))
  | _, _ => Throw (ProviderRequest "Mercado Pago returned a Pix payment with no QR code" 502)
  end.

Definition createBoletoCharge (before : list ExtCall) (input : ChargeInput) : Res BoletoCharge :=
  expiresAt ← expiryOf input;
  payment ← defined (mpRequest (MpCreatePayment (paymentBody input "bolbradesco" expiresAt) (ch_idempotencyKey input)) before);
  match truthy (orElse (mp_external_resource_url payment) (mp_ticket_url payment)) with
  | None => Throw (ProviderRequest "Mercado Pago retornou um boleto sem link de pagamento" 502)
  | Some ticketUrl =>
    Ok (mkBoletoCharge (toGatewayPayment payment) ticketUrl (mp_barcode payment)
          (dateOr (ch_expiresAt input) (mp_date_of_expiration payment)))
  end.

Definition createCardSubscription (before : list ExtCall) (input : ChargeInput) : Res GatewaySubscription :=
  frequency ← defined (Ok (ch_billingPeriod input ≫= RECURRENCE));
  preapproval ← defined (mpRequest (MpCreatePreapproval
    (mkMpPreapprovalBody (ch_description input) (ch_externalReference input) (py_email (ch_payer input)) (ch_backUrl input)
       frequency (centsToAmount (ch_amountCents input)) (ch_currency input))
    (ch_idempotencyKey input)) before);
  Ok (toGatewaySubscription preapproval).

Definition getPayment (before : list ExtCall) (externalId : string) : Res GatewayPayment :=
  payment ← defined (mpRequest (MpGetPayment externalId) before); Ok (toGatewayPayment payment).

Definition getAuthorizedPayment (before : list ExtCall) (externalId : string) : Res GatewayPayment :=
  authorized ← defined (mpRequest (MpGetAuthorizedPayment externalId) before); Ok (toAuthorizedPayment authorized).

Definition getSubscription (before : list ExtCall) (externalId : string) : Res GatewaySubscription :=
  preapproval ← defined (mpRequest (MpGetPreapproval externalId) before); Ok (toGatewaySubscription preapproval).

(** A preapproval the gateway does not know is already cancelled. *)
Definition cancelSubscription (before : list ExtCall) (externalId : string) : Res unit :=
  match mpRequest (MpCancelPreapproval externalId) before with
  | Ok _ => Ok tt
  | Throw (ProviderRequest m status) => if status =? 404 then Ok tt else Throw (ProviderRequest m status)
  | Throw e => Throw e
  end.

Definition refund (before : list ExtCall) (externalId : string) (amountCents : option Z) : Res RefundResult :=
  let key := "refund-" +:+ externalId +:+ "-" +:+ match amountCents with Some c => zstr c | None => "full" end in
  r ← defined (mpRequest (MpCreateRefund externalId (centsToAmount <$> amountCents) key) before);
  Ok (mkRefund (idString (mr_id r)) (mr_status r) (amountToCents <$> mr_amount r)).

Definition parseWebhook (req : WebhookRequestInput MpWebhookBody) : Res ParsedWebhook :=
  match truthy MERCADOPAGO_WEBHOOK_SECRET with
  | None => Throw (Unauthorized "Mercado Pago webhooks are not configured on this deployment")
  | Some secret =>
    let body := wr_body req in
    let dataId := dataIdOf req in
    let '(ts, v1) := signatureOf req in
    match truthy ts, truthy v1 with
    | Some ts, Some v1 =>
      if negb (constantTimeEquals (hmacSha256Hex secret (manifestOf dataId (requestIdOf req) ts)) v1)
      then Throw (Unauthorized "Invalid webhook signature")
      else
        let topic := default "" (orElse (mw_type body) (orElse (mw_topic body)
                       (orElse (firstString (wr_query req "type")) (firstString (wr_query req "topic"))))) in
        let action := default "" (mw_action body) in
        Ok (mkParsed (match mw_id body with Some i => idString i | None => topic +:+ "-" +:+ default "unknown" dataId +:+ "-" +:+ ts end)
              (if action =s "" then topic else action) (lookupIn topic TOPIC_RESOURCE) dataId)
    | _, _ => Throw (Unauthorized "Missing or malformed x-signature header")
    end
  end.

(** The adapter as the interface the platform depends on. *)
Definition mercadoPagoProvider : PaymentProvider := {|
  pp_name := "mercadopago"; pp_isConfigured := Some isConfigured; pp_supportedPaymentMethods := None;
  pp_createPixCharge := createPixCharge; pp_createBoletoCharge := createBoletoCharge;
  pp_createCardSubscription := createCardSubscription; pp_getPayment := getPayment;
  pp_getAuthorizedPayment := getAuthorizedPayment; pp_getSubscription := getSubscription;
  pp_cancelSubscription := cancelSubscription; pp_refund before id := refund before id None;
  pp_classifyPayment p := classifyMercadoPagoPayment (gp_status p);
  pp_classifySubscription s := classifyMercadoPagoPreapproval (gs_status s) |}.

End Provider.

Example payer_names : map (fun p => mercadoPagoPayerName (fst p) (snd p))
    [(Some " Ana  Maria ", Some "Souza"); (Some "Ana  Maria Souza", None); (None, Some "Ana"); (Some "  ", None)] =
  [("Ana Maria", "Souza"); ("Ana", "Maria Souza"); ("Ana", "Ana"); ("Cliente", "Cliente")].
Proof. vm_compute. reflexivity. Qed.

Example signature_header : parseSignatureHeader (Some "v1=ab=, ts=17") = (Some "17", Some "ab=").
Proof. vm_compute. reflexivity. Qed.
