(* ===== verification/PagBank.v ===== *)
(** PagBank: the PagBank adapter.

    [payments/pagbank.provider.ts] over the request loop of [ProviderClient].  PagBank takes
    and returns integer cents.  Its HTTP answers are parameters, typed as the source types
    them, and so are Node's SHA-256, signature verification and Unicode case mapping; the
    cached webhook key is the state of the notification check.  The [raw] copies kept for
    diagnosis are left out. *)

From S2P Require Import Prelude JsNum Store Calendar JsString IsoDate Subscriptions Servers Payments ProviderClient MercadoPago.
From Stdlib Require Import Ascii String Lia.

Local Open Scope Z_scope.

(** Unicode upper-casing and the order of [localeCompare] on time stamps. *)
Class Unicode := { toUpperCase : string -> string; localeLe : string -> string -> bool }.

(** ** The gateway's own shapes *)

Record PbLink := mkPbLink { lk_rel : option string; lk_href : option string; lk_media : option string }.

Record PagBankAmount := mkPbAmount {
  pba_value : option Z; pba_currency : option string; pba_total : option Z; pba_paid : option Z; pba_refunded : option Z }.

Record PbBoleto := mkPbBoleto { bl_due_date : option string; bl_barcode : option string; bl_formatted_barcode : option string }.

Record PagBankCharge := mkPbCharge {
  pc_id : string; pc_reference_id : option string; pc_status : string; pc_paid_at : option string;
  pc_amount : option PagBankAmount; pc_response_code : option string; pc_response_message : option string;
  pc_method_type : option string; pc_installments : option Z; pc_pix_expiration : option string;
  pc_boleto : option PbBoleto; pc_qr_text : option string; pc_links : list PbLink }.

Record PagBankCheckout := mkPbCheckout {
  pk_id : string; pk_reference_id : option string; pk_status : string; pk_links : list PbLink }.

Record PagBankSubscription := mkPbSubscription {
  ps_id : string; ps_reference_id : option string; ps_status : string; ps_next_invoice_at : option string; ps_links : list PbLink }.

Record PagBankRecurringPayment := mkPbRecurring {
  pr_id : string; pr_status : string; pr_created_at : option string; pr_updated_at : option string;
  pr_value : option Z; pr_currency : option string; pr_method_type : option string;
  pr_provider_code : option string; pr_provider_message : option string }.

Record PbRefund := mkPbRefund { pf_id : string; pf_status : option string; pf_value : option Z }.

(** [public_key], and [public_key] and [key] of [public_keys[0]]. *)
Record PbPublicKeys := mkPbKeys { kk_public_key : option string; kk_first_public_key : option string; kk_first_key : option string }.

(** The parts of a charge request the gateway acts on. *)
Record PbChargeBody := mkPbChargeBody {
  cb_reference_id : string; cb_customer_name : string; cb_customer_email : string; cb_tax_id : option string;
  cb_item_name : string; cb_description : string; cb_amount : Z; cb_currency : string; cb_method : string; cb_due : string;
  cb_address : option PayerAddressInput; cb_notification_url : string }.

Record PbCheckoutBody := mkPbCheckoutBody {
  kb_reference_id : string; kb_customer_name : string; kb_customer_email : string; kb_tax_id : option string;
  kb_item_name : string; kb_amount : Z; kb_unit : string; kb_length : Z; kb_redirect_url : option string; kb_notification_url : string }.

Inductive PbRequest : Type -> Type :=
  | PbCreateOrder (body : PbChargeBody) (idempotencyKey : string) : PbRequest (list PagBankCharge)
  | PbCreateCheckout (body : PbCheckoutBody) (idempotencyKey : string) : PbRequest PagBankCheckout
  | PbGetText (url : string) : PbRequest string
  | PbGetCharge (id : string) : PbRequest PagBankCharge
  | PbGetCheckout (id : string) : PbRequest PagBankCheckout
  | PbGetSubscription (id : string) : PbRequest PagBankSubscription
  | PbGetInvoicePayments (invoiceId : string) : PbRequest (list PagBankRecurringPayment)
  | PbGetPublicKeys : PbRequest PbPublicKeys
  | PbInactivateCheckout (id idempotencyKey : string) : PbRequest unit
  | PbCancelSubscription (id : string) : PbRequest unit
  | PbRefundPayment (id : string) (amount : option Z) (idempotencyKey : string) : PbRequest PbRefund
  | PbCancelCharge (id : string) (amount : Z) (idempotencyKey : string) : PbRequest PagBankCharge.

Definition pbMethod {T} (r : PbRequest T) : Method :=
  match r with
  | PbCreateOrder _ _ | PbCreateCheckout _ _ | PbInactivateCheckout _ _ | PbRefundPayment _ _ _ | PbCancelCharge _ _ _ => POST
  | PbCancelSubscription _ => PUT
  | _ => GET
  end.

(** [error_messages[0].description] and [message]. *)
Record PagBankErrorBody := mkPbError { pe_description : option string; pe_message : option string }.

Definition pbTexts : ClientTexts PagBankErrorBody := {|
  ct_refusal err status := match orElse (err ≫= pe_description) (err ≫= pe_message) with
    | Some m => m
    | None => "PagBank request failed (status " +:+ zstr status +:+ ")"
    end;
  ct_unreachable := "Falha ao comunicar com o PagBank";
  ct_unconfigured := "PagBank não está configurado neste ambiente" |}.

Class PbHttp := { pbSend : forall T, PbRequest T -> list ExtCall -> nat -> HttpReply PagBankErrorBody T }.

(** [createHash('sha256')...digest('hex')], [createPublicKey(pem)] and
    [verify('sha256', data, key, Buffer.from(signature, 'base64'))]. *)
Class PbCrypto := {
  Key : Type; sha256Hex : string -> string; createPublicKey : string -> Res Key; verifySha256 : Key -> string -> string -> Res bool }.

(** ** Pure helpers *)

Definition payerName (first last : option string) : string :=
  let name := trim (join " " (omap truthy [first; last])) in if name =s "" then "Cliente GXHost" else name.

Definition formatDateOnly (t : Z) : string := sliceTo 10 (toISOString t).

(** Interval unit and length. *)
Definition PB_RECURRENCE (p : BillingPeriod) : option (string * Z) :=
  match p with
  | monthly => Some ("MONTH", 1) | quarterly => Some ("MONTH", 3) | semiannual => Some ("MONTH", 6) | annual => Some ("YEAR", 1)
  | period_none => None
  end.

Definition linkBy (p : PbLink -> bool) (links : list PbLink) : option string := findFirst p links ≫= lk_href.
Definition hasRel (rel : string) (l : PbLink) : bool := lk_rel l =s Some rel.

Definition stripPrefix (pre s : string) : string := if startsWith pre s then dropS (String.length pre) s else s.

Fixpoint takeUntil (stop : ascii -> bool) (s : string) : string :=
  match s with
  | EmptyString => ""
  | String c s' => if stop c then "" else String c (takeUntil stop s')
  end.

(** [/\/invoices\/(INVO_[^/?]+)/], the first match. *)
Fixpoint matchInvoice (s : string) : option string :=
  let here :=
    if startsWith "/invoices/INVO_" s then
      let tail := takeUntil (fun c => Ascii.eqb c "/" || Ascii.eqb c "?") (dropS 15 s) in
      if tail =s "" then None else Some ("INVO_" +:+ tail)
    else None in
  match here with
  | Some m => Some m
  | None => match s with EmptyString => None | String _ s' => matchInvoice s' end
  end.

Section Pure.
Context `{Platform} `{Unicode}.

Definition classifyPagBankPayment (status : string) : InternalPaymentEvent :=
  let normalized := toUpperCase status in
  if (normalized =s "PAID") || (normalized =s "SUCCESS") then PaymentConfirmed
  else if (normalized =s "WAITING") || (normalized =s "IN_ANALYSIS") || (normalized =s "AUTHORIZED") then PaymentPending
  else if (normalized =s "DECLINED") || (normalized =s "DENIED") then PaymentFailed
  else if normalized =s "REFUNDED" then PaymentRefunded
  else if (normalized =s "CANCELED") || (normalized =s "CANCELLED") then PaymentCanceled
  else Ignored.

Definition classifyPagBankSubscription (status : string) : InternalPaymentEvent :=
  let normalized := toUpperCase status in
  if normalized =s "ACTIVE" then SubscriptionSynced
  else if (normalized =s "OVERDUE") || (normalized =s "SUSPENDED") then SubscriptionPastDue
  else if (normalized =s "CANCELED") || (normalized =s "CANCELLED") || (normalized =s "EXPIRED") then SubscriptionCanceled
  else Ignored.

(** A charge whose whole amount was given back reads as refunded. *)
Definition chargeStatus (charge : PagBankCharge) : string :=
  let refunded := default 0 (pc_amount charge ≫= pba_refunded) in
  let total := default 0 (orElse (pc_amount charge ≫= pba_total) (pc_amount charge ≫= pba_value)) in
  if (total <=? refunded) && (0 <? total) then "REFUNDED" else pc_status charge.

Definition pbGatewayPayment (charge : PagBankCharge) : GatewayPayment :=
  let method := toLowerCase <$> pc_method_type charge in
  {| gp_id := pc_id charge; gp_status := chargeStatus charge;
     gp_statusDetail := orElse (pc_response_message charge) (pc_response_code charge);
     gp_subscriptionExternalId := None; gp_externalReference := pc_reference_id charge;
     gp_amountCents := orElse (pc_amount charge ≫= pba_value) (pc_amount charge ≫= pba_total);
     gp_paidAmountCents := pc_amount charge ≫= pba_paid; gp_currency := pc_amount charge ≫= pba_currency;
     gp_paymentMethodId := method; gp_paymentTypeId := method; gp_installments := pc_installments charge;
     gp_approvedAt := dateOr None (pc_paid_at charge) |}.

Definition pbGatewaySubscription (s : PagBankSubscription) : GatewaySubscription :=
  mkGatewaySubscription (ps_id s) (ps_status s) (ps_reference_id s) (dateOr None (ps_next_invoice_at s)) None.

Definition stampOf (p : PagBankRecurringPayment) : option string := orElse (pr_updated_at p) (pr_created_at p).

Definition recurringPayment (externalId : string) (payment : PagBankRecurringPayment) : GatewayPayment :=
  let paid := toUpperCase (pr_status payment) =s "PAID" in
  {| gp_id := pr_id payment; gp_status := pr_status payment;
     gp_statusDetail := orElse (pr_provider_message payment) (pr_provider_code payment);
     gp_subscriptionExternalId := Some externalId; gp_externalReference := None; gp_amountCents := pr_value payment;
     gp_paidAmountCents := if paid then pr_value payment else None; gp_currency := pr_currency payment;
     gp_paymentMethodId := Some (default "credit_card" (toLowerCase <$> pr_method_type payment));
     gp_paymentTypeId := Some "credit_card"; gp_installments := Some 1;
     gp_approvedAt := if paid then dateOr None (stampOf payment) else None |}.

(** The newest one: a stable sort by time stamp, latest first. *)
Definition newestPayment (payments : list PagBankRecurringPayment) : option PagBankRecurringPayment :=
  let stamp p := default "undefined" (stampOf p) in
  head (sortBy (fun a b => localeLe (stamp b) (stamp a)) payments).

End Pure.

(** ** The adapter *)

Section Provider.
Context `{Platform} `{Unicode} `{Config} `{ProviderConfig} `{PbHttp}.

Definition pbRequest {T} (r : PbRequest T) (before : list ExtCall) : Res (option T) :=
  (request pbTexts PAGBANK_TOKEN (pbSend T r before) (pbMethod r)).1.

Definition pbIsConfigured : bool := bool_decide (is_Some (truthy PAGBANK_TOKEN)).

Definition supportedPaymentMethods : list PaymentMethod :=
  if PAGBANK_RECURRING_ENABLED =s Some true then [pix; boleto; card] else [pix; boleto].

Definition notificationUrl : Res string :=
  match truthy PAGBANK_NOTIFICATION_URL with
  | Some explicit => Ok explicit
  | None =>
    match truthy (orElse PUBLIC_SITE_URL PANEL_URL) with
    | Some base => Ok (stripSlash base +:+ "/api/webhooks/pagbank")
    | None => Throw (ProviderRequest "PAGBANK_NOTIFICATION_URL não está configurada" 503)
    end
  end.

Definition chargeBody (input : ChargeInput) (method due : string) (address : option PayerAddressInput) (url : string) : PbChargeBody :=
  let payer := ch_payer input in
  mkPbChargeBody (ch_externalReference input) (payerName (py_firstName payer) (py_lastName payer)) (py_email payer) (py_cpf payer)
    (sliceTo 100 (ch_description input)) (sliceTo 64 (ch_description input)) (ch_amountCents input) (ch_currency input) method due address url.

Definition pbCreatePixCharge (before : list ExtCall) (input : ChargeInput) : Res PixCharge :=
  expiresAt ← expiryOf input;
  url ← notificationUrl;
  charges ← defined (pbRequest (PbCreateOrder (chargeBody input "PIX" (toISOString expiresAt) None url) (ch_idempotencyKey input)) before);
  let noQr := Throw (ProviderRequest "PagBank retornou uma cobrança Pix sem QR Code" 502) in
  match head charges with
  | None => noQr
  | Some charge =>
    match truthy (Some (pc_id charge)), truthy (pc_qr_text charge) with
    | Some _, Some qr =>
      match truthy (linkBy (hasRel "QRCODE.BASE64") (pc_links charge)) with
      | None => Throw (ProviderRequest "PagBank retornou uma cobrança Pix sem imagem do QR Code" 502)
      | Some base64Url =>
        text ← defined (pbRequest (PbGetText base64Url) before);
        Ok (mkPixCharge (pbGatewayPayment charge) qr (stripPrefix "data:image/png;base64," (trim text))
              (dateOr (ch_expiresAt input) (pc_pix_expiration charge)))
      end
    | _, _ => noQr
    end
  end.

Definition pbCreateBoletoCharge (before : list ExtCall) (input : ChargeInput) : Res BoletoCharge :=
  expiresAt ← expiryOf input;
  url ← notificationUrl;
  charges ← defined (pbRequest (PbCreateOrder (chargeBody input "BOLETO" (formatDateOnly expiresAt) (Some (py_address (ch_payer input))) url)
                                  (ch_idempotencyKey input)) before);
  let failed := Throw (ProviderRequest "PagBank retornou um boleto sem link de pagamento" 502) in
  match head charges with
  | None => failed
  | Some charge =>
    let ticketUrl := orElse (linkBy (fun l => hasRel "SELF" l && (lk_media l =s Some "application/pdf")) (pc_links charge))
                            (linkBy (hasRel "PAY") (pc_links charge)) in
    match truthy (Some (pc_id charge)), truthy ticketUrl with
    | Some _, Some url =>
      let b := pc_boleto charge in
      Ok (mkBoletoCharge (pbGatewayPayment charge) url (orElse (b ≫= bl_formatted_barcode) (b ≫= bl_barcode))
            (match truthy (b ≫= bl_due_date) with
             | Some due => parseDate (due +:+ "T23:59:59-03:00")
             | None => ch_expiresAt input
             end))
    | _, _ => failed
    end
  end.

Definition pbCreateCardSubscription (before : list ExtCall) (input : ChargeInput) : Res GatewaySubscription :=
  url ← notificationUrl;
  let payer := ch_payer input in
  '(unit, length) ← defined (Ok (ch_billingPeriod input ≫= PB_RECURRENCE));
  checkout ← defined (pbRequest (PbCreateCheckout (mkPbCheckoutBody (ch_externalReference input)
      (payerName (py_firstName payer) (py_lastName payer)) (py_email payer) (py_cpf payer) (sliceTo 100 (ch_description input))
      (ch_amountCents input) unit length (ch_backUrl input) url) (ch_idempotencyKey input)) before);
  match truthy (Some (pk_id checkout)), truthy (linkBy (hasRel "PAY") (pk_links checkout)) with
  | Some id, Some initPoint =>
    Ok (mkGatewaySubscription id (pk_status checkout) (Some (default (ch_externalReference input) (pk_reference_id checkout))) None (Some initPoint))
  | _, _ => Throw (ProviderRequest "PagBank retornou um checkout sem link de pagamento" 502)
  end.

Definition pbGetPayment (before : list ExtCall) (externalId : string) : Res GatewayPayment :=
  charge ← defined (pbRequest (PbGetCharge externalId) before); Ok (pbGatewayPayment charge).

Definition pbGetAuthorizedPayment (before : list ExtCall) (externalId : string) : Res GatewayPayment :=
  if negb (startsWith "SUBS_" externalId) then pbGetPayment before externalId
  else
    subscription ← defined (pbRequest (PbGetSubscription externalId) before);
    match linkBy (hasRel "INVOICES.LAST") (ps_links subscription) ≫= matchInvoice with
    | None => Throw (ProviderRequest "PagBank não informou a última fatura da assinatura" 502)
    | Some invoiceId =>
      payments ← defined (pbRequest (PbGetInvoicePayments invoiceId) before);
      match newestPayment payments with
      | None => Throw (ProviderRequest "PagBank não informou o pagamento da última fatura" 502)
      | Some payment => Ok (recurringPayment externalId payment)
      end
    end.

Definition pbGetSubscription (before : list ExtCall) (externalId : string) : Res GatewaySubscription :=
  if startsWith "CHEC_" externalId then
    checkout ← defined (pbRequest (PbGetCheckout externalId) before);
    Ok (mkGatewaySubscription (pk_id checkout) (pk_status checkout) (pk_reference_id checkout) None None)
  else
    subscription ← defined (pbRequest (PbGetSubscription externalId) before); Ok (pbGatewaySubscription subscription).

Definition pbCancelSubscription (before : list ExtCall) (externalId : string) : Res unit :=
  let reply := if startsWith "CHEC_" externalId then pbRequest (PbInactivateCheckout externalId ("cancel-" +:+ externalId)) before
               else pbRequest (PbCancelSubscription externalId) before in
  match reply with
  | Ok _ => Ok tt
  | Throw (ProviderRequest m status) => if status =? 404 then Ok tt else Throw (ProviderRequest m status)
  | Throw e => Throw e
  end.

Definition pbRefund (before : list ExtCall) (externalId : string) (amountCents : option Z) : Res RefundResult :=
  if startsWith "PAYM_" externalId then
    let key := "refund-" +:+ externalId +:+ "-" +:+ match amountCents with Some c => zstr c | None => "full" end in
    r ← defined (pbRequest (PbRefundPayment externalId amountCents key) before);
    Ok (mkRefund (pf_id r) (pf_status r) (orElse (pf_value r) amountCents))
  else
    charge ← defined (pbRequest (PbGetCharge externalId) before);
    match orElse amountCents (orElse (pc_amount charge ≫= pba_paid) (pc_amount charge ≫= pba_value)) with
    | Some amount =>
      if amount =? 0 then Throw (ProviderRequest "PagBank não informou o valor reembolsável da cobrança" 502)
      else
        refunded ← defined (pbRequest (PbCancelCharge externalId amount ("refund-" +:+ externalId +:+ "-" +:+ zstr amount)) before);
        Ok (mkRefund (pc_id refunded) (Some (pc_status refunded)) (Some (default amount (pc_amount refunded ≫= pba_refunded))))
    | None => Throw (ProviderRequest "PagBank não informou o valor reembolsável da cobrança" 502)
    end.

Definition pagBankProvider : PaymentProvider := {|
  pp_name := "pagbank"; pp_isConfigured := Some pbIsConfigured; pp_supportedPaymentMethods := Some supportedPaymentMethods;
  pp_createPixCharge := pbCreatePixCharge; pp_createBoletoCharge := pbCreateBoletoCharge;
  pp_createCardSubscription := pbCreateCardSubscription; pp_getPayment := pbGetPayment;
  pp_getAuthorizedPayment := pbGetAuthorizedPayment; pp_getSubscription := pbGetSubscription;
  pp_cancelSubscription := pbCancelSubscription; pp_refund before id := pbRefund before id None;
  pp_classifyPayment p := classifyPagBankPayment (gp_status p);
  pp_classifySubscription s := classifyPagBankSubscription (gs_status s) |}.

End Provider.

(** ** Notifications *)

Record PagBankWebhookBody := mkPbBody {
  pw_id : option string; pw_event : option string; pw_resource_id : option string; pw_resource_charge_id : option string;
  pw_charges : list PagBankCharge }.

Definition headerValues (v : option HeaderValue) : list string :=
  let values := match v with
                | None => []
                | Some (OneValue s) => if s =s "" then [] else [s]
                | Some (ManyValues l) => l
                end in
  List.filter (fun s => negb (s =s "")) (map trim (mjoin (map (splitOn ",") values))).

(** [base64.replace(/\s/g, '')]. *)
Fixpoint dropSpacesF (fuel : nat) (s : string) : string :=
  match fuel with
  | O => ""
  | S f =>
    match s with
    | EmptyString => ""
    | String c s' => match spaceAt s with
                     | Some w => dropSpacesF f (dropS (String.length w) s)
                     | None => String c (dropSpacesF f s')
                     end
    end
  end.

(** [match(/.{1,64}/g)] on ASCII text. *)
Fixpoint chunks (fuel : nat) (s : string) : list string :=
  match fuel with
  | O => []
  | S f => if s =s "" then [] else String.substring 0 64 s :: chunks f (dropS 64 s)
  end.

Definition toPem (base64 : string) : string :=
  if includesStr "BEGIN PUBLIC KEY" base64 then base64
  else
    let clean := dropSpacesF (S (String.length base64)) base64 in
    let nl := String (ascii_of_N 10) "" in
    "-----BEGIN PUBLIC KEY-----" +:+ nl +:+ join nl (chunks (S (String.length clean)) clean) +:+ nl +:+ "-----END PUBLIC KEY-----".

Section Webhook.
Context `{Platform} `{Config} `{ProviderConfig} `{PbHttp} `{PbCrypto} (now : Z).

Definition matchesLegacyAuthenticityToken (presented token rawBody : string) : bool :=
  let normalized := toLowerCase (trim presented) in
  let expected := sha256Hex (token +:+ "-" +:+ rawBody) in
  (String.length normalized =? String.length expected)%nat && (normalized =s expected).

(** The key the adapter keeps for an hour: its text and when it was read. *)
Definition KeyCache : Type := option (string * Z).

Definition freshKey (cache : KeyCache) : option string :=
  match cache with
  | Some (value, loadedAt) => if now - loadedAt <? 60 * 60 * 1000 then Some value else None
  | None => None
  end.

Definition webhookPublicKey (before : list ExtCall) : M KeyCache string :=
  cache ← gets id;
  match freshKey cache with
  | Some value => mret value
  | None =>
    response ← lift (defined (pbRequest PbGetPublicKeys before));
    value ← orThrow (truthy (orElse (kk_public_key response) (orElse (kk_first_public_key response) (kk_first_key response))))
      (Unauthorized "PagBank não retornou uma chave pública de webhook");
    modify (fun _ => Some (value, now)) ;; mret value
  end.

(** [verify] in its own [try]. *)
Definition signedBy (key : Key) (rawBody signature : string) : bool :=
  match verifySha256 key rawBody signature with Ok b => b | Throw _ => false end.

Definition verifyWebhookSignature (req : WebhookRequestInput PagBankWebhookBody) (rawBody : string) (before : list ExtCall) : M KeyCache unit :=
  let payloadSignatures := headerValues (wr_headers req "x-payload-signature") in
  let authenticityTokens := headerValues (wr_headers req "x-authenticity-token") in
  throwIf ((payloadSignatures =s []) && (authenticityTokens =s [])) (Unauthorized "Assinatura ausente no webhook do PagBank") ;;
  authentic ← if payloadSignatures =s [] then mret false
    else tryCatch
      (publicKey ← webhookPublicKey before;
       key ← lift (createPublicKey (toPem publicKey));
       mret (existsb (signedBy key rawBody) payloadSignatures))
      (fun error => if authenticityTokens =s []
                    then throw (Unauthorized "Não foi possível validar a assinatura do webhook do PagBank") else mret false);
  if (authentic : bool) then mret tt
  else
    match truthy PAGBANK_TOKEN with
    | Some token =>
      throwIf (negb (existsb (fun presented => matchesLegacyAuthenticityToken presented token rawBody) authenticityTokens))
        (Unauthorized "Assinatura inválida no webhook do PagBank")
    | None => throw (Unauthorized "Assinatura inválida no webhook do PagBank")
    end.

(** Which resource a notification is about: the first of the four cases that applies. *)
Definition webhookResource (body : PagBankWebhookBody) : option WebhookResourceKind * option string * string :=
  let event := default "pagbank.notification" (pw_event body) in
  let onlyIf (b : bool) (id : option string) := if b then truthy id else None in
  match onlyIf (pw_event body =s Some "subscription.recurrence") (pw_resource_id body) with
  | Some r => (Some res_authorized_payment, Some r, event)
  | None =>
  match onlyIf (default false (startsWith "subscription." <$> pw_event body)) (pw_resource_id body) with
  | Some r => (Some res_preapproval, Some r, event)
  | None =>
  match onlyIf (pw_event body =s Some "refund.created") (pw_resource_charge_id body) with
  | Some c => (Some res_payment, Some c, event)
  | None =>
  match head (pw_charges body) with
  | Some ch => if pc_id ch =s "" then (None, None, event)
               else (Some res_payment, Some (pc_id ch), "charge." +:+ toLowerCase (pc_status ch))
  | None => (None, None, event)
  end end end end.

Definition pbParseWebhook (req : WebhookRequestInput PagBankWebhookBody) (before : list ExtCall) : M KeyCache ParsedWebhook :=
  rawBody ← orThrow (wr_rawBody req) (Unauthorized "Corpo bruto ausente no webhook do PagBank");
  verifyWebhookSignature req rawBody before ;;
  let body := wr_body req in
  let '(kind, resourceId, rawEvent) := webhookResource body in
  let digest := sliceTo 24 (sha256Hex rawBody) in
  mret (mkParsed ("pagbank-" +:+ default "unknown" (orElse resourceId (pw_id body)) +:+ "-" +:+ digest) rawEvent kind resourceId).

End Webhook.
