(* ===== verification/Intake.v ===== *)
(** Intake: how payment notifications enter, and what the gateways' answers justify.

    The two webhook controllers ([payments/payments-webhook.controller.ts] and
    [payments/pagbank-webhook.controller.ts]) with the queue producer
    ([payments/webhook-processing-queue.service.ts]): authenticate, insert the event once,
    enqueue.  The last section runs the pipeline of [Webhook] against the two adapters, so
    that its results speak of the answers of the gateways themselves. *)

From S2P Require Import Prelude JsNum Capacity Store Scheduler Subscriptions JsString IsoDate Variables Servers Payments Webhook ProviderClient MercadoPago PagBank.
From Stdlib Require Import QArith Ascii String Lia.

Local Open Scope Z_scope.

(** The primary key of [payment_webhook_events] is the notification id. *)
Definition createWebhookEvent (provider : string) (parsed : ParsedWebhook) : MW unit :=
  d ← gets w_db;
  throwIf (bool_decide (is_Some (findId (pw_notificationId parsed) (db_webhookEvents d)))) (UniqueViolation "payment_webhook_events_pkey") ;;
  onDb (fun d => d <| db_webhookEvents := db_webhookEvents d ++
    [mkWebhookEvent (pw_notificationId parsed) provider (pw_rawEvent parsed) (pw_resourceId parsed) Wh_received None None] |>).

Definition isUniqueConstraintError (e : exn) : bool := match e with UniqueViolation _ => true | _ => false end.

(** BullMQ refuses [':'] in a job id. *)
Fixpoint dashColons (s : string) : string :=
  match s with EmptyString => "" | String c s' => String (if Ascii.eqb c ":" then "-"%char else c) (dashColons s') end.

Definition jobIdOf (provider notificationId : string) : string := dashColons ("webhook-" +:+ provider +:+ "-" +:+ notificationId).

Section Intake.
Context `{Outside}.

(** What both controllers do with an authentic notification. *)
Definition receiveParsed (provider : string) (parsed : ParsedWebhook) : MW unit :=
  created ← tryCatch (createWebhookEvent provider parsed ;; mret true)
              (fun err => if isUniqueConstraintError err then mret false else throw err);
  if (created : bool) then enqueue (EnqueueWebhook provider (pw_notificationId parsed)) else mret tt.

Definition receiveMercadoPago `{Platform} `{ProviderConfig} `{Hmac} (req : WebhookRequestInput MpWebhookBody) : MW unit :=
  parsed ← lift (parseWebhook req);
  receiveParsed "mercadopago" parsed.

(** The PagBank controller; the key cache it leaves is [(pbParseWebhook now req before cache).2]. *)
Definition receivePagBank `{Platform} `{ProviderConfig} `{PbHttp} `{PbCrypto} (now : Z) (cache : KeyCache)
    (req : WebhookRequestInput PagBankWebhookBody) : MW unit :=
  before ← gets w_calls;
  parsed ← lift (pbParseWebhook now req before cache).1;
  receiveParsed "pagbank" parsed.

(** Requests handled one after the other; each answers for itself. *)
Definition deliver (l : list (string * ParsedWebhook)) : MW unit :=
  forEach l (fun d => tryCatch (receiveParsed (fst d) (snd d)) (fun _ => mret tt)).

(** ** One notification, one job *)

Lemma deliver_cons d l w : deliver (d :: l) w = deliver l (receiveParsed (fst d) (snd d) w).2.
Proof.
  unfold deliver. simpl. unfold mbind, M_bind, tryCatch at 1. by destruct (receiveParsed (fst d) (snd d) w) as [[[]|e] w1].
Qed.

Lemma receive_known provider parsed w row :
  findId (pw_notificationId parsed) (db_webhookEvents (w_db w)) = Some row -> receiveParsed provider parsed w = (Ok tt, w).
Proof.
  intros Hr. unfold receiveParsed, createWebhookEvent, tryCatch, mbind, M_bind, gets, throwIf, throw.
  rewrite bool_decide_eq_true_2 by (by rewrite Hr; eexists). done.
Qed.

Lemma receive_new provider parsed w r w' :
  findId (pw_notificationId parsed) (db_webhookEvents (w_db w)) = None -> receiveParsed provider parsed w = (r, w') ->
  w_calls w' = w_calls w ++ [EnqueueWebhook provider (pw_notificationId parsed)] /\
  (w_db w') <| db_webhookEvents := [] |> = (w_db w) <| db_webhookEvents := [] |> /\
  db_webhookEvents (w_db w') = db_webhookEvents (w_db w) ++
    [mkWebhookEvent (pw_notificationId parsed) provider (pw_rawEvent parsed) (pw_resourceId parsed) Wh_received None None] /\
  r = match agentReply (w_calls w) (EnqueueWebhook provider (pw_notificationId parsed)) with Some e => Throw e | None => Ok tt end.
Proof.
  intros Hn E. unfold receiveParsed, createWebhookEvent, enqueue, agentCall, tryCatch, mbind, M_bind, gets, throwIf, throw, onDb, modify, call in E.
  rewrite bool_decide_eq_false_2 in E by (rewrite Hn; by intros [? [=]]). simpl in E.
  destruct (agentReply _ _); injection E as <- <-; done.
Qed.

(** The notifications the queue was asked to process. *)
Definition asked (w : World) : list string :=
  omap (fun c => match c with EnqueueWebhook _ id => Some id | _ => None end) (w_calls w).

(** Each at most once, and each with its event row. *)
Definition enqueuedOnce (w : World) : Prop :=
  NoDup (asked w) /\ forall id, id ∈ asked w -> is_Some (findId id (db_webhookEvents (w_db w))).

Lemma receive_enqueuedOnce provider parsed w r w' :
  enqueuedOnce w -> receiveParsed provider parsed w = (r, w') -> enqueuedOnce w'.
Proof.
  intros [Hnd Hrow] E. destruct (findId (pw_notificationId parsed) (db_webhookEvents (w_db w))) as [row|] eqn:Hf.
  { rewrite (receive_known _ _ _ _ Hf) in E. by injection E as _ <-. }
  destruct (receive_new _ _ _ _ _ Hf E) as (Hc & _ & He & _).
  assert (asked w' = asked w ++ [pw_notificationId parsed]) as Ha by (unfold asked; by rewrite Hc, omap_app).
  assert (pw_notificationId parsed ∉ asked w) as Hni by (intros [x Hx]%Hrow; congruence).
  split; rewrite Ha.
  - apply NoDup_app. split; [done|]. split; [|apply NoDup_singleton]. intros x Hx ->%list_elem_of_singleton. done.
  - intros id Hid. rewrite He. apply elem_of_app in Hid as [Hid|Hid%list_elem_of_singleton]; [|subst id].
    + destruct (Hrow id Hid) as [row Hx]. rewrite (findId_app_some _ _ _ _ Hx). by eexists.
    + rewrite (findId_app_none _ _ _ Hf). simpl. rewrite bool_decide_eq_true_2 by done. by eexists.
Qed.

(** C36: however often and in whatever order notifications are delivered, by either
    gateway, the queue is asked to process each notification at most once, and never one
    whose event is not on record. *)
Theorem notification_enqueued_once l w : enqueuedOnce w -> (deliver l w).1 = Ok tt /\ enqueuedOnce (deliver l w).2.
Proof.
  revert w. induction l as [|d l IH]; intros w Hw; [done|]. rewrite deliver_cons. apply IH.
  eapply receive_enqueuedOnce; [exact Hw|]. apply surjective_pairing.
Qed.

(** When the queue is down as a notification arrives, the gateway is told to deliver it
    again, but every later delivery finds the event on record and is answered as received
    without being queued: the notification is never processed. *)
Theorem lost_notification provider parsed w e :
  findId (pw_notificationId parsed) (db_webhookEvents (w_db w)) = None ->
  agentReply (w_calls w) (EnqueueWebhook provider (pw_notificationId parsed)) = Some e ->
  let w1 := (receiveParsed provider parsed w).2 in
  (receiveParsed provider parsed w).1 = Throw e /\
  forall l, Forall (fun d => pw_notificationId (snd d) = pw_notificationId parsed) l -> deliver l w1 = (Ok tt, w1).
Proof.
  cbv zeta. intros Hn He. destruct (receiveParsed provider parsed w) as [r w1] eqn:E. destruct (receive_new _ _ _ _ _ Hn E) as (_ & _ & Hev & Hr).
  rewrite He in Hr. split; [done|]. simpl. intros l Hl.
  assert (exists row, findId (pw_notificationId parsed) (db_webhookEvents (w_db w1)) = Some row) as [row Hrow].
  { rewrite Hev, (findId_app_none _ _ _ Hn). simpl. rewrite bool_decide_eq_true_2 by done. by eexists. }
  induction Hl as [|d l Hq Hl IH]; [done|]. rewrite deliver_cons. rewrite <- Hq in Hrow. by rewrite (receive_known (fst d) (snd d) w1 row Hrow).
Qed.

End Intake.

(** ** Authenticity *)

Section Authentic.
Context `{Platform} `{ProviderConfig} `{Hmac}.

Lemma constantTimeEquals_eq a b : constantTimeEquals a b = true <-> a = b.
Proof.
  unfold constantTimeEquals. rewrite andb_true_iff, bool_decide_eq_true. split; [by intros [_ ->]|]. intros ->. by rewrite Nat.eqb_refl.
Qed.

(** A request signed with the deployment's webhook secret. *)
Definition signedRequest (req : WebhookRequestInput MpWebhookBody) : Prop :=
  exists secret ts v1, truthy MERCADOPAGO_WEBHOOK_SECRET = Some secret /\ truthy (signatureOf req).1 = Some ts /\
    truthy (signatureOf req).2 = Some v1 /\ v1 = hmacSha256Hex secret (manifestOf (dataIdOf req) (requestIdOf req) ts).

Lemma parseWebhook_signed req :
  match parseWebhook req with
  | Ok p => signedRequest req /\ pw_resourceId p = dataIdOf req
  | Throw e => ~ signedRequest req /\ exists m, e = Unauthorized m
  end.
Proof.
  unfold parseWebhook, signedRequest. destruct (truthy MERCADOPAGO_WEBHOOK_SECRET) as [secret|] eqn:Es.
  2:{ split; [|by eexists]. intros (? & ? & ? & [=] & _). }
  destruct (signatureOf req) as [ts v1] eqn:Eq. simpl.
  destruct (truthy ts) as [t|] eqn:Et, (truthy v1) as [v|] eqn:Ev; try (split; [|by eexists]; naive_solver).
  destruct (constantTimeEquals _ _) eqn:Ec; cbn [negb].
  - apply constantTimeEquals_eq in Ec. split; [|done]. exists secret, t, v. done.
  - split; [|by eexists]. intros (? & ? & ? & [= <-] & [= <-] & [= <-] & Hv). rewrite Hv in Ec.
    assert (constantTimeEquals v v = true) as Hvv by (by apply constantTimeEquals_eq). subst. congruence.
Qed.

(** C35: only a request signed with the deployment's secret enters: any other is answered
    401 and leaves no trace, and a deployment without a secret accepts none. *)
Theorem only_signed_notifications_enter `{Outside} req w r w' :
  receiveMercadoPago req w = (r, w') ->
  (signedRequest req /\ exists p, parseWebhook req = Ok p /\ pw_resourceId p = dataIdOf req /\ receiveParsed "mercadopago" p w = (r, w')) \/
  (~ signedRequest req /\ (exists m, r = Throw (Unauthorized m)) /\ w' = w).
Proof.
  intros E. unfold receiveMercadoPago in E. pose proof (parseWebhook_signed req) as Hs. destruct (parseWebhook req) as [p|e].
  - left. destruct Hs as [Hs Hd]. split; [done|]. exists p. done.
  - right. destruct Hs as [Hs [m ->]]. injection E as <- <-. split; [done|]. split; [by eexists|done].
Qed.

Definition cleanSegment (o : option string) : Prop := forall s, o = Some s -> noChar ";" s = true.

(** The signed text, segment by segment. *)
Definition segments (dataId requestId : option string) (ts : string) : list string :=
  from_option (fun d => ["id:" +:+ lowercaseIfNeeded d]) [] (truthy dataId) ++
  from_option (fun r => ["request-id:" +:+ r]) [] (truthy requestId) ++ ["ts:" +:+ ts; ""].

Lemma nil_app_s s : "" +:+ s = s.
Proof. reflexivity. Qed.

Lemma manifest_segments dataId requestId ts :
  cleanSegment (lowercaseIfNeeded <$> truthy dataId) -> cleanSegment (truthy requestId) -> noChar ";" ts = true ->
  splitOn ";" (manifestOf dataId requestId ts) = segments dataId requestId ts.
Proof.
  intros Hd Hr Ht. unfold manifestOf, segments.
  assert (splitOn ";" ("ts:" +:+ ts +:+ ";") = ["ts:" +:+ ts; ""]) as Ets.
  { rewrite <- app_assoc_s. rewrite splitOn_segment; [done|]. by rewrite noChar_app, Ht. }
  assert (forall pre x rest, noChar ";" pre = true -> noChar ";" x = true ->
    splitOn ";" ((pre +:+ x +:+ ";") +:+ rest) = (pre +:+ x) :: splitOn ";" rest) as Seg.
  { intros pre x rest Hp Hx. rewrite <- app_assoc_s, app_assoc_s. change (";" +:+ rest) with (String ";" rest).
    apply splitOn_segment. by rewrite noChar_app, Hp, Hx. }
  destruct (truthy dataId) as [d|]; simpl in Hd; [rewrite Seg; [|done|by apply Hd]|];
    rewrite ?nil_app_s; (destruct (truthy requestId) as [q|]; [rewrite Seg; [|done|by apply Hr]|]); rewrite ?nil_app_s, ?Ets; try done.
Qed.

Lemma segments_inj d1 r1 t1 d2 r2 t2 : segments d1 r1 t1 = segments d2 r2 t2 ->
  lowercaseIfNeeded <$> truthy d1 = lowercaseIfNeeded <$> truthy d2 /\ truthy r1 = truthy r2 /\ t1 = t2.
Proof.
  unfold segments. destruct (truthy d1), (truthy d2), (truthy r1), (truthy r2); simpl; intros E; try discriminate E;
    repeat match goal with H : _ :: _ = _ :: _ |- _ => injection H; clear H; intros end;
    rewrite ?nil_app_s in *; subst; split_and!; congruence.
Qed.

(** The values a request puts into the signed text have no semicolon. *)
Definition cleanRequest (req : WebhookRequestInput MpWebhookBody) : Prop :=
  cleanSegment (lowercaseIfNeeded <$> truthy (dataIdOf req)) /\ cleanSegment (truthy (requestIdOf req)) /\ cleanSegment (truthy (signatureOf req).1).

(** A signature is good for one resource: two accepted requests that carry the same
    signature name the same resource (up to letter case), the same request and the same
    time, unless two different texts have the same HMAC. *)
Theorem signature_binds_resource req1 req2 p1 p2 :
  parseWebhook req1 = Ok p1 -> parseWebhook req2 = Ok p2 -> (signatureOf req1).2 = (signatureOf req2).2 ->
  cleanRequest req1 -> cleanRequest req2 ->
  (lowercaseIfNeeded <$> truthy (pw_resourceId p1) = lowercaseIfNeeded <$> truthy (pw_resourceId p2) /\
   truthy (requestIdOf req1) = truthy (requestIdOf req2) /\ truthy (signatureOf req1).1 = truthy (signatureOf req2).1) \/
  exists secret m1 m2, m1 <> m2 /\ hmacSha256Hex secret m1 = hmacSha256Hex secret m2.
Proof.
  intros E1 E2 Hv (Hd1 & Hr1 & Ht1) (Hd2 & Hr2 & Ht2).
  pose proof (parseWebhook_signed req1) as S1. rewrite E1 in S1. destruct S1 as [(secret & t1 & v1 & Hs & T1 & V1 & M1) D1].
  pose proof (parseWebhook_signed req2) as S2. rewrite E2 in S2. destruct S2 as [(secret' & t2 & v2 & Hs' & T2 & V2 & M2) D2].
  assert (secret' = secret) as -> by congruence. assert (v2 = v1) as -> by congruence.
  destruct (decide (manifestOf (dataIdOf req1) (requestIdOf req1) t1 = manifestOf (dataIdOf req2) (requestIdOf req2) t2)) as [E|N].
  - left. rewrite D1, D2, T1, T2. apply (f_equal (splitOn ";")) in E.
    rewrite (manifest_segments _ _ _ Hd1 Hr1 (Ht1 _ T1)), (manifest_segments _ _ _ Hd2 Hr2 (Ht2 _ T2)) in E.
    apply segments_inj in E as (? & ? & ->). done.
  - right. exists secret, (manifestOf (dataIdOf req1) (requestIdOf req1) t1), (manifestOf (dataIdOf req2) (requestIdOf req2) t2).
    split; [done|]. congruence.
Qed.

(** The same request with another notification id in its body. *)
Definition withBodyId (n : MpId) (req : WebhookRequestInput MpWebhookBody) : WebhookRequestInput MpWebhookBody :=
  let b := wr_body req in
  mkWebhookRequest (wr_headers req) (wr_query req) (mkMpBody (Some n) (mw_type b) (mw_topic b) (mw_action b) (mw_data_id b)) (wr_rawBody req).

(** The notification id, on which redeliveries are recognised, is not signed: an accepted
    request is accepted again under any other notification id. *)
Theorem notification_id_unsigned req p n :
  parseWebhook req = Ok p ->
  parseWebhook (withBodyId n req) = Ok (mkParsed (idString n) (pw_rawEvent p) (pw_resourceKind p) (pw_resourceId p)).
Proof.
  unfold parseWebhook. change (dataIdOf (withBodyId n req)) with (dataIdOf req). change (requestIdOf (withBodyId n req)) with (requestIdOf req).
  change (signatureOf (withBodyId n req)) with (signatureOf req). destruct (truthy MERCADOPAGO_WEBHOOK_SECRET); [|done].
  destruct (signatureOf req) as [ts v1]. destruct (truthy ts), (truthy v1); try done. destruct (negb _); [done|]. by intros [= <-].
Qed.

End Authentic.

Section AuthenticPagBank.
Context `{Platform} `{ProviderConfig} `{PbHttp} `{PbCrypto} (now : Z).

Lemma legacyToken_eq presented token rawBody :
  matchesLegacyAuthenticityToken presented token rawBody = true -> toLowerCase (trim presented) = sha256Hex (token +:+ "-" +:+ rawBody).
Proof. unfold matchesLegacyAuthenticityToken. cbv zeta. rewrite andb_true_iff, bool_decide_eq_true. by intros [_ ->]. Qed.

(** The proof of origin PagBank attaches: a signature of the body under its published key,
    or the hash of the account token and the body. *)
Definition pagBankSigned (req : WebhookRequestInput PagBankWebhookBody) (before : list ExtCall) (cache : KeyCache) (rawBody : string) : Prop :=
  (exists keyText cache' key signature, webhookPublicKey now before cache = (Ok keyText, cache') /\ createPublicKey (toPem keyText) = Ok key /\
     signature ∈ headerValues (wr_headers req "x-payload-signature") /\ verifySha256 key rawBody signature = Ok true) \/
  (exists token presented, truthy PAGBANK_TOKEN = Some token /\ presented ∈ headerValues (wr_headers req "x-authenticity-token") /\
     toLowerCase (trim presented) = sha256Hex (token +:+ "-" +:+ rawBody)).

Lemma verify_signed req rawBody before cache cache' :
  verifyWebhookSignature now req rawBody before cache = (Ok tt, cache') -> pagBankSigned req before cache rawBody.
Proof.
  unfold verifyWebhookSignature. cbv zeta. intros E. apply bind_throwIf_inv in E as [(_ & [=] & _)|(_ & E)].
  apply bind_inv in E as [(e & _ & [=])|(authentic & c1 & E1 & E)]. destruct authentic.
  - left. destruct (headerValues (wr_headers req "x-payload-signature") =s []); [done|].
    apply tryCatch_inv in E1 as [(b & Eb & E1)|(e & c2 & _ & E1)].
    + injection E1 as <-. apply bind_inv in Eb as [(e & _ & [=])|(keyText & c3 & Ek & Eb)].
      apply bind_inv in Eb as [(e & _ & [=])|(key & c4 & Ec & Eb)]. injection Ec as Ec <-. injection Eb as Eb _.
      apply existsb_exists in Eb as (signature & Hin & Hs). apply list_elem_of_In in Hin. unfold signedBy in Hs.
      destruct (verifySha256 key rawBody signature) as [[]|] eqn:Ev; try done. exists keyText, c3, key, signature. done.
    + by destruct (_ =s []).
  - right. destruct (truthy PAGBANK_TOKEN) as [token|] eqn:Et; [|done]. unfold throwIf in E.
    destruct (existsb _ _) eqn:Ex; [|done]. apply existsb_exists in Ex as (presented & Hin & Hp). apply list_elem_of_In in Hin.
    exists token, presented. split; [done|]. split; [done|]. by apply legacyToken_eq.
Qed.

(** A PagBank notification is accepted only with a proof of origin over its exact
    bytes; any other is answered 401 and leaves no trace. *)
Theorem pagbank_notifications_authentic `{Outside} cache req w r w' :
  receivePagBank now cache req w = (r, w') ->
  (exists rawBody p, wr_rawBody req = Some rawBody /\ pagBankSigned req (w_calls w) cache rawBody /\ receiveParsed "pagbank" p w = (r, w')) \/
  ((exists e, r = Throw e) /\ w' = w).
Proof.
  unfold receivePagBank. intros E. rewrite bind_gets in E. destruct (pbParseWebhook now req (w_calls w) cache) as [[p|e] c'] eqn:Ep; simpl in E.
  - left. unfold pbParseWebhook in Ep. apply bind_orThrow_inv in Ep as [(_ & [=] & _)|(rawBody & Hraw & Ep)].
    apply bind_inv in Ep as [(e & _ & [=])|([] & c1 & Ev & _)]. exists rawBody, p. split; [done|]. split; [by eapply verify_signed|exact E].
  - right. injection E as <- <-. split; [by eexists|done].
Qed.

End AuthenticPagBank.

(** ** What a paid order rests on *)

Section Justified.
Context `{Platform} `{Unicode} `{Config} `{ProviderConfig} `{MpHttp} `{PbHttp} `{Outside} `{!PlatformLaws} (now : Z).

(** The platform with its two adapters. *)
Definition adapters : Providers := {| mercadoPago := mercadoPagoProvider; pagBank := pagBankProvider |}.

Lemma request_success {X T} (texts : ClientTexts X) token (send : nat -> HttpReply X T) m v :
  defined (request texts token send m).1 = Ok v -> exists i, send i = Success (Some v).
Proof.
  unfold request. destruct (attempt texts token send (attemptsFor m) 1) as [r k] eqn:E. simpl. destruct r as [[x|]|e]; simpl; try done.
  intros [= ->]. apply attempt_ok in E as (i & _ & _ & Hi). eauto.
Qed.

Lemma mp_confirmed status : classifyMercadoPagoPayment status = PaymentConfirmed -> status = "approved".
Proof.
  unfold classifyMercadoPagoPayment, lookupIn, PAYMENT_STATUS_MAP, findFirst. simpl.
  repeat (case_bool_decide; [done|]). done.
Qed.

Definition paidStatus (status : string) : Prop := toUpperCase status = "PAID" \/ toUpperCase status = "SUCCESS".

Lemma pb_confirmed status : classifyPagBankPayment status = PaymentConfirmed -> paidStatus status.
Proof.
  unfold classifyPagBankPayment, paidStatus. cbv zeta. destruct (toUpperCase status =s "PAID") eqn:E1; [apply bool_decide_eq_true in E1; auto|].
  destruct (toUpperCase status =s "SUCCESS") eqn:E2; [apply bool_decide_eq_true in E2; auto|]. simpl. by repeat case_match.
Qed.

(** A reply of Mercado Pago about resource [rid]: a payment it calls approved, of [cents]. *)
Definition mercadoPagoApproved (rid : string) (cents : Z) : Prop :=
  (exists before i payment, mpSend MpPayment (MpGetPayment rid) before i = Success (Some payment) /\
     mp_status payment = "approved" /\ amountToCents <$> mp_transaction_amount payment = Some cents) \/
  (exists before i authorized, mpSend MpAuthorizedPayment (MpGetAuthorizedPayment rid) before i = Success (Some authorized) /\
     authorizedStatus authorized = Some "approved" /\ amountToCents <$> ma_transaction_amount authorized = Some cents).

(** What PagBank replies about resource [rid]: the charge [rid], which it calls paid; or the
    subscription [rid] with the link to its last invoice, and for that invoice payments of which
    the newest is called paid; either of [cents]. *)
Definition pagBankApproved (rid : string) (cents : Z) : Prop :=
  (exists before i charge, pbSend PagBankCharge (PbGetCharge rid) before i = Success (Some charge) /\
     paidStatus (chargeStatus charge) /\ orElse (pc_amount charge ≫= pba_value) (pc_amount charge ≫= pba_total) = Some cents) \/
  (startsWith "SUBS_" rid = true /\ exists before i j subscription invoice payments payment,
     pbSend _ (PbGetSubscription rid) before i = Success (Some subscription) /\
     linkBy (hasRel "INVOICES.LAST") (ps_links subscription) ≫= matchInvoice = Some invoice /\
     pbSend _ (PbGetInvoicePayments invoice) before j = Success (Some payments) /\
     newestPayment payments = Some payment /\ paidStatus (pr_status payment) /\ pr_value payment = Some cents).

Lemma mp_fetch_approved parsed p cents : fetched mercadoPagoProvider parsed p ->
  classifyMercadoPagoPayment (gp_status p) = PaymentConfirmed -> gp_amountCents p = Some cents ->
  exists rid, truthy (pw_resourceId parsed) = Some rid /\ mercadoPagoApproved rid cents.
Proof.
  intros (before & rid & Hrid & Hf) Hc%mp_confirmed Ha. exists rid. split; [done|]. destruct Hf as [Hf|Hf]; simpl in Hf.
  - left. unfold getPayment, mbind, Res_bind in Hf. destruct (defined _) as [mp|] eqn:E; [|done]. injection Hf as <-.
    apply request_success in E as [i Hi]. exists before, i, mp. done.
  - right. unfold getAuthorizedPayment, mbind, Res_bind in Hf. destruct (defined _) as [ma|] eqn:E; [|done]. injection Hf as <-.
    apply request_success in E as [i Hi]. exists before, i, ma. split; [done|]. split; [|done].
    simpl in Hc. by destruct (authorizedStatus ma) as [st|]; simpl in Hc; subst.
Qed.

Lemma pb_fetch_charge before rid p cents : pbGetPayment before rid = Ok p -> classifyPagBankPayment (gp_status p) = PaymentConfirmed ->
  gp_amountCents p = Some cents -> pagBankApproved rid cents.
Proof.
  intros Hf Hc%pb_confirmed Ha. left. unfold pbGetPayment, mbind, Res_bind in Hf. destruct (defined _) as [ch|] eqn:E; [|done].
  injection Hf as <-. apply request_success in E as [i Hi]. exists before, i, ch. done.
Qed.

Lemma pb_fetch_approved parsed p cents : fetched pagBankProvider parsed p ->
  classifyPagBankPayment (gp_status p) = PaymentConfirmed -> gp_amountCents p = Some cents ->
  exists rid, truthy (pw_resourceId parsed) = Some rid /\ pagBankApproved rid cents.
Proof.
  intros (before & rid & Hrid & Hf) Hc Ha. exists rid. split; [done|]. destruct Hf as [Hf|Hf]; simpl in Hf; [by eapply pb_fetch_charge|].
  unfold pbGetAuthorizedPayment in Hf. destruct (startsWith "SUBS_" rid) eqn:Esubs; [|cbn [negb] in Hf; by eapply pb_fetch_charge]. right. split; [done|].
  unfold mbind, Res_bind in Hf. cbn [negb] in Hf. destruct (defined (pbRequest (PbGetSubscription rid) before)) as [sub|] eqn:Es; [|done].
  match type of Hf with match ?x with _ => _ end = _ => destruct x as [invoice|] eqn:Ei; [|done] end.
  destruct (defined (pbRequest (PbGetInvoicePayments invoice) before)) as [payments|] eqn:Ep; [|done].
  destruct (newestPayment payments) as [payment|] eqn:En; [|done]. injection Hf as <-.
  apply request_success in Es as [i Hi]. apply request_success in Ep as [j Hj].
  exists before, i, j, sub, invoice, payments, payment. split_and!; try done. by apply pb_confirmed.
Qed.

(** C34: an order on file becomes paid only on the word of the gateway the notification is from:
    when a notification marks it paid, that gateway, asked for the notified resource, answered with
    a payment it calls approved (Mercado Pago) or paid (PagBank: the charge itself, or the newest
    payment of the last invoice of the notified subscription), of exactly the order's amount in
    cents. *)
Theorem paid_means_gateway_approved parsed name w r w' id o o' :
  ordersOk w -> process (H1 := adapters) now parsed name w = (r, w') ->
  findId id (db_orders (w_db w)) = Some o -> findId id (db_orders (w_db w')) = Some o' ->
  or_status o <> Ord_paid -> or_status o' = Ord_paid ->
  exists rid, truthy (pw_resourceId parsed) = Some rid /\
    if name =s "pagbank" then pagBankApproved rid (or_amountCents o) else mercadoPagoApproved rid (or_amountCents o).
Proof.
  intros Hok E Ho Ho' Hn Hp. destruct (registryGet (H := adapters) name) as [prov|e] eqn:Hreg.
  2:{ unfold process in E. rewrite Hreg in E. injection E as _ <-. congruence. }
  pose proof (process_orders_evolve (H1 := adapters) now parsed name prov w r w' Hok Hreg E) as Ev.
  assert (forall a b, webhookMove prov parsed a b -> rid b = rid a) as Hid by (intros a b [T _]; unfold terms in T; by injection T).
  destruct (evolves_findId _ _ _ id o Hid Ev Ho) as (o2 & Ho2 & Hm).
  assert (o2 = o') as -> by congruence. destruct Hm as [_ [Hs|(p & Hf & Hmove)]]; [congruence|]. rewrite Hp in Hmove.
  assert (pp_classifyPayment prov p = PaymentConfirmed /\ gp_amountCents p = Some (or_amountCents o)) as [Hc Ha].
  { destruct Hmove as [Hs|Hmove]; [congruence|]. destruct (pp_classifyPayment prov p); naive_solver. }
  unfold registryGet in Hreg. destruct (name =s "pagbank") eqn:En.
  - apply bool_decide_eq_true in En. subst. injection Hreg as <-. by eapply pb_fetch_approved.
  - destruct ((name =s "") || (name =s "mercadopago")); [|done]. injection Hreg as <-. by eapply mp_fetch_approved.
Qed.

End Justified.

(** ** Witnesses *)

#[local] Existing Instance Demo.platform.
#[local] Existing Instance DemoSub.laws.

Module DemoIntake.
Definition queueUp : Outside := {| agentReply _ _ := None |}.
Definition queueDown : Outside := {| agentReply _ _ := Some (External "redis down") |}.
Definition world : World := Eval vm_compute in DemoPay.ordered.
Definition note : ParsedWebhook := mkParsed "n1" "payment.updated" (Some res_payment) (Some "pay").

Definition config : ProviderConfig := {|
  MERCADOPAGO_ACCESS_TOKEN := Some "APP_USR-1"; MERCADOPAGO_WEBHOOK_SECRET := Some "secret"; MERCADOPAGO_NOTIFICATION_URL := None;
  PAGBANK_TOKEN := Some "token"; PAGBANK_RECURRING_ENABLED := None; PAGBANK_NOTIFICATION_URL := None |}.

(** A stand-in for the HMAC that keeps the text readable. *)
Definition hmac : Hmac := {| hmacSha256Hex secret text := secret +:+ "|" +:+ text |}.

Definition mpReq (signature : string) : WebhookRequestInput MpWebhookBody :=
  mkWebhookRequest (fun h => if h =s "x-signature" then Some (OneValue ("ts=17,v1=" +:+ signature)) else if h =s "x-request-id" then Some (OneValue "r-1") else None)
    (fun q => if q =s "data.id" then Some (OneValue "pay") else None) (mkMpBody (Some (IdNum 7)) (Some "payment") None (Some "payment.updated") None) None.

Definition signed : WebhookRequestInput MpWebhookBody := mpReq "secret|id:pay;request-id:r-1;ts:17;".

(** Mercado Pago reports the payment of the pending order, at the second attempt. *)
Definition approved : MpPayment :=
  mkMpPayment (IdStr "pay") "approved" None (Some "ord_ref-1") (Some (centsToAmount 2990)) None None (Some "BRL") (Some "pix") None None None None None None None None.
Definition http : MpHttp := {| mpSend T r before n :=
  match r in MpRequest T return HttpReply MercadoPagoErrorBody T with
  | MpGetPayment _ => if (n =? 2)%nat then Success (Some approved) else Refused 503 None
  | _ => Unreachable
  end |}.
Definition noPagBank : PbHttp := {| pbSend T r before n := Unreachable |}.
Definition unicode : Unicode := {| toUpperCase s := s; localeLe a b := true |}.

(** A stand-in for SHA-256 and for ECDSA. *)
Definition crypto : PbCrypto := {| Key := string; sha256Hex s := "sha:" +:+ s; createPublicKey pem := Ok pem; verifySha256 _ _ _ := Ok false |}.
Definition pbReq : WebhookRequestInput PagBankWebhookBody :=
  mkWebhookRequest (fun h => if h =s "x-authenticity-token" then Some (OneValue "sha:token-{}") else None) (fun _ => None)
    (mkPbBody (Some "n") None None None []) (Some "{}").
End DemoIntake.

Lemma notification_enqueued_once_witness :
  let run := @deliver DemoIntake.queueUp [("mercadopago", DemoIntake.note); ("mercadopago", DemoIntake.note)] DemoIntake.world in
  run.1 = Ok tt /\ enqueuedOnce run.2.
Proof.
  cbv zeta. apply (@notification_enqueued_once DemoIntake.queueUp [("mercadopago", DemoIntake.note); ("mercadopago", DemoIntake.note)] DemoIntake.world).
  split; [apply (bool_decide_unpack _); vm_compute; exact I|]. intros id Hid. vm_compute in Hid. by apply not_elem_of_nil in Hid.
Defined.

Lemma lost_notification_witness :
  let w1 := (@receiveParsed DemoIntake.queueDown "mercadopago" DemoIntake.note DemoIntake.world).2 in
  @deliver DemoIntake.queueDown [("mercadopago", DemoIntake.note)] w1 = (Ok tt, w1).
Proof.
  cbv zeta. destruct (@lost_notification DemoIntake.queueDown "mercadopago" DemoIntake.note DemoIntake.world (External "redis down")) as [_ Hl];
    [vm_compute; reflexivity|reflexivity|]. apply Hl. apply Forall_cons. split; [reflexivity|apply Forall_nil; exact I].
Defined.

Lemma only_signed_notifications_enter_witness :
  let run := @receiveMercadoPago DemoIntake.queueUp Demo.platform DemoIntake.config DemoIntake.hmac (DemoIntake.mpReq "forged") DemoIntake.world in
  (exists m, run.1 = Throw (Unauthorized m)) /\ run.2 = DemoIntake.world.
Proof.
  cbv zeta. destruct (@only_signed_notifications_enter Demo.platform DemoIntake.config DemoIntake.hmac DemoIntake.queueUp (DemoIntake.mpReq "forged")
    DemoIntake.world _ _ (surjective_pairing _)) as [(_ & p & Hp & _)|(_ & H)]; [vm_compute in Hp; discriminate Hp|exact H].
Defined.

Lemma signature_binds_resource_witness :
  exists p, @parseWebhook Demo.platform DemoIntake.config DemoIntake.hmac DemoIntake.signed = Ok p /\ pw_resourceId p = Some "pay".
Proof.
  destruct (@parseWebhook Demo.platform DemoIntake.config DemoIntake.hmac DemoIntake.signed) as [p|e] eqn:E; [|vm_compute in E; discriminate E].
  assert (@cleanRequest Demo.platform DemoIntake.signed) as C.
  { split_and!; intros s Hs; vm_compute in Hs; injection Hs as <-; reflexivity. }
  destruct (@signature_binds_resource Demo.platform DemoIntake.config DemoIntake.hmac DemoIntake.signed DemoIntake.signed p p E E eq_refl C C)
    as [(_ & _ & _)|_]; (exists p; split; [reflexivity|vm_compute in E; injection E as <-; reflexivity]).
Defined.

Lemma pagbank_notifications_authentic_witness :
  exists rawBody, wr_rawBody DemoIntake.pbReq = Some rawBody /\
    @pagBankSigned Demo.platform DemoIntake.config DemoIntake.noPagBank DemoIntake.crypto 3000 DemoIntake.pbReq (w_calls DemoIntake.world) None rawBody.
Proof.
  destruct (@pagbank_notifications_authentic Demo.platform DemoIntake.config DemoIntake.noPagBank DemoIntake.crypto 3000 DemoIntake.queueUp None DemoIntake.pbReq
    DemoIntake.world _ _ (surjective_pairing _)) as [(rawBody & p & Hr & Hs & _)|((e & He) & _)]; [exists rawBody; split; assumption|].
  vm_compute in He. discriminate He.
Defined.

Lemma paid_means_gateway_approved_witness :
  @mercadoPagoApproved DemoIntake.http "pay" 2990.
Proof.
  pose (run := @process Demo.platform DemoIntake.queueUp (@adapters Demo.platform DemoIntake.unicode DemoPay.config DemoIntake.config DemoIntake.http DemoIntake.noPagBank)
     3000 DemoIntake.note "mercadopago" DemoIntake.world).
  destruct (findId "id-2" (db_orders (w_db DemoIntake.world))) as [o|] eqn:Eo; [|vm_compute in Eo; discriminate Eo].
  destruct (findId "id-2" (db_orders (w_db run.2))) as [o'|] eqn:Eo'; [|vm_compute in Eo'; discriminate Eo'].
  destruct (@paid_means_gateway_approved Demo.platform DemoIntake.unicode DemoPay.config DemoIntake.config DemoIntake.http DemoIntake.noPagBank DemoIntake.queueUp
     DemoSub.laws 3000 DemoIntake.note "mercadopago" DemoIntake.world run.1 run.2 "id-2" o o' demo_ordered_ok (surjective_pairing _) Eo Eo') as (rid & Hr & Ha).
  - vm_compute in Eo. injection Eo as <-. discriminate.
  - vm_compute in Eo'. injection Eo' as <-. reflexivity.
  - vm_compute in Eo. injection Eo as <-. vm_compute in Hr. injection Hr as <-. exact Ha.
Defined.
