(* ===== verification/Transfers.v ===== *)
(** Transfers: moving a server between nodes.

    [transfers/transfers.service.ts]: [initiate] reserves under the target node's
    lock, [runPipeline] drives the agents as far as [restoring], and [handleResult],
    called back by the target agent, decides the outcome.  The gateway reconcile
    that follows a success is only asked for sooner, so it has no effect here. *)

From S2P Require Import Prelude JsNum Capacity Store Scheduler Subscriptions JsString Servers.
From Stdlib Require Import Ascii String Lia.

Local Open Scope Z_scope.

(** The constraints on [allocations] (migration 0001): a primary allocation has a
    server, and a server has at most one primary allocation. *)
Definition allocationsOk (l : list Allocation) : bool :=
  forallb (fun a => negb (al_isPrimary a) || bool_decide (is_Some (al_serverId a))) l &&
  bool_decide (NoDup (map al_serverId (List.filter al_isPrimary l))).

(** The two writes a transfer makes to an allocation: taking it, without making it
    the server's primary one, and giving it back. *)
Definition reserve (sid : string) (a : Allocation) : Allocation := a <| al_serverId := Some sid |> <| al_isPrimary := false |>.
Definition clearAlloc (a : Allocation) : Allocation := a <| al_serverId := None |> <| al_isPrimary := false |>.

(** [tx.allocation.updateMany]. *)
Definition updateAllocations (p : Allocation -> bool) (f : Allocation -> Allocation) : MW unit :=
  rows ← gets (fun w => updWhere p f (db_allocations (w_db w)));
  if allocationsOk rows then onDb (fun d => d <| db_allocations := rows |>)
  else throw (CheckViolation "allocations").

(** [tx.allocation.update({ where: { id } })]. *)
Definition updateAllocationRow (id : Z) (f : Allocation -> Allocation) : MW unit :=
  rows ← gets (fun w => db_allocations (w_db w));
  if existsb (fun a => al_id a =? id) rows then updateAllocations (fun a => al_id a =? id) f
  else throw RecordNotFound.

Section Transfers.
Context `{Platform} `{Outside} (now : Z).

(** [capabilityToken.mint]: outside this file; it may throw. *)
Context (mint : string -> Res unit).

Definition isActive (t : Transfer) : bool := bool_decide (tr_status t ∈ ACTIVE_TRANSFER_STATUSES).

(** [tx.serverTransfer.create]; one active transfer per server ([transfers_one_active]). *)
Definition createTransferRow (t : Transfer) : MW unit :=
  rows ← gets (fun w => db_transfers (w_db w));
  if isActive t && existsb (fun x => (tr_serverId x =s tr_serverId t) && isActive x) rows
  then throw (UniqueViolation "transfers_one_active")
  else onDb (fun d => d <| db_transfers := db_transfers d ++ [t] |>).

Definition targetAllocation (targetNodeId : string) (requested : option string) : MW Allocation :=
  d ← gets w_db;
  match truthy requested with
  | Some a =>
    id ← orThrow (bigInt a) (External "SyntaxError: Cannot convert to a BigInt");
    orThrow (findFirst (fun x => (al_id x =? id) && (al_nodeId x =s targetNodeId) && (al_serverId x =s None)) (db_allocations d))
      (Conflict "Requested allocation is not free")
  | None =>
    orThrow (pickFreeAllocation d targetNodeId) (Conflict "No free allocation available on the target node")
  end.

(** The transaction of [initiate]. *)
Definition initiateTx (server : Server) (targetNodeId : string) (requested : option string) : MW string :=
  d ← gets w_db;
  targetNode ← orThrow (findFirst (fun n => (nd_id n =s targetNodeId) && (nd_deletedAt n =s None)) (db_nodes d))
                 (NotFound "Target node not found");
  match acceptanceOf now targetNode with
  | Some reason => throw (Conflict ("Target node unavailable: " +:+ reason))
  | None => mret tt
  end ;;
  lift (assertNodeFits (rc_inputs (resolveNodeCapacity now (nd_config targetNode))) (usageForNode d targetNodeId)
          (mkRequest (sv_memoryMb server) (sv_diskMb server) (sv_cpuLimitPercent server))) ;;
  allocation ← targetAllocation targetNodeId requested;
  n ← freshN;
  createTransferRow (mkTransfer (uuidv7 n) (sv_id server) (sv_nodeId server) targetNodeId (Some (al_id allocation))
    (Some (nextUid d targetNodeId)) Tr_pending None None None) ;;
  updateAllocationRow (al_id allocation) (reserve (sv_id server)) ;;
  updateServer (sv_id server) (fun s => s <| sv_status := Srv_transferring |>) ;;
  mret (uuidv7 n).

Definition fail (transferId errorMessage : string) (serverId : option string) : MW unit :=
  transfer ← withRLS (
    row ← updateTransfer transferId (fun t => t <| tr_status := Tr_failed |> <| tr_errorMessage := Some errorMessage |>
            <| tr_completedAt := Some now |>);
    match tr_targetAllocationId row with
    | Some a => updateAllocationRow a clearAlloc
    | None => mret tt
    end ;;
    updateServer (tr_serverId row) (fun s => s <| sv_status := Srv_ready |>) ;;
    mret row);
  record "server.transfer.failed" None "server" (default (tr_serverId transfer) serverId).

Definition setStatus (transferId : string) (f : Transfer -> Transfer) : MW unit :=
  withRLS (updateTransfer transferId f) ;; mret tt.

Definition initiate (serverId targetNodeId : string) (requested : option string) (actorId : string) : MW string :=
  d ← gets w_db;
  server ← orThrow (findId serverId (db_servers d)) (NotFound "Server not found");
  throwIf (sv_nodeId server =s targetNodeId) (Conflict "Server is already on that node") ;;
  throwIf (negb (sv_status server =s Srv_ready))
    (Conflict ("Server must be ready to transfer (current status: " +:+ serverStatusStr (sv_status server) +:+ ")")) ;;
  transferId ← withRLS (initiateTx server targetNodeId requested);
  record "server.transfer.initiated" (Some actorId) "server" serverId ;;
  tryCatch (enqueue (EnqueueTransfer transferId)) (fun err =>
    fail transferId ("failed to enqueue: " +:+ message err) None ;; throw err) ;;
  mret transferId.

(** The rows [runPipeline] reads in one transaction; all must exist. *)
Definition pipelineRows (t : Transfer) : MW (Server * option Allocation) :=
  d ← gets w_db;
  server ← orThrow (findId (tr_serverId t) (db_servers d)) RecordNotFound;
  orThrow (findId (tr_sourceNodeId t) (db_nodes d)) RecordNotFound ;;
  orThrow (findId (tr_targetNodeId t) (db_nodes d)) RecordNotFound ;;
  match tr_targetAllocationId t with
  | None => mret (server, None)
  | Some a =>
    al ← orThrow (findFirst (fun x => al_id x =? a) (db_allocations d)) RecordNotFound;
    mret (server, Some al)
  end.

(** The uid decided at [initiate], or computed and stored now for an older row. *)
Definition resolveUid (t : Transfer) : MW Z :=
  match tr_targetUid t with
  | Some u => mret u
  | None =>
    computed ← withRLS (gets (fun w => nextUid (w_db w) (tr_targetNodeId t)));
    withRLS (updateTransfer (tr_id t) (fun x => x <| tr_targetUid := Some computed |>)) ;;
    mret computed
  end.

(** The [try] block of [runPipeline]. *)
Definition pipelineSteps (t : Transfer) : MW unit :=
  '(server, targetAl) ← withRLS (pipelineRows t);
  orThrow targetAl (External "transfer has no target allocation") ;;
  setStatus (tr_id t) (fun x => x <| tr_status := Tr_archiving |> <| tr_startedAt := Some now |>) ;;
  tryCatch (agentCall (AgentStop (tr_sourceNodeId t) (tr_serverId t))) (fun _ => mret tt) ;;
  agentCall (AgentExport (tr_sourceNodeId t) (tr_serverId t)) ;;
  setStatus (tr_id t) (fun x => x <| tr_status := Tr_uploading |>) ;;
  lift (mint (tr_serverId t)) ;;
  uid ← resolveUid t;
  agentCall (AgentImport (tr_targetNodeId t) (sv_id server) (tr_id t) uid) ;;
  setStatus (tr_id t) (fun x => x <| tr_status := Tr_restoring |>).

Definition runPipeline (transferId : string) : MW unit :=
  d ← gets w_db;
  match findId transferId (db_transfers d) with
  | None => mret tt
  | Some t => tryCatch (pipelineSteps t) (fun err => fail transferId (message err) None)
  end.

(** The rows a success writes. *)
Definition arrive (t : Transfer) (s : Server) : Server :=
  s <| sv_nodeId := tr_targetNodeId t |> <| sv_uid := tr_targetUid t |> <| sv_status := Srv_ready |>.
Definition succeeded (t : Transfer) : Transfer := t <| tr_status := Tr_success |> <| tr_completedAt := Some now |>.

(** The transaction of a successful [handleResult]. *)
Definition succeedTx (transfer : Transfer) : MW unit :=
  updateAllocations (fun a => (al_serverId a =s Some (tr_serverId transfer)) && (al_nodeId a =s tr_sourceNodeId transfer))
    clearAlloc ;;
  match tr_targetAllocationId transfer with
  | Some a => updateAllocationRow a (fun a => a <| al_isPrimary := true |>)
  | None => mret tt
  end ;;
  updateServer (tr_serverId transfer) (arrive transfer) ;;
  updateTransfer (tr_id transfer) succeeded ;;
  mret tt.

Definition handleResult (nodeId transferId : string) (successful : bool) (errorMessage : option string) : MW unit :=
  d ← gets w_db;
  transfer ← orThrow (findId transferId (db_transfers d)) (NotFound "Transfer not found");
  throwIf (negb (tr_targetNodeId transfer =s nodeId)) (NotFound "Transfer not found on this node") ;;
  if successful then
    withRLS (succeedTx transfer) ;;
    record "server.transfer.succeeded" None "server" (tr_serverId transfer) ;;
    tryCatch (agentCall (AgentDelete (tr_sourceNodeId transfer) (tr_serverId transfer))) (fun _ => mret tt)
  else fail transferId (default "target node reported failure" errorMessage) (Some (tr_serverId transfer)).

End Transfers.

(** ** Lemmas: allocation tables *)

Lemma allocationsOk_spec l : allocationsOk l = true <->
  (forall a, a ∈ l -> al_isPrimary a = true -> is_Some (al_serverId a)) /\ NoDup (map al_serverId (List.filter al_isPrimary l)).
Proof.
  unfold allocationsOk. rewrite andb_true_iff, bool_decide_eq_true, forallb_forall. split; intros [A B]; split; try done.
  - intros a Ha Hp. apply list_elem_of_In in Ha. specialize (A a Ha). rewrite Hp in A. by apply bool_decide_eq_true in A.
  - intros a Ha. destruct (al_isPrimary a) eqn:E; [|done]. simpl. apply bool_decide_eq_true, A; [by apply list_elem_of_In|done].
Qed.

Lemma primary_sublist p f l : (forall a, al_isPrimary (f a) = false) ->
  map al_serverId (List.filter al_isPrimary (updWhere p f l)) `sublist_of` map al_serverId (List.filter al_isPrimary l).
Proof.
  intros Hf. unfold updWhere. induction l as [|a l IH]; simpl; [constructor|]. destruct (p a); simpl.
  - rewrite Hf. destruct (al_isPrimary a); simpl; [by apply sublist_cons|done].
  - destruct (al_isPrimary a); simpl; [by apply sublist_skip|done].
Qed.

(** A write that leaves no touched allocation primary breaks no constraint. *)
Lemma unprimary_ok p f l : (forall a, al_isPrimary (f a) = false) -> allocationsOk l = true -> allocationsOk (updWhere p f l) = true.
Proof.
  rewrite !allocationsOk_spec. intros Hf [A B]. split.
  - intros a' Ha. apply updWhere_elem in Ha as (a & Ha & ->). destruct (p a); [by rewrite Hf|by apply A].
  - eapply sublist_NoDup; [exact B|by apply primary_sublist].
Qed.

(** Making a server's only allocation primary breaks no constraint. *)
Lemma primary_ok t s l : NoDup (map al_id l) -> allocationsOk l = true ->
  (forall a, a ∈ l -> al_id a = t -> al_serverId a = Some s) ->
  (forall a, a ∈ l -> al_isPrimary a = true -> al_serverId a <> Some s) ->
  allocationsOk (updWhere (fun a => al_id a =? t) (fun a => a <| al_isPrimary := true |>) l) = true.
Proof.
  rewrite !allocationsOk_spec. intros Hn [A B] Ht Hs. split.
  - intros a' Ha. apply updWhere_elem in Ha as (a & Ha & ->). destruct (Z.eqb_spec (al_id a) t) as [E|E]; [|by apply A].
    intros _. simpl. rewrite (Ht a Ha E). eauto.
  - clear A. unfold updWhere. induction l as [|a l IH]; simpl; [constructor|].
    simpl in Hn, B. apply NoDup_cons in Hn as [Hna Hnl].
    assert (forall x, x ∈ l -> x ∈ a :: l) as Sub by (intros; apply elem_of_cons; by right).
    assert (NoDup (map al_serverId (List.filter al_isPrimary l))) as Bl by (destruct (al_isPrimary a); [by apply NoDup_cons in B as [_ B]|done]).
    specialize (IH Hnl Bl (fun x Hx => Ht x (Sub x Hx)) (fun x Hx => Hs x (Sub x Hx))).
    assert (forall x, x ∈ map al_serverId (List.filter al_isPrimary (map (fun r => if al_id r =? t then r <| al_isPrimary := true |> else r) l)) ->
      x = Some s \/ x ∈ map al_serverId (List.filter al_isPrimary l)) as Mem.
    { clear -Ht Sub. intros x Hx. apply list_elem_of_In, in_map_iff in Hx as (b & <- & Hb). apply filter_In in Hb as [Hb Pb].
      apply in_map_iff in Hb as (c & <- & Hc). destruct (Z.eqb_spec (al_id c) t) as [E|E].
      - left. simpl. apply Ht; [apply Sub; by apply list_elem_of_In|done].
      - right. apply list_elem_of_In, in_map, filter_In. done. }
    destruct (Z.eqb_spec (al_id a) t) as [E|E]; simpl.
    + apply NoDup_cons. split; [|done]. rewrite (Ht a) by (try done; apply elem_of_cons; by left).
      match goal with |- context [List.filter al_isPrimary ?m] => assert (m = l) as -> end.
      { rewrite <- (map_id l) at 2. apply map_ext_in. intros b Hb. destruct (Z.eqb_spec (al_id b) t) as [Eb|]; [|done].
        exfalso. apply Hna. rewrite E, <- Eb. apply list_elem_of_In, in_map, Hb. }
      intros Hx. apply list_elem_of_In, in_map_iff in Hx as (b & Eb & Hb). apply filter_In in Hb as [Hb Pb].
      apply list_elem_of_In in Hb. by apply (Hs b (Sub b Hb) Pb).
    + destruct (al_isPrimary a) eqn:Pa; simpl; [|done]. apply NoDup_cons. split; [|done].
      intros [F|F]%Mem; [apply (Hs a); try done; apply elem_of_cons; by left|].
      by apply NoDup_cons in B as [B _].
Qed.

(** ** Lemmas: a committed reservation *)

Section TransferLemmas.
Context `{Platform} `{Outside} (now : Z).

Lemma updateAllocations_ok p f w u w' : updateAllocations p f w = (Ok u, w') ->
  allocationsOk (updWhere p f (db_allocations (w_db w))) = true /\
  w' = w <| w_db := (w_db w) <| db_allocations := updWhere p f (db_allocations (w_db w)) |> |>.
Proof. unfold updateAllocations, onDb. intros Hr. mok. subst. destruct (allocationsOk _); mok; by subst. Qed.

Lemma updateAllocations_run p f w : allocationsOk (updWhere p f (db_allocations (w_db w))) = true ->
  updateAllocations p f w = (Ok tt, w <| w_db := (w_db w) <| db_allocations := updWhere p f (db_allocations (w_db w)) |> |>).
Proof. intros E. unfold updateAllocations, mbind, M_bind, gets, onDb, modify. by rewrite E. Qed.

Lemma updateAllocationRow_ok id f w u w' : updateAllocationRow id f w = (Ok u, w') ->
  updateAllocations (fun a => al_id a =? id) f w = (Ok u, w').
Proof. unfold updateAllocationRow. intros Hr. apply bind_ok in Hr as (? & ? & E & Hr). mok. subst. destruct (existsb _ _); [done|mok]. Qed.

Lemma updateAllocationRow_run id f w a : a ∈ db_allocations (w_db w) -> al_id a = id ->
  updateAllocationRow id f w = updateAllocations (fun a => al_id a =? id) f w.
Proof.
  intros Ha Hid. unfold updateAllocationRow, mbind, M_bind, gets. assert (existsb (fun a => al_id a =? id) (db_allocations (w_db w)) = true) as ->; [|done].
  apply existsb_exists. exists a. split; [by apply list_elem_of_In|lia].
Qed.

Lemma updateTransfer_run id f w t : findId id (db_transfers (w_db w)) = Some t ->
  updateTransfer id f w = (Ok (f t), w <| w_db := (w_db w) <| db_transfers := updId id f (db_transfers (w_db w)) |> |>).
Proof. intros E. unfold updateTransfer, mbind, M_bind, gets, onDb, modify, mret, M_ret. by rewrite E. Qed.

Lemma targetAllocation_ok n req w a w' : targetAllocation n req w = (Ok a, w') ->
  w' = w /\ a ∈ db_allocations (w_db w) /\ al_nodeId a = n /\ al_serverId a = None.
Proof.
  unfold targetAllocation. intros Hr. mok. destruct (truthy _) as [aid|]; mok; split; try done.
  - match goal with Hf : findFirst _ _ = Some _ |- _ => apply findFirst_some in Hf as [? E] end.
    rewrite !andb_true_iff, !bool_decide_eq_true in E. subst. naive_solver.
  - subst. by apply pickFreeAllocation_some.
Qed.

Definition toTransferring (s : Server) : Server := s <| sv_status := Srv_transferring |>.

(** The effect of the reservation transaction. *)
Record Initiated (server : Server) (target : string) (w w' : World) (tid : string) (node : Node) (al : Allocation) (n : N) : Prop := {
  in_node : node ∈ db_nodes (w_db w) /\ nd_id node = target /\ nd_deletedAt node = None /\ acceptanceOf now node = None;
  in_fits : nodeFits (rc_inputs (resolveNodeCapacity now (nd_config node))) (usageForNode (w_db w) target)
              (mkRequest (sv_memoryMb server) (sv_diskMb server) (sv_cpuLimitPercent server));
  in_alloc : al ∈ db_allocations (w_db w) /\ al_nodeId al = target /\ al_serverId al = None;
  in_id : n = w_next w /\ tid = uuidv7 n;
  in_transfers : db_transfers (w_db w') = db_transfers (w_db w) ++
    [mkTransfer tid (sv_id server) (sv_nodeId server) target (Some (al_id al)) (Some (nextUid (w_db w) target)) Tr_pending None None None];
  in_allocations : db_allocations (w_db w') = updWhere (fun a => al_id a =? al_id al) (reserve (sv_id server)) (db_allocations (w_db w));
  in_servers : db_servers (w_db w') = updId (sv_id server) toTransferring (db_servers (w_db w));
  in_nodes : db_nodes (w_db w') = db_nodes (w_db w);
  in_calls : w_calls w' = w_calls w }.

Lemma initiateTx_ok server target req w tid w' : initiateTx now server target req w = (Ok tid, w') ->
  exists node al n, Initiated server target w w' tid node al n.
Proof.
  unfold initiateTx. intros Hr. apply bind_ok in Hr as (d & ? & E & Hr). apply gets_ok in E as [[= ->] ->].
  apply bind_ok in Hr as (node & ? & E & Hr). apply orThrow_ok in E as [Hnode ->].
  apply findFirst_some in Hnode as [Hn Hn']. rewrite andb_true_iff, !bool_decide_eq_true in Hn'. destruct Hn' as [Hid Hdel].
  apply bind_ok in Hr as (? & ? & E & Hr). destruct (acceptanceOf now node) eqn:Ea; [mok|]. apply mret_ok in E as [_ ->].
  apply bind_ok in Hr as (? & ? & E & Hr). apply lift_ok in E as [Hfit ->]. destruct x0. apply assertNodeFits_ok in Hfit.
  apply bind_ok in Hr as (al & ? & E & Hr). apply targetAllocation_ok in E as (-> & Hal).
  apply bind_ok in Hr as (n & w1 & E & Hr). injection E as <- <-.
  apply bind_ok in Hr as (? & w2 & E2 & Hr). unfold createTransferRow in E2. apply bind_ok in E2 as (? & ? & E & E2). apply gets_ok in E as [_ ->].
  destruct (_ && _); [mok|]. apply modify_ok in E2 as [_ ->].
  apply bind_ok in Hr as (? & w3 & E3 & Hr). apply updateAllocationRow_ok, updateAllocations_ok in E3 as [_ ->].
  apply bind_ok in Hr as (? & w4 & E4 & Hr). apply updateServer_ok in E4 as (? & _ & _ & _ & ->). apply mret_ok in Hr as [[= ->] ->].
  exists node, al, (w_next w). split; try done.
Qed.
End TransferLemmas.

Section TransferTheorems.
Context `{Platform} `{Outside} (now later : Z).

(** What the schema guarantees of the tables a transfer touches. *)
Definition transferOk (w : World) : Prop :=
  allocationsOk (db_allocations (w_db w)) = true /\ NoDup (map al_id (db_allocations (w_db w))) /\
  (forall s, s ∈ db_servers (w_db w) -> serverRowOk s = true) /\
  (forall n, (w_next w <= n)%N -> findId (uuidv7 n) (db_transfers (w_db w)) = None).

Lemma initiate_ok sid target req actor w tid w' : initiate now sid target req actor w = (Ok tid, w') ->
  exists server node al n w1, findId sid (db_servers (w_db w)) = Some server /\ sv_id server = sid /\ sv_nodeId server <> target /\
    sv_status server = Srv_ready /\ Initiated now server target w w1 tid node al n /\
    w_db w' = w_db w1 /\ w_calls w' = w_calls w1 ++ [EnqueueTransfer tid].
Proof.
  unfold initiate. intros Hr. apply bind_ok in Hr as (d & ? & E & Hr). apply gets_ok in E as [[= ->] ->].
  apply bind_ok in Hr as (server & ? & E & Hr). apply orThrow_ok in E as [Hs ->].
  apply bind_ok in Hr as (? & ? & E & Hr). apply throwIf_ok in E as [Hn ->]. apply bool_decide_eq_false in Hn.
  apply bind_ok in Hr as (? & ? & E & Hr). apply throwIf_ok in E as [Hst ->]. apply negb_false_iff, bool_decide_eq_true in Hst.
  apply bind_ok in Hr as (tid' & w1 & E & Hr). rewrite withRLS_ok in E. apply initiateTx_ok in E as (node & al & n & I).
  apply bind_ok_record in Hr as (w2 & D2 & C2 & Hr). apply bind_ok in Hr as (? & w3 & E3 & Hr). apply mret_ok in Hr as [[= ->] ->].
  apply tryCatch_inv in E3 as [(? & E3 & _)|(e & w4 & _ & E3)]; [|apply bind_ok in E3 as (? & ? & _ & E3); by apply throw_ok in E3].
  unfold enqueue, agentCall, mbind, M_bind, gets, call, modify in E3. simpl in E3. destruct (agentReply _ _); [done|]. injection E3 as _ <-. simpl.
  exists server, node, al, n, w1. split_and!; try done; [by apply findId_some in Hs as [_ ?]|by rewrite C2].
Qed.

(** The server row as it is during the transfer. *)
Lemma initiated_server w server : findId (sv_id server) (db_servers (w_db w)) = Some server ->
  findId (sv_id server) (updId (sv_id server) toTransferring (db_servers (w_db w))) = Some (toTransferring server).
Proof. intros E. by apply findId_updId. Qed.

Lemma updId_twice {R} `{Row R} id f g (l : list R) r : findId id l = Some r -> rid (f r) = rid r ->
  updId id g (updId id f l) = updId id (fun x => g (f x)) l.
Proof.
  unfold findId, findFirst, updId. induction l as [|x l IH]; simpl; [done|]. destruct (bool_decide (rid x = id)) eqn:E; simpl.
  - intros [= ->] ->. by rewrite E.
  - rewrite E. intros Hf Hr. by rewrite IH.
Qed.

Lemma updId_same {R} `{Row R} id f (l : list R) r : findId id l = Some r -> f r = r -> updId id f l = l.
Proof.
  unfold findId, findFirst, updId. induction l as [|x l IH]; simpl; [done|]. destruct (bool_decide (rid x = id)); simpl.
  - by intros [= ->] ->.
  - intros Hf Hr. by rewrite IH.
Qed.

Lemma tryCall_run c w : exists w', tryCatch (agentCall c) (fun _ => mret tt) w = (Ok tt, w') /\ w_db w' = w_db w.
Proof.
  unfold tryCatch, agentCall, mbind, M_bind, gets, call, modify. destruct (agentReply _ _); simpl; eauto.
Qed.

Lemma handleResult_run tid ok msg w t : findId tid (db_transfers (w_db w)) = Some t ->
  forall target, tr_targetNodeId t = target ->
  handleResult later target tid ok msg w =
    (if ok then
       withRLS (succeedTx later t) ;; record "server.transfer.succeeded" None "server" (tr_serverId t) ;;
       tryCatch (agentCall (AgentDelete (tr_sourceNodeId t) (tr_serverId t))) (fun _ => mret tt)
     else fail later tid (default "target node reported failure" msg) (Some (tr_serverId t))) w.
Proof.
  intros Ht target <-. unfold handleResult, mbind at 1, M_bind at 1, gets at 1. rewrite Ht.
  unfold mbind at 1, M_bind at 1, orThrow, mret at 1, M_ret at 1. rewrite bool_decide_eq_true_2 by done. by destruct ok.
Qed.

(** What a transfer was started for: everything of its row but its progress. *)
Definition agreed (t : Transfer) := (tr_serverId t, tr_sourceNodeId t, tr_targetNodeId t, tr_targetAllocationId t, tr_targetUid t).

(** What may happen between the start of a transfer and the report of the target node: anything,
    the pipeline and every other service included, that leaves what the transfer was started for,
    the allocations of its server and the server's being in transfer as they are, and the
    constraints of the tables. *)
Record meanwhile (sid tid : string) (w1 v : World) : Prop := {
  mw_transfer t : findId tid (db_transfers (w_db w1)) = Some t -> exists t', findId tid (db_transfers (w_db v)) = Some t' /\ agreed t' = agreed t;
  mw_server s : findId sid (db_servers (w_db w1)) = Some s ->
    exists s', findId sid (db_servers (w_db v)) = Some s' /\ sv_status s' = Srv_transferring /\ serverRowOk s' = true;
  mw_allocationsOk : allocationsOk (db_allocations (w_db v)) = true;
  mw_allocationIds : NoDup (map al_id (db_allocations (w_db v)));
  mw_allocations x : al_serverId x = Some sid -> x ∈ db_allocations (w_db v) <-> x ∈ db_allocations (w_db w1) }.

(** Whatever happened meanwhile, the report finds this. *)
Record InFlight (w v : World) (server : Server) (target tid : string) (al : Allocation) (s' : Server) (t' : Transfer) : Prop := {
  fl_transfer : findId tid (db_transfers (w_db v)) = Some t' /\ agreed t' = (sv_id server, sv_nodeId server, target, Some (al_id al), Some (nextUid (w_db w) target));
  fl_server : findId (sv_id server) (db_servers (w_db v)) = Some s' /\ sv_status s' = Srv_transferring /\ serverRowOk s' = true;
  fl_ok : allocationsOk (db_allocations (w_db v)) = true /\ NoDup (map al_id (db_allocations (w_db v)));
  fl_free : al ∈ db_allocations (w_db w) /\ al_nodeId al = target /\ al_serverId al = None /\ al_isPrimary al = false;
  fl_reserved : reserve (sv_id server) al ∈ db_allocations (w_db v);
  fl_held x : x ∈ db_allocations (w_db v) -> al_serverId x = Some (sv_id server) -> x = reserve (sv_id server) al \/ x ∈ db_allocations (w_db w) }.

Lemma inFlight sid target req actor w tid w1 v : transferOk w -> initiate now sid target req actor w = (Ok tid, w1) -> meanwhile sid tid w1 v ->
  exists server al s' t', findId sid (db_servers (w_db w)) = Some server /\ sv_id server = sid /\ sv_nodeId server <> target /\
    sv_status server = Srv_ready /\ InFlight w v server target tid al s' t'.
Proof.
  intros (Hok & Hnd & Hrow & Hfresh) Hi M. apply initiate_ok in Hi as (server & node & al & n & v0 & Hs & <- & Hne & Hst & I & D & _).
  destruct I as [_ _ (Ha & Hn & Hfree) [-> ->] It Ia Is _ _]. set (t := mkTransfer _ _ _ _ _ _ _ _ _ _) in It.
  assert (findId (uuidv7 (w_next w)) (db_transfers (w_db w1)) = Some t) as Ht.
  { rewrite D, It, findId_app_none by (apply Hfresh; lia). by rewrite bool_decide_eq_true_2. }
  destruct (mw_transfer _ _ _ _ M t Ht) as (t' & Ht' & Et').
  destruct (mw_server _ _ _ _ M (toTransferring server)) as (s' & Hs' & Hs2 & Hs3); [rewrite D, Is; by apply initiated_server|].
  exists server, al, s', t'. split_and!; try done. split; try done.
  - split; [apply M|apply M].
  - split_and!; try done. apply allocationsOk_spec in Hok as [Hp _]. destruct (al_isPrimary al) eqn:E; [|done]. destruct (Hp _ Ha E). congruence.
  - apply (mw_allocations _ _ _ _ M); [done|]. rewrite D, Ia. apply updWhere_elem. exists al. by rewrite Z.eqb_refl.
  - intros x Hx Hxs. apply (mw_allocations _ _ _ _ M x Hxs) in Hx. rewrite D, Ia in Hx. apply updWhere_elem in Hx as (y & Hy & ->).
    destruct (Z.eqb_spec (al_id y) (al_id al)) as [E|E]; [left|by right]. f_equal. by apply (NoDup_map_inj al_id (db_allocations (w_db w))).
Qed.

(** C26: a failure reported by the target node for a transfer under way always takes, whatever
    happened [meanwhile]: the port that was reserved is free again, exactly as before the transfer
    started, and no other allocation changes; the server is ready again, on the node it was on, with
    nothing else of its row changed, and no other server changes.  So when nothing else happened the
    servers and the allocations are exactly as before the transfer started.  A report that comes
    after the transfer was settled is outside the claim: [late_failure_takes_port]. *)
Theorem failed_transfer_restores sid target req actor w tid w1 v msg :
  transferOk w -> initiate now sid target req actor w = (Ok tid, w1) -> meanwhile sid tid w1 v ->
  exists w2 al, handleResult later target tid false msg v = (Ok tt, w2) /\
    al ∈ db_allocations (w_db w) /\ al_serverId al = None /\
    db_allocations (w_db w2) = updWhere (fun a => al_id a =? al_id al) (fun _ => al) (db_allocations (w_db v)) /\
    db_servers (w_db w2) = updId sid (fun s => s <| sv_status := Srv_ready |>) (db_servers (w_db v)) /\
    (db_servers (w_db v) = db_servers (w_db w1) -> db_allocations (w_db v) = db_allocations (w_db w1) ->
     db_servers (w_db w2) = db_servers (w_db w) /\ db_allocations (w_db w2) = db_allocations (w_db w)).
Proof.
  intros Hw Hi M. destruct (inFlight _ _ _ _ _ _ _ _ Hw Hi M) as (server & al & s' & t' & Hs & <- & Hne & Hst & F).
  destruct F as [[Ht' [= E1 E2 E3 E4 E5]] (Hs' & Hs2 & Hs3) [Fok Fnd] (Ha & Hn & Hfree & Hpr) Hres Hheld].
  rewrite (handleResult_run _ _ _ _ _ Ht') by done.
  unfold fail, mbind at 1, M_bind at 1, withRLS at 1, mbind at 1, M_bind at 1. rewrite (updateTransfer_run _ _ _ _ Ht'). simpl tr_targetAllocationId.
  rewrite E4. set (w2 := v <| w_db := _ |>). unfold mbind at 1, M_bind at 1.
  assert (updWhere (fun a => al_id a =? al_id al) clearAlloc (db_allocations (w_db v)) = updWhere (fun a => al_id a =? al_id al) (fun _ => al) (db_allocations (w_db v))) as A3.
  { unfold updWhere. apply map_ext_in. intros a Hin%list_elem_of_In. destruct (Z.eqb_spec (al_id a) (al_id al)) as [E|E]; [|done].
    assert (a = reserve (sv_id server) al) as -> by (by apply (NoDup_map_inj al_id (db_allocations (w_db v)))).
    destruct al as [i nd ip port sv pr]; simpl in *. by subst. }
  rewrite (updateAllocationRow_run (al_id al) _ w2 _ Hres eq_refl).
  rewrite updateAllocations_run by (by apply unprimary_ok). unfold mbind at 1, M_bind at 1. simpl tr_serverId. rewrite E1.
  set (w3 := w2 <| w_db := _ |>). assert (findId (sv_id server) (db_servers (w_db w3)) = Some s') as Hs4 by done.
  rewrite (updateServer_run _ _ _ _ Hs4) by (unfold serverRowOk in *; simpl; by rewrite Hs2 in Hs3).
  eexists _, al. split; [reflexivity|]. simpl. rewrite A3. split_and!; [done|done|done|done|].
  intros Ev1 Ev2. rewrite Ev1, Ev2. destruct Hw as (Hok & Hnd & Hrow & Hfresh).
  apply initiate_ok in Hi as (server0 & node & al0 & n & v0 & Hs0 & Eid & _ & _ & I & D & _).
  assert (server0 = server) as -> by congruence. destruct I as [_ _ (Ha0 & _ & Hfree0) [-> ->] It Ia Is _ _].
  assert (al_id al0 = al_id al) as Eal.
  { destruct (mw_transfer _ _ _ _ M (mkTransfer (uuidv7 (w_next w)) (sv_id server) (sv_nodeId server) target (Some (al_id al0)) (Some (nextUid (w_db w) target)) Tr_pending None None None)) as (t2 & Ht2 & Et2).
    - rewrite D, It, findId_app_none by (apply Hfresh; lia). by rewrite bool_decide_eq_true_2.
    - rewrite Ht' in Ht2. injection Ht2 as <-. unfold agreed in Et2. simpl in Et2. injection Et2 as _ _ _ Ea _. congruence. }
  rewrite D, Is, Ia. split.
  - rewrite (updId_twice _ _ _ _ server); [|exact Hs|done]. apply (updId_same _ _ _ server); [done|]. destruct server; simpl in *; by subst.
  - rewrite Eal. unfold updWhere. rewrite map_map. rewrite <- (map_id (db_allocations (w_db w))) at 2. apply map_ext_in. intros a Hin%list_elem_of_In.
    destruct (Z.eqb_spec (al_id a) (al_id al)) as [E|E]; simpl; [|by rewrite (proj2 (Z.eqb_neq _ _) E)].
    rewrite E, Z.eqb_refl. symmetry. by apply (NoDup_map_inj al_id (db_allocations (w_db w))).
Qed.

(** The allocations of a server once the source's are cleared and the target's is primary. *)
Definition movedAllocs (sid src : string) (a : Z) (l : list Allocation) : list Allocation :=
  updWhere (fun x => al_id x =? a) (fun x => x <| al_isPrimary := true |>)
    (updWhere (fun x => (al_serverId x =s Some sid) && (al_nodeId x =s src)) clearAlloc l).

Lemma succeedTx_run t a w server al :
  tr_targetAllocationId t = Some a -> tr_targetNodeId t <> tr_sourceNodeId t ->
  findId (tr_serverId t) (db_servers (w_db w)) = Some server -> findId (tr_id t) (db_transfers (w_db w)) = Some t ->
  serverRowOk (arrive t server) = true ->
  al ∈ db_allocations (w_db w) -> al_id al = a -> al_nodeId al = tr_targetNodeId t -> al_serverId al = Some (tr_serverId t) ->
  NoDup (map al_id (db_allocations (w_db w))) -> allocationsOk (db_allocations (w_db w)) = true ->
  (forall x, x ∈ db_allocations (w_db w) -> al_serverId x = Some (tr_serverId t) -> x = al \/ al_nodeId x = tr_sourceNodeId t) ->
  al_isPrimary al = false ->
  exists w', succeedTx later t w = (Ok tt, w') /\
    db_allocations (w_db w') = movedAllocs (tr_serverId t) (tr_sourceNodeId t) a (db_allocations (w_db w)) /\
    db_servers (w_db w') = updId (tr_serverId t) (arrive t) (db_servers (w_db w)) /\
    findId (tr_id t) (db_transfers (w_db w')) = Some (succeeded later t).
Proof.
  intros Ha Hne Hs Ht Hrow Hin Hid Hnd Hsv Hdup Hok Hall Hpr. unfold succeedTx.
  set (q := fun x => (al_serverId x =s Some (tr_serverId t)) && (al_nodeId x =s tr_sourceNodeId t)).
  unfold mbind at 1, M_bind at 1. rewrite updateAllocations_run by (by apply unprimary_ok). set (w2 := w <| w_db := _ |>).
  assert (al ∈ db_allocations (w_db w2)) as Hin2.
  { apply updWhere_elem. exists al. split; [done|]. unfold q. rewrite Hnd, (bool_decide_eq_false_2 (tr_targetNodeId t = _)) by done.
    by rewrite andb_false_r. }
  unfold mbind at 1, M_bind at 1. rewrite Ha, (updateAllocationRow_run a _ _ _ Hin2 Hid).
  assert (map al_id (db_allocations (w_db w2)) = map al_id (db_allocations (w_db w))) as Eid.
  { unfold w2, updWhere. simpl. rewrite map_map. apply map_ext. intros x. by destruct (q x). }
  rewrite updateAllocations_run; [|].
  2:{ apply (primary_ok a (tr_serverId t)); [by rewrite Eid|by apply unprimary_ok|..]; intros x Hx.
      - intros Hxa. assert (x = al) as ->; [|done]. apply (NoDup_map_inj al_id (db_allocations (w_db w2))); try done; [by rewrite Eid|congruence].
      - intros Hp Hx2. apply updWhere_elem in Hx as (y & Hy & ->). unfold q in *. destruct (_ && _) eqn:Q; [done|].
        destruct (Hall y Hy Hx2) as [->|Hn]; [congruence|]. rewrite Hx2, Hn, !bool_decide_eq_true_2 in Q by done. done. }
  unfold mbind at 1, M_bind at 1. rewrite (updateServer_run _ _ _ server) by done.
  unfold mbind at 1, M_bind at 1. rewrite (updateTransfer_run _ _ _ t) by done.
  eexists. split; [reflexivity|]. split_and!; [done|done|].
  exact (findId_updId_at (tr_id t) (succeeded later) _ t Ht eq_refl).
Qed.

Lemma movedAllocs_spec sid src l r : r ∈ l -> al_serverId r = Some sid -> al_nodeId r <> src ->
  (forall x, x ∈ l -> al_serverId x = Some sid -> x = r \/ al_nodeId x = src) ->
  forall a, a ∈ movedAllocs sid src (al_id r) l /\ al_serverId a = Some sid <-> a = r <| al_isPrimary := true |>.
Proof.
  intros Hr Hs Hne Hall a. unfold movedAllocs. rewrite updWhere_elem. split.
  - intros [(b & Hb & ->) Hsa]. apply updWhere_elem in Hb as (y & Hy & ->).
    destruct ((al_serverId y =s Some sid) && (al_nodeId y =s src)) eqn:Q; [by destruct (_ =? _)|].
    assert (al_serverId y = Some sid) as Hsy by (by destruct (_ =? _)). destruct (Hall y Hy Hsy) as [->|Hn].
    + by rewrite Z.eqb_refl.
    + by rewrite Hsy, Hn, !bool_decide_eq_true_2 in Q.
  - intros ->. split; [|done]. exists r. rewrite Z.eqb_refl. split; [|done]. apply updWhere_elem. exists r. split; [done|].
    by rewrite (bool_decide_eq_false_2 (al_nodeId r = src)), andb_false_r.
Qed.

(** C25: a success reported by the target node for a transfer under way always commits, whatever
    happened [meanwhile]: the server is ready on the target node under the uid chosen when the
    transfer started, above every uid in use on that node then (it is not reserved for it:
    [inflight_uid_not_reserved]); it holds exactly one allocation, a port of the target node that was
    free when the transfer started, now its primary one; and the transfer is recorded a success. *)
Theorem successful_transfer_moves sid target req actor w tid w1 v msg :
  transferOk w -> (forall s a, findId sid (db_servers (w_db w)) = Some s -> a ∈ db_allocations (w_db w) ->
    al_serverId a = Some sid -> al_nodeId a = sv_nodeId s) ->
  initiate now sid target req actor w = (Ok tid, w1) -> meanwhile sid tid w1 v ->
  exists w2 s al u t, handleResult later target tid true msg v = (Ok tt, w2) /\
    findId sid (db_servers (w_db w2)) = Some s /\ sv_nodeId s = target /\ sv_status s = Srv_ready /\ sv_uid s = Some u /\
    (forall x v, x ∈ db_servers (w_db w) -> sv_nodeId x = target -> sv_uid x = Some v -> v < u) /\
    al ∈ db_allocations (w_db w) /\ al_nodeId al = target /\ al_serverId al = None /\
    (forall a, a ∈ db_allocations (w_db w2) /\ al_serverId a = Some sid <->
       a = al <| al_serverId := Some sid |> <| al_isPrimary := true |>) /\
    findId tid (db_transfers (w_db w2)) = Some t /\ tr_status t = Tr_success.
Proof.
  intros Hw Hall Hi M. destruct (inFlight _ _ _ _ _ _ _ _ Hw Hi M) as (server & al & s' & t' & Hs & <- & Hne & Hst & F).
  destruct F as [[Ht' [= E1 E2 E3 E4 E5]] (Hs' & Hs2 & Hs3) [Fok Fnd] (Ha & Hn & Hfree & Hpr) Hres Hheld].
  specialize (fun a => Hall server a Hs). rewrite (handleResult_run _ _ _ _ _ Ht') by done.
  assert (tr_id t' = tid) as Etid by (by apply findId_some in Ht' as [_ ?]).
  destruct (succeedTx_run t' (al_id al) v s' (reserve (sv_id server) al)) as (w2 & Hrun & R1 & R2 & R3);
    rewrite ?E1, ?E2, ?E3, ?Etid; try done; try congruence;
    [unfold serverRowOk in *; simpl; by rewrite Hs2 in Hs3| |].
  { intros x Hx Hxs. destruct (Hheld x Hx Hxs) as [->|Hxw]; [by left|right; by apply Hall]. }
  unfold mbind at 1, M_bind at 1, withRLS. rewrite Hrun. unfold mbind at 1, M_bind at 1, record at 1, modify at 1.
  match goal with |- context [tryCatch (agentCall ?c) _ ?x] => destruct (tryCall_run c x) as (w3 & -> & D3) end.
  simpl in D3. exists w3. rewrite D3. eexists _, al, (nextUid (w_db w) target), _. split; [done|]. rewrite R2, E1.
  split; [exact (findId_updId_at (sv_id server) (arrive t') _ _ Hs' eq_refl)|]. split_and!; try done.
  - intros; by eapply nextUid_fresh.
  - intros a. rewrite R1, E1, E2. apply (movedAllocs_spec (sv_id server) (sv_nodeId server) _ (reserve (sv_id server) al)); [done|done|simpl; congruence|].
    intros x Hx Hxs. destruct (Hheld x Hx Hxs) as [->|Hxw]; [by left|right; by apply Hall].
  - rewrite <- Etid. exact R3.
  - done.
Qed.
End TransferTheorems.

Section TransferCapacity.
Context `{Platform} `{Outside} (now : Z).

Lemma updId_load id l : (forall s, s ∈ l -> sv_id s = id -> sv_status s = Srv_ready) ->
  Forall2 sameLoad l (updId id toTransferring l).
Proof.
  unfold updId. induction l as [|s l IH]; intros Hst; simpl; [constructor|]. change (rid s) with (sv_id s).
  destruct (bool_decide_reflect (sv_id s = id)) as [E|E].
  - constructor; [|by apply Forall2_same_length_lookup; split; [done|]; intros ?? y E1 E2; rewrite E1 in E2; injection E2 as <-; done].
    unfold sameLoad, load. simpl. rewrite (Hst s) by (done || apply elem_of_cons; by left). done.
  - constructor; [done|]. apply IH. intros x Hx. apply Hst. apply elem_of_cons. by right.
Qed.

(** A transfer that is accepted never oversells its target node: the node was live
    and accepting servers, and its usage after the commit counts the incoming server
    in full, beside its own servers and the other transfers under way, within every
    ceiling.  The job is queued only after that commit. *)
Theorem transfer_within_capacity sid target req actor w tid w1 :
  NoDup (map sv_id (db_servers (w_db w))) -> initiate now sid target req actor w = (Ok tid, w1) ->
  exists server node, findId sid (db_servers (w_db w)) = Some server /\
    node ∈ db_nodes (w_db w) /\ nd_id node = target /\ nd_deletedAt node = None /\ acceptanceOf now node = None /\
    usageForNode (w_db w1) target = addUsage (usageForNode (w_db w) target) (sv_memoryMb server) (sv_diskMb server) (sv_cpuLimitPercent server) /\
    withinCeilings (rc_inputs (resolveNodeCapacity now (nd_config node))) (usageForNode (w_db w1) target) /\
    w_calls w1 = w_calls w ++ [EnqueueTransfer tid].
Proof.
  intros Hnd Hi. apply initiate_ok in Hi as (server & node & al & n & v & Hs & <- & Hne & Hst & I & D & C).
  destruct I as [(N1 & N2 & N3 & N4) Hf _ [-> ->] It _ Is _ Ic].
  exists server, node. assert (usageForNode (w_db w1) target = addUsage (usageForNode (w_db w) target)
    (sv_memoryMb server) (sv_diskMb server) (sv_cpuLimitPercent server)) as U.
  { rewrite D. set (t := mkTransfer _ _ _ _ _ _ _ _ _ _) in It.
    rewrite <- (usageForNode_inFlight (w_db w) t server target) by (try done; vm_compute; repeat constructor).
    apply usageForNode_load; [|done]. simpl. rewrite Is. apply updId_load. intros s Hin Hid.
    apply findId_some in Hs as [Hs Hs']. assert (s = server) as ->; [|done]. apply (NoDup_map_inj sv_id (db_servers (w_db w))); done. }
  split_and!; try done.
  - rewrite U. apply (nodeFits_after _ _ (mkRequest (sv_memoryMb server) (sv_diskMb server) (sv_cpuLimitPercent server))), Hf.
  - by rewrite C, Ic.
Qed.
End TransferCapacity.

Section TransferUids.
Context `{Platform} `{Outside} (now : Z).

(** The uid a transfer reserves on its target is not held for it: while the transfer is
    under way the target still hands the same uid to the next server, so a create on
    that node and the arriving server end up sharing one. *)
Theorem inflight_uid_not_reserved sid target req actor w tid w1 :
  NoDup (map sv_id (db_servers (w_db w))) -> initiate now sid target req actor w = (Ok tid, w1) ->
  exists t, t ∈ db_transfers (w_db w1) /\ tr_id t = tid /\ tr_targetNodeId t = target /\ isActive t = true /\
    tr_targetUid t = Some (nextUid (w_db w1) target).
Proof.
  intros Hnd Hi. apply initiate_ok in Hi as (server & node & al & n & v & Hs & <- & Hne & Hst & I & D & C).
  destruct I as [_ _ _ [-> ->] It _ Is _ _]. set (t := mkTransfer _ _ _ _ _ _ _ _ _ _) in It.
  exists t. split_and!; try done.
  - rewrite D, It. apply elem_of_app. right. by apply elem_of_cons; left.
  - simpl. f_equal. unfold nextUid. do 3 f_equal. rewrite D, Is. clear. unfold updId.
    induction (db_servers (w_db w)) as [|s l IH]; simpl; [done|]. destruct (bool_decide (rid s = _)); simpl.
    + by destruct (bool_decide (sv_nodeId s = target)).
    + destruct (bool_decide (sv_nodeId s = target)); simpl; by rewrite IH.
Qed.
End TransferUids.

(** ** Witnesses *)

#[local] Existing Instance Demo.platform.

Module DemoMove.

#[export] Instance outside : Outside := {| agentReply _ _ := None |}.

Definition server : Server :=
  mkServer "s" "SHORT" "u" "a" (Some "t") (Some "p") (Some 100000) "srv" (Some "img") (Some "run")
    100 2048 0 10000 500 true 1 1 1 1 Srv_ready None None None None "offline".

Definition world : World :=
  mkWorld (Demo.db <| db_servers := [server] |>
    <| db_allocations := [mkAllocation 1 "a" "10.0.0.1" 25566 (Some "s") true; Demo.alloc 2 "b" None] |>) [] [] 0%N [].

Definition started : Res string * World := initiate 2000 "s" "b" None "admin" world.

End DemoMove.

#[local] Existing Instance DemoMove.outside.

Lemma demo_started : DemoMove.started.1 = Ok "id-0".
Proof. vm_compute. reflexivity. Qed.

Lemma demo_initiate : initiate 2000 "s" "b" None "admin" DemoMove.world = (Ok "id-0", DemoMove.started.2).
Proof. rewrite <- demo_started. apply surjective_pairing. Qed.

Lemma demo_transferOk : transferOk DemoMove.world.
Proof.
  split; [vm_compute; reflexivity|]. split; [apply (bool_decide_eq_true_1 _); vm_compute; reflexivity|]. split.
  - intros s Hs. apply list_elem_of_singleton in Hs as ->. vm_compute. reflexivity.
  - intros n _. reflexivity.
Qed.

(** The pipeline runs, and meanwhile a customer buys another server on the source node. *)
Definition demo_between : World :=
  let w := (runPipeline 2050 (fun _ => Ok tt) "id-0" DemoMove.started.2).2 in
  w <| w_db := (w_db w) <| db_servers := db_servers (w_db w) ++ [DemoMove.server <| sv_id := "other" |>] |> |>.

Lemma demo_meanwhile : meanwhile "s" "id-0" DemoMove.started.2 demo_between.
Proof.
  split.
  - intros t Ht. eexists. split; [vm_compute; reflexivity|]. vm_compute in Ht. injection Ht as <-. reflexivity.
  - intros s Hs. eexists. split; [vm_compute; reflexivity|]. split; vm_compute; reflexivity.
  - vm_compute. reflexivity.
  - apply (bool_decide_eq_true_1 _). vm_compute. reflexivity.
  - intros x _. replace (db_allocations (w_db demo_between)) with (db_allocations (w_db DemoMove.started.2)) by (vm_compute; reflexivity). done.
Qed.

Lemma failed_transfer_restores_witness :
  map tr_status (db_transfers (w_db demo_between)) = [Tr_restoring] /\
  exists w2, handleResult 2100 "b" "id-0" false None demo_between = (Ok tt, w2) /\
    db_servers (w_db w2) = [DemoMove.server; DemoMove.server <| sv_id := "other" |>] /\ db_allocations (w_db w2) = db_allocations (w_db DemoMove.world).
Proof.
  split; [vm_compute; reflexivity|].
  destruct (failed_transfer_restores 2000 2100 "s" "b" None "admin" DemoMove.world "id-0" DemoMove.started.2 demo_between None demo_transferOk demo_initiate demo_meanwhile)
    as (w2 & al & H1 & H2 & H3 & H4 & H5 & _).
  exists w2. split; [exact H1|]. split; [rewrite H5; vm_compute; reflexivity|]. rewrite H4.
  apply elem_of_cons in H2 as [->|H2%list_elem_of_singleton]; [discriminate H3|]. rewrite H2. vm_compute. reflexivity.
Defined.

Lemma successful_transfer_moves_witness :
  exists w2 s, handleResult 2100 "b" "id-0" true None demo_between = (Ok tt, w2) /\
    findId "s" (db_servers (w_db w2)) = Some s /\ sv_nodeId s = "b".
Proof.
  destruct (successful_transfer_moves 2000 2100 "s" "b" None "admin" DemoMove.world "id-0" DemoMove.started.2 demo_between None demo_transferOk)
    as (w2 & s & al & u & t & H1 & H2 & H3 & _); [|exact demo_initiate|exact demo_meanwhile|exists w2, s; split; [exact H1|split; [exact H2|exact H3]]].
  intros s a Hs Ha Hsid. change (Some DemoMove.server = Some s) in Hs. injection Hs as <-.
  apply elem_of_cons in Ha as [->|Ha%list_elem_of_singleton]; [reflexivity|]. subst. discriminate Hsid.
Defined.

(** Nothing looks at the status of the transfer: a failure reported again, after the transfer
    succeeded, takes the port from the running server. *)
Theorem late_failure_takes_port :
  let moved := (handleResult 2100 "b" "id-0" true None demo_between).2 in
  let late := (handleResult 2200 "b" "id-0" false None moved).2 in
  map al_serverId (db_allocations (w_db moved)) = [None; Some "s"] /\
  map al_serverId (db_allocations (w_db late)) = [None; None] /\
  (fun s => (sv_nodeId s, sv_status s)) <$> findId "s" (db_servers (w_db late)) = Some ("b", Srv_ready).
Proof. vm_compute. done. Qed.

Lemma demo_ids : NoDup (map sv_id (db_servers (w_db DemoMove.world))).
Proof. apply NoDup_singleton. Qed.

Lemma transfer_within_capacity_witness :
  usageForNode (w_db DemoMove.started.2) "b" = mkUsage 2048 10000 100 /\
  exists node, nd_id node = "b" /\
    withinCeilings (rc_inputs (resolveNodeCapacity 2000 (nd_config node))) (usageForNode (w_db DemoMove.started.2) "b").
Proof.
  destruct (transfer_within_capacity 2000 "s" "b" None "admin" DemoMove.world "id-0" DemoMove.started.2 demo_ids demo_initiate)
    as (server & node & H1 & _ & H2 & _ & _ & _ & H3 & _).
  split; [vm_compute; reflexivity|]. exists node. split; [exact H2|exact H3].
Defined.

Lemma inflight_uid_not_reserved_witness :
  exists t, t ∈ db_transfers (w_db DemoMove.started.2) /\ tr_targetUid t = Some (nextUid (w_db DemoMove.started.2) "b").
Proof.
  destruct (inflight_uid_not_reserved 2000 "s" "b" None "admin" DemoMove.world "id-0" DemoMove.started.2 demo_ids demo_initiate)
    as (t & H1 & _ & _ & _ & H2). exists t. split; [exact H1|exact H2].
Defined.
