(* ===== verification/Accounts.v ===== *)
(** Accounts: identity, sign-in and sessions.

    [auth/auth.service.ts] with the services it uses ([token.service.ts],
    [session-revocation.service.ts], [password.service.ts], [redis.service.ts]),
    the guard every request passes ([jwt-auth.guard.ts]), the staff roles
    ([admin/admin-permissions.ts] and its guards), the admin's user management
    ([users/users.service.ts]) and the password change of [account.service.ts].

    The state is the identity tables, which the rest of the platform only
    references by id, and the Redis keys these services own.  [Account] holds the
    identity columns of [users]; the billing columns are [User] of [Store]. *)

From S2P Require Import Prelude JsNum Capacity Store Scheduler Subscriptions JsString.
From Stdlib Require Import Ascii String Sorted Lia.

Local Open Scope Z_scope.

(** ** Rows and state *)

Record Account := mkAccount {
  ac_id : string; ac_email : string; ac_username : string; ac_passwordHash : string;
  ac_firstName : option string; ac_lastName : option string; ac_globalRole : string;
  ac_adminPermissions : list string; ac_isActive : bool; ac_emailVerifiedAt : option Z;
  ac_lastLoginAt : option Z; ac_failedLogins : Z; ac_lockedUntil : option Z;
  ac_tokensValidAfter : Z; ac_deletedAt : option Z }.

Record Session := mkSession {
  ss_id : string; ss_userId : string; ss_refreshHash : string; ss_familyId : string;
  ss_parentId : option string; ss_expiresAt : Z; ss_usedAt : option Z; ss_revokedAt : option Z }.

Record OAuthIdentity := mkOAuth {
  oi_userId : string; oi_provider : string; oi_providerSubject : string; oi_email : string }.

#[export] Instance Account_row : Row Account := ac_id.
#[export] Instance Session_row : Row Session := ss_id.

#[export] Instance Account_settable : Settable Account := fun r =>
  mkAccount (ac_id r) (ac_email r) (ac_username r) (ac_passwordHash r) (ac_firstName r) (ac_lastName r)
    (ac_globalRole r) (ac_adminPermissions r) (ac_isActive r) (ac_emailVerifiedAt r) (ac_lastLoginAt r)
    (ac_failedLogins r) (ac_lockedUntil r) (ac_tokensValidAfter r) (ac_deletedAt r).
#[export] Instance Session_settable : Settable Session := fun r =>
  mkSession (ss_id r) (ss_userId r) (ss_refreshHash r) (ss_familyId r) (ss_parentId r) (ss_expiresAt r)
    (ss_usedAt r) (ss_revokedAt r).

(** [a_keys] is the Redis strings with their expiry, [a_counters] the Redis counters. *)
Record Auth := mkAuth {
  a_accounts : list Account; a_sessions : list Session; a_oauth : list OAuthIdentity;
  a_keys : gmap string (string * Z); a_counters : gmap string (Z * option Z);
  a_audit : list AuditEntry; a_mails : list (string * string); a_next : N }.

#[export] Instance Auth_settable : Settable Auth := fun s =>
  mkAuth (a_accounts s) (a_sessions s) (a_oauth s) (a_keys s) (a_counters s) (a_audit s) (a_mails s) (a_next s).

Abbreviation MA := (M Auth).

(** The claims of an access token; times are in seconds. *)
Record AccessTokenPayload := mkPayload {
  tk_sub : string; tk_sid : string; tk_jti : string; tk_adm : bool; tk_iat : Z; tk_exp : Z }.

(** What lies outside these services: argon2 and the hash functions, the random
    generators, the JWT library (signature, issuer, audience and expiry), the
    captcha service, the database's case-insensitive text comparison, and the
    configuration. *)
Class Secrets := {
  sha256 : string -> string;
  randomToken : N -> string;
  randomHex : N -> string;
  randomUUID : N -> string;
  argonHash : N -> string -> string;
  argonVerify : string -> string -> option bool;   (* [None]: it throws *)
  jwtSign : AccessTokenPayload -> string;
  jwtVerify : Z -> string -> option AccessTokenPayload;
  turnstileVerify : option string -> option string -> option exn;
  citextEq : string -> string -> bool;
  JWT_ACCESS_TTL_SECONDS : Z;
  JWT_REFRESH_TTL_SECONDS : Z;
  ALLOW_PUBLIC_REGISTRATION : bool;
  PANEL_URL : string }.

(** ** Roles *)

Definition ROLE_RANK (role : string) : option Z :=
  if role =s "user" then Some 0
  else if role =s "support" then Some 1
  else if role =s "admin" then Some 2
  else if role =s "root_admin" then Some 3
  else None.

Definition ADMIN_PERMISSIONS : list string :=
  ["clients.view"; "clients.create"; "clients.update"; "clients.disable"; "clients.password.reset";
   "clients.support"; "clients.delete"; "admin.permissions.manage"; "nodes.view"; "nodes.manage";
   "plans.view"; "plans.manage"; "capacity.view"; "capacity.manage"; "servers.view"; "servers.manage";
   "subscriptions.view"; "subscriptions.manage"; "payments.view"; "payments.manage"; "gateway.view";
   "gateway.manage"; "support.view"; "support.manage"; "testimonials.view"; "testimonials.manage"].

Definition ROLE_DEFAULT_PERMISSIONS (role : string) : list string :=
  if role =s "root_admin" then ["*"]
  else if role =s "admin" then
    ["clients.view"; "clients.create"; "clients.update"; "clients.disable"; "clients.password.reset";
     "clients.support"; "clients.delete"; "nodes.view"; "nodes.manage"; "plans.view"; "plans.manage";
     "capacity.view"; "capacity.manage"; "servers.view"; "servers.manage"; "subscriptions.view";
     "subscriptions.manage"; "payments.view"; "payments.manage"; "gateway.view"; "gateway.manage";
     "support.view"; "support.manage"; "testimonials.view"; "testimonials.manage"]
  else if role =s "support" then
    ["clients.view"; "clients.support"; "nodes.view"; "plans.view"; "capacity.view"; "servers.view";
     "subscriptions.view"; "payments.view"; "support.view"; "support.manage"; "testimonials.view"]
  else [].

(** [None] is the source's ['*']. *)
Definition resolveAdminPermissions (globalRole : string) (granted : list string) : option (gset string) :=
  let roleDefaults := ROLE_DEFAULT_PERMISSIONS globalRole in
  if bool_decide ("*" ∈ roleDefaults) || bool_decide ("*" ∈ granted) then None
  else Some (list_to_set (roleDefaults ++ granted)).

Definition hasAdminPermission (globalRole : string) (granted : list string) (key : string) : bool :=
  match resolveAdminPermissions globalRole granted with
  | None => true
  | Some resolved => bool_decide (key ∈ resolved)
  end.

Definition canActOnRole (actorRole targetRole : string) : bool :=
  default (-1) (ROLE_RANK actorRole) >? default (-1) (ROLE_RANK targetRole).

(** A role with no rank counts as [Infinity] on the left. *)
Definition canAssignRole (actorRole roleToAssign : string) : bool :=
  match ROLE_RANK roleToAssign with
  | Some r => r <=? default (-1) (ROLE_RANK actorRole)
  | None => false
  end.

(** [request.user], as the guard builds it. *)
Record AuthenticatedUser := mkAuthUser {
  me_id : string; me_sessionId : string; me_jti : string; me_isAdmin : bool;
  me_globalRole : string; me_adminPermissions : list string; me_impersonatorId : option string }.

Definition adminGuard (user : option AuthenticatedUser) : Res unit :=
  match user with
  | Some u =>
    if negb (me_isAdmin u) then Throw (Forbidden "Admin access required")
    else match me_impersonatorId u with
         | Some (String _ _) => Throw (Forbidden "Impersonated sessions cannot access admin routes")
         | _ => Ok tt
         end
  | None => Throw (Forbidden "Admin access required")
  end.

Definition adminPermissionGuard (required : option string) (user : option AuthenticatedUser) : Res unit :=
  match required with
  | None => Ok tt
  | Some key =>
    match user with
    | None => Throw (Forbidden "Admin access required")
    | Some u =>
      match me_impersonatorId u with
      | Some (String _ _) => Throw (Forbidden "Impersonated sessions cannot access admin routes")
      | _ =>
        if hasAdminPermission (me_globalRole u) (me_adminPermissions u) key then Ok tt
        else Throw (Forbidden ("Missing admin permission: " +:+ key))
      end
    end
  end.

(** ** Strings *)

(** The value between double quotes in a message. *)
Definition quoted (s : string) : string :=
  String (ascii_of_N 34) (s +:+ String (ascii_of_N 34) EmptyString).

(** [s.replace(/[^a-z0-9]+/g, '-')]. *)
Definition isSlugChar (c : ascii) : bool :=
  isDigit c || ((97 <=? code c)%N && (code c <=? 122)%N).

Fixpoint dashRuns (inRun : bool) (s : string) : string :=
  match s with
  | EmptyString => EmptyString
  | String c s' =>
    if isSlugChar c then String c (dashRuns false s')
    else if inRun then dashRuns true s' else String "-" (dashRuns true s')
  end.

(** [s.replace(/^-+|-+$/g, '')]. *)
Fixpoint dropDashes (s : string) : string :=
  match s with
  | String c s' => if (code c =? 45)%N then dropDashes s' else s
  | EmptyString => EmptyString
  end.

Fixpoint dropTailDashes (s : string) : string :=
  match s with
  | EmptyString => EmptyString
  | String c s' =>
    match dropTailDashes s' with
    | EmptyString => if (code c =? 45)%N then EmptyString else String c EmptyString
    | r => String c r
    end
  end.

Definition usernameBase `{Platform} (email : string) : string :=
  let slug := dropTailDashes (dropDashes (dashRuns false (toLowerCase (default "user" (head (splitOn "@" email)))))) in
  if slug =s "" then "user" else slug.

(** [s.split(/\s+/)] of a trimmed string. *)
Fixpoint splitSpacesF (fuel : nat) (s cur : string) (inRun : bool) : list string :=
  match fuel with
  | O => [cur]
  | S fuel' =>
    match s with
    | EmptyString => [cur]
    | String c s' =>
      match spaceAt s with
      | Some w =>
        let rest := dropS (String.length w) s in
        if inRun then splitSpacesF fuel' rest cur true else cur :: splitSpacesF fuel' rest "" true
      | None => splitSpacesF fuel' s' (cur +:+ String c EmptyString) false
      end
    end
  end.

Definition splitSpaces (s : string) : list string := splitSpacesF (S (String.length s)) s "" false.

(** [/\$argon2id\$v=\d+\$m=(\d+),t=(\d+),p=(\d+)\$/]: the digits that follow a literal. *)
Definition literalThenDigits (lit s : string) : option (Z * string) :=
  if startsWith lit s then
    let '(v, n, rest) := takeDigits 0 0 (dropS (String.length lit) s) in
    match n with O => None | S _ => Some (v, rest) end
  else None.

Definition paramsHere (s : string) : option (Z * Z * Z) :=
  match literalThenDigits "$argon2id$v=" s with
  | Some (_, s1) =>
    match literalThenDigits "$m=" s1 with
    | Some (m, s2) =>
      match literalThenDigits ",t=" s2 with
      | Some (t, s3) =>
        match literalThenDigits ",p=" s3 with
        | Some (p, s4) => if startsWith "$" s4 then Some (m, t, p) else None
        | None => None
        end
      | None => None
      end
    | None => None
    end
  | None => None
  end.

Fixpoint PARAMS_RE (s : string) : option (Z * Z * Z) :=
  match paramsHere s with
  | Some r => Some r
  | None => match s with String _ s' => PARAMS_RE s' | EmptyString => None end
  end.

Definition needsRehash (hash : string) : bool :=
  match PARAMS_RE hash with
  | None => true
  | Some (memoryCost, timeCost, parallelism) =>
    negb (memoryCost =? 65536) || negb (timeCost =? 3) || negb (parallelism =? 2)
  end.

(** ** Primitive effects *)

Definition freshId : MA N := fun s => (Ok (a_next s), s <| a_next := (a_next s + 1)%N |>).

Definition audit (action : string) (actor : option string) (targetType targetId : string) : MA unit :=
  modify (fun s => s <| a_audit := a_audit s ++ [mkAudit action actor targetType targetId] |>).

Definition redisSet (now : Z) (key value : string) (ttlSeconds : Z) : MA unit :=
  modify (fun s => s <| a_keys := <[key := (value, now + ttlSeconds * 1000)]> (a_keys s) |>).

Definition liveKey (now : Z) (s : Auth) (key : string) : option string :=
  match a_keys s !! key with
  | Some (v, expiresAt) => if now <? expiresAt then Some v else None
  | None => None
  end.

Definition redisGet (now : Z) (key : string) : MA (option string) := gets (fun s => liveKey now s key).

Definition redisDel (key : string) : MA unit := modify (fun s => s <| a_keys := delete key (a_keys s) |>).

(** [INCR] and, on the first hit of a window, [EXPIRE]. *)
Definition hit (now : Z) (key : string) (windowSeconds : Z) : MA Z := fun s =>
  let '(old, ttl) := match a_counters s !! key with
                     | Some (n, Some e) => if now <? e then (n, Some e) else (0, None)
                     | Some (n, None) => (n, None)
                     | None => (0, None)
                     end in
  let ttl' := if old + 1 =? 1 then Some (now + windowSeconds * 1000) else ttl in
  (Ok (old + 1), s <| a_counters := <[key := (old + 1, ttl')]> (a_counters s) |>).

(** The partial unique indexes on the live accounts' email and username. *)
Definition clashes `{Secrets} (a x : Account) : bool :=
  negb (ac_id x =s ac_id a) && (ac_deletedAt x =s None) &&
  (citextEq (ac_email x) (ac_email a) || citextEq (ac_username x) (ac_username a)).

Definition uniqueOk `{Secrets} (a : Account) (rows : list Account) : bool :=
  negb (ac_deletedAt a =s None) || negb (existsb (clashes a) rows).

(** [user.create]: refused by the primary key or a unique index. *)
Definition createAccount `{Secrets} (a : Account) : MA unit :=
  rows ← gets a_accounts;
  throwIf (existsb (fun x => ac_id x =s ac_id a) rows) (UniqueViolation "users_pkey") ;;
  throwIf (negb (uniqueOk a rows)) (UniqueViolation "users_email_uq") ;;
  modify (fun s => s <| a_accounts := a_accounts s ++ [a] |>).

(** [user.update]: P2025 without a row; a changed email or username is checked
    against the unique indexes; [failed_logins] is a [smallint]. *)
Definition sameNames (a b : Account) : bool :=
  (ac_email a =s ac_email b) && (ac_username a =s ac_username b) && (ac_deletedAt a =s ac_deletedAt b).

Definition updateAccount `{Secrets} (id : string) (f : Account -> Account) : MA Account :=
  rows ← gets a_accounts;
  match findId id rows with
  | None => throw RecordNotFound
  | Some a =>
    throwIf (32767 <? ac_failedLogins (f a)) (CheckViolation "smallint out of range") ;;
    throwIf (negb (sameNames (f a) a || uniqueOk (f a) rows)) (UniqueViolation "users_email_uq") ;;
    modify (fun s => s <| a_accounts := updId id f (a_accounts s) |>) ;;
    mret (f a)
  end.

Definition createSession (x : Session) : MA unit := modify (fun s => s <| a_sessions := a_sessions s ++ [x] |>).

Definition updateSession (id : string) (f : Session -> Session) : MA unit :=
  row ← gets (fun s => findId id (a_sessions s));
  match row with
  | None => throw RecordNotFound
  | Some _ => modify (fun s => s <| a_sessions := updId id f (a_sessions s) |>)
  end.

Definition updateSessions (p : Session -> bool) (f : Session -> Session) : MA unit :=
  modify (fun s => s <| a_sessions := updWhere p f (a_sessions s) |>).

(** ** Tokens, revocation and the request guard *)

Definition passwordVerify `{Secrets} (hash password : string) : bool := default false (argonVerify hash password).

Definition passwordHash `{Secrets} (password : string) : MA string :=
  n ← freshId; mret (argonHash n password).

Definition denylistJti (now : Z) (jti : string) (ttlSeconds : Z) : MA unit :=
  redisSet now ("denylist:jti:" +:+ jti) "1" (Z.max 1 ttlSeconds).

Definition denylistSession (now : Z) (sid : string) (ttlSeconds : Z) : MA unit :=
  redisSet now ("denylist:sid:" +:+ sid) "1" (Z.max 1 ttlSeconds).

Definition isJtiDenylisted (now : Z) (jti : string) (s : Auth) : bool :=
  bool_decide (is_Some (liveKey now s ("denylist:jti:" +:+ jti))).

Definition isSessionDenylisted (now : Z) (sid : string) (s : Auth) : bool :=
  bool_decide (is_Some (liveKey now s ("denylist:sid:" +:+ sid))).

Section Auth.
Context `{Platform} `{Secrets} (now : Z).

Definition signAccessToken (userId sessionId : string) (isAdmin : bool) : MA (string * Z) :=
  n ← freshId;
  let iat := now / 1000 in
  mret (jwtSign (mkPayload userId sessionId (randomUUID n) isAdmin iat (iat + JWT_ACCESS_TTL_SECONDS)),
        JWT_ACCESS_TTL_SECONDS).

Definition hashRefreshToken (token : string) : string := sha256 token.

Definition generateRefreshToken : MA (string * string) :=
  n ← freshId;
  let token := randomToken n in
  mret (token, hashRefreshToken token).

Definition bumpTokens (a : Account) : Account := a <| ac_tokensValidAfter := now |>.
Definition revoke (x : Session) : Session := x <| ss_revokedAt := Some now |>.

(** The transaction of [revokeAllForUser]: without the user's row nothing is revoked. *)
Definition revokeAllForUser (userId : string) : MA Z := fun s =>
  let pick x := (ss_userId x =s userId) && (ss_revokedAt x =s None) in
  match (updateSessions pick revoke ;; updateAccount userId bumpTokens) s with
  | (Ok _, s') => (Ok (countWhere pick (a_sessions s)), s')
  | (Throw e, _) => (Throw e, s)
  end.

Record LoginResult := mkLogin {
  lr_accessToken : string; lr_expiresIn : Z; lr_refreshToken : string; lr_refreshExpiresAt : Z;
  lr_userId : string; lr_globalRole : string }.

(** [rotateFrom] is the family and the parent of a rotated session. *)
Definition issueSession (user : Account) (isAdmin : bool) (rotateFrom : option (string * string)) : MA LoginResult :=
  '(token, hash) ← generateRefreshToken;
  let expiresAt := now + JWT_REFRESH_TTL_SECONDS * 1000 in
  n ← freshId;
  m ← freshId;
  createSession (mkSession (uuidv7 n) (ac_id user) hash (default (uuidv7 m) (fst <$> rotateFrom)) (snd <$> rotateFrom)
    expiresAt None None) ;;
  '(access, expiresIn) ← signAccessToken (ac_id user) (uuidv7 n) isAdmin;
  mret (mkLogin access expiresIn token expiresAt (ac_id user) (ac_globalRole user)).

Definition extractBearerToken (header : option string) : option string :=
  match header with
  | Some h =>
    if startsWith "Bearer " h then
      let t := trim (dropS 7 h) in if t =s "" then None else Some t
    else None
  | None => None
  end.

(** [JwtAuthGuard.canActivate] on a route that is not public. *)
Definition canActivate (authorization : option string) : MA AuthenticatedUser :=
  token ← orThrow (extractBearerToken authorization) (Unauthorized "Missing bearer token");
  payload ← orThrow (jwtVerify now token) (Unauthorized "Invalid or expired token");
  denied ← gets (fun s => isJtiDenylisted now (tk_jti payload) s || isSessionDenylisted now (tk_sid payload) s);
  throwIf denied (Unauthorized "Token has been revoked") ;;
  user ← gets (fun s => findId (tk_sub payload) (a_accounts s));
  match user with
  | Some u =>
    throwIf (negb (ac_isActive u) || bool_decide (is_Some (ac_deletedAt u))) (Unauthorized "Account is not active") ;;
    throwIf (tk_iat payload <? ac_tokensValidAfter u / 1000) (Unauthorized "Token has been revoked") ;;
    mret (mkAuthUser (ac_id u) (tk_sid payload) (tk_jti payload) (negb (ac_globalRole u =s "user"))
      (ac_globalRole u) (ac_adminPermissions u) None)
  | None => throw (Unauthorized "Account is not active")
  end.

(** ** Signing in *)

Definition MAX_FAILED_LOGINS : Z := 5.
Definition LOCKOUT_MINUTES : Z := 15.
Definition LOGIN_RL_WINDOW_SECONDS : Z := 15 * 60.
Definition LOGIN_RL_LIMIT_PER_IP : Z := 100.
Definition PASSWORD_RESET_TTL_SECONDS : Z := 60 * 60.
Definition RESET_REQUEST_WINDOW_SECONDS : Z := 60 * 60.
Definition RESET_REQUEST_LIMIT_PER_EMAIL : Z := 5.
Definition RESET_REQUEST_LIMIT_PER_IP : Z := 20.
Definition REGISTER_WINDOW_SECONDS : Z := 60 * 60.
Definition REGISTER_LIMIT_PER_EMAIL : Z := 3.
Definition REGISTER_LIMIT_PER_IP : Z := 10.

Definition truthyIp (ip : option string) : option string :=
  match ip with Some "" => None | _ => ip end.

Definition turnstile (token ip : option string) : MA unit :=
  match turnstileVerify token ip with Some e => throw e | None => mret tt end.

Definition tooMany (msg : string) : exn := Http msg 429.

Definition checkLoginRateLimit (ip : option string) : MA unit :=
  match truthyIp ip with
  | None => mret tt
  | Some ip =>
    count ← hit now ("login_rl:ip:" +:+ ip) LOGIN_RL_WINDOW_SECONDS;
    throwIf (count >? LOGIN_RL_LIMIT_PER_IP)
      (tooMany "Muitas tentativas de login em pouco tempo — aguarde antes de tentar novamente.")
  end.

Definition emailAndIpLimit (prefix email : string) (ip : option string) (windowSeconds perEmail perIp : Z) (msg : string) : MA unit :=
  emailCount ← hit now (prefix +:+ ":email:" +:+ toLowerCase (trim email)) windowSeconds;
  ipCount ← match truthyIp ip with
            | Some ip => hit now (prefix +:+ ":ip:" +:+ ip) windowSeconds
            | None => mret 0
            end;
  throwIf ((emailCount >? perEmail) || (ipCount >? perIp)) (tooMany msg).

Definition checkRegisterRateLimit (email : string) (ip : option string) : MA unit :=
  emailAndIpLimit "register_rl" email ip REGISTER_WINDOW_SECONDS REGISTER_LIMIT_PER_EMAIL REGISTER_LIMIT_PER_IP
    "Muitas tentativas de cadastro em pouco tempo — aguarde antes de tentar novamente.".

Definition checkResetRateLimit (email : string) (ip : option string) : MA unit :=
  emailAndIpLimit "pwreset_rl" email ip RESET_REQUEST_WINDOW_SECONDS RESET_REQUEST_LIMIT_PER_EMAIL RESET_REQUEST_LIMIT_PER_IP
    "Muitas solicitações em pouco tempo — aguarde antes de tentar novamente.".

Definition byEmail (email : string) (rows : list Account) : option Account :=
  findFirst (fun u => citextEq (ac_email u) email && (ac_deletedAt u =s None)) rows.

Definition failedRow (currentFailures : Z) (a : Account) : Account :=
  let next := currentFailures + 1 in
  let a := a <| ac_failedLogins := next |> in
  if next >=? MAX_FAILED_LOGINS then a <| ac_lockedUntil := Some (now + LOCKOUT_MINUTES * 60000) |> else a.

Definition registerFailedLogin (userId : string) (currentFailures : Z) : MA unit :=
  updateAccount userId (failedRow currentFailures) ;; mret tt.

Definition isLocked (a : Account) : bool :=
  match ac_lockedUntil a with Some t => t >? now | None => false end.

Definition signedIn (hash : option string) (a : Account) : Account :=
  let a := a <| ac_failedLogins := 0 |> <| ac_lockedUntil := None |> <| ac_lastLoginAt := Some now |> in
  match hash with Some h => a <| ac_passwordHash := h |> | None => a end.

(** [login] once the account is found. *)
Definition loginAccount (user : Account) (plainPassword : string) : MA LoginResult :=
  let refuse := audit "auth.login.failed" (Some (ac_id user)) "" "" ;; throw (Unauthorized "Invalid credentials") in
  if isLocked user then refuse
  else if negb (passwordVerify (ac_passwordHash user) plainPassword) then
    registerFailedLogin (ac_id user) (ac_failedLogins user) ;; refuse
  else if negb (ac_isActive user) then refuse
  else
    hash ← (if needsRehash (ac_passwordHash user) then h ← passwordHash plainPassword; mret (Some h) else mret None);
    updateAccount (ac_id user) (signedIn hash) ;;
    result ← issueSession user (negb (ac_globalRole user =s "user")) None;
    audit "auth.login.success" (Some (ac_id user)) "" "" ;;
    mret result.

Definition login (email plainPassword : string) (ip captchaToken : option string) : MA LoginResult :=
  turnstile captchaToken ip ;;
  checkLoginRateLimit ip ;;
  user ← gets (fun s => byEmail email (a_accounts s));
  match user with
  | None => audit "auth.login.failed" None "" "" ;; throw (Unauthorized "Invalid credentials")
  | Some user => loginAccount user plainPassword
  end.

Fixpoint freeUsername (rows : list Account) (base : string) (suffix : Z) (n : nat) : option string :=
  match n with
  | O => None
  | S n' =>
    let candidate := if suffix =? 0 then base else base +:+ "-" +:+ zstr (suffix + 1) in
    if existsb (fun u => citextEq (ac_username u) candidate && (ac_deletedAt u =s None)) rows
    then freeUsername rows base (suffix + 1) n'
    else Some candidate
  end.

Definition generateUniqueUsername (email : string) : MA string :=
  let base := usernameBase email in
  rows ← gets a_accounts;
  match freeUsername rows base 0 50 with
  | Some u => mret u
  | None => n ← freshId; mret (base +:+ "-" +:+ randomHex n)
  end.

Definition newAccount (id email username hash : string) (firstName lastName : option string) (role : string) : Account :=
  mkAccount id email username hash firstName lastName role [] true None None 0 None now None.

Definition register (name email password confirmPassword : string) (captchaToken ip : option string) : MA LoginResult :=
  throwIf (negb ALLOW_PUBLIC_REGISTRATION) (NotFound "Not found") ;;
  throwIf (negb (password =s confirmPassword)) (BadRequest "password and confirmPassword must match") ;;
  turnstile captchaToken ip ;;
  checkRegisterRateLimit email ip ;;
  let email := trim email in
  existing ← gets (fun s => byEmail email (a_accounts s));
  throwIf (bool_decide (is_Some existing)) (Conflict "A user with that email already exists") ;;
  username ← generateUniqueUsername email;
  hash ← passwordHash password;
  let parts := splitSpaces (trim name) in
  let surname := String.concat " " (tail parts) in
  n ← freshId;
  let user := newAccount (uuidv7 n) email username hash (head parts) (if surname =s "" then None else Some surname) "user" in
  createAccount user ;;
  result ← issueSession user false None;
  audit "auth.register" (Some (ac_id user)) "" "" ;;
  mret result.

(** *** Google sign-in *)

Definition linkOf (subject : string) (s : Auth) : option OAuthIdentity :=
  findFirst (fun i => (oi_provider i =s "google") && (oi_providerSubject i =s subject)) (a_oauth s).

Definition userOf (i : OAuthIdentity) (s : Auth) : option Account := findId (oi_userId i) (a_accounts s).

(** [oAuthIdentity.create]: the subject and the user are each unique per provider. *)
Definition createLink (i : OAuthIdentity) : MA unit :=
  taken ← gets (fun s => existsb (fun x => (oi_provider x =s oi_provider i) &&
            ((oi_providerSubject x =s oi_providerSubject i) || (oi_userId x =s oi_userId i))) (a_oauth s));
  throwIf taken (UniqueViolation "oauth_identities_provider") ;;
  modify (fun s => s <| a_oauth := a_oauth s ++ [i] |>).

(** The account an unlinked identity signs in to, and whether it is new. *)
Definition accountForGoogle (email : string) (name : option string) : MA (Account * bool) :=
  found ← gets (fun s => byEmail email (a_accounts s));
  match found with
  | Some u => mret (u, false)
  | None =>
    username ← generateUniqueUsername email;
    r ← freshId;
    hash ← passwordHash (randomToken r);
    n ← freshId;
    let user := (newAccount (uuidv7 n) email username hash name None "user") <| ac_emailVerifiedAt := Some now |> in
    tryCatch (createAccount user ;; mret (user, true)) (fun err =>
      again ← gets (fun s => byEmail email (a_accounts s));
      u ← orThrow again err;
      mret (u, false))
  end.

Definition linkGoogle (subject email : string) (name : option string) : MA (Account * bool * bool) :=
  '(user, created) ← accountForGoogle email name;
  tryCatch (createLink (mkOAuth (ac_id user) "google" subject email) ;; mret (user, created, negb created)) (fun err =>
    linked ← gets (linkOf subject);
    i ← orThrow linked err;
    u ← gets (userOf i);
    user ← orThrow u err;
    mret (user, false, false)).

Definition loginWithGoogle (subject email : string) (name : option string) : MA LoginResult :=
  linked ← gets (fun s => match linkOf subject s with Some i => userOf i s | None => None end);
  who ← (match linked with
         | Some u => mret (u, false, false)
         | None => linkGoogle subject email name
         end : MA (Account * bool * bool));
  let '(user, created, linkedExisting) := (who : Account * bool * bool) in
  (if negb (ac_isActive user) || bool_decide (is_Some (ac_deletedAt user)) then
     audit "auth.google.failed" (Some (ac_id user)) "" "" ;; throw (Unauthorized "Esta conta não está ativa.")
   else mret tt) ;;
  updateAccount (ac_id user) (fun a => (signedIn None a) <| ac_emailVerifiedAt := Some (default now (ac_emailVerifiedAt user)) |>) ;;
  result ← issueSession user (negb (ac_globalRole user =s "user")) None;
  audit (if created then "auth.google.register" else if linkedExisting then "auth.google.linked" else "auth.google.login")
    (Some (ac_id user)) "" "" ;;
  mret result.

(** ** Rotation, logout and password recovery *)

Definition handleRefreshReuse (familyId userId : string) : MA unit :=
  updateSessions (fun x => (ss_familyId x =s familyId) && (ss_revokedAt x =s None)) revoke ;;
  updateAccount userId bumpTokens ;;
  audit "auth.refresh_reuse" (Some userId) "" "".

(** The checks of [refresh], up to the first write of a legitimate rotation. *)
Definition refreshCheck (presentedToken : string) : MA (Session * Account) :=
  found ← gets (fun s => findFirst (fun x => ss_refreshHash x =s hashRefreshToken presentedToken) (a_sessions s));
  session ← orThrow found (Unauthorized "Invalid refresh token");
  (if bool_decide (is_Some (ss_usedAt session)) || bool_decide (is_Some (ss_revokedAt session)) then
     handleRefreshReuse (ss_familyId session) (ss_userId session) ;; throw (Unauthorized "Invalid refresh token")
   else mret tt) ;;
  throwIf (ss_expiresAt session <? now) (Unauthorized "Refresh token expired") ;;
  u ← gets (fun s => findId (ss_userId session) (a_accounts s));
  user ← orThrow u RecordNotFound;
  throwIf (negb (ac_isActive user) || bool_decide (is_Some (ac_deletedAt user))) (Unauthorized "Account is not active") ;;
  mret (session, user).

Definition markUsed (x : Session) : Session := x <| ss_usedAt := Some now |>.

Definition refreshCommit (session : Session) (user : Account) : MA LoginResult :=
  updateSession (ss_id session) markUsed ;;
  issueSession user (negb (ac_globalRole user =s "user")) (Some (ss_familyId session, ss_id session)).

Definition refresh (presentedToken : string) : MA LoginResult :=
  '(session, user) ← refreshCheck presentedToken;
  refreshCommit session user.

Definition logout (sessionId jti : string) (allDevices : bool) (userId : string) : MA unit :=
  denylistJti now jti JWT_ACCESS_TTL_SECONDS ;;
  denylistSession now sessionId JWT_ACCESS_TTL_SECONDS ;;
  (if allDevices then revokeAllForUser userId ;; mret tt
   else tryCatch (updateSession sessionId revoke) (fun _ => mret tt)) ;;
  audit "auth.logout" (Some userId) "" "".

Definition passwordResetRedisKey (token : string) : string := "pwreset:" +:+ sha256 token.

Definition requestPasswordReset (email : string) (ip captchaToken : option string) : MA unit :=
  turnstile captchaToken ip ;;
  checkResetRateLimit email ip ;;
  found ← gets (fun s => byEmail email (a_accounts s));
  match found with
  | None => mret tt
  | Some user =>
    n ← freshId;
    let token := "prt_" +:+ randomToken n in
    redisSet now (passwordResetRedisKey token) (ac_id user) PASSWORD_RESET_TTL_SECONDS ;;
    modify (fun s => s <| a_mails := a_mails s ++ [(ac_email user, PANEL_URL +:+ "/reset-password?token=" +:+ token)] |>) ;;
    audit "auth.password_reset.requested" (Some (ac_id user)) "" ""
  end.

Definition resetRow (hash : string) (a : Account) : Account :=
  a <| ac_passwordHash := hash |> <| ac_failedLogins := 0 |> <| ac_lockedUntil := None |>.

Definition resetPassword (token newPassword confirmPassword : string) : MA unit :=
  throwIf (negb (newPassword =s confirmPassword)) (BadRequest "newPassword and confirmPassword must match") ;;
  let key := passwordResetRedisKey token in
  stored ← redisGet now key;
  userId ← orThrow (match stored with Some "" => None | _ => stored end) (BadRequest "Invalid or expired token");
  redisDel key ;;
  found ← gets (fun s => findFirst (fun u => (ac_id u =s userId) && (ac_deletedAt u =s None)) (a_accounts s));
  user ← orThrow found (BadRequest "Invalid or expired token");
  hash ← passwordHash newPassword;
  updateAccount (ac_id user) (resetRow hash) ;;
  revokeAllForUser (ac_id user) ;;
  audit "auth.password_reset.completed" (Some (ac_id user)) "" "".

(** [AccountService.changePassword]. *)
Definition changePassword (userId currentPassword newPassword confirmPassword : string) : MA Z :=
  throwIf (negb (newPassword =s confirmPassword)) (BadRequest "newPassword and confirmPassword must match") ;;
  found ← gets (fun s => findId userId (a_accounts s));
  user ← orThrow found RecordNotFound;
  throwIf (negb (passwordVerify (ac_passwordHash user) currentPassword)) (Unauthorized "Current password is incorrect") ;;
  hash ← passwordHash newPassword;
  updateAccount userId (fun a => a <| ac_passwordHash := hash |>) ;;
  revoked ← revokeAllForUser userId;
  audit "account.password.change" (Some userId) "user" userId ;;
  mret revoked.

(** ** The admin's user management ([users.service.ts]) *)

Record CreateUserDto := mkCreateUser {
  cu_email : string; cu_username : string; cu_password : string;
  cu_firstName : option string; cu_lastName : option string; cu_globalRole : option string }.

Record UpdateUserDto := mkUpdateUser {
  uu_email : option string; uu_username : option string; uu_firstName : option string;
  uu_lastName : option string; uu_globalRole : option string }.

Definition createUser (dto : CreateUserDto) (actor : AuthenticatedUser) : MA Account :=
  let roleToAssign := default "user" (cu_globalRole dto) in
  throwIf (negb (canAssignRole (me_globalRole actor) roleToAssign))
    (Forbidden ("Cannot create a user with role " +:+ quoted roleToAssign)) ;;
  existing ← gets (fun s => existsb (fun u => (ac_deletedAt u =s None) &&
               (citextEq (ac_email u) (cu_email dto) || citextEq (ac_username u) (cu_username dto))) (a_accounts s));
  throwIf existing (Conflict "A user with that email or username already exists") ;;
  hash ← passwordHash (cu_password dto);
  n ← freshId;
  let user := newAccount (uuidv7 n) (cu_email dto) (cu_username dto) hash (cu_firstName dto) (cu_lastName dto) roleToAssign in
  createAccount user ;;
  audit "admin.user.create" (Some (me_id actor)) "user" (ac_id user) ;;
  mret user.

(** [{ where: { id, deletedAt: null } }]. *)
Definition activeUser (id : string) : MA Account :=
  found ← gets (fun s => findFirst (fun u => (ac_id u =s id) && (ac_deletedAt u =s None)) (a_accounts s));
  orThrow found (NotFound "User not found").

Definition truthyOpt (o : option string) : option string := match o with Some "" => None | _ => o end.

Definition nameClash (id : string) (email username : option string) (u : Account) : bool :=
  (ac_deletedAt u =s None) && negb (ac_id u =s id) &&
  (match email with Some e => citextEq (ac_email u) e | None => false end ||
   match username with Some x => citextEq (ac_username u) x | None => false end).

Definition updatedRow (dto : UpdateUserDto) (a : Account) : Account :=
  mkAccount (ac_id a) (default (ac_email a) (uu_email dto)) (default (ac_username a) (uu_username dto)) (ac_passwordHash a)
    (match uu_firstName dto with Some n => Some n | None => ac_firstName a end)
    (match uu_lastName dto with Some n => Some n | None => ac_lastName a end)
    (default (ac_globalRole a) (uu_globalRole dto)) (ac_adminPermissions a) (ac_isActive a) (ac_emailVerifiedAt a)
    (ac_lastLoginAt a) (ac_failedLogins a) (ac_lockedUntil a) (ac_tokensValidAfter a) (ac_deletedAt a).

Definition updateUser (id : string) (dto : UpdateUserDto) (actor : AuthenticatedUser) : MA Account :=
  target ← activeUser id;
  (if id =s me_id actor then
     throwIf (bool_decide (is_Some (uu_globalRole dto))) (Conflict "You cannot change your own role")
   else throwIf (negb (canActOnRole (me_globalRole actor) (ac_globalRole target)))
          (Forbidden "Cannot modify a user of equal or higher rank")) ;;
  match uu_globalRole dto with
  | Some r => throwIf (negb (canAssignRole (me_globalRole actor) r)) (Forbidden ("Cannot assign role " +:+ quoted r))
  | None => mret tt
  end ;;
  clash ← gets (fun s => match truthyOpt (uu_email dto), truthyOpt (uu_username dto) with
                         | None, None => false
                         | e, u => existsb (nameClash id e u) (a_accounts s)
                         end);
  throwIf clash (Conflict "A user with that email or username already exists") ;;
  updated ← updateAccount id (updatedRow dto);
  audit "admin.user.update" (Some (me_id actor)) "user" id ;;
  mret updated.

Definition setActive (id : string) (isActive : bool) (actor : AuthenticatedUser) : MA unit :=
  target ← activeUser id;
  (if id =s me_id actor then throwIf (negb isActive) (Conflict "You cannot block your own account")
   else throwIf (negb (canActOnRole (me_globalRole actor) (ac_globalRole target)))
          (Forbidden "Cannot modify a user of equal or higher rank")) ;;
  updateAccount id (fun a => a <| ac_isActive := isActive |>) ;;
  audit (if isActive then "admin.user.unblock" else "admin.user.block") (Some (me_id actor)) "user" id.

(** [remove] reads the servers and subscriptions of the platform's database. *)
Definition removeUser (d : Db) (id : string) (actor : AuthenticatedUser) : MA unit :=
  target ← activeUser id;
  throwIf (id =s me_id actor) (Conflict "You cannot delete your own account") ;;
  throwIf (negb (canActOnRole (me_globalRole actor) (ac_globalRole target)))
    (Forbidden "Cannot delete a user of equal or higher rank") ;;
  throwIf (countWhere (fun x => sv_ownerId x =s id) (db_servers d) >? 0)
    (Conflict "Cannot delete a client that still owns servers") ;;
  throwIf (countWhere (fun x => (sb_userId x =s id) && negb (bool_decide (sb_status x ∈ [Sub_cancelled; Sub_expired])))
             (db_subscriptions d) >? 0)
    (Conflict "Cannot delete a client with an active or pending subscription") ;;
  updateAccount id (fun a => a <| ac_deletedAt := Some now |>) ;;
  audit "admin.user.delete" (Some (me_id actor)) "user" id.

End Auth.
