(* ===== verification/Sessions.v ===== *)
(** Sessions: refresh-token rotation over time.

    The session table under every operation of [Accounts], as a step relation
    ([SessStep]) that each operation is a run of ([runAuth_run]), and what follows for
    all sequences of requests: one live session per family, single use of a refresh
    token, the end of a family after reuse. *)

From S2P Require Import Prelude JsNum Capacity Store Scheduler Subscriptions JsString Accounts.
From Stdlib Require Import Ascii String Sorted Lia.

Local Open Scope Z_scope.

(** ** Sessions over time *)

Definition live (x : Session) : bool := (ss_usedAt x =s None) && (ss_revokedAt x =s None).

(** A row only ever gets its marks; nothing else of it changes, and no mark goes away. *)
Definition sessEvo (x y : Session) : Prop :=
  y = x <| ss_usedAt := ss_usedAt y |> <| ss_revokedAt := ss_revokedAt y |> /\
  (is_Some (ss_usedAt x) -> is_Some (ss_usedAt y)) /\ (is_Some (ss_revokedAt x) -> is_Some (ss_revokedAt y)).

#[export] Instance sessEvo_preorder : PreOrder sessEvo.
Proof.
  split.
  - intros []. done.
  - intros [] [] [] (E1 & U1 & R1) (E2 & U2 & R2). simpl in *. injection E1 as -> -> -> -> -> ->. injection E2 as -> -> -> -> -> ->.
    split; [done|]. simpl. auto.
Qed.

Lemma sessEvo_fields x y : sessEvo x y ->
  ss_id y = ss_id x /\ ss_familyId y = ss_familyId x /\ ss_refreshHash y = ss_refreshHash x /\ (live y = true -> live x = true).
Proof.
  intros (E & U & R). rewrite E. simpl. split_and!; try done. unfold live. simpl. rewrite !andb_true_iff, !bool_decide_eq_true.
  intros [A B]. split; [destruct (ss_usedAt x); [|done]; destruct U; eauto; congruence|].
  destruct (ss_revokedAt x); [|done]. destruct R; eauto. congruence.
Qed.

Section SessionSteps.
Context `{Platform} `{!PlatformLaws} `{Secrets}.

(** One step of the session table: nothing; marks; a session of a new family; a
    rotation, which uses up a live session and adds its successor to the family. *)
Inductive SessStep (s s' : Auth) : Prop :=
  | SessTouch : Forall2 sessEvo (a_sessions s) (a_sessions s') -> (a_next s <= a_next s')%N -> SessStep s s'
  | SessNew x n m : a_sessions s' = a_sessions s ++ [x] -> ss_id x = uuidv7 n -> ss_familyId x = uuidv7 m ->
      (a_next s <= n < a_next s')%N -> (a_next s <= m < a_next s')%N -> SessStep s s'
  | SessRotate x y n now : x ∈ a_sessions s -> live x = true ->
      a_sessions s' = updId (ss_id x) (markUsed now) (a_sessions s) ++ [y] -> ss_familyId y = ss_familyId x ->
      ss_id y = uuidv7 n -> (a_next s <= n < a_next s')%N -> SessStep s s'.

Definition sessRun : Auth -> Auth -> Prop := rtc SessStep.

(** The ids in the table were all handed out, and each names one session. *)
Definition sessionsOk (s : Auth) : Prop :=
  NoDup (map ss_id (a_sessions s)) /\
  (forall x, x ∈ a_sessions s -> exists n m, ss_id x = uuidv7 n /\ ss_familyId x = uuidv7 m /\ (n < a_next s)%N /\ (m < a_next s)%N).

(** At most one session of a family is live. *)
Definition oneLive (l : list Session) : Prop :=
  forall x y, x ∈ l -> y ∈ l -> live x = true -> live y = true -> ss_familyId x = ss_familyId y -> x = y.

Lemma sessEvo_ids l l' : Forall2 sessEvo l l' -> map ss_id l' = map ss_id l.
Proof. induction 1 as [|x y l l' E F IH]; simpl; [done|]. by rewrite (proj1 (sessEvo_fields _ _ E)), IH. Qed.

Lemma sessEvo_elem l l' y : Forall2 sessEvo l l' -> y ∈ l' -> exists x, x ∈ l /\ sessEvo x y.
Proof.
  intros F [i Hi]%list_elem_of_lookup. destruct (Forall2_lookup_r _ _ _ _ _ F Hi) as (x & Hx & E).
  exists x. split; [by eapply list_elem_of_lookup_2|done].
Qed.

Lemma markUsed_evo now l id : Forall2 sessEvo l (updId id (markUsed now) l).
Proof. apply updFirst_Forall2; [reflexivity|]. intros x _. split; [done|]. simpl. split; [eauto|done]. Qed.

Lemma oneLive_evo l l' : NoDup (map ss_id l) -> oneLive l -> Forall2 sessEvo l l' -> oneLive l'.
Proof.
  intros Hn Ho F y1 y2 Y1 Y2 L1 L2 Hf. pose proof (sessEvo_ids _ _ F) as Hi.
  destruct (sessEvo_elem _ _ _ F Y1) as (x1 & X1 & E1), (sessEvo_elem _ _ _ F Y2) as (x2 & X2 & E2).
  apply sessEvo_fields in E1 as (I1 & F1 & _ & V1), E2 as (I2 & F2 & _ & V2).
  assert (x1 = x2) as -> by (apply Ho; auto; congruence).
  apply (NoDup_map_inj ss_id l'); [by rewrite Hi|done|done|congruence].
Qed.

Lemma fresh_session s n x : sessionsOk s -> (a_next s <= n)%N -> x ∈ a_sessions s -> ss_id x <> uuidv7 n /\ ss_familyId x <> uuidv7 n.
Proof.
  intros [_ Hf] Hn Hx. destruct (Hf x Hx) as (a & b & -> & -> & A & B). split; intros E; apply uuidv7_inj in E; lia.
Qed.

Lemma sessionsOk_evo l l' next next' : Forall2 sessEvo l l' -> (next <= next')%N ->
  (forall x, x ∈ l -> exists n m, ss_id x = uuidv7 n /\ ss_familyId x = uuidv7 m /\ (n < next)%N /\ (m < next)%N) ->
  forall y, y ∈ l' -> exists n m, ss_id y = uuidv7 n /\ ss_familyId y = uuidv7 m /\ (n < next')%N /\ (m < next')%N.
Proof.
  intros F Hle Hf y Hy. destruct (sessEvo_elem _ _ _ F Hy) as (x & Hx & (I & Fa & _)%sessEvo_fields).
  destruct (Hf x Hx) as (n & m & ? & ? & ? & ?). exists n, m. rewrite I, Fa. split_and!; done || lia.
Qed.

Lemma SessStep_ok s s' : SessStep s s' -> sessionsOk s -> sessionsOk s'.
Proof.
  intros St Ok. pose proof Ok as [Hn Hf]. destruct St as [F Hle|x n m E Hi Hfa B1 B2|x y n now Hx Hl E Hfa Hi B].
  - split; [by rewrite (sessEvo_ids _ _ F)|]. by eapply sessionsOk_evo.
  - unfold sessionsOk. rewrite E. split.
    + rewrite List.map_app. simpl. apply NoDup_app. split_and!; [done| |apply NoDup_singleton].
      intros z Hz ->%list_elem_of_singleton. apply list_elem_of_In, in_map_iff in Hz as (w & Ew & Hw%list_elem_of_In).
      destruct (fresh_session s n w Ok) as [D _]; [lia|done|congruence].
    + intros z [Hz| ->%list_elem_of_singleton]%elem_of_app; [|exists n, m; split_and!; done || lia].
      destruct (Hf z Hz) as (a & b & ? & ? & ? & ?). exists a, b. split_and!; done || lia.
  - pose proof (markUsed_evo now (a_sessions s) (ss_id x)) as F. unfold sessionsOk. rewrite E. split.
    + rewrite List.map_app. simpl. rewrite (sessEvo_ids _ _ F). apply NoDup_app. split_and!; [done| |apply NoDup_singleton].
      intros z Hz ->%list_elem_of_singleton. apply list_elem_of_In, in_map_iff in Hz as (w & Ew & Hw%list_elem_of_In).
      destruct (fresh_session s n w Ok) as [D _]; [lia|done|congruence].
    + intros z [Hz| ->%list_elem_of_singleton]%elem_of_app.
      * eapply sessionsOk_evo; [exact F| |exact Hf|exact Hz]. lia.
      * destruct (Hf x Hx) as (a & b & _ & Eb & _ & ?). exists n, b. rewrite Hi, Hfa. split_and!; done || lia.
Qed.

Lemma used_dead l x now : NoDup (map ss_id l) -> x ∈ l -> oneLive l ->
  forall z, z ∈ updId (ss_id x) (markUsed now) l -> live x = true -> live z = true -> ss_familyId z <> ss_familyId x.
Proof.
  intros Hn Hx Ho z Hz Lx Lz Ef. pose proof (markUsed_evo now l (ss_id x)) as F.
  destruct (sessEvo_elem _ _ _ F Hz) as (w & Hw & (I & Fa & _ & V)%sessEvo_fields).
  assert (w = x) as -> by (apply Ho; auto; congruence).
  assert (markUsed now x ∈ updId (ss_id x) (markUsed now) l) as Hm.
  { apply findId_some with (id := ss_id x). apply findId_updId; [done|]. by apply (findId_unique l x). }
  assert (z = markUsed now x) as ->; [|done].
  apply (NoDup_map_inj ss_id (updId (ss_id x) (markUsed now) l)); [by rewrite (sessEvo_ids _ _ F)|done|done|done].
Qed.

Lemma SessStep_oneLive s s' : SessStep s s' -> sessionsOk s -> oneLive (a_sessions s) -> oneLive (a_sessions s').
Proof.
  intros St Ok Ho. pose proof Ok as [Hn Hf]. destruct St as [F Hle|x n m E Hi Hfa B1 B2|x y n now Hx Hl E Hfa Hi B].
  - by eapply oneLive_evo.
  - rewrite E. intros u v Hu Hv Lu Lv Ef. apply elem_of_app in Hu as [Hu| ->%list_elem_of_singleton], Hv as [Hv| ->%list_elem_of_singleton];
      [by apply Ho|exfalso|exfalso|done].
    + destruct (fresh_session s m u Ok) as [_ D]; [lia|done|congruence].
    + destruct (fresh_session s m v Ok) as [_ D]; [lia|done|congruence].
  - pose proof (markUsed_evo now (a_sessions s) (ss_id x)) as F. rewrite E.
    intros u v Hu Hv Lu Lv Ef. apply elem_of_app in Hu as [Hu| ->%list_elem_of_singleton], Hv as [Hv| ->%list_elem_of_singleton];
      [by apply (oneLive_evo _ _ Hn Ho F)|exfalso|exfalso|done].
    + by apply (used_dead _ x now Hn Hx Ho u); [| | |congruence].
    + by apply (used_dead _ x now Hn Hx Ho v); [| | |congruence].
Qed.

(** A family with sessions but no live one. *)
Definition deadFamily (fam : string) (l : list Session) : Prop :=
  (exists x, x ∈ l /\ ss_familyId x = fam) /\ forall x, x ∈ l -> ss_familyId x = fam -> live x = false.

Lemma SessStep_dead fam s s' : SessStep s s' -> sessionsOk s -> deadFamily fam (a_sessions s) -> deadFamily fam (a_sessions s').
Proof.
  intros St Ok [(x0 & X0 & E0) Hd].
  assert (forall l', Forall2 sessEvo (a_sessions s) l' -> deadFamily fam l') as Ev.
  { intros l' F. split.
    - apply list_elem_of_lookup in X0 as [i Hi]. destruct (Forall2_lookup_l _ _ _ _ _ F Hi) as (y & Hy & (_ & Fa & _)%sessEvo_fields).
      exists y. split; [by eapply list_elem_of_lookup_2|congruence].
    - intros y Hy Fy. destruct (sessEvo_elem _ _ _ F Hy) as (x & Hx & (_ & Fa & _ & V)%sessEvo_fields).
      destruct (live y); [|done]. rewrite (Hd x Hx) in V by congruence. symmetry. auto. }
  destruct St as [F Hle|x n m E Hi Hfa B1 B2|x y n now Hx Hl E Hfa Hi B]; rewrite ?E.
  - by apply Ev.
  - split; [exists x0; split; [apply elem_of_app; by left|done]|].
    intros z [Hz| ->%list_elem_of_singleton]%elem_of_app Fz; [by apply Hd|].
    destruct (fresh_session s m x0 Ok) as [_ D]; [lia|done|congruence].
  - destruct (Ev _ (markUsed_evo now (a_sessions s) (ss_id x))) as [(w & Hw & Ew) Hd'].
    split; [exists w; split; [apply elem_of_app; by left|done]|].
    intros z [Hz| ->%list_elem_of_singleton]%elem_of_app Fz; [by apply Hd'|].
    rewrite (Hd x) in Hl by congruence. done.
Qed.
End SessionSteps.

(** ** Every operation is a run of session steps *)

Section Runs.
Context `{Platform} `{!PlatformLaws} `{Secrets}.

Lemma sessEvo_refl l : Forall2 sessEvo l l.
Proof. induction l; by constructor. Qed.

Lemma step_touch s s' : Forall2 sessEvo (a_sessions s) (a_sessions s') -> (a_next s <= a_next s')%N -> sessRun s s'.
Proof. intros F N. by apply rtc_once, SessTouch. Qed.

Lemma step_same s s' : a_sessions s' = a_sessions s -> (a_next s <= a_next s')%N -> sessRun s s'.
Proof. intros E N. apply step_touch; [|done]. rewrite E. apply sessEvo_refl. Qed.

Lemma sessRun_modify f : (forall s, a_sessions (f s) = a_sessions s /\ a_next (f s) = a_next s) -> keeps sessRun (modify f).
Proof. intros Hf s r s' [= <- <-]. destruct (Hf s) as [E N]. apply step_same; [done|]. rewrite N. done. Qed.

Lemma freshId_run : keeps sessRun freshId.
Proof. intros s r s' [= <- <-]. apply step_same; simpl; [done|lia]. Qed.

Lemma hit_run now k w : keeps sessRun (hit now k w).
Proof.
  intros s r s' E. unfold hit in E. destruct (match _ with Some _ => _ | None => _ end) as [old ttl].
  injection E as <- <-. by apply step_same.
Qed.

Lemma revoke_evo now p l : Forall2 sessEvo l (updWhere p (revoke now) l).
Proof.
  unfold updWhere. induction l as [|x l IH]; simpl; constructor; [|done]. destruct (p x); [|reflexivity].
  split; [done|]. simpl. split; [done|eauto].
Qed.

Lemma updateSessions_run now p : keeps sessRun (updateSessions p (revoke now)).
Proof. intros s r s' [= <- <-]. apply step_touch; [apply revoke_evo|done]. Qed.

Lemma updateSession_run now id : keeps sessRun (updateSession id (revoke now)).
Proof.
  unfold updateSession. keeps_step; [keeps_step|]. destruct a as [y|]; [|keeps_step]. intros s r s' [= <- <-]. apply step_touch; [|done].
  apply updFirst_Forall2; [reflexivity|]. intros x _. split; [done|]. simpl. split; [done|eauto].
Qed.

Lemma updateAccount_run id f : keeps sessRun (updateAccount id f).
Proof. unfold updateAccount. keeps_auto. by apply sessRun_modify. Qed.

Lemma createAccount_run a : keeps sessRun (createAccount a).
Proof. unfold createAccount. keeps_auto. by apply sessRun_modify. Qed.

Lemma revokeAll_run now id : keeps sessRun (revokeAllForUser now id).
Proof.
  intros s r s' E. unfold revokeAllForUser in E.
  destruct ((updateSessions _ _ ;; updateAccount _ _) s) as [[x|e] s1] eqn:E1; injection E as <- <-; [|reflexivity].
  revert E1. apply (keeps_bind sessRun); [apply updateSessions_run|intros _; apply updateAccount_run].
Qed.

Lemma issueSession_new now u b : keeps sessRun (issueSession now u b None).
Proof.
  intros s r s' E. unfold issueSession, generateRefreshToken, signAccessToken, createSession, mbind, M_bind, mret, M_ret, freshId, modify in E.
  injection E as <- <-. apply rtc_once. eapply (SessNew _ _ _ (a_next s + 1)%N (a_next s + 1 + 1)%N); simpl; try done; lia.
Qed.

Lemma refreshCheck_ok now tok s x u s1 : refreshCheck now tok s = (Ok (x, u), s1) ->
  s1 = s /\ findFirst (fun x => ss_refreshHash x =s hashRefreshToken tok) (a_sessions s) = Some x /\ live x = true.
Proof.
  unfold refreshCheck. intros Hc. apply bind_ok in Hc as (? & ? & E1 & Hc). apply gets_ok in E1 as [[= ->] ->].
  apply bind_ok in Hc as (y & ? & E1 & Hc). apply orThrow_ok in E1 as [Hy ->]. apply bind_ok in Hc as (? & s2 & E2 & Hc).
  destruct (_ || _) eqn:Em; [apply bind_ok in E2 as (? & ? & _ & E2); mok|]. mok. simplify_eq.
  split_and!; [done|done|]. apply orb_false_iff in Em as [A B]. apply bool_decide_eq_false in A, B.
  unfold live. rewrite !bool_decide_eq_true_2; [done|by apply eq_None_not_Some|by apply eq_None_not_Some].
Qed.

Lemma refresh_run now tok : keeps sessRun (refresh now tok).
Proof.
  intros s r s' E. unfold refresh in E. apply bind_inv in E as [(e & Hc & _)|([x u] & s1 & Hc & E)].
  2:{ assert (s1 = s /\ x ∈ a_sessions s /\ live x = true) as (-> & Hx & Hl).
    { apply refreshCheck_ok in Hc as (-> & Hy & L). split_and!; [done|by apply findFirst_some in Hy as [? _]|done]. }
    unfold refreshCommit, updateSession in E. destruct (findId (ss_id x) (a_sessions s)) as [x'|] eqn:Ef.
    2:{ unfold mbind, M_bind, gets in E. rewrite Ef in E. injection E as <- <-. reflexivity. }
    unfold issueSession, generateRefreshToken, signAccessToken, createSession, mbind, M_bind, mret, M_ret, freshId, modify, gets in E.
    rewrite Ef in E. injection E as <- <-. apply rtc_once.
    eapply (SessRotate _ _ x _ (a_next s + 1)%N now); simpl; try done; lia. }
  revert Hc. unfold refreshCheck, handleRefreshReuse, audit.
  apply (fun K : keeps sessRun _ => K s _ s'). keeps_auto.
  - apply updateSessions_run.
  - apply updateAccount_run.
  - by apply sessRun_modify.
Qed.
End Runs.

#[export] Hint Resolve freshId_run hit_run updateSessions_run updateSession_run updateAccount_run createAccount_run
  revokeAll_run issueSession_new refresh_run : keeps.

(** ** Traces *)

(** The requests that write the identity tables, with the time they run at. *)
Inductive AuthOp :=
  | OpLogin (now : Z) (email password : string) (ip captcha : option string)
  | OpRegister (now : Z) (name email password confirm : string) (captcha ip : option string)
  | OpGoogle (now : Z) (subject email : string) (name : option string)
  | OpRefresh (now : Z) (token : string)
  | OpLogout (now : Z) (sessionId jti : string) (allDevices : bool) (userId : string)
  | OpResetRequest (now : Z) (email : string) (ip captcha : option string)
  | OpReset (now : Z) (token newPassword confirm : string)
  | OpChange (now : Z) (userId current newPassword confirm : string)
  | OpCreateUser (now : Z) (dto : CreateUserDto) (actor : AuthenticatedUser)
  | OpUpdateUser (now : Z) (id : string) (dto : UpdateUserDto) (actor : AuthenticatedUser)
  | OpSetActive (now : Z) (id : string) (isActive : bool) (actor : AuthenticatedUser)
  | OpRemoveUser (now : Z) (d : Db) (id : string) (actor : AuthenticatedUser).

Definition opTime (op : AuthOp) : Z :=
  match op with
  | OpLogin t _ _ _ _ | OpRegister t _ _ _ _ _ _ | OpGoogle t _ _ _ | OpRefresh t _ | OpLogout t _ _ _ _
  | OpResetRequest t _ _ _ | OpReset t _ _ _ | OpChange t _ _ _ _ | OpCreateUser t _ _ | OpUpdateUser t _ _ _
  | OpSetActive t _ _ _ | OpRemoveUser t _ _ _ => t
  end.

(** The state a request leaves behind, whether it succeeded or not. *)
Definition runAuth `{Platform} `{Secrets} (op : AuthOp) (s : Auth) : Auth :=
  match op with
  | OpLogin t e p ip c => (login t e p ip c s).2
  | OpRegister t n e p q c ip => (register t n e p q c ip s).2
  | OpGoogle t sub e n => (loginWithGoogle t sub e n s).2
  | OpRefresh t tok => (refresh t tok s).2
  | OpLogout t sid j all u => (logout t sid j all u s).2
  | OpResetRequest t e ip c => (requestPasswordReset t e ip c s).2
  | OpReset t tok p q => (resetPassword t tok p q s).2
  | OpChange t u c p q => (changePassword t u c p q s).2
  | OpCreateUser t dto a => (createUser t dto a s).2
  | OpUpdateUser t id dto a => (updateUser id dto a s).2
  | OpSetActive t id b a => (setActive id b a s).2
  | OpRemoveUser t d id a => (removeUser t d id a s).2
  end.

Definition runAuths `{Platform} `{Secrets} (ops : list AuthOp) (s : Auth) : Auth := fold_left (fun s op => runAuth op s) ops s.

Create HintDb auth_ops.
#[export] Hint Unfold login loginAccount register generateUniqueUsername passwordHash turnstile checkLoginRateLimit
  checkRegisterRateLimit checkResetRateLimit emailAndIpLimit registerFailedLogin audit redisSet redisDel redisGet
  loginWithGoogle linkGoogle accountForGoogle createLink logout denylistJti denylistSession requestPasswordReset
  resetPassword changePassword createUser updateUser setActive removeUser activeUser : auth_ops.

Section Traces.
Context `{Platform} `{!PlatformLaws} `{Secrets}.

Ltac sess_auto := autounfold with auth_ops;
  repeat (first [solve [eauto with keeps] | keeps_step | (apply sessRun_modify; done)]).

Lemma runAuth_run op s : sessRun s (runAuth op s).
Proof.
  destruct op; simpl;
    match goal with |- sessRun ?s (?m ?s).2 => apply (fun K : keeps sessRun m => K s (m s).1 (m s).2 (surjective_pairing _)) end.
  all: sess_auto.
Qed.

Lemma sessRun_ind (P : Auth -> Prop) : (forall s s', SessStep s s' -> sessionsOk s -> P s -> P s') ->
  forall s s', sessRun s s' -> sessionsOk s -> P s -> sessionsOk s' /\ P s'.
Proof. intros HP s s' Hr. induction Hr as [|s s1 s2 St _ IH]; [done|]. intros Ok Ps. apply IH; [by eapply SessStep_ok|by eapply HP]. Qed.

Lemma runAuths_run ops s : sessRun s (runAuths ops s).
Proof.
  revert s. induction ops as [|op ops IH]; intros s; [reflexivity|]. etransitivity; [apply (runAuth_run op)|apply IH].
Qed.
End Traces.

(** ** Theorems: sessions *)

Section SessionTheorems.
Context `{Platform} `{!PlatformLaws} `{Secrets}.

Definition sessionOf (tok : string) (s : Auth) : option Session :=
  findFirst (fun x => ss_refreshHash x =s hashRefreshToken tok) (a_sessions s).

Lemma evolves_lookup tok l l' x : evolves sessEvo l l' ->
  findFirst (fun x => ss_refreshHash x =s hashRefreshToken tok) l = Some x ->
  exists y, findFirst (fun x => ss_refreshHash x =s hashRefreshToken tok) l' = Some y /\ sessEvo x y.
Proof.
  intros (l1 & l2 & -> & F). unfold findFirst. induction F as [|a b l l1 E F IH]; simpl; [done|].
  pose proof (sessEvo_fields _ _ E) as (_ & _ & -> & _). destruct (bool_decide _); [intros [= <-]; eauto|apply IH].
Qed.

Lemma SessStep_evolves s s' : SessStep s s' -> evolves sessEvo (a_sessions s) (a_sessions s').
Proof.
  intros [F _|x n m E _ _ _ _|x y n now _ _ E _ _ _].
  - exists (a_sessions s'), []. by rewrite app_nil_r.
  - rewrite E. apply evolves_app, _.
  - rewrite E. eexists _, _. split; [done|]. apply markUsed_evo.
Qed.

Lemma sessRun_lookup tok s s' x : sessRun s s' -> sessionOf tok s = Some x ->
  exists y, sessionOf tok s' = Some y /\ sessEvo x y.
Proof.
  intros Hr. revert x. induction Hr as [s|s s1 s2 St _ IH]; intros x Hx; [by exists x|].
  destruct (evolves_lookup _ _ _ _ (SessStep_evolves _ _ St) Hx) as (y & Hy & E1).
  destruct (IH y Hy) as (z & Hz & E2). exists z. split; [done|]. by etransitivity.
Qed.

Lemma not_live x : live x = false <-> is_Some (ss_usedAt x) \/ is_Some (ss_revokedAt x).
Proof.
  unfold live. rewrite andb_false_iff, !bool_decide_eq_false, <- !not_eq_None_Some. done.
Qed.

Lemma updateAccount_sessions id f : keeps (same a_sessions) (updateAccount id f).
Proof. unfold updateAccount. keeps_auto. intros s r s' [= <- <-]. done. Qed.

(** A token whose session is used or revoked is refused, and its family revoked. *)
Lemma refresh_dead now tok s x r s' : sessionOf tok s = Some x -> live x = false -> refresh now tok s = (r, s') ->
  (exists e, r = Throw e) /\
  a_sessions s' = updWhere (fun y => (ss_familyId y =s ss_familyId x) && (ss_revokedAt y =s None)) (revoke now) (a_sessions s).
Proof.
  intros Hx Hl Hr. unfold refresh, refreshCheck in Hr. apply bind_inv in Hr as [(e & Hr & ->)|(a & s1 & Hc & _)].
  2:{ apply bind_ok in Hc as (? & ? & E1 & Hc). apply gets_ok in E1 as [[= ->] ->]. apply bind_ok in Hc as (y & ? & E1 & Hc).
      apply orThrow_ok in E1 as [Hy ->]. unfold sessionOf in Hx. rewrite Hx in Hy. injection Hy as <-.
      apply bind_ok in Hc as (? & s2 & E2 & Hc). apply not_live in Hl. 
      rewrite (proj2 (orb_true_iff _ _)) in E2 by (rewrite !bool_decide_eq_true; done).
      apply bind_ok in E2 as (? & ? & _ & E2). by apply throw_ok in E2. }
  split; [eauto|]. unfold mbind at 1, M_bind at 1, gets at 1 in Hr. unfold sessionOf in Hx. rewrite Hx in Hr.
  unfold mbind at 1, M_bind at 1, orThrow, mret at 1, M_ret at 1 in Hr. apply not_live in Hl.
  rewrite (proj2 (orb_true_iff _ _)) in Hr by (rewrite !bool_decide_eq_true; done).
  apply bind_inv in Hr as [(e' & Hr & _)|(? & s1 & Hr & _)]; [|apply bind_ok in Hr as (? & ? & _ & Hr); by apply throw_ok in Hr].
  assert (exists q, handleRefreshReuse now (ss_familyId x) (ss_userId x) s = (q, s')) as [q Hq].
  { apply bind_inv in Hr as [(? & Hr & _)|(? & s1 & Hr & E)]; [by eexists|]. injection E as _ <-. by eexists. }
  unfold handleRefreshReuse in Hq. apply bind_inv in Hq as [(? & Hm & _)|(? & s1 & Hm & Hq)]; [by apply modify_ok in Hm as [? _]|].
  apply modify_ok in Hm as [_ ->].
  apply (keeps_same a_sessions) in Hq; [done|]. apply (keeps_bind (same a_sessions)); [apply updateAccount_sessions|].
  intros _ ? ? ? (_ & ->)%modify_ok. done.
Qed.

Lemma refreshCommit_used now tok s x u r s1 : NoDup (map ss_id (a_sessions s)) -> sessionOf tok s = Some x ->
  refreshCommit now x u s = (Ok r, s1) -> exists x1, sessionOf tok s1 = Some x1 /\ live x1 = false.
Proof.
  intros Hn Hx Hr. apply bind_ok in Hr as (? & s2 & E & Hr). unfold updateSession in E.
  apply bind_ok in E as (o & ? & E1 & E). apply gets_ok in E1 as [[= ->] ->]. destruct (findId _ _) as [x'|] eqn:Ef; [|mok].
  apply modify_ok in E as [_ ->].
  unfold issueSession, generateRefreshToken, signAccessToken, createSession, mbind, M_bind, mret, M_ret, freshId, modify in Hr.
  injection Hr as _ <-. unfold sessionOf. simpl. exists (markUsed now x).
  assert (findFirst (fun x => ss_refreshHash x =s hashRefreshToken tok) (updId (ss_id x) (markUsed now) (a_sessions s)) = Some (markUsed now x)) as E.
  { revert Hx Hn. unfold sessionOf, findFirst, updId. clear. induction (a_sessions s) as [|y l IH]; simpl; [done|].
    change (rid y) with (ss_id y). intros Hx [Hy Hn]%NoDup_cons. destruct (bool_decide (ss_refreshHash y = _)) eqn:B.
    - injection Hx as ->. rewrite bool_decide_eq_true_2 by done. simpl. by rewrite B.
    - rewrite bool_decide_eq_false_2; [simpl; rewrite B; by apply IH|]. intros E. apply Hy. rewrite E.
      apply List.find_some in Hx as [Hx _]. apply list_elem_of_In, in_map, Hx. }
  split; [|done]. rewrite findFirst_app, E. done.
Qed.

Lemma revoked_family now fam l y : y ∈ updWhere (fun y => (ss_familyId y =s fam) && (ss_revokedAt y =s None)) (revoke now) l ->
  ss_familyId y = fam -> is_Some (ss_revokedAt y).
Proof.
  intros (x & Hx & ->)%updWhere_elem. destruct (_ && _) eqn:E; [simpl; eauto|].
  intros Hf. rewrite (bool_decide_eq_true_2 (ss_familyId x = fam)) in E by done. apply bool_decide_eq_false in E.
  by apply not_eq_None_Some.
Qed.

(** C28: rotation keeps one thread per sign-in.  Whatever sequence of sign-ins,
    registrations, refreshes, logouts, password resets and admin actions runs, every
    session family has at most one session whose refresh token still works. *)
Theorem one_live_session_per_family ops s : sessionsOk s -> oneLive (a_sessions s) ->
  sessionsOk (runAuths ops s) /\ oneLive (a_sessions (runAuths ops s)).
Proof.
  intros Ok Ho. apply (sessRun_ind (fun s => oneLive (a_sessions s)) SessStep_oneLive s); [apply runAuths_run|done|done].
Qed.

(** C27: a refresh token works once.  After it was exchanged, presenting it again, after
    any other requests, is refused and revokes every session of its family. *)
Theorem refresh_token_single_use now tok s r s1 ops now' r' s2 : sessionsOk s ->
  refresh now tok s = (Ok r, s1) -> refresh now' tok (runAuths ops s1) = (r', s2) ->
  (exists e, r' = Throw e) /\
  exists x, sessionOf tok s2 = Some x /\ forall y, y ∈ a_sessions s2 -> ss_familyId y = ss_familyId x -> is_Some (ss_revokedAt y).
Proof.
  intros Ok Hr1 Hr2. unfold refresh in Hr1. apply bind_ok in Hr1 as ([x u] & s0 & Hc & Hm).
  apply refreshCheck_ok in Hc as (-> & Hx & Hl).
  destruct (refreshCommit_used now tok s x u r s1 (proj1 Ok) Hx Hm) as (x1 & Hx1 & Hd1).
  destruct (sessRun_lookup tok s1 (runAuths ops s1) x1 (runAuths_run ops s1) Hx1) as (y & Hy & E).
  assert (live y = false) as Hdy by (destruct (live y) eqn:L; [|done]; apply sessEvo_fields in E as (_ & _ & _ & V); rewrite V in Hd1; done).
  destruct (refresh_dead _ _ _ _ _ _ Hy Hdy Hr2) as (He & Es). split; [done|].
  destruct (sessRun_lookup tok _ s2 y (refresh_run now' tok _ _ _ Hr2) Hy) as (z & Hz & Ez). exists z. split; [done|].
  intros w Hw Fw. rewrite Es in Hw. eapply revoked_family; [exact Hw|]. apply sessEvo_fields in Ez as (_ & <- & _). done.
Qed.

(** A detected theft ends the family for good.  Once a used or revoked token is
    presented, no token of the same family is ever accepted again, whatever happens
    in between; the victim has to sign in anew. *)
Theorem reuse_ends_family now tok s x r s1 ops now' tok' y r' s2 : sessionsOk s ->
  sessionOf tok s = Some x -> live x = false -> refresh now tok s = (r, s1) ->
  sessionOf tok' (runAuths ops s1) = Some y -> ss_familyId y = ss_familyId x ->
  refresh now' tok' (runAuths ops s1) = (r', s2) -> (exists e, r = Throw e) /\ exists e, r' = Throw e.
Proof.
  intros Ok Hx Hl Hr Hy Hf Hr'. destruct (refresh_dead _ _ _ _ _ _ Hx Hl Hr) as (He & Es). split; [done|].
  pose proof (refresh_run now tok _ _ _ Hr) as R1.
  destruct (sessRun_ind (fun _ => True) (fun _ _ _ _ _ => I) s s1 R1 Ok I) as [Ok1 _].
  assert (deadFamily (ss_familyId x) (a_sessions s1)) as D1.
  { destruct (sessRun_lookup tok s s1 x R1 Hx) as (z & Hz & Ez). apply findFirst_some in Hz as [Hz _].
    split; [exists z; split; [done|by apply sessEvo_fields in Ez as (_ & -> & _)]|].
    intros w Hw Fw. apply not_live. right. rewrite Es in Hw. by eapply revoked_family. }
  destruct (sessRun_ind (fun s => deadFamily (ss_familyId x) (a_sessions s)) (SessStep_dead _) _ _ (runAuths_run ops s1) Ok1 D1) as [_ [_ D2]].
  eapply refresh_dead; [exact Hy| |exact Hr']. apply D2; [|done]. by apply findFirst_some in Hy as [? _].
Qed.
End SessionTheorems.

Section Races.
Context `{Platform} `{!PlatformLaws} `{Secrets}.

Lemma issueSession_run now u b s rot :
  exists r s1 x, issueSession now u b rot s = (Ok r, s1) /\ a_sessions s1 = a_sessions s ++ [x] /\ live x = true /\
    ss_id x = uuidv7 (a_next s + 1) /\ a_next s1 = (a_next s + 1 + 1 + 1 + 1)%N /\ ss_familyId x = default (uuidv7 (a_next s + 1 + 1)) (fst <$> rot).
Proof.
  unfold issueSession, generateRefreshToken, signAccessToken, createSession, mbind, M_bind, mret, M_ret, freshId, modify.
  eexists _, _, _. split; [reflexivity|]. split_and!; done.
Qed.

Lemma refreshCommit_run now x u s : findId (ss_id x) (a_sessions s) <> None ->
  exists r s1 y, refreshCommit now x u s = (Ok r, s1) /\ a_sessions s1 = updId (ss_id x) (markUsed now) (a_sessions s) ++ [y] /\
    live y = true /\ ss_id y = uuidv7 (a_next s + 1) /\ a_next s1 = (a_next s + 1 + 1 + 1 + 1)%N /\ ss_familyId y = ss_familyId x.
Proof.
  intros Hx. unfold refreshCommit, mbind at 1, M_bind at 1, updateSession, mbind at 1, M_bind at 1, gets at 1.
  destruct (findId (ss_id x) (a_sessions s)); [|done]. unfold modify.
  edestruct issueSession_run as (r & s1 & y & E & Es & L & I & N & F). exists r, s1, y. split; [exact E|]. done.
Qed.

(** The rotation is not atomic: two requests that both read the session before either
    of them marks it used are both served, and the family is left with two sessions
    whose refresh tokens work. *)
Theorem concurrent_refresh_forks now tok s x u s0 : sessionsOk s -> refreshCheck now tok s = (Ok (x, u), s0) ->
  exists r1 s1 r2 s2 y1 y2, refreshCommit now x u s = (Ok r1, s1) /\ refreshCommit now x u s1 = (Ok r2, s2) /\
    y1 ∈ a_sessions s2 /\ y2 ∈ a_sessions s2 /\ y1 <> y2 /\ live y1 = true /\ live y2 = true /\
    ss_familyId y1 = ss_familyId x /\ ss_familyId y2 = ss_familyId x.
Proof.
  intros Ok (-> & Hx & Hl)%refreshCheck_ok. apply findFirst_some in Hx as [Hx _].
  destruct (refreshCommit_run now x u s) as (r1 & s1 & y1 & E1 & S1 & L1 & I1 & N1 & F1).
  { destruct (findId_elem _ _ Hx) as [? E]. change (rid x) with (ss_id x) in E. by rewrite E. }
  destruct (refreshCommit_run now x u s1) as (r2 & s2 & y2 & E2 & S2 & L2 & I2 & N2 & F2).
  { rewrite S1. destruct (findId_elem _ _ Hx) as [x' E]. change (rid x) with (ss_id x) in E.
    rewrite (findId_app_l _ _ (markUsed now x')); [done|]. by apply findId_updId. }
  exists r1, s1, r2, s2, y1, y2. 
  assert (ss_id y1 <> ss_id x) as Hne by (rewrite I1; intros E; by destruct (fresh_session s (a_next s + 1) x Ok) as [D _]; [lia| |]).
  split_and!; try done.
  - rewrite S2. apply elem_of_app. left.
    assert (y1 ∈ a_sessions s1) as Hy1 by (rewrite S1; apply elem_of_app; right; by apply elem_of_cons; left).
    clear -Hy1 Hne. unfold updId. induction (a_sessions s1) as [|z l IH]; simpl; [done|]. change (rid z) with (ss_id z).
    apply elem_of_cons in Hy1 as [->|Hy1].
    + rewrite bool_decide_eq_false_2 by done. apply elem_of_cons. by left.
    + destruct (bool_decide _); apply elem_of_cons; right; [done|by apply IH].
  - rewrite S2. apply elem_of_app. right. by apply elem_of_cons; left.
  - intros E. rewrite E, I2 in I1. apply uuidv7_inj in I1. lia.
Qed.
End Races.

(** ** Witnesses *)

#[local] Existing Instance Demo.platform.
#[local] Existing Instance DemoSub.laws.

Module DemoAuth.

Definition hashOf (p : string) : string := "$argon2id$v=19$m=65536,t=3,p=2$" +:+ p.

Definition payload : AccessTokenPayload := mkPayload "u" "s" "j" false 2 902.

#[export] Instance secrets : Secrets := {|
  sha256 t := "h:" +:+ t; randomToken n := "tok-" +:+ pretty n; randomHex n := pretty n; randomUUID n := "jti-" +:+ pretty n;
  argonHash _ p := hashOf p; argonVerify h p := Some (h =s hashOf p);
  jwtSign _ := "t1"; jwtVerify _ t := if t =s "t1" then Some payload else None;
  turnstileVerify _ _ := None; citextEq a b := a =s b;
  JWT_ACCESS_TTL_SECONDS := 900; JWT_REFRESH_TTL_SECONDS := 86400; ALLOW_PUBLIC_REGISTRATION := true; PANEL_URL := "https://panel" |}.

Definition account (id role : string) (failures : Z) : Account :=
  mkAccount id (id +:+ "@x") id (hashOf "secret") None None role [] true None None failures None 0 None.

Definition start (failures : Z) : Auth :=
  mkAuth [account "u" "user" failures; account "r" "root_admin" 0; account "a" "admin" 0] [] [] ∅ ∅ [] [] 10%N.

(** Signed in once, the first refresh token used, and the used one. *)
Definition once : Auth := (login 1000 "u@x" "secret" None None (start 0)).2.
Definition rotated : Auth := (refresh 2000 "tok-10" once).2.

Definition admin : AuthenticatedUser := mkAuthUser "a" "s" "j" true "admin" [] None.
Definition promote : AuthOp := OpUpdateUser 1 "u" (mkUpdateUser None None None None (Some "admin")) admin.

End DemoAuth.

#[local] Existing Instance DemoAuth.secrets.

Lemma demo_sessionsOk : sessionsOk DemoAuth.once.
Proof.
  split; [apply (bool_decide_eq_true_1 _); vm_compute; reflexivity|].
  intros x Hx. assert (x = mkSession "id-11" "u" "h:tok-10" "id-12" None 86401000 None None) as ->.
  { vm_compute in Hx. apply list_elem_of_singleton in Hx. exact Hx. }
  exists 11%N, 12%N. vm_compute. done.
Qed.

Lemma demo_refreshed : okRun (refresh 2000 "tok-10" DemoAuth.once) = true.
Proof. vm_compute. reflexivity. Qed.

Lemma one_live_session_per_family_witness :
  oneLive (a_sessions (runAuths [OpRefresh 2000 "tok-10"; OpRefresh 3000 "tok-10"] DemoAuth.once)).
Proof.
  refine (proj2 (one_live_session_per_family [OpRefresh 2000 "tok-10"; OpRefresh 3000 "tok-10"] DemoAuth.once demo_sessionsOk _)).
  intros x y Hx Hy _ _ _. vm_compute in Hx, Hy. apply list_elem_of_singleton in Hx, Hy. congruence.
Defined.

Lemma refresh_token_single_use_witness :
  exists e, (refresh 3000 "tok-10" (runAuths [OpResetRequest 2500 "u@x" None None] DemoAuth.rotated)).1 = Throw e.
Proof.
  pose proof demo_refreshed as K. destruct (refresh 2000 "tok-10" DemoAuth.once) as [[r|e] s1] eqn:E1; [|discriminate K].
  assert (DemoAuth.rotated = s1) as -> by (unfold DemoAuth.rotated; rewrite E1; reflexivity).
  destruct (refresh 3000 "tok-10" (runAuths [OpResetRequest 2500 "u@x" None None] s1)) as [r' s2] eqn:E2.
  exact (proj1 (refresh_token_single_use 2000 "tok-10" DemoAuth.once r s1 _ 3000 r' s2 demo_sessionsOk E1 E2)).
Defined.

Lemma demo_reused : (sessionOf "tok-10" DemoAuth.rotated) = Some (mkSession "id-11" "u" "h:tok-10" "id-12" None 86401000 (Some 2000) None).
Proof. vm_compute. reflexivity. Qed.

Lemma demo_rotatedOk : sessionsOk DemoAuth.rotated.
Proof.
  pose proof demo_refreshed as K. unfold DemoAuth.rotated. destruct (refresh 2000 "tok-10" DemoAuth.once) as [r s1] eqn:E1.
  exact (proj1 (sessRun_ind (fun _ => True) (fun _ _ _ _ _ => I) _ _ (refresh_run _ _ _ _ _ E1) demo_sessionsOk I)).
Qed.

(** The stolen token [tok-10] is replayed; its successor [tok-14] is then dead too. *)
Lemma reuse_ends_family_witness :
  exists e, (refresh 4000 "tok-14" (refresh 3000 "tok-10" DemoAuth.rotated).2).1 = Throw e.
Proof.
  destruct (refresh 3000 "tok-10" DemoAuth.rotated) as [r s1] eqn:E1. cbn [snd].
  destruct (refresh 4000 "tok-14" s1) as [r' s2] eqn:E2.
  assert (exists y, sessionOf "tok-14" s1 = Some y /\ ss_familyId y = "id-12") as (y & Hy & Hf).
  { assert (s1 = (refresh 3000 "tok-10" DemoAuth.rotated).2) as -> by (rewrite E1; reflexivity).
    eexists. split; vm_compute; reflexivity. }
  exact (proj2 (reuse_ends_family 3000 "tok-10" DemoAuth.rotated _ r s1 [] 4000 "tok-14" y r' s2 demo_rotatedOk demo_reused eq_refl E1 Hy Hf E2)).
Defined.

Lemma concurrent_refresh_forks_witness :
  exists s2 y1 y2, y1 ∈ a_sessions s2 /\ y2 ∈ a_sessions s2 /\ y1 <> y2 /\ live y1 = true /\ live y2 = true /\
    ss_familyId y1 = ss_familyId y2.
Proof.
  assert (okRun (refreshCheck 2000 "tok-10" DemoAuth.once) = true) as K by (vm_compute; reflexivity).
  destruct (refreshCheck 2000 "tok-10" DemoAuth.once) as [[[x u]|e] s0] eqn:E; [|discriminate K].
  destruct (concurrent_refresh_forks 2000 "tok-10" DemoAuth.once x u s0 demo_sessionsOk E)
    as (r1 & s1 & r2 & s2 & y1 & y2 & _ & _ & A & B & C & D1 & D2 & F1 & F2).
  exists s2, y1, y2. split; [exact A|split; [exact B|split; [exact C|split; [exact D1|split; [exact D2|]]]]].
  rewrite F1, F2. reflexivity.
Defined.
