(* ===== verification/AccountRules.v ===== *)
(** AccountRules: what the identity tables guarantee.

    The bound on password guessing, the finality of a revocation, the effect of a
    password reset, and the rank rules of user management, over all sequences of
    requests ([runAuths] of [Sessions]). *)

From S2P Require Import Prelude JsNum Capacity Store Scheduler Subscriptions JsString Accounts Sessions.
From Stdlib Require Import Ascii String Sorted Lia.

Local Open Scope Z_scope.

(** ** Guessing a password *)

Record Attempt := mkAttempt { at_time : Z; at_password : string; at_ip : option string; at_captcha : option string }.

Section Lockout.
Context `{Platform} `{Secrets}.

Definition attempt (email : string) (a : Attempt) (s : Auth) : Auth :=
  (login (at_time a) email (at_password a) (at_ip a) (at_captcha a) s).2.

(** Does the attempt get as far as comparing the password? *)
Definition reached (email : string) (a : Attempt) (s : Auth) : bool :=
  match (turnstile (at_captcha a) (at_ip a) ;; checkLoginRateLimit (at_time a) (at_ip a)) s with
  | (Ok _, s1) => match byEmail email (a_accounts s1) with Some u => negb (isLocked (at_time a) u) | None => false end
  | (Throw _, _) => false
  end.

Fixpoint guesses (email : string) (l : list Attempt) (s : Auth) : Z :=
  match l with
  | [] => 0
  | a :: l' => (if reached email a s then 1 else 0) + guesses email l' (attempt email a s)
  end.

Lemma hit_accounts now k w : keeps (same a_accounts) (hit now k w).
Proof.
  intros s r s' E. unfold hit in E. destruct (match _ with Some _ => _ | None => _ end) as [old ttl].
  by injection E as <- <-.
Qed.

Lemma gate_accounts now cap ip : keeps (same a_accounts) (turnstile cap ip ;; checkLoginRateLimit now ip).
Proof.
  unfold turnstile, checkLoginRateLimit. keeps_auto; apply hit_accounts.
Qed.

Lemma byEmail_updId email rows u (f : Account -> Account) : NoDup (map ac_id rows) -> byEmail email rows = Some u ->
  ac_id (f u) = ac_id u -> ac_email (f u) = ac_email u -> ac_deletedAt (f u) = ac_deletedAt u ->
  byEmail email (updId (ac_id u) f rows) = Some (f u).
Proof.
  unfold byEmail, findFirst, updId. induction rows as [|x rows IH]; simpl; [done|]. change (rid x) with (ac_id x).
  intros [Hx Hn]%NoDup_cons Hf Hi He Hd. destruct (citextEq (ac_email x) email && _) eqn:B.
  - injection Hf as ->. rewrite bool_decide_eq_true_2 by done. simpl. by rewrite He, Hd, B.
  - rewrite bool_decide_eq_false_2; [simpl; rewrite B; by apply IH|]. intros E. apply Hx. rewrite E.
    apply List.find_some in Hf as [Hf _]. apply list_elem_of_In, in_map, Hf.
Qed.

Lemma failedRow_fields now c a : ac_id (failedRow now c a) = ac_id a /\ ac_email (failedRow now c a) = ac_email a /\
  ac_username (failedRow now c a) = ac_username a /\ ac_deletedAt (failedRow now c a) = ac_deletedAt a /\
  ac_passwordHash (failedRow now c a) = ac_passwordHash a /\ ac_failedLogins (failedRow now c a) = c + 1 /\
  ac_lockedUntil (failedRow now c a) = if c + 1 >=? 5 then Some (now + LOCKOUT_MINUTES * 60000) else ac_lockedUntil a.
Proof. unfold failedRow, MAX_FAILED_LOGINS. by destruct (c + 1 >=? 5). Qed.

Lemma bind_assoc3 {B} (m1 m2 : MA unit) (k : MA B) s : (m1 ;; m2 ;; k) s = ((m1 ;; m2) ;; k) s.
Proof. unfold mbind, M_bind. by destruct (m1 s) as [[?|?] ?]. Qed.

(** A wrong password: refused; counted exactly when it was compared. *)
Lemma attempt_wrong email a s u : NoDup (map ac_id (a_accounts s)) -> byEmail email (a_accounts s) = Some u ->
  passwordVerify (ac_passwordHash u) (at_password a) = false -> ac_failedLogins u + 1 <= 32767 ->
  a_accounts (attempt email a s) =
    if reached email a s then updId (ac_id u) (failedRow (at_time a) (ac_failedLogins u)) (a_accounts s) else a_accounts s.
Proof.
  intros Hn Hu Hw Hc. unfold attempt, reached, login.
  rewrite bind_assoc3. unfold mbind at 1, M_bind at 1.
  destruct ((turnstile _ _ ;; checkLoginRateLimit _ _) s) as [[x|e] s1] eqn:E; pose proof (gate_accounts _ _ _ _ _ _ E) as G; unfold same in G; [|done].
  unfold mbind at 1, M_bind at 1, gets at 1. rewrite G, Hu. unfold loginAccount.
  destruct (isLocked (at_time a) u); simpl; [done|]. rewrite Hw. simpl.
  unfold registerFailedLogin, updateAccount, mbind, M_bind, gets. rewrite G.
  assert (findId (ac_id u) (a_accounts s) = Some u) as Hf.
  { apply (findId_unique (a_accounts s) u); [done|]. by apply findFirst_some in Hu as [? _]. }
  destruct (failedRow_fields (at_time a) (ac_failedLogins u) u) as (_ & F2 & F3 & F4 & _ & F6 & _).
  rewrite Hf, F6. assert ((32767 <? ac_failedLogins u + 1) = false) as -> by lia. simpl.
  assert (sameNames (failedRow (at_time a) (ac_failedLogins u) u) u = true) as ->.
  { unfold sameNames. rewrite F2, F3, F4. by rewrite !bool_decide_eq_true_2. }
  simpl. by rewrite G.
Qed.

Lemma reached_unlocked email a s u : byEmail email (a_accounts s) = Some u -> reached email a s = true ->
  isLocked (at_time a) u = false.
Proof.
  unfold reached. intros Hu. destruct ((turnstile _ _ ;; checkLoginRateLimit _ _) s) as [[x|e] s1] eqn:E; [|done].
  pose proof (gate_accounts _ _ _ _ _ _ E) as G. unfold same in G. rewrite G, Hu. apply negb_true_iff.
Qed.

Definition M15 : Z := LOCKOUT_MINUTES * 60000.

(** What is left to guess from failure count [f] and lock [lk]. *)
Definition budget (f : Z) (lk : option Z) (t0 T : Z) : Z :=
  if f <? 5 then (5 - f) + Z.max 0 ((T - t0) / M15)
  else match lk with Some L => Z.max 0 (1 + (T - L) / M15) | None => 0 end.

Lemma div_M15 a b : a <= b -> a / M15 <= b / M15.
Proof. intros. by apply Z.div_le_mono. Qed.

Lemma budget_step f lk t0 t T : 0 <= f -> t0 <= t <= T -> ((f <? 5) = false -> exists L, lk = Some L /\ L <= t) ->
  1 + budget (f + 1) (if f + 1 >=? 5 then Some (t + M15) else lk) t T <= budget f lk t0 T.
Proof.
  intros Hf Ht Hl. unfold budget. assert ((T - (t + M15)) / M15 = (T - t) / M15 - 1) as E.
  { replace (T - (t + M15)) with (T - t + (-1) * M15) by lia. rewrite Z.div_add by done. lia. }
  assert (0 <= (T - t) / M15) as P by (apply Z.div_pos; [lia|done]).
  destruct (Z.ltb_spec f 5) as [Lf|Lf].
  - pose proof (div_M15 (T - t) (T - t0) ltac:(lia)). destruct (Z.ltb_spec (f + 1) 5) as [Lf'|Lf'].
    + lia.
    + rewrite (proj2 (Z.geb_le _ _)) by lia. rewrite E. lia.
  - destruct (Hl eq_refl) as (L & -> & HL). pose proof (div_M15 (T - t) (T - L) ltac:(lia)).
    rewrite (proj2 (Z.ltb_ge _ _)), (proj2 (Z.geb_le _ _)) by lia. rewrite E. lia.
Qed.

Lemma guesses_bound email hash T l : forall s u t0, NoDup (map ac_id (a_accounts s)) -> byEmail email (a_accounts s) = Some u ->
  ac_passwordHash u = hash -> (forall a, a ∈ l -> passwordVerify hash (at_password a) = false) ->
  0 <= ac_failedLogins u -> ac_failedLogins u + Z.of_nat (List.length l) <= 32767 ->
  ((ac_failedLogins u <? 5) = false -> is_Some (ac_lockedUntil u)) ->
  (forall a, a ∈ l -> at_time a <= T) -> StronglySorted (fun a b => at_time a <= at_time b) l -> (forall a, a ∈ l -> t0 <= at_time a) ->
  guesses email l s <= budget (ac_failedLogins u) (ac_lockedUntil u) t0 T.
Proof.
  induction l as [|a l IH]; intros s u t0 Hn Hu Hh Hw Hz Hc Hl HT Hs Ht; simpl.
  { unfold budget. destruct (Z.ltb_spec (ac_failedLogins u) 5); [lia|]. destruct (ac_lockedUntil u); lia. }
  inversion Hs as [|? ? Hs' Ha]; subst. rewrite List.Forall_forall in Ha.
  assert (a ∈ a :: l) as Hin by (apply elem_of_cons; by left).
  assert (forall x, x ∈ l -> x ∈ a :: l) as Sub by (intros; apply elem_of_cons; by right).
  pose proof (attempt_wrong email a s u Hn Hu (Hw a Hin) ltac:(simpl in Hc; lia)) as Ea.
  assert (forall x, x ∈ l -> at_time a <= at_time x) as Ta by (intros x Hx; apply Ha; by apply list_elem_of_In).
  pose proof (Ht a Hin) as T0. pose proof (HT a Hin) as T1.
  destruct (reached email a s) eqn:R.
  - destruct (failedRow_fields (at_time a) (ac_failedLogins u) u) as (F1 & F2 & F3 & F4 & F5 & F6 & F7).
    change (LOCKOUT_MINUTES * 60000) with M15 in F7. set (u' := failedRow (at_time a) (ac_failedLogins u) u) in *.
    assert (byEmail email (a_accounts (attempt email a s)) = Some u') as Hu'.
    { rewrite Ea. by apply byEmail_updId. }
    etransitivity; [|apply (budget_step _ _ t0 (at_time a) T Hz); [lia|]].
    + rewrite <- F7, <- F6. apply Z.add_le_mono_l. apply IH; try done; rewrite ?F5, ?F6; auto; simpl in Hc; try lia.
      * rewrite Ea. change ac_id with (@rid Account _). rewrite updId_rids; [exact Hn|]. intros r. apply failedRow_fields.
      * intros L. rewrite F7. rewrite (proj2 (Z.geb_le _ _)) by lia. eauto.
    + intros L. destruct (Hl L) as [lk Elk]. exists lk. split; [done|]. pose proof (reached_unlocked _ _ _ _ Hu R) as U.
      unfold isLocked in U. rewrite Elk in U. lia.
  - rewrite Z.add_0_l. apply (IH _ u t0); try done; simpl in Hc; try lia; auto; by rewrite Ea.
Qed.

(** C29: five guesses, then one per quarter of an hour.  Of a series of consecutive wrong
    passwords on an account whose failure counter is zero, tried one at a time, at most 32767 of
    them (the range of the counter, see [lockout_counter_overflow]), from whatever addresses, the
    number that is actually compared to the password hash is at most five plus one for each
    fifteen minutes elapsed.  A success or a reset of the password starts a new series. *)
Theorem lockout_bounds_guessing email l s u t0 T :
  NoDup (map ac_id (a_accounts s)) -> byEmail email (a_accounts s) = Some u -> ac_failedLogins u = 0 ->
  (forall a, a ∈ l -> passwordVerify (ac_passwordHash u) (at_password a) = false) ->
  (forall a, a ∈ l -> t0 <= at_time a <= T) -> StronglySorted (fun a b => at_time a <= at_time b) l ->
  t0 <= T -> Z.of_nat (List.length l) <= 32767 ->
  guesses email l s <= 5 + (T - t0) / (LOCKOUT_MINUTES * 60000).
Proof.
  intros Hn Hu Hz Hw Ht Hs HT Hc. etransitivity.
  - apply (guesses_bound email _ T l s u t0 Hn Hu eq_refl Hw); try done; try lia; naive_solver.
  - unfold budget. rewrite Hz. simpl. unfold M15. assert (0 <= (T - t0) / (LOCKOUT_MINUTES * 60000)) by (apply Z.div_pos; [lia|done]). lia.
Qed.

(** The failure counter is a [smallint]: on an account that has failed 32767 times a
    wrong password raises an error before the lock is renewed, so every guess from
    then on is compared, without any limit on the account. *)
Theorem lockout_counter_overflow email a s u : NoDup (map ac_id (a_accounts s)) -> byEmail email (a_accounts s) = Some u ->
  ac_failedLogins u = 32767 -> passwordVerify (ac_passwordHash u) (at_password a) = false ->
  a_accounts (attempt email a s) = a_accounts s.
Proof.
  intros Hn Hu Hc Hw. unfold attempt, login. rewrite bind_assoc3. unfold mbind at 1, M_bind at 1.
  destruct ((turnstile _ _ ;; checkLoginRateLimit _ _) s) as [[x|e] s1] eqn:E; pose proof (gate_accounts _ _ _ _ _ _ E) as G; unfold same in G; [|done].
  unfold mbind at 1, M_bind at 1, gets at 1. rewrite G, Hu. unfold loginAccount. destruct (isLocked (at_time a) u); simpl; [done|]. rewrite Hw. simpl.
  unfold registerFailedLogin, updateAccount, mbind, M_bind, gets. rewrite G.
  assert (findId (ac_id u) (a_accounts s) = Some u) as Hf.
  { apply (findId_unique (a_accounts s) u); [done|]. by apply findFirst_some in Hu as [? _]. }
  destruct (failedRow_fields (at_time a) (ac_failedLogins u) u) as (_ & _ & _ & _ & _ & F6 & _).
  rewrite Hf, F6, Hc. simpl. done.
Qed.
End Lockout.

(** ** What the account table keeps *)

Section AccountFrames.
Context `{Platform} `{Secrets}.

Lemma updateAccount_ok id f s a s' : updateAccount id f s = (Ok a, s') ->
  exists x, findId id (a_accounts s) = Some x /\ a = f x /\ s' = s <| a_accounts := updId id f (a_accounts s) |>.
Proof. unfold updateAccount. intros Hr. mok. subst. destruct (findId id _) as [x|]; [|mok]. mok. subst. eauto. Qed.

Lemma updateAccount_accounts id f s r s' : updateAccount id f s = (r, s') ->
  s' = s \/ exists x, findId id (a_accounts s) = Some x /\ r = Ok (f x) /\ s' = s <| a_accounts := updId id f (a_accounts s) |>.
Proof.
  unfold updateAccount, mbind, M_bind, gets. destruct (findId id _) as [x|]; [|intros [= _ <-]; by left].
  unfold throwIf, mret, M_ret, throw, modify. repeat case_match; intros; simplify_eq; eauto.
Qed.

(** A relation on rows lifted to the table is kept by an update that keeps it on rows. *)
Lemma updateAccount_evolves (T : Account -> Account -> Prop) `{!PreOrder T} id f : (forall a, T a (f a)) ->
  keeps (fun s s' => evolves T (a_accounts s) (a_accounts s')) (updateAccount id f).
Proof.
  intros Hf s r s' [-> |(x & _ & _ & ->)]%updateAccount_accounts; [reflexivity|].
  apply evolves_updId; [apply _|auto].
Qed.

Lemma createAccount_accounts a s r s' : createAccount a s = (r, s') ->
  s' = s \/ (ac_id a ∉ map ac_id (a_accounts s)) /\ r = Ok tt /\ s' = s <| a_accounts := a_accounts s ++ [a] |>.
Proof.
  unfold createAccount. rewrite bind_gets. intros [[_ ->]|[Hk [[_ ->]|[_ [= <- <-]]]%bind_throwIf]]%bind_throwIf; auto.
  right. split; [|done]. intros (x & Ex & Hx%list_elem_of_In)%list_elem_of_In%in_map_iff.
  apply not_true_iff_false in Hk. apply Hk, existsb_exists. exists x. split; [by apply list_elem_of_In|by apply bool_decide_eq_true].
Qed.

Lemma createAccount_evolves (T : Account -> Account -> Prop) `{!PreOrder T} a :
  keeps (fun s s' => evolves T (a_accounts s) (a_accounts s')) (createAccount a).
Proof.
  intros s r s' [-> |(_ & _ & ->)]%createAccount_accounts; [reflexivity|]. apply evolves_app, _.
Qed.

Lemma revokeAll_ok now id s k s' : revokeAllForUser now id s = (Ok k, s') ->
  exists u, findId id (a_accounts s) = Some u /\ a_accounts s' = updId id (bumpTokens now) (a_accounts s) /\
    a_keys s' = a_keys s /\
    a_sessions s' = updWhere (fun x => (ss_userId x =s id) && (ss_revokedAt x =s None)) (revoke now) (a_sessions s).
Proof.
  unfold revokeAllForUser. destruct ((updateSessions _ _ ;; updateAccount _ _) s) as [[a|e] s1] eqn:E; [|done]. intros [= _ <-].
  apply bind_ok in E as (? & s2 & E1 & E). apply modify_ok in E1 as [_ ->]. apply updateAccount_ok in E as (u & Hu & _ & ->). eauto.
Qed.

Lemma revokeAll_accounts now id s r s' : revokeAllForUser now id s = (r, s') ->
  s' = s \/ a_accounts s' = updId id (bumpTokens now) (a_accounts s).
Proof.
  destruct r as [k|e]; [intros (u & _ & E & _)%revokeAll_ok; by right|]. unfold revokeAllForUser.
  destruct ((updateSessions _ _ ;; updateAccount _ _) s) as [[a|e'] s1]; [done|]. intros [= _ <-]. by left.
Qed.
End AccountFrames.

(** *** Tokens stay revoked *)

Section TokenTheorems.
Context `{Platform} `{Secrets}.

(** From time [t] on, an account that has revoked everything before [t] keeps doing so. *)
Definition tokEvo (t : Z) (a b : Account) : Prop :=
  ac_id b = ac_id a /\ (t <= ac_tokensValidAfter a -> t <= ac_tokensValidAfter b).

#[export] Instance tokEvo_preorder t : PreOrder (tokEvo t).
Proof. split; unfold tokEvo; [done|]. intros a b c [-> A] [-> B]. auto. Qed.

Definition tokRun (t : Z) (s s' : Auth) : Prop := evolves (tokEvo t) (a_accounts s) (a_accounts s').

#[export] Instance tokRun_preorder t : PreOrder (tokRun t).
Proof. unfold tokRun. split; [intros s; reflexivity|intros a b c A B; by etransitivity]. Qed.

Lemma tokRun_modify t f : (forall s, a_accounts (f s) = a_accounts s) -> keeps (tokRun t) (modify f).
Proof. intros Hf s r s' [= <- <-]. unfold tokRun. rewrite Hf. reflexivity. Qed.

Lemma tokRun_revokeAll t now id : t <= now -> keeps (tokRun t) (revokeAllForUser now id).
Proof.
  intros Ht s r s' [-> |E]%revokeAll_accounts; [reflexivity|]. unfold tokRun. rewrite E.
  apply evolves_updId; [apply _|]. intros a _. split; [done|]. intros _. exact Ht.
Qed.

Lemma tokRun_same t {A} (m : MA A) : keeps (same a_accounts) m -> keeps (tokRun t) m.
Proof. intros K s r s' E. unfold tokRun. rewrite (K _ _ _ E). reflexivity. Qed.

Lemma issueSession_accounts now u b rot : keeps (same a_accounts) (issueSession now u b rot).
Proof.
  intros s r s' E. unfold issueSession, generateRefreshToken, signAccessToken, createSession, mbind, M_bind, mret, M_ret, freshId, modify in E.
  by injection E as <- <-.
Qed.

Lemma freshId_accounts : keeps (same a_accounts) freshId.
Proof. by intros s r s' [= <- <-]. Qed.

Ltac tok_auto := autounfold with auth_ops; unfold refresh, refreshCheck, refreshCommit, handleRefreshReuse, updateSession, updateSessions;
  repeat (first
    [ solve [eauto with keeps]
    | apply tokRun_same; first [apply issueSession_accounts | apply hit_accounts | apply freshId_accounts]
    | apply tokRun_revokeAll; assumption
    | apply updateAccount_evolves; [apply _|]; intros ?; split; [|]
    | apply createAccount_evolves; apply _
    | keeps_step
    | apply tokRun_modify; done ]).

Lemma runAuth_tokens t op s : t <= opTime op -> tokRun t s (runAuth op s).
Proof.
  intros Ht. destruct op; simpl in *;
    match goal with |- tokRun t ?s (?m ?s).2 => apply (fun K : keeps (tokRun t) m => K s (m s).1 (m s).2 (surjective_pairing _)) end.
  all: tok_auto.
  all: unfold failedRow, signedIn; by repeat case_match.
Qed.

Lemma runAuths_tokens t ops s : (forall op, op ∈ ops -> t <= opTime op) -> tokRun t s (runAuths ops s).
Proof.
  revert s. induction ops as [|op ops IH]; intros s Ho; [reflexivity|].
  etransitivity; [apply (runAuth_tokens t op), Ho, elem_of_cons; by left|]. apply IH. intros x Hx. apply Ho, elem_of_cons. by right.
Qed.

Lemma revoked_user now uid l y : y ∈ updWhere (fun y => (ss_userId y =s uid) && (ss_revokedAt y =s None)) (revoke now) l ->
  ss_userId y = uid -> is_Some (ss_revokedAt y).
Proof.
  intros (x & Hx & ->)%updWhere_elem. destruct (_ && _) eqn:E; [simpl; eauto|].
  intros Hf. rewrite (bool_decide_eq_true_2 (ss_userId x = uid)) in E by done. apply bool_decide_eq_false in E.
  by apply not_eq_None_Some.
Qed.

Lemma guard_refuses now header token p u s : extractBearerToken header = Some token -> jwtVerify now token = Some p ->
  findId (tk_sub p) (a_accounts s) = Some u -> tk_iat p < ac_tokensValidAfter u / 1000 ->
  exists e, canActivate now header s = (Throw e, s).
Proof.
  intros Hh Hv Hu Ht. unfold canActivate, mbind, M_bind, orThrow, mret, M_ret, gets. rewrite Hh, Hv. unfold throwIf, throw.
  destruct (isJtiDenylisted _ _ _ || isSessionDenylisted _ _ _); simpl; [eauto|]. rewrite Hu. destruct (negb _ || _); simpl; [eauto|].
  rewrite (proj2 (Z.ltb_lt _ _)) by done. simpl. eauto.
Qed.

(** C30: revoking a user's sessions (logout everywhere, password reset or change) is
    final: every refresh token the user had is revoked, and an access token issued in
    an earlier second is refused by the guard from then on, whatever happens later. *)
Theorem revocation_is_final t uid s k s1 ops now header token p :
  revokeAllForUser t uid s = (Ok k, s1) -> (forall op, op ∈ ops -> t <= opTime op) ->
  extractBearerToken header = Some token -> jwtVerify now token = Some p -> tk_sub p = uid -> tk_iat p < t / 1000 ->
  (forall x, x ∈ a_sessions s1 -> ss_userId x = uid -> is_Some (ss_revokedAt x)) /\
  exists e, canActivate now header (runAuths ops s1) = (Throw e, runAuths ops s1).
Proof.
  intros (u & Hu & Ea & _ & Es)%revokeAll_ok Ho Hh Hv <- Hi. split.
  - intros x Hx Hxu. rewrite Es in Hx. by eapply revoked_user.
  - assert (findId (tk_sub p) (a_accounts s1) = Some (bumpTokens t u)) as Hu1 by (rewrite Ea; by apply findId_updId).
    destruct (evolves_findId (tokEvo t) (a_accounts s1) (a_accounts (runAuths ops s1)) (tk_sub p) (bumpTokens t u)) as (v & Hv1 & _ & Hle);
      [by intros ? ? [? _]|by apply runAuths_tokens|done|].
    apply (guard_refuses _ _ _ _ _ _ Hh Hv Hv1). specialize (Hle (Z.le_refl t)).
    pose proof (Z.div_le_mono t (ac_tokensValidAfter v) 1000 ltac:(lia) Hle). lia.
Qed.

(** The claim that a token minted before the revocation is rejected on its next use
    fails within the second of the revocation: the guard compares whole seconds, and
    nothing denylists the user's other tokens, so such a token works until it expires. *)
Theorem same_second_token_survives t uid s k s1 now header token p u :
  revokeAllForUser t uid s = (Ok k, s1) -> extractBearerToken header = Some token -> jwtVerify now token = Some p ->
  tk_sub p = uid -> tk_iat p = t / 1000 -> findId uid (a_accounts s) = Some u -> ac_isActive u = true -> ac_deletedAt u = None ->
  isJtiDenylisted now (tk_jti p) s = false -> isSessionDenylisted now (tk_sid p) s = false ->
  exists me, canActivate now header s1 = (Ok me, s1) /\ me_id me = ac_id u.
Proof.
  intros (v & Hv & Ea & Ek & _)%revokeAll_ok Hh Hj <- Hi Hu Hact Hdel Hd1 Hd2. rewrite Hu in Hv. injection Hv as <-.
  assert (findId (tk_sub p) (a_accounts s1) = Some (bumpTokens t u)) as Hu1 by (rewrite Ea; by apply findId_updId).
  unfold canActivate, mbind, M_bind, orThrow, mret, M_ret, gets. rewrite Hh, Hj.
  assert ((isJtiDenylisted now (tk_jti p) s1 || isSessionDenylisted now (tk_sid p) s1) = false) as ->.
  { unfold isJtiDenylisted, isSessionDenylisted, liveKey in *. by rewrite Ek, Hd1, Hd2. }
  simpl. rewrite Hu1. simpl. rewrite Hact, Hdel. simpl. unfold throwIf. rewrite (proj2 (Z.ltb_ge _ _)) by lia. simpl. by eexists.
Qed.

(** A completed password reset used a live, unexpired reset token that cannot be used
    again, stored the new password, cleared the lock, and revoked every session of the
    account. *)
Theorem password_reset_effect t tok pw pw2 s u s1 : resetPassword t tok pw pw2 s = (Ok u, s1) ->
  NoDup (map ac_id (a_accounts s)) ->
  exists uid a hash, liveKey t s (passwordResetRedisKey tok) = Some uid /\
    findId uid (a_accounts s1) = Some a /\ ac_deletedAt a = None /\ ac_passwordHash a = argonHash hash pw /\
    ac_failedLogins a = 0 /\ ac_lockedUntil a = None /\ ac_tokensValidAfter a = t /\
    (forall x, x ∈ a_sessions s1 -> ss_userId x = uid -> is_Some (ss_revokedAt x)) /\
    forall t2 q q2, exists e s2, resetPassword t2 tok q q2 s1 = (Throw e, s2).
Proof.
  intros Hr Hn. unfold resetPassword in Hr. apply bind_ok in Hr as (? & ? & E & Hr). apply throwIf_ok in E as [Hp ->].
  apply bind_ok in Hr as (st & ? & E & Hr). apply gets_ok in E as [[= ->] ->]. apply bind_ok in Hr as (uid & ? & E & Hr).
  apply orThrow_ok in E as [Huid ->]. apply bind_ok in Hr as (? & s2 & E & Hr). apply modify_ok in E as [_ ->].
  apply bind_ok in Hr as (o & ? & E & Hr). apply gets_ok in E as [[= ->] ->]. apply bind_ok in Hr as (a & ? & E & Hr).
  apply orThrow_ok in E as [Ha ->]. apply bind_ok in Hr as (h & s3 & Eh & Hr). injection Eh as <- <-.
  apply bind_ok in Hr as (? & s4 & E & Hr). apply updateAccount_ok in E as (a' & Ha' & _ & ->).
  apply bind_ok in Hr as (k & s5 & E & Hr). apply revokeAll_ok in E as (a2 & Ha2 & Ea & Ek & Es). apply modify_ok in Hr as [_ ->].
  apply findFirst_some in Ha as [Hin Hb]. rewrite andb_true_iff, !bool_decide_eq_true in Hb. destruct Hb as [<- Hdel].
  assert (findId (ac_id a) (a_accounts s) = Some a) as Hfa by exact (findId_unique (a_accounts s) a Hn Hin).
  exists (ac_id a), (bumpTokens t (resetRow (argonHash (a_next s) pw) a)), (a_next s).
  split; [destruct (liveKey t s (passwordResetRedisKey tok)) as [[|c v]|] eqn:K; simpl in Huid; [done|by injection Huid as <-|done]|]. simpl. rewrite Ea. simpl.
  split; [apply findId_updId; [done|]; by apply findId_updId; [|exact Hfa]|]. do 5 (split; [done|]). split.
  - intros y Hy Hyu. rewrite Es in Hy. by eapply revoked_user.
  - intros t2 q q2. unfold resetPassword, mbind at 1, M_bind at 1. destruct (throwIf _ _ _) as [[?|e] s'] eqn:E; [|eauto].
    apply throwIf_ok in E as [_ ->]. unfold mbind, M_bind, redisGet, gets, liveKey. simpl. rewrite Ek. simpl.
    rewrite lookup_delete_eq. simpl. eauto.
Qed.
End TokenTheorems.

(** *** Staff roles *)

Section Roles.
Context `{Platform} `{Secrets}.

Definition rank (role : string) : Z := default (-1) (ROLE_RANK role).

(** What an actor may do to a row: nothing unless it is their own or of lower rank, and
    change its role only if it is another's, of lower rank, to at most their own rank. *)
Definition permitted (actor : AuthenticatedUser) (a b : Account) : Prop :=
  ac_id b = ac_id a /\ ac_passwordHash b = ac_passwordHash a /\ ac_adminPermissions b = ac_adminPermissions a /\
  (b = a \/ ac_id a = me_id actor \/ rank (ac_globalRole a) < rank (me_globalRole actor)) /\
  (ac_globalRole b = ac_globalRole a \/
   ac_id a <> me_id actor /\ rank (ac_globalRole a) < rank (me_globalRole actor) /\ rank (ac_globalRole b) <= rank (me_globalRole actor)).

Lemma permitted_refl actor a : permitted actor a a.
Proof. unfold permitted. tauto. Qed.

Lemma canActOnRole_spec r1 r2 : canActOnRole r1 r2 = true <-> rank r2 < rank r1.
Proof. unfold canActOnRole, rank. lia. Qed.

Lemma canAssignRole_spec r1 r2 : canAssignRole r1 r2 = true -> rank r2 <= rank r1.
Proof. unfold canAssignRole, rank. destruct (ROLE_RANK r2); [simpl; lia|done]. Qed.

Definition isUserAdmin (op : AuthOp) : option AuthenticatedUser :=
  match op with
  | OpCreateUser _ _ a | OpUpdateUser _ _ _ a | OpSetActive _ _ _ a | OpRemoveUser _ _ _ a => Some a
  | _ => None
  end.

Lemma activeUser_ok id s a s' : activeUser id s = (Ok a, s') -> s' = s /\ a ∈ a_accounts s /\ ac_id a = id.
Proof.
  unfold activeUser. intros Hr. mok. subst. split; [done|].
  match goal with Hf : findFirst _ _ = Some _ |- _ => apply findFirst_some in Hf as [? E] end.
  rewrite andb_true_iff, !bool_decide_eq_true in E. naive_solver.
Qed.

Lemma activeUser_state id s r s' : activeUser id s = (r, s') -> s' = s.
Proof. unfold activeUser, mbind, M_bind, gets, orThrow. destruct (findFirst _ _); by intros [= _ <-]. Qed.

(** One permitted write, or none. *)
Definition permittedRun (actor : AuthenticatedUser) (s s' : Auth) : Prop :=
  exists old new, a_accounts s' = old ++ new /\ Forall2 (permitted actor) (a_accounts s) old /\
    forall x, x ∈ new -> rank (ac_globalRole x) <= rank (me_globalRole actor).

Lemma permittedRun_same actor s s' : a_accounts s' = a_accounts s -> permittedRun actor s s'.
Proof.
  intros E. exists (a_accounts s), []. rewrite app_nil_r. split_and!; [done| |by intros x ?%not_elem_of_nil].
  apply Forall_Forall2_diag, Forall_forall. intros. apply permitted_refl.
Qed.

Lemma permittedRun_update actor id f s s' a : NoDup (map ac_id (a_accounts s)) -> a ∈ a_accounts s -> ac_id a = id ->
  permitted actor a (f a) -> a_accounts s' = updId id f (a_accounts s) -> permittedRun actor s s'.
Proof.
  intros Hn Ha <- Hp E. exists (a_accounts s'), []. rewrite app_nil_r. split_and!; [done| |by intros x ?%not_elem_of_nil].
  rewrite E. apply updFirst_Forall2; [intros x; apply permitted_refl|]. intros x Hx.
  apply findFirst_some in Hx as [Hx Hid%bool_decide_eq_true]. assert (x = a) as ->; [|done].
  by apply (NoDup_map_inj ac_id (a_accounts s)).
Qed.

(** The tail of the three updates: the write, if it happens, and the audit row. *)
Lemma write_then_audit {B} actor id f s a (k : Account -> MA B) r s' :
  NoDup (map ac_id (a_accounts s)) -> a ∈ a_accounts s -> ac_id a = id -> permitted actor a (f a) ->
  (forall x, keeps (same a_accounts) (k x)) -> (updateAccount id f ≫= k) s = (r, s') -> permittedRun actor s s'.
Proof.
  intros Hn Ha Hid Hp Hk Hr. apply bind_inv in Hr as [(e & Hu & _)|(x & s1 & Hu & Hr)].
  - apply updateAccount_accounts in Hu as [-> |(? & _ & [=] & _)]. by apply permittedRun_same.
  - apply updateAccount_ok in Hu as (_ & _ & _ & ->). apply (permittedRun_update actor id f s s' a Hn Ha Hid Hp).
    apply (Hk x) in Hr. exact Hr.
Qed.

Lemma audit_accounts {B} a b c d (x : B) : keeps (same a_accounts) (audit a b c d ;; mret x).
Proof. intros s r s' [= _ <-]. done. Qed.

Lemma createUser_permitted t dto actor s : NoDup (map ac_id (a_accounts s)) -> permittedRun actor s (createUser t dto actor s).2.
Proof.
  intros Hn. destruct (createUser t dto actor s) as [r s'] eqn:Hr. simpl. unfold createUser in Hr.
  apply bind_throwIf in Hr as [[_ ->]|[Hc Hr]]; [by apply permittedRun_same|]. apply negb_false_iff, canAssignRole_spec in Hc.
  rewrite bind_gets in Hr. apply bind_throwIf in Hr as [[_ ->]|[_ Hr]]; [by apply permittedRun_same|].
  apply bind_inv in Hr as [(? & E & _)|(h & s1 & E & Hr)]; [by injection E|]. injection E as _ <-.
  apply bind_inv in Hr as [(? & E & _)|(n & s1 & E & Hr)]; [by injection E|]. injection E as _ <-.
  apply bind_inv in Hr as [(? & E & _)|(? & s1 & E & Hr)]; apply createAccount_accounts in E as [->|(_ & E & ->)]; try done; try by apply permittedRun_same.
  - injection Hr as _ <-. by apply permittedRun_same.
  - injection Hr as _ <-. eexists _, _. split; [reflexivity|]. split; [apply Forall_Forall2_diag, Forall_forall; intros; apply permitted_refl|].
    intros y ->%list_elem_of_singleton. exact Hc.
Qed.

Lemma updateUser_permitted id dto actor s : NoDup (map ac_id (a_accounts s)) -> permittedRun actor s (updateUser id dto actor s).2.
Proof.
  intros Hn. destruct (updateUser id dto actor s) as [r s'] eqn:Hr. simpl. unfold updateUser in Hr.
  apply bind_inv in Hr as [(e & E & _)|(tg & s1 & E & Hr)]; [apply activeUser_state in E as ->; by apply permittedRun_same|].
  apply activeUser_ok in E as (-> & Htg & Hid).
  assert (forall r2, uu_globalRole dto = Some r2 -> id <> me_id actor -> rank (ac_globalRole tg) < rank (me_globalRole actor) ->
    rank r2 <= rank (me_globalRole actor) -> permitted actor tg (updatedRow dto tg)) as P1.
  { intros r2 Er Hne Hlt Hle. unfold permitted. simpl. rewrite Er. simpl. rewrite Hid. tauto. }
  assert (uu_globalRole dto = None -> id = me_id actor \/ rank (ac_globalRole tg) < rank (me_globalRole actor) ->
    permitted actor tg (updatedRow dto tg)) as P2.
  { intros Er Hor. unfold permitted. simpl. rewrite Er. simpl. rewrite Hid. tauto. }
  assert (s' = s \/ permitted actor tg (updatedRow dto tg) /\ exists r2 : Res Account, exists b,
    (throwIf b (Conflict "A user with that email or username already exists") ;; updated ← updateAccount id (updatedRow dto);
     audit "admin.user.update" (Some (me_id actor)) "user" id ;; mret updated) s = (r2, s')) as [->|(Hp & r2 & b & Hw)];
    [|by apply permittedRun_same|].
  { destruct (bool_decide_reflect (id = me_id actor)) as [Eid|Eid]; apply bind_throwIf in Hr as [[_ ->]|[G Hr]]; try (by left).
    - destruct (uu_globalRole dto); [done|]. right. split; [auto|]. rewrite bind_ret, bind_gets in Hr. eauto.
    - apply negb_false_iff, canActOnRole_spec in G. destruct (uu_globalRole dto) as [r2|] eqn:Er.
      + apply bind_throwIf in Hr as [[_ ->]|[G2 Hr]]; [by left|]. apply negb_false_iff, canAssignRole_spec in G2.
        right. split; [eauto|]. rewrite bind_gets in Hr. eauto.
      + right. split; [auto|]. rewrite bind_ret, bind_gets in Hr. eauto. }
  apply bind_throwIf in Hw as [[_ ->]|[_ Hw]]; [by apply permittedRun_same|].
  eapply write_then_audit; [exact Hn|exact Htg|exact Hid|exact Hp| |exact Hw]. intros. apply audit_accounts.
Qed.

Lemma setActive_permitted id b actor s : NoDup (map ac_id (a_accounts s)) -> permittedRun actor s (setActive id b actor s).2.
Proof.
  intros Hn. destruct (setActive id b actor s) as [r s'] eqn:Hr. simpl. unfold setActive in Hr.
  apply bind_inv in Hr as [(e & E & _)|(tg & s1 & E & Hr)]; [apply activeUser_state in E as ->; by apply permittedRun_same|].
  apply activeUser_ok in E as (-> & Htg & Hid).
  assert (permitted actor tg (tg <| ac_isActive := b |>) \/ s' = s) as [Hp| ->]; [| |by apply permittedRun_same].
  { destruct (bool_decide_reflect (id = me_id actor)) as [Eid|Eid]; apply bind_throwIf in Hr as [[_ ->]|[G Hr]]; try (by right); left.
    - unfold permitted. simpl. rewrite Hid. tauto.
    - apply negb_false_iff, canActOnRole_spec in G. unfold permitted. simpl. tauto. }
  assert (s' = s \/ exists r2 : Res unit, (updateAccount id (fun a => a <| ac_isActive := b |>) ;;
    audit (if b then "admin.user.unblock" else "admin.user.block") (Some (me_id actor)) "user" id) s = (r2, s')) as [->|[r2 Hw]];
    [|by apply permittedRun_same|].
  { destruct (id =s me_id actor); apply bind_throwIf in Hr as [[_ ->]|[_ Hr]]; eauto. }
  eapply (write_then_audit actor id (fun a => a <| ac_isActive := b |>)); [exact Hn|exact Htg|exact Hid|exact Hp| |exact Hw].
  by intros _ ? ? ? [= _ <-].
Qed.

Lemma removeUser_permitted t d id actor s : NoDup (map ac_id (a_accounts s)) -> permittedRun actor s (removeUser t d id actor s).2.
Proof.
  intros Hn. destruct (removeUser t d id actor s) as [r s'] eqn:Hr. simpl. unfold removeUser in Hr.
  apply bind_inv in Hr as [(e & E & _)|(tg & s1 & E & Hr)]; [apply activeUser_state in E as ->; by apply permittedRun_same|].
  apply activeUser_ok in E as (-> & Htg & Hid). apply bind_throwIf in Hr as [[_ ->]|[_ Hr]]; [by apply permittedRun_same|].
  apply bind_throwIf in Hr as [[_ ->]|[G Hr]]; [by apply permittedRun_same|]. apply negb_false_iff, canActOnRole_spec in G.
  do 2 (apply bind_throwIf in Hr as [[_ ->]|[_ Hr]]; [by apply permittedRun_same|]).
  eapply (write_then_audit actor id (fun a => a <| ac_deletedAt := Some t |>)); [exact Hn|exact Htg|exact Hid| | |exact Hr].
  + unfold permitted. simpl. tauto.
  + by intros _ ? ? ? [= _ <-].
Qed.

Lemma user_management_permitted op actor s : isUserAdmin op = Some actor -> NoDup (map ac_id (a_accounts s)) ->
  permittedRun actor s (runAuth op s).
Proof.
  intros Hop Hn. destruct op as [| | | | | | | |t dto a|t id dto a|t id b a|t d id a]; try done; injection Hop as ->; simpl.
  - by apply createUser_permitted.
  - by apply updateUser_permitted.
  - by apply setActive_permitted.
  - by apply removeUser_permitted.
Qed.

(** C31: the rank rules hold on every path.  A user-management request, accepted or
    refused, only touches the actor's own row and rows of strictly lower rank; it never
    changes the actor's own role, a password or a permission list; a role it assigns,
    to an existing or a new account, is at most the actor's own. *)
Theorem user_management_respects_rank op actor s : isUserAdmin op = Some actor -> NoDup (map ac_id (a_accounts s)) ->
  permittedRun actor s (runAuth op s).
Proof. apply user_management_permitted. Qed.

(** *** No path to the top *)

Definition rootIds (s : Auth) : list string :=
  map ac_id (List.filter (fun a => ac_globalRole a =s "root_admin") (a_accounts s)).

(** The request's actor is who the guard read from the table. *)
Definition authentic (actor : AuthenticatedUser) (s : Auth) : Prop :=
  forall a, a ∈ a_accounts s -> ac_id a = me_id actor -> ac_globalRole a = me_globalRole actor.

Fixpoint authenticRun (ops : list AuthOp) (s : Auth) : Prop :=
  match ops with
  | [] => True
  | op :: ops' => (forall actor, isUserAdmin op = Some actor -> authentic actor s /\ me_globalRole actor <> "root_admin") /\
                  authenticRun ops' (runAuth op s)
  end.

Definition rootRun (s s' : Auth) : Prop :=
  (NoDup (map ac_id (a_accounts s)) -> NoDup (map ac_id (a_accounts s'))) /\ rootIds s' = rootIds s.

#[export] Instance rootRun_preorder : PreOrder rootRun.
Proof. unfold rootRun. split; [done|]. intros a b c [A1 A2] [B1 B2]. split; [auto|congruence]. Qed.

Lemma rootRun_rows id f s s' : (forall a, ac_id (f a) = ac_id a) -> (forall a, ac_globalRole (f a) = ac_globalRole a) ->
  a_accounts s' = updId id f (a_accounts s) -> rootRun s s'.
Proof.
  intros Hi Hg E. unfold rootRun, rootIds. rewrite E. clear E. split.
  - change ac_id with (@rid Account _). by rewrite updId_rids.
  - unfold updId. induction (a_accounts s) as [|a l IH]; simpl; [done|].
    destruct (rid a =s id); simpl; [rewrite Hg; destruct (bool_decide _); simpl; by rewrite ?Hi|].
    destruct (bool_decide (ac_globalRole a = _)); simpl; by rewrite IH.
Qed.

Lemma rootRun_update id f : (forall a, ac_id (f a) = ac_id a) -> (forall a, ac_globalRole (f a) = ac_globalRole a) ->
  keeps rootRun (updateAccount id f).
Proof. intros Hi Hg s r s' [-> |(x & _ & _ & ->)]%updateAccount_accounts; [reflexivity|]. by apply (rootRun_rows id f). Qed.

Lemma rootRun_create a : ac_globalRole a <> "root_admin" -> keeps rootRun (createAccount a).
Proof.
  intros Hg s r s' [-> |(Hk & _ & ->)]%createAccount_accounts; [reflexivity|]. split.
  - intros Hn. simpl. rewrite List.map_app. apply NoDup_app. split_and!; [done| |apply NoDup_singleton].
    by intros x Hx ->%list_elem_of_singleton.
  - unfold rootIds. simpl. rewrite List.filter_app. simpl. by rewrite bool_decide_eq_false_2, app_nil_r.
Qed.

Lemma rootRun_same {A} (m : MA A) : keeps (same a_accounts) m -> keeps rootRun m.
Proof. intros K s r s' E. unfold rootRun, rootIds. by rewrite (K _ _ _ E). Qed.

Lemma rootRun_modify f : (forall s, a_accounts (f s) = a_accounts s) -> keeps rootRun (modify f).
Proof. intros Hf. apply rootRun_same. intros s r s' [= _ <-]. apply Hf. Qed.

Lemma rootRun_revokeAll now id : keeps rootRun (revokeAllForUser now id).
Proof.
  intros s r s' [-> |E]%revokeAll_accounts; [reflexivity|]. by apply (rootRun_rows id (bumpTokens now)).
Qed.

Lemma root_rank r : rank r < 3 <-> r <> "root_admin".
Proof.
  destruct (decide (r = "root_admin")) as [->|Hne]; [vm_compute; split; [done|by intros []]|].
  split; [done|]. intros _. unfold rank, ROLE_RANK. repeat case_bool_decide; simpl; done || lia.
Qed.

Lemma rootRun_permitted actor s s' : NoDup (map ac_id (a_accounts s)) -> authentic actor s -> me_globalRole actor <> "root_admin" ->
  permittedRun actor s s' -> rootIds s' = rootIds s.
Proof.
  intros Hn Hau Hr (old & new & E & F & Hnew). unfold rootIds. rewrite E, List.filter_app, List.map_app.
  apply root_rank in Hr. assert (List.filter (fun a => ac_globalRole a =s "root_admin") new = []) as ->.
  { apply filter_none. intros x Hx. apply bool_decide_eq_false, root_rank. specialize (Hnew x Hx). lia. }
  rewrite app_nil_r. clear E Hn. unfold authentic in Hau. induction F as [|a b l l' Hp F IH]; simpl; [done|].
  assert (map ac_id (List.filter (fun a => ac_globalRole a =s "root_admin") l') = map ac_id (List.filter (fun a => ac_globalRole a =s "root_admin") l)) as Ht.
  { apply IH. intros x Hx. apply Hau. apply elem_of_cons. by right. }
  destruct Hp as (Hi & _ & _ & _ & [Hg|(Hne & H1 & H2)]).
  - rewrite Hg. destruct (bool_decide _); simpl; congruence.
  - rewrite !bool_decide_eq_false_2; [done| |]; apply root_rank; lia.
Qed.

Ltac root_auto := autounfold with auth_ops; unfold refresh, refreshCheck, refreshCommit, handleRefreshReuse, updateSession, updateSessions;
  repeat (first
    [ solve [eauto with keeps]
    | apply rootRun_same; first [apply issueSession_accounts | apply hit_accounts | apply freshId_accounts]
    | apply rootRun_revokeAll
    | apply rootRun_update; intros ?; [|]
    | apply rootRun_create; done
    | keeps_step
    | apply rootRun_modify; done ]).

Lemma runAuth_roots op s : isUserAdmin op = None -> rootRun s (runAuth op s).
Proof.
  intros Hop. destruct op; try done; simpl;
    match goal with |- rootRun ?s (?m ?s).2 => apply (fun K : keeps rootRun m => K s (m s).1 (m s).2 (surjective_pairing _)) end.
  all: root_auto.
  all: unfold failedRow, signedIn; by repeat case_match.
Qed.

Definition idsRun (s s' : Auth) : Prop := NoDup (map ac_id (a_accounts s)) -> NoDup (map ac_id (a_accounts s')).

#[export] Instance idsRun_preorder : PreOrder idsRun.
Proof. unfold idsRun. split; [intros s; auto|intros a b c; auto]. Qed.

Lemma idsRun_update id f : (forall a, ac_id (f a) = ac_id a) -> keeps idsRun (updateAccount id f).
Proof.
  intros Hi s r s' [-> |(x & _ & _ & ->)]%updateAccount_accounts; [done|]. unfold idsRun. simpl.
  change ac_id with (@rid Account _). by rewrite updId_rids.
Qed.

Lemma idsRun_create a : keeps idsRun (createAccount a).
Proof.
  intros s r s' [-> |(Hk & _ & ->)]%createAccount_accounts; [done|]. intros Hn. simpl. rewrite List.map_app.
  apply NoDup_app. split_and!; [done| |apply NoDup_singleton]. by intros x Hx ->%list_elem_of_singleton.
Qed.

Lemma runAuth_ids op s : is_Some (isUserAdmin op) -> idsRun s (runAuth op s).
Proof.
  intros [actor Hop]. destruct op; try done; simpl;
    match goal with |- idsRun ?s (?m ?s).2 => apply (fun K : keeps idsRun m => K s (m s).1 (m s).2 (surjective_pairing _)) end.
  all: autounfold with auth_ops; repeat (first [solve [eauto with keeps] | apply idsRun_create | (apply idsRun_update; done)
    | keeps_step | (intros ? ? ? [= _ <-]; exact (fun N => N))]).
Qed.

(** C32: nobody climbs to the top.  In any interleaving of sign-ins, registrations,
    password recoveries and user management in which no root administrator manages
    users, the set of root administrators stays exactly the same. *)
Theorem no_escalation_to_root ops s : NoDup (map ac_id (a_accounts s)) -> authenticRun ops s -> rootIds (runAuths ops s) = rootIds s.
Proof.
  revert s. induction ops as [|op ops IH]; intros s Hn; [done|]. intros [Ha Hrest]. simpl.
  destruct (isUserAdmin op) as [actor|] eqn:Hop.
  - destruct (Ha actor eq_refl) as [Hau Hr]. etransitivity; [apply IH; [by apply runAuth_ids|done]|].
    apply (rootRun_permitted actor); [done|done|done|]. by apply user_management_permitted.
  - destruct (runAuth_roots op s Hop) as [Hn' E]. etransitivity; [apply IH; [auto|done]|done].
Qed.
End Roles.

(** ** Witnesses *)

#[local] Existing Instance Demo.platform.
#[local] Existing Instance DemoSub.laws.
#[local] Existing Instance DemoAuth.secrets.

Lemma demo_accountIds n : NoDup (map ac_id (a_accounts (DemoAuth.start n))).
Proof. apply (bool_decide_eq_true_1 _). vm_compute. reflexivity. Qed.

Lemma lockout_bounds_guessing_witness :
  guesses "u@x" (replicate 9 (mkAttempt 1000 "wrong" (Some "1.2.3.4") None)) (DemoAuth.start 0) <= 5.
Proof.
  refine (lockout_bounds_guessing "u@x" (replicate 9 (mkAttempt 1000 "wrong" (Some "1.2.3.4") None)) (DemoAuth.start 0)
            (DemoAuth.account "u" "user" 0) 1000 1000 (demo_accountIds 0) eq_refl eq_refl _ _ _ _ _).
  - intros a [-> _]%elem_of_replicate. reflexivity.
  - intros a [-> _]%elem_of_replicate. vm_compute. split; discriminate.
  - simpl. repeat constructor; vm_compute; discriminate.
  - vm_compute. discriminate.
  - vm_compute. discriminate.
Defined.

Lemma lockout_counter_overflow_witness :
  a_accounts (attempt "u@x" (mkAttempt 1000 "wrong" None None) (DemoAuth.start 32767)) = a_accounts (DemoAuth.start 32767).
Proof.
  exact (lockout_counter_overflow "u@x" (mkAttempt 1000 "wrong" None None) (DemoAuth.start 32767) (DemoAuth.account "u" "user" 32767)
           (demo_accountIds 32767) eq_refl eq_refl eq_refl).
Defined.

(** Revoked at 3.2 s and at 2.6 s; the demo token was issued in second 2. *)
Lemma demo_revoked t : okRun (revokeAllForUser t "u" (DemoAuth.start 0)) = true.
Proof. vm_compute. reflexivity. Qed.

Lemma revocation_is_final_witness :
  exists e, (canActivate 9000 (Some "Bearer t1") (runAuths [OpLogin 5000 "u@x" "secret" None None]
    (revokeAllForUser 3200 "u" (DemoAuth.start 0)).2)).1 = Throw e.
Proof.
  pose proof (demo_revoked 3200) as K. destruct (revokeAllForUser 3200 "u" (DemoAuth.start 0)) as [[k|e] s1] eqn:E; [|discriminate K].
  destruct (revocation_is_final 3200 "u" (DemoAuth.start 0) k s1 [OpLogin 5000 "u@x" "secret" None None] 9000 (Some "Bearer t1") "t1" DemoAuth.payload E)
    as (_ & e & He).
  - intros op ->%list_elem_of_singleton. vm_compute. discriminate.
  - reflexivity.
  - reflexivity.
  - reflexivity.
  - reflexivity.
  - exists e. cbn [snd]. rewrite He. reflexivity.
Defined.

Lemma same_second_token_survives_witness :
  exists me s1, (canActivate 9000 (Some "Bearer t1") s1).1 = Ok me /\ s1 = (revokeAllForUser 2600 "u" (DemoAuth.start 0)).2.
Proof.
  pose proof (demo_revoked 2600) as K. destruct (revokeAllForUser 2600 "u" (DemoAuth.start 0)) as [[k|e] s1] eqn:E; [|discriminate K].
  destruct (same_second_token_survives 2600 "u" (DemoAuth.start 0) k s1 9000 (Some "Bearer t1") "t1" DemoAuth.payload
    (DemoAuth.account "u" "user" 0) E eq_refl eq_refl eq_refl eq_refl eq_refl eq_refl eq_refl eq_refl eq_refl) as (me & He & _).
  exists me, s1. split; [rewrite He; reflexivity|reflexivity].
Defined.

Definition demo_reset : Res unit * Auth :=
  resetPassword 2000 "prt_tok-10" "new" "new" (requestPasswordReset 1000 "u@x" None None (DemoAuth.start 7)).2.

Lemma password_reset_effect_witness :
  exists uid a hash, findId uid (a_accounts demo_reset.2) = Some a /\ ac_passwordHash a = argonHash hash "new" /\ ac_failedLogins a = 0.
Proof.
  assert (demo_reset.1 = Ok tt) as K by (vm_compute; reflexivity).
  destruct demo_reset as [r s1] eqn:E. simpl in K. subst r. unfold demo_reset in E.
  destruct (password_reset_effect 2000 "prt_tok-10" "new" "new" (requestPasswordReset 1000 "u@x" None None (DemoAuth.start 7)).2 tt s1 E) as (uid & a & hash & _ & A & _ & B & C & _).
  - apply (bool_decide_eq_true_1 _). vm_compute. reflexivity.
  - exists uid, a, hash. split; [exact A|split; [exact B|exact C]].
Defined.

Lemma user_management_respects_rank_witness :
  permittedRun DemoAuth.admin (DemoAuth.start 0) (runAuth DemoAuth.promote (DemoAuth.start 0)) /\
  map ac_globalRole (a_accounts (runAuth DemoAuth.promote (DemoAuth.start 0))) = ["admin"; "root_admin"; "admin"].
Proof.
  split; [|vm_compute; reflexivity].
  exact (user_management_respects_rank DemoAuth.promote DemoAuth.admin (DemoAuth.start 0) eq_refl (demo_accountIds 0)).
Defined.

Lemma no_escalation_to_root_witness :
  rootIds (runAuths [DemoAuth.promote; OpSetActive 2 "u" false DemoAuth.admin] (DemoAuth.start 0)) = ["r"].
Proof.
  rewrite (no_escalation_to_root [DemoAuth.promote; OpSetActive 2 "u" false DemoAuth.admin] (DemoAuth.start 0) (demo_accountIds 0)); [reflexivity|].
  split; [|split; [|exact I]]; intros actor [= <-]; (split; [|discriminate]); intros a Ha Hid; vm_compute in Ha;
    repeat (apply elem_of_cons in Ha as [->|Ha]; [first [discriminate Hid | reflexivity]|]); by apply not_elem_of_nil in Ha.
Defined.
