(* ===== verification/Access.v ===== *)
(** Access: who may do what on a server.

    [authorization/server-access.service.ts], the chokepoint of every client route
    (ownership and subuser visibility by row-level security, then the permission key,
    then the status gate), with its Redis permission cache, and
    [subusers/subusers.service.ts], which writes the rows the cache copies. *)

From S2P Require Import Prelude JsNum Capacity Store Scheduler Subscriptions JsString Accounts Sessions.
From Stdlib Require Import Ascii String Lia.

Local Open Scope Z_scope.

Record Subuser := mkSubuser {
  su_id : string; su_serverId : string; su_userId : string; su_permissions : list string;
  su_invitedBy : option string; su_acceptedAt : option Z }.

#[export] Instance Subuser_row : Row Subuser := su_id.
#[export] Instance Subuser_settable : Settable Subuser := fun r =>
  mkSubuser (su_id r) (su_serverId r) (su_userId r) (su_permissions r) (su_invitedBy r) (su_acceptedAt r).

(** The tables involved, the permission catalog, and the cache with its expiry. *)
Record AccessState := mkAccess {
  x_servers : list Server; x_users : list Account; x_subusers : list Subuser; x_catalog : list string;
  x_cache : gmap string (list string * Z); x_audit : list AuditEntry; x_next : N }.

#[export] Instance AccessState_settable : Settable AccessState := fun s =>
  mkAccess (x_servers s) (x_users s) (x_subusers s) (x_catalog s) (x_cache s) (x_audit s) (x_next s).

Abbreviation MX := (M AccessState).

Definition PERM_CACHE_TTL_SECONDS : Z := 60.

Definition SUSPENDED_BLOCKED_KEYS : list string :=
  ["websocket.connect"; "control.console"; "control.start"; "control.stop"; "control.restart"; "control.kill";
   "file.write"; "file.delete"; "addons.install"; "addons.update"; "addons.remove"; "backup.create"; "backup.restore";
   "database.create"; "database.delete"; "startup.update"; "hostname.update"].

Definition allowedForStatus (status : ServerStatus) (permission : string) : bool :=
  if status =s Srv_setup_pending then endsWith ".read" permission
  else if negb (status =s Srv_suspended) then true
  else if endsWith ".read" permission then true
  else if startsWith "schedule." permission then false
  else negb (bool_decide (permission ∈ SUSPENDED_BLOCKED_KEYS)).

Record AccessActor := mkActor { xa_id : string; xa_isAdmin : bool }.

Inductive AccessRole := role_owner | role_subuser | role_admin.
#[export] Instance AccessRole_eq : EqDecision AccessRole.
Proof. solve_decision. Defined.

Record ResolvedAccess := mkResolved { ra_server : Server; ra_role : AccessRole; ra_can : string -> bool }.

(** The database's [can_access_server], for a caller that is not an admin. *)
Definition canAccessServer (s : AccessState) (userId serverId : string) : bool :=
  existsb (fun v => (sv_id v =s serverId) && (sv_ownerId v =s userId)) (x_servers s) ||
  existsb (fun u => (su_serverId u =s serverId) && (su_userId u =s userId) && bool_decide (is_Some (su_acceptedAt u)))
    (x_subusers s).

(** [findFirst({ where: { id } })] under the caller's row-level security. *)
Definition fetchOwned (userId serverId : string) (isAdmin : bool) (s : AccessState) : option Server :=
  findFirst (fun v => (sv_id v =s serverId) && (isAdmin || canAccessServer s userId serverId)) (x_servers s).

Definition permCacheKey (userId serverId : string) : string := "perm:" +:+ userId +:+ ":" +:+ serverId.

Definition invalidatePermissionCache (userId serverId : string) : MX unit :=
  modify (fun s => s <| x_cache := delete (permCacheKey userId serverId) (x_cache s) |>).

Definition cached (now : Z) (userId serverId : string) (s : AccessState) : option (list string) :=
  match x_cache s !! permCacheKey userId serverId with
  | Some (permissions, expiresAt) => if now <? expiresAt then Some permissions else None
  | None => None
  end.

(** The permissions of the accepted subuser row the caller may see. *)
Definition storedPermissions (userId serverId : string) (s : AccessState) : list string :=
  match findFirst (fun u => (su_serverId u =s serverId) && (su_userId u =s userId) && bool_decide (is_Some (su_acceptedAt u)) &&
                            canAccessServer s userId serverId) (x_subusers s) with
  | Some u => su_permissions u
  | None => []
  end.

Definition cachePermissions (now : Z) (userId serverId : string) (permissions : list string) : MX unit :=
  modify (fun s => s <| x_cache := <[permCacheKey userId serverId := (permissions, now + PERM_CACHE_TTL_SECONDS * 1000)]> (x_cache s) |>).

Definition resolveSubuserPermissions (now : Z) (userId serverId : string) : MX (list string) :=
  hit ← gets (cached now userId serverId);
  match hit with
  | Some permissions => mret permissions
  | None =>
    permissions ← gets (storedPermissions userId serverId);
    cachePermissions now userId serverId permissions ;;
    mret permissions
  end.

Definition resolve (now : Z) (userId serverId : string) (isAdmin : bool) : MX ResolvedAccess :=
  found ← gets (fetchOwned userId serverId isAdmin);
  server ← orThrow found (NotFound "Server not found");
  if isAdmin then mret (mkResolved server role_admin (fun _ => true))
  else if sv_ownerId server =s userId then
    mret (mkResolved server role_owner (allowedForStatus (sv_status server)))
  else
    permissions ← resolveSubuserPermissions now userId serverId;
    mret (mkResolved server role_subuser
      (fun permission => bool_decide (permission ∈ permissions) && allowedForStatus (sv_status server) permission)).

Definition listAccessible (userId : string) (s : AccessState) : list Server :=
  List.filter (fun v => canAccessServer s userId (sv_id v)) (x_servers s).

(** ** Subuser management *)

Definition log (action : string) (actor target : string) : MX unit :=
  modify (fun s => s <| x_audit := x_audit s ++ [mkAudit action (Some actor) "server" target] |>).

Definition assertValidPermissions (keys : list string) : MX unit :=
  catalog ← gets x_catalog;
  let invalid := List.filter (fun k => negb (bool_decide (k ∈ catalog))) keys in
  throwIf (negb (bool_decide (invalid = []))) (BadRequest ("Unknown permission key(s): " +:+ join ", " invalid)).

(** [if (role !== 'owner' && role !== 'admin') throw]. *)
Definition requireManager (access : ResolvedAccess) (msg : string) : MX unit :=
  throwIf (negb (ra_role access =s role_owner) && negb (ra_role access =s role_admin)) (Forbidden msg).

(** [subuser.create]: a new id, one row per server and user, never the owner's (a trigger). *)
Definition createSubuser (u : Subuser) : MX unit :=
  dup ← gets (fun s => existsb (fun x => su_id x =s su_id u) (x_subusers s));
  throwIf dup (UniqueViolation "subusers_pkey") ;;
  taken ← gets (fun s => existsb (fun x => (su_serverId x =s su_serverId u) && (su_userId x =s su_userId u)) (x_subusers s));
  throwIf taken (UniqueViolation "subusers_server_id_user_id_key") ;;
  owner ← gets (fun s => existsb (fun v => (sv_id v =s su_serverId u) && (sv_ownerId v =s su_userId u)) (x_servers s));
  throwIf owner (External "owner cannot be a subuser") ;;
  modify (fun s => s <| x_subusers := x_subusers s ++ [u] |>).

Section Subusers.
Context `{Platform} `{Secrets} (now : Z).

Definition invite (actor : AccessActor) (serverId email : string) (permissions : list string) : MX Subuser :=
  access ← resolve now (xa_id actor) serverId (xa_isAdmin actor);
  requireManager access "Only the server owner can invite subusers" ;;
  assertValidPermissions permissions ;;
  found ← gets (fun s => findFirst (fun u => citextEq (ac_email u) email && (ac_deletedAt u =s None)) (x_users s));
  invitee ← orThrow found (NotFound "No user found with that email");
  let server := ra_server access in
  throwIf (ac_id invitee =s sv_ownerId server) (Conflict "The owner cannot be invited as a subuser of their own server") ;;
  existing ← gets (fun s => existsb (fun u => (su_serverId u =s sv_id server) && (su_userId u =s ac_id invitee)) (x_subusers s));
  throwIf existing (Conflict "That user is already a subuser of this server") ;;
  n ← (fun s => (Ok (x_next s), s <| x_next := (x_next s + 1)%N |>) : Res N * AccessState);
  let created := mkSubuser (uuidv7 n) (sv_id server) (ac_id invitee) permissions (Some (xa_id actor)) (Some now) in
  createSubuser created ;;
  log "server.subuser.invite" (xa_id actor) (sv_id server) ;;
  mret created.

(** [findFirst({ where: { id: subuserId, serverId } })]: the caller manages the server. *)
Definition subuserOf (subuserId : string) (server : Server) : MX Subuser :=
  found ← gets (fun s => findFirst (fun u => (su_id u =s subuserId) && (su_serverId u =s sv_id server)) (x_subusers s));
  orThrow found (NotFound "Subuser not found").

Definition withPermissions (permissions : list string) (u : Subuser) : Subuser := u <| su_permissions := permissions |>.

Definition updatePermissions (actor : AccessActor) (serverId subuserId : string) (permissions : list string) : MX unit :=
  access ← resolve now (xa_id actor) serverId (xa_isAdmin actor);
  requireManager access "Only the server owner can edit subuser permissions" ;;
  assertValidPermissions permissions ;;
  subuser ← subuserOf subuserId (ra_server access);
  modify (fun s => s <| x_subusers := updId (su_id subuser) (withPermissions permissions) (x_subusers s) |>) ;;
  invalidatePermissionCache (su_userId subuser) (sv_id (ra_server access)) ;;
  log "server.subuser.update" (xa_id actor) (sv_id (ra_server access)).

Definition removeSubuser (actor : AccessActor) (serverId subuserId : string) : MX unit :=
  access ← resolve now (xa_id actor) serverId (xa_isAdmin actor);
  requireManager access "Only the server owner can remove subusers" ;;
  subuser ← subuserOf subuserId (ra_server access);
  modify (fun s => s <| x_subusers := List.filter (fun u => negb (su_id u =s su_id subuser)) (x_subusers s) |>) ;;
  invalidatePermissionCache (su_userId subuser) (sv_id (ra_server access)) ;;
  log "server.subuser.remove" (xa_id actor) (sv_id (ra_server access)).

Definition listSubusers (actor : AccessActor) (serverId : string) : MX (list Subuser) :=
  access ← resolve now (xa_id actor) serverId (xa_isAdmin actor);
  gets (fun s => List.filter (fun u => su_serverId u =s sv_id (ra_server access)) (x_subusers s)).

End Subusers.

(** ** The reference: access without the cache *)

Definition resolveRef (userId serverId : string) (isAdmin : bool) (s : AccessState) : Res ResolvedAccess :=
  match fetchOwned userId serverId isAdmin s with
  | None => Throw (NotFound "Server not found")
  | Some server =>
    if isAdmin then Ok (mkResolved server role_admin (fun _ => true))
    else if sv_ownerId server =s userId then Ok (mkResolved server role_owner (allowedForStatus (sv_status server)))
    else Ok (mkResolved server role_subuser (fun p =>
           bool_decide (p ∈ storedPermissions userId serverId s) && allowedForStatus (sv_status server) p))
  end.

(** Same answer: the same error, or the same server and role, and the same verdict on every permission. *)
Definition sameAccess (r1 r2 : Res ResolvedAccess) : Prop :=
  match r1, r2 with
  | Throw e1, Throw e2 => e1 = e2
  | Ok a, Ok b => ra_server a = ra_server b /\ ra_role a = ra_role b /\ forall p, ra_can a p = ra_can b p
  | _, _ => False
  end.

(** Requests, and what other services do to servers. *)
Inductive AccessOp :=
  | XResolve (now : Z) (userId serverId : string) (isAdmin : bool)
  | XInvite (now : Z) (actor : AccessActor) (serverId email : string) (permissions : list string)
  | XUpdate (now : Z) (actor : AccessActor) (serverId subuserId : string) (permissions : list string)
  | XRemove (now : Z) (actor : AccessActor) (serverId subuserId : string)
  | XStatus (serverId : string) (status : ServerStatus)
  | XDeleteServer (serverId : string).

Definition opUser (op : AccessOp) : string :=
  match op with
  | XResolve _ u _ _ => u
  | XInvite _ a _ _ _ | XUpdate _ a _ _ _ | XRemove _ a _ _ => xa_id a
  | XStatus _ _ | XDeleteServer _ => ""
  end.

Definition runAccess `{Platform} `{Secrets} (op : AccessOp) (s : AccessState) : AccessState :=
  match op with
  | XResolve t u v a => (resolve t u v a s).2
  | XInvite t a v e p => (invite t a v e p s).2
  | XUpdate t a v i p => (updatePermissions t a v i p s).2
  | XRemove t a v i => (removeSubuser t a v i s).2
  | XStatus v st => s <| x_servers := updId v (fun x => x <| sv_status := st |>) (x_servers s) |>
  | XDeleteServer v => s <| x_servers := List.filter (fun x => negb (sv_id x =s v)) (x_servers s) |>
                         <| x_subusers := List.filter (fun u => negb (su_serverId u =s v)) (x_subusers s) |>
  end.

Definition runAccesses `{Platform} `{Secrets} (ops : list AccessOp) (s : AccessState) : AccessState :=
  fold_left (fun s op => runAccess op s) ops s.

(** ** Cache keys *)

Fixpoint noColon (s : string) : bool :=
  match s with
  | EmptyString => true
  | String c s' => negb (code c =? 58)%N && noColon s'
  end.

Lemma append_String c a b : String c a +:+ b = String c (a +:+ b).
Proof. done. Qed.

Lemma split_colon u u' v v' : noColon u = true -> noColon u' = true -> u +:+ ":" +:+ v = u' +:+ ":" +:+ v' -> u = u' /\ v = v'.
Proof.
  revert u'. induction u as [|c u IH]; intros [|c' u'] Hu Hu' E.
  - change (String ":" v = String ":" v') in E. by injection E as ->.
  - rewrite append_String in E. change (String ":" v = String c' (u' +:+ ":" +:+ v')) in E. injection E as <- _. done.
  - rewrite append_String in E. change (String c (u +:+ ":" +:+ v) = String ":" v') in E. injection E as -> _. done.
  - rewrite !append_String in E. injection E as -> E. simpl in Hu, Hu'. apply andb_true_iff in Hu as [_ Hu], Hu' as [_ Hu'].
    by destruct (IH u' Hu Hu' E) as [-> ->].
Qed.

Lemma permCacheKey_inj u u' v v' : noColon u = true -> noColon u' = true -> permCacheKey u v = permCacheKey u' v' -> u = u' /\ v = v'.
Proof.
  unfold permCacheKey. intros Hu Hu' E. rewrite !append_String in E. injection E as E. by apply split_colon.
Qed.

(** ** The invariant *)

Record accessOk (s : AccessState) : Prop := {
  ao_servers : NoDup (map sv_id (x_servers s));
  ao_users : forall u, u ∈ x_users s -> noColon (ac_id u) = true;
  ao_ids : NoDup (map su_id (x_subusers s));
  ao_unique : forall a b, a ∈ x_subusers s -> b ∈ x_subusers s -> su_serverId a = su_serverId b -> su_userId a = su_userId b -> a = b;
  ao_rows : forall u, u ∈ x_subusers s -> noColon (su_userId u) = true /\ is_Some (su_acceptedAt u);
  ao_cache : forall u v p e, noColon u = true -> x_cache s !! permCacheKey u v = Some (p, e) ->
    (exists row, row ∈ x_subusers s /\ su_serverId row = v /\ su_userId row = u /\ su_permissions row = p) \/
    v ∉ map sv_id (x_servers s) }.

(** The row a cached or stored answer comes from. *)
Definition rowFor (u v : string) (x : Subuser) : Prop := su_serverId x = v /\ su_userId x = u.

Lemma stored_row s u v row : accessOk s -> row ∈ x_subusers s -> rowFor u v row -> storedPermissions u v s = su_permissions row.
Proof.
  intros Ok Hr [Hv Hu]. destruct (ao_rows _ Ok row Hr) as [_ Hacc]. unfold storedPermissions.
  assert (canAccessServer s u v = true) as Hc.
  { unfold canAccessServer. apply orb_true_iff. right. apply existsb_exists. exists row. split; [by apply list_elem_of_In|].
    by rewrite !bool_decide_eq_true_2. }
  destruct (findFirst _ _) as [x|] eqn:E.
  - apply findFirst_some in E as [Hx E]. rewrite !andb_true_iff, !bool_decide_eq_true in E. destruct E as [[[E1 E2] _] _].
    f_equal. apply (ao_unique _ Ok); congruence || done.
  - pose proof (findFirst_none _ _ E row Hr) as F. simpl in F. by rewrite Hc, !bool_decide_eq_true_2 in F.
Qed.

(** A server seen by someone who is neither its owner nor an admin was shared with them. *)
Lemma fetched_shared s u v server : accessOk s -> fetchOwned u v false s = Some server -> sv_ownerId server <> u ->
  sv_id server = v /\ server ∈ x_servers s /\ exists row, row ∈ x_subusers s /\ rowFor u v row.
Proof.
  intros Ok Hf Ho. apply findFirst_some in Hf as [Hin E]. rewrite andb_true_iff, bool_decide_eq_true in E. destruct E as [Hid Hc].
  split_and!; [done|done|]. simpl in Hc. unfold canAccessServer in Hc. apply orb_true_iff in Hc as [Hc|Hc].
  - apply existsb_exists in Hc as (w & Hw%list_elem_of_In & E). rewrite andb_true_iff, !bool_decide_eq_true in E. destruct E as [E1 E2].
    assert (w = server) as ->; [|done]. apply (NoDup_map_inj sv_id (x_servers s)); [apply Ok|done|done|congruence].
  - apply existsb_exists in Hc as (row & Hr%list_elem_of_In & E). rewrite !andb_true_iff, !bool_decide_eq_true in E.
    exists row. split; [done|]. split; tauto.
Qed.

Lemma cached_stored now s u v p : accessOk s -> noColon u = true -> v ∈ map sv_id (x_servers s) -> cached now u v s = Some p ->
  storedPermissions u v s = p.
Proof.
  intros Ok Hu Hv. unfold cached. destruct (x_cache s !! _) as [[q e]|] eqn:E; [|done]. destruct (now <? e); [|done]. intros [= ->].
  destruct (ao_cache _ Ok u v p e Hu E) as [(row & Hr & R1 & R2 & <-)|Hn]; [|done]. by apply stored_row.
Qed.

(** What [resolve] does: the reference's answer, and at most a coherent cache entry. *)
Lemma resolve_spec now u v a s r s' : accessOk s -> noColon u = true -> resolve now u v a s = (r, s') ->
  sameAccess r (resolveRef u v a s) /\ accessOk s' /\
  s' = s <| x_cache := x_cache s' |>.
Proof.
  intros Ok Hu Hr. unfold resolve in Hr. rewrite bind_gets in Hr. unfold resolveRef.
  destruct (fetchOwned u v a s) as [server|] eqn:Ef.
  2:{ injection Hr as <- <-. split_and!; [done|done|by destruct s]. }
  unfold orThrow in Hr. rewrite bind_ret in Hr. destruct a.
  { injection Hr as <- <-. split_and!; [done|done|by destruct s]. }
  case_bool_decide as Ho; [injection Hr as <- <-; split_and!; [done|done|by destruct s]|].
  destruct (fetched_shared s u v server Ok Ef Ho) as (Hid & Hin & row & Hrow & Hfor).
  assert (v ∈ map sv_id (x_servers s)) as Hv by (rewrite <- Hid; apply list_elem_of_In, in_map; by apply list_elem_of_In).
  unfold resolveSubuserPermissions in Hr. unfold mbind at 1, M_bind at 1 in Hr. rewrite bind_gets in Hr.
  destruct (cached now u v s) as [p|] eqn:Ec.
  - injection Hr as <- <-. split_and!; [|done|by destruct s]. rewrite (cached_stored now s u v p Ok Hu Hv Ec). done.
  - injection Hr as <- <-. split_and!; [done| |by destruct s].
    destruct Ok as [O1 O2 O3 O4 O5 O6]. split; try done. simpl. intros u' v' p e Hu' Hl.
    destruct (decide (permCacheKey u v = permCacheKey u' v')) as [Ek|Ek].
    + rewrite Ek, lookup_insert_eq in Hl. injection Hl as <- _. apply permCacheKey_inj in Ek as [-> ->]; [|done|done].
      left. exists row. destruct Hfor as [F1 F2]. split_and!; [done|done|done|]. symmetry. apply stored_row; [done|done|done].
    + rewrite lookup_insert_ne in Hl by done. by apply O6 with (e := e).
Qed.

(** ** Every operation keeps the cache coherent *)

Section AccessSteps.
Context `{Platform} `{Secrets}.

(** A refusal after [resolve] leaves what [resolve] left. *)
Lemma manager_ok acc msg s u s' : requireManager acc msg s = (Ok u, s') -> s' = s /\ (ra_role acc = role_owner \/ ra_role acc = role_admin).
Proof.
  unfold requireManager. intros [E ->]%throwIf_ok. split; [done|]. rewrite andb_false_iff, !negb_false_iff, !bool_decide_eq_true in E. done.
Qed.

Lemma subuserOf_state id v s r s' : subuserOf id v s = (r, s') -> s' = s /\
  forall x, r = Ok x -> x ∈ x_subusers s /\ su_id x = id /\ su_serverId x = sv_id v.
Proof.
  unfold subuserOf. rewrite bind_gets. destruct (findFirst _ _) as [y|] eqn:E; intros [= <- <-]; split; try done.
  intros x [= ->]. apply findFirst_some in E as [? E]. rewrite andb_true_iff, !bool_decide_eq_true in E. tauto.
Qed.

Lemma assertValid_state keys s r s' : assertValidPermissions keys s = (r, s') -> s' = s.
Proof. unfold assertValidPermissions. rewrite bind_gets. unfold throwIf. by destruct (negb _); intros [= _ <-]. Qed.

Lemma requireManager_state acc msg s r s' : requireManager acc msg s = (r, s') -> s' = s.
Proof. unfold requireManager, throwIf. by destruct (_ && _); intros [= _ <-]. Qed.

(** The rows of a subuser table where one permission list was replaced, or one row removed. *)
Lemma update_ok s x v perms : accessOk s -> x ∈ x_subusers s -> su_serverId x = v ->
  accessOk (s <| x_subusers := updId (su_id x) (withPermissions perms) (x_subusers s) |>
              <| x_cache := delete (permCacheKey (su_userId x) v) (x_cache s) |>).
Proof.
  intros [O1 O2 O3 O4 O5 O6] Hx Hv.
  assert (map su_id (updId (su_id x) (withPermissions perms) (x_subusers s)) = map su_id (x_subusers s)) as Hids.
  { change su_id with (@rid Subuser _). by apply updId_rids. }
  assert (forall y, y ∈ updId (su_id x) (withPermissions perms) (x_subusers s) ->
    exists z, z ∈ x_subusers s /\ su_id y = su_id z /\ su_serverId y = su_serverId z /\ su_userId y = su_userId z /\ su_acceptedAt y = su_acceptedAt z) as Back.
  { intros y [Hy|(z & Hz & ->)]%updFirst_elem; [by exists y|]. apply findFirst_some in Hz as [Hz _]. by exists z. }
  split; simpl; try done.
  - by rewrite Hids.
  - intros a b Ha Hb E1 E2. destruct (Back a Ha) as (a' & Ha' & I1 & S1 & U1 & _), (Back b Hb) as (b' & Hb' & I2 & S2 & U2 & _).
    assert (a' = b') as -> by (apply O4; congruence).
    apply (NoDup_map_inj su_id (updId (su_id x) (withPermissions perms) (x_subusers s))); [by rewrite Hids|done|done|congruence].
  - intros y Hy. destruct (Back y Hy) as (z & Hz & _ & _ & -> & ->). by apply O5.
  - intros u w p e Hu Hl. apply lookup_delete_Some in Hl as [Hk Hl]. destruct (O6 u w p e Hu Hl) as [(row & Hr & R1 & R2 & R3)|Hn]; [|by right].
    left. exists row. split; [|done]. assert (su_id row <> su_id x) as Hne.
    { intros E. assert (row = x) as -> by (by apply (NoDup_map_inj su_id (x_subusers s))). apply Hk. congruence. }
    clear -Hr Hne. unfold updId. induction (x_subusers s) as [|y l IH]; simpl; [done|]. change (rid y) with (su_id y).
    apply elem_of_cons in Hr as [->|Hr].
    + rewrite bool_decide_eq_false_2 by done. apply elem_of_cons. by left.
    + destruct (bool_decide _); apply elem_of_cons; right; auto.
Qed.

Lemma remove_ok s x v : accessOk s -> x ∈ x_subusers s -> su_serverId x = v ->
  accessOk (s <| x_subusers := List.filter (fun u => negb (su_id u =s su_id x)) (x_subusers s) |>
              <| x_cache := delete (permCacheKey (su_userId x) v) (x_cache s) |>).
Proof.
  intros [O1 O2 O3 O4 O5 O6] Hx Hv.
  assert (forall y, y ∈ List.filter (fun u => negb (su_id u =s su_id x)) (x_subusers s) <-> y ∈ x_subusers s /\ su_id y <> su_id x) as Mem.
  { intros y. rewrite list_elem_of_In, filter_In, <- list_elem_of_In, negb_true_iff, bool_decide_eq_false. done. }
  split; simpl; try done.
  - apply NoDup_map_filter, O3.
  - intros a b [Ha _]%Mem [Hb _]%Mem. by apply O4.
  - intros y [Hy _]%Mem. by apply O5.
  - intros u w p e Hu Hl. apply lookup_delete_Some in Hl as [Hk Hl]. destruct (O6 u w p e Hu Hl) as [(row & Hr & R1 & R2 & R3)|Hn]; [|by right].
    left. exists row. split; [|done]. apply Mem. split; [done|]. intros E.
    assert (row = x) as -> by (by apply (NoDup_map_inj su_id (x_subusers s))). apply Hk. congruence.
Qed.

Lemma accessOk_frame s s' : x_servers s' = x_servers s -> x_users s' = x_users s -> x_subusers s' = x_subusers s ->
  x_cache s' = x_cache s -> accessOk s -> accessOk s'.
Proof. intros E1 E2 E3 E4 [O1 O2 O3 O4 O5 O6]. split; rewrite ?E1, ?E2, ?E3, ?E4; done. Qed.

Lemma invite_ok s x : accessOk s -> noColon (su_userId x) = true -> is_Some (su_acceptedAt x) ->
  su_id x ∉ map su_id (x_subusers s) ->
  (forall y, y ∈ x_subusers s -> su_serverId y = su_serverId x -> su_userId y <> su_userId x) ->
  accessOk (s <| x_subusers := x_subusers s ++ [x] |>).
Proof.
  intros [O1 O2 O3 O4 O5 O6] Hc Ha Hid Hu. split; simpl; try done.
  - rewrite List.map_app. apply NoDup_app. split_and!; [done| |apply NoDup_singleton]. by intros y Hy ->%list_elem_of_singleton.
  - intros a b [Ha'| ->%list_elem_of_singleton]%elem_of_app [Hb| ->%list_elem_of_singleton]%elem_of_app E1 E2; [by apply O4|exfalso|exfalso|done].
    + by apply (Hu a).
    + by apply (Hu b).
  - intros y [Hy| ->%list_elem_of_singleton]%elem_of_app; [by apply O5|done].
  - intros u v p e Hcu Hl. destruct (O6 u v p e Hcu Hl) as [(row & Hr & R)|Hn]; [|by right]. left. exists row.
    split; [apply elem_of_app; by left|done].
Qed.
End AccessSteps.

Section AccessTheorems.
Context `{Platform} `{Secrets}.

(** [resolve] followed by guards and then [k]: a failure before [k] is harmless. *)
Lemma managed_ok {B} now actor v msg (k : ResolvedAccess -> MX B) s r s' : accessOk s -> noColon (xa_id actor) = true ->
  (acc ← resolve now (xa_id actor) v (xa_isAdmin actor); requireManager acc msg ;; k acc) s = (r, s') ->
  accessOk s' \/
  exists acc s1, accessOk s1 /\ s1 = s <| x_cache := x_cache s1 |> /\
    (ra_role acc = role_owner \/ ra_role acc = role_admin) /\ k acc s1 = (r, s').
Proof.
  intros Ok Hc Hr. apply bind_inv in Hr as [(e & Hr & _)|(acc & s1 & Hr & Hk)].
  - left. apply resolve_spec in Hr as (_ & ? & _); done.
  - apply resolve_spec in Hr as (_ & Ok1 & E1); [|done|done]. apply bind_inv in Hk as [(e & Hm & _)|(? & s2 & Hm & Hk)].
    + left. by apply requireManager_state in Hm as ->.
    + apply manager_ok in Hm as [-> Hrole]. right. exists acc, s1. done.
Qed.

Lemma updatePermissions_ok t a v i p s : accessOk s -> noColon (xa_id a) = true -> accessOk (updatePermissions t a v i p s).2.
Proof.
  intros Ok Hc. destruct (updatePermissions t a v i p s) as [r s'] eqn:Hr. simpl. unfold updatePermissions in Hr.
  apply managed_ok in Hr as [?|(acc & s1 & Ok1 & _ & _ & Hr)]; [done| |done|done].
  apply bind_inv in Hr as [(e & Hr & _)|(u & s2 & Hr & Hk)]; [by apply assertValid_state in Hr as ->|].
  apply assertValid_state in Hr as ->. apply bind_inv in Hk as [(e & Hr & _)|(x & s2 & Hr & Hk)]; [by apply subuserOf_state in Hr as [-> _]|].
  apply subuserOf_state in Hr as [-> Hx]. destruct (Hx x eq_refl) as (Hin & _ & Hv). injection Hk as _ <-.
  eapply accessOk_frame; [| | | |exact (update_ok s1 x (sv_id (ra_server acc)) p Ok1 Hin Hv)]; reflexivity.
Qed.

Lemma removeSubuser_ok t a v i s : accessOk s -> noColon (xa_id a) = true -> accessOk (removeSubuser t a v i s).2.
Proof.
  intros Ok Hc. destruct (removeSubuser t a v i s) as [r s'] eqn:Hr. simpl. unfold removeSubuser in Hr.
  apply managed_ok in Hr as [?|(acc & s1 & Ok1 & _ & _ & Hr)]; [done| |done|done].
  apply bind_inv in Hr as [(e & Hr & _)|(x & s2 & Hr & Hk)]; [by apply subuserOf_state in Hr as [-> _]|].
  apply subuserOf_state in Hr as [-> Hx]. destruct (Hx x eq_refl) as (Hin & _ & Hv). injection Hk as _ <-.
  eapply accessOk_frame; [| | | |exact (remove_ok s1 x (sv_id (ra_server acc)) Ok1 Hin Hv)]; reflexivity.
Qed.

Lemma createSubuser_inv u s r s' : createSubuser u s = (r, s') -> s' = s \/
  (su_id u ∉ map su_id (x_subusers s)) /\
  (forall y, y ∈ x_subusers s -> su_serverId y = su_serverId u -> su_userId y <> su_userId u) /\ s' = s <| x_subusers := x_subusers s ++ [u] |>.
Proof.
  unfold createSubuser. rewrite bind_gets. intros [[_ ->]|[Hd Hr]]%bind_throwIf; [by left|]. rewrite bind_gets in Hr.
  apply bind_throwIf in Hr as [[_ ->]|[Ht Hr]]; [by left|]. rewrite bind_gets in Hr. apply bind_throwIf in Hr as [[_ ->]|[_ Hr]]; [by left|].
  injection Hr as _ <-. right. apply not_true_iff_false in Hd, Ht. split_and!; [| |done].
  - intros (y & E & Hy)%list_elem_of_In%in_map_iff. apply Hd, existsb_exists. exists y. split; [done|by apply bool_decide_eq_true].
  - intros y Hy E1 E2. apply Ht, existsb_exists. exists y. split; [by apply list_elem_of_In|]. by rewrite !bool_decide_eq_true_2.
Qed.

Lemma invite_keeps t a v e p s : accessOk s -> noColon (xa_id a) = true -> accessOk (invite t a v e p s).2.
Proof.
  intros Ok Hc. destruct (invite t a v e p s) as [r s'] eqn:Hr. simpl. unfold invite in Hr.
  apply managed_ok in Hr as [?|(acc & s1 & Ok1 & _ & _ & Hr)]; [done| |done|done].
  apply bind_inv in Hr as [(? & Hr & _)|(? & s2 & Hr & Hk)]; [by apply assertValid_state in Hr as ->|]. apply assertValid_state in Hr as ->.
  rewrite bind_gets in Hk. destruct (findFirst _ (x_users s1)) as [w|] eqn:Ew; [|by injection Hk as _ <-].
  apply findFirst_some in Ew as [Hw _]. unfold orThrow in Hk. rewrite bind_ret in Hk.
  apply bind_throwIf in Hk as [[_ ->]|[_ Hk]]; [done|]. rewrite bind_gets in Hk. apply bind_throwIf in Hk as [[_ ->]|[_ Hk]]; [done|].
  apply bind_inv in Hk as [(? & E & _)|(n & s2 & E & Hk)]; [done|]. injection E as _ <-.
  set (x0 := mkSubuser _ _ _ _ _ _) in Hk.
  assert (forall s3 r3, createSubuser x0 (s1 <| x_next := (x_next s1 + 1)%N |>) = (r3, s3) -> accessOk s3) as Hcr.
  { intros s3 r3 [->|(Hi & Hu & ->)]%createSubuser_inv; [by apply (accessOk_frame s1)|].
    eapply accessOk_frame; [| | | |apply (invite_ok s1 x0 Ok1 (ao_users _ Ok1 w Hw)); [eauto|exact Hi|exact Hu]]; reflexivity. }
  apply bind_inv in Hk as [(? & E & _)|(? & s3 & E & Hk)]; apply Hcr in E; [done|]. injection Hk as _ <-. by apply (accessOk_frame s3).
Qed.

Lemma status_ok v st s : accessOk s -> accessOk (s <| x_servers := updId v (fun x => x <| sv_status := st |>) (x_servers s) |>).
Proof.
  intros [O1 O2 O3 O4 O5 O6].
  assert (map sv_id (updId v (fun x => x <| sv_status := st |>) (x_servers s)) = map sv_id (x_servers s)) as E.
  { change sv_id with (@rid Server _). by apply updId_rids. }
  split; try done.
  - change (NoDup (map sv_id (updId v (fun x => x <| sv_status := st |>) (x_servers s)))). by rewrite E.
  - intros u w p e Hu Hl. destruct (O6 u w p e Hu Hl) as [?|Hn]; [by left|right].
    change (w ∉ map sv_id (updId v (fun x => x <| sv_status := st |>) (x_servers s))). by rewrite E.
Qed.

Lemma delete_ok v s : accessOk s -> accessOk (s <| x_servers := List.filter (fun x => negb (sv_id x =s v)) (x_servers s) |>
  <| x_subusers := List.filter (fun u => negb (su_serverId u =s v)) (x_subusers s) |>).
Proof.
  intros [O1 O2 O3 O4 O5 O6].
  assert (forall y, y ∈ List.filter (fun u => negb (su_serverId u =s v)) (x_subusers s) <-> y ∈ x_subusers s /\ su_serverId y <> v) as Mem.
  { intros y. rewrite list_elem_of_In, filter_In, <- list_elem_of_In, negb_true_iff, bool_decide_eq_false. done. }
  split; simpl; try done.
  - by apply NoDup_map_filter.
  - by apply NoDup_map_filter.
  - intros a b [Ha _]%Mem [Hb _]%Mem. by apply O4.
  - intros y [Hy _]%Mem. by apply O5.
  - assert (forall w, w ∈ map sv_id (List.filter (fun x => negb (sv_id x =s v)) (x_servers s)) -> w ∈ map sv_id (x_servers s) /\ w <> v) as Srv.
    { intros w (x & <- & Hx)%list_elem_of_In%in_map_iff. apply filter_In in Hx as [Hx Hv]. rewrite negb_true_iff, bool_decide_eq_false in Hv.
      split; [by apply list_elem_of_In, in_map|done]. }
    intros u w p e Hu Hl. destruct (decide (w = v)) as [->|Hne]; [right; by intros [_ ?]%Srv|].
    destruct (O6 u w p e Hu Hl) as [(row & Hr & R1 & R)|Hn]; [left; exists row; rewrite Mem; split; [split; congruence|done]|].
    right. by intros [? _]%Srv.
Qed.

Lemma runAccess_ok op s : accessOk s -> noColon (opUser op) = true -> accessOk (runAccess op s).
Proof.
  intros Ok Hu. destruct op; simpl in *.
  - destruct (resolve _ _ _ _ s) as [r s'] eqn:E. apply resolve_spec in E as (_ & ? & _); done.
  - by apply invite_keeps.
  - by apply updatePermissions_ok.
  - by apply removeSubuser_ok.
  - by apply status_ok.
  - by apply delete_ok.
Qed.

Lemma runAccesses_ok ops s : accessOk s -> (forall op, op ∈ ops -> noColon (opUser op) = true) -> accessOk (runAccesses ops s).
Proof.
  revert s. induction ops as [|op ops IH]; intros s Ok Hu; [done|]. apply IH.
  - apply runAccess_ok; [done|]. apply Hu, elem_of_cons. by left.
  - intros x Hx. apply Hu, elem_of_cons. by right.
Qed.

(** C33: the permission cache is transparent to requests handled one at a time.  From a state in
    which what is cached agrees with the database (an empty cache does), after any sequence of
    whole access checks, invitations, permission edits, removals, status changes and server
    deletions, a check gives exactly the answer of reading the database, cached or not: the
    same error or the same server, role and verdict on every permission key.  In particular a
    permission revoked or a subuser removed has no effect left.  A check that overlaps an edit
    is outside the claim: [revoked_permission_race]. *)
Theorem permission_cache_transparent ops s now u v a r s' : accessOk s -> (forall op, op ∈ ops -> noColon (opUser op) = true) ->
  noColon u = true -> resolve now u v a (runAccesses ops s) = (r, s') -> sameAccess r (resolveRef u v a (runAccesses ops s)).
Proof. intros Ok Ho Hu Hr. apply resolve_spec in Hr as [? _]; [done|by apply runAccesses_ok|done]. Qed.
End AccessTheorems.

Section Managers.
Context `{Platform} `{Secrets}.

Definition managing (op : AccessOp) : option (AccessActor * string) :=
  match op with
  | XInvite _ a v _ _ | XUpdate _ a v _ _ | XRemove _ a v _ => Some (a, v)
  | _ => None
  end.

Lemma resolve_subusers now u v a : keeps (same x_subusers) (resolve now u v a).
Proof. unfold resolve, resolveSubuserPermissions, cachePermissions. keeps_auto. by intros s r s' [= _ <-]. Qed.

Lemma resolve_stranger now u v s acc s' : resolve now u v false s = (Ok acc, s') ->
  (forall w, w ∈ x_servers s -> sv_id w = v -> sv_ownerId w <> u) -> ra_role acc = role_subuser.
Proof.
  unfold resolve. rewrite bind_gets. intros Hr Ho. apply bind_ok in Hr as (server & ? & E & Hr). apply orThrow_ok in E as [Hf ->].
  apply findFirst_some in Hf as [Hin E]. rewrite andb_true_iff, bool_decide_eq_true in E. destruct E as [Hid _].
  rewrite bool_decide_eq_false_2 in Hr by (by apply Ho). apply bind_ok in Hr as (? & ? & _ & Hr). by injection Hr as <- _.
Qed.

Lemma guarded_subusers {B} now a v msg (k : ResolvedAccess -> MX B) s : xa_isAdmin a = false ->
  (forall w, w ∈ x_servers s -> sv_id w = v -> sv_ownerId w <> xa_id a) ->
  x_subusers ((acc ← resolve now (xa_id a) v (xa_isAdmin a); requireManager acc msg ;; k acc) s).2 = x_subusers s /\
  exists e, ((acc ← resolve now (xa_id a) v (xa_isAdmin a); requireManager acc msg ;; k acc) s).1 = Throw e.
Proof.
  intros Ha Ho. rewrite Ha. unfold mbind at 1 3, M_bind at 1 3. destruct (resolve _ _ _ _ s) as [[acc|e] s1] eqn:E.
  - pose proof (resolve_subusers _ _ _ _ _ _ _ E) as S. pose proof (resolve_stranger _ _ _ _ _ _ E Ho) as R.
    unfold mbind, M_bind, requireManager, throwIf. rewrite R. simpl. eauto.
  - pose proof (resolve_subusers _ _ _ _ _ _ _ E) as S. eauto.
Qed.

(** Only the owner or an admin changes who shares a server.  A request to invite,
    edit or remove a subuser by anyone else, a subuser with every permission included,
    is refused and leaves the subuser table untouched. *)
Theorem only_managers_change_subusers op a v s : managing op = Some (a, v) -> xa_isAdmin a = false ->
  (forall w, w ∈ x_servers s -> sv_id w = v -> sv_ownerId w <> xa_id a) ->
  x_subusers (runAccess op s) = x_subusers s /\
  match op with
  | XInvite t _ _ m p => exists e, (invite t a v m p s).1 = Throw e
  | XUpdate t _ _ i p => exists e, (updatePermissions t a v i p s).1 = Throw e
  | XRemove t _ _ i => exists e, (removeSubuser t a v i s).1 = Throw e
  | _ => True
  end.
Proof. intros Hop Ha Ho. destruct op; try done; injection Hop as -> ->; by apply guarded_subusers. Qed.

(** The cache is filled without looking again: an access check that read the permissions
    before an edit and stores them after the edit's invalidation brings the revoked
    permissions back, for up to a minute. *)
Theorem revoked_permission_race now u v s s1 s2 server now' p :
  let before := storedPermissions u v s in
  cachePermissions now u v before s1 = (Ok tt, s2) -> fetchOwned u v false s1 = Some server -> sv_ownerId server <> u ->
  now' < now + 60000 -> p ∈ before -> allowedForStatus (sv_status server) p = true ->
  exists acc, resolve now' u v false s2 = (Ok acc, s2) /\ ra_can acc p = true.
Proof.
  intros before [= <-] Hf Ho Ht Hp Hst. unfold resolve. rewrite bind_gets.
  change (fetchOwned u v false _) with (fetchOwned u v false s1). rewrite Hf. unfold orThrow. rewrite bind_ret.
  rewrite bool_decide_eq_false_2 by done. unfold resolveSubuserPermissions, mbind, M_bind, gets, cached. simpl.
  rewrite lookup_insert_eq. assert ((now' <? now + PERM_CACHE_TTL_SECONDS * 1000) = true) as -> by (unfold PERM_CACHE_TTL_SECONDS; lia).
  simpl. eexists. split; [reflexivity|]. simpl. by rewrite bool_decide_eq_true_2, Hst.
Qed.
End Managers.

(** ** Witnesses *)

#[local] Existing Instance Demo.platform.
#[local] Existing Instance DemoAuth.secrets.

Module DemoShare.

Definition server (st : ServerStatus) : Server :=
  mkServer "s" "SHORT" "o" "a" (Some "t") (Some "p") (Some 100000) "srv" (Some "img") (Some "run")
    100 2048 0 10000 500 true 1 1 1 1 st None None None None "offline".

Definition row (perms : list string) : Subuser := mkSubuser "x" "s" "u" perms (Some "o") (Some 1).

Definition state : AccessState :=
  mkAccess [server Srv_ready] [DemoAuth.account "u" "user" 0] [row ["file.read"; "file.write"]] ["file.read"; "file.write"; "control.start"] ∅ [] 10%N.

Definition owner : AccessActor := mkActor "o" false.
Definition sub : AccessActor := mkActor "u" false.

(** The subuser's permissions are cached, then file writes are taken away. *)
Definition ops : list AccessOp := [XResolve 1000 "u" "s" false; XUpdate 2000 owner "s" "x" ["file.read"]].

End DemoShare.

Lemma demo_accessOk : accessOk DemoShare.state.
Proof.
  split.
  - apply NoDup_singleton.
  - intros u ->%list_elem_of_singleton. reflexivity.
  - apply NoDup_singleton.
  - intros a b ->%list_elem_of_singleton ->%list_elem_of_singleton. reflexivity.
  - intros u ->%list_elem_of_singleton. split; [reflexivity|eexists; reflexivity].
  - intros u v p e _ Hl. simpl in Hl. by rewrite lookup_empty in Hl.
Qed.

Lemma permission_cache_transparent_witness :
  exists acc, (resolve 3000 "u" "s" false (runAccesses DemoShare.ops DemoShare.state)).1 = Ok acc /\
    ra_can acc "file.read" = true /\ ra_can acc "file.write" = false.
Proof.
  destruct (resolve 3000 "u" "s" false (runAccesses DemoShare.ops DemoShare.state)) as [r s'] eqn:E.
  pose proof (permission_cache_transparent DemoShare.ops DemoShare.state 3000 "u" "s" false r s' demo_accessOk) as T.
  assert (exists b, resolveRef "u" "s" false (runAccesses DemoShare.ops DemoShare.state) = Ok b /\ ra_can b "file.read" = true /\
    ra_can b "file.write" = false) as (b & Hb & B1 & B2) by (eexists; split; [|split]; vm_compute; reflexivity).
  rewrite Hb in T. assert (sameAccess r (Ok b)) as S.
  { apply T; [|reflexivity|exact E]. intros op [->|[->|[]%not_elem_of_nil]%elem_of_cons]%elem_of_cons; reflexivity. }
  destruct r as [acc|e]; [|destruct S]. destruct S as (_ & _ & S). exists acc. rewrite !S. split; [reflexivity|split; [exact B1|exact B2]].
Defined.

Lemma only_managers_change_subusers_witness :
  x_subusers (runAccess (XInvite 1000 DemoShare.sub "s" "u@x" []) DemoShare.state) = [DemoShare.row ["file.read"; "file.write"]].
Proof.
  refine (proj1 (only_managers_change_subusers (XInvite 1000 DemoShare.sub "s" "u@x" []) DemoShare.sub "s" DemoShare.state eq_refl eq_refl _)).
  intros w ->%list_elem_of_singleton _. discriminate.
Defined.

Lemma revoked_permission_race_witness :
  exists acc s2, (resolve 4000 "u" "s" false s2).1 = Ok acc /\ ra_can acc "file.write" = true /\
    storedPermissions "u" "s" s2 = ["file.read"].
Proof.
  set (s1 := (updatePermissions 2000 DemoShare.owner "s" "x" ["file.read"] DemoShare.state).2).
  set (s2 := (cachePermissions 3000 "u" "s" (storedPermissions "u" "s" DemoShare.state) s1).2).
  destruct (revoked_permission_race 3000 "u" "s" DemoShare.state s1 s2 (DemoShare.server Srv_ready) 4000 "file.write") as (acc & Ha & Hc).
  - reflexivity.
  - vm_compute. reflexivity.
  - discriminate.
  - reflexivity.
  - vm_compute. apply elem_of_cons. right. apply elem_of_cons. left. reflexivity.
  - reflexivity.
  - exists acc, s2. rewrite Ha. split; [reflexivity|split; [exact Hc|vm_compute; reflexivity]].
Defined.
