(* ===== verification/Setup.v ===== *)
(** Setup: choosing and changing the software of a server.

    [servers/server-setup.service.ts] (the first setup and its retry, the version change,
    the reinstall) and [servers/server-variables.service.ts] (the customer's startup
    variables), after the access check each method starts with: [access] is what
    [ServerAccessService.resolve] answered ([Access]), with the server row it read. *)

From S2P Require Import Prelude JsNum Capacity Store Scheduler Subscriptions JsString Variables Servers Accounts Access.
From Stdlib Require Import Ascii String Lia.

Local Open Scope Z_scope.

Record CompleteServerSetupDto := mkSetupDto {
  sd_name : string; sd_templateId : string; sd_variables : option (list (string * string)) }.

(** What the agent answers to [getServerStatus]; it may fail, and may change with every call. *)
Class AgentStatus := { serverState : list ExtCall -> string -> Res string }.

Definition isStoppedState (state : string) : bool := (state =s "offline") || (state =s "crashed").

(** The software a request chose: the template, its image and command, and the values of
    every variable the template declares. *)
Record Software := mkSoftware {
  sw_template : Template; sw_image : string; sw_command : string; sw_vars : list TemplateVariable;
  sw_values : gmap string string }.

Definition templateVarsOf (templateId : string) (d : Db) : list TemplateVariable :=
  List.filter (fun tv => tv_templateId tv =s templateId) (db_templateVariables d).

Definition chooseSoftware (templateId : string) (variables : option (list (string * string))) (memoryMb : Z) : MW Software :=
  d ← gets w_db;
  template ← orThrow (findFirst (fun t => (tp_id t =s templateId) && (tp_deletedAt t =s None) && tp_isPublic t && tp_isActive t)
                        (db_templates d)) (NotFound "Template not found");
  dockerImage ← orThrow (truthy (pickDockerImage (tp_dockerImages template) (variables ≫= assoc "MINECRAFT_VERSION")))
                  (Conflict "Template has no docker images configured");
  let templateVars := templateVarsOf (tp_id template) d in
  values ← lift (resolveDeclaredVariables templateVars (default [] variables));
  let resolvedValues := applyPlanManagedVariables values memoryMb in
  let startupCommand := pickStartupCommand (tp_softwareKind template) (tp_startupCommand template)
                          (resolvedValues !! "MINECRAFT_VERSION") in
  mret (mkSoftware template dockerImage startupCommand templateVars resolvedValues).

(** [serverVariable.upsert] on the unique pair (server, variable). *)
Definition upsertVariable (serverId : string) (variableId : Z) (value : string) (l : list ServerVariable) : list ServerVariable :=
  let here := fun v => (vv_serverId v =s serverId) && (vv_variableId v =? variableId) in
  if existsb here l
  then updWhere here (fun v => mkServerVariable (vv_serverId v) (vv_variableId v) value) l
  else l ++ [mkServerVariable serverId variableId value].

Definition saveVariable (serverId : string) (variableId : Z) (value : string) : MW unit :=
  onDb (fun d => d <| db_serverVariables := upsertVariable serverId variableId value (db_serverVariables d) |>).

(** The compare-and-swap transaction: the row only moves from one of the statuses [from],
    and the variables are written with it. *)
Definition commitSoftware (from : list ServerStatus) (serverId : string) (software : Software) (f : Server -> Server) : MW Z :=
  withRLS (
    row ← gets (fun w => findFirst (fun s => (sv_id s =s serverId) && bool_decide (sv_status s ∈ from)) (db_servers (w_db w)));
    match row with
    | None => mret 0
    | Some _ =>
      updateServer serverId f ;;
      forEach (sw_vars software) (fun tv =>
        saveVariable serverId (tv_id tv) (default "" (sw_values software !! tv_envVariable tv))) ;;
      mret 1
    end).

Definition withSoftware (software : Software) (s : Server) : Server :=
  s <| sv_status := Srv_installing |> <| sv_templateId := Some (tp_id (sw_template software)) |>
    <| sv_dockerImage := Some (sw_image software) |> <| sv_startupCommand := Some (sw_command software) |>.

Definition setupRow (software : Software) (name : string) (s : Server) : Server := (withSoftware software s) <| sv_name := name |>.

Definition versionRow (software : Software) (state : string) (s : Server) : Server :=
  (withSoftware software s) <| sv_powerState := state |>.

Definition SETUP_FROM : list ServerStatus := [Srv_setup_pending; Srv_install_failed].

(** The current value of a variable of a server. *)
Definition storedValue (serverId : string) (variableId : Z) (d : Db) : option string :=
  vv_value <$> findFirst (fun v => (vv_serverId v =s serverId) && (vv_variableId v =? variableId)) (db_serverVariables d).

Section Setup.
Context `{Outside} `{AgentStatus}.

Definition complete (actor : AccessActor) (access : ResolvedAccess) (dto : CompleteServerSetupDto) : MW unit :=
  let server := ra_server access in
  throwIf (negb (ra_can access "server.read")) (Forbidden "Missing permission: server.read") ;;
  software ← chooseSoftware (sd_templateId dto) (sd_variables dto) (sv_memoryMb server);
  count ← commitSoftware SETUP_FROM (sv_id server) software (setupRow software (sd_name dto));
  throwIf (count =? 0) (Conflict "INVALID_TRANSITION: server is not awaiting setup") ;;
  record "server.setup.complete" (Some (xa_id actor)) "server" (sv_id server) ;;
  dispatchToAgent (sv_id server) (sv_nodeId server) (default 0 (sv_uid server)) true.

Definition changeVersion (actor : AccessActor) (access : ResolvedAccess) (templateId : string)
    (variables : option (list (string * string))) (auditAction : string) : MW unit :=
  let server := ra_server access in
  throwIf (negb (ra_can access "startup.update")) (Forbidden "Missing permission: startup.update") ;;
  throwIf (negb (sv_status server =s Srv_ready)) (Conflict "INVALID_TRANSITION: server is not ready for a version change") ;;
  calls ← gets w_calls;
  state ← lift (serverState calls (sv_id server));
  throwIf (negb (isStoppedState state)) (Conflict "SERVER_MUST_BE_OFFLINE: pare o servidor antes de trocar a versão") ;;
  software ← chooseSoftware templateId variables (sv_memoryMb server);
  count ← commitSoftware [Srv_ready] (sv_id server) software (versionRow software state);
  throwIf (count =? 0) (Conflict "INVALID_TRANSITION: o servidor mudou de estado; tente novamente") ;;
  record auditAction (Some (xa_id actor)) "server" (sv_id server) ;;
  dispatchReinstallToAgent (sv_id server) (sv_nodeId server)
    (default "" (sv_templateId server), default "" (sv_dockerImage server), default "" (sv_startupCommand server)) true.

(** The stored values of the variables of template [templateId], by name. *)
Definition currentVariables (serverId templateId : string) (d : Db) : list (string * string) :=
  omap (fun v => if vv_serverId v =s serverId
                 then (fun tv => (tv_envVariable tv, vv_value v)) <$>
                        findFirst (fun tv => (tv_id tv =? vv_variableId v) && (tv_templateId tv =s templateId)) (db_templateVariables d)
                 else None) (db_serverVariables d).

Definition reinstallCurrent (actor : AccessActor) (access : ResolvedAccess) : MW unit :=
  let server := ra_server access in
  throwIf (negb (ra_can access "startup.update")) (Forbidden "Missing permission: startup.update") ;;
  templateId ← orThrow (truthy (sv_templateId server)) (Conflict "O servidor ainda não possui uma versão instalada.");
  variables ← gets (fun w => currentVariables (sv_id server) templateId (w_db w));
  if sv_status server =s Srv_install_failed then
    complete actor access (mkSetupDto (sv_name server) templateId (Some variables))
  else
    throwIf (negb (sv_status server =s Srv_ready)) (Conflict "Aguarde a instalação atual terminar antes de reinstalar esta versão.") ;;
    changeVersion actor access templateId (Some variables) "server.version.reinstalled".

(** ** server-variables.service.ts *)

Definition checkEdit (templateVars : list TemplateVariable) (entry : string * string) : Res unit :=
  let '(key, value) := entry in
  match byEnvVar templateVars key with
  | None => Throw (BadRequest ("Variável desconhecida: " +:+ key))
  | Some tv =>
    if negb (tv_isUserEditable tv) then Throw (Forbidden ("Variável não editável: " +:+ key))
    else match validateVariableValue value (tv_rules tv) with
         | Some error => Throw (BadRequest (tv_name tv +:+ ": " +:+ error))
         | None => Ok tt
         end
  end.

(** What the server will run with: the request over the stored values over the defaults. *)
Definition mergedValues (templateVars : list TemplateVariable) (serverId : string) (values : list (string * string))
    (memoryMb : Z) (d : Db) : gmap string string :=
  applyPlanManagedVariables (resolveValues templateVars (fun tv =>
    match assoc (tv_envVariable tv) values with
    | Some v => v
    | None => default (tv_defaultValue tv) (storedValue serverId (tv_id tv) d)
    end)) memoryMb.

(** What the customer sees of a variable. *)
Record ClientVariable := mkClientVariable {
  cv_id : Z; cv_name : string; cv_description : option string; cv_envVariable : string; cv_value : string;
  cv_defaultValue : string; cv_rules : string; cv_isEditable : bool; cv_shape : VariableOptionShape }.

Definition clientVariable (serverId : string) (d : Db) (tv : TemplateVariable) : ClientVariable :=
  mkClientVariable (tv_id tv) (tv_name tv) (tv_description tv) (tv_envVariable tv)
    (default (tv_defaultValue tv) (storedValue serverId (tv_id tv) d)) (tv_defaultValue tv) (tv_rules tv)
    (tv_isUserEditable tv) (deriveVariableOptionShape (tv_rules tv)).

(** [ServerVariablesService.list]: the viewable variables with their values. *)
Definition listVariables (access : ResolvedAccess) : MW (list ClientVariable) :=
  let server := ra_server access in
  throwIf (negb (ra_can access "startup.read")) (Forbidden "Missing permission: startup.read") ;;
  match truthy (sv_templateId server) with
  | None => mret []
  | Some templateId =>
    d ← gets w_db;
    mret (map (clientVariable (sv_id server) d)
            (sortBy (fun a b => tv_sortOrder a <=? tv_sortOrder b) (List.filter tv_isUserViewable (templateVarsOf templateId d))))
  end.

Definition updateVariables (actor : AccessActor) (access : ResolvedAccess) (values : list (string * string)) : MW (list ClientVariable) :=
  let server := ra_server access in
  throwIf (negb (ra_can access "startup.update")) (Forbidden "Missing permission: startup.update") ;;
  templateId ← orThrow (truthy (sv_templateId server)) (Conflict "Server has no template yet — complete initial setup first");
  d ← gets w_db;
  let templateVars := templateVarsOf templateId d in
  lift (forEntries (checkEdit templateVars) values) ;;
  let resolvedValues := mergedValues templateVars (sv_id server) values (sv_memoryMb server) d in
  let changed := fun tv => negb (resolvedValues !! tv_envVariable tv =s storedValue (sv_id server) (tv_id tv) d) in
  agentCall (AgentVariables (sv_nodeId server) (sv_id server)
    (map (fun tv => (tv_envVariable tv, default "" (resolvedValues !! tv_envVariable tv))) templateVars)) ;;
  withRLS (
    forEach (List.filter (fun tv => bool_decide (is_Some (assoc (tv_envVariable tv) values)) || changed tv) templateVars) (fun tv =>
      saveVariable (sv_id server) (tv_id tv) (default "" (resolvedValues !! tv_envVariable tv)))) ;;
  record "server.variables.update" (Some (xa_id actor)) "server" (sv_id server) ;;
  call (ActivityRow (xa_id actor) (sv_id server) "server.variables.update") ;;
  listVariables access.

End Setup.
