(* ===== verification/SetupRules.v ===== *)
(** SetupRules: what choosing and changing software guarantees.

    Nothing but the software of the one server changes, whatever fails; one of two
    concurrent submissions wins; what is stored is what the agent was sent. *)

From S2P Require Import Prelude JsNum Capacity Store Scheduler Subscriptions JsString Variables Servers Accounts Access Setup.
From Stdlib Require Import Ascii String Lia.

Local Open Scope Z_scope.

(** ** Stored variables *)

Definition isVar (serverId : string) (variableId : Z) (v : ServerVariable) : bool :=
  (vv_serverId v =s serverId) && (vv_variableId v =? variableId).

Definition valueIn (serverId : string) (variableId : Z) (l : list ServerVariable) : option string :=
  vv_value <$> findFirst (isVar serverId variableId) l.

Lemma isVar_true s i v : isVar s i v = true <-> vv_serverId v = s /\ vv_variableId v = i.
Proof. unfold isVar. by rewrite andb_true_iff, bool_decide_eq_true, Z.eqb_eq. Qed.

(** Insert or update, then look up. *)
Lemma valueIn_upsert s i x l : valueIn s i (upsertVariable s i x l) = Some x.
Proof.
  unfold upsertVariable, valueIn, findFirst. fold (isVar s i). induction l as [|v l IH]; simpl.
  - destruct (isVar s i (mkServerVariable s i x)) eqn:E; [done|].
    assert (isVar s i (mkServerVariable s i x) = true) as Ht by (by apply isVar_true). congruence.
  - destruct (isVar s i v) eqn:E; simpl.
    + by rewrite (E : isVar s i (mkServerVariable (vv_serverId v) (vv_variableId v) x) = true).
    + destruct (existsb (isVar s i) l); simpl; by rewrite E.
Qed.


Lemma valueIn_upsert_ne s i s' i' x l : (s, i) <> (s', i') -> valueIn s' i' (upsertVariable s i x l) = valueIn s' i' l.
Proof.
  intros Hne. unfold upsertVariable, valueIn. fold (isVar s i).
  assert (forall v, isVar s i v = true -> isVar s' i' v = false) as Hd.
  { intros v [E1 E2]%isVar_true. apply not_true_is_false. intros [E3 E4]%isVar_true. congruence. }
  destruct (existsb (isVar s i) l) eqn:E.
  - f_equal. unfold findFirst, updWhere. clear E. induction l as [|v l IH]; simpl; [done|].
    destruct (isVar s i v) eqn:Ev; [|by rewrite IH].
    replace (isVar s' i' (mkServerVariable (vv_serverId v) (vv_variableId v) x)) with (isVar s' i' v) by done. by rewrite (Hd v Ev).
  - rewrite findFirst_app. destruct (findFirst (isVar s' i') l); [done|]. unfold findFirst. simpl.
    by rewrite (Hd (mkServerVariable s i x)) by (by apply isVar_true).
Qed.

Lemma upsert_others s i x l : List.filter (fun v => negb (vv_serverId v =s s)) (upsertVariable s i x l) =
  List.filter (fun v => negb (vv_serverId v =s s)) l.
Proof.
  unfold upsertVariable. fold (isVar s i). destruct (existsb (isVar s i) l) eqn:E.
  - clear E. unfold updWhere. induction l as [|v l IH]; simpl; [done|]. destruct (isVar s i v) eqn:Ev; simpl; rewrite IH; [|done].
    apply isVar_true in Ev as [-> _]. by rewrite bool_decide_eq_true_2.
  - rewrite List.filter_app. simpl. rewrite bool_decide_eq_true_2 by done. simpl. by rewrite app_nil_r.
Qed.

(** ** What a change of software may touch *)

(** A server without its software: what was sold and where it runs. *)
Definition reservation (s : Server) : Server :=
  s <| sv_status := Srv_ready |> <| sv_name := "" |> <| sv_templateId := None |> <| sv_dockerImage := None |>
    <| sv_startupCommand := None |> <| sv_powerState := "" |>.

(** Every other table, every other server and its variables, and the reservation of this
    one are as before. *)
Definition softwareOnly (sid : string) (w w' : World) : Prop :=
  (w_db w') <| db_servers := [] |> <| db_serverVariables := [] |> = (w_db w) <| db_servers := [] |> <| db_serverVariables := [] |> /\
  map reservation (db_servers (w_db w')) = map reservation (db_servers (w_db w)) /\
  List.filter (fun s => negb (sv_id s =s sid)) (db_servers (w_db w')) = List.filter (fun s => negb (sv_id s =s sid)) (db_servers (w_db w)) /\
  List.filter (fun v => negb (vv_serverId v =s sid)) (db_serverVariables (w_db w')) =
    List.filter (fun v => negb (vv_serverId v =s sid)) (db_serverVariables (w_db w)).

#[export] Instance softwareOnly_preorder sid : PreOrder (softwareOnly sid).
Proof. split; [done|]. intros a b c (E1&E2&E3&E4) (F1&F2&F3&F4). unfold softwareOnly. rewrite F1, F2, F3, F4. done. Qed.

Lemma db_softwareOnly sid w w' : w_db w' = w_db w -> softwareOnly sid w w'.
Proof. intros E. unfold softwareOnly. by rewrite E. Qed.

Lemma updServer_softwareOnly sid f : (forall s, reservation (f s) = reservation s) -> keeps (softwareOnly sid) (updateServer sid f).
Proof.
  intros Hf. unfold updateServer. repeat keeps_step. intros w r w' [= <- <-]. split; [done|]. simpl. unfold updId.
  assert (forall s, sv_id (f s) = sv_id s) as Hid by (intros y; exact (f_equal sv_id (Hf y))).
  split; [|split; [|done]]; induction (db_servers (w_db w)) as [|x l IH]; simpl; try done; change (rid x) with (sv_id x);
    destruct (sv_id x =s sid) eqn:E; simpl; rewrite ?Hf, ?Hid, ?E, ?IH; done.
Qed.

Lemma save_softwareOnly sid i x : keeps (softwareOnly sid) (saveVariable sid i x).
Proof. intros w r w' [= <- <-]. split; [done|]. split; [done|]. split; [done|]. apply upsert_others. Qed.

Section Touch.
Context `{Outside} `{AgentStatus}.

Ltac touch := repeat first
  [ by apply updServer_softwareOnly | apply save_softwareOnly
  | apply (keeps_withRLS (softwareOnly _)); [|by intros; apply db_softwareOnly]
  | by intros ? ? ? [= <- <-]; apply db_softwareOnly | keeps_step ].

Lemma agentCall_softwareOnly sid c : keeps (softwareOnly sid) (agentCall c).
Proof. unfold agentCall. touch. Qed.

Lemma choose_softwareOnly sid t v m : keeps (softwareOnly sid) (chooseSoftware t v m).
Proof. unfold chooseSoftware. touch. Qed.

Lemma commit_softwareOnly from sid sw f : (forall s, reservation (f s) = reservation s) -> keeps (softwareOnly sid) (commitSoftware from sid sw f).
Proof. intros Hf. unfold commitSoftware. touch. Qed.

Lemma dispatch_softwareOnly sid n u b : keeps (softwareOnly sid) (dispatchToAgent sid n u b).
Proof. unfold dispatchToAgent. cbv zeta. repeat first [apply agentCall_softwareOnly | progress touch]. Qed.

Lemma reinstall_softwareOnly sid n p b : keeps (softwareOnly sid) (dispatchReinstallToAgent sid n p b).
Proof. unfold dispatchReinstallToAgent. repeat first [apply agentCall_softwareOnly | progress touch]. Qed.

Lemma complete_softwareOnly a x dto : keeps (softwareOnly (sv_id (ra_server x))) (complete a x dto).
Proof.
  unfold complete. cbv zeta.
  repeat first [apply choose_softwareOnly | by apply commit_softwareOnly | apply dispatch_softwareOnly | progress touch].
Qed.

Lemma changeVersion_softwareOnly a x t v act : keeps (softwareOnly (sv_id (ra_server x))) (changeVersion a x t v act).
Proof.
  unfold changeVersion. cbv zeta.
  repeat first [apply choose_softwareOnly | by apply commit_softwareOnly | apply reinstall_softwareOnly | progress touch].
Qed.

Lemma reinstallCurrent_softwareOnly a x : keeps (softwareOnly (sv_id (ra_server x))) (reinstallCurrent a x).
Proof.
  unfold reinstallCurrent. cbv zeta. repeat first [apply complete_softwareOnly | apply changeVersion_softwareOnly | progress touch].
Qed.

Lemma updateVariables_softwareOnly a x v : keeps (softwareOnly (sv_id (ra_server x))) (updateVariables a x v).
Proof. unfold updateVariables, listVariables. cbv zeta. repeat first [apply agentCall_softwareOnly | progress touch]. Qed.

(** Whatever a customer submits and whatever fails on the way, the first setup, its
    retry, a version change, a reinstall and a change of startup variables touch nothing
    but the software of that one server: the port, uid, limits, node, owner and
    subscription reserved at purchase, every other server and every other table stay as
    they are. *)
Theorem setup_touches_only_software a x dto t v act values w :
  let sid := sv_id (ra_server x) in
  softwareOnly sid w (complete a x dto w).2 /\ softwareOnly sid w (changeVersion a x t v act w).2 /\
  softwareOnly sid w (reinstallCurrent a x w).2 /\ softwareOnly sid w (updateVariables a x values w).2.
Proof.
  cbv zeta. split; [|split; [|split]]; match goal with |- softwareOnly _ w (?m w).2 => destruct (m w) as [r w'] eqn:E end.
  all: first [by eapply complete_softwareOnly | by eapply changeVersion_softwareOnly | by eapply reinstallCurrent_softwareOnly | by eapply updateVariables_softwareOnly].
Qed.

End Touch.

(** ** The outcome of a setup *)

Lemma forEach_save sid (vars : list TemplateVariable) (val : TemplateVariable -> string) w : exists d,
  forEach vars (fun tv => saveVariable sid (tv_id tv) (val tv)) w = (Ok tt, w <| w_db := d |>) /\
  d = (w_db w) <| db_serverVariables := db_serverVariables d |> /\
  (NoDup (map tv_id vars) -> forall tv, tv ∈ vars -> storedValue sid (tv_id tv) d = Some (val tv)) /\
  (forall i, i ∉ map tv_id vars -> storedValue sid i d = storedValue sid i (w_db w)).
Proof.
  revert w. induction vars as [|tv vars IH]; intros w; simpl.
  - exists (w_db w). split; [by destruct w|]. split; [by destruct (w_db w)|]. split; [by intros _ tv ?%not_elem_of_nil|done].
  - erewrite bind_run by reflexivity.
    destruct (IH (w <| w_db := (w_db w) <| db_serverVariables := upsertVariable sid (tv_id tv) (val tv) (db_serverVariables (w_db w)) |> |>))
      as (d & E & Ed & Hin & Hout).
    exists d. split; [exact E|]. split; [rewrite Ed at 1; done|]. split.
    + intros [Hn Hd]%NoDup_cons x [->|Hx]%elem_of_cons; [|by apply Hin]. rewrite Hout by done. simpl. apply valueIn_upsert.
    + intros i [Hne Hi]%not_elem_of_cons. rewrite Hout by done. apply valueIn_upsert_ne. congruence.
Qed.

Lemma chooseSoftware_world t v m w r w' : chooseSoftware t v m w = (r, w') -> w' = w.
Proof.
  intros E. assert (keeps (same (fun w : World => w)) (chooseSoftware t v m)) as K by (unfold chooseSoftware; frame).
  exact (K _ _ _ E).
Qed.

(** A commit found the row in an accepted status and wrote it with its variables, or wrote
    nothing. *)
Lemma commitSoftware_inv from sid sw f w r w' : commitSoftware from sid sw f w = (r, w') ->
  (w_db w' = w_db w /\ (r = Ok 0 \/ exists e, r = Throw e)) \/
  (exists s d, r = Ok 1 /\ findId sid (db_servers (w_db w)) = Some s /\ serverRowOk (f s) = true /\ w' = w <| w_db := d |> /\
     db_servers d = updId sid f (db_servers (w_db w)) /\
     (exists s', s' ∈ db_servers (w_db w) /\ sv_id s' = sid /\ sv_status s' ∈ from) /\
     (NoDup (map tv_id (sw_vars sw)) -> forall tv, tv ∈ sw_vars sw -> storedValue sid (tv_id tv) d = Some (default "" (sw_values sw !! tv_envVariable tv)))).
Proof.
  unfold commitSoftware. destruct (withRLS _ w) as [[n|e] w1] eqn:E; intros [= <- <-].
  2: { left. split; [by eapply withRLS_throw|eauto]. }
  apply (proj1 (withRLS_ok _ _ _ _)) in E. rewrite bind_gets in E. destruct (findFirst _ _) as [s'|] eqn:Ef; [|injection E as <- <-; by auto].
  apply findFirst_some in Ef as [Hs' Hp]. apply andb_true_iff in Hp as [Hid%bool_decide_eq_true Hst%bool_decide_eq_true].
  apply bind_ok in E as (s1 & w2 & Eu & E). apply updateServer_ok in Eu as (s & Hs & _ & Hrow & ->).
  destruct (forEach_save sid (sw_vars sw) (fun tv => default "" (sw_values sw !! tv_envVariable tv))
    (w <| w_db := (w_db w) <| db_servers := updId sid f (db_servers (w_db w)) |> |>)) as (d & Ed & Hd & Hin & _).
  rewrite (bind_run _ _ _ _ _ Ed) in E. injection E as <- <-. right. exists s, d. split; [done|]. split; [done|]. split; [done|].
  split; [done|]. split; [by rewrite Hd|]. split; [by exists s'|done].
Qed.

(** The row of a server after its own update. *)
Lemma findId_updServer sid f (l : list Server) s : (forall x, sv_id (f x) = sv_id x) -> findId sid l = Some s -> findId sid (updId sid f l) = Some (f s).
Proof.
  intros Hf. unfold findId, findFirst, updId. induction l as [|x l IH]; simpl; [done|]. change (rid x) with (sv_id x).
  destruct (sv_id x =s sid) eqn:E; simpl; change (rid (f x)) with (sv_id (f x)); change (rid x) with (sv_id x);
    rewrite ?Hf, E; [by intros [= ->]|exact IH].
Qed.

Section Outcome.
Context `{Outside} `{AgentStatus}.

Definition failedSetup (s : Server) : Server := s <| sv_status := Srv_install_failed |>.

(** A dispatch leaves the row as committed, or marks it failed and reports the error. *)
Lemma dispatch_outcome sid n u w r w' s : findId sid (db_servers (w_db w)) = Some s -> serverRowOk (failedSetup s) = true ->
  dispatchToAgent sid n u true w = (r, w') ->
  (r = Ok tt /\ w_db w' = w_db w) \/
  (exists e, r = Throw e /\ w_db w' = (w_db w) <| db_servers := updId sid failedSetup (db_servers (w_db w)) |>).
Proof.
  intros Hs Hok E. unfold dispatchToAgent in E. cbv zeta in E.
  assert (forall e w0 r w', w_db w0 = w_db w ->
    (withRLS (updateServer sid failedSetup) ;; record "server.create.dispatch_failed" None "server" sid ;; throw e) w0 = (r, w') ->
    exists e', r = @Throw unit e' /\ w_db w' = (w_db w) <| db_servers := updId sid failedSetup (db_servers (w_db w)) |>) as Hfail.
  { intros e w0 r0 w0' E0 Er. rewrite <- E0 in Hs. unfold withRLS in Er. erewrite bind_run in Er by (rewrite (updateServer_run _ _ _ _ Hs Hok); reflexivity).
    erewrite bind_run in Er by reflexivity. injection Er as <- <-. exists e. split; [done|]. simpl. by rewrite E0. }
  assert (forall c, exists o w1, w_db w1 = w_db w /\ tryCatch (agentCall c ;; mret None) (fun err => mret (Some err)) w = (Ok o, w1)) as Hcall.
  { intros c. unfold agentCall, tryCatch, mbind, M_bind, gets, call, modify. destruct (agentReply _ _); eexists _, _; (split; [|reflexivity]); done. }
  destruct (Hcall (AgentCreate n sid u)) as ([err|] & w1 & D1 & E1); rewrite (bind_run _ _ _ _ _ E1) in E; [|injection E as <- <-; by left].
  destruct (isServerExists err); [|right; by eapply Hfail].
  assert (exists o w2, w_db w2 = w_db w /\ tryCatch (agentCall (AgentReinstall n sid) ;; mret None) (fun err => mret (Some err)) w1 = (Ok o, w2)) as (o & w2 & D2 & E2).
  { unfold agentCall, tryCatch, mbind, M_bind, gets, call, modify. destruct (agentReply _ _); eexists _, _; (split; [|reflexivity]); done. }
  rewrite (bind_run _ _ _ _ _ E2) in E. destruct o as [e2|]; [right; by eapply Hfail|]. injection E as <- <-. left. done.
Qed.


(** The variables of one template keep the table's unique ids. *)
Lemma templateVars_ids t d : NoDup (map tv_id (db_templateVariables d)) -> NoDup (map tv_id (templateVarsOf t d)).
Proof. apply NoDup_map_filter. Qed.

Lemma chooseSoftware_vars t v m w sw w' : chooseSoftware t v m w = (Ok sw, w') ->
  exists template, sw_template sw = template /\ sw_vars sw = templateVarsOf (tp_id template) (w_db w) /\
    tp_id template = t /\ tp_isPublic template = true /\ tp_isActive template = true.
Proof.
  unfold chooseSoftware. intros E. mok. subst. simpl in *. match goal with H : findFirst _ _ = Some _ |- _ => apply findFirst_some in H as [_ Hp] end.
  rewrite !andb_true_iff, bool_decide_eq_true in Hp. destruct Hp as (((E1 & _) & E2) & E3). eexists. split; [reflexivity|]. done.
Qed.

Section Complete.
Context (a : AccessActor) (x : ResolvedAccess) (dto : CompleteServerSetupDto) (w : World) (s : Server).
Hypothesis Hrow : findId (sv_id (ra_server x)) (db_servers (w_db w)) = Some s.
Hypothesis Hids : NoDup (map sv_id (db_servers (w_db w))).
Hypothesis Hvars : NoDup (map tv_id (db_templateVariables (w_db w))).

Lemma same_row s' : s' ∈ db_servers (w_db w) -> sv_id s' = sv_id (ra_server x) -> s' = s.
Proof. intros Hs' E. apply findId_some in Hrow as [Hs Hid]. eapply (NoDup_map_inj sv_id); [exact Hids|done..|]. by rewrite E. Qed.

(** C40: a setup request that succeeds found the server awaiting its first setup or a
    retry, and left it installing the chosen published template with every variable that
    template declares stored; one that fails changed nothing, or left the server in
    [install_failed], from which the same request is accepted again. *)
Theorem setup_outcome r w' : complete a x dto w = (r, w') ->
  (exists sw, chooseSoftware (sd_templateId dto) (sd_variables dto) (sv_memoryMb (ra_server x)) w = (Ok sw, w) /\ r = Ok tt /\
     sv_status s ∈ SETUP_FROM /\ findId (sv_id (ra_server x)) (db_servers (w_db w')) = Some (setupRow sw (sd_name dto) s) /\
     forall tv, tv ∈ sw_vars sw -> storedValue (sv_id (ra_server x)) (tv_id tv) (w_db w') = Some (default "" (sw_values sw !! tv_envVariable tv))) \/
  (exists e, r = Throw e /\ (w_db w' = w_db w \/
     sv_status s ∈ SETUP_FROM /\ exists s', findId (sv_id (ra_server x)) (db_servers (w_db w')) = Some s' /\
       sv_status s' = Srv_install_failed /\ reservation s' = reservation s)).
Proof.
  unfold complete. cbv zeta. set (sid := sv_id (ra_server x)) in *.
  intros [(_ & -> & ->)|(_ & E)]%bind_throwIf_inv; [right; eauto|].
  apply bind_inv in E as [(e & E & ->)|(sw & w1 & Esw & E)]; [apply chooseSoftware_world in E as ->; right; eauto|].
  pose proof Esw as ->%chooseSoftware_world. destruct (chooseSoftware_vars _ _ _ _ _ _ Esw) as (tp & _ & Evars & _).
  apply bind_inv in E as [(e & E & ->)|(n & w2 & Ec & E)].
  { apply commitSoftware_inv in E as [[E _]|(? & ? & [=] & _)]. right. eauto. }
  apply commitSoftware_inv in Ec as [[Ed [[= ->]|(e & [=])]]|(s0 & d & [= ->] & Hs0 & Hok & -> & Hserv & (s' & Hs' & Hid & Hst) & Hstored)].
  { apply bind_throwIf_inv in E as [(_ & -> & ->)|([=] & _)]. right. eauto. }
  assert (s0 = s) as -> by congruence. rewrite (same_row s' Hs' Hid) in Hst.
  apply bind_throwIf_inv in E as [([=] & _)|(_ & E)]. apply bind_ok_record in E as (w3 & D3 & _ & E).
  assert (findId sid (db_servers (w_db w3)) = Some (setupRow sw (sd_name dto) s)) as Hrow3.
  { rewrite D3. simpl. rewrite Hserv. by apply findId_updServer. }
  assert (serverRowOk (failedSetup (setupRow sw (sd_name dto) s)) = true) as Hok' by exact Hok.
  destruct (dispatch_outcome _ _ _ _ _ _ _ Hrow3 Hok' E) as [[-> D]|(e & -> & D)].
  - left. exists sw. split; [done|]. split; [done|]. split; [done|]. rewrite D. split; [done|]. rewrite D3. simpl.
    apply Hstored. rewrite Evars. by apply templateVars_ids.
  - right. exists e. split; [done|]. right. split; [done|]. exists (failedSetup (setupRow sw (sd_name dto) s)).
    rewrite D. simpl. split; [by apply findId_updServer|done].
Qed.

End Complete.

End Outcome.

(** ** Two submissions *)

(** The writes of the two kinds of request that change software. *)
Inductive SoftwareCommit := SetupCommit (name : string) | VersionCommit.

Definition runCommit (c : SoftwareCommit) (sid : string) (sw : Software) : MW Z :=
  match c with
  | SetupCommit name => commitSoftware SETUP_FROM sid sw (setupRow sw name)
  | VersionCommit => commitSoftware [Srv_ready] sid sw (withSoftware sw)
  end.

(** Of two requests that both passed their checks, whatever they chose, the second to
    write finds the server no longer in the status it accepts: it writes nothing, and so
    never dispatches a second install. *)
Theorem setup_single_winner c1 c2 sid sw1 sw2 w w1 : NoDup (map sv_id (db_servers (w_db w))) ->
  runCommit c1 sid sw1 w = (Ok 1, w1) -> runCommit c2 sid sw2 w1 = (Ok 0, w1).
Proof.
  intros Hids E1.
  assert (exists s f, findId sid (db_servers (w_db w)) = Some s /\ sv_status (f s) = Srv_installing /\ (forall y, sv_id (f y) = sv_id y) /\
    db_servers (w_db w1) = updId sid f (db_servers (w_db w))) as (s & f & Hs & Hst & Hf & Hd).
  { destruct c1; apply commitSoftware_inv in E1 as [[_ [[=]|(? & [=])]]|(s & d & _ & Hs & _ & -> & Hd & _)];
      eexists s, _; (split; [done|]); (split; [|split; [|exact Hd]]); done. }
  assert (forall from : list ServerStatus, Srv_installing ∉ from ->
    findFirst (fun s => (sv_id s =s sid) && bool_decide (sv_status s ∈ from)) (db_servers (w_db w1)) = None) as Hnone.
  { intros from Hfrom. destruct (findFirst _ _) as [y|] eqn:Ey; [|done]. exfalso.
    apply findFirst_some in Ey as [Hy Hp]. apply andb_true_iff in Hp as [Hid%bool_decide_eq_true Hin%bool_decide_eq_true].
    assert (findId sid (db_servers (w_db w1)) = Some (f s)) as Hfs by (rewrite Hd; by apply findId_updServer).
    assert (y = f s) as ->; [|by rewrite Hst in Hin]. apply findId_some in Hfs as [Hfs Efs].
    eapply (NoDup_map_inj sv_id); [|exact Hy|exact Hfs|by rewrite Hid]. rewrite Hd.
    change (map sv_id (updId sid f (db_servers (w_db w)))) with (map rid (updId sid f (db_servers (w_db w)))). by rewrite updId_rids. }
  destruct c2; unfold runCommit, commitSoftware, withRLS; rewrite bind_gets, Hnone; try done.
  all: unfold SETUP_FROM; rewrite ?elem_of_cons, ?elem_of_nil; naive_solver.
Qed.

(** ** Startup variables *)

Lemma byEnvVar_unique tvs tv : NoDup (map tv_envVariable tvs) -> tv ∈ tvs -> byEnvVar tvs (tv_envVariable tv) = Some tv.
Proof.
  intros Hn Hin. unfold byEnvVar. destruct (findFirst _ (rev tvs)) as [y|] eqn:E.
  - apply findFirst_some in E as [Hy Ey%bool_decide_eq_true]. f_equal. eapply (NoDup_map_inj tv_envVariable); [exact Hn| |done|done].
    apply list_elem_of_In. apply list_elem_of_In in Hy. by rewrite in_rev.
  - eapply findFirst_none in E; [|apply list_elem_of_In; rewrite <- in_rev; by apply list_elem_of_In]. by apply bool_decide_eq_false in E.
Qed.

(** The value a variable ends up with: the request over the stored value over the default,
    except that the plan owns [SERVER_MEMORY]. *)
Definition variableValue (sid : string) (values : list (string * string)) (memoryMb : Z) (d : Db) (tv : TemplateVariable) : string :=
  if tv_envVariable tv =s "SERVER_MEMORY" then zstr (jvmHeapMb memoryMb)
  else match assoc (tv_envVariable tv) values with
       | Some v => v
       | None => default (tv_defaultValue tv) (storedValue sid (tv_id tv) d)
       end.

Lemma mergedValues_lookup tvs sid values m d tv : NoDup (map tv_envVariable tvs) -> tv ∈ tvs ->
  mergedValues tvs sid values m d !! tv_envVariable tv = Some (variableValue sid values m d tv).
Proof.
  intros Hn Hin. unfold mergedValues, variableValue, applyPlanManagedVariables.
  set (f := fun tv => match assoc (tv_envVariable tv) values with Some v => v | None => default (tv_defaultValue tv) (storedValue sid (tv_id tv) d) end).
  assert (resolveValues tvs f !! tv_envVariable tv = Some (f tv)) as El.
  { unfold resolveValues. rewrite resolveValues_lookup. by rewrite byEnvVar_unique. }
  destruct (bool_decide_reflect (tv_envVariable tv = "SERVER_MEMORY")) as [Em|Em].
  - rewrite Em in El |- *. rewrite El. by rewrite lookup_insert_eq.
  - destruct (resolveValues tvs f !! "SERVER_MEMORY"); [|done]. by rewrite lookup_insert_ne.
Qed.

Lemma NoDup_map_of_filter {A B} (f : A -> B) (p : A -> bool) l x : NoDup (map f l) -> x ∈ l -> p x = false -> f x ∉ map f (List.filter p l).
Proof.
  intros Hn Hx Hp (y & E & [Hy Py]%filter_In)%list_elem_of_In%in_map_iff. apply list_elem_of_In in Hy.
  assert (y = x) as -> by (by eapply (NoDup_map_inj f)). congruence.
Qed.

Section Variables.
Context `{Outside}.

(** The listing at the end of an update writes nothing. *)
Lemma listVariables_after x w r w' : listVariables x w = (r, w') ->
  (ra_can x "startup.read" = false /\ exists e, r = Throw e) \/ (ra_can x "startup.read" = true /\ exists vs, r = Ok vs /\ w' = w).
Proof.
  unfold listVariables. cbv zeta. intros E. apply bind_throwIf_inv in E as [(Hr%negb_true_iff & -> & _)|(Hr%negb_false_iff & E)]; [by eauto|].
  right. split; [done|]. destruct (truthy _); [rewrite bind_gets in E|]; injection E as <- <-; eauto.
Qed.

(** When a change of startup variables succeeds, every variable the template declares
    is stored with exactly the value the agent was sent: the requested one, else the stored
    one, else the template's default, and for [SERVER_MEMORY] always the heap of the plan.
    When it fails, nothing is stored, unless all that failed
    is the listing it answers with, which needs a permission of its own. *)
Theorem variables_stored_as_sent a x values w r w' templateId :
  sv_templateId (ra_server x) = Some templateId -> NoDup (map tv_id (db_templateVariables (w_db w))) ->
  NoDup (map tv_envVariable (templateVarsOf templateId (w_db w))) ->
  updateVariables a x values w = (r, w') ->
  let sid := sv_id (ra_server x) in
  let value := variableValue sid values (sv_memoryMb (ra_server x)) (w_db w) in
  match r with
  | Throw _ => w_db w' = w_db w \/ ra_can x "startup.read" = false
  | Ok _ =>
    w_calls w' = w_calls w ++ [AgentVariables (sv_nodeId (ra_server x)) sid
       (map (fun tv => (tv_envVariable tv, value tv)) (templateVarsOf templateId (w_db w)));
       ActivityRow (xa_id a) sid "server.variables.update"] /\
    forall tv, tv ∈ templateVarsOf templateId (w_db w) -> storedValue sid (tv_id tv) (w_db w') = Some (value tv)
  end.
Proof.
  intros Ht Hids Henv E. cbv zeta. unfold updateVariables in E. cbv zeta in E.
  apply bind_throwIf_inv in E as [(_ & -> & ->)|(_ & E)]; [by left|].
  apply bind_orThrow_inv in E as [(_ & -> & ->)|(t & Et & E)]; [by left|]. rewrite Ht in Et.
  assert (t = templateId) as -> by (unfold truthy in Et; destruct (templateId =s ""); congruence).
  rewrite bind_gets in E. set (tvs := templateVarsOf templateId (w_db w)) in *. set (sid := sv_id (ra_server x)) in *.
  apply bind_inv in E as [(e & E & ->)|([] & w1 & E1 & E)]; [left; by injection E as _ <-|]. injection E1 as _ <-.
  set (m := mergedValues tvs sid values (sv_memoryMb (ra_server x)) (w_db w)) in *.
  assert (forall tv, tv ∈ tvs -> m !! tv_envVariable tv = Some (variableValue sid values (sv_memoryMb (ra_server x)) (w_db w) tv)) as Hm
    by (intros; by apply mergedValues_lookup).
  apply bind_inv in E as [(e & E & ->)|([] & w1 & E1 & E)].
  { left. assert (keeps (same w_db) (agentCall (AgentVariables (sv_nodeId (ra_server x)) sid
      (map (fun tv => (tv_envVariable tv, default "" (m !! tv_envVariable tv))) tvs)))) as K by frame. exact (K _ _ _ E). }
  apply agentCall_ok in E1 as [D1 C1].
  match type of E with context [List.filter ?p tvs] => set (changed := p) in E end.
  destruct (forEach_save sid (List.filter changed tvs) (fun tv => default "" (m !! tv_envVariable tv)) w1) as (d & Es & _ & Hin & Hout).
  erewrite bind_run in E by (unfold withRLS; rewrite Es; reflexivity).
  erewrite bind_run in E by reflexivity. erewrite bind_run in E by reflexivity. apply listVariables_after in E as [(Hr & e & ->)|(Hr & vs & -> & ->)];
    [by right|]. simpl. split.
  - rewrite C1, <- app_assoc. simpl. do 2 f_equal. f_equal. apply map_ext_in. intros tv Htv%list_elem_of_In. by rewrite Hm.
  - intros tv Htv. destruct (changed tv) eqn:Ec.
    + rewrite Hin; [by rewrite Hm| |].
      * apply NoDup_map_filter. by apply NoDup_map_filter.
      * apply list_elem_of_In, filter_In. split; [by apply list_elem_of_In|done].
    + rewrite Hout by (apply NoDup_map_of_filter; [by apply NoDup_map_filter|done..]). rewrite D1.
      unfold changed in Ec. apply orb_false_iff in Ec as [_ Ec]. apply negb_false_iff, bool_decide_eq_true in Ec. by rewrite <- Ec, Hm.
Qed.

End Variables.

(** ** A refused version change *)

Section Refused.
Context `{Outside} `{AgentStatus}.

Lemma chooseSoftware_values t v m w sw w' : chooseSoftware t v m w = (Ok sw, w') ->
  exists values, resolveDeclaredVariables (templateVarsOf t (w_db w)) (default [] v) = Ok values.
Proof.
  unfold chooseSoftware. intros E. rewrite bind_gets in E.
  apply bind_orThrow_inv in E as [(_ & [=] & _)|(tp & Htp & E)]. apply bind_orThrow_inv in E as [(_ & [=] & _)|(img & _ & E)].
  apply findFirst_some in Htp as [_ Hp]. rewrite !andb_true_iff, bool_decide_eq_true in Hp. destruct Hp as (((Et & _) & _) & _).
  apply bind_inv in E as [(e & _ & [=])|(values & w1 & E1 & _)]. injection E1 as E1 _. rewrite Et in E1. eauto.
Qed.

(** The software a refused reinstall puts back. *)
Definition backTo (tid img cmd : string) (s : Server) : Server :=
  s <| sv_status := Srv_ready |> <| sv_templateId := Some tid |> <| sv_dockerImage := Some img |> <| sv_startupCommand := Some cmd |>.

Lemma reinstall_dispatch_outcome sid n tid img cmd w r w' s :
  findId sid (db_servers (w_db w)) = Some s ->
  serverRowOk (backTo tid img cmd s) = true ->
  dispatchReinstallToAgent sid n (tid, img, cmd) true w = (r, w') ->
  (r = Ok tt /\ w_db w' = w_db w) \/
  (exists e, r = Throw e /\ w_db w' = (w_db w) <| db_servers := updId sid (backTo tid img cmd) (db_servers (w_db w)) |>).
Proof.
  intros Hs Hok E. unfold dispatchReinstallToAgent in E.
  assert (exists o w1, w_db w1 = w_db w /\ tryCatch (agentCall (AgentReinstall n sid) ;; mret None) (fun err => mret (Some err)) w = (Ok o, w1)) as (o & w1 & D1 & E1).
  { unfold agentCall, tryCatch, mbind, M_bind, gets, call, modify. destruct (agentReply _ _); eexists _, _; (split; [|reflexivity]); done. }
  rewrite (bind_run _ _ _ _ _ E1) in E. destruct o as [e|]; [|injection E as <- <-; by left]. right. exists e.
  rewrite <- D1 in Hs. match type of E with context [updateServer sid ?f] => change f with (backTo tid img cmd) in E end.
  erewrite bind_run in E by (unfold withRLS; rewrite (updateServer_run _ _ _ _ Hs Hok); reflexivity).
  erewrite bind_run in E by reflexivity. injection E as <- <-. split; [done|]. simpl. by rewrite D1.
Qed.

(** When the agent refuses a version change that was already written, the server row
    is put back as it was (its cached power state is what the agent answered), but the variables keep the values of the refused request: the
    database then describes a version that is not installed. *)
Theorem refused_change_keeps_new_variables a x t v act w e w' tid img cmd :
  let s := ra_server x in
  findId (sv_id s) (db_servers (w_db w)) = Some s -> NoDup (map tv_id (db_templateVariables (w_db w))) ->
  sv_templateId s = Some tid -> sv_dockerImage s = Some img -> sv_startupCommand s = Some cmd -> serverRowOk s = true ->
  changeVersion a x t v act w = (Throw e, w') ->
  w_db w' = w_db w \/
  (exists st, serverState (w_calls w) (sv_id s) = Ok st /\
     findId (sv_id s) (db_servers (w_db w')) = Some (s <| sv_powerState := st |>)) /\
  exists sw, chooseSoftware t v (sv_memoryMb s) w = (Ok sw, w) /\
    forall tv, tv ∈ sw_vars sw -> storedValue (sv_id s) (tv_id tv) (w_db w') = Some (default "" (sw_values sw !! tv_envVariable tv)).
Proof.
  cbv zeta. set (s := ra_server x). intros Hrow Hvars Ht Hi Hc Hok E. unfold changeVersion in E. cbv zeta in E. fold s in E.
  apply bind_throwIf_inv in E as [(_ & _ & ->)|(_ & E)]; [by left|].
  apply bind_throwIf_inv in E as [(_ & _ & ->)|(Hst & E)]; [by left|].
  apply negb_false_iff, bool_decide_eq_true in Hst.
  rewrite bind_gets in E. apply bind_inv in E as [(e' & E & _)|(st & w1 & E1 & E)]; [injection E as _ <-; by left|]. injection E1 as Est <-.
  apply bind_throwIf_inv in E as [(_ & _ & ->)|(_ & E)]; [by left|].
  apply bind_inv in E as [(e' & E & _)|(sw & w1 & Esw & E)]; [apply chooseSoftware_world in E as ->; by left|].
  pose proof Esw as ->%chooseSoftware_world. destruct (chooseSoftware_vars _ _ _ _ _ _ Esw) as (tp & _ & Evars & _).
  apply bind_inv in E as [(e' & E & _)|(n & w2 & Ec & E)].
  { apply commitSoftware_inv in E as [[E _]|(? & ? & [=] & _)]. by left. }
  apply commitSoftware_inv in Ec as [[Ed [[= ->]|(e' & [=])]]|(s0 & d & [= ->] & Hs0 & Hok' & -> & Hserv & _ & Hstored)].
  { apply bind_throwIf_inv in E as [(_ & _ & ->)|([=] & _)]. by left. }
  assert (s0 = s) as -> by congruence. apply bind_throwIf_inv in E as [([=] & _)|(_ & E)].
  apply bind_ok_record in E as (w3 & D3 & _ & E). rewrite Ht, Hi, Hc in E. simpl in E.
  assert (findId (sv_id s) (db_servers (w_db w3)) = Some (versionRow sw st s)) as Hrow3.
  { rewrite D3. simpl. rewrite Hserv. by apply findId_updServer. }
  assert (backTo tid img cmd (versionRow sw st s) = s <| sv_powerState := st |>) as Eback.
  { clear - Hst Ht Hi Hc. destruct s; simpl in *; subst. done. }
  destruct (reinstall_dispatch_outcome _ _ _ _ _ _ _ _ _ Hrow3 ltac:(by rewrite Eback) E) as [[[=] _]|(e' & _ & D)].
  right. split; [exists st; split; [done|]; rewrite D; transitivity (Some (backTo tid img cmd (versionRow sw st s))); [by apply findId_updServer|by f_equal]|].
  exists sw. split; [exact Esw|]. intros tv Htv. rewrite D. change (storedValue (sv_id s) (tv_id tv) (w_db w3) = Some (default "" (sw_values sw !! tv_envVariable tv))).
  rewrite D3. apply Hstored; [|done]. rewrite Evars. by apply templateVars_ids.
Qed.

(** A server whose template declares a variable the customer may not edit, as every
    preset does for [SERVER_MEMORY], can never be reinstalled: the stored value of that
    variable is passed back as if the customer had asked for it, and refused. *)
Theorem reinstall_refused a x w tid tv v :
  let s := ra_server x in
  ra_can x "startup.update" = true -> sv_templateId s = Some tid -> tid <> "" ->
  NoDup (map tv_id (db_templateVariables (w_db w))) -> NoDup (map tv_envVariable (templateVarsOf tid (w_db w))) ->
  tv ∈ templateVarsOf tid (w_db w) -> tv_isUserEditable tv = false ->
  v ∈ db_serverVariables (w_db w) -> vv_serverId v = sv_id s -> vv_variableId v = tv_id tv ->
  exists e, reinstallCurrent a x w = (Throw e, w).
Proof.
  cbv zeta. set (s := ra_server x). intros Hcan Ht Hne Hids Henv Htv Hed Hv Hvs Hvi.
  assert ((tv_envVariable tv, vv_value v) ∈ currentVariables (sv_id s) tid (w_db w)) as Hcur.
  { apply list_elem_of_omap. exists v. split; [done|]. rewrite bool_decide_eq_true_2 by done.
    apply list_elem_of_In, filter_In in Htv as [Htv Htid%bool_decide_eq_true]. apply list_elem_of_In in Htv.
    destruct (findFirst _ (db_templateVariables (w_db w))) as [y|] eqn:Ey; simpl.
    - apply findFirst_some in Ey as [Hy Hp]. apply andb_true_iff in Hp as [Hi%Z.eqb_eq _].
      assert (y = tv) as -> by (eapply (NoDup_map_inj tv_id); [exact Hids|done..|congruence]). done.
    - eapply findFirst_none in Ey; [|exact Htv]. rewrite Hvi, Z.eqb_refl, bool_decide_eq_true_2 in Ey; done. }
  assert (forall m, exists e, chooseSoftware tid (Some (currentVariables (sv_id s) tid (w_db w))) m w = (Throw e, w)) as Hchoose.
  { intros m. destruct (chooseSoftware _ _ m w) as [[sw|e] w1] eqn:E; pose proof E as ->%chooseSoftware_world; [|eauto]. exfalso.
    destruct (chooseSoftware_values _ _ _ _ _ _ E) as [values Hres].
    unfold resolveDeclaredVariables, mbind, Res_bind in Hres. destruct (forEntries _ _) as [u|] eqn:Ef; [|done].
    rewrite forEntries_ok in Ef. specialize (Ef _ Hcur). apply checkDeclared_ok in Ef as (tv' & Hb & _ & He & _). simpl in Hb.
    rewrite byEnvVar_unique in Hb by done. congruence. }
  assert (truthy (Some tid) = Some tid) as Htt by (unfold truthy; by rewrite bool_decide_eq_false_2).
  assert (forall A (k : Software -> MW A) m, exists e, (chooseSoftware tid (Some (currentVariables (sv_id s) tid (w_db w))) m ≫= k) w = (Throw e, w)) as Hbind.
  { intros A k m. destruct (Hchoose m) as [e Ee]. exists e. by erewrite bind_throw. }
  destruct (reinstallCurrent a x w) as [r w'] eqn:E. unfold reinstallCurrent in E. cbv zeta in E. fold s in E. rewrite Hcan, Ht, Htt in E.
  apply bind_throwIf_inv in E as [([=] & _)|(_ & E)]. apply bind_orThrow_inv in E as [([=] & _)|(t & [= <-] & E)].
  rewrite bind_gets in E. destruct (sv_status s =s Srv_install_failed).
  - unfold complete in E. cbv zeta in E. fold s in E. apply bind_throwIf_inv in E as [(_ & -> & ->)|(_ & E)]; [eauto|].
    cbn [sd_templateId sd_variables] in E. match type of E with (_ ≫= ?k) w = _ => destruct (Hbind _ k (sv_memoryMb s)) as [e Ee] end.
    rewrite Ee in E. injection E as <- <-. eauto.
  - apply bind_throwIf_inv in E as [(_ & -> & ->)|(_ & E)]; [eauto|]. unfold changeVersion in E. cbv zeta in E. fold s in E.
    apply bind_throwIf_inv in E as [(_ & -> & ->)|(_ & E)]; [eauto|]. apply bind_throwIf_inv in E as [(_ & -> & ->)|(_ & E)]; [eauto|].
    rewrite bind_gets in E. apply bind_inv in E as [(e' & E & ->)|(st & w1 & E1 & E)]; [injection E as _ <-; eauto|]. injection E1 as _ <-.
    apply bind_throwIf_inv in E as [(_ & -> & ->)|(_ & E)]; [eauto|].
    match type of E with (_ ≫= ?k) w = _ => destruct (Hbind _ k (sv_memoryMb s)) as [e Ee] end. rewrite Ee in E. injection E as <- <-. eauto.
Qed.

End Refused.

(** ** Witnesses *)

Module DemoSetup.

Definition accept : Outside := {| agentReply _ _ := None |}.
Definition refuse : Outside := {| agentReply _ _ := Some (External "node unreachable") |}.
Definition stopped : AgentStatus := {| serverState _ _ := Ok "offline" |}.

Definition template : Template :=
  mkTemplate "t" "Paper" None true true [("Java 21", "yolks:java_21")] (Some "paper") "java -jar server.jar" "" "" "echo".

Definition version : TemplateVariable :=
  mkTemplateVariable 1 "t" "MINECRAFT_VERSION" "Minecraft Version" "latest" "required|string|max:16" true true None 1.
Definition memory : TemplateVariable :=
  mkTemplateVariable 2 "t" "SERVER_MEMORY" "Server Memory (MB)" "1024" "required|integer|min:512" true false None 2.

Definition server (status : ServerStatus) (installed : bool) : Server :=
  mkServer "s" "10000000" "u" "n" (if installed then Some "t" else None) (Some "p") (Some 2000) "srv"
    (if installed then Some "yolks:java_21" else None) (if installed then Some "java -jar server.jar" else None)
    100 4096 0 4096 500 false 1 1 1 1 status None None None None "offline".

Definition world (s : Server) (vars : list ServerVariable) : World :=
  mkWorld (mkDb [] [] [] [] [] [s] [] [] [] [] [] [] [template] [version; memory] vars) [] [] 0%N [].

Definition fresh : World := world (server Srv_setup_pending false) [].
Definition ready : World := world (server Srv_ready true) [mkServerVariable "s" 1 "1.20.4"; mkServerVariable "s" 2 "3481"].

Definition access (s : Server) : ResolvedAccess := mkResolved s role_owner (fun _ => true).
Definition actor : AccessActor := mkActor "u" false.
Definition dto : CompleteServerSetupDto := mkSetupDto "Meu servidor" "t" (Some [("MINECRAFT_VERSION", "1.21")]).

End DemoSetup.

Ltac nodup := apply (bool_decide_unpack _); vm_compute; exact I.

Lemma setup_outcome_witness :
  let x := DemoSetup.access (DemoSetup.server Srv_setup_pending false) in
  let run := @complete DemoSetup.accept DemoSetup.actor x DemoSetup.dto DemoSetup.fresh in
  (exists sw, chooseSoftware "t" (sd_variables DemoSetup.dto) 4096 DemoSetup.fresh = (Ok sw, DemoSetup.fresh) /\ run.1 = Ok tt /\
     Srv_setup_pending ∈ SETUP_FROM /\
     findId "s" (db_servers (w_db run.2)) = Some (setupRow sw "Meu servidor" (DemoSetup.server Srv_setup_pending false)) /\
     forall tv, tv ∈ sw_vars sw -> storedValue "s" (tv_id tv) (w_db run.2) = Some (default "" (sw_values sw !! tv_envVariable tv))) \/
  (exists e, run.1 = Throw e /\ (w_db run.2 = w_db DemoSetup.fresh \/
     Srv_setup_pending ∈ SETUP_FROM /\ exists s', findId "s" (db_servers (w_db run.2)) = Some s' /\
       sv_status s' = Srv_install_failed /\ reservation s' = reservation (DemoSetup.server Srv_setup_pending false))).
Proof.
  cbv zeta.
  apply (@setup_outcome DemoSetup.accept DemoSetup.actor (DemoSetup.access (DemoSetup.server Srv_setup_pending false)) DemoSetup.dto
    DemoSetup.fresh (DemoSetup.server Srv_setup_pending false)).
  - vm_compute. reflexivity.
  - nodup.
  - nodup.
  - apply surjective_pairing.
Defined.

Lemma setup_single_winner_witness :
  let sw := mkSoftware DemoSetup.template "img" "run" [] ∅ in
  let w1 := (runCommit (SetupCommit "a") "s" sw DemoSetup.fresh).2 in
  runCommit (SetupCommit "b") "s" sw w1 = (Ok 0, w1).
Proof.
  cbv zeta. apply (setup_single_winner (SetupCommit "a") (SetupCommit "b") "s" (mkSoftware DemoSetup.template "img" "run" [] ∅)
    (mkSoftware DemoSetup.template "img" "run" [] ∅) DemoSetup.fresh).
  - nodup.
  - vm_compute. reflexivity.
Defined.

Lemma variables_stored_as_sent_witness :
  let x := DemoSetup.access (DemoSetup.server Srv_ready true) in
  let run := @updateVariables DemoSetup.accept DemoSetup.actor x [("MINECRAFT_VERSION", "1.21")] DemoSetup.ready in
  let value := variableValue "s" [("MINECRAFT_VERSION", "1.21")] 4096 (w_db DemoSetup.ready) in
  match run.1 with
  | Throw _ => w_db run.2 = w_db DemoSetup.ready \/ ra_can x "startup.read" = false
  | Ok _ =>
    w_calls run.2 = [] ++ [AgentVariables "n" "s" (map (fun tv => (tv_envVariable tv, value tv)) (templateVarsOf "t" (w_db DemoSetup.ready)));
                           ActivityRow "u" "s" "server.variables.update"] /\
    forall tv, tv ∈ templateVarsOf "t" (w_db DemoSetup.ready) -> storedValue "s" (tv_id tv) (w_db run.2) = Some (value tv)
  end.
Proof.
  cbv zeta. apply (@variables_stored_as_sent DemoSetup.accept DemoSetup.actor (DemoSetup.access (DemoSetup.server Srv_ready true))
    [("MINECRAFT_VERSION", "1.21")] DemoSetup.ready _ _ "t").
  - reflexivity.
  - nodup.
  - nodup.
  - apply surjective_pairing.
Defined.

Lemma refused_change_keeps_new_variables_witness :
  let s := DemoSetup.server Srv_ready true in
  let run := @changeVersion DemoSetup.refuse DemoSetup.stopped DemoSetup.actor (DemoSetup.access s) "t"
               (Some [("MINECRAFT_VERSION", "1.21")]) "server.version.changed" DemoSetup.ready in
  w_db run.2 = w_db DemoSetup.ready \/
  (exists st, Ok "offline" = Ok st /\ findId "s" (db_servers (w_db run.2)) = Some (s <| sv_powerState := st |>)) /\
  exists sw, chooseSoftware "t" (Some [("MINECRAFT_VERSION", "1.21")]) 4096 DemoSetup.ready = (Ok sw, DemoSetup.ready) /\
    forall tv, tv ∈ sw_vars sw -> storedValue "s" (tv_id tv) (w_db run.2) = Some (default "" (sw_values sw !! tv_envVariable tv)).
Proof.
  cbv zeta. apply (@refused_change_keeps_new_variables DemoSetup.refuse DemoSetup.stopped DemoSetup.actor
    (DemoSetup.access (DemoSetup.server Srv_ready true)) "t" (Some [("MINECRAFT_VERSION", "1.21")]) "server.version.changed" DemoSetup.ready
    (External "node unreachable") _ "t" "yolks:java_21" "java -jar server.jar").
  - vm_compute. reflexivity.
  - nodup.
  - reflexivity.
  - reflexivity.
  - reflexivity.
  - vm_compute. reflexivity.
  - vm_compute. reflexivity.
Defined.

Lemma reinstall_refused_witness :
  exists e, @reinstallCurrent DemoSetup.accept DemoSetup.stopped DemoSetup.actor (DemoSetup.access (DemoSetup.server Srv_ready true)) DemoSetup.ready =
    (Throw e, DemoSetup.ready).
Proof.
  apply (@reinstall_refused DemoSetup.accept DemoSetup.stopped DemoSetup.actor (DemoSetup.access (DemoSetup.server Srv_ready true))
    DemoSetup.ready "t" DemoSetup.memory (mkServerVariable "s" 2 "3481")).
  - reflexivity.
  - reflexivity.
  - discriminate.
  - nodup.
  - nodup.
  - apply elem_of_cons. right. apply elem_of_cons. by left.
  - reflexivity.
  - apply elem_of_cons. right. apply elem_of_cons. by left.
  - reflexivity.
  - reflexivity.
Defined.

(** The refused change leaves version 1.21 on record while 1.20.4 is installed. *)
Example refused_version_on_record :
  let run := @changeVersion DemoSetup.refuse DemoSetup.stopped DemoSetup.actor (DemoSetup.access (DemoSetup.server Srv_ready true)) "t"
               (Some [("MINECRAFT_VERSION", "1.21")]) "server.version.changed" DemoSetup.ready in
  findId "s" (db_servers (w_db run.2)) = Some (DemoSetup.server Srv_ready true) /\ storedValue "s" 1 (w_db run.2) = Some "1.21".
Proof. vm_compute. done. Qed.
