(* ===== verification/Fleet.v ===== *)
(** Fleet: the nodes of the platform and their ports, as administrators manage them.

    [nodes/nodes.service.ts] (with the health and divergence views of Scheduler) and
    [nodes/allocations.service.ts], the validators of [nodes/dto/node.dto.ts] and the CHECK
    constraints of [nodes] (migrations 0010 and 0017).  Enrolment works on the same state. *)

From S2P Require Import Prelude JsNum Capacity Store Scheduler Subscriptions JsString Dto.
From Stdlib Require Import Ascii String QArith Lia.

Local Open Scope Z_scope.

(** ** Rows *)

(** The reported columns of a node no capacity rule reads. *)
Record NodeTelemetry := mkTelemetry {
  tm_diskFreeMb : option Z; tm_os : option string; tm_kernel : option string; tm_containersRunning : option Z;
  tm_cpuModel : option string; tm_cpuSockets : option Z; tm_cpuPhysicalCores : option Z; tm_cpuUsagePercent : option Z;
  tm_loadAvg1 : option Q; tm_memoryUsedMb : option Z; tm_memoryAvailableMb : option Z;
  tm_virtualizationSystem : option string; tm_virtualizationRole : option string }.

Definition noTelemetry : NodeTelemetry := mkTelemetry None None None None None None None None None None None None None.

(** The columns of a node beyond those of [Store.Node]. *)
Record NodeDetails := mkNodeDetails {
  dt_description : option string; dt_fqdn : string; dt_scheme : string; dt_daemonPort : Z; dt_controlAddress : option string;
  dt_tunnelIp : option string; dt_sftpPort : Z; dt_uploadSizeMb : Z; dt_maintenanceScheduledAt : option Z;
  dt_capacityWarnPct : Z; dt_capacityHighPct : Z; dt_capacityCriticalPct : Z; dt_healthStatus : string;
  dt_agentVersion : option string; dt_dockerVersion : option string; dt_agentUptimeSeconds : option Z;
  dt_telemetry : NodeTelemetry; dt_controlTokenEnc : option string }.

#[export] Instance NodeDetails_settable : Settable NodeDetails := fun r =>
  mkNodeDetails (dt_description r) (dt_fqdn r) (dt_scheme r) (dt_daemonPort r) (dt_controlAddress r) (dt_tunnelIp r) (dt_sftpPort r)
    (dt_uploadSizeMb r) (dt_maintenanceScheduledAt r) (dt_capacityWarnPct r) (dt_capacityHighPct r) (dt_capacityCriticalPct r)
    (dt_healthStatus r) (dt_agentVersion r) (dt_dockerVersion r) (dt_agentUptimeSeconds r) (dt_telemetry r) (dt_controlTokenEnc r).

Record NodeRow := mkNodeRow { fn_node : Node; fn_details : NodeDetails }.
#[export] Instance NodeRow_row : Row NodeRow := fun r => nd_id (fn_node r).
#[export] Instance NodeRow_settable : Settable NodeRow := fun r => mkNodeRow (fn_node r) (fn_details r).

#[export] Instance Node_settable : Settable Node := fun n =>
  mkNode (nd_id n) (nd_name n) (nd_locationId n) (nd_deletedAt n) (nd_maintenanceMode n) (nd_isPublic n) (nd_lastHeartbeatAt n)
    (nd_reservedForPlansAbovePriceCents n) (nd_config n).

Record AllocationRow := mkAllocationRow { ar_allocation : Allocation; ar_ipAlias : option string }.

(** A server with its [updated_at] and [power_state_at]. *)
Record HostedServer := mkHosted { hs_server : Server; hs_updatedAt : Z; hs_powerStateAt : option Z }.
#[export] Instance HostedServer_settable : Settable HostedServer := fun r => mkHosted (hs_server r) (hs_updatedAt r) (hs_powerStateAt r).

Inductive TokenStatus := tok_pending | tok_active | tok_revoked.
#[export] Instance TokenStatus_eq : EqDecision TokenStatus.
Proof. solve_decision. Defined.

Record NodeToken := mkNodeToken {
  nt_id : string; nt_nodeId : string; nt_tokenId : string; nt_tokenHash : string; nt_status : TokenStatus;
  nt_lastUsedAt : option Z; nt_revokedAt : option Z }.
#[export] Instance NodeToken_row : Row NodeToken := nt_id.
#[export] Instance NodeToken_settable : Settable NodeToken := fun r =>
  mkNodeToken (nt_id r) (nt_nodeId r) (nt_tokenId r) (nt_tokenHash r) (nt_status r) (nt_lastUsedAt r) (nt_revokedAt r).

(** The tables, the Redis keys with their expiry, the audit log, the supplies of ids. *)
Record FleetState := mkFleet {
  f_locations : list (string * option Z); f_nodes : list NodeRow; f_allocations : list AllocationRow;
  f_servers : list HostedServer; f_tokens : list NodeToken; f_redis : gmap string (string * Z);
  f_audit : list AuditEntry; f_next : N; f_allocationSeq : Z }.

#[export] Instance FleetState_settable : Settable FleetState := fun s =>
  mkFleet (f_locations s) (f_nodes s) (f_allocations s) (f_servers s) (f_tokens s) (f_redis s) (f_audit s) (f_next s) (f_allocationSeq s).

Abbreviation MF := (M FleetState).

Definition logF (action : string) (actor : option string) (targetType target : string) : MF unit :=
  modify (fun s => s <| f_audit := f_audit s ++ [mkAudit action actor targetType target] |>).

Definition freshF : MF N := fun s => (Ok (f_next s), s <| f_next := (f_next s + 1)%N |>).

(** ** Requests *)

(** [validator.js], the text form of an [inet] value, and the database's order of them. *)
Class Net := { isUUID : string -> bool; isIP : string -> bool; inet : string -> option string; inetCompare : string -> string -> comparison }.

Record NodeCapacityFields := mkCapacityFields {
  kf_memoryReservedMb : Field Z; kf_memoryOverallocatePct : Field Z; kf_diskReservedMb : Field Z; kf_diskOverallocatePct : Field Z;
  kf_cpuTotalPercent : Field Z; kf_cpuReservedPercent : Field Z; kf_cpuOverallocatePct : Field Z; kf_capacityMode : Field string;
  kf_reservedForPlansAbovePriceCents : Field Z }.

Record CreateNodeDto := mkCreateNode {
  cn_locationId : string; cn_name : string; cn_description : Field string; cn_fqdn : string; cn_scheme : Field string;
  cn_daemonPort : Field Z; cn_controlAddress : Field string; cn_tunnelIp : Field string; cn_sftpPort : Field Z;
  cn_memoryTotalMb : Z; cn_diskTotalMb : Z; cn_isPublic : Field bool; cn_uploadSizeMb : Field Z; cn_capacity : NodeCapacityFields }.

(** [un_maintenanceScheduledAt] is the instant of the ISO text. *)
Record UpdateNodeDto := mkUpdateNode {
  un_name : Field string; un_description : Field string; un_isPublic : Field bool; un_maintenanceMode : Field bool;
  un_maintenanceScheduledAt : Field Z; un_controlAddress : Field string; un_tunnelIp : Field string;
  un_memoryTotalMb : Field Z; un_diskTotalMb : Field Z; un_capacity : NodeCapacityFields;
  un_memorySafetyMarginPct : Field Z; un_diskSafetyMarginPct : Field Z; un_cpuSafetyMarginPct : Field Z;
  un_capacityWarnPct : Field Z; un_capacityHighPct : Field Z; un_capacityCriticalPct : Field Z;
  un_acknowledgeOverride : Field bool; un_changeReason : Field string }.

(** [@Min(lo) @Max(hi)]. *)
Definition rangeOk (lo hi : Z) (f : Field Z) : bool := match f with Val v => (lo <=? v) && (v <=? hi) | _ => true end.
Definition holds {A} (p : A -> bool) (f : Field A) : bool := match f with Val a => p a | _ => true end.
Definition oneOf (l : list string) (s : string) : bool := bool_decide (s ∈ l).

(** [/^[a-z0-9.-]+$/i]. *)
Definition fqdnChar (c : ascii) : bool :=
  ((65 <=? code c)%N && (code c <=? 90)%N) || ((97 <=? code c)%N && (code c <=? 122)%N) || isDigit c || Ascii.eqb c "." || Ascii.eqb c "-".

(** [[^\s/]*]. *)
Fixpoint hostChars (s : string) : bool :=
  match s with
  | EmptyString => true
  | String c s' => negb (Ascii.eqb c "/") && (spaceAt s =s None) && hostChars s'
  end.

(** [/^https?:\/\/[^\s/]+$/]. *)
Definition controlAddressOk (s : string) : bool :=
  let host pre := startsWith pre s && negb (dropS (String.length pre) s =s "") && hostChars (dropS (String.length pre) s) in
  host "http://" || host "https://".

Definition validCapacity (f : NodeCapacityFields) : bool :=
  minOk 0 (kf_memoryReservedMb f) && minOk (-1) (kf_memoryOverallocatePct f) && minOk 0 (kf_diskReservedMb f) &&
  minOk (-1) (kf_diskOverallocatePct f) && minOk 0 (kf_cpuTotalPercent f) && minOk 0 (kf_cpuReservedPercent f) &&
  minOk (-1) (kf_cpuOverallocatePct f) && holds (oneOf ["manual"; "auto"]) (kf_capacityMode f) &&
  minOk 0 (kf_reservedForPlansAbovePriceCents f).

Definition validCreateNodeDto `{Net} (dto : CreateNodeDto) : bool :=
  isUUID (cn_locationId dto) && lengthOk 1 191 (cn_name dto) && everyChar fqdnChar (cn_fqdn dto) && negb (cn_fqdn dto =s "") &&
  holds (oneOf ["http"; "https"]) (cn_scheme dto) && rangeOk 1 65535 (cn_daemonPort dto) && holds controlAddressOk (cn_controlAddress dto) &&
  holds isIP (cn_tunnelIp dto) && rangeOk 1 65535 (cn_sftpPort dto) && (1 <=? cn_memoryTotalMb dto) && (1 <=? cn_diskTotalMb dto) &&
  minOk 1 (cn_uploadSizeMb dto) && validCapacity (cn_capacity dto).

Definition validUpdateNodeDto `{Net} (dto : UpdateNodeDto) : bool :=
  lengthOkF 1 191 (un_name dto) && holds controlAddressOk (un_controlAddress dto) && holds isIP (un_tunnelIp dto) &&
  minOk 1 (un_memoryTotalMb dto) && minOk 1 (un_diskTotalMb dto) && validCapacity (un_capacity dto) &&
  rangeOk 0 90 (un_memorySafetyMarginPct dto) && rangeOk 0 90 (un_diskSafetyMarginPct dto) && rangeOk 0 90 (un_cpuSafetyMarginPct dto) &&
  rangeOk 0 100 (un_capacityWarnPct dto) && rangeOk 0 100 (un_capacityHighPct dto) && rangeOk 0 100 (un_capacityCriticalPct dto) &&
  lengthOkF 1 500 (un_changeReason dto).

(** ** What the database accepts *)

(** The CHECK constraints of [nodes]. *)
Definition nodeRowOk (r : NodeRow) : bool :=
  let c := nd_config (fn_node r) in let i := nc_inputs c in let d := fn_details r in
  let isAuto := capacityMode c =s "auto" in
  oneOf ["manual"; "auto"] (capacityMode c) && (isAuto || (cpuOverallocatePct i =? -1) || (0 <? cpuTotalPercent i)) &&
  (0 <=? memoryReservedMb i) && (isAuto || (memoryReservedMb i <=? memoryTotalMb i)) &&
  (0 <=? diskReservedMb i) && (isAuto || (diskReservedMb i <=? diskTotalMb i)) &&
  (0 <=? cpuReservedPercent i) && (isAuto || (cpuReservedPercent i <=? cpuTotalPercent i)) &&
  (-1 <=? memoryOverallocatePct i) && (-1 <=? diskOverallocatePct i) && (-1 <=? cpuOverallocatePct i) &&
  (0 <=? memorySafetyMarginPct c) && (memorySafetyMarginPct c <=? 90) && (0 <=? diskSafetyMarginPct c) && (diskSafetyMarginPct c <=? 90) &&
  (0 <=? cpuSafetyMarginPct c) && (cpuSafetyMarginPct c <=? 90) &&
  (dt_capacityWarnPct d <? dt_capacityHighPct d) && (dt_capacityHighPct d <? dt_capacityCriticalPct d) && (dt_capacityCriticalPct d <=? 100) &&
  oneOf ["http"; "https"] (dt_scheme d) && oneOf ["unknown"; "online"; "degraded"; "offline"] (dt_healthStatus d).

(** The integer columns. *)
Definition nodeInts (r : NodeRow) : list Z :=
  let n := fn_node r in let c := nd_config n in let i := nc_inputs c in let d := fn_details r in let t := dt_telemetry d in
  [memoryTotalMb i; memoryReservedMb i; memoryOverallocatePct i; diskTotalMb i; diskReservedMb i; diskOverallocatePct i;
   cpuTotalPercent i; cpuReservedPercent i; cpuOverallocatePct i; memorySafetyMarginPct c; diskSafetyMarginPct c; cpuSafetyMarginPct c;
   dt_daemonPort d; dt_sftpPort d; dt_uploadSizeMb d; dt_capacityWarnPct d; dt_capacityHighPct d; dt_capacityCriticalPct d] ++
  omap id [nd_reservedForPlansAbovePriceCents n; reportedMemoryLimitMb c; reportedMemoryTotalMb c; reportedDiskTotalMb c; reportedCpuCount c;
   dt_agentUptimeSeconds d; tm_diskFreeMb t; tm_containersRunning t; tm_cpuSockets t; tm_cpuPhysicalCores t; tm_cpuUsagePercent t;
   tm_memoryUsedMb t; tm_memoryAvailableMb t].

Definition acceptNode (r : NodeRow) : Res unit :=
  if negb (forallb fitsInt4 (nodeInts r)) then Throw (External "Unable to fit integer value into an INT4 (32-bit signed integer).")
  else if negb (nodeRowOk r) then Throw (CheckViolation "nodes") else Ok tt.

Definition isCapacityCheckViolation (e : exn) : bool :=
  match e with
  | CheckViolation _ => true
  | _ => includesStr "23514" (message e) || includesStr "violates check constraint" (message e)
  end.

Definition INVALID_CAPACITY : string :=
  "Invalid capacity values: reserved must not exceed total, and CPU overallocate cannot be set to a real percentage while cpuTotalPercent is 0".

(** [try { write } catch]: the constraints come back as a 400. *)
Definition capacityErrors {A} (m : MF A) : MF A :=
  tryCatch m (fun e => if isCapacityCheckViolation e then throw (BadRequest INVALID_CAPACITY) else throw e).

(** ** NodesService *)

Definition liveRow (id : string) (r : NodeRow) : bool := (nd_id (fn_node r) =s id) && (nd_deletedAt (fn_node r) =s None).

Definition getNode (id : string) : MF NodeRow :=
  nodes ← gets f_nodes; orThrow (findFirst (liveRow id) nodes) (NotFound "Node not found").

(** A row as the service returns it, with its health and divergence. *)
Record NodeView := mkNodeView { nv_row : NodeRow; nv_health : string; nv_divergence : DivergenceStatus * DivergenceStatus * DivergenceStatus }.

Definition viewOf (now : Z) (r : NodeRow) : NodeView :=
  mkNodeView r (deriveHealthStatus now (nd_lastHeartbeatAt (fn_node r))) (deriveTelemetryDivergence (nd_config (fn_node r))).

Definition listNodes `{Platform} (now : Z) : MF (list NodeView) :=
  nodes ← gets f_nodes;
  mret (map (viewOf now) (sortBy (fun a b => collate (nd_name (fn_node a)) (nd_name (fn_node b)))
    (List.filter (fun r => nd_deletedAt (fn_node r) =s None) nodes))).

Definition newNode (id : string) (dto : CreateNodeDto) : NodeRow :=
  let k := cn_capacity dto in
  mkNodeRow
    (mkNode id (cn_name dto) (cn_locationId dto) None false (default true (given (cn_isPublic dto))) None
      (given (kf_reservedForPlansAbovePriceCents k))
      (mkConfig
        (mkInputs (cn_memoryTotalMb dto) (default 0 (given (kf_memoryReservedMb k))) (default 0 (given (kf_memoryOverallocatePct k)))
          (cn_diskTotalMb dto) (default 0 (given (kf_diskReservedMb k))) (default 0 (given (kf_diskOverallocatePct k)))
          (default 0 (given (kf_cpuTotalPercent k))) (default 0 (given (kf_cpuReservedPercent k))) (default (-1) (given (kf_cpuOverallocatePct k))))
        (default "manual" (given (kf_capacityMode k))) 10 10 10 None None None None None))
    (mkNodeDetails (given (cn_description dto)) (cn_fqdn dto) (default "https" (given (cn_scheme dto))) (default 8443 (given (cn_daemonPort dto)))
      (given (cn_controlAddress dto)) (given (cn_tunnelIp dto)) (default 2022 (given (cn_sftpPort dto))) (default 256 (given (cn_uploadSizeMb dto)))
      None 70 85 95 "unknown" None None None noTelemetry None).

Definition createNode `{Platform} (dto : CreateNodeDto) (actorId : string) : MF NodeRow :=
  locations ← gets f_locations;
  throwIf (negb (existsb (fun l => (fst l =s cn_locationId dto) && (snd l =s None)) locations)) (NotFound "Location not found") ;;
  created ← capacityErrors (
    n ← freshF;
    let row := newNode (uuidv7 n) dto in
    lift (acceptNode row) ;;
    modify (fun s => s <| f_nodes := f_nodes s ++ [row] |>) ;;
    mret row);
  logF "admin.node.create" (Some actorId) "node" (nd_id (fn_node created)) ;;
  mret created.

(** The dimensions a request declares above what the node has reported. *)
Definition exceededDims (dto : UpdateNodeDto) (c : NodeCapacityConfig) : list string :=
  let over (label : string) (new : Field Z) (detected : option Z) :=
    match new, detected with Val v, Some d => if d <? v then Some label else None | Null, Some d => if d <? 0 then Some label else None | _, _ => None end in
  omap id
    [over "memory" (un_memoryTotalMb dto) (match reportedMemoryLimitMb c with Some v => Some v | None => reportedMemoryTotalMb c end);
     over "disk" (un_diskTotalMb dto) (reportedDiskTotalMb c);
     over "cpu" (kf_cpuTotalPercent (un_capacity dto)) ((fun n => n * 100) <$> reportedCpuCount c)].

Definition isSet {A} (f : Field A) : bool := match f with Unset => false | _ => true end.

(** [Object.keys(data).length > 0]. *)
Definition anyField (dto : UpdateNodeDto) : bool :=
  let k := un_capacity dto in
  isSet (un_name dto) || isSet (un_description dto) || isSet (un_isPublic dto) || isSet (un_maintenanceMode dto) ||
  isSet (un_maintenanceScheduledAt dto) || isSet (un_controlAddress dto) || isSet (un_tunnelIp dto) ||
  isSet (kf_reservedForPlansAbovePriceCents k) || isSet (un_memoryTotalMb dto) || isSet (kf_memoryReservedMb k) ||
  isSet (kf_memoryOverallocatePct k) || isSet (un_diskTotalMb dto) || isSet (kf_diskReservedMb k) || isSet (kf_diskOverallocatePct k) ||
  isSet (kf_cpuTotalPercent k) || isSet (kf_cpuReservedPercent k) || isSet (kf_cpuOverallocatePct k) || isSet (kf_capacityMode k) ||
  isSet (un_memorySafetyMarginPct dto) || isSet (un_diskSafetyMarginPct dto) || isSet (un_cpuSafetyMarginPct dto) ||
  isSet (un_capacityWarnPct dto) || isSet (un_capacityHighPct dto) || isSet (un_capacityCriticalPct dto).

(** The columns of [data] written over the capacity settings. *)
Definition patchConfig (dto : UpdateNodeDto) (c : NodeCapacityConfig) : Res NodeCapacityConfig :=
  let k := un_capacity dto in let i := nc_inputs c in
  memTotal ← patch (un_memoryTotalMb dto) (memoryTotalMb i);
  memReserved ← patch (kf_memoryReservedMb k) (memoryReservedMb i);
  memOver ← patch (kf_memoryOverallocatePct k) (memoryOverallocatePct i);
  dskTotal ← patch (un_diskTotalMb dto) (diskTotalMb i);
  dskReserved ← patch (kf_diskReservedMb k) (diskReservedMb i);
  dskOver ← patch (kf_diskOverallocatePct k) (diskOverallocatePct i);
  cpTotal ← patch (kf_cpuTotalPercent k) (cpuTotalPercent i);
  cpReserved ← patch (kf_cpuReservedPercent k) (cpuReservedPercent i);
  cpOver ← patch (kf_cpuOverallocatePct k) (cpuOverallocatePct i);
  mode ← patch (kf_capacityMode k) (capacityMode c);
  memMargin ← patch (un_memorySafetyMarginPct dto) (memorySafetyMarginPct c);
  dskMargin ← patch (un_diskSafetyMarginPct dto) (diskSafetyMarginPct c);
  cpMargin ← patch (un_cpuSafetyMarginPct dto) (cpuSafetyMarginPct c);
  Ok (mkConfig (mkInputs memTotal memReserved memOver dskTotal dskReserved dskOver cpTotal cpReserved cpOver) mode memMargin dskMargin cpMargin
        (reportedMemoryLimitMb c) (reportedMemoryTotalMb c) (reportedDiskTotalMb c) (reportedCpuCount c) (reportedAt c)).

Definition patchNode (dto : UpdateNodeDto) (r : NodeRow) : Res NodeRow :=
  let n := fn_node r in let d := fn_details r in
  name ← patch (un_name dto) (nd_name n);
  isPublic ← patch (un_isPublic dto) (nd_isPublic n);
  maintenance ← patch (un_maintenanceMode dto) (nd_maintenanceMode n);
  config ← patchConfig dto (nd_config n);
  warn ← patch (un_capacityWarnPct dto) (dt_capacityWarnPct d);
  high ← patch (un_capacityHighPct dto) (dt_capacityHighPct d);
  critical ← patch (un_capacityCriticalPct dto) (dt_capacityCriticalPct d);
  Ok (mkNodeRow
        (mkNode (nd_id n) name (nd_locationId n) (nd_deletedAt n) maintenance isPublic (nd_lastHeartbeatAt n)
          (patchNull (kf_reservedForPlansAbovePriceCents (un_capacity dto)) (nd_reservedForPlansAbovePriceCents n)) config)
        (d <| dt_description := patchNull (un_description dto) (dt_description d) |>
           <| dt_maintenanceScheduledAt := patchNull (un_maintenanceScheduledAt dto) (dt_maintenanceScheduledAt d) |>
           <| dt_controlAddress := patchNull (un_controlAddress dto) (dt_controlAddress d) |>
           <| dt_tunnelIp := patchNull (un_tunnelIp dto) (dt_tunnelIp d) |>
           <| dt_capacityWarnPct := warn |> <| dt_capacityHighPct := high |> <| dt_capacityCriticalPct := critical |>)).

Definition updateNode (now : Z) (id : string) (dto : UpdateNodeDto) (actorId : string) : MF NodeView :=
  before ← getNode id;
  let config := nd_config (fn_node before) in
  let effectiveMode := default (capacityMode config) (given (kf_capacityMode (un_capacity dto))) in
  let exceeded := exceededDims dto config in
  throwIf ((effectiveMode =s "manual") && negb (exceeded =s []) && negb (default false (given (un_acknowledgeOverride dto))))
    (Conflict ("CAPACITY_OVERRIDE_REQUIRED: declared " +:+ join ", " exceeded +:+ " exceeds detected hardware — pass acknowledgeOverride: true to confirm")) ;;
  updated ← capacityErrors (
    row ← lift (patchNode dto before);
    lift (acceptNode row) ;;
    modify (fun s => s <| f_nodes := updId id (fun _ => row) (f_nodes s) |>) ;;
    mret row);
  (if anyField dto then logF "admin.node.update" (Some actorId) "node" id else mret tt) ;;
  mret (viewOf now updated).

Definition removeNode (now : Z) (id : string) (actorId : string) : MF unit :=
  getNode id ;;
  servers ← gets f_servers;
  throwIf (0 <? countWhere (fun h => sv_nodeId (hs_server h) =s id) servers) (Conflict "Node has servers; transfer or delete them first") ;;
  modify (fun s => s <| f_nodes := updId id (fun r => r <| fn_node := (fn_node r) <| nd_deletedAt := Some now |> |>) (f_nodes s) |>) ;;
  logF "admin.node.delete" (Some actorId) "node" id.

(** ** AllocationsService *)

Definition MAX_RANGE_SIZE : Z := 1000.

Record CreateAllocationRangeDto := mkRange { cr_ip : string; cr_ipAlias : Field string; cr_startPort : Z; cr_endPort : Z }.

Definition validRangeDto (dto : CreateAllocationRangeDto) : bool :=
  (1024 <=? cr_startPort dto) && (cr_startPort dto <=? 65535) && (1024 <=? cr_endPort dto) && (cr_endPort dto <=? 65535).

(** [for (let port = start; port <= end; port++)]. *)
Definition portsFrom (start endPort : Z) : list Z := map (fun k => start + Z.of_nat k) (seq 0 (Z.to_nat (endPort - start + 1))).

Definition atPort (nodeId ip : string) (a : AllocationRow) : bool :=
  (al_nodeId (ar_allocation a) =s nodeId) && (al_ip (ar_allocation a) =s ip).

Definition listForNode `{Net} (nodeId : string) : MF (list AllocationRow) :=
  getNode nodeId ;;
  rows ← gets f_allocations;
  mret (sortBy (fun a b => match inetCompare (al_ip (ar_allocation a)) (al_ip (ar_allocation b)) with
                           | Lt => true | Gt => false | Eq => al_port (ar_allocation a) <=? al_port (ar_allocation b) end)
         (List.filter (fun a => al_nodeId (ar_allocation a) =s nodeId) rows)).

(** One row of [createMany]: a new id from the sequence, the key unused. *)
Definition insertAllocation (nodeId ip : string) (ipAlias : option string) (port : Z) : MF unit :=
  rows ← gets f_allocations;
  throwIf (existsb (fun a => atPort nodeId ip a && (al_port (ar_allocation a) =? port)) rows) (UniqueViolation "allocations_node_id_ip_port_key") ;;
  modify (fun s => s <| f_allocations := f_allocations s ++ [mkAllocationRow (mkAllocation (f_allocationSeq s) nodeId ip port None false) ipAlias] |>
                     <| f_allocationSeq := f_allocationSeq s + 1 |>).

(** [withRLS] on this state: an exception puts the tables back. *)
Definition asAdmin {A} (m : MF A) : MF A := fun s =>
  match m s with
  | (Ok a, s') => (Ok a, s')
  | (Throw e, s') => (Throw e, s' <| f_nodes := f_nodes s |> <| f_allocations := f_allocations s |> <| f_servers := f_servers s |> <| f_tokens := f_tokens s |>)
  end.

Definition createRange `{Net} (nodeId : string) (dto : CreateAllocationRangeDto) : MF (Z * Z) :=
  getNode nodeId ;;
  throwIf (cr_endPort dto <? cr_startPort dto) (Conflict "endPort must be >= startPort") ;;
  let size := cr_endPort dto - cr_startPort dto + 1 in
  throwIf (MAX_RANGE_SIZE <? size) (Conflict ("Range too large: " +:+ zstr size +:+ " ports (max " +:+ zstr MAX_RANGE_SIZE +:+ " per request)")) ;;
  asAdmin (
    ip ← orThrow (inet (cr_ip dto)) (External "invalid input syntax for type inet");
    rows ← gets f_allocations;
    let existing := List.filter (fun a => atPort nodeId ip a && (cr_startPort dto <=? al_port (ar_allocation a)) && (al_port (ar_allocation a) <=? cr_endPort dto)) rows in
    let existingPorts : gset Z := list_to_set (map (fun a => al_port (ar_allocation a)) existing) in
    let toCreate := List.filter (fun port => negb (bool_decide (port ∈ existingPorts))) (portsFrom (cr_startPort dto) (cr_endPort dto)) in
    forEach toCreate (insertAllocation nodeId ip (given (cr_ipAlias dto))) ;;
    mret (Z.of_nat (List.length toCreate), Z.of_nat (base.size existingPorts))).

Definition removeAllocation (nodeId : string) (allocationId : Z) : MF unit :=
  asAdmin (
    rows ← gets f_allocations;
    alloc ← orThrow (findFirst (fun a => (al_id (ar_allocation a) =? allocationId) && (al_nodeId (ar_allocation a) =s nodeId)) rows)
      (NotFound "Allocation not found");
    throwIf (negb (al_serverId (ar_allocation alloc) =s None)) (Conflict "Allocation is in use by a server") ;;
    modify (fun s => s <| f_allocations := List.filter (fun a => negb (al_id (ar_allocation a) =? allocationId)) (f_allocations s) |>)).
