(* ===== verification/Enrolment.v ===== *)
(** Enrolment: how a node agent gets, proves and renews its credential, and what it reports.

    [nodes/node-bootstrap.service.ts], the guard [nodes/guards/node-auth.guard.ts] in front of
    [nodes/remote-nodes.controller.ts], and [baseURL] of [nodes/agent-client.service.ts], which
    presents the same credential in the other direction.  The statements of [bootstrap] run
    outside a transaction, in this order. *)

From S2P Require Import Prelude JsNum Capacity Store Scheduler Subscriptions JsString Dto Accounts Fleet.
From Stdlib Require Import Ascii String QArith Lia.

Local Open Scope Z_scope.

Definition BOOTSTRAP_TTL_SECONDS : Z := 30 * 60.
Definition HEARTBEAT_INTERVAL_SECONDS : Z := 15.
Definition INVENTORY_GRACE_MS : Z := 15 * 60 * 1000.

(** [randomBytes(k).toString('base64url')] draws and [CryptoService] ([encrypt] draws its own
    nonce; [decrypt] throws on a wrong tag). *)
Class NodeSecrets := {
  random24 : N -> string;
  random12 : N -> string;
  random36 : N -> string;
  encrypt : N -> string -> string -> string;
  decrypt : string -> string -> Res string }.

Record BootstrapRequestDto := mkBootstrapDto {
  bd_token : string; bd_hostname : string; bd_os : Field string; bd_kernel : Field string; bd_dockerVersion : Field string; bd_arch : Field string }.

Record HeartbeatDto := mkHeartbeat {
  hb_agentVersion : Field string; hb_dockerVersion : Field string; hb_uptimeSeconds : Field Z;
  hb_memoryTotalMb : Field Z; hb_memoryLimitMb : Field Z; hb_cpuCount : Field Z; hb_diskTotalMb : Field Z; hb_diskFreeMb : Field Z;
  hb_os : Field string; hb_kernel : Field string; hb_containersRunning : Field Z; hb_cpuModel : Field string; hb_cpuSockets : Field Z;
  hb_cpuPhysicalCores : Field Z; hb_cpuUsagePercent : Field Z; hb_loadAvg1 : Field Q; hb_memoryUsedMb : Field Z;
  hb_memoryAvailableMb : Field Z; hb_virtualizationSystem : Field string; hb_virtualizationRole : Field string;
  hb_servers : Field (list (string * string)) }.

Definition SERVER_POWER_STATES : list string := ["offline"; "starting"; "running"; "stopping"; "crashed"].

Definition validHeartbeatDto `{Net} (dto : HeartbeatDto) : bool :=
  minOk 0 (hb_uptimeSeconds dto) && minOk 0 (hb_memoryTotalMb dto) && minOk 0 (hb_memoryLimitMb dto) && minOk 0 (hb_cpuCount dto) &&
  minOk 0 (hb_diskTotalMb dto) && minOk 0 (hb_diskFreeMb dto) && minOk 0 (hb_containersRunning dto) && minOk 0 (hb_cpuSockets dto) &&
  minOk 0 (hb_cpuPhysicalCores dto) && rangeOk 0 100 (hb_cpuUsagePercent dto) && holds (Qle_bool 0) (hb_loadAvg1 dto) &&
  minOk 0 (hb_memoryUsedMb dto) && minOk 0 (hb_memoryAvailableMb dto) &&
  holds (forallb (fun r : string * string => isUUID (fst r) && oneOf SERVER_POWER_STATES (snd r))) (hb_servers dto).

Definition bootstrapRedisKey `{Secrets} (token : string) : string := "bootstrap:" +:+ sha256 token.

Definition controlTokenAad (nodeId : string) : string := "nodes:control_token_enc:" +:+ nodeId.

(** [GET] of a key that has not expired. *)
Definition redisGet (now : Z) (key : string) : MF (option string) :=
  keys ← gets f_redis;
  mret (match keys !! key with Some (v, expiresAt) => if now <? expiresAt then Some v else None | None => None end).

Definition redisSetEx (now : Z) (key value : string) (seconds : Z) : MF unit :=
  modify (fun s => s <| f_redis := <[key := (value, now + seconds * 1000)]> (f_redis s) |>).

Definition redisDel (key : string) : MF unit := modify (fun s => s <| f_redis := delete key (f_redis s) |>).

Section Enrolment.
Context `{Platform} `{Secrets} `{NodeSecrets} (now : Z).

(** The token, when it expires, and the command an operator runs. *)
Definition issueBootstrapToken (nodeId actorId : string) : MF (string * Z * string) :=
  getNode nodeId ;;
  n ← freshF;
  let token := "bst_" +:+ random24 n in
  redisSetEx now (bootstrapRedisKey token) nodeId BOOTSTRAP_TTL_SECONDS ;;
  logF "admin.node.bootstrap_token_issued" (Some actorId) "node" nodeId ;;
  mret (token, now + BOOTSTRAP_TTL_SECONDS * 1000, "pxagent bootstrap --panel <panel-url> --token " +:+ token).

Definition revoked (t : NodeToken) : NodeToken := t <| nt_status := tok_revoked |> <| nt_revokedAt := Some now |>.

Definition revokeActive (nodeId : string) : MF unit :=
  modify (fun s => s <| f_tokens := updWhere (fun t => (nt_nodeId t =s nodeId) && (nt_status t =s tok_active)) revoked (f_tokens s) |>).

(** [nodeToken.create]: the unique token id, and one active token per node. *)
Definition createNodeToken (nodeId tokenId tokenHash : string) : MF unit :=
  n ← freshF;
  tokens ← gets f_tokens;
  throwIf (existsb (fun t => nt_tokenId t =s tokenId) tokens) (UniqueViolation "node_tokens_token_id_key") ;;
  throwIf (existsb (fun t => (nt_nodeId t =s nodeId) && (nt_status t =s tok_active)) tokens) (UniqueViolation "node_tokens_one_active") ;;
  modify (fun s => s <| f_tokens := f_tokens s ++ [mkNodeToken (uuidv7 n) nodeId tokenId tokenHash tok_active None None] |>).

(** [node.update({ where: { id } })]: an unknown id is an error, and the row passes the constraints. *)
Definition updateNodeRow (nodeId : string) (f : NodeRow -> NodeRow) : MF NodeRow :=
  nodes ← gets f_nodes;
  before ← orThrow (findId nodeId nodes) RecordNotFound;
  lift (acceptNode (f before)) ;;
  modify (fun s => s <| f_nodes := updId nodeId f (f_nodes s) |>) ;;
  mret (f before).

(** A fresh token id, its secret and the secret's hash. *)
Definition mintToken : MF (string * string * string) :=
  n1 ← freshF; n2 ← freshF; n3 ← freshF;
  let secret := random36 n2 in
  mret (random12 n1, secret, argonHash n3 secret).

Definition onDetails (f : NodeDetails -> NodeDetails) (r : NodeRow) : NodeRow := r <| fn_details := f (fn_details r) |>.

(** [bootstrap] after the token has been traded for its node: first the statements that revoke
    the tokens the node has and create its new one. *)
Definition issueCredential (nodeId : string) : MF string :=
  nodes ← gets f_nodes;
  orThrow (findFirst (liveRow nodeId) nodes) (NotFound "Node no longer exists") ;;
  revokeActive nodeId ;;
  '(tokenId, secret, tokenHash) ← mintToken;
  let fullToken := tokenId +:+ "." +:+ secret in
  createNodeToken nodeId tokenId tokenHash ;;
  mret fullToken.

(** Then the update of the node, with the copy of the token the panel will present. *)
Definition storeCredential (nodeId : string) (dto : BootstrapRequestDto) (fullToken : string) : MF (string * string * Z) :=
  n ← freshF;
  updateNodeRow nodeId (fun r => onDetails (fun d =>
    d <| dt_dockerVersion := patchNull (bd_dockerVersion dto) (dt_dockerVersion d) |> <| dt_healthStatus := "online" |>
      <| dt_controlTokenEnc := Some (encrypt n fullToken (controlTokenAad nodeId)) |>)
    (r <| fn_node := (fn_node r) <| nd_lastHeartbeatAt := Some now |> |>)) ;;
  logF "node.bootstrap.completed" None "node" nodeId ;;
  mret (nodeId, fullToken, HEARTBEAT_INTERVAL_SECONDS).

Definition completeBootstrap (nodeId : string) (dto : BootstrapRequestDto) : MF (string * string * Z) :=
  fullToken ← issueCredential nodeId;
  storeCredential nodeId dto fullToken.

(** The first statement, [redis.get]. *)
Definition lookupBootstrap (token : string) : MF string :=
  found ← redisGet now (bootstrapRedisKey token);
  orThrow found (Unauthorized "Invalid or expired bootstrap token").

(** The rest, from [redis.del] on. *)
Definition burnAndComplete (nodeId : string) (dto : BootstrapRequestDto) : MF (string * string * Z) :=
  redisDel (bootstrapRedisKey (bd_token dto)) ;;
  completeBootstrap nodeId dto.

Definition bootstrap (dto : BootstrapRequestDto) : MF (string * string * Z) :=
  nodeId ← lookupBootstrap (bd_token dto);
  burnAndComplete nodeId dto.

Definition rotateSelf (nodeId : string) : MF string :=
  '(tokenId, secret, tokenHash) ← mintToken;
  let fullToken := tokenId +:+ "." +:+ secret in
  n ← freshF;
  asAdmin (
    revokeActive nodeId ;;
    createNodeToken nodeId tokenId tokenHash ;;
    updateNodeRow nodeId (onDetails (fun d => d <| dt_controlTokenEnc := Some (encrypt n fullToken (controlTokenAad nodeId)) |>))) ;;
  logF "node.token.self_rotated" None "node" nodeId ;;
  mret fullToken.

Definition forceRotate (nodeId actorId : string) : MF (string * Z * string) :=
  getNode nodeId ;;
  revokeActive nodeId ;;
  logF "node.token.force_revoked" (Some actorId) "node" nodeId ;;
  issueBootstrapToken nodeId actorId.

(** ** The guard *)

Definition extractBearerToken (header : option string) : option string :=
  match header with
  | Some h => if startsWith "Bearer " h then let t := trim (dropS 7 h) in if t =s "" then None else Some t else None
  | None => None
  end.

(** [presented.split('.', 2)], both parts non-empty. *)
Definition tokenParts (presented : string) : option (string * string) :=
  match splitOn "." presented with
  | tokenId :: secret :: _ => if (tokenId =s "") || (secret =s "") then None else Some (tokenId, secret)
  | _ => None
  end.

Definition canActivateNode (header : option string) : MF string :=
  presented ← orThrow (extractBearerToken header) (Unauthorized "Missing node token");
  '(tokenId, secret) ← orThrow (tokenParts presented) (Unauthorized "Malformed node token");
  tokens ← gets f_tokens;
  token ← orThrow (findFirst (fun t => (nt_tokenId t =s tokenId) && (nt_status t =s tok_active)) tokens) (Unauthorized "Invalid node token");
  throwIf (negb (argonVerify (nt_tokenHash token) secret =s Some true)) (Unauthorized "Invalid node token") ;;
  modify (fun s => s <| f_tokens := updId (nt_id token) (fun t => t <| nt_lastUsedAt := Some now |>) (f_tokens s) |>) ;;
  mret (nt_nodeId token).

(** [baseURL]: where the panel reaches the agent, and the credential it presents. *)
Definition baseURL (nodeId : string) : MF (string * string) :=
  nodes ← gets f_nodes;
  node ← orThrow (findId nodeId nodes) (Http "Node has not completed bootstrap (no control token on file)" 503);
  enc ← orThrow (dt_controlTokenEnc (fn_details node)) (Http "Node has not completed bootstrap (no control token on file)" 503);
  token ← lift (decrypt enc (controlTokenAad nodeId));
  let d := fn_details node in
  mret (default (dt_scheme d +:+ "://" +:+ dt_fqdn d +:+ ":" +:+ zstr (dt_daemonPort d)) (dt_controlAddress d), token).

(** ** Reports *)

Definition hasReportedFields (dto : HeartbeatDto) : bool :=
  isSet (hb_memoryTotalMb dto) || isSet (hb_memoryLimitMb dto) || isSet (hb_cpuCount dto) || isSet (hb_diskTotalMb dto) || isSet (hb_diskFreeMb dto) ||
  isSet (hb_os dto) || isSet (hb_kernel dto) || isSet (hb_containersRunning dto) || isSet (hb_cpuModel dto) || isSet (hb_cpuSockets dto) ||
  isSet (hb_cpuPhysicalCores dto) || isSet (hb_cpuUsagePercent dto) || isSet (hb_loadAvg1 dto) || isSet (hb_memoryUsedMb dto) ||
  isSet (hb_memoryAvailableMb dto) || isSet (hb_virtualizationSystem dto) || isSet (hb_virtualizationRole dto).

Definition beatTelemetry (dto : HeartbeatDto) (t : NodeTelemetry) : NodeTelemetry :=
  mkTelemetry (patchNull (hb_diskFreeMb dto) (tm_diskFreeMb t)) (patchNull (hb_os dto) (tm_os t)) (patchNull (hb_kernel dto) (tm_kernel t))
    (patchNull (hb_containersRunning dto) (tm_containersRunning t)) (patchNull (hb_cpuModel dto) (tm_cpuModel t))
    (patchNull (hb_cpuSockets dto) (tm_cpuSockets t)) (patchNull (hb_cpuPhysicalCores dto) (tm_cpuPhysicalCores t))
    (patchNull (hb_cpuUsagePercent dto) (tm_cpuUsagePercent t)) (patchNull (hb_loadAvg1 dto) (tm_loadAvg1 t))
    (patchNull (hb_memoryUsedMb dto) (tm_memoryUsedMb t)) (patchNull (hb_memoryAvailableMb dto) (tm_memoryAvailableMb t))
    (patchNull (hb_virtualizationSystem dto) (tm_virtualizationSystem t)) (patchNull (hb_virtualizationRole dto) (tm_virtualizationRole t)).

Definition beatConfig (dto : HeartbeatDto) (c : NodeCapacityConfig) : NodeCapacityConfig :=
  mkConfig (nc_inputs c) (capacityMode c) (memorySafetyMarginPct c) (diskSafetyMarginPct c) (cpuSafetyMarginPct c)
    (patchNull (hb_memoryLimitMb dto) (reportedMemoryLimitMb c)) (patchNull (hb_memoryTotalMb dto) (reportedMemoryTotalMb c))
    (patchNull (hb_diskTotalMb dto) (reportedDiskTotalMb c)) (patchNull (hb_cpuCount dto) (reportedCpuCount c))
    (if hasReportedFields dto then Some now else reportedAt c).

Definition beat (dto : HeartbeatDto) (r : NodeRow) : NodeRow :=
  let n := fn_node r in let d := fn_details r in
  mkNodeRow (n <| nd_lastHeartbeatAt := Some now |> <| nd_config := beatConfig dto (nd_config n) |>)
    (d <| dt_healthStatus := "online" |> <| dt_agentVersion := patchNull (hb_agentVersion dto) (dt_agentVersion d) |>
       <| dt_dockerVersion := patchNull (hb_dockerVersion dto) (dt_dockerVersion d) |>
       <| dt_agentUptimeSeconds := patchNull (hb_uptimeSeconds dto) (dt_agentUptimeSeconds d) |>
       <| dt_telemetry := beatTelemetry dto (dt_telemetry d) |>).

(** The columns a ceiling may be computed from. *)
Definition ceilingColumns (c : NodeCapacityConfig) : option Z * option Z * option Z * option Z :=
  (reportedMemoryLimitMb c, reportedMemoryTotalMb c, reportedDiskTotalMb c, reportedCpuCount c).

(** [byState]: the reported ids by state, in the order the states first occur. *)
Fixpoint addToState (uuid state : string) (groups : list (string * list string)) : list (string * list string) :=
  match groups with
  | [] => [(state, [uuid])]
  | (st, ids) :: rest => if st =s state then (st, ids ++ [uuid]) :: rest else (st, ids) :: addToState uuid state rest
  end.

Definition byState (reported : list (string * string)) : list (string * list string) :=
  fold_left (fun groups r => addToState (fst r) (snd r) groups) reported [].

Definition inState (nodeId : string) (group : string * list string) (h : HostedServer) : HostedServer :=
  let v := hs_server h in
  if bool_decide (sv_id v ∈ snd group) && (sv_nodeId v =s nodeId) && negb (sv_powerState v =s fst group)
  then mkHosted (v <| sv_powerState := fst group |>) now (Some now) else h.

Definition syncServerPowerStates (nodeId : string) (reported : Field (list (string * string))) : MF unit :=
  match given reported with
  | None => mret tt
  | Some l => modify (fun s => s <| f_servers := fold_left (fun hs g => map (inState nodeId g) hs) (byState l) (f_servers s) |>)
  end.

Definition heartbeat (nodeId : string) (dto : HeartbeatDto) : MF string :=
  nodes ← gets f_nodes;
  let before := findId nodeId nodes in
  node ← updateNodeRow nodeId (beat dto);
  (match before with
   | Some b => if ceilingColumns (nd_config (fn_node b)) =s ceilingColumns (nd_config (fn_node node)) then mret tt
               else logF "node.telemetry.changed" None "node" nodeId
   | None => mret tt
   end) ;;
  syncServerPowerStates nodeId (hb_servers dto) ;;
  mret (deriveHealthStatus now (nd_lastHeartbeatAt (fn_node node))).

Definition listServerUuids (nodeId : string) : MF (list string) :=
  servers ← gets f_servers;
  mret (map (fun h => sv_id (hs_server h)) (List.filter (fun h => sv_nodeId (hs_server h) =s nodeId) servers)).

Definition missingFrom (nodeId : string) (reportedUuids : list string) (h : HostedServer) : bool :=
  let v := hs_server h in
  (sv_nodeId v =s nodeId) && bool_decide (sv_status v ∈ [Srv_installing; Srv_ready; Srv_suspended]) &&
  (hs_updatedAt h <? now - INVENTORY_GRACE_MS) && negb (bool_decide (sv_id v ∈ reportedUuids)).

Definition failInstall (nodeId : string) (ids : list string) (h : HostedServer) : HostedServer :=
  let v := hs_server h in
  if bool_decide (sv_id v ∈ ids) && (sv_nodeId v =s nodeId) && (sv_status v =s Srv_installing)
  then mkHosted (v <| sv_status := Srv_install_failed |>) now (hs_powerStateAt h) else h.

Definition reconcileNodeInventory (nodeId : string) (reportedUuids : list string) : MF Z :=
  servers ← gets f_servers;
  let missing := List.filter (missingFrom nodeId reportedUuids) servers in
  let stuckInstalls := List.filter (fun h => sv_status (hs_server h) =s Srv_installing) missing in
  modify (fun s => s <| f_servers := map (failInstall nodeId (map (fun h => sv_id (hs_server h)) stuckInstalls)) (f_servers s) |>) ;;
  forEach missing (fun h => logF "node.inventory.server_missing" None "server" (sv_id (hs_server h))) ;;
  mret (Z.of_nat (List.length missing)).

(** ** The agents' endpoints *)

Definition remoteHeartbeat (header : option string) (dto : HeartbeatDto) : MF string :=
  nodeId ← canActivateNode header; heartbeat nodeId dto.

Definition remoteRotate (header : option string) : MF string :=
  nodeId ← canActivateNode header; rotateSelf nodeId.

Definition remoteServers (header : option string) : MF (list string) :=
  nodeId ← canActivateNode header; listServerUuids nodeId.

Definition remoteInventory (header : option string) (serverUuids : list string) : MF Z :=
  nodeId ← canActivateNode header; reconcileNodeInventory nodeId serverUuids.

End Enrolment.
