(* ===== verification/FleetRules.v ===== *)
(** FleetRules: what the administration and the enrolment of nodes guarantee.

    Every request, handled from start to end, moves the nodes, the node tokens and the bootstrap keys by a few kinds of
    step ([coreStep]).  From these steps follow that node rows stay well formed, that one
    credential per node works and is the one the panel presents, that a superseded credential
    and a used bootstrap token stay dead, and that an agent speaks only for its own node. *)

From S2P Require Import Prelude JsNum Capacity Store Scheduler Subscriptions JsString Dto Variables Accounts Fleet Enrolment.
From Stdlib Require Import Ascii String Lia.

Local Open Scope Z_scope.

(** ** Text of credentials *)

(** The characters of base64url. *)
Definition base64urlChar (c : ascii) : bool :=
  ((65 <=? code c)%N && (code c <=? 90)%N) || ((97 <=? code c)%N && (code c <=? 122)%N) || isDigit c || Ascii.eqb c "-" || Ascii.eqb c "_".

Lemma base64url_visible c : base64urlChar c = true -> visible c = true.
Proof. destruct c as [[] [] [] [] [] [] [] []]; vm_compute; done. Qed.

Lemma base64url_noDot s : everyChar base64urlChar s = true -> noChar "." s = true.
Proof.
  induction s as [|c s IH]; [done|]. simpl. rewrite !andb_true_iff. intros [Hc Hs]. split; [|by apply IH].
  apply negb_true_iff. destruct c as [[] [] [] [] [] [] [] []]; vm_compute in Hc |- *; done.
Qed.

(** What the draws and the primitives are relied on for: base64url text, fresh draws that
    never repeat, argon2 accepting exactly the hashed text, [decrypt] undoing [encrypt] under
    the same associated data, and no two tokens with the same SHA-256. *)
Class EnrolmentLaws `{Platform} `{Secrets} `{NodeSecrets} : Prop := {
  random12_text n : everyChar base64urlChar (random12 n) = true /\ random12 n <> "";
  random36_text n : everyChar base64urlChar (random36 n) = true /\ random36 n <> "";
  random12_inj : Inj (=) (=) random12;
  random24_inj : Inj (=) (=) random24;
  uuid_inj : Inj (=) (=) uuidv7;
  sha256_inj : Inj (=) (=) sha256;
  argon_verifies n secret presented : argonVerify (argonHash n secret) presented = Some (presented =s secret);
  decrypt_encrypt n plain aad : decrypt (encrypt n plain aad) aad = Ok plain }.

#[export] Existing Instances random12_inj random24_inj uuid_inj sha256_inj.

Section TokenText.
Context `{EnrolmentLaws}.

Lemma splitOn_dot a b : noChar "." a = true -> noChar "." b = true -> splitOn "." (a +:+ "." +:+ b) = [a; b].
Proof.
  induction a as [|c a IH]; intros Ha Hb.
  - change (splitOn "." (String "." b) = [""; b]). simpl. by rewrite (splitOn_noChar "." b Hb).
  - simpl in Ha. apply andb_true_iff in Ha as [Hc Ha]. apply negb_true_iff in Hc.
    change (splitOn "." (String c (a +:+ "." +:+ b)) = [String c a; b]). simpl. rewrite Hc.
    by rewrite (IH Ha Hb : splitOn "." (a +:+ "." +:+ b) = _).
Qed.

(** The header an agent builds from its token is read back as the token's two parts. *)
Lemma bearer_parts n m : extractBearerToken (Some ("Bearer " +:+ (random12 n +:+ "." +:+ random36 m))) = Some (random12 n +:+ "." +:+ random36 m) /\
  tokenParts (random12 n +:+ "." +:+ random36 m) = Some (random12 n, random36 m).
Proof.
  destruct (random12_text n) as [T1 N1], (random36_text m) as [T2 N2]. split.
  - unfold extractBearerToken. change (dropS 7 ("Bearer " +:+ ?t)) with t.
    change (startsWith "Bearer " ("Bearer " +:+ ?t)) with (String.prefix "" t). simpl.
    assert (everyChar visible (random12 n +:+ "." +:+ random36 m) = true) as Hv.
    { rewrite !everyChar_app, !andb_true_iff. split_and!; [|done|]; (eapply everyChar_impl; [apply base64url_visible|done]). }
    rewrite (trim_visible _ Hv), bool_decide_eq_false_2; [by destruct (random12 n +:+ "." +:+ random36 m)|]. by destruct (random12 n).
  - unfold tokenParts. rewrite splitOn_dot by (by apply base64url_noDot). by rewrite !bool_decide_eq_false_2.
Qed.

End TokenText.

(** ** Well-formed nodes *)

(** A node row the capacity rules can work with: the declared totals and what was reported are
    not negative, and in manual mode the reserve fits the total and an overallocation of CPU
    has a total to apply to; the margins are percentages and the alert levels in order.  The
    stored health is never [offline]: that a node is offline is only derived, on reading. *)
Definition nodeWf (r : NodeRow) : Prop :=
  let c := nd_config (fn_node r) in let i := nc_inputs c in let d := fn_details r in
  1 <= memoryTotalMb i /\ 1 <= diskTotalMb i /\ 0 <= cpuTotalPercent i /\
  0 <= memoryReservedMb i /\ 0 <= diskReservedMb i /\ 0 <= cpuReservedPercent i /\
  (capacityMode c = "auto" \/ capacityMode c = "manual" /\ memoryReservedMb i <= memoryTotalMb i /\ diskReservedMb i <= diskTotalMb i /\
     cpuReservedPercent i <= cpuTotalPercent i /\ (cpuOverallocatePct i = -1 \/ 0 < cpuTotalPercent i)) /\
  -1 <= memoryOverallocatePct i /\ -1 <= diskOverallocatePct i /\ -1 <= cpuOverallocatePct i /\
  0 <= memorySafetyMarginPct c <= 90 /\ 0 <= diskSafetyMarginPct c <= 90 /\ 0 <= cpuSafetyMarginPct c <= 90 /\
  dt_capacityWarnPct d < dt_capacityHighPct d < dt_capacityCriticalPct d /\ dt_capacityCriticalPct d <= 100 /\
  (forall v, Some v ∈ [reportedMemoryLimitMb c; reportedMemoryTotalMb c; reportedDiskTotalMb c; reportedCpuCount c] -> 0 <= v) /\
  dt_healthStatus d <> "offline" /\ acceptNode r = Ok tt.

(** What the database's own checks contribute. *)
Lemma acceptNode_spec r : acceptNode r = Ok tt ->
  let c := nd_config (fn_node r) in let i := nc_inputs c in let d := fn_details r in
  0 <= memoryReservedMb i /\ 0 <= diskReservedMb i /\ 0 <= cpuReservedPercent i /\
  (capacityMode c = "auto" \/ capacityMode c = "manual" /\ memoryReservedMb i <= memoryTotalMb i /\ diskReservedMb i <= diskTotalMb i /\
     cpuReservedPercent i <= cpuTotalPercent i /\ (cpuOverallocatePct i = -1 \/ 0 < cpuTotalPercent i)) /\
  -1 <= memoryOverallocatePct i /\ -1 <= diskOverallocatePct i /\ -1 <= cpuOverallocatePct i /\
  0 <= memorySafetyMarginPct c <= 90 /\ 0 <= diskSafetyMarginPct c <= 90 /\ 0 <= cpuSafetyMarginPct c <= 90 /\
  dt_capacityWarnPct d < dt_capacityHighPct d < dt_capacityCriticalPct d /\ dt_capacityCriticalPct d <= 100.
Proof.
  unfold acceptNode. destruct (negb _); [done|]. destruct (nodeRowOk r) eqn:E; [|done]. intros _. unfold nodeRowOk in E. cbv zeta in *.
  rewrite !andb_true_iff in E. destruct_and! E. unfold oneOf in *.
  match goal with H : bool_decide (capacityMode _ ∈ _) = true |- _ => apply bool_decide_eq_true in H; rename H into Hm end.
  split_and!; try lia. destruct (capacityMode _ =s "auto") eqn:Ea; [left; by apply bool_decide_eq_true in Ea|right]. simpl in *.
  apply elem_of_cons in Hm as [Hm|Hm%list_elem_of_singleton]; [|by rewrite bool_decide_eq_true_2 in Ea]. split_and!; try lia. done.
Qed.

(** ** Steps of the nodes, their tokens and the bootstrap keys *)

Record Core := mkCore { k_nodes : list NodeRow; k_tokens : list NodeToken; k_redis : gmap string (string * Z); k_next : N }.

Definition core (s : FleetState) : Core := mkCore (f_nodes s) (f_tokens s) (f_redis s) (f_next s).

(** A token keeps its identity, its secret and its node, and is never activated again. *)
Definition tokenKept (a b : NodeToken) : Prop :=
  nt_id b = nt_id a /\ nt_tokenId b = nt_tokenId a /\ nt_tokenHash b = nt_tokenHash a /\ nt_nodeId b = nt_nodeId a /\
  (nt_status b = tok_active -> nt_status a = tok_active).

#[export] Instance tokenKept_pre : PreOrder tokenKept.
Proof. split; [done|]. unfold tokenKept. intros a b c. naive_solver congruence. Qed.

Section Steps.
Context `{EnrolmentLaws}.

Definition bootstrapKey (n : N) : string := bootstrapRedisKey ("bst_" +:+ random24 n).

(** The credential of a node: its active token and the encrypted copy the panel keeps. *)
Definition credential (row : NodeRow) (t : NodeToken) : Prop :=
  exists n m k j, nt_tokenId t = random12 n /\ nt_tokenHash t = argonHash k (random36 m) /\
    dt_controlTokenEnc (fn_details row) = Some (encrypt j (random12 n +:+ "." +:+ random36 m) (controlTokenAad (nt_nodeId t))).

Inductive coreStep : Core -> Core -> Prop :=
  | step_draw N T R n n' : (n <= n')%N -> coreStep (mkCore N T R n) (mkCore N T R n')
  | step_node N T R n id row row' : findId id N = Some row -> rid row' = id -> (nodeWf row -> nodeWf row') ->
      dt_controlTokenEnc (fn_details row') = dt_controlTokenEnc (fn_details row) ->
      coreStep (mkCore N T R n) (mkCore (updId id (fun _ => row') N) T R n)
  | step_add N T R n m n' row : nodeWf row -> rid row = uuidv7 m -> (n <= m < n')%N -> coreStep (mkCore N T R n) (mkCore (N ++ [row]) T R n')
  | step_tokens N T T' R n : Forall2 tokenKept T T' -> coreStep (mkCore N T R n) (mkCore N T' R n)
  | step_renew N T T' R n n' m1 m2 t row row' : Forall2 tokenKept T T' ->
      (forall x, x ∈ T' -> nt_nodeId x = nt_nodeId t -> nt_status x <> tok_active) ->
      nt_id t = uuidv7 m1 -> nt_tokenId t = random12 m2 -> (n <= m1 < n')%N -> (n <= m2 < n')%N ->
      findId (nt_nodeId t) N = Some row -> rid row' = nt_nodeId t -> (nodeWf row -> nodeWf row') -> credential row' t ->
      coreStep (mkCore N T R n) (mkCore (updId (nt_nodeId t) (fun _ => row') N) (T' ++ [t]) R n')
  | step_issue N T R n m n' v : (n <= m < n')%N -> coreStep (mkCore N T R n) (mkCore N T (<[bootstrapKey m := v]> R) n')
  | step_burn N T R n key : coreStep (mkCore N T R n) (mkCore N T (delete key R) n).

(** Unused: a draw still to come occurs in no table. *)
Definition unused (k : Core) (n : N) : Prop :=
  (uuidv7 n ∉ map rid (k_nodes k)) /\ (uuidv7 n ∉ map nt_id (k_tokens k)) /\ (random12 n ∉ map nt_tokenId (k_tokens k)) /\
  k_redis k !! bootstrapKey n = None.

Definition CoreInv (k : Core) : Prop :=
  Forall nodeWf (k_nodes k) /\ NoDup (map rid (k_nodes k)) /\ NoDup (map nt_id (k_tokens k)) /\ NoDup (map nt_tokenId (k_tokens k)) /\
  (forall t u, t ∈ k_tokens k -> u ∈ k_tokens k -> nt_status t = tok_active -> nt_status u = tok_active -> nt_nodeId t = nt_nodeId u -> t = u) /\
  (forall t, t ∈ k_tokens k -> nt_status t = tok_active -> exists row, findId (nt_nodeId t) (k_nodes k) = Some row /\ credential row t) /\
  (forall n, (k_next k <= n)%N -> unused k n).

Lemma kept_column {B} (f : NodeToken -> B) T T' : (forall a b, tokenKept a b -> f b = f a) -> Forall2 tokenKept T T' -> map f T' = map f T.
Proof. intros Hf. induction 1 as [|a b T T' Hab _ IH]; simpl; [done|]. by rewrite IH, (Hf a b Hab). Qed.

Lemma kept_elem T T' b : Forall2 tokenKept T T' -> b ∈ T' -> exists a, a ∈ T /\ tokenKept a b.
Proof.
  intros HF [i Hi]%list_elem_of_lookup. destruct (Forall2_lookup_r _ _ _ _ _ HF Hi) as (a & Ha & Hab). exists a. split; [|done].
  by eapply list_elem_of_lookup_2.
Qed.

Lemma credential_kept row a b : tokenKept a b -> credential row a -> credential row b.
Proof. intros (_ & E1 & E2 & E3 & _) (n & m & k & j & C1 & C2 & C3). exists n, m, k, j. by rewrite E1, E2, E3. Qed.

(** Replacing the row of an id. *)
Lemma findId_replace {R} `{Row R} id id' (r r' : R) l : findId id l = Some r -> rid r' = id ->
  findId id' (updId id (fun _ => r') l) = if id =s id' then Some r' else findId id' l.
Proof.
  unfold findId, findFirst, updId. intros Hf Hr. induction l as [|x l IH]; simpl in *; [done|]. destruct (rid x =s id) eqn:E; simpl.
  - apply bool_decide_eq_true in E. rewrite Hr, E. by destruct (id =s id').
  - rewrite (IH Hf). destruct (id =s id') eqn:E2; [|done]. apply bool_decide_eq_true in E2. subst id'. by rewrite E.
Qed.

Lemma replace_Forall {R} `{Row R} (P : R -> Prop) id (r r' : R) l : findId id l = Some r -> (P r -> P r') -> Forall P l -> Forall P (updId id (fun _ => r') l).
Proof.
  unfold findId, findFirst, updId. intros Hf Hr. induction l as [|x l IH]; simpl in *; [done|]. intros [Hx Hl]%Forall_cons.
  destruct (rid x =s id); constructor; auto. injection Hf as ->. auto.
Qed.

Lemma bootstrapKey_inj n m : bootstrapKey n = bootstrapKey m -> n = m.
Proof. unfold bootstrapKey, bootstrapRedisKey. intros E%(inj (String.append _))%(inj sha256)%(inj (String.append _))%(inj random24). done. Qed.

(** A draw of the supply is fresh for what was drawn before. *)
Lemma unused_step k k' n : coreStep k k' -> (forall m, (k_next k <= m)%N -> unused k m) -> (k_next k' <= n)%N -> unused k' n.
Proof.
  intros Hs Hu Hn. assert (forall T T', Forall2 tokenKept T T' -> map nt_id T' = map nt_id T /\ map nt_tokenId T' = map nt_tokenId T) as Hk.
  { intros T T' HF. split; eapply kept_column; try exact HF; intros a b Hab; apply Hab. }
  destruct Hs as [N T R i j|N T R i id row row' Hf Hr|N T R i m j row _ Hr Hm|N T T' R i HF|N T T' R i j m1 m2 t row row' HF _ Eid Etid Hm1 Hm2 Hf Hr|N T R i m j v Hm|N T R i key];
    simpl in *; unfold unused in *; simpl in *.
  - apply Hu. lia.
  - rewrite (replace_rids _ _ _ _ Hf Hr). by apply Hu.
  - destruct (Hu n ltac:(lia)) as (U1 & U2 & U3 & U4). rewrite map_app, not_elem_of_app. simpl. rewrite list_elem_of_singleton, Hr.
    split_and!; try done. intros E%(inj uuidv7). lia.
  - destruct (Hk _ _ HF) as [-> ->]. by apply Hu.
  - destruct (Hu n ltac:(lia)) as (U1 & U2 & U3 & U4). rewrite (replace_rids _ _ _ _ Hf Hr), !map_app, !not_elem_of_app. destruct (Hk _ _ HF) as [-> ->].
    simpl. rewrite !list_elem_of_singleton, Eid, Etid. split_and!; try done.
    + intros E%(inj uuidv7). lia.
    + intros E%(inj random12). lia.
  - destruct (Hu n ltac:(lia)) as (U1 & U2 & U3 & U4). split_and!; try done. rewrite lookup_insert_ne; [done|]. intros E%bootstrapKey_inj. lia.
  - destruct (Hu n Hn) as (U1 & U2 & U3 & U4). split_and!; try done. apply lookup_delete_None. by right.
Qed.

(** The credential of a node survives what leaves its active token and the panel's copy alone. *)
Lemma coreStep_credentials k k' t : coreStep k k' -> CoreInv k -> t ∈ k_tokens k' -> nt_status t = tok_active ->
  exists row, findId (nt_nodeId t) (k_nodes k') = Some row /\ credential row t.
Proof.
  intros Hs (_ & _ & _ & _ & _ & Hc & _) Ht Ha.
  destruct Hs as [N T R i j|N T R i id row row' Hf Hr Hw He|N T R i m j row _ Hr Hm|N T T' R i HF|N T T' R i j m1 m2 u row row' HF Hna Eid Etid Hm1 Hm2 Hf Hr Hw Hcr|N T R i m j v Hm|N T R i key];
    simpl in *; try by apply Hc.
  - destruct (Hc t Ht Ha) as (x & Hx & Hcx). rewrite (findId_replace _ _ _ _ _ Hf Hr). destruct (id =s nt_nodeId t) eqn:E; [|eauto].
    apply bool_decide_eq_true in E. subst id. assert (x = row) as -> by congruence. exists row'. split; [done|].
    destruct Hcx as (n & m & a & b & C1 & C2 & C3). exists n, m, a, b. by rewrite He.
  - destruct (Hc t Ht Ha) as (x & Hx & Hcx). exists x. split; [by apply findId_app_l|done].
  - destruct (kept_elem _ _ _ HF Ht) as (a & Hain & Hab). destruct (Hc a Hain (proj2 (proj2 (proj2 (proj2 Hab))) Ha)) as (x & Hx & Hcx).
    exists x. pose proof Hab as (E1 & E2 & E3 & E4 & E5). rewrite E4. split; [done|]. by eapply credential_kept.
  - rewrite (findId_replace _ _ _ _ _ Hf Hr). apply elem_of_app in Ht as [Ht|Ht%list_elem_of_singleton].
    + assert (nt_nodeId u <> nt_nodeId t) as Hne by (intros E; by apply (Hna t Ht (eq_sym E))). rewrite bool_decide_eq_false_2 by done.
      destruct (kept_elem _ _ _ HF Ht) as (a & Hain & Hab). destruct (Hc a Hain (proj2 (proj2 (proj2 (proj2 Hab))) Ha)) as (x & Hx & Hcx).
      exists x. pose proof Hab as (E1 & E2 & E3 & E4 & E5). rewrite E4. split; [done|]. by eapply credential_kept.
    + subst t. rewrite bool_decide_eq_true_2 by done. eauto.
Qed.

Lemma coreStep_inv k k' : coreStep k k' -> CoreInv k -> CoreInv k'.
Proof.
  intros Hs HI. pose proof HI as (Hw & Hn & Hi & Hd & Ho & Hc & Hu). pose proof (coreStep_credentials k k') as Hcr.
  pose proof (fun n => unused_step k k' n Hs Hu) as Hun. unfold CoreInv.
  cut (Forall nodeWf (k_nodes k') /\ NoDup (map rid (k_nodes k')) /\ NoDup (map nt_id (k_tokens k')) /\ NoDup (map nt_tokenId (k_tokens k')) /\
    (forall t u, t ∈ k_tokens k' -> u ∈ k_tokens k' -> nt_status t = tok_active -> nt_status u = tok_active -> nt_nodeId t = nt_nodeId u -> t = u)); [naive_solver|].
  clear Hcr Hun. assert (forall T T', Forall2 tokenKept T T' -> map nt_id T' = map nt_id T /\ map nt_tokenId T' = map nt_tokenId T) as Hk.
  { intros T T' HF. split; eapply kept_column; try exact HF; intros a b Hab; apply Hab. }
  assert (forall T T', Forall2 tokenKept T T' -> NoDup (map nt_id T) ->
    (forall t u, t ∈ T -> u ∈ T -> nt_status t = tok_active -> nt_status u = tok_active -> nt_nodeId t = nt_nodeId u -> t = u) ->
    forall t u, t ∈ T' -> u ∈ T' -> nt_status t = tok_active -> nt_status u = tok_active -> nt_nodeId t = nt_nodeId u -> t = u) as Hone.
  { intros T T' HF HND HO t u Ht Hu' Hat Hau En. destruct (kept_elem _ _ _ HF Ht) as (a & Ha & K1 & K2 & K3 & K4 & K5).
    destruct (kept_elem _ _ _ HF Hu') as (b & Hb & L1 & L2 & L3 & L4 & L5). assert (a = b) as -> by (apply HO; auto; congruence).
    apply (NoDup_map_inj nt_id T'); [by rewrite (proj1 (Hk _ _ HF))|done|done|congruence]. }
  destruct Hs as [N T R i j|N T R i id row row' Hf Hr Hwf He|N T R i m j row Hwf Hr Hm|N T T' R i HF|N T T' R i j m1 m2 x row row' HF Hna Eid Etid Hm1 Hm2 Hf Hr Hwf Hcr|N T R i m j v Hm|N T R i key];
    simpl in *; try by split_and!.
  - rewrite (replace_rids _ _ _ _ Hf Hr). split_and!; try done. by eapply replace_Forall.
  - split_and!; try done; [by apply Forall_app_2; [|by constructor]|]. rewrite map_app. simpl. apply NoDup_app. split; [done|].
    split; [|apply NoDup_singleton]. intros y Hy ->%list_elem_of_singleton. rewrite Hr in Hy. by destruct (Hu m ltac:(lia)) as (U & _).
  - destruct (Hk _ _ HF) as [-> ->]. split_and!; try done. by eapply Hone.
  - rewrite (replace_rids _ _ _ _ Hf Hr), !map_app. destruct (Hk _ _ HF) as [-> ->]. simpl. split_and!; try done.
    + by eapply replace_Forall.
    + apply NoDup_app. split; [done|]. split; [|apply NoDup_singleton]. intros y Hy ->%list_elem_of_singleton. rewrite Eid in Hy. by destruct (Hu m1 ltac:(lia)) as (_ & U & _).
    + apply NoDup_app. split; [done|]. split; [|apply NoDup_singleton]. intros y Hy ->%list_elem_of_singleton. rewrite Etid in Hy. by destruct (Hu m2 ltac:(lia)) as (_ & _ & U & _).
    + intros t u [Ht|Ht%list_elem_of_singleton]%elem_of_app [Hu'|Hu'%list_elem_of_singleton]%elem_of_app Hat Hau En; [by eapply (Hone T T')| | |congruence].
      * subst u. by destruct (Hna t Ht En).
      * subst t. by destruct (Hna u Hu' (eq_sym En)).
Qed.

Lemma coreSteps_inv k k' : rtc coreStep k k' -> CoreInv k -> CoreInv k'.
Proof. induction 1 as [|x y z Hs _ IH]; [done|]. intros HI. by apply IH, (coreStep_inv x y). Qed.

End Steps.

(** ** Requests refine steps *)

Section Refine.
Context `{EnrolmentLaws} (now : Z).

Definition refines (s s' : FleetState) : Prop := CoreInv (core s) -> rtc coreStep (core s) (core s').

#[local] Instance refines_pre : PreOrder refines.
Proof.
  split; [by intros s _|]. intros a b c Hab Hbc Ha. etransitivity; [by apply Hab|]. apply Hbc. by eapply coreSteps_inv; [apply Hab|].
Qed.

Lemma refines_same s s' : core s' = core s -> refines s s'.
Proof. intros E _. by rewrite E. Qed.

Lemma keeps_same_core {A} (m : MF A) : keeps (same core) m -> keeps refines m.
Proof. intros K s r s' E. apply refines_same, (K s r s' E). Qed.

Lemma modify_same f : (forall s, core (f s) = core s) -> keeps refines (modify f).
Proof. intros Hf s r s' [= <- <-]. apply refines_same, Hf. Qed.

Lemma logF_refines action actor ty target : keeps refines (logF action actor ty target).
Proof. by apply modify_same. Qed.

Lemma freshF_refines : keeps refines freshF.
Proof. intros s r s' [= <- <-] _. apply rtc_once, step_draw. simpl. lia. Qed.

Lemma getNode_inv id s r s' : getNode id s = (r, s') ->
  s' = s /\ match r with Ok row => findFirst (liveRow id) (f_nodes s) = Some row | Throw e => e = NotFound "Node not found" end.
Proof. unfold getNode. rewrite bind_gets. unfold orThrow. destruct (findFirst _ _); by intros [= <- <-]. Qed.

Lemma live_findId id nodes row : NoDup (map rid nodes) -> findFirst (liveRow id) nodes = Some row -> findId id nodes = Some row /\ rid row = id.
Proof.
  intros Hnd [Hin Hl]%findFirst_some. unfold liveRow in Hl. apply andb_true_iff in Hl as [Hid _]. apply bool_decide_eq_true in Hid.
  change (rid row = id) in Hid. split; [|done]. rewrite <- Hid. by apply findId_unique.
Qed.

Lemma updId_const {R} `{Row R} id f (l : list R) r : findId id l = Some r -> updId id f l = updId id (fun _ => f r) l.
Proof.
  unfold findId, findFirst, updId. intros Hf. induction l as [|x l IH]; simpl in *; [done|]. destruct (rid x =s id); [by injection Hf as ->|].
  by rewrite IH.
Qed.

(** One row written over, its token copy kept. *)
Lemma node_step id (s : FleetState) row row' : findId id (f_nodes s) = Some row -> rid row' = id -> (nodeWf row -> nodeWf row') ->
  dt_controlTokenEnc (fn_details row') = dt_controlTokenEnc (fn_details row) ->
  coreStep (core s) (core (s <| f_nodes := updId id (fun _ => row') (f_nodes s) |>)).
Proof. intros Hf Hr Hw He. by apply (step_node _ _ _ _ id row row'). Qed.

(** *** Administration *)

Lemma newNode_wf `{Net} id dto : validCreateNodeDto dto = true -> acceptNode (newNode id dto) = Ok tt -> nodeWf (newNode id dto).
Proof.
  intros Hv Ha. pose proof (acceptNode_spec _ Ha) as Hs. unfold validCreateNodeDto, validCapacity in Hv. rewrite !andb_true_iff in Hv. destruct_and! Hv.
  unfold nodeWf. cbv zeta in *. destruct_and! Hs. split_and!; try done; try lia.
  - simpl. lia.
  - simpl. lia.
  - simpl. apply minOk_default; [done|lia].
  - simpl. intros v. rewrite !elem_of_cons. intros [?|[?|[?|[?|Hn]]]]; try done. by apply not_elem_of_nil in Hn.
Qed.

Lemma capacityErrors_inv {A} (m : MF A) s r s' : capacityErrors m s = (r, s') -> exists r0, m s = (r0, s') /\ (forall a, r = Ok a <-> r0 = Ok a).
Proof.
  unfold capacityErrors. intros E. apply tryCatch_inv in E as [(a & Em & ->)|(e & s1 & Em & E)]; [eauto|].
  assert (s' = s1 /\ exists e', r = Throw e') as [-> [e' ->]].
  { destruct (isCapacityCheckViolation e); injection E as <- <-; eauto. }
  exists (Throw e). split; [done|]. done.
Qed.

Lemma createNode_refines `{Net} dto actor : validCreateNodeDto dto = true -> keeps refines (createNode dto actor).
Proof.
  intros Hv. unfold createNode. keeps_step; [keeps_step|]. keeps_step; [keeps_step|]. keeps_step; [|keeps_step; [apply logF_refines|keeps_step]].
  intros s r s' (r0 & E & _)%capacityErrors_inv. unfold freshF, mbind, M_bind, lift, modify, mret, M_ret in E.
  destruct (acceptNode (newNode (uuidv7 (f_next s)) dto)) as [[]|e] eqn:Ea; injection E as <- <-; intros _; apply rtc_once.
  - apply (step_add _ _ _ _ (f_next s)); [by apply newNode_wf|done|simpl; lia].
  - apply step_draw. simpl. lia.
Qed.

Lemma rangeOk_patch lo hi f cur v : patch f cur = Ok v -> rangeOk lo hi f = true -> lo <= cur <= hi -> lo <= v <= hi.
Proof. destruct f; simpl; intros [= <-] Hf Hc; lia. Qed.

Lemma patchNode_kept dto row row' : patchNode dto row = Ok row' ->
  rid row' = rid row /\ dt_controlTokenEnc (fn_details row') = dt_controlTokenEnc (fn_details row) /\
  nd_deletedAt (fn_node row') = nd_deletedAt (fn_node row) /\ dt_healthStatus (fn_details row') = dt_healthStatus (fn_details row) /\
  patchConfig dto (nd_config (fn_node row)) = Ok (nd_config (fn_node row')).
Proof.
  unfold patchNode. intros E. patches E. done.
Qed.

Lemma patchConfig_wf dto c c' : validCapacity (un_capacity dto) = true -> minOk 1 (un_memoryTotalMb dto) = true -> minOk 1 (un_diskTotalMb dto) = true ->
  patchConfig dto c = Ok c' ->
  (1 <= memoryTotalMb (nc_inputs c) -> 1 <= memoryTotalMb (nc_inputs c')) /\ (1 <= diskTotalMb (nc_inputs c) -> 1 <= diskTotalMb (nc_inputs c')) /\
  (0 <= cpuTotalPercent (nc_inputs c) -> 0 <= cpuTotalPercent (nc_inputs c')) /\
  (reportedMemoryLimitMb c', reportedMemoryTotalMb c', reportedDiskTotalMb c', reportedCpuCount c') =
  (reportedMemoryLimitMb c, reportedMemoryTotalMb c, reportedDiskTotalMb c, reportedCpuCount c).
Proof.
  unfold validCapacity. rewrite !andb_true_iff. intros Hv Hm Hd E. destruct_and! Hv. unfold patchConfig in E. patches E. simpl.
  split_and!; try done; intros; by eapply minOk_patch.
Qed.

Lemma patchNode_wf `{Net} dto row row' : validUpdateNodeDto dto = true -> patchNode dto row = Ok row' -> acceptNode row' = Ok tt -> nodeWf row -> nodeWf row'.
Proof.
  intros Hv Hp Ha Hw. apply patchNode_kept in Hp as (_ & _ & _ & Hh & Hc). unfold validUpdateNodeDto in Hv. rewrite !andb_true_iff in Hv. destruct_and! Hv.
  apply patchConfig_wf in Hc as (C1 & C2 & C3 & C4); try done. injection C4 as E1 E2 E3 E4.
  pose proof (acceptNode_spec _ Ha) as Hs. unfold nodeWf in *. cbv zeta in *. rewrite E1, E2, E3, E4, Hh. destruct_and! Hw. destruct_and! Hs.
  split_and!; auto; lia.
Qed.

Lemma updateNode_refines `{Net} id dto actor : validUpdateNodeDto dto = true -> keeps refines (updateNode now id dto actor).
Proof.
  intros Hv s r s' E. unfold updateNode in E. apply bind_inv in E as [(e & [-> _]%getNode_inv & _)|(row & s1 & [-> Hf]%getNode_inv & E)]; [reflexivity|].
  cbv zeta in E. apply bind_throwIf in E as [[_ ->]|[_ E]]; [reflexivity|].
  apply bind_inv in E as [(e & (r0 & E & Hr)%capacityErrors_inv & ->)|(u & s1 & (r0 & E & Hr)%capacityErrors_inv & E2)].
  - unfold mbind, M_bind, lift, modify, mret, M_ret in E. destruct (patchNode dto row) as [row'|]; [|injection E as _ <-; reflexivity].
    destruct (acceptNode row') as [[]|]; injection E as <- <-; [|reflexivity]. discriminate (proj2 (Hr row') eq_refl).
  - transitivity s1.
    + unfold mbind, M_bind, lift, modify, mret, M_ret in E. destruct (patchNode dto row) as [row'|] eqn:Ep; [|by injection E as <- <-].
      destruct (acceptNode row') as [[]|] eqn:Ea; injection E as <- <-; [|reflexivity]. intros HI. apply rtc_once.
      destruct (live_findId id (f_nodes s) row) as [Hid Hrid]; [apply HI|done|]. pose proof (patchNode_kept _ _ _ Ep) as (K1 & K2 & _).
      apply (node_step id s row row'); [done|congruence| |done]. by eapply patchNode_wf.
    + revert E2. apply (keeps_bind refines); [|intros ?; apply keeps_ret, _]. destruct (anyField dto); [apply logF_refines|apply keeps_ret, _].
Qed.

Lemma removeNode_refines id actor : keeps refines (removeNode now id actor).
Proof.
  intros s r s' E. unfold removeNode in E. apply bind_inv in E as [(e & [-> _]%getNode_inv & _)|(row & s1 & [-> Hf]%getNode_inv & E)]; [reflexivity|].
  rewrite bind_gets in E. apply bind_throwIf in E as [[_ ->]|[_ E]]; [reflexivity|].
  unfold logF, mbind, M_bind, modify in E. injection E as <- <-. intros HI. apply rtc_once.
  destruct (live_findId id (f_nodes s) row) as [Hid Hrid]; [apply HI|done|]. rewrite (updId_const _ _ _ _ Hid). by eapply (node_step id s row).
Qed.

(** *** Ports *)

Lemma asAdmin_same {A} (m : MF A) : keeps (same core) m -> keeps (same core) (asAdmin m).
Proof.
  intros K s r s'. unfold asAdmin. destruct (m s) as [[a|e] s1] eqn:E; intros [= <- <-]; apply K in E; [done|].
  unfold same, core in *. injection E as E1 E2 E3 E4. simpl. congruence.
Qed.

Lemma asAdmin_ok {A} (m : MF A) s a s' : m s = (Ok a, s') -> asAdmin m s = (Ok a, s').
Proof. unfold asAdmin. by intros ->. Qed.

Lemma createRange_core `{Net} id dto : keeps (same core) (createRange id dto).
Proof.
  unfold createRange, getNode. repeat first [apply asAdmin_same | progress keeps_step]. unfold insertAllocation.
  repeat first [progress keeps_step | by intros s r s' [= <- <-]].
Qed.

Lemma removeAllocation_core id a : keeps (same core) (removeAllocation id a).
Proof. unfold removeAllocation. apply asAdmin_same. repeat first [progress keeps_step | by intros s r s' [= <- <-]]. Qed.

(** *** Credentials *)

Lemma kept_where (p : NodeToken -> bool) f T : (forall t, tokenKept t (f t)) -> Forall2 tokenKept T (updWhere p f T).
Proof. intros Hf. unfold updWhere. induction T as [|t T IH]; simpl; constructor; [|done]. by destruct (p t). Qed.

Lemma kept_id id f T : (forall t, tokenKept t (f t)) -> Forall2 tokenKept T (updId id f T).
Proof. intros Hf. apply updFirst_Forall2; [intros t; reflexivity|]. intros t _. apply Hf. Qed.

Lemma revoked_kept t : tokenKept t (revoked now t).
Proof. unfold tokenKept. split_and!; try done. Qed.

Lemma revoked_none nodeId T x : x ∈ updWhere (fun t => (nt_nodeId t =s nodeId) && (nt_status t =s tok_active)) (revoked now) T ->
  nt_nodeId x = nodeId -> nt_status x <> tok_active.
Proof.
  intros (t & _ & ->)%updWhere_elem. destruct (_ && _) eqn:Hp; [done|]. intros Hn Ha. rewrite Hn, Ha in Hp. by rewrite !bool_decide_eq_true_2 in Hp.
Qed.

Lemma revokeActive_refines nodeId : keeps refines (revokeActive now nodeId).
Proof. intros s r s' [= <- <-] _. apply rtc_once, step_tokens, kept_where, revoked_kept. Qed.

Lemma redisDel_refines key : keeps refines (redisDel key).
Proof. intros s r s' [= <- <-] _. apply rtc_once, step_burn. Qed.

Lemma issue_refines nodeId actor : keeps refines (issueBootstrapToken now nodeId actor).
Proof.
  intros s r s' E. unfold issueBootstrapToken in E. apply bind_inv in E as [(e & [-> _]%getNode_inv & _)|(row & s1 & [-> Hf]%getNode_inv & E)]; [reflexivity|].
  unfold freshF, redisSetEx, logF, mbind, M_bind, modify, mret, M_ret in E. injection E as <- <-. intros _. apply rtc_once.
  apply (step_issue _ _ _ _ (f_next s)). simpl. lia.
Qed.

Lemma createNodeToken_run nodeId tid h s : tid ∉ map nt_tokenId (f_tokens s) -> (forall x, x ∈ f_tokens s -> nt_nodeId x = nodeId -> nt_status x <> tok_active) ->
  createNodeToken nodeId tid h s =
  (Ok tt, s <| f_next := (f_next s + 1)%N |> <| f_tokens := f_tokens s ++ [mkNodeToken (uuidv7 (f_next s)) nodeId tid h tok_active None None] |>).
Proof.
  intros Hf Hn. unfold createNodeToken, freshF, mbind, M_bind, gets, throwIf, modify. simpl.
  assert (existsb (fun t => nt_tokenId t =s tid) (f_tokens s) = false) as ->.
  { apply not_true_is_false. intros (t & Ht & E%bool_decide_eq_true)%existsb_exists. apply Hf. rewrite <- E. apply list_elem_of_In, in_map, Ht. }
  assert (existsb (fun t => (nt_nodeId t =s nodeId) && (nt_status t =s tok_active)) (f_tokens s) = false) as ->; [|done].
  apply not_true_is_false. intros (t & Ht%list_elem_of_In & [E1%bool_decide_eq_true E2%bool_decide_eq_true]%andb_true_iff)%existsb_exists. by apply (Hn t).
Qed.

Lemma updateNodeRow_inv nodeId f s r s' : updateNodeRow nodeId f s = (r, s') ->
  (exists row, findId nodeId (f_nodes s) = Some row /\ acceptNode (f row) = Ok tt /\ r = Ok (f row) /\ s' = s <| f_nodes := updId nodeId (fun _ => f row) (f_nodes s) |>) \/
  (s' = s /\ exists e, r = Throw e /\ forall row, findId nodeId (f_nodes s) = Some row -> acceptNode (f row) <> Ok tt).
Proof.
  unfold updateNodeRow. rewrite bind_gets. unfold orThrow, mbind, M_bind, lift, modify, mret, M_ret.
  destruct (findId nodeId (f_nodes s)) as [row|] eqn:Ef; simpl; [|intros [= <- <-]; right; split; [done|]; by eexists].
  destruct (acceptNode (f row)) as [[]|e] eqn:Ea; intros [= <- <-].
  - left. exists row. rewrite <- (updId_const _ _ _ _ Ef). done.
  - right. split; [done|]. eexists. split; [done|]. intros row' [= <-]. by rewrite Ea.
Qed.

(** The rows after an agent was enrolled or its token renewed. *)
Definition enrolled (enc : string) (row row' : NodeRow) : Prop :=
  rid row' = rid row /\ dt_controlTokenEnc (fn_details row') = Some enc /\ (nodeWf row -> nodeWf row').

Lemma accept_online row row' : nd_config (fn_node row') = nd_config (fn_node row) ->
  nodeInts row' = nodeInts row -> (dt_healthStatus (fn_details row') = dt_healthStatus (fn_details row) \/ dt_healthStatus (fn_details row') = "online") ->
  dt_scheme (fn_details row') = dt_scheme (fn_details row) -> dt_capacityWarnPct (fn_details row') = dt_capacityWarnPct (fn_details row) ->
  dt_capacityHighPct (fn_details row') = dt_capacityHighPct (fn_details row) -> dt_capacityCriticalPct (fn_details row') = dt_capacityCriticalPct (fn_details row) ->
  nodeWf row -> nodeWf row'.
Proof.
  intros Ec Ei Eh Es E1 E2 E3 Hw. assert (acceptNode row' = Ok tt) as Ha.
  { assert (acceptNode row = Ok tt) as Ha by apply Hw. unfold acceptNode in *. rewrite Ei. destruct (negb (forallb _ _)); [done|].
    destruct (nodeRowOk row) eqn:Er; [|done]. assert (nodeRowOk row' = true) as ->; [|done]. unfold nodeRowOk in *. cbv zeta in *.
    rewrite Ec, Es, E1, E2, E3. apply andb_true_iff in Er as [Er Eh0]. rewrite Er. destruct Eh as [->| ->]; [by rewrite Eh0|]. by vm_compute. }
  unfold nodeWf in *. cbv zeta in *. rewrite Ec, E1, E2, E3. destruct_and! Hw. split_and!; try done; try lia.
  destruct Eh as [->| ->]; done.
Qed.

Definition issuedToken (nodeId : string) (n : N) : NodeToken :=
  mkNodeToken (uuidv7 (n + 3)) nodeId (random12 n) (argonHash (n + 2) (random36 (n + 1))) tok_active None None.

Definition issuedText (n : N) : string := random12 n +:+ "." +:+ random36 (n + 1).

Definition bootedRow (dto : BootstrapRequestDto) (enc : string) (r : NodeRow) : NodeRow :=
  onDetails (fun d => d <| dt_dockerVersion := patchNull (bd_dockerVersion dto) (dt_dockerVersion d) |> <| dt_healthStatus := "online" |>
    <| dt_controlTokenEnc := Some enc |>) (r <| fn_node := (fn_node r) <| nd_lastHeartbeatAt := Some now |> |>).

Lemma bootedRow_wf dto enc row : enrolled enc row (bootedRow dto enc row).
Proof. split; [done|]. split; [done|]. apply accept_online; try done. by right. Qed.

(** Revoking and creating a token in one go. *)
Lemma renew_core nodeId s n' row row' enc : CoreInv (core s) -> findId nodeId (f_nodes s) = Some row -> (f_next s + 3 < n')%N ->
  enc = encrypt (f_next s + 4) (issuedText (f_next s)) (controlTokenAad nodeId) \/ enc = encrypt (f_next s + 3) (issuedText (f_next s)) (controlTokenAad nodeId) ->
  enrolled enc row row' -> forall m1, (f_next s <= m1 < n')%N ->
  coreStep (core s) (mkCore (updId nodeId (fun _ => row') (f_nodes s))
    (updWhere (fun t => (nt_nodeId t =s nodeId) && (nt_status t =s tok_active)) (revoked now) (f_tokens s) ++
      [mkNodeToken (uuidv7 m1) nodeId (random12 (f_next s)) (argonHash (f_next s + 2) (random36 (f_next s + 1))) tok_active None None]) (f_redis s) n').
Proof.
  intros HI Hf Hn Henc (R1 & R2 & R3) m1 Hm1. destruct (findId_some _ _ _ Hf) as [_ Hid]. set (t := mkNodeToken _ _ _ _ _ _ _).
  apply (step_renew _ _ _ _ _ _ m1 (f_next s) t row row').
  - apply kept_where, revoked_kept.
  - intros x Hx. by eapply revoked_none.
  - done.
  - done.
  - done.
  - lia.
  - done.
  - change (rid row' = nodeId). congruence.
  - done.
  - destruct Henc as [->| ->]; eexists (f_next s), (f_next s + 1)%N, _, _; split_and!; [done|done|exact R2|done|done|exact R2].
Qed.

Lemma bind_assoc_run {A B C} (m : MF A) (f : A -> MF B) (g : B -> MF C) s : ((m ≫= f) ≫= g) s = (m ≫= (fun x => f x ≫= g)) s.
Proof. unfold mbind, M_bind. by destruct (m s) as [[x|e] s']. Qed.

Lemma completeBootstrap_inv nodeId dto s r s' : CoreInv (core s) -> completeBootstrap now nodeId dto s = (r, s') ->
  (findFirst (liveRow nodeId) (f_nodes s) = None /\ r = Throw (NotFound "Node no longer exists") /\ s' = s) \/
  (exists row, findFirst (liveRow nodeId) (f_nodes s) = Some row /\ r = Ok (nodeId, issuedText (f_next s), HEARTBEAT_INTERVAL_SECONDS) /\
     coreStep (core s) (core s') /\ f_redis s' = f_redis s /\
     (exists t, t ∈ f_tokens s' /\ nt_nodeId t = nodeId /\ nt_status t = tok_active /\ nt_tokenId t = random12 (f_next s))).
Proof.
  intros HI E. unfold completeBootstrap, issueCredential, storeCredential in E. rewrite bind_assoc_run, bind_gets, bind_assoc_run in E. apply bind_inv in E as [(e & Eo & ->)|(row & s1 & Eo & E)];
    unfold orThrow in Eo; destruct (findFirst (liveRow nodeId) (f_nodes s)) as [row0|] eqn:Ef; try done.
  { injection Eo as <- <-. by left. }
  injection Eo as <- <-. right. exists row0. split; [done|]. destruct (live_findId nodeId (f_nodes s) row0) as [Hf Hid]; [apply HI|done|].
  set (s1 := s <| f_tokens := updWhere (fun t => (nt_nodeId t =s nodeId) && (nt_status t =s tok_active)) (revoked now) (f_tokens s) |>).
  rewrite bind_assoc_run, (bind_run (revokeActive now nodeId) _ s tt s1 eq_refl), bind_assoc_run in E.
  rewrite (bind_run mintToken _ s1 (random12 (f_next s), random36 (f_next s + 1), argonHash (f_next s + 1 + 1) (random36 (f_next s + 1)))
    (s1 <| f_next := (f_next s + 1 + 1 + 1)%N |>) eq_refl) in E. set (s2 := s1 <| f_next := _ |>) in E. cbv zeta in E.
  rewrite bind_assoc_run in E. erewrite (bind_run _ _ s2 tt) in E; [|apply createNodeToken_run; [|intros x; apply revoked_none]].
  2: { destruct HI as (_ & _ & _ & _ & _ & _ & Hu). destruct (Hu (f_next s) ltac:(simpl; lia)) as (_ & _ & U & _). simpl in U.
       rewrite (kept_column nt_tokenId (f_tokens s)); [done| |apply kept_where, revoked_kept]. intros a b Hab. apply Hab. }
  erewrite (bind_run (mret _)) in E by reflexivity. erewrite (bind_run freshF) in E by reflexivity. apply bind_inv in E as [(e & Eu & ->)|(x & s3 & Eu & E)];
    apply updateNodeRow_inv in Eu as [(row & Hr & Ha & Hx & ->)|(-> & e' & Hx & Hno)]; simpl in *; try done.
  - exfalso. apply (Hno row0 Hf). destruct (bootedRow_wf dto (encrypt (f_next s + 1 + 1 + 1 + 1) (issuedText (f_next s)) (controlTokenAad nodeId)) row0) as (_ & _ & Hw).
    apply Hw. destruct HI as (Hall & _). rewrite Forall_forall in Hall. apply Hall. by apply findId_some in Hf as [? _].
  - injection E as <- <-. split; [done|]. split; [|split; [done|eexists; split; [apply elem_of_app; right; by apply list_elem_of_singleton|done]]].
    assert (row = row0) as -> by congruence. unfold core. simpl.
    replace (f_next s + 1 + 1)%N with (f_next s + 2)%N by lia. replace (f_next s + 2 + 1)%N with (f_next s + 3)%N by lia.
    replace (f_next s + 3 + 1)%N with (f_next s + 4)%N by lia.
    apply (renew_core nodeId s _ row0 _ (encrypt (f_next s + 4) (issuedText (f_next s)) (controlTokenAad nodeId))); [done|done|lia|by left|apply bootedRow_wf|lia].
Qed.

Lemma bootstrap_refines dto : keeps refines (bootstrap now dto).
Proof.
  unfold bootstrap, lookupBootstrap, redisGet. repeat keeps_step. unfold burnAndComplete. keeps_step; [apply redisDel_refines|].
  intros s r s' E HI. apply completeBootstrap_inv in E as [(_ & _ & ->)|(row & _ & _ & Hs & _)]; [done| |done]. by apply rtc_once.
Qed.

Definition renewedRow (enc : string) (r : NodeRow) : NodeRow := onDetails (fun d => d <| dt_controlTokenEnc := Some enc |>) r.

Lemma renewedRow_wf enc row : enrolled enc row (renewedRow enc row).
Proof. split; [done|]. split; [done|]. apply accept_online; try done. by left. Qed.

Lemma rotateSelf_inv nodeId s r s' row : CoreInv (core s) -> findId nodeId (f_nodes s) = Some row -> rotateSelf now nodeId s = (r, s') ->
  r = Ok (issuedText (f_next s)) /\ coreStep (core s) (core s') /\
  (exists t, t ∈ f_tokens s' /\ nt_nodeId t = nodeId /\ nt_status t = tok_active /\ nt_tokenId t = random12 (f_next s)).
Proof.
  intros HI Hf E. unfold rotateSelf in E.
  rewrite (bind_run mintToken _ s (random12 (f_next s), random36 (f_next s + 1), argonHash (f_next s + 1 + 1) (random36 (f_next s + 1)))
    (s <| f_next := (f_next s + 1 + 1 + 1)%N |>) eq_refl) in E. cbv zeta in E. set (s1 := s <| f_next := _ |>) in E.
  rewrite (bind_run freshF _ s1 (f_next s + 1 + 1 + 1)%N (s1 <| f_next := (f_next s + 1 + 1 + 1 + 1)%N |>) eq_refl) in E. set (s2 := s1 <| f_next := _ |>) in E.
  set (T' := updWhere (fun t => (nt_nodeId t =s nodeId) && (nt_status t =s tok_active)) (revoked now) (f_tokens s)).
  set (s3 := s2 <| f_tokens := T' |>). set (enc := encrypt (f_next s + 1 + 1 + 1) (issuedText (f_next s)) (controlTokenAad nodeId)).
  set (new := mkNodeToken (uuidv7 (f_next s + 1 + 1 + 1 + 1)) nodeId (random12 (f_next s)) (argonHash (f_next s + 1 + 1) (random36 (f_next s + 1))) tok_active None None).
  set (s4 := s3 <| f_next := (f_next s + 1 + 1 + 1 + 1 + 1)%N |> <| f_tokens := T' ++ [new] |>).
  assert ((revokeActive now nodeId ;; createNodeToken nodeId (random12 (f_next s)) (argonHash (f_next s + 1 + 1) (random36 (f_next s + 1))) ;;
    updateNodeRow nodeId (renewedRow enc)) s2 = (Ok (renewedRow enc row), s4 <| f_nodes := updId nodeId (fun _ => renewedRow enc row) (f_nodes s) |>)) as Et.
  { rewrite (bind_run (revokeActive now nodeId) _ s2 tt s3 eq_refl). rewrite (bind_run _ _ s3 tt s4).
    2: { apply createNodeToken_run; [|intros x; apply revoked_none]. destruct HI as (_ & _ & _ & _ & _ & _ & Hu).
         destruct (Hu (f_next s) ltac:(simpl; lia)) as (_ & _ & U & _). simpl in U.
         rewrite (kept_column nt_tokenId (f_tokens s)); [done| |apply kept_where, revoked_kept]. intros a b Hab. apply Hab. }
    destruct (updateNodeRow nodeId (renewedRow enc) s4) as [r0 s5] eqn:Eu. apply updateNodeRow_inv in Eu as [(x & Hx & _ & -> & ->)|(_ & e & _ & Hno)].
    - assert (x = row) as -> by (simpl in Hx; congruence). done.
    - exfalso. apply (Hno row Hf). destruct (renewedRow_wf enc row) as (_ & _ & Hw). apply Hw. destruct HI as (Hall & _). rewrite Forall_forall in Hall.
      apply Hall. by apply findId_some in Hf as [? _]. }
  rewrite (bind_run (asAdmin _) _ s2 (renewedRow enc row) (s4 <| f_nodes := updId nodeId (fun _ => renewedRow enc row) (f_nodes s) |>)) in E.
  2: { exact (asAdmin_ok _ _ _ _ Et). }
  unfold logF, mbind, M_bind, modify, mret, M_ret in E. injection E as <- <-. split; [done|].
  split; [|exists new; split; [apply elem_of_app; right; by apply list_elem_of_singleton|done]]. unfold core. simpl. unfold new, enc.
  replace (f_next s + 1 + 1)%N with (f_next s + 2)%N by lia. replace (f_next s + 2 + 1)%N with (f_next s + 3)%N by lia.
  apply (renew_core nodeId s _ row _ (encrypt (f_next s + 3) (issuedText (f_next s)) (controlTokenAad nodeId))); [done|done|lia|by right|apply renewedRow_wf|lia].
Qed.

(** *** The guard and the reports *)

(** The token the guard accepts a header for. *)
Definition accepts (header : option string) (T : list NodeToken) : option NodeToken :=
  presented ← extractBearerToken header;
  '(tokenId, secret) ← tokenParts presented;
  token ← findFirst (fun t => (nt_tokenId t =s tokenId) && (nt_status t =s tok_active)) T;
  if argonVerify (nt_tokenHash token) secret =s Some true then Some token else None.

Lemma canActivate_inv header s r s' : canActivateNode now header s = (r, s') ->
  match accepts header (f_tokens s) with
  | Some t => r = Ok (nt_nodeId t) /\ s' = s <| f_tokens := updId (nt_id t) (fun t => t <| nt_lastUsedAt := Some now |>) (f_tokens s) |>
  | None => (exists m, r = Throw (Unauthorized m)) /\ s' = s
  end.
Proof.
  unfold canActivateNode, accepts, orThrow, throwIf, gets, modify, mbind, M_bind, option_bind, mret, M_ret.
  destruct (extractBearerToken header) as [p|]; [|intros [= <- <-]; by eauto]. destruct (tokenParts p) as [[tid secret]|]; [|intros [= <- <-]; by eauto].
  destruct (findFirst _ (f_tokens s)) as [t|]; [|intros [= <- <-]; by eauto]. destruct (argonVerify (nt_tokenHash t) secret =s Some true); intros [= <- <-]; simpl; by eauto.
Qed.

Lemma accepts_elem header T t : accepts header T = Some t -> t ∈ T /\ nt_status t = tok_active.
Proof.
  unfold accepts, mbind, option_bind. destruct (extractBearerToken header); [|done]. destruct (tokenParts _) as [[tid secret]|]; [|done].
  destruct (findFirst _ T) as [u|] eqn:Ef; [|done]. apply findFirst_some in Ef as [Hu [_ Ha%bool_decide_eq_true]%andb_true_iff].
  destruct (_ =s _); [|done]. by intros [= <-].
Qed.

Lemma canActivate_refines header : keeps refines (canActivateNode now header).
Proof.
  intros s r s' E. apply canActivate_inv in E. destruct (accepts header (f_tokens s)) as [t|]; [|by destruct E as [_ ->]].
  destruct E as [_ ->]. intros _. apply rtc_once, step_tokens, kept_id. intros x. unfold tokenKept. by split_and!.
Qed.

Lemma remoteRotate_refines header : keeps refines (remoteRotate now header).
Proof.
  intros s r s' E. unfold remoteRotate in E. apply bind_inv in E as [(e & E & _)|(n & s1 & E1 & E)]; [by eapply canActivate_refines|].
  pose proof (canActivate_refines _ _ _ _ E1) as Hr. intros HI. etransitivity; [by apply Hr|]. pose proof (coreSteps_inv _ _ (Hr HI) HI) as HI1.
  apply canActivate_inv in E1. destruct (accepts header (f_tokens s)) as [t|] eqn:Ea; [|by destruct E1 as [[m Hm] _]].
  destruct E1 as [[= ->] ->]. apply accepts_elem in Ea as [Ht Hact]. destruct HI as (_ & _ & _ & _ & _ & Hc & _). destruct (Hc t Ht Hact) as (row & Hrow & _).
  apply rtc_once. by eapply (rotateSelf_inv (nt_nodeId t) _ r s' row).
Qed.

Lemma beat_wf `{Net} dto row : validHeartbeatDto dto = true -> acceptNode (beat now dto row) = Ok tt -> nodeWf row -> nodeWf (beat now dto row).
Proof.
  intros Hv Ha Hw. unfold validHeartbeatDto in Hv. rewrite !andb_true_iff in Hv. destruct_and! Hv. pose proof (acceptNode_spec _ Ha) as Hs.
  unfold nodeWf in *. cbv zeta in *. destruct_and! Hw. destruct_and! Hs. split_and!; try done; try lia.
  match goal with H : forall v, Some v ∈ _ -> 0 <= v |- _ => rename H into Hrep end.
  intros v. simpl. rewrite !elem_of_cons. intros [E|[E|[E|[E|E]]]]; [| | | |by apply not_elem_of_nil in E]; symmetry in E; eapply minOk_patchNull in E; eauto;
    intros n Hn; apply Hrep; rewrite <- Hn, !elem_of_cons; auto.
Qed.

Lemma sync_refines nodeId reported : keeps refines (syncServerPowerStates now nodeId reported).
Proof. unfold syncServerPowerStates. destruct (given reported); [by apply modify_same|apply keeps_ret, _]. Qed.

Lemma heartbeat_refines `{Net} nodeId dto : validHeartbeatDto dto = true -> keeps refines (heartbeat now nodeId dto).
Proof.
  intros Hv. unfold heartbeat. keeps_step; [keeps_step|]. keeps_step.
  - intros s r s' E. apply updateNodeRow_inv in E as [(row & Hf & Ha & _ & ->)|(-> & _)]; [|reflexivity]. intros _. apply rtc_once.
    destruct (findId_some _ _ _ Hf) as [_ Hid]. apply (node_step nodeId s row); [done|done| |done]. by apply beat_wf.
  - repeat first [apply logF_refines | apply sync_refines | progress keeps_step].
Qed.

Lemma inventory_refines nodeId uuids : keeps refines (reconcileNodeInventory now nodeId uuids).
Proof.
  unfold reconcileNodeInventory. repeat first [apply logF_refines | by apply modify_same | progress keeps_step].
Qed.

Lemma forceRotate_refines nodeId actor : keeps refines (forceRotate now nodeId actor).
Proof.
  unfold forceRotate, getNode. repeat first [apply revokeActive_refines | apply issue_refines | apply logF_refines | progress keeps_step].
Qed.

End Refine.

Section Fleet.
Context `{EnrolmentLaws} `{Net}.

(** A request of an administrator or an agent, with its validated body; [F_servers] stands
    for whatever the other services write to the servers meanwhile. *)
Inductive fleetStep (s s' : FleetState) : Prop :=
  | F_create dto actor r : validCreateNodeDto dto = true -> createNode dto actor s = (r, s') -> fleetStep s s'
  | F_update now id dto actor r : validUpdateNodeDto dto = true -> updateNode now id dto actor s = (r, s') -> fleetStep s s'
  | F_remove now id actor r : removeNode now id actor s = (r, s') -> fleetStep s s'
  | F_range id dto r : createRange id dto s = (r, s') -> fleetStep s s'
  | F_free id a r : removeAllocation id a s = (r, s') -> fleetStep s s'
  | F_issue now id actor r : issueBootstrapToken now id actor s = (r, s') -> fleetStep s s'
  | F_force now id actor r : forceRotate now id actor s = (r, s') -> fleetStep s s'
  | F_bootstrap now dto r : bootstrap now dto s = (r, s') -> fleetStep s s'
  | F_heartbeat now header dto r : validHeartbeatDto dto = true -> remoteHeartbeat now header dto s = (r, s') -> fleetStep s s'
  | F_rotate now header r : remoteRotate now header s = (r, s') -> fleetStep s s'
  | F_inventory now header uuids r : remoteInventory now header uuids s = (r, s') -> fleetStep s s'
  | F_servers l : s' = s <| f_servers := l |> -> fleetStep s s'.

#[local] Existing Instance refines_pre.

Lemma fleetStep_refines s s' : fleetStep s s' -> refines s s'.
Proof.
  intros [dto actor r Hv E|now id dto actor r Hv E|now id actor r E|id dto r E|id a r E|now id actor r E|now id actor r E|now dto r E|now header dto r Hv E|now header r E|now header uuids r E|l ->].
  - by eapply createNode_refines.
  - by eapply updateNode_refines.
  - by eapply removeNode_refines.
  - eapply keeps_same_core; [apply createRange_core|exact E].
  - eapply keeps_same_core; [apply removeAllocation_core|exact E].
  - by eapply issue_refines.
  - by eapply forceRotate_refines.
  - by eapply bootstrap_refines.
  - revert E. apply (keeps_bind refines); [by eapply canActivate_refines|intros n; by eapply heartbeat_refines].
  - by eapply remoteRotate_refines.
  - revert E. apply (keeps_bind refines); [by eapply canActivate_refines|intros n; by eapply inventory_refines].
  - by apply refines_same.
Qed.

Definition FleetInv (s : FleetState) : Prop := CoreInv (core s).

Lemma fleet_refines s s' : rtc fleetStep s s' -> refines s s'.
Proof. induction 1 as [|x y z Hs _ IH]; [reflexivity|]. by etransitivity; [apply fleetStep_refines|]. Qed.

Lemma fleet_inv s s' : rtc fleetStep s s' -> FleetInv s -> FleetInv s'.
Proof. intros Hs HI. eapply coreSteps_inv; [by apply (fleet_refines s s' Hs)|done]. Qed.

(** Whatever administrators and agents send, every node row stays one the capacity rules
    can work with (non-negative totals and reports; in manual mode a reserve within the total
    and no CPU overallocation without a CPU total; margins and alert levels in range and in
    order; every number within its column), and no two nodes share an id. *)
Theorem fleet_nodes_well_formed s s' : rtc fleetStep s s' -> FleetInv s -> Forall nodeWf (f_nodes s') /\ NoDup (map rid (f_nodes s')).
Proof. intros Hs HI. destruct (fleet_inv _ _ Hs HI) as (Hw & Hn & _). done. Qed.

(** What is accepted comes from an active token with a credential. *)
Lemma accepted_parts header T t : accepts header T = Some t -> exists p secret, extractBearerToken header = Some p /\
  tokenParts p = Some (nt_tokenId t, secret) /\ argonVerify (nt_tokenHash t) secret = Some true.
Proof.
  unfold accepts, mbind, option_bind. destruct (extractBearerToken header) as [p|]; [|done]. destruct (tokenParts p) as [[tid secret]|] eqn:Ep; [|done].
  destruct (findFirst _ T) as [u|] eqn:Ef; [|done]. apply findFirst_some in Ef as [Hu [Htid%bool_decide_eq_true Ha]%andb_true_iff].
  destruct (argonVerify (nt_tokenHash u) secret =s Some true) eqn:Ev; [|done]. apply bool_decide_eq_true in Ev. intros Et. injection Et as <-.
  exists p, secret. by rewrite Htid.
Qed.

(** Two headers with the same parts are treated alike. *)
Lemma accepts_parts h1 h2 T p1 p2 : extractBearerToken h1 = Some p1 -> extractBearerToken h2 = Some p2 -> tokenParts p1 = tokenParts p2 ->
  accepts h1 T = accepts h2 T.
Proof. unfold accepts. intros -> -> Ep. simpl. by rewrite Ep. Qed.

(** C9: when requests are handled one after the other, then in every state they lead to whoever
    the guard takes for a node presents the very credential the panel itself presents to that
    node's agent: the panel's stored copy decrypts to a token with the same two parts, and that
    token is accepted as the same node.  So one credential per node works, and both directions
    agree on it.  Two bootstraps of one node that overlap are outside the claim: a bootstrap is
    not one transaction, and [overlapping_bootstraps_split] shows what happens then. *)
Theorem node_credential_agrees s s' now header n s1 : rtc fleetStep s s' -> FleetInv s -> canActivateNode now header s' = (Ok n, s1) ->
  exists url token, baseURL n s' = (Ok (url, token), s') /\
    (extractBearerToken header ≫= tokenParts) = tokenParts token /\ canActivateNode now (Some ("Bearer " +:+ token)) s' = (Ok n, s1).
Proof.
  intros Hs HI E. pose proof (fleet_inv _ _ Hs HI) as (_ & _ & _ & _ & _ & Hc & _). apply canActivate_inv in E.
  destruct (accepts header (f_tokens s')) as [t|] eqn:Ea; [|by destruct E as [[m Hm] _]]. destruct E as [[= ->] ->].
  destruct (accepts_elem _ _ _ Ea) as [Ht Hact]. destruct (Hc t Ht Hact) as (row & Hrow & (i & j & k & l & C1 & C2 & C3)).
  destruct (accepted_parts _ _ _ Ea) as (p & secret & Ep & Epp & Ev). rewrite C2, argon_verifies in Ev. injection Ev as Ev%bool_decide_eq_true. subst secret.
  destruct (bearer_parts i j) as [B1 B2]. eexists _, (random12 i +:+ "." +:+ random36 j). split_and!.
  - unfold baseURL. rewrite bind_gets. simpl in Hrow. rewrite Hrow. unfold orThrow, mbind, M_bind, lift, mret, M_ret. rewrite C3, decrypt_encrypt. reflexivity.
  - rewrite Ep. simpl. by rewrite Epp, C1, B2.
  - destruct (canActivateNode now (Some ("Bearer " +:+ (random12 i +:+ "." +:+ random36 j))) s') as [r2 s2] eqn:E2. apply canActivate_inv in E2. rewrite (accepts_parts _ header _ _ p B1 Ep) in E2 by by rewrite B2, Epp, C1.
    rewrite Ea in E2. by destruct E2 as [-> ->].
Qed.

(** ** What never comes back *)

(** Later tokens and keys are earlier ones or new draws. *)
Definition grown (k k' : Core) : Prop :=
  (k_next k <= k_next k')%N /\
  (forall t', t' ∈ k_tokens k' -> (exists t, t ∈ k_tokens k /\ tokenKept t t') \/ exists m, (k_next k <= m)%N /\ nt_tokenId t' = random12 m) /\
  (forall key v, k_redis k' !! key = Some v -> k_redis k !! key = Some v \/ exists m, (k_next k <= m)%N /\ key = bootstrapKey m).

#[local] Instance grown_pre : PreOrder grown.
Proof.
  split.
  - intros k. split; [lia|]. split; [|by auto]. intros t Ht. left. by exists t.
  - intros a b c (N1 & T1 & R1) (N2 & T2 & R2). split; [lia|]. split.
    + intros t Ht. apply T2 in Ht as [(u & Hu & K)|(m & Hm & E)]; [|right; exists m; split; [lia|done]].
      apply T1 in Hu as [(v & Hv & K')|(m & Hm & E)]; [left; exists v; split; [done|by etransitivity]|]. right. exists m. split; [done|].
      destruct K as (_ & -> & _). done.
    + intros key v Hk. apply R2 in Hk as [Hk|(m & Hm & E)]; [|right; exists m; split; [lia|done]]. by apply R1.
Qed.

Lemma coreStep_grown k k' : coreStep k k' -> grown k k'.
Proof.
  assert (forall T T' t', Forall2 tokenKept T T' -> t' ∈ T' -> exists t, t ∈ T /\ tokenKept t t') as Hk by (intros; by eapply kept_elem).
  intros [N T R i j Hij|N T R i id row row' _ _ _ _|N T R i m j row _ _ Hm|N T T' R i HF|N T T' R i j m1 m2 u row row' HF _ _ Etid Hm1 Hm2 _ _ _ _|N T R i m j v Hm|N T R i key];
    unfold grown; simpl; split_and!; try lia; auto; try (intros t Ht; left; exists t; split; [done|reflexivity]).
  - intros t Ht. left. by eapply Hk.
  - intros t [Ht|Ht%list_elem_of_singleton]%elem_of_app; [left; by eapply Hk|]. right. exists m2. subst t. split; [lia|done].
  - intros key w. destruct (decide (bootstrapKey m = key)) as [<-|Hne]; [|rewrite lookup_insert_ne by done; auto]. intros _. right. exists m. split; [lia|done].
  - intros key' w [_ Hw]%lookup_delete_Some. auto.
Qed.

Lemma coreSteps_grown k k' : rtc coreStep k k' -> grown k k'.
Proof. induction 1 as [|x y z Hs _ IH]; [reflexivity|]. etransitivity; [by apply coreStep_grown|done]. Qed.

Lemma fleet_grown s s' : rtc fleetStep s s' -> FleetInv s -> grown (core s) (core s').
Proof. intros Hs HI. apply coreSteps_grown, (fleet_refines s s' Hs HI). Qed.

(** No token with this id is active, and none will be drawn. *)
Definition deadToken (tid : string) (k : Core) : Prop :=
  (forall t, t ∈ k_tokens k -> nt_tokenId t = tid -> nt_status t <> tok_active) /\ (forall m, (k_next k <= m)%N -> random12 m <> tid).

Lemma dead_grown tid k k' : grown k k' -> deadToken tid k -> deadToken tid k'.
Proof.
  intros (Hn & Ht & _) [D1 D2]. split; [|intros m Hm; apply D2; lia]. intros t Hin Hid Hact.
  apply Ht in Hin as [(u & Hu & (K1 & K2 & K3 & K4 & K5))|(m & Hm & Hr)]; [|by apply (D2 m Hm); rewrite <- Hr].
  apply (D1 u Hu); [congruence|by apply K5].
Qed.

Lemma dead_refused tid secret p header k s now : deadToken tid k -> core s = k -> extractBearerToken header = Some p -> tokenParts p = Some (tid, secret) ->
  exists m, canActivateNode now header s = (Throw (Unauthorized m), s).
Proof.
  intros [D1 _] Ek Ep Epp. destruct (canActivateNode now header s) as [r s'] eqn:E. apply canActivate_inv in E.
  destruct (accepts header (f_tokens s)) as [t|] eqn:Ea; [|destruct E as [[m ->] ->]; by exists m].
  exfalso. destruct (accepts_elem _ _ _ Ea) as [Ht Hact]. destruct (accepted_parts _ _ _ Ea) as (p' & secret' & Ep' & Epp' & _).
  assert (nt_tokenId t = tid) as Hid by congruence. subst k. by apply (D1 t).
Qed.

Lemma bootstrap_ok_inv now dto s x s' : bootstrap now dto s = (Ok x, s') ->
  exists nodeId, (f_redis s !! bootstrapRedisKey (bd_token dto) <> None) /\
    completeBootstrap now nodeId dto (s <| f_redis := delete (bootstrapRedisKey (bd_token dto)) (f_redis s) |>) = (Ok x, s').
Proof.
  unfold bootstrap, lookupBootstrap, redisGet, burnAndComplete, redisDel. intros E. apply bind_inv in E as [(e & _ & [=])|(id & s1 & E1 & E)]. exists id.
  unfold mbind, M_bind, gets, mret, M_ret, orThrow, modify in *. destruct (f_redis s !! bootstrapRedisKey (bd_token dto)) as [[v ex]|]; [|done].
  destruct (now <? ex); [|done]. injection E1 as <- <-. done.
Qed.

(** A request after which the credential of a node is another one or none. *)
Inductive supersedes (n : string) (s s' : FleetState) : Prop :=
  | S_force now actor x : forceRotate now n actor s = (Ok x, s') -> supersedes n s s'
  | S_bootstrap now dto token interval : bootstrap now dto s = (Ok (n, token, interval), s') -> supersedes n s s'
  | S_rotate now header s1 token : canActivateNode now header s = (Ok n, s1) -> rotateSelf now n s1 = (Ok token, s') -> supersedes n s s'.

(** A new active token of a node takes the place of the one before. *)
Lemma replaced_dead n t k k' u : CoreInv k -> CoreInv k' -> grown k k' -> t ∈ k_tokens k -> nt_nodeId t = n -> nt_status t = tok_active ->
  (u ∈ k_tokens k' /\ nt_nodeId u = n /\ nt_status u = tok_active /\ exists m, (k_next k <= m)%N /\ nt_tokenId u = random12 m) \/
  (forall x, x ∈ k_tokens k' -> nt_nodeId x = n -> nt_status x <> tok_active) -> deadToken (nt_tokenId t) k'.
Proof.
  intros HI HI' HG Ht Hn Ha Hnew. assert (forall m, (k_next k <= m)%N -> random12 m <> nt_tokenId t) as Hfr.
  { intros m Hm E. destruct HI as (_ & _ & _ & _ & _ & _ & Hu). destruct (Hu m Hm) as (_ & _ & U & _). apply U. rewrite E.
    apply list_elem_of_In, in_map. by apply list_elem_of_In. }
  pose proof HG as (Hnext & HT & _). split; [|intros m Hm; apply Hfr; lia]. intros x Hx Hid Hact.
  assert (nt_nodeId x = n) as Hxn.
  { apply HT in Hx as [(y & Hy & (K1 & K2 & K3 & K4 & K5))|(m & Hm & E)]; [|by destruct (Hfr m Hm); congruence].
    assert (y = t) as ->; [|congruence]. destruct HI as (_ & _ & _ & Hd & _). apply (NoDup_map_inj nt_tokenId (k_tokens k)); [done|done|done|congruence]. }
  destruct Hnew as [(Hu & Hun & Hua & m & Hm & Hum)|Hnone]; [|by apply (Hnone x)].
  destruct HI' as (_ & _ & _ & _ & Ho & _). assert (x = u) as -> by (apply Ho; auto; congruence). apply (Hfr m Hm). congruence.
Qed.

Lemma revoked_all now n s s1 : revokeActive now n s = (Ok tt, s1) -> forall x, x ∈ f_tokens s1 -> nt_nodeId x = n -> nt_status x <> tok_active.
Proof. intros [= <-] x. simpl. apply revoked_none. Qed.

Lemma issue_tokens now n actor s r s' : issueBootstrapToken now n actor s = (r, s') -> f_tokens s' = f_tokens s.
Proof.
  unfold issueBootstrapToken. intros E. apply bind_inv in E as [(e & [-> _]%getNode_inv & _)|(row & s1 & [-> Hf]%getNode_inv & E)]; [done|].
  unfold freshF, redisSetEx, logF, mbind, M_bind, modify, mret, M_ret in E. by injection E as <- <-.
Qed.

Lemma force_none now n actor s x s' : forceRotate now n actor s = (Ok x, s') -> forall t, t ∈ f_tokens s' -> nt_nodeId t = n -> nt_status t <> tok_active.
Proof.
  unfold forceRotate. intros E. apply bind_inv in E as [(e & _ & [=])|(row & s1 & [-> Hf]%getNode_inv & E)].
  apply bind_inv in E as [(e & [=] & _)|([] & s1 & Er & E)]. apply bind_inv in E as [(e & [=] & _)|([] & s2 & [= <-] & E)].
  apply issue_tokens in E. simpl in E. rewrite E. by eapply revoked_all.
Qed.

Lemma supersedes_dead n s s' t : FleetInv s -> supersedes n s s' -> t ∈ f_tokens s -> nt_nodeId t = n -> nt_status t = tok_active ->
  FleetInv s' /\ deadToken (nt_tokenId t) (core s').
Proof.
  intros HI Hs Ht Hn Ha. destruct Hs as [now actor x E|now dto token iv E|now header s1 token E1 E].
  - pose proof (forceRotate_refines now n actor s _ s' E HI) as Hc. pose proof (coreSteps_inv _ _ Hc HI) as HI'. split; [done|].
    eapply (replaced_dead n t (core s) _ t); [done|done|by apply coreSteps_grown|done|done|done|]. right. by eapply force_none.
  - pose proof (bootstrap_refines now dto s _ s' E HI) as Hc. pose proof (coreSteps_inv _ _ Hc HI) as HI'. split; [done|].
    apply bootstrap_ok_inv in E as (id & _ & E).
    apply completeBootstrap_inv in E as [(_ & [=] & _)|(row & _ & [= <- _ _] & _ & _ & (u & Hu & Hun & Hua & Hut))];
      [|by eapply coreSteps_inv; [apply rtc_once, (step_burn _ _ _ _ (bootstrapRedisKey (bd_token dto)))|exact HI]].
    eapply (replaced_dead _ t (core s) _ u); [done|done|by apply coreSteps_grown|done|done|done|]. left. split_and!; [done|done|done|]. exists (f_next s). split; [simpl; lia|done].
  - pose proof (canActivate_refines now header s _ s1 E1 HI) as Hc1. pose proof (coreSteps_inv _ _ Hc1 HI) as HI1.
    apply canActivate_inv in E1. destruct (accepts header (f_tokens s)) as [v|] eqn:Ea; [|by destruct E1 as [[m Hm] _]]. destruct E1 as [[= Hvn] ->].
    destruct (accepts_elem _ _ _ Ea) as [Hv Hva]. pose proof HI as (_ & _ & _ & _ & _ & Hcr & _). destruct (Hcr v Hv Hva) as (row & Hrow & _).
    eapply (rotateSelf_inv now n _ _ s' row) in E as (_ & Hst & (u & Hu & Hun & Hua & Hut)); [|exact HI1|by subst n].
    pose proof (coreStep_inv _ _ Hst HI1) as HI'. split; [done|].
    eapply (replaced_dead _ t (core s) _ u); [done|done|by etransitivity; [apply coreSteps_grown|apply coreStep_grown]|done|done|done|].
    left. split_and!; [done|done|done|]. exists (f_next s). split; [simpl; lia|done].
Qed.

(** A superseded node credential is dead for good.  Once an administrator has forced a
    rotation, the node was bootstrapped again or it renewed its token, the header that was
    accepted for it before is refused with 401 in every later state, and changes nothing. *)
Theorem superseded_credential_dead s s1 s2 now now' header n s0 : FleetInv s -> canActivateNode now header s = (Ok n, s0) ->
  supersedes n s s1 -> rtc fleetStep s1 s2 -> exists m, canActivateNode now' header s2 = (Throw (Unauthorized m), s2).
Proof.
  intros HI E Hsup Hs. apply canActivate_inv in E. destruct (accepts header (f_tokens s)) as [t|] eqn:Ea; [|by destruct E as [[m Hm] _]].
  destruct E as [[= Hn] _]. destruct (accepts_elem _ _ _ Ea) as [Ht Ha]. destruct (supersedes_dead n s s1 t HI Hsup Ht (eq_sym Hn) Ha) as [HI1 Hd].
  destruct (accepted_parts _ _ _ Ea) as (p & secret & Ep & Epp & _). eapply dead_refused; [|reflexivity|exact Ep|exact Epp].
  by eapply dead_grown; [apply fleet_grown|].
Qed.

(** A bootstrap token works once.  After a bootstrap with it succeeded, whatever requests
    follow, presenting the token again is refused with 401 and changes nothing. *)
Theorem bootstrap_token_single_use s s1 s2 now now' dto dto' x : FleetInv s -> bootstrap now dto s = (Ok x, s1) -> rtc fleetStep s1 s2 ->
  bd_token dto' = bd_token dto -> bootstrap now' dto' s2 = (Throw (Unauthorized "Invalid or expired bootstrap token"), s2).
Proof.
  intros HI E Hs Hd. pose proof (bootstrap_refines now dto s _ s1 E HI) as Hc. pose proof (coreSteps_inv _ _ Hc HI) as HI1.
  set (key := bootstrapRedisKey (bd_token dto)). assert (f_redis s !! key <> None /\ f_redis s1 !! key = None) as [Hin Hout].
  { apply bootstrap_ok_inv in E as (id & Hin & E). split; [done|].
    apply completeBootstrap_inv in E as [(_ & [=] & _)|(row & _ & _ & _ & Er & _)]; [rewrite Er; apply lookup_delete_eq|].
    by eapply coreSteps_inv; [apply rtc_once, (step_burn _ _ _ _ key)|exact HI]. }
  assert (f_redis s2 !! key = None) as Hn.
  { destruct (fleet_grown s1 s2 Hs HI1) as (_ & _ & HR). destruct (f_redis s2 !! key) as [v|] eqn:Ev; [|done].
    apply HR in Ev as [Ev|(m & Hm & Em)]; [simpl in Ev; congruence|]. destruct (coreSteps_grown _ _ Hc) as (Hle & _).
    destruct HI as (_ & _ & _ & _ & _ & _ & Hu). destruct (Hu m ltac:(simpl in *; lia)) as (_ & _ & _ & U). simpl in U. rewrite <- Em in U. done. }
  unfold bootstrap, lookupBootstrap, redisGet. rewrite Hd. fold key. unfold mbind, M_bind, gets, mret, M_ret, orThrow. by rewrite Hn.
Qed.

End Fleet.

(** ** Reports *)

Section Reports.
Context `{Platform} `{Secrets} `{NodeSecrets} (now : Z).

Inductive AgentReport := Beat (dto : HeartbeatDto) | Inventory (serverUuids : list string).

Definition report (header : option string) (rep : AgentReport) : MF unit :=
  match rep with
  | Beat dto => remoteHeartbeat now header dto ;; mret tt
  | Inventory uuids => remoteInventory now header uuids ;; mret tt
  end.

(** What a report of node [n] may do to a server: nothing, or, on that node, set the reported
    power state or fail an installation the node has not got after the grace period. *)
Definition spokenFor (n : string) (rep : AgentReport) (h h' : HostedServer) : Prop :=
  h' = h \/ sv_nodeId (hs_server h) = n /\
  match rep with
  | Beat dto => exists l st, hb_servers dto = Val l /\ (sv_id (hs_server h), st) ∈ l /\ h' = mkHosted ((hs_server h) <| sv_powerState := st |>) now (Some now)
  | Inventory uuids => sv_status (hs_server h) = Srv_installing /\ (sv_id (hs_server h) ∉ uuids) /\ hs_updatedAt h < now - INVENTORY_GRACE_MS /\
      h' = mkHosted ((hs_server h) <| sv_status := Srv_install_failed |>) now (hs_powerStateAt h)
  end.

(** The settings of a node, as opposed to what it reports. *)
Definition settings (r : NodeRow) :=
  let n := fn_node r in let c := nd_config n in
  (nd_id n, nd_name n, nd_locationId n, nd_deletedAt n, nd_maintenanceMode n, nd_isPublic n, nd_reservedForPlansAbovePriceCents n,
   nc_inputs c, capacityMode c, (memorySafetyMarginPct c, diskSafetyMarginPct c, cpuSafetyMarginPct c), dt_controlTokenEnc (fn_details r)).

Lemma addToState_sound uuid state groups st ids id : (st, ids) ∈ addToState uuid state groups -> id ∈ ids ->
  (id = uuid /\ st = state) \/ exists ids', (st, ids') ∈ groups /\ id ∈ ids'.
Proof.
  induction groups as [|[st0 ids0] groups IH]; simpl.
  - intros [= -> ->]%list_elem_of_singleton Hid%list_elem_of_singleton. by left.
  - destruct (st0 =s state) eqn:E.
    + apply bool_decide_eq_true in E. subst st0. intros [[= -> ->]|Hin]%elem_of_cons Hid.
      * apply elem_of_app in Hid as [Hid|Hid%list_elem_of_singleton]; [right; exists ids0; split; [apply elem_of_cons; by left|done]|by left].
      * right. exists ids. split; [apply elem_of_cons; by right|done].
    + intros [[= -> ->]|Hin]%elem_of_cons Hid; [right; exists ids0; split; [apply elem_of_cons; by left|done]|].
      destruct (IH Hin Hid) as [?|(ids' & G1 & G2)]; [by left|]. right. exists ids'. split; [apply elem_of_cons; by right|done].
Qed.

Lemma byState_sound l st ids id : (st, ids) ∈ byState l -> id ∈ ids -> (id, st) ∈ l.
Proof.
  unfold byState. assert (forall groups, (forall st ids id, (st, ids) ∈ groups -> id ∈ ids -> (id, st) ∈ l) -> forall l', (forall r, r ∈ l' -> r ∈ l) ->
    (st, ids) ∈ fold_left (fun groups r => addToState (fst r) (snd r) groups) l' groups -> id ∈ ids -> (id, st) ∈ l) as Hg.
  2: { apply (Hg []); [|done]. intros ? ? ? Hn. by apply not_elem_of_nil in Hn. }
  intros groups Hgr l'. revert groups Hgr. induction l' as [|[u s0] l' IH]; intros groups Hgr Hsub; simpl; [apply Hgr|].
  apply IH; [|intros r Hr; apply Hsub, elem_of_cons; by right].
  intros st' ids' id' Hin Hid. destruct (addToState_sound _ _ _ _ _ _ Hin Hid) as [[-> ->]|(ids'' & G1 & G2)]; [apply Hsub, elem_of_cons; by left|by eapply Hgr].
Qed.

Lemma sync_servers n l hs : Forall2 (fun h h' => h' = h \/ sv_nodeId (hs_server h) = n /\ exists st, (sv_id (hs_server h), st) ∈ l /\
    h' = mkHosted ((hs_server h) <| sv_powerState := st |>) now (Some now)) hs (fold_left (fun hs g => map (inState now n g) hs) (byState l) hs).
Proof.
  set (P := fun h h' => _). assert (forall gs, (forall g, g ∈ gs -> g ∈ byState l) -> forall ks, Forall2 P hs ks ->
    Forall2 P hs (fold_left (fun hs g => map (inState now n g) hs) gs ks)) as Hg.
  2: { apply Hg; [done|]. apply Forall_Forall2_diag, Forall_forall. intros h _. by left. }
  induction gs as [|g gs IH]; intros Hsub ks Hk; simpl; [done|]. apply IH; [intros g' Hg'; apply Hsub, elem_of_cons; by right|].
  apply Forall2_fmap_r. eapply Forall2_impl; [exact Hk|]. intros h h' Hp. change (P h (inState now n g h')). unfold inState.
  destruct (bool_decide (sv_id (hs_server h') ∈ snd g) && (sv_nodeId (hs_server h') =s n) && negb (sv_powerState (hs_server h') =s fst g)) eqn:E; [|done].
  apply andb_true_iff in E as [[Hid%bool_decide_eq_true Hn%bool_decide_eq_true]%andb_true_iff _].
  assert ((sv_id (hs_server h'), fst g) ∈ l) as Hin by (destruct g as [st ids]; eapply byState_sound; [apply Hsub, elem_of_cons; by left|done]).
  right. destruct Hp as [->|(Hn' & st & _ & ->)]; split; try done; exists (fst g); split; done.
Qed.

Lemma heartbeat_effect n dto s r s' : heartbeat now n dto s = (r, s') ->
  (map settings (f_nodes s') = map settings (f_nodes s) /\ (forall id, id <> n -> findId id (f_nodes s') = findId id (f_nodes s)) /\
   f_allocations s' = f_allocations s /\ f_tokens s' = f_tokens s /\ Forall2 (spokenFor n (Beat dto)) (f_servers s) (f_servers s')).
Proof.
  unfold heartbeat. rewrite bind_gets. intros E. assert (forall hs, Forall2 (spokenFor n (Beat dto)) hs hs) as Hrefl.
  { intros hs. apply Forall_Forall2_diag, Forall_forall. intros h _. by left. }
  apply bind_inv in E as [(e & Eu & ->)|(node & s1 & Eu & E)]; apply updateNodeRow_inv in Eu as [(row & Hf & Ha & Hr & Hs1)|(Hs1 & e' & Hr & _)]; try done; subst.
  { split_and!; done. }
  injection Hr as ->. assert (f_nodes s' = updId n (fun _ => beat now dto row) (f_nodes s) /\ f_allocations s' = f_allocations s /\ f_tokens s' = f_tokens s /\
    Forall2 (spokenFor n (Beat dto)) (f_servers s) (f_servers s')) as (E1 & E2 & E3 & E4).
  { rewrite Hf in E. assert (exists s2, (f_nodes s2, f_allocations s2, f_tokens s2, f_servers s2) = (updId n (fun _ => beat now dto row) (f_nodes s), f_allocations s, f_tokens s, f_servers s) /\
      (syncServerPowerStates now n (hb_servers dto) ;; mret (deriveHealthStatus now (nd_lastHeartbeatAt (fn_node (beat now dto row))))) s2 = (r, s')) as (s2 & Es2 & E2).
    { apply bind_inv in E as [(e & Eb & _)|([] & s2 & Eb & E)]; destruct (_ =s _); try done; injection Eb as <-; eexists; (split; [|exact E]); done. }
    injection Es2 as N1 N2 N3 N4. unfold syncServerPowerStates in E2. destruct (hb_servers dto) as [| |l] eqn:El; simpl in E2;
      [injection E2 as <- <-; rewrite N1, N2, N3, N4; done|injection E2 as <- <-; rewrite N1, N2, N3, N4; done|].
    unfold mbind, M_bind, modify in E2. injection E2 as <- <-. simpl. rewrite N1, N2, N3, N4. split_and!; try done.
    eapply Forall2_impl; [apply (sync_servers n l)|]. intros h h' [->|(Hn & st & Hin & ->)]; [by left|]. right. split; [done|]. exists l, st. done. }
  destruct (findId_some _ _ _ Hf) as [_ Hid]. split_and!; try done.
  - rewrite E1. clear -Hf. unfold findId, findFirst, updId in *. induction (f_nodes s) as [|x l IH]; simpl in *; [done|].
    destruct (rid x =s n); simpl; [by injection Hf as ->|by rewrite IH].
  - intros id Hne. rewrite E1, (findId_replace _ _ _ _ _ Hf) by done. by rewrite bool_decide_eq_false_2.
Qed.

Lemma inventory_effect n uuids s r s' : NoDup (map (fun h => sv_id (hs_server h)) (f_servers s)) -> reconcileNodeInventory now n uuids s = (r, s') ->
  f_nodes s' = f_nodes s /\ f_allocations s' = f_allocations s /\ f_tokens s' = f_tokens s /\ Forall2 (spokenFor n (Inventory uuids)) (f_servers s) (f_servers s').
Proof.
  intros Hnd. unfold reconcileNodeInventory. rewrite bind_gets. cbv zeta. set (stuck := List.filter _ (List.filter _ _)). intros E.
  apply bind_inv in E as [(e & [=] & _)|([] & s1 & [= <-] & E)].
  assert (keeps (same (fun s => (f_nodes s, f_allocations s, f_tokens s, f_servers s)))
    (forEach (List.filter (missingFrom now n uuids) (f_servers s)) (fun h => logF "node.inventory.server_missing" None "server" (sv_id (hs_server h))) ;;
     mret (Z.of_nat (List.length (List.filter (missingFrom now n uuids) (f_servers s)))))) as K.
  { repeat first [by intros ? ? ? [= <- <-] | progress keeps_step]. }
  apply K in E. unfold same in E. simpl in E. injection E as -> -> -> ->. split_and!; try done.
  apply Forall2_fmap_r, Forall_Forall2_diag, Forall_forall. intros h Hh. set (ids := map _ stuck).
  change (spokenFor n (Inventory uuids) h (failInstall now n ids h)). unfold failInstall.
  destruct (bool_decide (sv_id (hs_server h) ∈ ids) && (sv_nodeId (hs_server h) =s n) && (sv_status (hs_server h) =s Srv_installing)) eqn:Ec; [|by left].
  apply andb_true_iff in Ec as [[Hid%bool_decide_eq_true Hn%bool_decide_eq_true]%andb_true_iff Hst%bool_decide_eq_true].
  apply list_elem_of_fmap in Hid as (x & Ex & Hx). apply list_elem_of_In, filter_In in Hx as [Hx _]. apply filter_In in Hx as [Hx Hm].
  assert (h = x) as <- by (eapply (NoDup_map_inj (fun h => sv_id (hs_server h))); [done|done|by apply list_elem_of_In|done]).
  unfold missingFrom in Hm. cbv zeta in Hm. rewrite !andb_true_iff in Hm. destruct Hm as (((_ & _) & Hold) & Hmiss).
  right. split; [done|]. split_and!; [done| |lia|done]. by apply negb_true_iff, bool_decide_eq_false in Hmiss.
Qed.

(** C12: an agent speaks only for its own node.  A report with a header the guard refuses is
    answered 401 and changes nothing; otherwise it leaves every other node, all settings of
    its own and every port alone, and of the servers it touches only its own, setting the
    power state it reported or failing an installation it does not have once the grace
    period has passed.  A server it does not mention is left as it was. *)
Theorem agent_speaks_for_its_node header rep s r s' : NoDup (map (fun h => sv_id (hs_server h)) (f_servers s)) -> report header rep s = (r, s') ->
  (exists m, r = Throw (Unauthorized m) /\ s' = s) \/
  (exists n s1, canActivateNode now header s = (Ok n, s1) /\ map settings (f_nodes s') = map settings (f_nodes s) /\
     (forall id, id <> n -> findId id (f_nodes s') = findId id (f_nodes s)) /\ f_allocations s' = f_allocations s /\
     Forall2 (spokenFor n rep) (f_servers s) (f_servers s')).
Proof.
  intros Hnd E. destruct (canActivateNode now header s) as [[n|e] s1] eqn:Eg.
  - right. exists n, s1. split; [done|]. assert (f_nodes s1 = f_nodes s /\ f_allocations s1 = f_allocations s /\ f_servers s1 = f_servers s) as (N1 & N2 & N3).
    { apply canActivate_inv in Eg. destruct (accepts header (f_tokens s)); destruct Eg as [_ ->]; done. }
    rewrite <- N1, <- N2, <- N3. destruct rep as [dto|uuids]; simpl in E; unfold remoteHeartbeat, remoteInventory in E.
    + assert (exists r0, heartbeat now n dto s1 = (r0, s')) as [r0 Eh].
      { unfold mbind, M_bind in E. rewrite Eg in E. destruct (heartbeat now n dto s1) as [[] ?]; injection E as _ <-; eauto. }
      apply heartbeat_effect in Eh as (G1 & G2 & G3 & _ & G5). done.
    + assert (exists r0, reconcileNodeInventory now n uuids s1 = (r0, s')) as [r0 Eh].
      { unfold mbind, M_bind in E. rewrite Eg in E. destruct (reconcileNodeInventory now n uuids s1) as [[] ?]; injection E as _ <-; eauto. }
      apply inventory_effect in Eh as (-> & -> & _ & G5); [|by rewrite N3]. done.
  - left. assert (r = Throw e /\ s' = s1) as [-> ->].
    { destruct rep; simpl in E; unfold remoteHeartbeat, remoteInventory, mbind, M_bind in E; rewrite Eg in E; by injection E as <- <-. }
    apply canActivate_inv in Eg. destruct (accepts header (f_tokens s)); [by destruct Eg as [[=] _]|]. destruct Eg as [[m [= ->]] ->]. by exists m.
Qed.

End Reports.

(** ** Ports *)

Section Ports.
Context `{Net}.

Definition portKey (a : AllocationRow) : string * string * Z :=
  (al_nodeId (ar_allocation a), al_ip (ar_allocation a), al_port (ar_allocation a)).

Definition hasPort (nodeId ip : string) (port : Z) (rows : list AllocationRow) : Prop := (nodeId, ip, port) ∈ map portKey rows.

Lemma hasPort_row nodeId ip port rows : hasPort nodeId ip port rows <-> exists a, a ∈ rows /\ atPort nodeId ip a = true /\ al_port (ar_allocation a) = port.
Proof.
  unfold hasPort. split.
  - intros (a & E & Ha)%list_elem_of_fmap. injection E as -> -> ->. exists a. split_and!; [done| |done]. unfold atPort. by rewrite !bool_decide_eq_true_2.
  - intros (a & Ha & [E1%bool_decide_eq_true E2%bool_decide_eq_true]%andb_true_iff & <-). apply list_elem_of_fmap. exists a. split; [|done]. unfold portKey. by rewrite E1, E2.
Qed.

Lemma elem_ports lo hi port : port ∈ portsFrom lo hi <-> lo <= port <= hi.
Proof.
  unfold portsFrom. rewrite list_elem_of_In, in_map_iff. split.
  - intros (k & <- & Hk%in_seq). lia.
  - intros Hp. exists (Z.to_nat (port - lo)). split; [lia|]. apply in_seq. lia.
Qed.

Lemma NoDup_ports lo hi : NoDup (portsFrom lo hi).
Proof. unfold portsFrom. apply NoDup_fmap_2; [intros x y E; lia|]. apply NoDup_ListNoDup, seq_NoDup. Qed.

Lemma length_ports lo hi : Z.of_nat (List.length (portsFrom lo hi)) = Z.max 0 (hi - lo + 1).
Proof. unfold portsFrom. rewrite List.length_map, List.length_seq. lia. Qed.

(** The rows a range request adds. *)
Fixpoint newRows (seq : Z) (nodeId ip : string) (alias : option string) (ports : list Z) : list AllocationRow :=
  match ports with
  | [] => []
  | p :: ports' => mkAllocationRow (mkAllocation seq nodeId ip p None false) alias :: newRows (seq + 1) nodeId ip alias ports'
  end.

Lemma newRows_keys seq nodeId ip alias ports : map portKey (newRows seq nodeId ip alias ports) = map (fun p => (nodeId, ip, p)) ports.
Proof. revert seq. induction ports as [|p ports IH]; intros seq; simpl; [done|]. by rewrite IH. Qed.

Lemma newRows_free seq nodeId ip alias ports a : a ∈ newRows seq nodeId ip alias ports ->
  al_nodeId (ar_allocation a) = nodeId /\ al_ip (ar_allocation a) = ip /\ al_port (ar_allocation a) ∈ ports /\ al_serverId (ar_allocation a) = None /\ ar_ipAlias a = alias.
Proof.
  revert seq. induction ports as [|p ports IH]; intros seq; simpl; [by intros ?%not_elem_of_nil|].
  intros [->|Ha]%elem_of_cons; [split_and!; try done; apply elem_of_cons; by left|]. destruct (IH _ Ha) as (? & ? & ? & ? & ?). split_and!; try done. apply elem_of_cons. by right.
Qed.

Lemma insertAll_run nodeId ip alias ports : forall s, NoDup ports -> (forall p, p ∈ ports -> ~ hasPort nodeId ip p (f_allocations s)) ->
  forEach ports (insertAllocation nodeId ip alias) s =
  (Ok tt, s <| f_allocations := f_allocations s ++ newRows (f_allocationSeq s) nodeId ip alias ports |> <| f_allocationSeq := f_allocationSeq s + Z.of_nat (List.length ports) |>).
Proof.
  induction ports as [|p ports IH]; intros s Hnd Hno; cbn [forEach].
  - unfold mret, M_ret. simpl. rewrite app_nil_r, Z.add_0_r. by destruct s.
  - apply NoDup_cons in Hnd as [Hp Hnd]. set (s1 := s <| f_allocations := f_allocations s ++ [mkAllocationRow (mkAllocation (f_allocationSeq s) nodeId ip p None false) alias] |>
      <| f_allocationSeq := f_allocationSeq s + 1 |>).
    assert (insertAllocation nodeId ip alias p s = (Ok tt, s1)) as E1.
    { unfold insertAllocation. rewrite bind_gets. assert (existsb (fun a => atPort nodeId ip a && (al_port (ar_allocation a) =? p)) (f_allocations s) = false) as ->; [|done].
      apply not_true_is_false. intros (a & Ha%list_elem_of_In & [Hat Hpt%Z.eqb_eq]%andb_true_iff)%existsb_exists.
      apply (Hno p); [apply elem_of_cons; by left|]. apply hasPort_row. by exists a. }
    rewrite (bind_run _ _ _ _ _ E1), IH; [|done|].
    + unfold s1. simpl. rewrite <- app_assoc. simpl. do 2 f_equal. lia.
    + intros q Hq. unfold s1, hasPort. simpl. rewrite map_app, elem_of_app. simpl. rewrite list_elem_of_singleton. intros [Hin|E].
      * apply (Hno q); [apply elem_of_cons; by right|done].
      * injection E as ->. done.
Qed.

(** Splitting the range by what is there already. *)
Lemma range_counts lo hi (E : gset Z) : (forall p, p ∈ E -> lo <= p <= hi) -> lo <= hi + 1 ->
  Z.of_nat (List.length (List.filter (fun p => negb (bool_decide (p ∈ E))) (portsFrom lo hi))) + Z.of_nat (base.size E) = hi - lo + 1.
Proof.
  intros HE Hle. pose proof (length_ports lo hi) as Hl. assert (E = list_to_set (List.filter (fun p => bool_decide (p ∈ E)) (portsFrom lo hi))) as HEq.
  { apply set_eq. intros p. rewrite elem_of_list_to_set, list_elem_of_In, filter_In, <- list_elem_of_In, elem_ports, bool_decide_eq_true. naive_solver. }
  assert (base.size E = List.length (List.filter (fun p => bool_decide (p ∈ E)) (portsFrom lo hi))) as Hs.
  { rewrite HEq at 1. apply size_list_to_set. apply NoDup_ListNoDup, List.NoDup_filter, NoDup_ListNoDup, NoDup_ports. }
  rewrite Hs. pose proof (List.filter_length (fun p => bool_decide (p ∈ E)) (portsFrom lo hi)). lia.
Qed.

(** Creating a range of ports adds exactly the missing ones.  A refused request adds
    none and never fails on a duplicate; a successful one is for at most a thousand ports,
    accounts for each as created or already there, and afterwards the node has on that
    address the ports it had and those of the range, each once, the new ones free. *)
Theorem allocation_range_exact nodeId dto s r s' : NoDup (map portKey (f_allocations s)) -> createRange nodeId dto s = (r, s') ->
  match r with
  | Throw e => f_allocations s' = f_allocations s /\ forall c, e <> UniqueViolation c
  | Ok (created, skipped) => created + skipped = cr_endPort dto - cr_startPort dto + 1 /\ created + skipped <= 1000 /\ NoDup (map portKey (f_allocations s')) /\
      exists ip new, inet (cr_ip dto) = Some ip /\ f_allocations s' = f_allocations s ++ new /\ Z.of_nat (List.length new) = created /\
        (forall a, a ∈ new -> al_serverId (ar_allocation a) = None /\ ar_ipAlias a = given (cr_ipAlias dto)) /\
        (forall p, hasPort nodeId ip p (f_allocations s') <-> hasPort nodeId ip p (f_allocations s) \/ cr_startPort dto <= p <= cr_endPort dto)
  end.
Proof.
  intros Hnd E. unfold createRange in E. apply bind_inv in E as [(e & [-> ->]%getNode_inv & ->)|(row & s1 & [-> _]%getNode_inv & E)]; [done|].
  apply bind_throwIf_inv in E as [(_ & -> & ->)|[Hle E]]; [done|]. cbv zeta in E. apply bind_throwIf_inv in E as [(_ & -> & ->)|[Hmax E]]; [done|].
  unfold asAdmin in E. destruct (inet (cr_ip dto)) as [ip|] eqn:Ei; [|by injection E as <- <-].
  change (orThrow (Some ip) (External "invalid input syntax for type inet")) with (mret (M := MF) ip) in E.
  erewrite (bind_run (mret ip) _ s ip s eq_refl) in E. rewrite bind_gets in E.
  set (existing := List.filter _ (f_allocations s)) in E. set (ports := (list_to_set (map _ existing) : gset Z)) in E.
  set (toCreate := List.filter _ (portsFrom _ _)) in E.
  assert (forall p, p ∈ ports <-> hasPort nodeId ip p (f_allocations s) /\ cr_startPort dto <= p <= cr_endPort dto) as Hports.
  { intros p. unfold ports. rewrite elem_of_list_to_set, hasPort_row. unfold existing. split.
    - intros (a & -> & Ha)%list_elem_of_fmap. apply list_elem_of_In, filter_In in Ha as [Ha [[Hat H1%Z.leb_le]%andb_true_iff H2%Z.leb_le]%andb_true_iff].
      split; [|lia]. exists a. by apply list_elem_of_In in Ha.
    - intros [(a & Ha & Hat & <-) Hr]. apply list_elem_of_fmap. exists a. split; [done|]. apply list_elem_of_In, filter_In. split; [by apply list_elem_of_In|].
      rewrite Hat. simpl. lia. }
  assert (forall p, p ∈ toCreate <-> cr_startPort dto <= p <= cr_endPort dto /\ ~ hasPort nodeId ip p (f_allocations s)) as Hto.
  { intros p. unfold toCreate. rewrite list_elem_of_In, filter_In, <- list_elem_of_In, elem_ports, negb_true_iff, bool_decide_eq_false, Hports. naive_solver. }
  assert (NoDup toCreate) as Hnd2 by (unfold toCreate; apply NoDup_ListNoDup, List.NoDup_filter, NoDup_ListNoDup, NoDup_ports).
  erewrite (bind_run _ _ s tt) in E; [|apply insertAll_run; [done|]; intros p Hp%Hto; apply Hp]. injection E as <- <-. simpl.
  assert (Z.of_nat (List.length toCreate) + Z.of_nat (base.size ports) = cr_endPort dto - cr_startPort dto + 1) as Hc
    by (apply range_counts; [intros p Hp%Hports; lia|lia]).
  split; [done|]. split; [unfold MAX_RANGE_SIZE in Hmax; lia|]. split.
  - rewrite map_app, newRows_keys. apply NoDup_app. split; [done|]. split.
    + intros k Hk (p & -> & Hp%Hto)%list_elem_of_fmap. destruct Hp as [_ Hp]. by apply Hp.
    + apply NoDup_fmap_2; [by intros x y [= ->]|done].
  - exists ip, (newRows (f_allocationSeq s) nodeId ip (given (cr_ipAlias dto)) toCreate). split_and!; try done.
    + rewrite <- (List.length_map portKey), newRows_keys, List.length_map. done.
    + intros a Ha%newRows_free. by destruct Ha as (_ & _ & _ & ? & ?).
    + intros p. unfold hasPort at 1. rewrite map_app, newRows_keys, elem_of_app. fold (hasPort nodeId ip p (f_allocations s)). split.
      * intros [Hp|(q & [= ->] & Hq%Hto)%list_elem_of_fmap]; [by left|right; lia].
      * intros [Hp|Hp]; [by left|]. destruct (decide ((nodeId, ip, p) ∈ map portKey (f_allocations s))) as [Hin|Hin]; [by left|right].
        apply list_elem_of_fmap. exists p. split; [done|]. apply Hto. split; [lia|done].
Qed.

End Ports.

(** ** Witnesses *)

Module DemoFleet.

(** Text of [n + 1] letters. *)
Definition letters (n : N) : string := Nat.iter (N.to_nat n) (String "a") "a".

Lemma letters_length n : String.length (letters n) = S (N.to_nat n).
Proof. unfold letters. induction (N.to_nat n) as [|k IH]; simpl; [done|]. by rewrite IH. Qed.

#[export] Instance secrets : Secrets :=
  {| sha256 s := s; randomToken n := letters n; randomHex n := letters n; randomUUID n := letters n; argonHash _ s := s;
     argonVerify h s := Some (s =s h); jwtSign _ := ""; jwtVerify _ _ := None; turnstileVerify _ _ := None; citextEq a b := a =s b;
     JWT_ACCESS_TTL_SECONDS := 900; JWT_REFRESH_TTL_SECONDS := 86400; ALLOW_PUBLIC_REGISTRATION := true; PANEL_URL := "" |}.

#[export] Instance nodeSecrets : NodeSecrets :=
  {| random24 := letters; random12 := letters; random36 := letters; encrypt _ plain _ := plain; decrypt c _ := Ok c |}.

#[export] Instance net : Net := {| isUUID _ := true; isIP _ := true; inet s := Some s; inetCompare := String.compare |}.

#[export] Instance laws : @EnrolmentLaws Demo.platform secrets nodeSecrets.
Proof.
  assert (forall n, everyChar base64urlChar (letters n) = true /\ letters n <> "") as Ht.
  { intros n. unfold letters. destruct (N.to_nat n) as [|k]; [done|]. split; [|done]. simpl. induction k as [|k IH]; simpl; done. }
  assert (Inj (=) (=) letters) as Hi.
  { intros n m E%(f_equal String.length). rewrite !letters_length in E. lia. }
  split; [apply Ht|apply Ht|exact Hi|exact Hi|apply DemoSub.laws|by intros x y|done|done].
Qed.

Definition noCapacity : NodeCapacityFields := mkCapacityFields Unset Unset Unset Unset Unset Unset Unset Unset Unset.

Definition newNodeDto : CreateNodeDto :=
  mkCreateNode "loc" "node 1" Unset "n1.example.com" Unset Unset Unset Unset Unset 8192 100000 Unset Unset noCapacity.

Definition hello (token : string) : BootstrapRequestDto := mkBootstrapDto token "host" Unset Unset Unset Unset.

Definition beatOf (servers : list (string * string)) : HeartbeatDto :=
  mkHeartbeat (Val "1.0") Unset (Val 5) (Val 16384) Unset Unset Unset Unset Unset Unset Unset Unset Unset Unset Unset Unset Unset Unset Unset Unset (Val servers).

Definition s0 : FleetState := mkFleet [("loc", None)] [] [] [] [] ∅ [] 0%N 1.

#[local] Existing Instance Demo.platform.

Definition s1 : FleetState := (createNode newNodeDto "admin" s0).2.
Definition s2 : FleetState := (issueBootstrapToken 1000 "id-0" "admin" s1).2.
Definition token : string := "bst_" +:+ letters 1.
Definition s3 : FleetState := (bootstrap 2000 (hello token) s2).2.

(** The header the agent sends, and the node with two servers, one of them elsewhere. *)
Definition header : option string := Some ("Bearer " +:+ letters 2 +:+ "." +:+ letters 3).

Definition hosted (id nodeId : string) : HostedServer :=
  mkHosted (mkServer id "SHORT" "u" nodeId (Some "t") (Some "p") (Some 100000) "srv" (Some "img") (Some "run")
    100 1024 0 10000 500 true 1 1 1 1 Srv_ready None None None None "offline") 0 None.

Definition s4 : FleetState := s3 <| f_servers := [hosted "a" "id-0"; hosted "b" "other"] |>.

End DemoFleet.

#[local] Existing Instance Demo.platform.
#[local] Existing Instance DemoFleet.secrets.
#[local] Existing Instance DemoFleet.nodeSecrets.
#[local] Existing Instance DemoFleet.net.
#[local] Existing Instance DemoFleet.laws.

Lemma demo_s0 : FleetInv DemoFleet.s0.
Proof.
  split_and!; simpl; try (apply Forall_nil_2 || apply NoDup_nil_2).
  - intros t u Ht. by apply not_elem_of_nil in Ht.
  - intros t Ht. by apply not_elem_of_nil in Ht.
  - intros n _. split_and!; try apply not_elem_of_nil. done.
Qed.

Lemma demo_steps : rtc fleetStep DemoFleet.s0 DemoFleet.s3.
Proof.
  apply (rtc_l _ _ DemoFleet.s1); [eapply F_create; [|apply surjective_pairing]; vm_compute; reflexivity|].
  apply (rtc_l _ _ DemoFleet.s2); [eapply F_issue, surjective_pairing|]. apply rtc_once. eapply F_bootstrap, surjective_pairing.
Qed.

Lemma demo_s3 : FleetInv DemoFleet.s3.
Proof. exact (fleet_inv _ _ demo_steps demo_s0). Qed.

Lemma demo_accepted : (canActivateNode 3000 DemoFleet.header DemoFleet.s3).1 = Ok "id-0".
Proof. vm_compute. reflexivity. Qed.

Lemma fleet_nodes_well_formed_witness :
  Forall nodeWf (f_nodes DemoFleet.s3) /\ map (fun r => nd_lastHeartbeatAt (fn_node r)) (f_nodes DemoFleet.s3) = [Some 2000].
Proof. split; [|vm_compute; reflexivity]. exact (proj1 (fleet_nodes_well_formed _ _ demo_steps demo_s0)). Defined.

Lemma node_credential_agrees_witness : exists url token, baseURL "id-0" DemoFleet.s3 = (Ok (url, token), DemoFleet.s3) /\
  (canActivateNode 3000 (Some ("Bearer " +:+ token)) DemoFleet.s3).1 = Ok "id-0".
Proof.
  pose proof demo_accepted as K. destruct (canActivateNode 3000 DemoFleet.header DemoFleet.s3) as [r s'] eqn:E. cbn [fst] in K. subst r.
  destruct (node_credential_agrees _ _ _ _ _ _ demo_steps demo_s0 E) as (url & token & H1 & _ & H2). exists url, token. split; [exact H1|]. rewrite H2. reflexivity.
Defined.

Lemma superseded_credential_dead_witness :
  exists s4 m, forceRotate 4000 "id-0" "admin" DemoFleet.s3 = (Ok ("bst_" +:+ DemoFleet.letters 7, 1804000,
      "pxagent bootstrap --panel <panel-url> --token " +:+ "bst_" +:+ DemoFleet.letters 7), s4) /\
    canActivateNode 5000 DemoFleet.header s4 = (Throw (Unauthorized m), s4).
Proof.
  assert ((forceRotate 4000 "id-0" "admin" DemoFleet.s3).1 = Ok ("bst_" +:+ DemoFleet.letters 7, 1804000,
      "pxagent bootstrap --panel <panel-url> --token " +:+ "bst_" +:+ DemoFleet.letters 7)) as F by (vm_compute; reflexivity).
  pose proof demo_accepted as K. destruct (canActivateNode 3000 DemoFleet.header DemoFleet.s3) as [r s'] eqn:E. cbn [fst] in K. subst r.
  destruct (forceRotate 4000 "id-0" "admin" DemoFleet.s3) as [r s4] eqn:E4. cbn [fst] in F. subst r. exists s4.
  destruct (superseded_credential_dead DemoFleet.s3 s4 s4 3000 5000 DemoFleet.header "id-0" s' demo_s3 E) as [m Hm].
  - exact (S_force _ _ _ 4000 "admin" _ E4).
  - apply rtc_refl.
  - exists m. split; [reflexivity|exact Hm].
Defined.

Lemma demo_s2 : FleetInv DemoFleet.s2.
Proof.
  eapply fleet_inv; [|exact demo_s0]. apply (rtc_l _ _ DemoFleet.s1); [eapply F_create; [|apply surjective_pairing]; vm_compute; reflexivity|].
  apply rtc_once. eapply F_issue, surjective_pairing.
Qed.

Lemma bootstrap_token_single_use_witness :
  exists x s', bootstrap 2000 (DemoFleet.hello DemoFleet.token) DemoFleet.s2 = (Ok x, s') /\
    bootstrap 2001 (DemoFleet.hello DemoFleet.token) s' = (Throw (Unauthorized "Invalid or expired bootstrap token"), s').
Proof.
  assert (match (bootstrap 2000 (DemoFleet.hello DemoFleet.token) DemoFleet.s2).1 with Ok _ => true | Throw _ => false end = true) as K by (vm_compute; reflexivity).
  destruct (bootstrap 2000 (DemoFleet.hello DemoFleet.token) DemoFleet.s2) as [[x|e] s'] eqn:E; [|discriminate K]. exists x, s'. split; [reflexivity|].
  apply (bootstrap_token_single_use DemoFleet.s2 s' s' 2000 2001 (DemoFleet.hello DemoFleet.token) (DemoFleet.hello DemoFleet.token) x demo_s2 E).
  - apply rtc_refl.
  - reflexivity.
Defined.

Lemma agent_speaks_for_its_node_witness :
  let rep := Beat (DemoFleet.beatOf [("a", "running"); ("b", "running")]) in
  map (fun h => sv_powerState (hs_server h)) (f_servers (report 6000 DemoFleet.header rep DemoFleet.s4).2) = ["running"; "offline"] /\
  map settings (f_nodes (report 6000 DemoFleet.header rep DemoFleet.s4).2) = map settings (f_nodes DemoFleet.s4).
Proof.
  intros rep. split; [vm_compute; reflexivity|]. assert ((report 6000 DemoFleet.header rep DemoFleet.s4).1 = Ok tt) as K by (vm_compute; reflexivity).
  destruct (report 6000 DemoFleet.header rep DemoFleet.s4) as [r s'] eqn:E. cbn [fst] in K. subst r.
  destruct (agent_speaks_for_its_node 6000 DemoFleet.header rep DemoFleet.s4 (Ok tt) s') as [(m & Hm & _)|(n & s1 & _ & Hs & _)].
  - apply (bool_decide_eq_true_1 _). vm_compute. reflexivity.
  - exact E.
  - discriminate Hm.
  - exact Hs.
Defined.

Lemma allocation_range_exact_witness :
  exists s', createRange "id-0" (mkRange "10.0.0.1" Unset 25565 25567) DemoFleet.s3 = (Ok (3, 0), s') /\ NoDup (map portKey (f_allocations s')) /\
    hasPort "id-0" "10.0.0.1" 25566 (f_allocations s').
Proof.
  assert ((createRange "id-0" (mkRange "10.0.0.1" Unset 25565 25567) DemoFleet.s3).1 = Ok (3, 0)) as K by (vm_compute; reflexivity).
  destruct (createRange "id-0" (mkRange "10.0.0.1" Unset 25565 25567) DemoFleet.s3) as [r s'] eqn:E. cbn [fst] in K. subst r. exists s'. split; [reflexivity|].
  destruct (allocation_range_exact "id-0" (mkRange "10.0.0.1" Unset 25565 25567) DemoFleet.s3 _ s' (NoDup_nil_2) E) as (_ & _ & Hn & ip & new & Hi & _ & _ & _ & Hp).
  split; [exact Hn|]. injection Hi as <-. apply Hp. right. simpl. lia.
Defined.

(** Reading and deleting the key are two statements: when two requests read before either
    deletes, both are answered with a token; the second one stays. *)
Lemma bootstrap_token_race :
  let a := lookupBootstrap 2000 DemoFleet.token DemoFleet.s2 in let b := lookupBootstrap 2000 DemoFleet.token a.2 in
  let done_a := burnAndComplete 2000 "id-0" (DemoFleet.hello DemoFleet.token) b.2 in
  let done_b := burnAndComplete 2000 "id-0" (DemoFleet.hello DemoFleet.token) done_a.2 in
  a.1 = Ok "id-0" /\ b.1 = Ok "id-0" /\
  done_a.1 = Ok ("id-0", DemoFleet.letters 2 +:+ "." +:+ DemoFleet.letters 3, 15) /\
  done_b.1 = Ok ("id-0", DemoFleet.letters 7 +:+ "." +:+ DemoFleet.letters 8, 15).
Proof. vm_compute. done. Qed.

(** A bootstrap creates the token and stores the panel's copy of it in two statements.  When a
    second bootstrap of the node runs between the two, the guard accepts the second credential
    only, while the panel presents the first one to the agent. *)
Theorem overlapping_bootstraps_split :
  let dto := DemoFleet.hello DemoFleet.token in
  let a := issueCredential 2000 "id-0" DemoFleet.s2 in
  let b := completeBootstrap 2001 "id-0" dto a.2 in
  exists tokenA tokenB s', a.1 = Ok tokenA /\ b.1 = Ok ("id-0", tokenB, 15) /\ tokenA <> tokenB /\
    storeCredential 2002 "id-0" dto tokenA b.2 = (Ok ("id-0", tokenA, 15), s') /\
    (canActivateNode 3000 (Some ("Bearer " +:+ tokenB)) s').1 = Ok "id-0" /\
    (canActivateNode 3000 (Some ("Bearer " +:+ tokenA)) s').1 = Throw (Unauthorized "Invalid node token") /\
    exists url, baseURL "id-0" s' = (Ok (url, tokenA), s').
Proof.
  intros dto a b. exists (DemoFleet.letters 2 +:+ "." +:+ DemoFleet.letters 3), (DemoFleet.letters 6 +:+ "." +:+ DemoFleet.letters 7).
  eexists. vm_compute. split_and!; try reflexivity; [discriminate|by eexists].
Qed.
