(* ===== verification/Crypto.v ===== *)
(** Crypto: secrets at rest and the rotation of their key.

    [core/crypto/crypto.service.ts]: the envelope [v<version>.<iv>.<tag>.<ciphertext>], the key
    generations a process loads, and what an encrypted column (node credentials, TOTP secrets,
    database passwords, signing keys) survives.  Base64 is written out; AES-256-GCM is a
    parameter. *)

From S2P Require Import Prelude JsNum Capacity Store Scheduler Subscriptions JsString Servers Dto Fleet Enrolment FleetRules.
From Stdlib Require Import Ascii String QArith Qround ZifyN Lia.
From Stdlib Require Qcanon.

Local Open Scope Z_scope.

(** ** Base64 *)

Definition b64Char (n : N) : ascii :=
  ascii_of_N (if (n <? 26)%N then 65 + n else if (n <? 52)%N then 71 + n else if (n <? 62)%N then n - 4 else if (n =? 62)%N then 43 else 47).

(** [buf.toString('base64')]. *)
Fixpoint base64 (s : string) : string :=
  match s with
  | EmptyString => ""
  | String a EmptyString =>
    String (b64Char (code a / 4)) (String (b64Char (code a mod 4 * 16)) "==")
  | String a (String b EmptyString) =>
    let x := (code a * 256 + code b)%N in
    String (b64Char (x / 1024)) (String (b64Char (x / 16 mod 64)) (String (b64Char (x mod 16 * 4)) "="))
  | String a (String b (String c rest)) =>
    let x := (code a * 65536 + code b * 256 + code c)%N in
    String (b64Char (x / 262144)) (String (b64Char (x / 4096 mod 64)) (String (b64Char (x / 64 mod 64)) (String (b64Char (x mod 64)) (base64 rest))))
  end.

(** The value of a character of either alphabet. *)
Definition b64Val (c : ascii) : option N :=
  let n := code c in
  if ((65 <=? n) && (n <=? 90))%N then Some (n - 65)%N
  else if ((97 <=? n) && (n <=? 122))%N then Some (n - 71)%N
  else if ((48 <=? n) && (n <=? 57))%N then Some (n + 4)%N
  else if ((n =? 43) || (n =? 45))%N then Some 62%N
  else if ((n =? 47) || (n =? 95))%N then Some 63%N
  else None.

(** Padding and characters outside the alphabet are skipped. *)
Fixpoint b64Values (s : string) : list N :=
  match s with
  | EmptyString => []
  | String c s' => match b64Val c with Some v => v :: b64Values s' | None => b64Values s' end
  end.

Fixpoint b64Bytes (l : list N) : string :=
  match l with
  | a :: b :: c :: d :: rest =>
    let x := (a * 262144 + b * 4096 + c * 64 + d)%N in
    String (ascii_of_N (x / 65536)) (String (ascii_of_N (x / 256 mod 256)) (String (ascii_of_N (x mod 256)) (b64Bytes rest)))
  | [a; b; c] => let x := (a * 1024 + b * 16 + c / 4)%N in String (ascii_of_N (x / 256)) (String (ascii_of_N (x mod 256)) "")
  | [a; b] => String (ascii_of_N (a * 4 + b / 16)%N) ""
  | _ => ""
  end.

(** [Buffer.from(s, 'base64')]. *)
Definition unbase64 (s : string) : string := b64Bytes (b64Values s).

Example base64_ex : map base64 ["M"; "Ma"; "Man"; "light w"] = ["TQ=="; "TWE="; "TWFu"; "bGlnaHQgdw=="].
Proof. vm_compute. reflexivity. Qed.

Definition hexDigit (n : N) : ascii := ascii_of_N (if (n <? 10)%N then 48 + n else 87 + n).

(** [buf.toString('hex')] and [buf.toString('base64url')]. *)
Fixpoint hex (s : string) : string :=
  match s with EmptyString => "" | String c s' => String (hexDigit (code c / 16)) (String (hexDigit (code c mod 16)) (hex s')) end.

Fixpoint urlSafe (s : string) : string :=
  match s with
  | EmptyString => ""
  | String c s' => if Ascii.eqb c "=" then urlSafe s' else String (if Ascii.eqb c "+" then "-" else if Ascii.eqb c "/" then "_" else c)%char (urlSafe s')
  end.

Definition base64url (s : string) : string := urlSafe (base64 s).

(** ** The service *)

(** AES-256-GCM: ciphertext and tag of a key, an iv, the associated data and a plaintext; the
    plaintext again when the tag fits; and the 12 random bytes of an iv. *)
Class Gcm := {
  gcmSeal : string -> string -> string -> string -> string * string;
  gcmOpen : string -> string -> string -> string -> string -> option string;
  randomIv : N -> string }.

Record CryptoConfig := mkCryptoConfig { APP_KEY : option string; APP_KEY_VERSION : option Z; APP_KEY_PREVIOUS : option string }.

Record CryptoService := mkCrypto { cy_keys : gmap Z string; cy_currentVersion : Z }.

Definition onModuleInit (config : CryptoConfig) : Res CryptoService :=
  match truthy (APP_KEY config) with
  | None => Throw (External "CryptoService: APP_KEY is not configured")
  | Some current =>
    let currentVersion := default 1 (APP_KEY_VERSION config) in
    let keys : gmap Z string := {[currentVersion := unbase64 current]} in
    match truthy (APP_KEY_PREVIOUS config) with
    | None => Ok (mkCrypto keys currentVersion)
    | Some previous =>
      if currentVersion <=? 1 then
        Throw (External "CryptoService: APP_KEY_PREVIOUS is set but APP_KEY_VERSION is 1 — bump APP_KEY_VERSION when rotating")
      else Ok (mkCrypto (<[currentVersion - 1 := unbase64 previous]> keys) currentVersion)
    end
  end.

Definition dot (a b : string) : string := a +:+ String "." b.

Definition envelope (version : Z) (iv tag ct : string) : string :=
  dot (String "v" (zstr version)) (dot (base64 iv) (dot (base64 tag) (base64 ct))).

Definition encrypt `{Gcm} (svc : CryptoService) (n : N) (plaintext aad : string) : Res string :=
  match cy_keys svc !! cy_currentVersion svc with
  | None => Throw (External "CryptoService: no active key loaded")
  | Some key =>
    let iv := randomIv n in
    let '(ciphertext, tag) := gcmSeal key iv aad plaintext in
    Ok (envelope (cy_currentVersion svc) iv tag ciphertext)
  end.

(** [this.keys.get(version)]: the map's keys are integers. *)
Definition keyFor (svc : CryptoService) (version : JsNumber) : option string :=
  match version with
  | Fin q => if Qeq_bool q (inject_Z (Qfloor q)) then cy_keys svc !! Qfloor q else None
  | _ => None
  end.

Definition decrypt `{Gcm} (svc : CryptoService) (stored aad : string) : Res string :=
  match splitOn "." stored with
  | [versionTag; ivB64; tagB64; ctB64] =>
    let version := jsNumber (dropS 1 versionTag) in
    match keyFor svc version with
    | None => Throw (External ("CryptoService: no key loaded for version " +:+ numStr version))
    | Some key =>
      match gcmOpen key (unbase64 ivB64) aad (unbase64 tagB64) (unbase64 ctB64) with
      | Some plaintext => Ok plaintext
      | None => Throw (External "Unsupported state or unable to authenticate data")
      end
    end
  | _ => Throw (External "CryptoService: malformed ciphertext envelope")
  end.

(** ** Base64 round trip *)

Ltac Zify.zify_post_hook ::= Z.div_mod_to_equations.

Lemma b64Val_Char n : (n < 64)%N -> b64Val (b64Char n) = Some n.
Proof.
  intros Hn. assert (forallb (fun k => bool_decide (b64Val (b64Char (N.of_nat k)) = Some (N.of_nat k))) (seq 0 64) = true) as F by (vm_compute; reflexivity).
  rewrite forallb_forall in F. specialize (F (N.to_nat n)). rewrite N2Nat.id in F. apply bool_decide_eq_true_1 in F; [done|]. apply in_seq. lia.
Qed.

Lemma code_bound c : (code c < 256)%N.
Proof. apply N_ascii_bounded. Qed.

Lemma byte_code c : ascii_of_N (code c) = c.
Proof. apply ascii_N_embedding. Qed.

Lemma unbase64_base64 s : unbase64 (base64 s) = s.
Proof.
  unfold unbase64. remember (String.length s) as n eqn:En. revert s En. induction (lt_wf n) as [n _ IH]. intros s ->.
  destruct s as [|a [|b [|c rest]]].
  - done.
  - pose proof (code_bound a). cbn [base64 b64Values]. rewrite !b64Val_Char by lia. cbn [b64Val b64Values b64Bytes].
    change (b64Bytes [code a / 4; code a mod 4 * 16]%N = String a ""). cbn [b64Bytes].
    replace (code a / 4 * 4 + code a mod 4 * 16 / 16)%N with (code a) by lia. by rewrite byte_code.
  - pose proof (code_bound a). pose proof (code_bound b). cbn [base64 b64Values]. set (x := (code a * 256 + code b)%N).
    rewrite !b64Val_Char by lia. change (b64Bytes [x / 1024; x / 16 mod 64; x mod 16 * 4]%N = String a (String b "")). cbn [b64Bytes].
    replace (x / 1024 * 1024 + x / 16 mod 64 * 16 + x mod 16 * 4 / 4)%N with x by lia.
    replace (x / 256)%N with (code a) by lia. replace (x mod 256)%N with (code b) by lia. by rewrite !byte_code.
  - pose proof (code_bound a). pose proof (code_bound b). pose proof (code_bound c). cbn [base64 b64Values].
    set (x := (code a * 65536 + code b * 256 + code c)%N). rewrite !b64Val_Char by lia. cbn [b64Bytes].
    replace (x / 262144 * 262144 + x / 4096 mod 64 * 4096 + x / 64 mod 64 * 64 + x mod 64)%N with x by lia.
    replace (x / 65536)%N with (code a) by lia. replace (x / 256 mod 256)%N with (code b) by lia. replace (x mod 256)%N with (code c) by lia.
    rewrite !byte_code. do 3 f_equal. apply (IH (String.length rest)); [simpl; lia|done].
Qed.

Lemma b64Char_noDot n : Ascii.eqb (b64Char n) "." = false.
Proof.
  destruct (decide (n < 64)%N) as [Hn|Hn].
  - pose proof (b64Val_Char n Hn) as E. destruct (Ascii.eqb_spec (b64Char n) ".") as [Ed|]; [|done]. rewrite Ed in E. discriminate E.
  - unfold b64Char. rewrite (proj2 (N.ltb_ge n 26)), (proj2 (N.ltb_ge n 52)), (proj2 (N.ltb_ge n 62)), (proj2 (N.eqb_neq n 62)) by lia. reflexivity.
Qed.

Lemma base64_noDot s : noChar "." (base64 s) = true.
Proof.
  remember (String.length s) as n eqn:En. revert s En. induction (lt_wf n) as [n _ IH]. intros s ->.
  destruct s as [|a [|b [|c rest]]]; cbn [base64 noChar]; rewrite ?b64Char_noDot; [done..|]. apply (IH (String.length rest)); [simpl; lia|done].
Qed.

(** ** Reading back a version *)

Lemma take_pretty (x : N) : forall l s, exists l', takeDigits 0 l (pretty_N_go x s) = takeDigits (Z.of_N x) l' s /\
  (l <= l')%nat /\ (x <> 0%N -> (l < l')%nat).
Proof.
  induction (N.lt_wf_0 x) as [x _ IH]. intros l s. destruct (decide (x = 0%N)) as [->|Hx]; [exists l; rewrite pretty_N_go_0; split_and!; [done|lia|done]|].
  rewrite pretty_N_go_step by lia. destruct (IH (x / 10)%N ltac:(apply N.div_lt; lia) l (String (pretty_N_char (x mod 10)) s)) as (l' & -> & Hl & _).
  exists (S l'). assert (x mod 10 < 10)%N as Hm by (apply N.mod_lt; lia).
  assert (isDigit (pretty_N_char (x mod 10)) = true /\ digitVal (pretty_N_char (x mod 10)) = Z.of_N (x mod 10)) as [Hd Hv].
  { set (d := (x mod 10)%N) in *. clearbody d. clear -Hm. assert (d ∈ [0;1;2;3;4;5;6;7;8;9]%N) as Hd by (rewrite !elem_of_cons; lia).
    rewrite !elem_of_cons, elem_of_nil in Hd. naive_solver. }
  cbn [takeDigits]. rewrite Hd, Hv. split_and!; [f_equal; lia|lia|lia].
Qed.

Lemma take_zstr v : 0 < v -> exists l, takeDigits 0 0 (zstr v) = (v, S l, "").
Proof.
  intros Hv. destruct v as [|p|p]; try lia. change (zstr (Z.pos p)) with (pretty (Npos p)). unfold pretty, pretty_N. rewrite decide_False by done.
  destruct (take_pretty (Npos p) 0 "") as (l & -> & _ & Hl). destruct l as [|l]; [specialize (Hl ltac:(done)); lia|]. by exists l.
Qed.

Lemma digits_visible s : allDigits s = true -> everyChar visible s = true.
Proof.
  induction s as [|c s IH]; simpl; [done|]. intros [Hc Hs]%andb_true_iff. rewrite (IH Hs), andb_true_r.
  destruct c as [[] [] [] [] [] [] [] []]; (discriminate Hc || reflexivity).
Qed.

(** Digits carry no sign and no radix prefix. *)
Lemma jsNumber_digits s : s <> "" -> allDigits s = true -> jsNumber s = readUnsigned s.
Proof.
  intros Hn Hd. unfold jsNumber. rewrite trim_visible by (by apply digits_visible). destruct s as [|c t]; [done|].
  simpl in Hd. apply andb_true_iff in Hd as [Hc Ht]. destruct c as [[] [] [] [] [] [] [] []]; try discriminate Hc; try reflexivity.
  destruct t as [|d t]; [reflexivity|]. simpl in Ht. apply andb_true_iff in Ht as [Hd _].
  destruct d as [[] [] [] [] [] [] [] []]; (discriminate Hd || reflexivity).
Qed.

Lemma rnd_ext p q : (p == q)%Q -> (rnd p == rnd q)%Q.
Proof. intros E. apply Qle_antisym; apply rnd_mono; rewrite E; apply Qle_refl. Qed.

Lemma toDouble_Z q v : int_ok v -> (q == inject_Z v)%Q -> toDouble q = Fin (inject_Z v).
Proof.
  intros Hv Eq. unfold toDouble. assert (rnd q == inject_Z v)%Q as E by (rewrite (rnd_ext _ _ Eq); by apply rnd_Z).
  assert (Qle_bool (pow2 1024) (rnd q) = false) as ->.
  { apply not_true_iff_false. intros Hle%Qle_bool_iff. rewrite E, pow2_Z in Hle by lia. rewrite <- Zle_Qle in Hle.
    unfold int_ok in Hv. assert (2 ^ 53 < 2 ^ 1024) by (apply Z.pow_lt_mono_r; lia). lia. }
  f_equal. rewrite (Qred_complete _ _ E). apply Qcanon.Qred_identity. apply Z.gcd_1_r.
Qed.

(** [Number(String(v))] is [v]. *)
Lemma jsNumber_zstr v : 0 < v <= 2 ^ 53 -> jsNumber (zstr v) = Fin (inject_Z v).
Proof.
  intros Hv. destruct (take_zstr v) as [l El]; [lia|]. assert (zstr v <> "") as Hne by (intros E; by rewrite E in El).
  assert (allDigits (zstr v) = true) as Hd by (apply zstr_digits; lia). rewrite jsNumber_digits by done. unfold readUnsigned.
  rewrite bool_decide_eq_false_2 by (intros E; by rewrite E in Hd). rewrite El. simpl.
  apply toDouble_Z; [unfold int_ok; lia|]. change (pow10 0) with 1%Q. rewrite Qmult_0_l, Qplus_0_r, Qmult_1_r. reflexivity.
Qed.

(** ** Envelopes *)

(** AES-GCM opens what it sealed, and only that: the tag is recomputed over the associated data
    and the ciphertext. *)
Class GcmLaws `{Gcm} : Prop := {
  open_sealed k iv aad p ct tag : gcmSeal k iv aad p = (ct, tag) -> gcmOpen k iv aad tag ct = Some p;
  sealed_open k iv aad p ct tag : gcmOpen k iv aad tag ct = Some p -> gcmSeal k iv aad p = (ct, tag) }.

Lemma envelope_parts v iv tag ct : 0 <= v ->
  splitOn "." (envelope v iv tag ct) = [String "v" (zstr v); base64 iv; base64 tag; base64 ct].
Proof.
  intros Hv. unfold envelope, dot. rewrite splitOn_segment.
  - by rewrite !splitOn_segment, splitOn_noChar by apply base64_noDot.
  - simpl. assert (allDigits (zstr v) = true) as Hd by (by apply zstr_digits). revert Hd. generalize (zstr v). induction s as [|c s IH]; [done|].
    simpl. intros [Hc Hs]%andb_true_iff. rewrite (IH Hs), andb_true_r. destruct (Ascii.eqb_spec c ".") as [->|]; [discriminate Hc|done].
Qed.

Lemma decrypt_envelope `{Gcm} svc v iv tag ct aad : 0 < v <= 2 ^ 53 ->
  decrypt svc (envelope v iv tag ct) aad =
  match cy_keys svc !! v with
  | None => Throw (External ("CryptoService: no key loaded for version " +:+ numStr (Fin (inject_Z v))))
  | Some key => match gcmOpen key iv aad tag ct with
                | Some p => Ok p
                | None => Throw (External "Unsupported state or unable to authenticate data")
                end
  end.
Proof.
  intros Hv. unfold decrypt. rewrite envelope_parts by lia. cbn [dropS]. rewrite jsNumber_zstr by done. unfold keyFor.
  rewrite Qfloor_Z. assert (Qeq_bool (inject_Z v) (inject_Z v) = true) as -> by (by apply Qeq_bool_iff).
  rewrite !unbase64_base64. done.
Qed.

Section Rotation.
Context `{GcmLaws}.

(** The keys a process has loaded. *)
Lemma init_keys cfg svc : onModuleInit cfg = Ok svc ->
  cy_currentVersion svc = default 1 (APP_KEY_VERSION cfg) /\
  (exists k, truthy (APP_KEY cfg) = Some k /\ cy_keys svc !! cy_currentVersion svc = Some (unbase64 k)) /\
  (forall p, truthy (APP_KEY_PREVIOUS cfg) = Some p -> 1 < cy_currentVersion svc /\ cy_keys svc !! (cy_currentVersion svc - 1) = Some (unbase64 p)) /\
  (forall v, v <> cy_currentVersion svc -> v <> cy_currentVersion svc - 1 -> cy_keys svc !! v = None).
Proof.
  unfold onModuleInit. destruct (truthy (APP_KEY cfg)) as [k|]; [|done]. destruct (truthy (APP_KEY_PREVIOUS cfg)) as [p|].
  - destruct (default 1 _ <=? 1) eqn:El; [done|]. intros [= <-]. simpl. split_and!; [done| | |].
    + exists k. split; [done|]. rewrite lookup_insert_ne by lia. apply lookup_singleton_eq.
    + intros ? [= <-]. split; [lia|]. apply lookup_insert_eq.
    + intros v H1 H2. rewrite lookup_insert_ne by lia. apply lookup_singleton_ne. lia.
  - intros [= <-]. simpl. split_and!; [done| |done|].
    + exists k. split; [done|]. apply lookup_singleton_eq.
    + intros v H1 _. apply lookup_singleton_ne. lia.
Qed.

(** What a process stored is an envelope of its generation, sealed with its key. *)
Lemma encrypt_inv cfg svc n p aad stored : onModuleInit cfg = Ok svc -> encrypt svc n p aad = Ok stored ->
  exists k ct tag, truthy (APP_KEY cfg) = Some k /\ gcmSeal (unbase64 k) (randomIv n) aad p = (ct, tag) /\
    stored = envelope (cy_currentVersion svc) (randomIv n) tag ct.
Proof.
  intros Hi. destruct (init_keys _ _ Hi) as (_ & (k & Hk & Hl) & _). unfold encrypt. rewrite Hl.
  destruct (gcmSeal _ _ _ _) as [ct tag] eqn:E. intros [= <-]. by exists k, ct, tag.
Qed.

(** A process reads back what it wrote. *)
Lemma decrypt_encrypted cfg svc n p aad stored : onModuleInit cfg = Ok svc -> 0 < cy_currentVersion svc <= 2 ^ 53 ->
  encrypt svc n p aad = Ok stored -> decrypt svc stored aad = Ok p.
Proof.
  intros Hi Hv He. destruct (encrypt_inv _ _ _ _ _ _ Hi He) as (k & ct & tag & Hk & Hs & ->). rewrite decrypt_envelope by done.
  destruct (init_keys _ _ Hi) as (_ & (k0 & Hk0 & Hl) & _). rewrite Hk in Hk0. injection Hk0 as <-. by rewrite Hl, (open_sealed _ _ _ _ _ _ Hs).
Qed.

(** C18: a secret survives a key rotation.  What a process encrypted is decrypted, under the same
    associated data, by any process of the same configuration and by one of the next
    generation that keeps the old key as the previous one; a process two or more generations
    on, or one that never had the key, refuses and names the missing version. *)
Theorem secrets_survive_rotation cfg svc cfg' svc' n p aad stored :
  onModuleInit cfg = Ok svc -> 0 < cy_currentVersion svc <= 2 ^ 53 -> encrypt svc n p aad = Ok stored -> onModuleInit cfg' = Ok svc' ->
  decrypt svc stored aad = Ok p /\
  (cy_currentVersion svc' = cy_currentVersion svc + 1 -> truthy (APP_KEY_PREVIOUS cfg') = truthy (APP_KEY cfg) -> decrypt svc' stored aad = Ok p) /\
  (cy_currentVersion svc + 1 < cy_currentVersion svc' -> exists e, decrypt svc' stored aad = Throw (External e) /\
     startsWith "CryptoService: no key loaded for version " e = true).
Proof.
  intros Hi Hv He Hi'. split; [by eapply decrypt_encrypted|].
  destruct (encrypt_inv _ _ _ _ _ _ Hi He) as (k & ct & tag & Hk & Hs & ->). rewrite !decrypt_envelope by done.
  destruct (init_keys _ _ Hi') as (_ & _ & Hprev & Hnone). apply open_sealed in Hs. split.
  - intros Hv' Hp. rewrite Hk in Hp. destruct (Hprev _ Hp) as [_ Hl']. replace (cy_currentVersion svc' - 1) with (cy_currentVersion svc) in Hl' by lia.
    by rewrite Hl', Hs.
  - intros Hlt. rewrite Hnone by lia. eexists. split; [reflexivity|]. unfold startsWith. induction (numStr _); reflexivity.
Qed.

(** An encrypted column is bound to its row: if a value opens under other associated data, the
    same tag seals two different pairs of data and text under one key and iv. *)
Theorem secret_bound_to_row cfg svc n p aad stored aad' p' :
  onModuleInit cfg = Ok svc -> 0 < cy_currentVersion svc <= 2 ^ 53 -> encrypt svc n p aad = Ok stored -> decrypt svc stored aad' = Ok p' ->
  exists key, gcmSeal key (randomIv n) aad' p' = gcmSeal key (randomIv n) aad p.
Proof.
  intros Hi Hv He Hd. destruct (encrypt_inv _ _ _ _ _ _ Hi He) as (k & ct & tag & Hk & Hs & ->). rewrite decrypt_envelope in Hd by done.
  destruct (init_keys _ _ Hi) as (_ & (k0 & Hk0 & Hl) & _). rewrite Hk in Hk0. injection Hk0 as <-. rewrite Hl in Hd.
  destruct (gcmOpen _ _ _ _ _) as [q|] eqn:Eo; [|done]. injection Hd as ->. apply sealed_open in Eo. exists (unbase64 k). congruence.
Qed.
End Rotation.

(** ** The promise node enrolment relies on *)

(** [encrypt] of a service that started never throws. *)
Definition encryptText `{Gcm} (svc : CryptoService) (n : N) (plain aad : string) : string :=
  match encrypt svc n plain aad with Ok stored => stored | Throw _ => "" end.

(** The draws of the tokens with this service's encryption. *)
Definition nodeSecretsOf `{Gcm} (svc : CryptoService) (draw24 draw12 draw36 : N -> string) : NodeSecrets :=
  {| random24 := draw24; random12 := draw12; random36 := draw36;
     Enrolment.encrypt := encryptText svc; Enrolment.decrypt := decrypt svc |}.

(** A started service discharges the law [EnrolmentLaws] asks of encryption. *)
Theorem crypto_discharges_enrolment `{GcmLaws} cfg svc d24 d12 d36 : onModuleInit cfg = Ok svc -> 0 < cy_currentVersion svc <= 2 ^ 53 ->
  forall n plain aad, @Enrolment.decrypt (nodeSecretsOf svc d24 d12 d36) (@Enrolment.encrypt (nodeSecretsOf svc d24 d12 d36) n plain aad) aad = Ok plain.
Proof.
  intros Hi Hv n plain aad. change (decrypt svc (encryptText svc n plain aad) aad = Ok plain). unfold encryptText.
  destruct (init_keys _ _ Hi) as (_ & (k & Hk & Hl) & _). destruct (encrypt svc n plain aad) as [stored|e] eqn:E.
  - destruct (encrypt_inv _ _ _ _ _ _ Hi E) as (k' & ct & tag & Hk' & Hs & ->). rewrite Hk in Hk'. injection Hk' as <-.
    rewrite decrypt_envelope by done. by rewrite Hl, (open_sealed _ _ _ _ _ _ Hs).
  - exfalso. unfold encrypt in E. rewrite Hl in E. by destruct (gcmSeal _ _ _ _).
Qed.

(** ** Witnesses *)

Module DemoCrypto.

(** Transparent sealing: the tag spells the key, the iv and the associated data. *)
Definition tagOf (k iv aad : string) : string := dot (base64 k) (dot (base64 iv) (base64 aad)).

#[export] Instance gcm : Gcm :=
  {| gcmSeal k iv aad p := (p, tagOf k iv aad);
     gcmOpen k iv aad tag ct := if tag =s tagOf k iv aad then Some ct else None;
     randomIv n := String.concat "" (repeat "i" (N.to_nat n)) |}.

#[export] Instance gcmLaws : GcmLaws.
Proof.
  split; cbn.
  - intros k iv aad p ct tag [= -> <-]. by rewrite bool_decide_eq_true_2.
  - intros k iv aad p ct tag. by case_bool_decide as E; [intros [= ->]; rewrite E|].
Qed.

Definition first : CryptoConfig := mkCryptoConfig (Some "b2xk") (Some 1) None.
Definition second : CryptoConfig := mkCryptoConfig (Some "bmV3") (Some 2) (Some "b2xk").

End DemoCrypto.

#[local] Existing Instance DemoCrypto.gcm.
#[local] Existing Instance DemoCrypto.gcmLaws.

Lemma secrets_survive_rotation_witness :
  exists svc svc' stored, onModuleInit DemoCrypto.first = Ok svc /\ onModuleInit DemoCrypto.second = Ok svc' /\
    encrypt svc 3%N "token" "nodes:control_token_enc:n1" = Ok stored /\ startsWith "v1.aWlp." stored = true /\
    decrypt svc' stored "nodes:control_token_enc:n1" = Ok "token".
Proof.
  destruct (onModuleInit DemoCrypto.first) as [svc|] eqn:E1; [|discriminate E1].
  destruct (onModuleInit DemoCrypto.second) as [svc'|] eqn:E2; [|discriminate E2].
  destruct (encrypt svc 3%N "token" "nodes:control_token_enc:n1") as [stored|] eqn:E3.
  2:{ injection E1 as <-. vm_compute in E3. discriminate E3. }
  exists svc, svc', stored. split_and!; [done|done|done| |].
  - injection E1 as <-. vm_compute in E3. injection E3 as <-. reflexivity.
  - apply (secrets_survive_rotation DemoCrypto.first svc DemoCrypto.second svc' 3%N "token" "nodes:control_token_enc:n1" stored E1);
      [injection E1 as <-; simpl; lia|done|done|injection E1 as <-; injection E2 as <-; reflexivity|reflexivity].
Defined.
