(* ===== verification/Controls.v ===== *)
(** Controls: what a customer does to a running server.

    The power buttons and the console token of [servers/client-servers.service.ts],
    [backups/backups.service.ts], the claims [core/capability-token] signs, and the requests
    [nodes/agent-client.service.ts] sends for them, with the customer's activity feed
    ([activity/activity.service.ts]).  Every operation goes through [Access.resolve]. *)

From S2P Require Import Prelude JsNum Capacity Store Scheduler Subscriptions JsString Accounts Sessions Access Dto Fleet.
From Stdlib Require Import Ascii String Lia.

Local Open Scope Z_scope.

(** ** State *)

Inductive PowerAction := pow_start | pow_stop | pow_restart | pow_kill.
#[export] Instance PowerAction_eq : EqDecision PowerAction.
Proof. solve_decision. Defined.

Definition powerStr (a : PowerAction) : string :=
  match a with pow_start => "start" | pow_stop => "stop" | pow_restart => "restart" | pow_kill => "kill" end.

(** A request to the agent of a node, about one server. *)
Inductive AgentRequest :=
  | ReqPower (action : PowerAction)
  | ReqListBackups
  | ReqCreateBackup (ignorePatterns : list string)
  | ReqDeleteBackup (backupId : string)
  | ReqRestoreBackup (backupId : string).

Record AgentCall := mkCall { cl_nodeId : string; cl_serverId : string; cl_request : AgentRequest }.

Record AgentBackup := mkBackup { bk_id : string; bk_sizeBytes : Z; bk_sha256 : string; bk_createdAt : string }.

(** What the agents answer, given every request sent so far, this one last, and how long
    they take.  An unreachable agent, a refusal and a timeout are exceptions. *)
Class Agents := {
  powerAnswer : list AgentCall -> Res (string * string);
  backupsAnswer : list AgentCall -> Res (list AgentBackup);
  backupAnswer : list AgentCall -> Res AgentBackup;
  doneAnswer : list AgentCall -> Res unit;
  elapsed : list AgentCall -> N }.

Record Activity := mkActivity { av_actorId : string; av_serverId : string; av_event : string }.

(** The tables access is decided on, the nodes, the requests sent, the activity feed, and
    the clock in milliseconds. *)
Record Control := mkControl {
  c_access : AccessState; c_nodes : list NodeRow; c_calls : list AgentCall; c_activity : list Activity; c_now : Z }.

#[export] Instance Control_settable : Settable Control := fun s =>
  mkControl (c_access s) (c_nodes s) (c_calls s) (c_activity s) (c_now s).

Abbreviation MC := (M Control).

Definition onAccess {A} (m : MX A) : MC A := fun s => let (r, a) := m (c_access s) in (r, s <| c_access := a |>).

Definition sleep (ms : Z) : MC unit := modify (fun s => s <| c_now := c_now s + ms |>).

Definition resolveC (actor : AccessActor) (serverId : string) : MC ResolvedAccess := fun s =>
  onAccess (resolve (c_now s) (xa_id actor) serverId (xa_isAdmin actor)) s.

(** [if (!can(key)) throw new ForbiddenException(...)]. *)
Definition requirePermission {S} (access : ResolvedAccess) (key : string) : M S unit :=
  throwIf (negb (ra_can access key)) (Forbidden ("Missing permission: " +:+ key)).

Definition auditC (action actorId serverId : string) : MC unit := onAccess (log action actorId serverId).

(** [ActivityService.record]: the feed keeps the actor's own entries, of servers that exist. *)
Definition recordActivity (actorId serverId event : string) : MC unit :=
  known ← gets (fun s => existsb (fun v => sv_id v =s serverId) (x_servers (c_access s)));
  throwIf (negb known) (External "activity_logs_server_id_fkey") ;;
  modify (fun s => s <| c_activity := c_activity s ++ [mkActivity actorId serverId event] |>).

(** [AgentClient.call]. *)
Definition agent {A} `{Agents} (answer : list AgentCall -> Res A) (server : Server) (req : AgentRequest) : MC A := fun s =>
  let sent := c_calls s ++ [mkCall (sv_nodeId server) (sv_id server) req] in
  (answer sent, s <| c_calls := sent |> <| c_now := c_now s + Z.of_N (elapsed sent) |>).

(** ** Power *)

Definition POWER_PERMISSION (a : PowerAction) : string :=
  match a with
  | pow_start => "control.start" | pow_stop => "control.stop" | pow_restart => "control.restart" | pow_kill => "control.kill"
  end.

Section Operations.
Context `{Secrets} `{Agents}.

Definition power (actor : AccessActor) (serverId : string) (action : PowerAction) : MC (string * string) :=
  access ← resolveC actor serverId;
  requirePermission access (POWER_PERMISSION action) ;;
  let server := ra_server access in
  result ← agent powerAnswer server (ReqPower action);
  auditC ("server.power." +:+ powerStr action) (xa_id actor) (sv_id server) ;;
  recordActivity (xa_id actor) (sv_id server) ("server.power." +:+ powerStr action) ;;
  mret result.

(** ** Backups *)

Definition DEFAULT_IGNORE_PATTERNS : list string := [].

Definition listBackups (actor : AccessActor) (serverId : string) : MC (list AgentBackup) :=
  access ← resolveC actor serverId;
  requirePermission access "backup.read" ;;
  agent backupsAnswer (ra_server access) ReqListBackups.

(** [create] of the backups: the check of the access and of the limit, which asks the agent for
    the backups it has; *)
Definition backupAdmission (actor : AccessActor) (serverId : string) : MC Server :=
  access ← resolveC actor serverId;
  requirePermission access "backup.create" ;;
  let server := ra_server access in
  existing ← agent backupsAnswer server ReqListBackups;
  throwIf (sv_maxBackups server <=? Z.of_nat (List.length existing)) (Conflict "Backup limit reached for this server’s plan") ;;
  mret server.

(** then the request, about the server as it was read. *)
Definition sendBackup (actor : AccessActor) (server : Server) (ignorePatterns : option (list string)) : MC AgentBackup :=
  backup ← agent backupAnswer server (ReqCreateBackup (default DEFAULT_IGNORE_PATTERNS ignorePatterns));
  auditC "server.backup.create" (xa_id actor) (sv_id server) ;;
  recordActivity (xa_id actor) (sv_id server) "server.backup.create" ;;
  mret backup.

Definition createBackup (actor : AccessActor) (serverId : string) (ignorePatterns : option (list string)) : MC AgentBackup :=
  server ← backupAdmission actor serverId;
  sendBackup actor server ignorePatterns.

Definition deleteBackup (actor : AccessActor) (serverId backupId : string) : MC unit :=
  access ← resolveC actor serverId;
  requirePermission access "backup.delete" ;;
  let server := ra_server access in
  agent doneAnswer server (ReqDeleteBackup backupId) ;;
  auditC "server.backup.delete" (xa_id actor) (sv_id server) ;;
  recordActivity (xa_id actor) (sv_id server) "server.backup.delete".

Definition restoreBackup (actor : AccessActor) (serverId backupId : string) : MC unit :=
  access ← resolveC actor serverId;
  requirePermission access "backup.restore" ;;
  let server := ra_server access in
  agent doneAnswer server (ReqRestoreBackup backupId) ;;
  auditC "server.backup.restore" (xa_id actor) (sv_id server) ;;
  recordActivity (xa_id actor) (sv_id server) "server.backup.restore".

(** ** Capability tokens *)

(** The signed claims; the signature over them is the crypto library's. *)
Record Claims := mkClaims {
  cp_sub : string; cp_aud : string; cp_iat : Z; cp_nbf : Z; cp_exp : Z; cp_jti : string; cp_uid : string; cp_cap : string;
  cp_permissions : list string; cp_path : option string }.

Definition freshC : MC N := fun s =>
  (Ok (x_next (c_access s)), s <| c_access := (c_access s) <| x_next := (x_next (c_access s) + 1)%N |> |>).

Definition mint (serverUuid nodeUuid userId cap : string) (permissions : list string) (ttlSeconds : Z) (path : option string) : MC Claims :=
  ms ← gets c_now;
  n ← freshC;
  let now := ms / 1000 in
  mret (mkClaims serverUuid ("node:" +:+ nodeUuid) now now (now + ttlSeconds) (randomUUID n) userId cap permissions path).

Definition CONSOLE_TOKEN_TTL_SECONDS : Z := 300.
Definition DOWNLOAD_TOKEN_TTL_SECONDS : Z := 60.

Definition WS_PERMISSION_KEYS : list string :=
  ["websocket.connect"; "control.console"; "control.start"; "control.stop"; "control.restart"; "control.kill"].

(** The node of a server, which the access check reads with it. *)
Definition nodeOf (server : Server) : MC NodeRow :=
  found ← gets (fun s => findId (sv_nodeId server) (c_nodes s));
  orThrow found (External "Inconsistent query result").

Definition wsUrl (d : NodeDetails) (serverUuid : string) : string :=
  let wsScheme := if dt_scheme d =s "https" then "wss" else "ws" in
  wsScheme +:+ "://" +:+ dt_fqdn d +:+ ":" +:+ zstr (dt_daemonPort d) +:+ "/api/servers/" +:+ serverUuid +:+ "/ws".

Definition backupDownloadUrl (d : NodeDetails) (serverUuid backupId : string) : string :=
  dt_scheme d +:+ "://" +:+ dt_fqdn d +:+ ":" +:+ zstr (dt_daemonPort d) +:+ "/api/servers/" +:+ serverUuid +:+ "/backups/" +:+ backupId +:+ "/download".

Definition mintConsoleToken (actor : AccessActor) (serverId : string) : MC (Claims * Z * string) :=
  access ← resolveC actor serverId;
  let server := ra_server access in
  let permissions := List.filter (ra_can access) WS_PERMISSION_KEYS in
  token ← mint (sv_id server) (sv_nodeId server) (xa_id actor) "ws" permissions CONSOLE_TOKEN_TTL_SECONDS None;
  node ← nodeOf server;
  mret (token, CONSOLE_TOKEN_TTL_SECONDS, wsUrl (fn_details node) (sv_id server)).

Definition mintDownloadLink (actor : AccessActor) (serverId backupId : string) : MC (Claims * Z * string) :=
  access ← resolveC actor serverId;
  requirePermission access "backup.read" ;;
  let server := ra_server access in
  token ← mint (sv_id server) (sv_nodeId server) (xa_id actor) "backup.download" [] DOWNLOAD_TOKEN_TTL_SECONDS (Some backupId);
  node ← nodeOf server;
  mret (token, DOWNLOAD_TOKEN_TTL_SECONDS, backupDownloadUrl (fn_details node) (sv_id server) backupId).

End Operations.

(** ** Frames *)

(** What an access check leaves in place. *)
Definition accessCore (a : AccessState) := (x_servers a, x_next a).

Lemma resolve_core now u v adm : keeps (same accessCore) (resolve now u v adm).
Proof. unfold resolve, resolveSubuserPermissions, cachePermissions. keeps_auto. by intros s r s' [= _ <-]. Qed.

Lemma requirePermission_keeps {S} (R : S -> S -> Prop) acc key : PreOrder R -> keeps R (requirePermission acc key).
Proof. intros HR. unfold requirePermission. keeps_auto. Qed.

#[export] Hint Extern 1 (keeps _ (requirePermission _ _)) => apply requirePermission_keeps; typeclasses eauto : keeps.

(** ** What a console token grants *)

Section ConsoleToken.
Context `{Platform} `{Secrets} `{Agents}.

Lemma resolve_status u v s acc : resolveRef u v false s = Ok acc -> forall p, ra_can acc p = true -> allowedForStatus (sv_status (ra_server acc)) p = true.
Proof.
  unfold resolveRef. destruct (fetchOwned u v false s) as [server|]; [|done]. destruct (sv_ownerId server =s u); intros [= <-] p; simpl; [done|].
  by intros [_ ?]%andb_true_iff.
Qed.

(** C17: while the permission cache agrees with the database (part of [accessOk]; the race that
    breaks it is [revoked_permission_race]), a console token grants exactly what its holder may
    do at the moment it is minted: the WebSocket permissions that reading the database would
    allow, on the node that hosts the server, for five minutes.  The token of a suspended server
    carries no permission at all unless an administrator asked for it. *)
Theorem console_token_exact actor v s t ttl url s' : accessOk (c_access s) -> noColon (xa_id actor) = true ->
  mintConsoleToken actor v s = (Ok (t, ttl, url), s') ->
  exists acc, resolveRef (xa_id actor) v (xa_isAdmin actor) (c_access s) = Ok acc /\
    cp_sub t = sv_id (ra_server acc) /\ cp_aud t = "node:" +:+ sv_nodeId (ra_server acc) /\ cp_uid t = xa_id actor /\
    cp_permissions t = List.filter (ra_can acc) WS_PERMISSION_KEYS /\ cp_exp t = cp_iat t + 300 /\
    (xa_isAdmin actor = false -> sv_status (ra_server acc) = Srv_suspended -> cp_permissions t = []).
Proof.
  intros Ok Hc E. unfold mintConsoleToken in E. apply bind_ok in E as (acc & s1 & E1 & E). unfold resolveC, onAccess in E1.
  destruct (resolve _ _ _ _ _) as [r a] eqn:Er. injection E1 as -> _. apply resolve_spec in Er as (Hs & _ & _); [|done|done].
  destruct (resolveRef _ _ _ _) as [acc'|] eqn:Eref; [|done]. destruct Hs as (Hsrv & _ & Hcan).
  apply bind_ok in E as (tok & s2 & E2 & E). apply bind_ok in E as (node & s3 & _ & E). injection E as <- _ _.
  unfold mint in E2. rewrite bind_gets in E2. apply bind_ok in E2 as (n & s4 & _ & E2). injection E2 as <- _.
  exists acc'. rewrite <- Hsrv. cbn [cp_sub cp_aud cp_uid cp_permissions cp_exp cp_iat]. split_and!; try done.
  - exact (List.filter_ext _ _ Hcan WS_PERMISSION_KEYS).
  - intros Ha Hst. rewrite Ha in Eref. rewrite Hsrv in Hst.
    assert (forall p, p ∈ WS_PERMISSION_KEYS -> ra_can acc p = false) as No; [|exact (filter_none _ WS_PERMISSION_KEYS No)].
    intros p Hp. rewrite Hcan. apply not_true_iff_false. intros Hy. apply (resolve_status _ _ _ _ Eref) in Hy. rewrite Hst in Hy.
    unfold WS_PERMISSION_KEYS in Hp. rewrite !elem_of_cons, elem_of_nil in Hp.
    destruct Hp as [->|[->|[->|[->|[->|[->|[]]]]]]]; vm_compute in Hy; congruence.
Qed.
End ConsoleToken.

(** ** Witnesses *)

Module DemoConsole.

Definition node : NodeRow := newNode "a" (mkCreateNode "loc" "n" Unset "n.example" (Val "https") (Val 8443) Unset Unset Unset 1024 1024 Unset Unset
  (mkCapacityFields Unset Unset Unset Unset Unset Unset Unset Unset Unset)).

(** The subuser may start the server and read its files. *)
Definition state : Control :=
  mkControl (DemoShare.state <| x_subusers := [DemoShare.row ["websocket.connect"; "control.start"; "file.read"]] |>) [node] [] [] 5000.

End DemoConsole.

Lemma demo_consoleOk : accessOk (c_access DemoConsole.state).
Proof.
  split.
  - apply NoDup_singleton.
  - intros u ->%list_elem_of_singleton. reflexivity.
  - apply NoDup_singleton.
  - intros a b ->%list_elem_of_singleton ->%list_elem_of_singleton. reflexivity.
  - intros u ->%list_elem_of_singleton. split; [reflexivity|eexists; reflexivity].
  - intros u v p e _ Hl. simpl in Hl. by rewrite lookup_empty in Hl.
Qed.

#[local] Existing Instance Demo.platform.
#[local] Existing Instance DemoAuth.secrets.

Lemma console_token_exact_witness :
  exists t ttl url s', mintConsoleToken DemoShare.sub "s" DemoConsole.state = (Ok (t, ttl, url), s') /\
    cp_permissions t = ["websocket.connect"; "control.start"] /\ url = "wss://n.example:8443/api/servers/s/ws" /\ cp_exp t = cp_iat t + 300.
Proof.
  destruct (mintConsoleToken DemoShare.sub "s" DemoConsole.state) as [[[[t ttl] url]|e] s'] eqn:E; [|vm_compute in E; discriminate E].
  exists t, ttl, url, s'. split; [reflexivity|].
  destruct (console_token_exact DemoShare.sub "s" DemoConsole.state t ttl url s' demo_consoleOk eq_refl E) as (acc & _ & _ & _ & _ & _ & Hexp & _).
  split; [|split]; [vm_compute in E; by injection E as <- _ _ _|vm_compute in E; by injection E as _ _ <- _|exact Hexp].
Defined.
