(* ===== verification/Schedules.v ===== *)
(** Schedules: unattended restarts and backups.

    [schedules/schedules.service.ts] with [schedules/dto/schedule.dto.ts] (what customers
    edit), [queues/schedule-tick.processor.ts] (which claims the due schedules and queues a
    dispatch job for each) and [schedules/schedule-runner.service.ts] behind
    [queues/schedule-dispatch.processor.ts] (which runs a claimed schedule's tasks as the
    server's owner, through Controls). *)

From S2P Require Import Prelude JsNum Capacity Store Scheduler Subscriptions JsString Accounts Sessions Access Dto Fleet Controls.
From Stdlib Require Import Ascii String Lia.

Local Open Scope Z_scope.

(** ** Rows *)

Record CronFields := mkCron {
  cr_minute : string; cr_hour : string; cr_dayOfMonth : string; cr_month : string; cr_dayOfWeek : string }.

Inductive RunStatus := run_success | run_failed | run_skipped.
#[export] Instance RunStatus_eq : EqDecision RunStatus.
Proof. solve_decision. Defined.

Record Schedule := mkSchedule {
  sc_id : string; sc_serverId : string; sc_name : string; sc_cron : CronFields; sc_timezone : string; sc_isActive : bool;
  sc_onlyWhenOnline : bool; sc_isProcessing : bool; sc_lastRunAt : option Z; sc_lastRunStatus : option RunStatus;
  sc_nextRunAt : Z; sc_createdAt : Z }.
#[export] Instance Schedule_row : Row Schedule := sc_id.
#[export] Instance Schedule_settable : Settable Schedule := fun r =>
  mkSchedule (sc_id r) (sc_serverId r) (sc_name r) (sc_cron r) (sc_timezone r) (sc_isActive r) (sc_onlyWhenOnline r)
    (sc_isProcessing r) (sc_lastRunAt r) (sc_lastRunStatus r) (sc_nextRunAt r) (sc_createdAt r).

Inductive TaskAction := act_power | act_backup.
#[export] Instance TaskAction_eq : EqDecision TaskAction.
Proof. solve_decision. Defined.

(** [tk_payload] is the column's text: empty, or the power verb. *)
Record Task := mkTask {
  tk_id : string; tk_scheduleId : string; tk_sequenceNumber : Z; tk_action : TaskAction; tk_payload : option PowerAction;
  tk_timeOffsetSeconds : Z; tk_continueOnFailure : bool }.
#[export] Instance Task_row : Row Task := tk_id.

(** A job of the [schedule-dispatch] queue, kept after it ended, with the planned run it is for. *)
Inductive JobState := job_waiting | job_active | job_done | job_failed.
#[export] Instance JobState_eq : EqDecision JobState.
Proof. solve_decision. Defined.

Record Job := mkJob { jb_id : string; jb_scheduleId : string; jb_planned : Z; jb_state : JobState }.
#[export] Instance Job_row : Row Job := jb_id.
#[export] Instance Job_settable : Settable Job := fun r => mkJob (jb_id r) (jb_scheduleId r) (jb_planned r) (jb_state r).

(** A run in progress: the row and the server as they were read when it started, the tasks
    still to do and the status so far. *)
Record Run := mkRun { rn_schedule : Schedule; rn_server : Server; rn_tasks : list Task; rn_status : RunStatus }.
#[export] Instance Run_settable : Settable Run := fun r => mkRun (rn_schedule r) (rn_server r) (rn_tasks r) (rn_status r).

Record Sched := mkSched {
  h_control : Control; h_schedules : list Schedule; h_tasks : list Task; h_jobs : list Job; h_runs : list (string * Run) }.
#[export] Instance Sched_settable : Settable Sched := fun s =>
  mkSched (h_control s) (h_schedules s) (h_tasks s) (h_jobs s) (h_runs s).

Abbreviation MH := (M Sched).

Definition onControl {A} (m : MC A) : MH A := fun s => let (r, c) := m (h_control s) in (r, s <| h_control := c |>).

Definition clock (s : Sched) : Z := c_now (h_control s).

(** ** The next planned run *)

(** [cron-parser]: the next instant after another at which an expression fires in a time
    zone, or the message of the error it throws. *)
Class Cron := { cronNext : string -> string -> Z -> string + Z }.

Definition cronExpr (f : CronFields) : string :=
  cr_minute f +:+ " " +:+ cr_hour f +:+ " " +:+ cr_dayOfMonth f +:+ " " +:+ cr_month f +:+ " " +:+ cr_dayOfWeek f.

Definition computeNextRunAt `{Cron} (fields : CronFields) (timezone : string) (from : Z) : Res Z :=
  match cronNext (cronExpr fields) timezone from with
  | inr t => Ok t
  | inl msg => Throw (BadRequest ("Invalid schedule: " +:+ msg))
  end.

(** ** Requests *)

(** The optional properties of a create and of an update request. *)
Record ScheduleFields := mkScheduleFields {
  sd_cronMinute : Field string; sd_cronHour : Field string; sd_cronDayOfMonth : Field string; sd_cronMonth : Field string;
  sd_cronDayOfWeek : Field string; sd_timezone : Field string; sd_isActive : Field bool; sd_onlyWhenOnline : Field bool }.

Record CreateScheduleDto := mkCreateSchedule { cs_name : string; cs_fields : ScheduleFields }.
Record UpdateScheduleDto := mkUpdateSchedule { us_name : Field string; us_fields : ScheduleFields }.

Definition validCreateScheduleDto (dto : CreateScheduleDto) : bool := lengthOk 1 191 (cs_name dto).
Definition validUpdateScheduleDto (dto : UpdateScheduleDto) : bool := lengthOkF 1 191 (us_name dto).

Record CreateTaskDto := mkTaskDto { td_action : TaskAction; td_timeOffsetSeconds : Field Z; td_continueOnFailure : Field bool }.

Definition validTaskDto (dto : CreateTaskDto) : bool := rangeOk 0 3600 (td_timeOffsetSeconds dto).

Section Service.
Context `{Platform} `{Secrets} `{Agents} `{Cron}.

Definition resolveH (actor : AccessActor) (serverId : string) : MH ResolvedAccess := onControl (resolveC actor serverId).

Definition auditH (action actorId serverId : string) : MH unit := onControl (auditC action actorId serverId).

Definition activityH (actorId serverId event : string) : MH unit := onControl (recordActivity actorId serverId event).

Definition bySequence (a b : Task) : bool := tk_sequenceNumber a <=? tk_sequenceNumber b.

(** [include: { tasks: { orderBy: { sequenceNumber: 'asc' } } }]. *)
Definition tasksOf (s : Sched) (scheduleId : string) : list Task :=
  sortBy bySequence (List.filter (fun t => tk_scheduleId t =s scheduleId) (h_tasks s)).

Definition listSchedules (actor : AccessActor) (serverId : string) : MH (list (Schedule * list Task)) :=
  access ← resolveH actor serverId;
  requirePermission access "schedule.read" ;;
  gets (fun s => map (fun r => (r, tasksOf s (sc_id r)))
    (sortBy (fun a b => sc_createdAt a <=? sc_createdAt b)
      (List.filter (fun r => sc_serverId r =s sv_id (ra_server access)) (h_schedules s)))).

Definition getOwned (actor : AccessActor) (serverId scheduleId requiredPermission : string) : MH (Server * Schedule * list Task) :=
  access ← resolveH actor serverId;
  requirePermission access requiredPermission ;;
  let server := ra_server access in
  found ← gets (fun s => findFirst (fun r => (sc_id r =s scheduleId) && (sc_serverId r =s sv_id server)) (h_schedules s));
  schedule ← orThrow found (NotFound "Schedule not found");
  tasks ← gets (fun s => tasksOf s (sc_id schedule));
  mret (server, schedule, tasks).

Definition freshH : MH N := onControl freshC.

Definition createSchedule (actor : AccessActor) (serverId : string) (dto : CreateScheduleDto) : MH Schedule :=
  access ← resolveH actor serverId;
  requirePermission access "schedule.create" ;;
  let server := ra_server access in
  existingCount ← gets (fun s => countWhere (fun r => sc_serverId r =s sv_id server) (h_schedules s));
  throwIf (sv_maxSchedules server <=? existingCount) (Conflict "Schedule limit reached for this server’s plan") ;;
  let d := cs_fields dto in
  let fields := mkCron (default "*" (given (sd_cronMinute d))) (default "*" (given (sd_cronHour d)))
    (default "*" (given (sd_cronDayOfMonth d))) (default "*" (given (sd_cronMonth d))) (default "*" (given (sd_cronDayOfWeek d))) in
  let timezone := default "America/Sao_Paulo" (given (sd_timezone d)) in
  now ← gets clock;
  nextRunAt ← lift (computeNextRunAt fields timezone now);
  n ← freshH;
  let created := mkSchedule (uuidv7 n) (sv_id server) (cs_name dto) fields timezone (default true (given (sd_isActive d)))
    (default false (given (sd_onlyWhenOnline d))) false None None nextRunAt now in
  modify (fun s => s <| h_schedules := h_schedules s ++ [created] |>) ;;
  auditH "server.schedule.create" (xa_id actor) (sv_id server) ;;
  activityH (xa_id actor) (sv_id server) "server.schedule.create" ;;
  mret created.

(** [tx.schedule.update]: a missing row is an error. *)
Definition updateSchedule (id : string) (f : Schedule -> Res Schedule) : MH Schedule :=
  found ← gets (fun s => findId id (h_schedules s));
  row ← orThrow found RecordNotFound;
  row' ← lift (f row);
  modify (fun s => s <| h_schedules := updId id (fun _ => row') (h_schedules s) |>) ;;
  mret row'.

Definition patchSchedule (dto : UpdateScheduleDto) (fields : CronFields) (timezone : string) (nextRunAt : Z) (r : Schedule) : Res Schedule :=
  name ← patch (us_name dto) (sc_name r);
  isActive ← patch (sd_isActive (us_fields dto)) (sc_isActive r);
  onlyWhenOnline ← patch (sd_onlyWhenOnline (us_fields dto)) (sc_onlyWhenOnline r);
  mret (r <| sc_name := name |> <| sc_cron := fields |> <| sc_timezone := timezone |> <| sc_isActive := isActive |>
          <| sc_onlyWhenOnline := onlyWhenOnline |> <| sc_nextRunAt := nextRunAt |>).

Definition editedFields (dto : ScheduleFields) (r : Schedule) : CronFields :=
  mkCron (default (cr_minute (sc_cron r)) (given (sd_cronMinute dto))) (default (cr_hour (sc_cron r)) (given (sd_cronHour dto)))
    (default (cr_dayOfMonth (sc_cron r)) (given (sd_cronDayOfMonth dto))) (default (cr_month (sc_cron r)) (given (sd_cronMonth dto)))
    (default (cr_dayOfWeek (sc_cron r)) (given (sd_cronDayOfWeek dto))).

Definition editSchedule (actor : AccessActor) (serverId scheduleId : string) (dto : UpdateScheduleDto) : MH Schedule :=
  owned ← getOwned actor serverId scheduleId "schedule.update";
  let '(server, schedule, _) := owned in
  let fields := editedFields (us_fields dto) schedule in
  let timezone := default (sc_timezone schedule) (given (sd_timezone (us_fields dto))) in
  now ← gets clock;
  nextRunAt ← lift (computeNextRunAt fields timezone now);
  updated ← updateSchedule (sc_id schedule) (patchSchedule dto fields timezone nextRunAt);
  auditH "server.schedule.update" (xa_id actor) (sv_id server) ;;
  activityH (xa_id actor) (sv_id server) "server.schedule.update" ;;
  mret updated.

(** Deleting a schedule deletes its tasks (ON DELETE CASCADE). *)
Definition dropSchedules (p : Schedule -> bool) (s : Sched) : Sched :=
  let gone := map sc_id (List.filter p (h_schedules s)) in
  s <| h_schedules := List.filter (fun r => negb (p r)) (h_schedules s) |>
    <| h_tasks := List.filter (fun t => negb (bool_decide (tk_scheduleId t ∈ gone))) (h_tasks s) |>.

Definition removeSchedule (actor : AccessActor) (serverId scheduleId : string) : MH unit :=
  owned ← getOwned actor serverId scheduleId "schedule.delete";
  let '(server, schedule, _) := owned in
  modify (dropSchedules (fun r => sc_id r =s sc_id schedule)) ;;
  auditH "server.schedule.delete" (xa_id actor) (sv_id server) ;;
  activityH (xa_id actor) (sv_id server) "server.schedule.delete".

(** [tasks.length > 0 ? Math.max(...sequenceNumbers) + 1 : 1]. *)
Definition nextSequence (tasks : list Task) : Z :=
  match tasks with
  | [] => 1
  | t :: rest => fold_left (fun m x => Z.max m (tk_sequenceNumber x)) rest (tk_sequenceNumber t) + 1
  end.

(** [tx.task.create]: one task per schedule and sequence number. *)
Definition createTask (t : Task) : MH unit :=
  dup ← gets (fun s => existsb (fun x => (tk_scheduleId x =s tk_scheduleId t) && (tk_sequenceNumber x =s tk_sequenceNumber t)) (h_tasks s));
  throwIf dup (UniqueViolation "tasks_schedule_id_sequence_number_key") ;;
  modify (fun s => s <| h_tasks := h_tasks s ++ [t] |>).

Definition addTask (actor : AccessActor) (serverId scheduleId : string) (dto : CreateTaskDto) : MH Task :=
  owned ← getOwned actor serverId scheduleId "schedule.update";
  let '(server, schedule, tasks) := owned in
  n ← freshH;
  let task := mkTask (uuidv7 n) (sc_id schedule) (nextSequence tasks) (td_action dto)
    (if td_action dto =s act_power then Some pow_restart else None)
    (default 0 (given (td_timeOffsetSeconds dto))) (default false (given (td_continueOnFailure dto))) in
  createTask task ;;
  auditH "server.schedule.task.create" (xa_id actor) (sv_id server) ;;
  activityH (xa_id actor) (sv_id server) "server.schedule.task.create" ;;
  mret task.

Definition removeTask (actor : AccessActor) (serverId scheduleId taskId : string) : MH unit :=
  owned ← getOwned actor serverId scheduleId "schedule.update";
  let '(server, schedule, tasks) := owned in
  task ← orThrow (findFirst (fun t => tk_id t =s taskId) tasks) (NotFound "Task not found");
  modify (fun s => s <| h_tasks := List.filter (fun t => negb (tk_id t =s tk_id task)) (h_tasks s) |>) ;;
  auditH "server.schedule.task.delete" (xa_id actor) (sv_id server) ;;
  activityH (xa_id actor) (sv_id server) "server.schedule.task.delete".

(** ** The tick *)

(** The due rows no other transaction has locked ([FOR UPDATE SKIP LOCKED]). *)
Definition isDue (locked : string -> bool) (now : Z) (r : Schedule) : bool :=
  sc_isActive r && negb (sc_isProcessing r) && (sc_nextRunAt r <=? now) && negb (locked (sc_id r)).

Definition claimed (r : Schedule) : Schedule := r <| sc_isProcessing := true |>.

(** The transaction of a tick: read the due rows, mark them. *)
Definition claimDue (locked : string -> bool) : MH (list Schedule) := fun s =>
  let rows := List.filter (isDue locked (clock s)) (h_schedules s) in
  (Ok rows, s <| h_schedules := updWhere (fun r => bool_decide (sc_id r ∈ map sc_id rows)) claimed (h_schedules s) |>).

Definition dispatchJobId (scheduleId : string) (planned : Z) : string := "schedule-" +:+ scheduleId +:+ "-" +:+ zstr planned.

(** [dispatchQueue.add] with a job id: nothing when the queue knows the id; the queue may
    also be unreachable. *)
Definition addJob (queueAnswer : string -> option exn) (row : Schedule) : MH unit :=
  let id := dispatchJobId (sc_id row) (sc_nextRunAt row) in
  match queueAnswer id with
  | Some e => throw e
  | None => modify (fun s => if existsb (fun j => jb_id j =s id) (h_jobs s) then s
                             else s <| h_jobs := h_jobs s ++ [mkJob id (sc_id row) (sc_nextRunAt row) job_waiting] |>)
  end.

Definition tickOnce (locked : string -> bool) (queueAnswer : string -> option exn) : MH unit :=
  due ← claimDue locked;
  forEach due (addJob queueAnswer).

(** ** The run *)

Definition runTask (ownerId serverId : string) (action : TaskAction) (payload : option PowerAction) : MH unit :=
  let actor := mkActor ownerId false in
  match action with
  | act_power => onControl (power actor serverId (default pow_restart payload)) ;; mret tt
  | act_backup => onControl (createBackup actor serverId None) ;; mret tt
  end.

Definition finished (now : Z) (status : RunStatus) (nextRunAt : Z) (r : Schedule) : Schedule :=
  r <| sc_isProcessing := false |> <| sc_lastRunAt := Some now |> <| sc_lastRunStatus := Some status |> <| sc_nextRunAt := nextRunAt |>.

Definition finish (scheduleId : string) (fields : Schedule) (status : RunStatus) : MH unit :=
  now ← gets clock;
  nextRunAt ← lift (computeNextRunAt (sc_cron fields) (sc_timezone fields) now);
  updateSchedule scheduleId (fun r => Ok (finished now status nextRunAt r)) ;;
  mret tt.

(** The start of [run]: read the schedule with its tasks and server; an inactive schedule, or
    one whose node is offline, has nothing to do. *)
Definition startRun (scheduleId : string) : MH (option Run) :=
  found ← gets (fun s => findId scheduleId (h_schedules s));
  match found with
  | None => mret None
  | Some schedule =>
    tasks ← gets (fun s => tasksOf s scheduleId);
    owner ← gets (fun s => findId (sc_serverId schedule) (x_servers (c_access (h_control s))));
    server ← orThrow owner (External "Inconsistent query result");
    node ← onControl (nodeOf server);
    if negb (sc_isActive schedule) then mret (Some (mkRun schedule server [] run_skipped))
    else if sc_onlyWhenOnline schedule && (dt_healthStatus (fn_details node) =s "offline") then
      mret (Some (mkRun schedule server [] run_skipped))
    else mret (Some (mkRun schedule server tasks run_success))
  end.

(** One turn of the loop over the tasks. *)
Definition stepTask (r : Run) : MH Run :=
  match rn_tasks r with
  | [] => mret r
  | task :: rest =>
    when (0 <? tk_timeOffsetSeconds task) (onControl (sleep (tk_timeOffsetSeconds task * 1000))) ;;
    tryCatch
      (runTask (sv_ownerId (rn_server r)) (sv_id (rn_server r)) (tk_action task) (tk_payload task) ;;
       mret (r <| rn_tasks := rest |>))
      (fun _ => mret (r <| rn_status := run_failed |> <| rn_tasks := if tk_continueOnFailure task then rest else [] |>))
  end.

(** The loop; its fuel is the number of tasks, each turn consumes one. *)
Fixpoint runTasks (n : nat) (r : Run) : MH Run :=
  match n with
  | O => mret r
  | S n => match rn_tasks r with [] => mret r | _ => r' ← stepTask r; runTasks n r' end
  end.

Definition endRun (r : Run) : MH unit := finish (sc_id (rn_schedule r)) (rn_schedule r) (rn_status r).

Definition run (scheduleId : string) : MH unit :=
  started ← startRun scheduleId;
  match started with
  | None => mret tt
  | Some r => r' ← runTasks (List.length (rn_tasks r)) r; endRun r'
  end.

(** ** The dispatch worker

    A worker takes a waiting job and awaits [run]; other requests, ticks and workers go on
    between any two tasks, so the three parts of [run] are separate steps. *)

Definition setJob (st : JobState) (id : string) (s : Sched) : Sched :=
  s <| h_jobs := updId id (fun j => j <| jb_state := st |>) (h_jobs s) |>.

Definition dropRun (id : string) (s : Sched) : Sched :=
  s <| h_runs := List.filter (fun p => negb (p.1 =s id)) (h_runs s) |>.

Definition beginJob (j : Job) (s : Sched) : Sched :=
  match startRun (jb_scheduleId j) s with
  | (Ok (Some r), s') => setJob job_active (jb_id j) s' <| h_runs := h_runs s' ++ [(jb_id j, r)] |>
  | (Ok None, s') => setJob job_done (jb_id j) s'
  | (Throw _, s') => setJob job_failed (jb_id j) s'
  end.

Definition advanceJob (id : string) (r : Run) (s : Sched) : Sched :=
  match stepTask r s with
  | (Ok r', s') => s' <| h_runs := map (fun p => if p.1 =s id then (id, r') else p) (h_runs s') |>
  | (Throw _, s') => dropRun id (setJob job_failed id s')
  end.

Definition endJob (id : string) (r : Run) (s : Sched) : Sched :=
  match endRun r s with
  | (Ok _, s') => dropRun id (setJob job_done id s')
  | (Throw _, s') => dropRun id (setJob job_failed id s')
  end.

End Service.
