(* ===== verification/ScheduleRules.v ===== *)
(** ScheduleRules: what unattended runs guarantee.

    The schedules as a transition system in which requests, ticks, dispatch workers and every
    other service interleave; its invariant; and the theorems: a claimed schedule whose job
    reached the queue is released, no two runs of one schedule overlap, and a run has no more rights than the
    owner of the server. *)

From S2P Require Import Prelude JsNum Capacity Store Scheduler Subscriptions JsString Accounts Sessions Access Dto Fleet Enrolment FleetRules Controls Schedules.
From Stdlib Require Import Ascii String Lia.

Local Open Scope Z_scope.

(** ** What the libraries promise *)

(** UUIDs do not repeat; [cron-parser] gives a strictly later instant, and an expression it
    accepts once it accepts from any instant. *)
Class ScheduleLaws `{Platform} `{Cron} : Prop := {
  uuid_inj n m : uuidv7 n = uuidv7 m -> n = m;
  cron_later e tz t t' : cronNext e tz t = inr t' -> t < t';
  cron_again e tz t t' u : cronNext e tz t = inr t' -> exists u', cronNext e tz u = inr u' }.

(** ** Steps of the rest of the platform *)

Definition nodesOk (c : Control) : Prop := forall v, v ∈ x_servers (c_access c) -> is_Some (findId (sv_nodeId v) (c_nodes c)).

Definition serverIds (c : Control) : list string := map sv_id (x_servers (c_access c)).

(** Time passes, ids are drawn, and no server or node disappears. *)
Definition outside (c c' : Control) : Prop :=
  c_now c <= c_now c' /\ (x_next (c_access c) <= x_next (c_access c'))%N /\ (nodesOk c -> nodesOk c') /\
  (forall id, id ∈ serverIds c -> id ∈ serverIds c').

#[export] Instance outside_preorder : PreOrder outside.
Proof.
  split.
  - intros c. unfold outside. split_and!; [lia|lia|done|done].
  - intros a b c (A1 & A2 & A3 & A4) (B1 & B2 & B3 & B4). unfold outside. split_and!; [lia|lia|auto|auto].
Qed.

(** A step that leaves the schedules, the queue and the runs alone. *)
Definition calm (s s' : Sched) : Prop :=
  outside (h_control s) (h_control s') /\ h_schedules s' = h_schedules s /\ h_jobs s' = h_jobs s /\ h_runs s' = h_runs s.

#[export] Instance calm_preorder : PreOrder calm.
Proof.
  split.
  - intros s. unfold calm. split_and!; reflexivity.
  - intros a b c (A1 & A2 & A3 & A4) (B1 & B2 & B3 & B4). unfold calm. split_and!; [by transitivity (h_control b)|congruence..].
Qed.

Lemma keeps_onControl {A} (m : MC A) : keeps outside m -> keeps calm (onControl m).
Proof.
  intros Hm s r s'. unfold onControl. destruct (m (h_control s)) as [r0 c] eqn:E. intros [= _ <-]. apply Hm in E. by split_and!.
Qed.

Lemma outside_access (c : Control) a : accessCore a = accessCore (c_access c) -> outside c (c <| c_access := a |>).
Proof.
  intros [= Es En]. unfold outside, nodesOk, serverIds. simpl. rewrite Es, En. split_and!; [lia|lia|done|done].
Qed.

Lemma keeps_onAccess {A} (m : MX A) : keeps (same accessCore) m -> keeps outside (onAccess m).
Proof.
  intros Hm s r s'. unfold onAccess. destruct (m (c_access s)) as [r0 a] eqn:E. intros [= _ <-]. apply Hm in E. by apply outside_access.
Qed.

Lemma resolveC_outside actor v : keeps outside (resolveC actor v).
Proof. intros s r s'. unfold resolveC. apply keeps_onAccess, resolve_core. Qed.

Lemma auditC_outside action a v : keeps outside (auditC action a v).
Proof. apply keeps_onAccess. unfold log. by intros s r s' [= _ <-]. Qed.

Lemma recordActivity_outside a v e : keeps outside (recordActivity a v e).
Proof. unfold recordActivity. keeps_auto. intros s r s' [= _ <-]. unfold outside. simpl. split_and!; [lia|lia|done|done]. Qed.

Lemma freshC_outside : keeps outside freshC.
Proof. intros s r s' [= _ <-]. unfold outside. simpl. split_and!; [lia|lia|done|done]. Qed.

Lemma nodeOf_outside v : keeps outside (nodeOf v).
Proof. unfold nodeOf. keeps_auto. Qed.

#[export] Hint Resolve resolveC_outside auditC_outside recordActivity_outside freshC_outside nodeOf_outside keeps_onControl : keeps.

Section Frames.
Context `{Platform} `{Secrets} `{Agents} `{Cron}.

Lemma agent_outside {A} (answer : list AgentCall -> Res A) v req : keeps outside (agent answer v req).
Proof. intros s r s' [= _ <-]. unfold outside. simpl. split_and!; [lia|lia|done|done]. Qed.

Lemma power_outside actor v action : keeps outside (power actor v action).
Proof. unfold power. keeps_auto. apply agent_outside. Qed.

Lemma createBackup_outside actor v p : keeps outside (createBackup actor v p).
Proof. unfold createBackup, backupAdmission, sendBackup. keeps_auto; apply agent_outside. Qed.

Lemma runTask_calm o v act p : keeps calm (runTask o v act p).
Proof. unfold runTask. destruct act; keeps_auto; apply keeps_onControl; [apply power_outside|apply createBackup_outside]. Qed.

Lemma sleep_outside ms : 0 <= ms -> keeps outside (sleep ms).
Proof. intros Hm s r s' [= _ <-]. unfold outside. simpl. split_and!; [lia|lia|done|done]. Qed.

Lemma getOwned_calm actor v id p : keeps calm (getOwned actor v id p).
Proof. unfold getOwned, resolveH. keeps_auto. Qed.

Lemma resolveH_calm actor v : keeps calm (resolveH actor v).
Proof. unfold resolveH. eauto with keeps. Qed.

Lemma auditH_calm action a v : keeps calm (auditH action a v).
Proof. unfold auditH. eauto with keeps. Qed.

Lemma activityH_calm a v e : keeps calm (activityH a v e).
Proof. unfold activityH. eauto with keeps. Qed.

Lemma freshH_calm : keeps calm freshH.
Proof. unfold freshH. eauto with keeps. Qed.
End Frames.

#[export] Hint Resolve getOwned_calm resolveH_calm auditH_calm activityH_calm freshH_calm runTask_calm : keeps.

(** ** Job ids *)

Lemma digits_noDash s : allDigits s = true -> noChar "-" s = true.
Proof.
  induction s as [|c s IH]; simpl; [done|]. intros [Hc Hs]%andb_true_iff. rewrite (IH Hs), andb_true_r.
  destruct (Ascii.eqb_spec c "-") as [->|]; [discriminate Hc|done].
Qed.

Lemma dash_noChar a b : noChar "-" (a +:+ String "-" b) = false.
Proof. rewrite noChar_app. simpl. apply andb_false_r. Qed.

Lemma last_dash a b x y : noChar "-" x = true -> noChar "-" y = true -> a +:+ "-" +:+ x = b +:+ "-" +:+ y -> a = b /\ x = y.
Proof.
  revert b. induction a as [|c a IH]; intros [|d b] Hx Hy E.
  - change (String "-" x = String "-" y) in E. by injection E as ->.
  - rewrite append_String in E. change (String "-" x = String d (b +:+ String "-" y)) in E. injection E as <- ->. by rewrite dash_noChar in Hx.
  - rewrite append_String in E. change (String c (a +:+ String "-" x) = String "-" y) in E. injection E as -> <-. by rewrite dash_noChar in Hy.
  - rewrite !append_String in E. injection E as -> E. by destruct (IH b Hx Hy E) as [-> ->].
Qed.

Lemma dispatchJobId_inj a b t u : 0 <= t -> 0 <= u -> dispatchJobId a t = dispatchJobId b u -> a = b /\ t = u.
Proof.
  intros Ht Hu E. unfold dispatchJobId in E. apply String.app_inj in E.
  apply last_dash in E as [-> E]; [|by apply digits_noDash, zstr_digits..]. split; [done|]. unfold zstr in E. by apply (inj pretty) in E.
Qed.

(** ** The invariant *)

Definition live (j : Job) : Prop := jb_state j = job_waiting \/ jb_state j = job_active.

Section Invariant.
Context `{Platform} `{Secrets} `{Agents} `{Cron}.

(** The schedules a tick may have claimed without queueing a job for them. *)
Context (X : string -> Prop).

Definition accepted (f : CronFields) (tz : string) : Prop := exists t t', cronNext (cronExpr f) tz t = inr t'.

Definition drawn (s : Sched) (id : string) : Prop := exists n, (n < x_next (c_access (h_control s)))%N /\ id = uuidv7 n.

Record SchedInv (s : Sched) : Prop := {
  si_clock : 0 <= clock s;
  si_nodes : nodesOk (h_control s);
  si_ids : NoDup (map sc_id (h_schedules s));
  si_row : forall r, r ∈ h_schedules s ->
    drawn s (sc_id r) /\ sc_serverId r ∈ serverIds (h_control s) /\ accepted (sc_cron r) (sc_timezone r) /\ 0 <= sc_nextRunAt r;
  si_jobs : NoDup (map jb_id (h_jobs s));
  si_job : forall j, j ∈ h_jobs s ->
    drawn s (jb_scheduleId j) /\ jb_id j = dispatchJobId (jb_scheduleId j) (jb_planned j) /\ 0 <= jb_planned j <= clock s;
  si_idle : forall r j, r ∈ h_schedules s -> sc_isProcessing r = false -> j ∈ h_jobs s -> jb_scheduleId j = sc_id r ->
    jb_planned j < sc_nextRunAt r /\ ~ live j;
  si_busy : forall r, r ∈ h_schedules s -> sc_isProcessing r = true ->
    X (sc_id r) \/ exists j, j ∈ h_jobs s /\ jb_scheduleId j = sc_id r /\ live j;
  si_one : forall j j', j ∈ h_jobs s -> j' ∈ h_jobs s -> live j -> live j' -> jb_scheduleId j = jb_scheduleId j' -> j = j';
  si_runs : NoDup (map fst (h_runs s));
  si_run : forall id r, (id, r) ∈ h_runs s -> accepted (sc_cron (rn_schedule r)) (sc_timezone (rn_schedule r)) /\
    exists j, j ∈ h_jobs s /\ jb_id j = id /\ jb_state j = job_active /\ jb_scheduleId j = sc_id (rn_schedule r);
  si_active : forall j, j ∈ h_jobs s -> jb_state j = job_active -> exists r, (jb_id j, r) ∈ h_runs s }.

(** ** Steps *)

Inductive workStep (s s' : Sched) : Prop :=
  | wk_begin j : j ∈ h_jobs s -> jb_state j = job_waiting -> s' = beginJob j s -> workStep s s'
  | wk_task id r : (id, r) ∈ h_runs s -> rn_tasks r <> [] -> s' = advanceJob id r s -> workStep s s'
  | wk_end id r : (id, r) ∈ h_runs s -> rn_tasks r = [] -> s' = endJob id r s -> workStep s s'.

Definition dueRows (locked : string -> bool) (s : Sched) : list Schedule := List.filter (isDue locked (clock s)) (h_schedules s).

(** The claimed rows a tick queues no job for: from the first one the queue refuses on. *)
Fixpoint unqueued (queue : string -> option exn) (due : list Schedule) : list Schedule :=
  match due with
  | [] => []
  | r :: rest => match queue (dispatchJobId (sc_id r) (sc_nextRunAt r)) with Some _ => due | None => unqueued queue rest end
  end.

(** A worker's step, a tick that leaves without a job only rows of [X], a request of a customer,
    the write of an edit at any time after its read and before the instant it plans, whatever
    the rest of the platform does, and the deletion of a server. *)
Inductive schedStep (s s' : Sched) : Prop :=
  | st_work : workStep s s' -> schedStep s s'
  | st_tick locked queue r : tickOnce locked queue s = (r, s') ->
      (forall x, x ∈ unqueued queue (dueRows locked s) -> X (sc_id x)) -> schedStep s s'
  | st_create actor v dto r : createSchedule actor v dto s = (r, s') -> schedStep s s'
  | st_edit actor v id dto r : editSchedule actor v id dto s = (r, s') -> schedStep s s'
  | st_editWrite id dto fields tz next r : accepted fields tz -> clock s < next ->
      updateSchedule id (patchSchedule dto fields tz next) s = (r, s') -> schedStep s s'
  | st_remove actor v id r : removeSchedule actor v id s = (r, s') -> schedStep s s'
  | st_addTask actor v id dto r : addTask actor v id dto s = (r, s') -> schedStep s s'
  | st_removeTask actor v id task r : removeTask actor v id task s = (r, s') -> schedStep s s'
  | st_outside c : outside (h_control s) c -> s' = s <| h_control := c |> -> schedStep s s'
  | st_serverGone v c : c_now (h_control s) <= c_now c -> (x_next (c_access (h_control s)) <= x_next (c_access c))%N -> nodesOk c ->
      (forall id, id ∈ serverIds (h_control s) -> id <> v -> id ∈ serverIds c) ->
      s' = dropSchedules (fun r => sc_serverId r =s v) (s <| h_control := c |>) -> schedStep s s'.

(** ** Each step keeps the invariant *)

Definition pres (s s' : Sched) : Prop := SchedInv s -> SchedInv s'.

#[export] Instance pres_preorder : PreOrder pres.
Proof. split; [intros s Hs; exact Hs|]. intros a b c A B Ha. by apply B, A. Qed.

Lemma drawn_grows s s' id : (x_next (c_access (h_control s)) <= x_next (c_access (h_control s')))%N -> drawn s id -> drawn s' id.
Proof. intros Hn (n & Hl & ->). exists n. split; [lia|done]. Qed.

Lemma calm_pres s s' : calm s s' -> pres s s'.
Proof.
  intros ((C1 & C2 & C3 & C4) & Es & Ej & Er) [I1 I2 I3 I4 I5 I6 I7 I8 I9 I10 I11 I12].
  split; rewrite ?Es, ?Ej, ?Er; try done; unfold clock in *.
  - lia.
  - auto.
  - intros r Hr. destruct (I4 r Hr) as (D & V & A & N). split_and!; [by apply (drawn_grows s)|auto|done|done].
  - intros j Hj. destruct (I6 j Hj) as (D & E & B). split_and!; [by apply (drawn_grows s)|done|lia|lia].
Qed.

Lemma calm_keeps {A} (m : MH A) : keeps calm m -> keeps pres m.
Proof. intros Hm s r s' Hr. by apply calm_pres, (Hm s r). Qed.

Lemma modify_calm f : (forall s, calm s (f s)) -> keeps calm (modify f).
Proof. intros Hf s r s' [= _ <-]. apply Hf. Qed.

Lemma tasks_calm s l : calm s (s <| h_tasks := l |>).
Proof. unfold calm. split_and!; reflexivity. Qed.

Lemma addTask_calm actor v id dto : keeps calm (addTask actor v id dto).
Proof. unfold addTask, createTask. keeps_auto. apply modify_calm. intros ?. apply tasks_calm. Qed.

Lemma removeTask_calm actor v id t : keeps calm (removeTask actor v id t).
Proof. unfold removeTask. keeps_auto. apply modify_calm. intros ?. apply tasks_calm. Qed.

(** Deleting rows: nothing refers to a deleted schedule but jobs, which find it gone. *)
Lemma drop_pres p s : pres s (dropSchedules p s).
Proof.
  intros [I1 I2 I3 I4 I5 I6 I7 I8 I9 I10 I11 I12].
  assert (forall r, r ∈ List.filter (fun r => negb (p r)) (h_schedules s) -> r ∈ h_schedules s) as Hin.
  { intros r [Hr _]%list_elem_of_In%filter_In. by apply list_elem_of_In. }
  split; simpl; try done.
  - by apply NoDup_map_filter.
  - intros r Hr. by apply I4, Hin.
  - intros r j Hr. by apply I7, Hin.
  - intros r Hr. by apply I8, Hin.
Qed.
End Invariant.

Section Steps.
Context `{Platform} `{Secrets} `{Agents} `{Cron} `{!ScheduleLaws}. Context (X : string -> Prop).

Lemma next_later f tz t t' : computeNextRunAt f tz t = Ok t' -> t < t' /\ accepted f tz.
Proof.
  unfold computeNextRunAt. destruct (cronNext _ _ _) as [m|u] eqn:E; [done|]. intros [= ->].
  split; [by eapply cron_later|]. by exists t, t'.
Qed.

Lemma accepted_next f tz t : accepted f tz -> exists t', computeNextRunAt f tz t = Ok t'.
Proof. intros (u & u' & E). unfold computeNextRunAt. destruct (cron_again _ _ _ _ t E) as [t' ->]. by exists t'. Qed.

Lemma resolveH_server actor v s acc s' : resolveH actor v s = (Ok acc, s') -> sv_id (ra_server acc) ∈ serverIds (h_control s).
Proof.
  unfold resolveH, onControl, resolveC, onAccess. destruct (resolve _ _ _ _ _) as [r a] eqn:E. intros [= -> _].
  unfold resolve in E. rewrite bind_gets in E. apply bind_ok in E as (server & a1 & E1 & E). apply orThrow_ok in E1 as [Hf ->].
  apply findFirst_some in Hf as [Hin _]. assert (ra_server acc = server) as ->.
  { destruct (xa_isAdmin actor); [by injection E as <- _|]. destruct (sv_ownerId server =s xa_id actor); [by injection E as <- _|].
    apply bind_ok in E as (? & ? & _ & E). by injection E as <- _. }
  apply list_elem_of_In, in_map. by apply list_elem_of_In.
Qed.

(** A new row, under an id drawn for it. *)
Lemma insert_pres s row : SchedInv X s -> drawn s (sc_id row) -> (forall r, r ∈ h_schedules s -> sc_id r <> sc_id row) ->
  (forall j, j ∈ h_jobs s -> jb_scheduleId j <> sc_id row) -> sc_serverId row ∈ serverIds (h_control s) ->
  accepted (sc_cron row) (sc_timezone row) -> clock s < sc_nextRunAt row -> sc_isProcessing row = false ->
  SchedInv X (s <| h_schedules := h_schedules s ++ [row] |>).
Proof.
  intros [I1 I2 I3 I4 I5 I6 I7 I8 I9 I10 I11 I12] Hd Hr Hj Hv Ha Hn Hp. split; simpl; try done.
  - rewrite List.map_app. apply NoDup_app. split_and!; [done| |apply NoDup_singleton].
    intros x (r & <- & Hin)%list_elem_of_In%in_map_iff E%list_elem_of_singleton. by apply (Hr r); [apply list_elem_of_In|].
  - intros r [Hin| ->%list_elem_of_singleton]%elem_of_app; [by apply I4|]. split_and!; try done. lia.
  - intros r j [Hin| ->%list_elem_of_singleton]%elem_of_app; [by apply I7|]. intros _ Hjin E. by destruct (Hj j Hjin).
  - intros r [Hin| ->%list_elem_of_singleton]%elem_of_app; [by apply I8|]. congruence.
Qed.

(** An edited row keeps its id, its server and its claim. *)
Lemma replace_pres s id row row' : SchedInv X s -> findId id (h_schedules s) = Some row -> sc_id row' = sc_id row ->
  sc_serverId row' = sc_serverId row -> accepted (sc_cron row') (sc_timezone row') -> clock s < sc_nextRunAt row' ->
  sc_isProcessing row' = sc_isProcessing row -> SchedInv X (s <| h_schedules := updId id (fun _ => row') (h_schedules s) |>).
Proof.
  intros I Hf Ei Ev Ha Hn Hp. pose proof I as [I1 I2 I3 I4 I5 I6 I7 I8 I9 I10 I11 I12]. apply findId_some in Hf as Hf2. destruct Hf2 as [Hin Hid].
  assert (forall r, r ∈ updId id (fun _ => row') (h_schedules s) -> exists r0, r0 ∈ h_schedules s /\ sc_id r = sc_id r0 /\
    sc_isProcessing r = sc_isProcessing r0 /\ (r = r0 \/ r = row' /\ r0 = row)) as Back.
  { intros r (y & Hy & ->)%(updId_elem id _ (h_schedules s) r I3). case_bool_decide as E; [|by exists y; auto].
    exists row. split_and!; auto. }
  split; simpl; try done.
  - change sc_id with (@rid Schedule _). rewrite (replace_rids id row row' (h_schedules s) Hf); [done|]. rewrite <- Hid. apply Ei.
  - intros r (r0 & Hr0 & E1 & E2 & [->|[-> ->]])%Back; [by apply I4|]. destruct (I4 row Hin) as (D & V & _ & _). rewrite Ei, Ev.
    split_and!; try done. lia.
  - intros r j (r0 & Hr0 & E1 & E2 & [->|[-> ->]])%Back; [by apply I7|]. rewrite Hp, Ei. intros P Hj Es.
    destruct (I7 row j Hin P Hj Es) as [_ ?]. destruct (I6 j Hj) as (_ & _ & B). split; [lia|done].
  - intros r (r0 & Hr0 & -> & -> & _)%Back. by apply I8.
Qed.

Lemma create_pres actor v dto : keeps (pres X) (createSchedule actor v dto).
Proof.
  intros s r s' Hr I. unfold createSchedule in Hr.
  apply bind_inv in Hr as [(e & Hr & _)|(acc & s1 & Hres & Hr)]; [by eapply (calm_pres X s), I; eapply resolveH_calm|].
  pose proof (resolveH_server _ _ _ _ _ Hres) as Hv. apply resolveH_calm in Hres as C.
  assert (sv_id (ra_server acc) ∈ serverIds (h_control s1)) as Hv1 by (apply C, Hv). apply (calm_pres X _ _ C) in I. clear s C Hv Hres.
  apply bind_throwIf in Hr as [[_ ->]|[_ Hr]]; [done|]. rewrite bind_gets in Hr. apply bind_throwIf in Hr as [[_ ->]|[_ Hr]]; [done|].
  rewrite bind_gets in Hr. apply bind_inv in Hr as [(e & Hr & _)|(t & s2 & Hr & Hk)]; [by apply lift_ok in Hr as [_ ->]|].
  apply lift_ok in Hr as [Ht ->]. apply next_later in Ht as [Ht Ha].
  apply bind_inv in Hk as [(e & Hr & _)|(n & s2 & Hr & Hk)]; [done|]. injection Hr as En E2. subst n.
  set (row := mkSchedule _ _ _ _ _ _ _ _ _ _ _ _) in Hk.
  assert (calm s1 s2) as C by (subst s2; unfold calm, outside; simpl; split_and!; first [lia|done|reflexivity]).
  apply bind_inv in Hk as [(e & Hr & _)|(? & s3 & Hr & Hk)]; [done|]. apply modify_ok in Hr as [_ ->].
  refine (_ (_ : SchedInv X _)); cycle 1.
  - apply (insert_pres s2 row); subst s2; simpl.
    + by apply (calm_pres X s1).
    + exists (x_next (c_access (h_control s1))). simpl. split; [lia|done].
    + intros r0 Hr0 E. destruct (si_row _ _ I r0 Hr0) as ((n & Hn & En) & _). rewrite En in E. apply uuid_inj in E. lia.
    + intros j Hj E. destruct (si_job _ _ I j Hj) as ((n & Hn & En) & _). rewrite En in E. apply uuid_inj in E. lia.
    + exact Hv1.
    + exact Ha.
    + exact Ht.
    + done.
  - intros I3. revert I3. eapply (calm_keeps X (auditH _ _ _ ;; activityH _ _ _ ;; mret _)); [keeps_auto|exact Hk].
Qed.

Lemma getOwned_row actor v id p s x s' : getOwned actor v id p s = (Ok x, s') -> calm s s' /\ x.1.2 ∈ h_schedules s' /\ sc_id x.1.2 = id.
Proof.
  intros Hr. pose proof (getOwned_calm _ _ _ _ _ _ _ Hr) as C. split; [done|]. unfold getOwned in Hr.
  apply bind_ok in Hr as (acc & s1 & _ & Hr). apply bind_ok in Hr as (? & s2 & E & Hr). apply throwIf_ok in E as [_ ->].
  rewrite bind_gets in Hr. apply bind_ok in Hr as (row & s3 & E & Hr). apply orThrow_ok in E as [Hf ->]. rewrite bind_gets in Hr.
  apply mret_ok in Hr as [[= ->] ->]. apply findFirst_some in Hf as [Hin E]. rewrite andb_true_iff, !bool_decide_eq_true in E. by destruct E.
Qed.

Lemma updateSchedule_inv id f s r s' : updateSchedule id f s = (r, s') ->
  (exists e, r = Throw e) /\ s' = s \/
  exists row row', findId id (h_schedules s) = Some row /\ f row = Ok row' /\ r = Ok row' /\
    s' = s <| h_schedules := updId id (fun _ => row') (h_schedules s) |>.
Proof.
  unfold updateSchedule. rewrite bind_gets. intros [(-> & -> & ->)|(row & Hf & Hr)]%bind_orThrow_inv; [left; eauto|].
  apply bind_inv in Hr as [(e & Hr & ->)|(row' & s1 & Hr & Hk)].
  - apply lift_ok in Hr as [_ ->]. left; eauto.
  - apply lift_ok in Hr as [Hf' ->]. injection Hk as <- <-. right. by exists row, row'.
Qed.

Lemma edit_pres actor v id dto : keeps (pres X) (editSchedule actor v id dto).
Proof.
  intros s r s' Hr I. unfold editSchedule in Hr.
  apply bind_inv in Hr as [(e & Hr & _)|([[server row] tasks] & s1 & Hr & Hk)]; [by eapply (calm_pres X s), I; eapply getOwned_calm|].
  apply getOwned_row in Hr as (C & Hin & Hid). simpl in Hin, Hid. apply (calm_pres X _ _ C) in I. clear s C.
  rewrite bind_gets in Hk. apply bind_inv in Hk as [(e & Hr & _)|(t & s2 & Hr & Hk)]; [by apply lift_ok in Hr as [_ ->]|].
  apply lift_ok in Hr as [Ht ->]. apply next_later in Ht as [Ht Ha].
  assert (findId (sc_id row) (h_schedules s1) = Some row) as Hf by (apply findId_unique; [apply I|done]).
  apply bind_inv in Hk as [(e & Hr & _)|(row' & s2 & Hr & Hk)].
  - apply updateSchedule_inv in Hr as [[_ ->]|(? & ? & _ & _ & [=] & _)]. done.
  - apply updateSchedule_inv in Hr as [[[e [=]] _]|(row0 & ? & Hf0 & Hp & [= <-] & ->)]. rewrite Hf in Hf0. injection Hf0 as <-.
    unfold patchSchedule in Hp. patches Hp.
    match type of Hk with _ ?st = _ => assert (SchedInv X st) as I3 end.
    { eapply replace_pres; [exact I|exact Hf|reflexivity|reflexivity|exact Ha|exact Ht|reflexivity]. }
    revert I3. eapply (calm_keeps X (auditH _ _ _ ;; activityH _ _ _ ;; mret _)); [keeps_auto|exact Hk].
Qed.

(** The write of an edit, whenever it comes: only the instant it plans has to be ahead. *)
Lemma editWrite_pres id dto fields tz next s r s' : accepted fields tz -> clock s < next ->
  updateSchedule id (patchSchedule dto fields tz next) s = (r, s') -> pres X s s'.
Proof.
  intros Ha Ht E I. apply updateSchedule_inv in E as [[_ ->]|(row & row' & Hf & Hp & _ & ->)]; [done|]. unfold patchSchedule in Hp. patches Hp.
  eapply replace_pres; [exact I|exact Hf|reflexivity|reflexivity|exact Ha|exact Ht|reflexivity].
Qed.

Lemma remove_pres actor v id : keeps (pres X) (removeSchedule actor v id).
Proof.
  unfold removeSchedule. apply (keeps_bind (pres X)); [apply calm_keeps, getOwned_calm|intros [[server row] tasks]].
  apply (keeps_bind (pres X)); [|intros _; apply calm_keeps; keeps_auto]. intros s r s' [= _ <-]. apply drop_pres.
Qed.

(** ** The tick *)

Definition newJob (r : Schedule) : Job := mkJob (dispatchJobId (sc_id r) (sc_nextRunAt r)) (sc_id r) (sc_nextRunAt r) job_waiting.

Definition queued (queue : string -> option exn) (due : list Schedule) : list Schedule :=
  firstn (List.length due - List.length (unqueued queue due)) due.

Lemma queued_split queue due : due = queued queue due ++ unqueued queue due.
Proof.
  unfold queued. assert (exists l, due = l ++ unqueued queue due) as [l E].
  { induction due as [|r due [l IH]]; [by exists []|]. simpl. destruct (queue _); [by exists []|]. exists (r :: l). simpl. by rewrite <- IH. }
  set (u := unqueued queue due) in *. clearbody u. subst due. f_equal. rewrite List.length_app.
  replace (List.length l + List.length u - List.length u)%nat with (List.length l) by lia.
  by rewrite List.firstn_app, List.firstn_all, Nat.sub_diag, app_nil_r.
Qed.

Lemma queued_cons queue r due : queue (dispatchJobId (sc_id r) (sc_nextRunAt r)) = None -> queued queue (r :: due) = r :: queued queue due.
Proof.
  intros E. apply (app_inv_tail (unqueued queue due)). pose proof (queued_split queue (r :: due)) as Hs1. simpl unqueued in Hs1. rewrite E in Hs1.
  rewrite <- Hs1. simpl. by rewrite <- queued_split.
Qed.

Lemma queued_elem queue due r : r ∈ due <-> r ∈ queued queue due \/ r ∈ unqueued queue due.
Proof. rewrite <- elem_of_app. by rewrite <- queued_split. Qed.

(** The jobs of a tick: those of the rows before the first one the queue refuses. *)
Lemma addJobs_run queue due : forall s r s', NoDup (map sc_id due) -> (forall r, r ∈ due -> 0 <= sc_nextRunAt r) ->
  (forall r, r ∈ due -> jb_id (newJob r) ∉ map jb_id (h_jobs s)) ->
  forEach due (addJob queue) s = (r, s') -> s' = s <| h_jobs := h_jobs s ++ map newJob (queued queue due) |>.
Proof.
  induction due as [|r due IH]; intros s res s' Hn Hp Hf E; simpl in E.
  - apply mret_ok in E as [_ ->]. simpl. rewrite app_nil_r. by destruct s.
  - destruct (queue (dispatchJobId (sc_id r) (sc_nextRunAt r))) as [e|] eqn:Eq.
    { assert (addJob queue r s = (Throw e, s)) as Ea by (unfold addJob; by rewrite Eq). rewrite (bind_throw _ _ _ _ _ Ea) in E. injection E as _ <-. unfold queued. simpl unqueued. rewrite Eq, Nat.sub_diag. simpl. rewrite app_nil_r. by destruct s. }
    rewrite (queued_cons queue r due Eq). erewrite (bind_run (addJob queue r) _ s tt) in E by (unfold addJob; rewrite Eq; reflexivity).
    simpl in Hn. apply NoDup_cons in Hn as [Hr Hn].
    assert (existsb (fun j => jb_id j =s dispatchJobId (sc_id r) (sc_nextRunAt r)) (h_jobs s) = false) as Ex.
    { apply not_true_iff_false. intros (j & Hj & Ej%bool_decide_eq_true)%existsb_exists. apply (Hf r); [apply elem_of_cons; by left|].
      simpl. rewrite <- Ej. apply list_elem_of_In, in_map, Hj. }
    rewrite Ex in E. apply IH in E; [| done | |].
    + rewrite E. simpl. by rewrite <- app_assoc.
    + intros x Hx. apply Hp, elem_of_cons. by right.
    + intros x Hx. simpl. rewrite List.map_app. intros [Hx'|Hx']%elem_of_app.
      * by apply (Hf x); [apply elem_of_cons; right|].
      * simpl in Hx'. apply list_elem_of_singleton, dispatchJobId_inj in Hx' as [Hx' _]; [|apply Hp, elem_of_cons; first [by left|by right]..].
        apply Hr. rewrite <- Hx'. apply list_elem_of_In, in_map. by apply list_elem_of_In.
Qed.

Lemma due_elem locked s r : r ∈ dueRows locked s -> r ∈ h_schedules s /\ sc_isActive r = true /\ sc_isProcessing r = false /\ sc_nextRunAt r <= clock s.
Proof.
  unfold dueRows. intros [Hr E]%list_elem_of_In%filter_In. split; [by apply list_elem_of_In|]. unfold isDue in E.
  rewrite !andb_true_iff, negb_true_iff in E. destruct E as [[[E1 E2] E3] _]. split_and!; [done|done|lia].
Qed.

(** The queue does not know the job of a due row yet: its planned run is later than any before. *)
Lemma due_fresh locked s r : SchedInv X s -> r ∈ dueRows locked s -> jb_id (newJob r) ∉ map jb_id (h_jobs s).
Proof.
  intros I (Hr & _ & Hp & Ht)%due_elem. simpl. intros (j & Ej & Hj)%list_elem_of_In%in_map_iff. apply list_elem_of_In in Hj.
  destruct (si_job _ _ I j Hj) as (_ & Eid & B). rewrite Eid in Ej. destruct (si_row _ _ I r Hr) as (_ & _ & _ & N).
  apply dispatchJobId_inj in Ej as [Es Et]; [|lia|done]. destruct (si_idle _ _ I r j Hr Hp Hj Es). lia.
Qed.

Lemma tick_effect locked queue s r s' : SchedInv X s -> tickOnce locked queue s = (r, s') ->
  s' = s <| h_schedules := updWhere (fun r => bool_decide (sc_id r ∈ map sc_id (dueRows locked s))) claimed (h_schedules s) |>
         <| h_jobs := h_jobs s ++ map newJob (queued queue (dueRows locked s)) |>.
Proof.
  intros I E. unfold tickOnce in E. erewrite (bind_run (claimDue locked)) in E by reflexivity.
  fold (dueRows locked s) in E. apply addJobs_run in E.
  - exact E.
  - apply NoDup_map_filter, I.
  - intros x [Hx _]%due_elem. by apply (si_row _ _ I).
  - intros x Hx. exact (due_fresh locked s x I Hx).
Qed.

(** Two rows with one id, one of them due. *)
Lemma due_same locked s r r0 : SchedInv X s -> r ∈ h_schedules s -> r0 ∈ dueRows locked s -> sc_id r0 = sc_id r -> r0 = r.
Proof. intros I Hr [Hr0 _]%due_elem E. apply (NoDup_map_inj sc_id (h_schedules s)); [apply I|done..]. Qed.

Lemma newJobs_NoDup locked queue s : SchedInv X s -> NoDup (map jb_id (map newJob (queued queue (dueRows locked s)))).
Proof.
  intros I. assert (NoDup (map jb_id (map newJob (dueRows locked s)))) as Hall; cycle 1.
  { rewrite (queued_split queue (dueRows locked s)), !List.map_app in Hall. by apply NoDup_app in Hall as [? _]. }
  rewrite map_map. apply (NoDup_fmap_2_strong (fun r => jb_id (newJob r))).
  - intros x y Hx Hy E. pose proof (due_elem _ _ _ Hx) as [Hx' _]. pose proof (due_elem _ _ _ Hy) as [Hy' _].
    apply dispatchJobId_inj in E as [E _]; [|by apply (si_row _ _ I)..]. by apply (due_same locked s).
  - apply (NoDup_fmap_1 sc_id). apply NoDup_map_filter, I.
Qed.

Lemma tick_pres locked queue s res s' : tickOnce locked queue s = (res, s') ->
  (forall x, x ∈ unqueued queue (dueRows locked s) -> X (sc_id x)) -> pres X s s'.
Proof.
  intros E HX I. apply tick_effect in E as ->; [|done]. pose proof I as [I1 I2 I3 I4 I5 I6 I7 I8 I9 I10 I11 I12].
  set (D := dueRows locked s). set (p := fun r => bool_decide (sc_id r ∈ map sc_id D)).
  assert (forall r, r ∈ h_schedules s -> p r = true -> r ∈ D) as Due.
  { intros r Hr (r0 & E & Hr0)%bool_decide_eq_true%list_elem_of_In%in_map_iff. apply list_elem_of_In in Hr0.
    by rewrite <- (due_same locked s r r0 I Hr Hr0 E). }
  assert (forall r, r ∈ D -> p r = true) as Due'.
  { intros r Hr. apply bool_decide_eq_true, list_elem_of_In, in_map. by apply list_elem_of_In. }
  assert (forall j, j ∈ map newJob (queued queue D) -> exists r, r ∈ D /\ j = newJob r) as New.
  { intros j (x & <- & Hx)%list_elem_of_In%in_map_iff. exists x. split; [|done]. apply (queued_elem queue). left. by apply list_elem_of_In. }
  split; simpl; try done.
  - unfold updWhere. rewrite map_map. erewrite map_ext; [exact I3|]. intros r. by destruct (_ r).
  - intros r' (r & Hr & ->)%updWhere_elem. destruct (I4 r Hr) as (A & B & C & N). fold (p r). by destruct (p r).
  - rewrite List.map_app. apply NoDup_app. split_and!; [done| |by apply newJobs_NoDup].
    intros x Hx Hx'. apply list_elem_of_In, in_map_iff in Hx' as (j & <- & Hj). apply list_elem_of_In, New in Hj as (r & Hr & ->).
    by apply (due_fresh locked s r).
  - intros j [Hj|(r & Hr & ->)%New]%elem_of_app; [by apply I6|]. apply due_elem in Hr as (Hr & _ & _ & Ht).
    destruct (I4 r Hr) as (A & B & C & N). split_and!; done.
  - intros r' j (r & Hr & ->)%updWhere_elem. fold (p r). destruct (p r) eqn:Ep; [done|]. intros Hp [Hj|(r0 & Hr0 & ->)%New]%elem_of_app Es; [by apply I7|].
    simpl in Es. rewrite (due_same locked s r r0 I Hr Hr0 Es) in Hr0. by rewrite Due' in Ep.
  - intros r' (r & Hr & ->)%updWhere_elem. fold (p r). destruct (p r) eqn:Ep; intros Hp.
    + apply Due in Ep; [|done]. apply (queued_elem queue) in Ep as [Hq|Hq]; [right|left; exact (HX r Hq)].
      exists (newJob r). split_and!; [|done|by left]. apply elem_of_app. right. by apply list_elem_of_In, in_map, list_elem_of_In.
    + destruct (I8 r Hr Hp) as [HXr|(j & Hj & E)]; [by left|right]. exists j. split; [apply elem_of_app; by left|done].
  - assert (forall j r, j ∈ h_jobs s -> r ∈ D -> live j -> jb_scheduleId j <> sc_id r) as Mixed.
    { intros j r Hj (Hr & _ & Hp & _)%due_elem Hl Es. by destruct (I7 r j Hr Hp Hj Es). }
    intros j j' [Hj|(r & Hr & ->)%New]%elem_of_app [Hj'|(r' & Hr' & ->)%New]%elem_of_app L L' Es; [by apply I9| | |].
    + by destruct (Mixed j r').
    + by destruct (Mixed j' r).
    + simpl in Es. f_equal. apply (due_same locked s); [done| |done|done]. by apply due_elem in Hr' as [? _].
  - intros id r Hin. destruct (I11 id r Hin) as (A & j & Hj & E). split; [done|]. exists j. split; [apply elem_of_app; by left|done].
  - intros j [Hj|(r & Hr & ->)%New]%elem_of_app Ha; [by apply I12|done].
Qed.

(** ** The worker *)

Lemma startRun_inv id s r s' : SchedInv X s -> startRun id s = (r, s') -> calm s s' /\
  (findId id (h_schedules s) = None /\ r = Ok None \/
   exists row run, findId id (h_schedules s) = Some row /\ r = Ok (Some run) /\ rn_schedule run = row).
Proof.
  intros I E. split.
  { assert (keeps calm (startRun id)) as K by (unfold startRun; keeps_auto). by apply (K s r). }
  unfold startRun in E. rewrite bind_gets in E. destruct (findId id (h_schedules s)) as [row|] eqn:Ef; [|injection E as <- _; by left].
  right. rewrite bind_gets in E. rewrite bind_gets in E.
  apply findId_some in Ef as Hrow. destruct Hrow as [Hrow _]. destruct (si_row _ _ I row Hrow) as (_ & Hv & _ & _).
  unfold serverIds in Hv. apply list_elem_of_In, in_map_iff in Hv as (v0 & Ev & Hv%list_elem_of_In).
  destruct (findId_elem (x_servers (c_access (h_control s))) v0 Hv) as [v Fv]. change (rid v0) with (sv_id v0) in Fv. rewrite Ev in Fv.
  rewrite Fv in E. unfold orThrow at 1 in E. rewrite bind_ret in E. apply findId_some in Fv as [Fv _]. destruct (si_nodes _ _ I v Fv) as [n Fn].
  assert (onControl (nodeOf v) s = (Ok n, s)) as En.
  { unfold onControl, nodeOf. rewrite bind_gets, Fn. simpl. by destruct s. }
  rewrite (bind_run _ _ _ _ _ En) in E. exists row. destruct (negb _); [injection E as <- _; by eexists|].
  destruct (_ && _); injection E as <- _; by eexists.
Qed.

Lemma jobs_elem s st id j' : SchedInv X s -> j' ∈ h_jobs (setJob st id s) <->
  exists j, j ∈ h_jobs s /\ j' = if jb_id j =s id then j <| jb_state := st |> else j.
Proof. intros I. apply (updId_elem id _ (h_jobs s)). apply I. Qed.

Lemma setJob_ids s st id : map jb_id (h_jobs (setJob st id s)) = map jb_id (h_jobs s).
Proof. change jb_id with (@rid Job _). simpl. by apply updId_rids. Qed.

Lemma job_unique s j j' : SchedInv X s -> j ∈ h_jobs s -> j' ∈ h_jobs s -> jb_id j = jb_id j' -> j = j'.
Proof. intros I. apply NoDup_map_inj, I. Qed.

(** The end of a job: its schedule is released, or gone. *)
Lemma end_pres s j st rows : SchedInv X s -> j ∈ h_jobs s -> live j -> ~ (st = job_waiting \/ st = job_active) -> NoDup (map sc_id rows) ->
  (forall r, r ∈ rows -> r ∈ h_schedules s /\ sc_id r <> jb_scheduleId j \/
     sc_id r = jb_scheduleId j /\ sc_isProcessing r = false /\ clock s < sc_nextRunAt r /\
     sc_serverId r ∈ serverIds (h_control s) /\ accepted (sc_cron r) (sc_timezone r)) ->
  SchedInv X (dropRun (jb_id j) (setJob st (jb_id j) (s <| h_schedules := rows |>))).
Proof.
  intros I Hj Hl Hst Hn Hrows. pose proof I as [I1 I2 I3 I4 I5 I6 I7 I8 I9 I10 I11 I12].
  assert (forall j', j' ∈ h_jobs (setJob st (jb_id j) s) -> j' = j <| jb_state := st |> \/ j' ∈ h_jobs s /\ jb_id j' <> jb_id j) as Back.
  { intros j' (j0 & Hj0 & ->)%jobs_elem; [|done]. case_bool_decide as E; [|by right]. left. f_equal. by apply (job_unique s). }
  assert (forall j', j' ∈ h_jobs s -> jb_id j' <> jb_id j -> j' ∈ h_jobs (setJob st (jb_id j) s)) as Stay.
  { intros j' Hj' E. apply jobs_elem; [done|]. exists j'. by rewrite bool_decide_eq_false_2. }
  assert (forall id r, (id, r) ∈ List.filter (fun p => negb (p.1 =s jb_id j)) (h_runs s) <-> (id, r) ∈ h_runs s /\ id <> jb_id j) as Runs.
  { intros id r. rewrite list_elem_of_In, filter_In, <- list_elem_of_In, negb_true_iff, bool_decide_eq_false. done. }
  split; simpl; try done.
  - intros r [[Hr _]|(E & _ & Ht & Hv & Ha)]%Hrows; [by apply I4|]. rewrite E. destruct (I6 j Hj) as (D & _). split_and!; try done.
    unfold clock in *. lia.
  - change (NoDup (map jb_id (h_jobs (setJob st (jb_id j) s)))). by rewrite setJob_ids.
  - intros j' [->|[Hj' _]]%Back; [exact (I6 j Hj)|by apply I6].
  - intros r j' Hr Hp [->|[Hj' Hne]]%Back Es.
    + simpl in Es. destruct (Hrows r Hr) as [[_ E]|(E & _ & Ht & _)]; [congruence|]. simpl. destruct (I6 j Hj) as (_ & _ & B).
      split; [lia|]. intros [?|?]; simpl in *; auto.
    + destruct (Hrows r Hr) as [[Hr' _]|(E & _ & Ht & _)]; [by apply I7|]. destruct (I6 j' Hj') as (_ & _ & B). split; [lia|].
      intros L. apply Hne. rewrite (I9 j' j Hj' Hj L Hl) by congruence. done.
  - intros r Hr Hp. destruct (Hrows r Hr) as [[Hr' Hne]|(_ & E & _)]; [|congruence]. destruct (I8 r Hr' Hp) as [HX|(j0 & Hj0 & Es & L)]; [by left|right].
    exists j0. split_and!; [|done|done]. apply Stay; [done|]. intros E. apply Hne. rewrite <- Es. by rewrite (job_unique s j0 j).
  - intros a b [->|[Ha Na]]%Back [->|[Hb Nb]]%Back La Lb Es; [done| | |by apply I9].
    + by destruct La as [?|?]; simpl in *; exfalso; auto.
    + by destruct Lb as [?|?]; simpl in *; exfalso; auto.
  - by apply NoDup_map_filter.
  - intros id r [Hin Hne]%Runs. destruct (I11 id r Hin) as (A & j0 & Hj0 & <- & E). split; [done|]. exists j0. split; [by apply Stay|done].
  - intros j' [->|[Hj' Hne]]%Back Ha; [simpl in Ha; exfalso; auto|]. destruct (I12 j' Hj' Ha) as [r Hr]. exists r. by apply Runs.
Qed.

(** A job that starts: its run is recorded. *)
Lemma started_pres s j r : SchedInv X s -> j ∈ h_jobs s -> jb_state j = job_waiting -> sc_id (rn_schedule r) = jb_scheduleId j ->
  accepted (sc_cron (rn_schedule r)) (sc_timezone (rn_schedule r)) ->
  SchedInv X (setJob job_active (jb_id j) s <| h_runs := h_runs s ++ [(jb_id j, r)] |>).
Proof.
  intros I Hj Hw Hs Ha. pose proof I as [I1 I2 I3 I4 I5 I6 I7 I8 I9 I10 I11 I12].
  assert (forall j', j' ∈ h_jobs (setJob job_active (jb_id j) s) -> exists j0, j0 ∈ h_jobs s /\ jb_id j' = jb_id j0 /\
    jb_scheduleId j' = jb_scheduleId j0 /\ jb_planned j' = jb_planned j0 /\ (live j' <-> live j0) /\
    (j' = j0 /\ jb_id j0 <> jb_id j \/ j0 = j /\ j' = j <| jb_state := job_active |>)) as Back.
  { intros j' (j0 & Hj0 & ->)%jobs_elem; [|done]. exists j0. split; [done|]. case_bool_decide as E.
    - apply (job_unique s) in E as ->; [|done..]. split_and!; try done; [|by right]. unfold live. simpl. rewrite Hw. naive_solver.
    - split_and!; try done. by left. }
  assert (forall j0, j0 ∈ h_jobs s -> exists j', j' ∈ h_jobs (setJob job_active (jb_id j) s) /\ jb_id j' = jb_id j0 /\
    jb_scheduleId j' = jb_scheduleId j0 /\ (live j0 -> live j') /\ (jb_state j0 = job_active -> jb_state j' = job_active)) as Forth.
  { intros j0 Hj0. exists (if jb_id j0 =s jb_id j then j0 <| jb_state := job_active |> else j0). split; [apply jobs_elem; [done|]; by exists j0|].
    destruct (_ =s _); split_and!; try done. intros _. by right. }
  assert (forall x, (jb_id j, x) ∉ h_runs s) as NoRun.
  { intros x Hx. destruct (I11 _ _ Hx) as (_ & j0 & Hj0 & E & Ea & _). apply (job_unique s) in E as ->; [congruence|done..]. }
  split; simpl; try done.
  - change (NoDup (map jb_id (h_jobs (setJob job_active (jb_id j) s)))). by rewrite setJob_ids.
  - intros j' (j0 & Hj0 & -> & -> & -> & _)%Back. by apply I6.
  - intros r0 j' Hr0 Hp (j0 & Hj0 & _ & -> & -> & -> & _)%Back. by apply I7.
  - intros r0 Hr0 Hp. destruct (I8 r0 Hr0 Hp) as [HX|(j0 & Hj0 & E & L)]; [by left|right]. destruct (Forth j0 Hj0) as (j' & Hj' & _ & E' & L' & _).
    exists j'. split_and!; [done|congruence|auto].
  - intros a b (a0 & Ha0 & Ea & Sa & _ & La & Ca)%Back (b0 & Hb0 & Eb & Sb & _ & Lb & Cb)%Back L1 L2 Es.
    assert (a0 = b0) as -> by (apply I9; [done..|by apply La|by apply Lb|congruence]).
    destruct Ca as [[-> ?]|[-> ->]], Cb as [[-> ?]|[? ->]]; congruence.
  - rewrite List.map_app. apply NoDup_app. split_and!; [done| |apply NoDup_singleton].
    intros x ([id x'] & <- & Hx)%list_elem_of_In%in_map_iff E%list_elem_of_singleton. simpl in E. subst id. by apply (NoRun x'), list_elem_of_In.
  - intros id r0 [Hin|[= -> ->]%list_elem_of_singleton]%elem_of_app.
    + destruct (I11 id r0 Hin) as (A & j0 & Hj0 & E & Ea & Es). split; [done|]. destruct (Forth j0 Hj0) as (j' & Hj' & E1 & E2 & _ & E3).
      exists j'. split_and!; [done|congruence|auto|congruence].
    + split; [done|]. exists (j <| jb_state := job_active |>). split_and!; [|done|done|done]. apply jobs_elem; [done|]. exists j.
      by rewrite bool_decide_eq_true_2.
  - intros j' (j0 & Hj0 & Eid & _ & _ & _ & [[-> Hne]|[-> ->]])%Back Hact.
    + destruct (I12 j0 Hj0 Hact) as [r0 Hr0]. exists r0. apply elem_of_app. by left.
    + exists r. apply elem_of_app. right. by apply list_elem_of_singleton.
Qed.

Lemma dropRun_none id s : (forall r, (id, r) ∉ h_runs s) -> dropRun id s = s.
Proof.
  intros Hn. unfold dropRun. destruct s as [c sch t jobs runs]. simpl in *. f_equal. induction runs as [|[i r] runs IH]; [done|]. simpl.
  rewrite bool_decide_eq_false_2; simpl.
  - f_equal. apply IH. intros x Hx. apply (Hn x), elem_of_cons. by right.
  - intros ->. apply (Hn r), elem_of_cons. by left.
Qed.

Lemma waiting_noRun s j r : SchedInv X s -> j ∈ h_jobs s -> jb_state j = job_waiting -> (jb_id j, r) ∉ h_runs s.
Proof. intros I Hj Hw Hx. destruct (si_run _ _ I _ _ Hx) as (_ & j0 & Hj0 & E & Ea & _). apply (job_unique s) in E as ->; [congruence|done..]. Qed.

Lemma begin_pres j s : j ∈ h_jobs s -> jb_state j = job_waiting -> pres X s (beginJob j s).
Proof.
  intros Hj Hw I. unfold beginJob. destruct (startRun (jb_scheduleId j) s) as [res s1] eqn:E.
  apply startRun_inv in E as [C Hcase]; [|done]. pose proof C as (_ & Es & Ej & Er). apply (calm_pres X _ _ C) in I.
  rewrite <- Ej in Hj. destruct Hcase as [[Hf ->]|(row & r & Hf & -> & <-)].
  - rewrite <- (dropRun_none (jb_id j) (setJob job_done (jb_id j) s1)) by (intros r; by apply (waiting_noRun s1)).
    replace s1 with (s1 <| h_schedules := h_schedules s1 |>) by (by destruct s1).
    apply end_pres; [done|done|by left|naive_solver|apply I|]. intros r Hr. left. split; [done|]. intros Eid.
    rewrite <- Es in Hf. destruct (findId_elem (h_schedules s1) r Hr) as [x Hx]. change (rid r) with (sc_id r) in Hx. congruence.
  - rewrite <- Es in Hf. apply findId_some in Hf as [Hin Hid]. apply started_pres; [done|done|done|exact Hid|by apply (si_row _ _ I)].
Qed.

Lemma stepTask_inv r s res s' : stepTask r s = (res, s') ->
  calm s s' /\ exists r', res = Ok r' /\ rn_schedule r' = rn_schedule r /\
    (rn_tasks r <> [] -> (List.length (rn_tasks r') < List.length (rn_tasks r))%nat).
Proof.
  intros E. unfold stepTask in E. destruct (rn_tasks r) as [|task rest] eqn:Et.
  { apply mret_ok in E as [-> ->]. split; [reflexivity|]. by exists r. }
  apply bind_inv in E as [(e & E & _)|(? & s1 & E1 & E)].
  { unfold when in E. destruct (0 <? _); [|done]. by injection E. }
  assert (calm s s1) as C1.
  { unfold when in E1. destruct (0 <? tk_timeOffsetSeconds task) eqn:Et0; [|apply mret_ok in E1 as [_ ->]; reflexivity].
    refine (keeps_onControl (sleep (tk_timeOffsetSeconds task * 1000)) _ s _ s1 E1). apply sleep_outside. lia. }
  apply tryCatch_inv in E as [(a & E & ->)|(e & s2 & E & Eh)].
  - apply bind_ok in E as (? & s2 & E2 & E). apply mret_ok in E as [[= ->] ->]. split.
    + transitivity s1; [done|]. by eapply runTask_calm.
    + eexists. split_and!; [done|done|]. intros _. simpl. lia.
  - apply mret_ok in Eh as [-> ->]. split.
    + transitivity s1; [done|]. apply bind_inv in E as [(e' & E & _)|(? & ? & E & E')]; [by eapply runTask_calm|done].
    + eexists. split_and!; [done|done|]. intros _. simpl. destruct (tk_continueOnFailure task); simpl; lia.
Qed.

Definition setRun (id : string) (r' : Run) (p : string * Run) : string * Run := if p.1 =s id then (id, r') else p.

Lemma setRun_ids id r' l : map fst (map (setRun id r') l) = map fst l.
Proof.
  rewrite map_map. apply map_ext. intros [i r]. unfold setRun. simpl. by case_bool_decide as E; [subst|].
Qed.

Lemma advance_pres id r s : (id, r) ∈ h_runs s -> pres X s (advanceJob id r s).
Proof.
  intros Hin I. unfold advanceJob. destruct (stepTask r s) as [res s1] eqn:E. apply stepTask_inv in E as (C & r' & -> & Esc & _).
  pose proof C as (_ & _ & _ & Er). apply (calm_pres X _ _ C) in I. rewrite <- Er in Hin.
  pose proof I as [I1 I2 I3 I4 I5 I6 I7 I8 I9 I10 I11 I12]. fold (setRun id r'). split; simpl; try done.
  - by rewrite setRun_ids.
  - intros i x (p & E & Hp%list_elem_of_In)%list_elem_of_In%in_map_iff. unfold setRun in E. destruct p as [i0 x0]. simpl in E.
    case_bool_decide as Ei; injection E as <- <-; [|by apply I11]. rewrite Esc. by apply (I11 id r).
  - intros j Hj Ha. destruct (I12 j Hj Ha) as [x Hx]. destruct (decide (jb_id j = id)) as [<-|Hne].
    + exists r'. apply list_elem_of_In, in_map_iff. exists (jb_id j, x). unfold setRun. simpl. rewrite bool_decide_eq_true_2 by done.
      split; [done|by apply list_elem_of_In].
    + exists x. apply list_elem_of_In, in_map_iff. exists (jb_id j, x). unfold setRun. simpl. rewrite bool_decide_eq_false_2 by done.
      split; [done|by apply list_elem_of_In].
Qed.

(** [finish] always releases the row, unless it is gone. *)
Lemma endRun_inv r s res s' : accepted (sc_cron (rn_schedule r)) (sc_timezone (rn_schedule r)) -> endRun r s = (res, s') ->
  findId (sc_id (rn_schedule r)) (h_schedules s) = None /\ res = Throw RecordNotFound /\ s' = s \/
  exists row t, findId (sc_id (rn_schedule r)) (h_schedules s) = Some row /\ res = Ok tt /\ clock s < t /\
    s' = s <| h_schedules := updId (sc_id (rn_schedule r)) (fun _ => finished (clock s) (rn_status r) t row) (h_schedules s) |>.
Proof.
  intros Ha E. unfold endRun, finish in E. rewrite bind_gets in E. destruct (accepted_next _ _ (clock s) Ha) as [t Ht]. rewrite Ht in E.
  unfold lift in E. rewrite (bind_run _ _ s t s) in E by done. apply next_later in Ht as [Ht _].
  apply bind_inv in E as [(e & E & ->)|(row' & s1 & E & Ek)].
  - unfold updateSchedule in E. rewrite bind_gets in E. apply bind_orThrow_inv in E as [(Hn & [= ->] & ->)|(row & Hf & E)]; [by left|done].
  - apply updateSchedule_inv in E as [[[e [=]] _]|(row & ? & Hf & [= <-] & _ & ->)]. apply mret_ok in Ek as [-> ->]. right. by exists row, t.
Qed.

Lemma endJob_pres id r s : (id, r) ∈ h_runs s -> pres X s (endJob id r s).
Proof.
  intros Hin I. destruct (si_run _ _ I id r Hin) as (Ha & j & Hj & <- & Hact & Hs). unfold endJob.
  destruct (endRun r s) as [res s1] eqn:E. apply endRun_inv in E; [|done].
  destruct E as [(Hf & -> & ->)|(row & t & Hf & -> & Ht & ->)]; rewrite <- Hs in Hf.
  - replace (dropRun _ (setJob _ _ s)) with (dropRun (jb_id j) (setJob job_failed (jb_id j) (s <| h_schedules := h_schedules s |>))) by (by destruct s).
    apply end_pres; [done|done|by right|naive_solver|apply I|]. intros x Hx. left. split; [done|]. intros Eid.
    destruct (findId_elem (h_schedules s) x Hx) as [y Hy]. change (rid x) with (sc_id x) in Hy. congruence.
  - apply findId_some in Hf as Hf'. destruct Hf' as [Hrow Hid]. rewrite <- Hs. change (sc_id row = jb_scheduleId j) in Hid.
    apply end_pres; [done|done|by right|naive_solver| |].
    + change sc_id with (@rid Schedule _). rewrite (replace_rids _ row); [apply I|done|done].
    + intros x (y & Hy & ->)%(updId_elem _ _ (h_schedules s) x (si_ids _ _ I)). case_bool_decide as Ey; [right|left; done].
      destruct (si_row _ _ I row Hrow) as (_ & V & A & _). by split_and!.
Qed.

Lemma workStep_pres s s' : workStep s s' -> pres X s s'.
Proof. intros [j Hj Hw ->|id r Hin _ ->|id r Hin _ ->]; [by apply begin_pres|by apply advance_pres|by apply endJob_pres]. Qed.

Lemma outside_calm s c : outside (h_control s) c -> calm s (s <| h_control := c |>).
Proof. intros Ho. by split_and!. Qed.

(** The deletion of a server takes its schedules with it. *)
Lemma serverGone_pres s v c : c_now (h_control s) <= c_now c -> (x_next (c_access (h_control s)) <= x_next (c_access c))%N -> nodesOk c ->
  (forall id, id ∈ serverIds (h_control s) -> id <> v -> id ∈ serverIds c) ->
  pres X s (dropSchedules (fun r => sc_serverId r =s v) (s <| h_control := c |>)).
Proof.
  intros Ht Hn Hk Hs I. apply (drop_pres X (fun r => sc_serverId r =s v)) in I. pose proof I as [I1 I2 I3 I4 I5 I6 I7 I8 I9 I10 I11 I12].
  split; simpl in *; try done; unfold clock in *; simpl in *.
  - lia.
  - intros r Hr. destruct (I4 r Hr) as (D & V & A). split; [by apply (drawn_grows s)|]. split; [|done].
    apply Hs; [done|]. apply list_elem_of_In, filter_In in Hr as [_ Hr]. by rewrite negb_true_iff, bool_decide_eq_false in Hr.
  - intros j Hj. destruct (I6 j Hj) as (D & E & B). split_and!; [by apply (drawn_grows s)|done|lia|lia].
Qed.

Lemma schedStep_pres s s' : schedStep X s s' -> pres X s s'.
Proof.
  intros [Hw|locked queue r E HX|actor v dto r E|actor v id dto r E|id dto fields tz next r Ha Ht E|actor v id r E|actor v id dto r E|actor v id t r E|c Ho ->|v c Ht Hn Hk Hs ->].
  - by apply workStep_pres.
  - by eapply tick_pres.
  - by eapply create_pres.
  - by eapply edit_pres.
  - by eapply editWrite_pres.
  - by eapply remove_pres.
  - by eapply calm_keeps; [apply addTask_calm|].
  - by eapply calm_keeps; [apply removeTask_calm|].
  - by apply calm_pres, outside_calm.
  - by apply serverGone_pres.
Qed.

Lemma sched_inv s s' : rtc (schedStep X) s s' -> SchedInv X s -> SchedInv X s'.
Proof. induction 1 as [|a b c Hab _ IH]; [done|]. intros I. by apply IH, (schedStep_pres a). Qed.
End Steps.

(** ** Workers finish *)

Section Progress.
Context `{Platform} `{Secrets} `{Agents} `{Cron} `{!ScheduleLaws}. Context (X : string -> Prop).

(** A job that waits or runs is one a worker can take or go on with. *)
Lemma live_progress s j : SchedInv X s -> j ∈ h_jobs s -> live j -> exists s', workStep s s'.
Proof.
  intros I Hj [Hw|Ha].
  - eexists. by apply (wk_begin _ _ j).
  - destruct (si_active _ _ I j Hj Ha) as [x Hx]. destruct (rn_tasks x) eqn:E; eexists.
    + by apply (wk_end _ _ (jb_id j) x).
    + apply (wk_task _ _ (jb_id j) x); [done|congruence|done].
Qed.

(** Jobs not yet taken, and tasks and ends still to come. *)
Definition waiting (s : Sched) : nat := List.length (List.filter (fun j => jb_state j =s job_waiting) (h_jobs s)).
Definition remaining (s : Sched) : nat := list_sum (map (fun p => S (List.length (rn_tasks p.2))) (h_runs s)).

Lemma filter_updId (f : Job -> Job) (l : list Job) j : NoDup (map jb_id l) -> j ∈ l -> jb_state (f j) <> job_waiting ->
  List.length (List.filter (fun x => jb_state x =s job_waiting) l) =
  (List.length (List.filter (fun x => jb_state x =s job_waiting) (updId (jb_id j) f l)) + if jb_state j =s job_waiting then 1 else 0)%nat.
Proof.
  unfold updId. intros Hn Hj Hf. induction l as [|x l IH]; [by apply not_elem_of_nil in Hj|]. simpl in Hn. apply NoDup_cons in Hn as [Hx Hn].
  simpl. change (rid x) with (jb_id x). destruct (bool_decide_reflect (jb_id x = jb_id j)) as [E|E].
  - assert (x = j) as ->. { apply elem_of_cons in Hj as [->|Hj]; [done|]. destruct Hx. rewrite E. apply list_elem_of_In, in_map. by apply list_elem_of_In. }
    simpl. repeat case_bool_decide; simpl; done || lia.
  - apply elem_of_cons in Hj as [->|Hj]; [done|]. specialize (IH Hn Hj). simpl. destruct (bool_decide (jb_state x = job_waiting)); simpl; lia.
Qed.

Lemma sum_setRun id r r' l : NoDup (map fst l) -> (id, r) ∈ l -> (List.length (rn_tasks r') < List.length (rn_tasks r))%nat ->
  (list_sum (map (fun p => S (List.length (rn_tasks p.2))) (map (setRun id r') l)) < list_sum (map (fun p => S (List.length (rn_tasks p.2))) l))%nat.
Proof.
  intros Hn Hin Hl. induction l as [|[i x] l IH]; [by apply not_elem_of_nil in Hin|]. simpl in Hn. apply NoDup_cons in Hn as [Hx Hn].
  cbn [map]. unfold setRun at 1. simpl fst. case_bool_decide as E.
  - subst i. assert (x = r) as ->. { apply elem_of_cons in Hin as [[= ->]|Hin]; [done|]. destruct Hx. apply list_elem_of_In, in_map_iff. exists (id, r). split; [done|by apply list_elem_of_In]. }
    assert (map (setRun id r') l = l) as ->.
    { clear IH Hin. induction l as [|[i y] l IH]; [done|]. simpl in Hx. simpl. apply not_elem_of_cons in Hx as [Hne Hx]. unfold setRun at 1. simpl.
      rewrite bool_decide_eq_false_2 by congruence. rewrite IH; [done|done|]. simpl in Hn. by apply NoDup_cons in Hn as [_ Hn]. }
    simpl. lia.
  - apply elem_of_cons in Hin as [[= -> _]|Hin]; [done|]. specialize (IH Hn Hin). simpl in *. lia.
Qed.

Lemma sum_dropRun id r l : (id, r) ∈ l ->
  (list_sum (map (fun p => S (List.length (rn_tasks p.2))) (List.filter (fun p : string * Run => negb (p.1 =s id)) l)) <
   list_sum (map (fun p => S (List.length (rn_tasks p.2))) l))%nat.
Proof.
  assert (forall l : list (string * Run), (list_sum (map (fun p => S (List.length (rn_tasks p.2))) (List.filter (fun p => negb (p.1 =s id)) l)) <=
    list_sum (map (fun p => S (List.length (rn_tasks p.2))) l))%nat) as Le.
  { clear l. induction l as [|[i x] l IH]; simpl; [lia|]. destruct (negb _); simpl; lia. }
  intros Hin. induction l as [|[i x] l IH]; [by apply not_elem_of_nil in Hin|]. apply elem_of_cons in Hin as [[= <- <-]|Hin]; simpl.
  - rewrite bool_decide_eq_true_2 by done. simpl. specialize (Le l). lia.
  - specialize (IH Hin). destruct (negb _); simpl; lia.
Qed.

Lemma workStep_decreases s s' : SchedInv X s -> workStep s s' ->
  (waiting s' < waiting s)%nat \/ waiting s' = waiting s /\ (remaining s' < remaining s)%nat.
Proof.
  intros I [j Hj Hw ->|id r Hin Ht ->|id r Hin Ht ->].
  - left. unfold beginJob. destruct (startRun (jb_scheduleId j) s) as [res s1] eqn:E. apply (startRun_inv X) in E as [(_ & _ & Ej & _) _]; [|done].
    assert (forall st, st <> job_waiting -> (waiting (setJob st (jb_id j) s1) < waiting s)%nat) as Hlt.
    { intros st Hst. unfold waiting. simpl. rewrite Ej. rewrite (filter_updId (fun x => x <| jb_state := st |>) (h_jobs s) j (si_jobs _ _ I) Hj) by exact Hst.
      rewrite bool_decide_eq_true_2 by done. simpl. lia. }
    destruct res as [[r|]|e]; [change (waiting (setJob job_active (jb_id j) s1) < waiting s)%nat|..]; by apply Hlt.
  - right. unfold advanceJob. destruct (stepTask r s) as [res s1] eqn:E. apply stepTask_inv in E as ((_ & _ & Ej & Er) & r' & -> & _ & Hlen).
    fold (setRun id r'). unfold waiting, remaining. simpl. rewrite Ej, Er. split; [done|]. apply (sum_setRun id r r'); [apply I|done|auto].
  - right. destruct (si_run _ _ I id r Hin) as (Ha & j & Hj & <- & Hact & _). unfold endJob. destruct (endRun r s) as [res s1] eqn:E.
    assert (h_jobs s1 = h_jobs s /\ h_runs s1 = h_runs s) as [Ej Er].
    { apply endRun_inv in E as [(_ & _ & ->)|(? & ? & _ & _ & _ & ->)]; done. }
    assert (forall st, st <> job_waiting -> waiting (dropRun (jb_id j) (setJob st (jb_id j) s1)) = waiting s /\
      (remaining (dropRun (jb_id j) (setJob st (jb_id j) s1)) < remaining s)%nat) as Hlt.
    { intros st Hst. unfold waiting, remaining. simpl. rewrite Ej, Er. split; [|by apply (sum_dropRun _ r)].
      rewrite (filter_updId (fun x => x <| jb_state := st |>) (h_jobs s) j (si_jobs _ _ I) Hj) by exact Hst.
      rewrite (bool_decide_eq_false_2 (jb_state j = job_waiting)) by congruence. simpl. lia. }
    destruct res; by apply Hlt.
Qed.

Lemma work_terminates s : SchedInv X s -> Acc (fun b a => workStep a b) s.
Proof.
  remember (waiting s) as n eqn:En. revert s En. induction (lt_wf n) as [n _ IHn]. intros s En. remember (remaining s) as m eqn:Em.
  revert s En Em. induction (lt_wf m) as [m _ IHm]. intros s En Em I. constructor. intros s' Hs.
  assert (SchedInv X s') as I' by (by apply (workStep_pres X s)).
  destruct (workStep_decreases s s' I Hs) as [Hl|[He Hl]].
  - apply (IHn (waiting s')); [lia|done|done].
  - apply (IHm (remaining s')); [lia|lia|done|done].
Qed.

Lemma work_inv s s' : rtc workStep s s' -> SchedInv X s -> SchedInv X s'.
Proof. induction 1 as [|a b c Hab _ IH]; [done|]. intros I. by apply IH, (workStep_pres X a). Qed.

(** C14: a claimed schedule is released, unless the queue refused its job.  Take any set [X] of
    schedules.  Whatever ticks, edits, deletions, workers and other services did before, in any
    order and whatever the agents answered, if the ticks left no schedule outside [X] claimed
    without a job (the queue refused that job or an earlier one of the same tick), then the
    dispatch workers run out of work after finitely many steps, and when they have none left no
    schedule outside [X] is marked as processing: a run that fails, hangs on an unreachable node
    or whose server is suspended still gives its claim back.  With an empty [X] this is: while
    the queue accepts every job, no schedule stays marked.  What happens to a schedule whose job
    is refused is [refused_job_strands]. *)
Theorem claimed_schedule_released s0 s s' : SchedInv X s0 -> rtc (schedStep X) s0 s ->
  Acc (fun b a => workStep a b) s /\
  (rtc workStep s s' -> (forall s'', ~ workStep s' s'') -> forall r, r ∈ h_schedules s' -> sc_isProcessing r = true -> X (sc_id r)).
Proof.
  intros I0 Hs. assert (SchedInv X s) as I by (by apply (sched_inv X s0)). split; [by apply work_terminates|].
  intros Hw Hend r Hr Hp. assert (SchedInv X s') as I' by (by apply (work_inv s)).
  destruct (si_busy _ _ I' r Hr Hp) as [?|(j & Hj & _ & Hl)]; [done|]. destruct (live_progress s' j I' Hj Hl) as [s'' Hn]. by destruct (Hend s'').
Qed.

(** C15: a schedule never runs twice at once, and never twice for one planned run.  In every
    reachable state two jobs that wait or run are of different schedules, every job belongs
    to a run that was due when it was queued, and no two jobs are of the same planned run,
    however many ticks and workers there are and whatever customers edit meanwhile. *)
Theorem schedule_never_overlaps s0 s j j' : SchedInv X s0 -> rtc (schedStep X) s0 s -> j ∈ h_jobs s -> j' ∈ h_jobs s ->
  (live j -> live j' -> jb_scheduleId j = jb_scheduleId j' -> j = j') /\ jb_planned j <= clock s /\
  (jb_scheduleId j = jb_scheduleId j' -> jb_planned j = jb_planned j' -> j = j').
Proof.
  intros I0 Hs Hj Hj'. assert (SchedInv X s) as I by (by apply (sched_inv X s0)). split_and!.
  - intros L L' E. by apply (si_one _ _ I).
  - apply (si_job _ _ I j Hj).
  - intros E1 E2. apply (job_unique X s); [done..|]. destruct (si_job _ _ I j Hj) as (_ & -> & _), (si_job _ _ I j' Hj') as (_ & -> & _). congruence.
Qed.
End Progress.

(** ** What a run may do *)

(** A server customers may control: neither suspended nor waiting for its set-up. *)
Definition controllable (v : Server) : Prop := sv_status v <> Srv_suspended /\ sv_status v <> Srv_setup_pending.

(** Every request sent between two states is about a controllable server. *)
Definition rightful (c c' : Control) : Prop :=
  x_servers (c_access c') = x_servers (c_access c) /\
  exists sent, c_calls c' = c_calls c ++ sent /\
    Forall (fun call => exists v, v ∈ x_servers (c_access c) /\ sv_id v = cl_serverId call /\ controllable v) sent.

#[export] Instance rightful_preorder : PreOrder rightful.
Proof.
  split.
  - intros c. split; [done|]. exists []. by rewrite app_nil_r.
  - intros a b c (E1 & l1 & H1 & F1) (E2 & l2 & H2 & F2). split; [congruence|]. exists (l1 ++ l2). rewrite H2, H1, app_assoc. split; [done|].
    apply Forall_app. split; [done|]. by rewrite <- E1.
Qed.

Lemma quiet_rightful {A} (m : MC A) : keeps (same (fun c => (x_servers (c_access c), c_calls c))) m -> keeps rightful m.
Proof. intros Hm s r s' E. apply Hm in E. injection E as E1 E2. split; [done|]. exists []. by rewrite app_nil_r. Qed.

Definition controlKeys : list string := ["control.start"; "control.stop"; "control.restart"; "control.kill"; "backup.create"].

Lemma allowed_controllable st key : key ∈ controlKeys -> allowedForStatus st key = true -> st <> Srv_suspended /\ st <> Srv_setup_pending.
Proof.
  unfold controlKeys. rewrite !elem_of_cons, elem_of_nil.
  intros [->|[->|[->|[->|[->|[]]]]]]; destruct st; vm_compute; (done || intros; split; congruence).
Qed.

Section Rights.
Context `{Platform} `{Secrets} `{Agents} `{Cron}.

Lemma resolveC_quiet actor v : keeps (same (fun c => (x_servers (c_access c), c_calls c))) (resolveC actor v).
Proof.
  intros s r s'. unfold resolveC, onAccess. destruct (resolve _ _ _ _ _) as [r0 a] eqn:E. intros [= _ <-].
  apply resolve_core in E. injection E as E _. unfold same. simpl. by rewrite E.
Qed.

(** What a customer who is not an administrator may do depends on the status of the server. *)
Lemma resolveC_allowed actor v key s acc s' : xa_isAdmin actor = false -> resolveC actor v s = (Ok acc, s') -> ra_can acc key = true ->
  ra_server acc ∈ x_servers (c_access s) /\ allowedForStatus (sv_status (ra_server acc)) key = true.
Proof.
  unfold resolveC, onAccess. intros Ha. rewrite Ha. destruct (resolve _ _ _ _ _) as [r0 a] eqn:E. intros [= -> _] Hk.
  unfold resolve in E. rewrite bind_gets in E. apply bind_ok in E as (server & a1 & E1 & E). apply orThrow_ok in E1 as [Hf ->].
  apply findFirst_some in Hf as [Hin _]. destruct (sv_ownerId server =s xa_id actor).
  - injection E as <- _. done.
  - apply bind_ok in E as (perms & ? & _ & E). injection E as <- _. simpl in Hk. by apply andb_true_iff in Hk as [_ Hk].
Qed.

Lemma agent_rightful {A} (answer : list AgentCall -> Res A) v req s r s' : agent answer v req s = (r, s') ->
  v ∈ x_servers (c_access s) -> controllable v -> rightful s s'.
Proof.
  intros [= _ <-] Hv Hc. split; [done|]. eexists. split; [reflexivity|]. apply Forall_singleton. by exists v.
Qed.

Lemma auditC_rightful action a v : keeps rightful (auditC action a v).
Proof. apply quiet_rightful. by intros s r s' [= _ <-]. Qed.

Lemma recordActivity_rightful a v e : keeps rightful (recordActivity a v e).
Proof. unfold recordActivity. apply quiet_rightful. keeps_auto. by intros s r s' [= _ <-]. Qed.

(** An operation behind a control key, by someone who is not an administrator. *)
Lemma guarded_rightful {A} actor v key (k : ResolvedAccess -> MC A) : xa_isAdmin actor = false -> key ∈ controlKeys ->
  (forall acc s r s', controllable (ra_server acc) -> ra_server acc ∈ x_servers (c_access s) -> k acc s = (r, s') -> rightful s s') ->
  keeps rightful (access ← resolveC actor v; requirePermission access key ;; k access).
Proof.
  intros Ha Hkey Hk s r s' E. apply bind_inv in E as [(e & E & _)|(acc & s1 & E1 & E)]; [by eapply quiet_rightful; [apply resolveC_quiet|]|].
  assert (rightful s s1) as R1 by (by eapply quiet_rightful; [apply resolveC_quiet|]).
  apply bind_throwIf in E as [[_ ->]|[Hc E]]; [done|]. apply negb_false_iff in Hc.
  destruct (resolveC_allowed _ _ _ _ _ _ Ha E1 Hc) as [Hin Hst]. transitivity s1; [done|].
  apply (Hk acc s1 r s'); [by eapply allowed_controllable| |done]. by rewrite (proj1 R1).
Qed.

Lemma power_rightful actor v action : xa_isAdmin actor = false -> keeps rightful (power actor v action).
Proof.
  intros Ha. apply (guarded_rightful actor v (POWER_PERMISSION action)); [done|by destruct action; vm_compute; repeat constructor|].
  intros acc s r s' Hc Hin E. apply bind_inv in E as [(e & E & _)|(x & s1 & E1 & E)]; [by eapply agent_rightful|].
  transitivity s1; [by eapply agent_rightful|]. revert E.
  assert (forall (m : MC (string * string)), keeps rightful m -> m s1 = (r, s') -> rightful s1 s') as K by (intros m Hm; apply Hm). apply K.
  apply (keeps_bind rightful); [apply auditC_rightful|intros _]. apply (keeps_bind rightful); [apply recordActivity_rightful|intros _]. apply (keeps_ret rightful).
Qed.

(** What [sendBackup] sends is about the server it is given. *)
Lemma sendBackup_rightful actor server p s r s' : server ∈ x_servers (c_access s) -> controllable server ->
  sendBackup actor server p s = (r, s') -> rightful s s'.
Proof.
  intros Hin Hc E. apply bind_inv in E as [(e & E & _)|(y & s2 & E2 & E)]; [by eapply agent_rightful|]. transitivity s2; [by eapply agent_rightful|]. revert E.
  assert (forall (m : MC AgentBackup), keeps rightful m -> m s2 = (r, s') -> rightful s2 s') as K by (intros m Hm; apply Hm). apply K.
  apply (keeps_bind rightful); [apply auditC_rightful|intros _]. apply (keeps_bind rightful); [apply recordActivity_rightful|intros _]. apply (keeps_ret rightful).
Qed.

(** The two parts of [createBackup] as one sequence. *)
Lemma createBackup_flat actor v p s : createBackup actor v p s =
  (access ← resolveC actor v; requirePermission access "backup.create" ;;
   (existing ← agent backupsAnswer (ra_server access) ReqListBackups;
    throwIf (sv_maxBackups (ra_server access) <=? Z.of_nat (List.length existing)) (Conflict "Backup limit reached for this server’s plan") ;;
    sendBackup actor (ra_server access) p)) s.
Proof.
  unfold createBackup, backupAdmission, requirePermission, throwIf, mbind, M_bind. destruct (resolveC actor v s) as [[acc|e] s1]; [|done].
  destruct (negb (ra_can acc "backup.create")); [done|]. unfold mret, M_ret. destruct (agent backupsAnswer (ra_server acc) ReqListBackups s1) as [[l|e] s2]; [|done].
  by destruct (sv_maxBackups (ra_server acc) <=? Z.of_nat (List.length l)).
Qed.

Lemma createBackup_rightful actor v p : xa_isAdmin actor = false -> keeps rightful (createBackup actor v p).
Proof.
  intros Ha s0 r0 s0' E0. rewrite createBackup_flat in E0. revert s0 r0 s0' E0.
  apply (guarded_rightful actor v "backup.create"); [done|by vm_compute; repeat constructor|].
  intros acc s r s' Hc Hin E. apply bind_inv in E as [(e & E & _)|(x & s1 & E1 & E)]; [by eapply agent_rightful|].
  assert (rightful s s1) as R1 by (by eapply agent_rightful). transitivity s1; [done|].
  apply bind_throwIf in E as [[_ ->]|[_ E]]; [reflexivity|]. rewrite <- (proj1 R1) in Hin. by eapply sendBackup_rightful.
Qed.

Definition rightfulH (s s' : Sched) : Prop := rightful (h_control s) (h_control s').

#[export] Instance rightfulH_preorder : PreOrder rightfulH.
Proof. split; [intros s; apply rightful_preorder|]. intros a b c A B. unfold rightfulH in *. by transitivity (h_control b). Qed.

Lemma onControl_rightful {A} (m : MC A) : keeps rightful m -> keeps rightfulH (onControl m).
Proof. intros Hm s r s'. unfold onControl. destruct (m (h_control s)) as [r0 c] eqn:E. intros [= _ <-]. by apply Hm in E. Qed.

Lemma runTask_rightful o v act p : keeps rightfulH (runTask o v act p).
Proof.
  unfold runTask. destruct act; (apply (keeps_bind rightfulH); [|intros _; apply (keeps_ret rightfulH)]); apply onControl_rightful;
    [by apply power_rightful|by apply createBackup_rightful].
Qed.

Lemma stepTask_rightful r : keeps rightfulH (stepTask r).
Proof.
  unfold stepTask. destruct (rn_tasks r); [apply (keeps_ret rightfulH)|]. apply (keeps_bind rightfulH); [|intros _].
  - apply (keeps_when rightfulH), onControl_rightful, quiet_rightful. by intros s res s' [= _ <-].
  - apply (keeps_tryCatch rightfulH); [|intros _; apply (keeps_ret rightfulH)].
    apply (keeps_bind rightfulH); [apply runTask_rightful|intros _; apply (keeps_ret rightfulH)].
Qed.
End Rights.

Section RightsTheorem.
Context `{Platform} `{Secrets} `{Agents} `{Cron} `{!ScheduleLaws}. Context (X : string -> Prop).

(** C16: an unattended run has no more rights than the owner clicking the buttons.  Every task
    checks the access again when its turn comes, and whatever requests it then sends to an agent
    are about a server that exists and is neither suspended nor waiting for its set-up at that
    check, whatever it was when the schedule was written or the run started.  The check is not
    repeated before each request of the task: see [backup_after_suspension]. *)
Theorem unattended_runs_respect_suspension s s' : SchedInv X s -> workStep s s' ->
  exists sent, c_calls (h_control s') = c_calls (h_control s) ++ sent /\
    forall call, call ∈ sent -> exists v, v ∈ x_servers (c_access (h_control s)) /\ sv_id v = cl_serverId call /\ controllable v.
Proof.
  intros I Hw. cut (rightfulH s s'). { intros (_ & sent & E & F). exists sent. split; [done|]. by apply Forall_forall. }
  assert (forall s1, c_access (h_control s1) = c_access (h_control s) -> c_calls (h_control s1) = c_calls (h_control s) -> rightfulH s s1) as Q.
  { intros s1 E1 E2. split; [by rewrite E1|]. exists []. by rewrite E2, app_nil_r. }
  destruct Hw as [j Hj Hwait ->|id r Hin _ ->|id r Hin _ ->].
  - unfold beginJob. destruct (startRun (jb_scheduleId j) s) as [res s1] eqn:E.
    assert (rightfulH s s1) as R.
    { assert (keeps rightfulH (startRun (jb_scheduleId j))) as K; [|by apply (K s res)]. unfold startRun. keeps_auto.
      apply onControl_rightful, quiet_rightful. unfold nodeOf. keeps_auto. }
    destruct res as [[x|]|e]; exact R.
  - unfold advanceJob. destruct (stepTask r s) as [res s1] eqn:E. apply stepTask_rightful in E. destruct res; exact E.
  - destruct (si_run _ _ I id r Hin) as (Ha & _). unfold endJob. destruct (endRun r s) as [res s1] eqn:E.
    apply endRun_inv in E as [(_ & -> & ->)|(row & t & _ & -> & _ & ->)]; [by apply Q|by apply Q|done].
Qed.
End RightsTheorem.

Section Outcome.
Context `{Platform} `{Secrets} `{Agents} `{Cron} `{!ScheduleLaws}. Context (X : string -> Prop).

Lemma runTasks_inv n : forall r s, exists r' s', runTasks n r s = (Ok r', s') /\ calm s s' /\ rn_schedule r' = rn_schedule r /\
  (rn_tasks r = [] -> r' = r /\ s' = s).
Proof.
  induction n as [|n IH]; intros r s; simpl; [by exists r, s; split_and!; reflexivity || done|].
  destruct (rn_tasks r) as [|t rest] eqn:Et; [by exists r, s; split_and!; reflexivity || done|].
  destruct (stepTask r s) as [res s1] eqn:E. pose proof E as E0. apply stepTask_inv in E as (C & r1 & -> & Es & _).
  destruct (IH r1 s1) as (r' & s' & E' & C' & Es' & _). exists r', s'. rewrite (bind_run _ _ _ _ _ E0). split_and!; [done| |congruence|done].
  by transitivity s1.
Qed.

(** An uninterrupted run of an existing schedule always ends well: whatever the tasks did, the
    row is released, carries a status, and its next run is computed from its own expression at
    the moment the run ended.  An inactive schedule is skipped without a request to any agent. *)
Theorem scheduled_run_outcome id s row : SchedInv X s -> findId id (h_schedules s) = Some row ->
  exists s' st t, run id s = (Ok tt, s') /\ computeNextRunAt (sc_cron row) (sc_timezone row) (clock s') = Ok t /\
    h_schedules s' = updId id (fun _ => finished (clock s') st t row) (h_schedules s) /\ h_jobs s' = h_jobs s /\
    (sc_isActive row = false -> st = run_skipped /\ c_calls (h_control s') = c_calls (h_control s)).
Proof.
  intros I Hf. destruct (startRun id s) as [res s1] eqn:E0. destruct (startRun_inv X id s _ _ I E0) as [C [[Hn _]|(row' & r & Hf' & -> & Er)]]; [congruence|].
  rewrite Hf in Hf'. injection Hf' as <-. apply findId_some in Hf as Hf2. destruct Hf2 as [Hin Hid]. change (sc_id row = id) in Hid.
  destruct (runTasks_inv (List.length (rn_tasks r)) r s1) as (r' & s2 & E2 & C2 & Es2 & Hnil).
  assert (calm s s2) as C3 by (by transitivity s1). destruct C3 as (_ & S3 & J3 & _).
  destruct (si_row _ _ I row Hin) as (_ & _ & Ha & _).
  destruct (accepted_next _ _ (clock s2) Ha) as [t Ht].
  exists (s2 <| h_schedules := updId id (fun _ => finished (clock s2) (rn_status r') t row) (h_schedules s2) |>), (rn_status r'), t. split_and!.
  - unfold run. rewrite (bind_run _ _ _ _ _ E0), (bind_run _ _ _ _ _ E2). unfold endRun, finish. rewrite bind_gets, Es2, Er, Ht.
    unfold lift. rewrite (bind_run _ _ s2 t s2) by done. assert (findId id (h_schedules s2) = Some row) as Hf3 by (by rewrite S3).
    unfold updateSchedule, mbind, M_bind, gets. rewrite Hid, Hf3. done.
  - exact Ht.
  - simpl. by rewrite S3.
  - done.
  - intros Hact. unfold startRun in E0. rewrite bind_gets, Hf in E0. rewrite !bind_gets in E0.
    apply bind_ok in E0 as (v & ? & E0 & E1). apply orThrow_ok in E0 as [_ ->]. apply bind_ok in E1 as (n & s3 & E3 & E1).
    rewrite Hact in E1. simpl in E1. injection E1 as <- <-. destruct (Hnil eq_refl) as [-> ->]. simpl. split; [done|].
    unfold onControl, nodeOf in E3. rewrite bind_gets in E3. destruct (findId (sv_nodeId v) _); simpl in E3; [|done]. by injection E3 as _ <-.
Qed.

(** The condition on the node never holds: no well-formed node row says [offline], the health
    the panel shows is derived from the last heartbeat when it is read.  A schedule that asks
    to run only when its node is online runs all its tasks against an offline one. *)
Theorem only_when_online_ignored id s row : SchedInv X s -> Forall nodeWf (c_nodes (h_control s)) -> findId id (h_schedules s) = Some row ->
  sc_isActive row = true -> exists r s', startRun id s = (Ok (Some r), s') /\ rn_tasks r = tasksOf s id /\ rn_status r = run_success.
Proof.
  intros I Hw Hf Ha. destruct (startRun id s) as [res s1] eqn:E0. 
  destruct (startRun_inv X id s _ _ I E0) as [_ [[Hn _]|(row' & r & Hf' & -> & Er)]]; [congruence|]. exists r, s1. split; [done|].
  unfold startRun in E0. rewrite bind_gets, Hf in E0. rewrite !bind_gets in E0.
  apply bind_ok in E0 as (v & ? & E0 & E1). apply orThrow_ok in E0 as [_ ->]. apply bind_ok in E1 as (n & s3 & E3 & E1).
  unfold onControl, nodeOf in E3. rewrite bind_gets in E3. destruct (findId (sv_nodeId v) (c_nodes (h_control s))) as [n'|] eqn:Fn; simpl in E3; [|done].
  injection E3 as <- <-. apply findId_some in Fn as [Fn _]. rewrite Forall_forall in Hw. specialize (Hw n' Fn).
  unfold nodeWf in Hw. cbv zeta in Hw. destruct_and! Hw. rewrite Ha in E1. simpl in E1.
  rewrite (bool_decide_eq_false_2 (dt_healthStatus (fn_details n') = "offline")) in E1 by done. rewrite andb_false_r in E1. injection E1 as <- _. done.
Qed.

(** A queue that refuses the job of a claimed schedule strands it: the claim was committed
    first, so no later tick sees the schedule as due, at any time, and no job is left to
    release it. *)
Theorem refused_job_strands s row e : dueRows (fun _ => false) s = [row] ->
  exists s', tickOnce (fun _ => false) (fun _ => Some e) s = (Throw e, s') /\ h_jobs s' = h_jobs s /\
    forall locked now r, r ∈ h_schedules s' -> sc_id r = sc_id row -> sc_isProcessing r = true /\ isDue locked now r = false.
Proof.
  intros Hd. unfold tickOnce, claimDue, mbind, M_bind. fold (dueRows (fun _ => false) s). rewrite Hd. simpl. eexists. split_and!; [reflexivity|reflexivity|].
  intros locked now r Hr Eid. simpl in Hr. apply updWhere_elem in Hr as (r0 & Hr0 & ->). revert Eid.
  destruct (bool_decide_reflect (sc_id r0 ∈ [sc_id row])) as [E|E]; intros Eid.
  - split; [done|]. unfold isDue. simpl. by rewrite andb_false_r.
  - destruct E. rewrite Eid. by apply list_elem_of_singleton.
Qed.
End Outcome.

(** ** Witnesses *)

#[local] Existing Instance Demo.platform.
#[local] Existing Instance DemoAuth.secrets.

Module DemoSchedules.

#[export] Instance agents : Agents :=
  {| powerAnswer _ := Ok ("offline", "running"); backupsAnswer _ := Ok []; backupAnswer _ := Ok (mkBackup "b" 1 "" "");
     doneAnswer _ := Ok tt; elapsed _ := 50%N |}.

(** Longer expressions wait longer. *)
#[export] Instance cron : Cron := {| cronNext e _ t := inr (t + 60000 + Z.of_nat (String.length e)) |}.

Definition node : NodeRow := newNode "a" DemoFleet.newNodeDto.

Definition s0 : Sched := mkSched (mkControl DemoShare.state [node] [] [] 1000) [] [] [] [].

Definition noFields : ScheduleFields := mkScheduleFields Unset Unset Unset Unset Unset Unset Unset Unset.

(** The owner plans a restart; a minute later it is due and claimed. *)
Definition s1 : Sched := (createSchedule DemoShare.owner "s" (mkCreateSchedule "nightly" noFields) s0).2.
Definition s2 : Sched := (addTask DemoShare.owner "s" "id-10" (mkTaskDto act_power Unset Unset) s1).2.
Definition s3 : Sched := s2 <| h_control := (h_control s2) <| c_now := 100000 |> |>.
Definition tick (s : Sched) : Sched := (tickOnce (fun _ => false) (fun _ => None) s).2.
Definition s4 : Sched := tick s3.
Definition job : Job := mkJob "schedule-id-10-61009" "id-10" 61009 job_waiting.
Definition s5 : Sched := beginJob job s4.
Definition step (s : Sched) : Sched := match h_runs s with (id, r) :: _ => advanceJob id r s | [] => s end.
Definition close (s : Sched) : Sched := match h_runs s with (id, r) :: _ => endJob id r s | [] => s end.
Definition s6 : Sched := step s5.
Definition s7 : Sched := close s6.

End DemoSchedules.

#[local] Existing Instance DemoSchedules.agents.
#[local] Existing Instance DemoSchedules.cron.

#[local] Instance demo_scheduleLaws : ScheduleLaws.
Proof.
  split.
  - intros n m E. apply String.app_inj in E. by apply (inj pretty) in E.
  - intros e tz t t' [= <-]. lia.
  - intros e tz t t' u _. by eexists.
Qed.

Lemma demo_schedInv X : SchedInv X DemoSchedules.s0.
Proof.
  split; try done.
  - intros v ->%list_elem_of_singleton. by eexists.
  - apply NoDup_nil_2.
  - intros r Hr%not_elem_of_nil. done.
  - apply NoDup_nil_2.
  - intros j Hj%not_elem_of_nil. done.
  - intros r j Hr%not_elem_of_nil. done.
  - intros r Hr%not_elem_of_nil. done.
  - intros j j' Hj%not_elem_of_nil. done.
  - apply NoDup_nil_2.
  - intros id r Hr%not_elem_of_nil. done.
  - intros j Hj%not_elem_of_nil. done.
Qed.

Lemma demo_claimed X : rtc (schedStep X) DemoSchedules.s0 DemoSchedules.s4.
Proof.
  eapply rtc_l; [eapply st_create; apply surjective_pairing|]. eapply rtc_l; [eapply st_addTask; apply surjective_pairing|].
  eapply rtc_l; [eapply (st_outside X DemoSchedules.s2 DemoSchedules.s3); [|reflexivity]|apply rtc_once, (st_tick _ _ _ (fun _ => false) (fun _ => None) (Ok tt)); [vm_compute; reflexivity|]; by intros x ?%not_elem_of_nil].
  vm_compute. split_and!; [congruence|congruence|done|done].
Qed.

Lemma demo_begun : workStep DemoSchedules.s4 DemoSchedules.s5.
Proof. apply (wk_begin _ _ DemoSchedules.job); [vm_compute; repeat constructor|reflexivity|reflexivity]. Qed.

Lemma demo_run : exists r, (jb_id DemoSchedules.job, r) ∈ h_runs DemoSchedules.s5 /\ rn_tasks r <> [] /\
  DemoSchedules.s6 = advanceJob (jb_id DemoSchedules.job) r DemoSchedules.s5.
Proof. eexists. split_and!; [vm_compute; left|..]; vm_compute; [done|reflexivity]. Qed.

Lemma demo_worked : rtc workStep DemoSchedules.s4 DemoSchedules.s7.
Proof.
  eapply rtc_l; [apply demo_begun|]. destruct demo_run as (r & Hr & Ht & E). eapply rtc_l; [by eapply (wk_task _ _ _ r)|].
  apply rtc_once. eapply wk_end; [vm_compute; left|vm_compute; reflexivity|vm_compute; reflexivity].
Qed.

Lemma demo_idle s : ~ workStep DemoSchedules.s7 s.
Proof.
  intros [j Hj Hw _|id r Hin _ _|id r Hin _ _].
  - assert (Forall (fun j => jb_state j = job_done) (h_jobs DemoSchedules.s7)) as F by (vm_compute; repeat constructor).
    rewrite Forall_forall in F. specialize (F j Hj). congruence.
  - change (h_runs DemoSchedules.s7) with (@nil (string * Run)) in Hin. by apply not_elem_of_nil in Hin.
  - change (h_runs DemoSchedules.s7) with (@nil (string * Run)) in Hin. by apply not_elem_of_nil in Hin.
Qed.

Lemma claimed_schedule_released_witness :
  map sc_isProcessing (h_schedules DemoSchedules.s4) = [true] /\
  (forall r, r ∈ h_schedules DemoSchedules.s7 -> ~ sc_isProcessing r = true) /\
  map sc_lastRunStatus (h_schedules DemoSchedules.s7) = [Some run_success].
Proof.
  split; [vm_compute; reflexivity|]. split; [|vm_compute; reflexivity].
  exact (proj2 (claimed_schedule_released (fun _ => False) DemoSchedules.s0 DemoSchedules.s4 DemoSchedules.s7 (demo_schedInv _) (demo_claimed _)) demo_worked demo_idle).
Defined.

Lemma schedule_never_overlaps_witness :
  jb_planned DemoSchedules.job <= clock DemoSchedules.s4 /\ live DemoSchedules.job.
Proof.
  split; [|by left].
  apply (schedule_never_overlaps (fun _ => False) DemoSchedules.s0 DemoSchedules.s4 DemoSchedules.job DemoSchedules.job (demo_schedInv _) (demo_claimed _));
    vm_compute; repeat constructor.
Defined.

Lemma unattended_runs_respect_suspension_witness :
  c_calls (h_control DemoSchedules.s6) = [mkCall "a" "s" (ReqPower pow_restart)] /\
  exists sent, c_calls (h_control DemoSchedules.s6) = c_calls (h_control DemoSchedules.s5) ++ sent /\
    forall call, call ∈ sent -> exists v, v ∈ x_servers (c_access (h_control DemoSchedules.s5)) /\ sv_id v = cl_serverId call /\ controllable v.
Proof.
  split; [vm_compute; reflexivity|]. apply (unattended_runs_respect_suspension (fun _ => False)).
  - apply (workStep_pres _ DemoSchedules.s4), (sched_inv _ DemoSchedules.s0); [apply demo_begun|apply demo_claimed|apply demo_schedInv].
  - destruct demo_run as (r & Hr & Ht & E). by apply (wk_task _ _ (jb_id DemoSchedules.job) r).
Defined.

(** An edit made while the schedule runs is undone in part: the run ends with the expression
    it started from, so the row carries the new expression and the next run of the old one. *)
Theorem edit_during_run_is_lost :
  let dto := mkUpdateSchedule Unset (mkScheduleFields (Val "0,15,30,45") Unset Unset Unset Unset Unset Unset Unset) in
  let edited := (editSchedule DemoShare.owner "s" "id-10" dto DemoSchedules.s6).2 in
  let s := DemoSchedules.close edited in
  exists row, h_schedules s = [row] /\ cr_minute (sc_cron row) = "0,15,30,45" /\
    computeNextRunAt (sc_cron row) (sc_timezone row) (clock s) <> Ok (sc_nextRunAt row).
Proof. eexists. split; [vm_compute; reflexivity|]. split; [reflexivity|]. vm_compute. congruence. Qed.

(** A backup task checks the access, asks the agent for the backups it has, and only then
    requests the new one: a suspension that falls between does not stop it. *)
Theorem backup_after_suspension :
  let c := h_control DemoSchedules.s0 in
  let checked := backupAdmission DemoShare.owner "s" c in
  let suspended := checked.2 <| c_access := (c_access checked.2) <| x_servers := [DemoShare.server Srv_suspended] |> |> in
  exists server, checked.1 = Ok server /\
    c_calls (sendBackup DemoShare.owner server None suspended).2 =
      c_calls suspended ++ [mkCall "a" "s" (ReqCreateBackup DEFAULT_IGNORE_PATTERNS)].
Proof. eexists. split; vm_compute; reflexivity. Qed.
