(* ===== verification/Gateway.v ===== *)
(** Gateway: public addresses of servers.

    [gateway/gateway.service.ts] (routes, the reconciliation loop and the DNS sync),
    [gateway/hostname-policy.ts], [gateway/public-address.ts], the customer's
    [servers/server-hostname.service.ts] after its access check, and the contracts
    [gateway-driver.interface.ts] and [dns-provider.interface.ts].

    The gateway sidecar and the DNS server are outside: every call to them is logged
    with its outcome, and what they have acknowledged is a function of that log ([acknowledged],
    [answering]). *)

From S2P Require Import Prelude JsNum Capacity Store Scheduler Subscriptions JsString Variables Servers Accounts Access.
From Stdlib Require Import Ascii String Lia.

Local Open Scope Z_scope.

(** ** Labels and names *)

Definition HOSTNAME_LABEL_MIN_LENGTH : Z := 3.
Definition HOSTNAME_LABEL_MAX_LENGTH : Z := 32.

Definition isLower (c : ascii) : bool := (97 <=? code c)%N && (code c <=? 122)%N.

(** [[a-z0-9]] and [[a-z0-9-]]. *)
Definition labelChar (c : ascii) : bool := isLower c || isDigit c.
Definition labelInner (c : ascii) : bool := labelChar c || (code c =? 45)%N.

Fixpoint allChars (p : ascii -> bool) (s : string) : bool :=
  match s with EmptyString => true | String c s' => p c && allChars p s' end.

(** [([a-z0-9-]{0,30}[a-z0-9])?] at the end of the text: empty, or 1 to 31 characters of
    which the last is not a hyphen. *)
Fixpoint labelTail (s : string) : bool :=
  match s with
  | EmptyString => false
  | String c EmptyString => labelChar c
  | String c s' => labelInner c && labelTail s'
  end.

Definition HOSTNAME_LABEL_PATTERN (s : string) : bool :=
  match s with
  | EmptyString => false
  | String c s' => labelChar c && ((s' =s "") || (labelTail s' && (String.length s' <=? 31)%nat))
  end.

Definition RESERVED_HOSTNAME_LABELS : list string :=
  ["www"; "api"; "admin"; "mc"; "node01"; "node02"; "mail"; "ftp"; "discovery"; "panel"; "painel"; "gxhost";
   "ns1"; "ns2"; "autodiscover"; "status"; "app"; "cdn"; "static"; "assets"; "support"; "billing"; "root"; "localhost"].

(** [[0-9abcdefghjkmnpqrstvwxyz]]: digits and letters without i, l, o, u. *)
Definition shortIdChar (c : ascii) : bool :=
  isDigit c || (isLower c && negb (bool_decide (code c ∈ [105; 108; 111; 117]%N))).

Definition SHORT_ID_SHAPED (s : string) : bool := (String.length s =? 8)%nat && allChars shortIdChar s.

Definition isValidHostnameLabelFormat (label : string) : bool :=
  (HOSTNAME_LABEL_MIN_LENGTH <=? jsLength label) && (jsLength label <=? HOSTNAME_LABEL_MAX_LENGTH) &&
  HOSTNAME_LABEL_PATTERN label.

Definition isReservedHostnameLabel `{Platform} (label : string) : bool :=
  let normalized := toLowerCase label in
  bool_decide (normalized ∈ RESERVED_HOSTNAME_LABELS) || SHORT_ID_SHAPED normalized.

Definition deriveHostname `{Platform} (shortId zone : string) : string := toLowerCase shortId +:+ ".mc." +:+ zone.

Definition deriveCustomHostname `{Platform} (label zone : string) : string := toLowerCase label +:+ ".mc." +:+ zone.

Definition derivePublicAddress `{Platform} (gatewayPublicHost shortId : string) (publicPort : Z) (zone : option string)
    (dnsAutomationActive : bool) : string :=
  match truthy zone with
  | None => gatewayPublicHost +:+ ":" +:+ zstr publicPort
  | Some zone =>
    let host := deriveHostname shortId zone in
    if dnsAutomationActive then host else host +:+ ":" +:+ zstr publicPort
  end.

(** [toLowerCase] on ASCII text. *)
Definition lowerChar (c : ascii) : ascii :=
  if (65 <=? code c)%N && (code c <=? 90)%N then ascii_of_N (code c + 32) else c.

Fixpoint lowerAscii (s : string) : string :=
  match s with EmptyString => EmptyString | String c s' => String (lowerChar c) (lowerAscii s') end.

Definition isAscii (c : ascii) : bool := (code c <? 128)%N.

(** The Unicode mapping of the language restricted to ASCII. *)
Class AsciiLower `{Platform} : Prop := {
  toLowerCase_ascii s : allChars isAscii s = true -> toLowerCase s = lowerAscii s }.

(** ** Rows, calls and state *)

Inductive RouteState := R_pending | R_active | R_failed | R_removing.
#[export] Instance RouteState_eq : EqDecision RouteState.
Proof. solve_decision. Defined.

Record Gateway := mkGateway {
  gw_id : string; gw_name : string; gw_publicHost : string; gw_tunnelIp : string; gw_controlUrl : string;
  gw_isActive : bool; gw_lastAppliedAt : option Z; gw_lastError : option string; gw_createdAt : Z;
  gw_deletedAt : option Z }.

Record PublicRoute := mkRoute {
  pr_id : string; pr_gatewayId : string; pr_serverId : string; pr_publicPort : Z; pr_protocol : string;
  pr_state : RouteState; pr_lastError : option string; pr_appliedAt : option Z;
  pr_customHostname : option string; pr_dnsSyncedHostname : option string }.

#[export] Instance Gateway_row : Row Gateway := gw_id.
#[export] Instance PublicRoute_row : Row PublicRoute := pr_id.
#[export] Instance Gateway_settable : Settable Gateway := fun g =>
  mkGateway (gw_id g) (gw_name g) (gw_publicHost g) (gw_tunnelIp g) (gw_controlUrl g) (gw_isActive g)
    (gw_lastAppliedAt g) (gw_lastError g) (gw_createdAt g) (gw_deletedAt g).
#[export] Instance PublicRoute_settable : Settable PublicRoute := fun r =>
  mkRoute (pr_id r) (pr_gatewayId r) (pr_serverId r) (pr_publicPort r) (pr_protocol r) (pr_state r) (pr_lastError r)
    (pr_appliedAt r) (pr_customHostname r) (pr_dnsSyncedHostname r).

Record DesiredRoute := mkDesired {
  dr_serverId : string; dr_publicPort : Z; dr_protocol : string; dr_targetIp : string; dr_targetPort : Z }.

Inductive EdgeCall :=
  | Apply (gatewayId : string) (routes : list DesiredRoute)
  | EnsureAddressRecord (hostname ip : string)
  | EnsureSrv (hostname target : string) (port : Z)
  | RemoveSrv (hostname : string)
  | RemoveAddressRecord (hostname : string)
  | RequestReconcile.

(** The outside: [None] is a success, [Some message] the error it throws; an answer may
    depend on all calls before.  [dnsAvailable] is [isHostnameAvailable]. *)
Class Edge := {
  edgeReply : list (EdgeCall * bool) -> EdgeCall -> option string;
  dnsCanPublish : string -> bool;
  dnsAvailable : list (EdgeCall * bool) -> string -> Res bool }.

Record EdgeConfig := mkEdgeConfig { PUBLIC_GATEWAY_PORT_RANGE : option string; PUBLIC_GATEWAY_HOSTNAME_ZONE : option string }.

(** The module's two tables, the rows it joins them with ([e_tunnelIps] is the nullable
    [nodes.tunnel_ip]), the audit trail and the log of calls. *)
Record EdgeState := mkEdge {
  e_gateways : list Gateway; e_routes : list PublicRoute; e_servers : list Server;
  e_allocations : list Allocation; e_tunnelIps : gmap string string; e_audit : list AuditEntry;
  e_activity : list (string * string * string);   (* actor, server, event *)
  e_log : list (EdgeCall * bool); e_next : N }.

#[export] Instance EdgeState_settable : Settable EdgeState := fun s =>
  mkEdge (e_gateways s) (e_routes s) (e_servers s) (e_allocations s) (e_tunnelIps s) (e_audit s)
    (e_activity s) (e_log s) (e_next s).

Abbreviation ME := (M EdgeState).

Definition onRoutes (f : list PublicRoute -> list PublicRoute) : ME unit := modify (fun s => s <| e_routes := f (e_routes s) |>).
Definition onGateways (f : list Gateway -> list Gateway) : ME unit := modify (fun s => s <| e_gateways := f (e_gateways s) |>).

Definition note (action : string) (actor : option string) (targetType target : string) : ME unit :=
  modify (fun s => s <| e_audit := e_audit s ++ [mkAudit action actor targetType target] |>).

Definition send `{Edge} (c : EdgeCall) : ME unit := fun s =>
  match edgeReply (e_log s) c with
  | None => (Ok tt, s <| e_log := e_log s ++ [(c, true)] |>)
  | Some msg => (Throw (External msg), s <| e_log := e_log s ++ [(c, false)] |>)
  end.

Definition freshE : ME N := fun s => (Ok (e_next s), s <| e_next := (e_next s + 1)%N |>).

(** A transaction over the two tables: an exception undoes its writes. *)
Definition transaction {A} (m : ME A) : ME A := fun s =>
  match m s with
  | (Ok a, s') => (Ok a, s')
  | (Throw e, s') => (Throw e, s' <| e_gateways := e_gateways s |> <| e_routes := e_routes s |>)
  end.

Definition ignoreErrors (m : ME unit) : ME unit := tryCatch m (fun _ => mret tt).

(** ** Gateways *)

Record UpdateGatewayDto := mkUpdateGateway {
  ug_name : option string; ug_publicHost : option string; ug_tunnelIp : option string; ug_controlUrl : option string;
  ug_isActive : option bool }.

Definition listGateways (s : EdgeState) : list Gateway :=
  sortBy (fun a b => gw_createdAt a <=? gw_createdAt b) (List.filter (fun g => gw_deletedAt g =s None) (e_gateways s)).

Definition getGatewayOrThrow (id : string) : ME Gateway :=
  found ← gets (fun s => findFirst (fun g => (gw_id g =s id) && (gw_deletedAt g =s None)) (e_gateways s));
  orThrow found (NotFound "Gateway not found").

Definition createGateway `{Platform} (now : Z) (name publicHost tunnelIp controlUrl actorId : string) : ME Gateway :=
  n ← freshE;
  let created := mkGateway (uuidv7 n) name publicHost tunnelIp controlUrl true None None now None in
  rows ← gets e_gateways;
  throwIf (existsb (fun g => gw_id g =s gw_id created) rows) (UniqueViolation "gateways_pkey") ;;
  onGateways (fun l => l ++ [created]) ;;
  note "admin.gateway.create" (Some actorId) "gateway" (gw_id created) ;;
  mret created.

Definition patchGateway (dto : UpdateGatewayDto) (g : Gateway) : Gateway :=
  g <| gw_name := default (gw_name g) (ug_name dto) |> <| gw_publicHost := default (gw_publicHost g) (ug_publicHost dto) |>
    <| gw_tunnelIp := default (gw_tunnelIp g) (ug_tunnelIp dto) |>
    <| gw_controlUrl := default (gw_controlUrl g) (ug_controlUrl dto) |>
    <| gw_isActive := default (gw_isActive g) (ug_isActive dto) |>.

Definition updateGateway (id : string) (dto : UpdateGatewayDto) (actorId : string) : ME unit :=
  getGatewayOrThrow id ;;
  onGateways (updId id (patchGateway dto)) ;;
  note "admin.gateway.update" (Some actorId) "gateway" id.

Definition removeGateway (now : Z) (id actorId : string) : ME unit :=
  getGatewayOrThrow id ;;
  onGateways (updId id (fun g => g <| gw_deletedAt := Some now |> <| gw_isActive := false |>)) ;;
  note "admin.gateway.delete" (Some actorId) "gateway" id.

(** ** Routes *)

(** [parseInt(s, 10)]; [None] is NaN. *)
Definition parseInt10 (s : string) : option Z :=
  let t := trimStart s in
  let '(sign, rest) := match t with
                       | String c r => if (code c =? 45)%N then (-1, r) else if (code c =? 43)%N then (1, r) else (1, t)
                       | EmptyString => (1, t)
                       end in
  let '(v, len, _) := takeDigits 0 0 rest in
  if (len =? 0)%nat then None else Some (sign * v).

Section Service.
Context `{Platform} `{Edge} (cfg : EdgeConfig).

Definition portRange : list (option Z) :=
  map parseInt10 (splitOn "-" (default "25565-25664" (PUBLIC_GATEWAY_PORT_RANGE cfg))).

Definition rangeStr (i : nat) : string :=
  match portRange !! i with None => "undefined" | Some None => "NaN" | Some (Some z) => zstr z end.

(** The preferred port when it is in the range, then the other ports in order.  A bound
    that is not a number makes every comparison false: no candidate. *)
Definition portCandidates (preferredPort : Z) : list Z :=
  match portRange with
  | Some rangeStart :: Some rangeEnd :: _ =>
    (if (rangeStart <=? preferredPort) && (preferredPort <=? rangeEnd) then [preferredPort] else []) ++
    List.filter (fun port => negb (port =? preferredPort)) (seqZ rangeStart (rangeEnd - rangeStart + 1))
  | _ => []
  end.

(** [publicRoute.create]: unique server, unique port per gateway, existing server. *)
Definition createRoute (gatewayId serverId : string) (publicPort : Z) : ME PublicRoute :=
  n ← freshE;
  let row := mkRoute (uuidv7 n) gatewayId serverId publicPort "tcp" R_pending None None None None in
  routes ← gets e_routes;
  throwIf (existsb (fun r => pr_id r =s pr_id row) routes) (UniqueViolation "public_routes_pkey") ;;
  throwIf (existsb (fun r => pr_serverId r =s serverId) routes) (UniqueViolation "public_routes_server_id_key") ;;
  throwIf (existsb (fun r => (pr_gatewayId r =s gatewayId) && (pr_publicPort r =s publicPort)) routes)
    (UniqueViolation "public_routes_gateway_id_public_port_key") ;;
  servers ← gets e_servers;
  throwIf (negb (existsb (fun v => sv_id v =s serverId) servers)) (CheckViolation "public_routes_server_id_fkey") ;;
  onRoutes (fun l => l ++ [row]) ;;
  mret row.

Fixpoint tryPorts (gatewayId serverId : string) (candidates : list Z) : ME PublicRoute :=
  match candidates with
  | [] => throw (Conflict ("No free public port for gateway " +:+ gatewayId +:+ " in range " +:+ rangeStr 0 +:+ "-" +:+ rangeStr 1))
  | publicPort :: rest =>
    tryCatch (createRoute gatewayId serverId publicPort)
      (fun err => match err with UniqueViolation _ => tryPorts gatewayId serverId rest | _ => throw err end)
  end.

Definition createRouteWithFreePort (gatewayId serverId : string) (preferredPort : Z) : ME PublicRoute :=
  tryPorts gatewayId serverId (portCandidates preferredPort).

Definition enqueueReconcileBestEffort : ME unit := ignoreErrors (send RequestReconcile).

Definition activeGateways (s : EdgeState) : list Gateway :=
  List.filter (fun g => gw_isActive g && (gw_deletedAt g =s None)) (e_gateways s).

Definition routeOf (serverId : string) (s : EdgeState) : option PublicRoute :=
  findFirst (fun r => pr_serverId r =s serverId) (e_routes s).

Definition primaryOf (serverId : string) (s : EdgeState) : option Allocation :=
  findFirst (fun a => (al_serverId a =s Some serverId) && al_isPrimary a) (e_allocations s).

Definition ensureRouteForServer (serverId : string) : ME unit :=
  ignoreErrors (
    gateways ← gets activeGateways;
    match head (sortBy (fun a b => gw_createdAt a <=? gw_createdAt b) gateways) with
    | None => mret tt
    | Some gateway =>
      existing ← gets (routeOf serverId);
      match existing with
      | Some _ => mret tt
      | None =>
        allocation ← gets (primaryOf serverId);
        match allocation with
        | None => mret tt
        | Some allocation =>
          createRouteWithFreePort (gw_id gateway) serverId (al_port allocation) ;;
          note "gateway.route.created" None "server" serverId ;;
          enqueueReconcileBestEffort
        end
      end
    end).

Definition updRoute (serverId : string) (f : PublicRoute -> PublicRoute) : ME unit :=
  onRoutes (updFirst (fun r => pr_serverId r =s serverId) f).

(** ** DNS records *)

Definition ensureDnsFor (hostname gatewayPublicHost : string) (port : Z) : ME bool :=
  ignoreErrors (send (EnsureAddressRecord hostname gatewayPublicHost)) ;;
  tryCatch (send (EnsureSrv hostname hostname port) ;; mret true) (fun _ => mret false).

Definition removeDnsFor (hostname : string) : ME unit :=
  ignoreErrors (send (RemoveSrv hostname)) ;;
  ignoreErrors (send (RemoveAddressRecord hostname)).

Definition markRemoving (serverId : string) : ME unit :=
  ignoreErrors (
    found ← gets (routeOf serverId);
    match found with
    | None => mret tt
    | Some route =>
      updRoute serverId (fun r => r <| pr_state := R_removing |>) ;;
      match truthy (pr_dnsSyncedHostname route) with Some h => removeDnsFor h | None => mret tt end
    end).

(** ** The customer's own hostname *)

Definition saveHostname (serverId label : string) : ME unit :=
  routes ← gets e_routes;
  throwIf (existsb (fun r => (pr_customHostname r =s Some label) && negb (pr_serverId r =s serverId)) routes)
    (UniqueViolation "public_routes_custom_hostname_key") ;;
  updRoute serverId (fun r => r <| pr_customHostname := Some label |>).

Definition checkAvailable (fqdn : string) : ME unit :=
  log ← gets e_log;
  match dnsAvailable log fqdn with
  | Ok true => mret tt
  | Ok false => throw (Conflict "Este endereço já está em uso")
  | Throw (Conflict m) => throw (Conflict m)
  | Throw _ => mret tt
  end.

Definition setCustomHostname (serverId : string) (label : option string) : ME unit :=
  found ← gets (routeOf serverId);
  orThrow found (Conflict "Este servidor ainda não tem uma exposição pública configurada") ;;
  match label with
  | None => updRoute serverId (fun r => r <| pr_customHostname := None |>) ;; enqueueReconcileBestEffort
  | Some label =>
    zone ← orThrow (truthy (PUBLIC_GATEWAY_HOSTNAME_ZONE cfg))
      (Conflict "Hostname personalizado requer um domínio configurado nesta instalação");
    let fqdn := deriveCustomHostname label zone in
    throwIf (negb (dnsCanPublish fqdn))
      (Conflict "Este endereço não pode ser publicado pela configuração de DNS desta instalação") ;;
    checkAvailable fqdn ;;
    tryCatch (saveHostname serverId label ;; enqueueReconcileBestEffort)
      (fun err => match err with
                  | UniqueViolation _ => throw (Conflict "Este endereço já está em uso por outro servidor")
                  | _ => throw err
                  end)
  end.

(** [UpdateServerHostnameDto]. *)
Definition validHostnameDto (hostname : option string) : bool :=
  match hostname with
  | None => true
  | Some h => (HOSTNAME_LABEL_MIN_LENGTH <=? jsLength h) && (jsLength h <=? HOSTNAME_LABEL_MAX_LENGTH) &&
              HOSTNAME_LABEL_PATTERN h
  end.

(** [ServerHostnameService.update], after [access.resolve]. *)
Definition updateHostname (actor : AccessActor) (access : ResolvedAccess) (hostname : option string) : ME (option string) :=
  throwIf (negb (ra_can access "hostname.update")) (Forbidden "Missing permission: hostname.update") ;;
  throwIf (match hostname with Some h => isReservedHostnameLabel h | None => false end)
    (BadRequest "Este endereço é reservado e não pode ser usado") ;;
  let serverId := sv_id (ra_server access) in
  setCustomHostname serverId hostname ;;
  note "server.hostname.update" (Some (xa_id actor)) "server" serverId ;;
  modify (fun s => s <| e_activity := e_activity s ++ [(xa_id actor, serverId, "server.hostname.update")] |>) ;;
  mret hostname.

(** The route [PATCH .../hostname]: the validation pipe, then the service. *)
Definition patchHostname (actor : AccessActor) (access : ResolvedAccess) (hostname : option string) : ME (option string) :=
  throwIf (negb (validHostnameDto hostname)) (BadRequest "hostname") ;;
  updateHostname actor access hostname.

(** ** Reconciliation *)

(** A route with the rows it is joined with. *)
Definition joined (gatewayId : string) (s : EdgeState) : list (PublicRoute * Server) :=
  omap (fun r => if pr_gatewayId r =s gatewayId then (fun v => (r, v)) <$> findId (pr_serverId r) (e_servers s) else None)
    (e_routes s).

(** What the loop of [reconcileGateway] does with a route. *)
Inductive RouteClass := Removing | Skipped | Included (desired : DesiredRoute).

Definition classify (s : EdgeState) (rv : PublicRoute * Server) : RouteClass :=
  let '(route, server) := rv in
  if pr_state route =s R_removing then Removing
  else match truthy (e_tunnelIps s !! sv_nodeId server), primaryOf (sv_id server) s with
       | Some tunnelIp, Some allocation =>
         Included (mkDesired (pr_serverId route) (pr_publicPort route) "tcp" tunnelIp (al_port allocation))
       | _, _ => Skipped
       end.

Definition isIncluded (c : RouteClass) : bool := match c with Included _ => true | _ => false end.
Definition isSkipped (c : RouteClass) : bool := match c with Skipped => true | _ => false end.
Definition isRemoving (c : RouteClass) : bool := match c with Removing => true | _ => false end.

Definition desiredOf (s : EdgeState) (routes : list (PublicRoute * Server)) : list DesiredRoute :=
  omap (fun rv => match classify s rv with Included d => Some d | _ => None end) routes.

Definition select (s : EdgeState) (which : RouteClass -> bool) (routes : list (PublicRoute * Server)) : list (PublicRoute * Server) :=
  List.filter (fun rv => which (classify s rv)) routes.

Definition ids (l : list (PublicRoute * Server)) : list string := map (fun rv => pr_id rv.1) l.

(** [gateway.update({ where: { id } })]. *)
Definition updGateway (id : string) (f : Gateway -> Gateway) : ME unit :=
  row ← gets (fun s => findId id (e_gateways s));
  match row with None => throw RecordNotFound | Some _ => onGateways (updId id f) end.

Definition updRoutes (these : list string) (f : PublicRoute -> PublicRoute) : ME unit :=
  onRoutes (updWhere (fun r => bool_decide (pr_id r ∈ these)) f).

Definition SKIPPED_ERROR : string := "node has no tunnel IP configured, or server has no primary allocation yet".

(** The name a route should answer under. *)
Definition desiredHostname (included : bool) (route : PublicRoute) (server : Server) : option string :=
  let zone := PUBLIC_GATEWAY_HOSTNAME_ZONE cfg in
  if included then
    match truthy (pr_customHostname route) with
    | Some custom => Some (deriveCustomHostname custom (default "" zone))
    | None => deriveHostname (sv_shortId server) <$> truthy zone
    end
  else None.

(** The branch of [syncDns] where the name changed: publish first, retire after. *)
Definition moveDns (gateway : Gateway) (route : PublicRoute) (desired : option string) : ME unit :=
  let synced := truthy (pr_dnsSyncedHostname route) in
  newSynced ← match desired with
              | Some h => ok ← ensureDnsFor h (gw_publicHost gateway) (pr_publicPort route); mret (if ok : bool then Some h else None)
              | None => mret None
              end;
  match synced with
  | Some old =>
    when (negb (Some old =s newSynced) && (bool_decide (is_Some newSynced) || (desired =s None))) (removeDnsFor old)
  | None => mret tt
  end ;;
  let newSynced := match newSynced, desired, synced with None, Some _, Some old => Some old | _, _, _ => newSynced end in
  onRoutes (updId (pr_id route) (fun r => r <| pr_dnsSyncedHostname := newSynced |>)).

Definition syncRoute (gateway : Gateway) (included : bool) (rv : PublicRoute * Server) : ME unit :=
  let '(route, server) := rv in
  let zone := truthy (PUBLIC_GATEWAY_HOSTNAME_ZONE cfg) in
  let synced := truthy (pr_dnsSyncedHostname route) in
  if (zone =s None) && (synced =s None) then mret tt
  else
    let desired := desiredHostname included route server in
    if desired =s pr_dnsSyncedHostname route then
      match desired with
      | Some h => when included (ensureDnsFor h (gw_publicHost gateway) (pr_publicPort route) ;; mret tt)
      | None => mret tt
      end
    else if negb included then match synced with Some old => removeDnsFor old | None => mret tt end
    else moveDns gateway route desired.

Definition syncDns (gateway : Gateway) (included removing : list (PublicRoute * Server)) : ME unit :=
  forEach included (syncRoute gateway true) ;;
  forEach removing (syncRoute gateway false).

Definition applyFailed (gateway : Gateway) (included : list string) (message : string) : ME unit :=
  transaction (
    when (negb (bool_decide (included = [])))
      (updRoutes included (fun r => r <| pr_state := R_failed |> <| pr_lastError := Some message |>)) ;;
    updGateway (gw_id gateway) (fun g => g <| gw_lastError := Some message |>)).

Definition applySucceeded (now : Z) (gateway : Gateway) (included skipped removing : list string) : ME unit :=
  transaction (
    when (negb (bool_decide (included = [])))
      (updRoutes included (fun r => r <| pr_state := R_active |> <| pr_appliedAt := Some now |> <| pr_lastError := None |>)) ;;
    when (negb (bool_decide (skipped = [])))
      (updRoutes skipped (fun r => r <| pr_state := R_failed |> <| pr_lastError := Some SKIPPED_ERROR |>)) ;;
    when (negb (bool_decide (removing = []))) (onRoutes (List.filter (fun r => negb (bool_decide (pr_id r ∈ removing))))) ;;
    updGateway (gw_id gateway) (fun g => g <| gw_lastAppliedAt := Some now |> <| gw_lastError := None |>)).

Definition reconcileGateway (now : Z) (gateway : Gateway) : ME unit :=
  routes ← gets (joined (gw_id gateway));
  snapshot ← gets id;
  let included := select snapshot isIncluded routes in
  let skipped := select snapshot isSkipped routes in
  let removing := select snapshot isRemoving routes in
  applied ← tryCatch (send (Apply (gw_id gateway) (desiredOf snapshot routes)) ;; mret true)
    (fun err => applyFailed gateway (ids included) (message err) ;; mret false);
  when applied (
    applySucceeded now gateway (ids included) (ids skipped) (ids removing) ;;
    syncDns gateway included removing).

Definition reconcileOnce (now : Z) : ME unit :=
  gateways ← gets activeGateways;
  forEach gateways (reconcileGateway now).

(** ** Requests, jobs and what other services do to the joined rows *)

(** The delete of [ServersService.remove], with the schema's cascades. *)
Definition deleteServer (serverId : string) : ME unit :=
  modify (fun s => s <| e_servers := List.filter (fun v => negb (sv_id v =s serverId)) (e_servers s) |>
    <| e_allocations := updWhere (fun a => al_serverId a =s Some serverId)
         (fun a => a <| al_serverId := None |> <| al_isPrimary := false |>) (e_allocations s) |>
    <| e_routes := List.filter (fun r => negb (pr_serverId r =s serverId)) (e_routes s) |>).

Inductive EdgeOp :=
  | OCreateServer (server : Server) (allocations : list Allocation)
  | OMoveServer (serverId nodeId : string) (allocations : list Allocation)
  | ORemoveServer (serverId : string)
  | OPatchHostname (actor : AccessActor) (access : ResolvedAccess) (hostname : option string)
  | OReconcile (now : Z)
  | OCreateGateway (now : Z) (name publicHost tunnelIp controlUrl actorId : string)
  | OUpdateGateway (id : string) (dto : UpdateGatewayDto) (actorId : string)
  | ORemoveGateway (now : Z) (id actorId : string).

(** Creating and moving a server is the business of [Servers] and [Transfers]; here they
    only change the joined rows. *)
Definition runEdge (op : EdgeOp) (s : EdgeState) : EdgeState :=
  match op with
  | OCreateServer v al =>
    (ensureRouteForServer (sv_id v) (s <| e_servers := e_servers s ++ [v] |> <| e_allocations := al |>)).2
  | OMoveServer id nodeId al =>
    (enqueueReconcileBestEffort (s <| e_servers := updId id (fun v => v <| sv_nodeId := nodeId |>) (e_servers s) |>
       <| e_allocations := al |>)).2
  | ORemoveServer id => ((markRemoving id ;; deleteServer id) s).2
  | OPatchHostname a x h => (patchHostname a x h s).2
  | OReconcile now => (reconcileOnce now s).2
  | OCreateGateway t a b c d e => (createGateway t a b c d e s).2
  | OUpdateGateway i d a => (updateGateway i d a s).2
  | ORemoveGateway t i a => (removeGateway t i a s).2
  end.

Definition runEdges (ops : list EdgeOp) (s : EdgeState) : EdgeState := fold_left (fun s op => runEdge op s) ops s.

End Service.

(** ** What the outside serves *)

(** The last forwarding table a gateway acknowledged.  A call that fails (a refusal, a
    timeout, a gateway that installs the table and cannot answer) does not count. *)
Definition acknowledged (gatewayId : string) (log : list (EdgeCall * bool)) : option (list DesiredRoute) :=
  fold_left (fun acc e => match e with
                          | (Apply g routes, true) => if g =s gatewayId then Some routes else acc
                          | _ => acc
                          end) log None.

(** The names certain to answer: published successfully and never asked to be removed
    since (a removal that reports an error may still have happened). *)
Definition answering (log : list (EdgeCall * bool)) : gset string :=
  fold_left (fun acc e => match e with
                          | (EnsureSrv h _ _, true) => {[h]} ∪ acc
                          | (RemoveSrv h, _) => acc ∖ {[h]}
                          | _ => acc
                          end) log ∅.
