(* ===== verification/GatewayRules.v ===== *)
(** GatewayRules: what the public addresses guarantee.

    The reconciliation loop against the forwarding table the database asks for, the choice
    of public ports, the uniqueness of public names over all histories, and the order in
    which names are published and retired. *)

From S2P Require Import Prelude JsNum Capacity Store Scheduler Subscriptions JsString Variables Servers Accounts Access Gateway.
From Stdlib Require Import Ascii String Lia.

Local Open Scope Z_scope.

(** ** Calls and the log *)

Definition notApply (g : string) (c : EdgeCall) : bool :=
  match c with Apply g' _ => negb (g' =s g) | _ => true end.

Lemma acknowledged_snoc g log c ok : acknowledged g (log ++ [(c, ok)]) =
  match c with Apply g' routes => if ok && (g' =s g) then Some routes else acknowledged g log | _ => acknowledged g log end.
Proof.
  unfold acknowledged. rewrite fold_left_app. simpl. destruct c, ok; simpl; try done.
Qed.

Lemma acknowledged_other g log c ok : notApply g c = true -> acknowledged g (log ++ [(c, ok)]) = acknowledged g log.
Proof. rewrite acknowledged_snoc. destruct c; simpl; try done. intros ->%negb_true_iff. by rewrite andb_false_r. Qed.

Section Sends.
Context `{Edge}.

Lemma send_inv c s r s' : send c s = (r, s') ->
  exists ok, s' = s <| e_log := e_log s ++ [(c, ok)] |> /\ (ok = true <-> r = Ok tt) /\
    match edgeReply (e_log s) c with None => r = Ok tt | Some m => r = Throw (External m) end.
Proof.
  unfold send. destruct (edgeReply (e_log s) c); intros [= <- <-]; eexists; (split; [reflexivity|]); split; done.
Qed.

(** Runs that only add calls to the log. *)
Definition onlyLogs (ok : EdgeCall -> bool) (s s' : EdgeState) : Prop :=
  exists more, s' = s <| e_log := e_log s ++ more |> /\ forallb (fun e => ok e.1) more = true.

#[export] Instance onlyLogs_preorder ok : PreOrder (onlyLogs ok).
Proof.
  split.
  - intros s. exists []. split; [|done]. rewrite app_nil_r. by destruct s.
  - intros a b c (m1 & -> & H1) (m2 & -> & H2). exists (m1 ++ m2). split; [by rewrite app_assoc|].
    by rewrite forallb_app, H1, H2.
Qed.

Lemma send_logs ok c : ok c = true -> keeps (onlyLogs ok) (send c).
Proof.
  intros Hc s r s' E. destruct (send_inv _ _ _ _ E) as (b & -> & _). exists [(c, b)]. simpl. by rewrite Hc.
Qed.

Lemma ignore_keeps R `{!PreOrder R} m : keeps R m -> keeps R (ignoreErrors m).
Proof. intros Hm. apply keeps_tryCatch; [done..|]. intros e. by apply keeps_ret. Qed.

Definition isDns (c : EdgeCall) : bool :=
  match c with Apply _ _ | RequestReconcile => false | _ => true end.

Lemma ensureDnsFor_logs h ip p : keeps (onlyLogs isDns) (ensureDnsFor h ip p).
Proof.
  unfold ensureDnsFor. apply keeps_bind; [apply _|by apply ignore_keeps, send_logs; [apply _|]|].
  intros _. repeat keeps_step. by apply send_logs.
Qed.

Lemma removeDnsFor_logs h : keeps (onlyLogs isDns) (removeDnsFor h).
Proof.
  unfold removeDnsFor. apply keeps_bind; [apply _|by apply ignore_keeps, send_logs; [apply _|]|].
  intros _. by apply ignore_keeps, send_logs; [apply _|].
Qed.

(** None of these throws. *)
Definition total {A} (m : ME A) : Prop := forall s, exists a s', m s = (Ok a, s').

Lemma ignore_total m : total (ignoreErrors m).
Proof. intros s. unfold ignoreErrors, tryCatch. destruct (m s) as [[[]|e] s']; eexists _, _; done. Qed.

Lemma bind_total {A B} (m : ME A) (k : A -> ME B) : total m -> (forall a, total (k a)) -> total (m ≫= k).
Proof. intros Hm Hk s. destruct (Hm s) as (a & s1 & E). destruct (Hk a s1) as (b & s2 & E2). exists b, s2. by rewrite (bind_run _ _ _ _ _ E). Qed.

Lemma ret_total {A} (a : A) : total (mret a).
Proof. intros s. by eexists _, _. Qed.

Lemma modify_total f : total (modify f).
Proof. intros s. by eexists _, _. Qed.

Lemma forEach_total {A} (l : list A) f : (forall x, total (f x)) -> total (forEach l f).
Proof. intros Hf. induction l as [|x l IH]; simpl; [apply ret_total|]. by apply bind_total. Qed.

Lemma ensureDnsFor_total h ip p : total (ensureDnsFor h ip p).
Proof.
  apply bind_total; [apply ignore_total|]. intros _ s. unfold tryCatch.
  destruct ((send _ ;; mret true) s) as [[b|e] s']; eexists _, _; done.
Qed.

Lemma removeDnsFor_total h : total (removeDnsFor h).
Proof. apply bind_total; [apply ignore_total|]. intros _. apply ignore_total. Qed.

End Sends.

(** ** The DNS sync touches names only *)

Definition noDns (r : PublicRoute) : PublicRoute := r <| pr_dnsSyncedHostname := None |>.

Definition sameRows (s s' : EdgeState) : Prop :=
  e_servers s' = e_servers s /\ e_allocations s' = e_allocations s /\ e_tunnelIps s' = e_tunnelIps s.

#[export] Instance sameRows_preorder : PreOrder sameRows.
Proof. split; [done|]. intros a b c (?&?&?) (?&?&?). repeat split; congruence. Qed.

Definition dnsFrame (s s' : EdgeState) : Prop :=
  map noDns (e_routes s') = map noDns (e_routes s) /\ e_gateways s' = e_gateways s /\ sameRows s s' /\
  e_log s `prefix_of` e_log s' /\ forall g, acknowledged g (e_log s') = acknowledged g (e_log s).

#[export] Instance dnsFrame_preorder : PreOrder dnsFrame.
Proof.
  split; [done|]. intros a b c (?&?&Hr&?&Hf) (?&?&Hr'&?&Hf'). split; [congruence|]. split; [congruence|].
  split; [by etransitivity|]. split; [by etransitivity|]. intros g. by rewrite Hf'.
Qed.

Lemma logs_dnsFrame s s' : onlyLogs isDns s s' -> dnsFrame s s'.
Proof.
  intros (more & -> & Hm). split; [done|]. split; [done|]. split; [done|]. split; [by exists more|]. intros g. simpl. revert Hm.
  induction more as [|[c ok] more IH] using rev_ind; [by rewrite app_nil_r|].
  rewrite forallb_app, andb_true_iff. intros [H1 H2]. rewrite app_assoc, acknowledged_other; [by apply IH|].
  simpl in H2. by destruct c.
Qed.

Lemma updId_noDns id f l : (forall r, noDns (f r) = noDns r) -> map noDns (updId id f l) = map noDns l.
Proof.
  intros Hf. unfold updId. induction l as [|x l IH]; simpl; [done|].
  destruct (rid x =s id); simpl; [by rewrite Hf|by rewrite IH].
Qed.

Section Sync.
Context `{Platform} `{Edge} (cfg : EdgeConfig).

Lemma ensure_frame h ip p : keeps dnsFrame (ensureDnsFor h ip p).
Proof. intros s r s' E. by eapply logs_dnsFrame, ensureDnsFor_logs. Qed.

Lemma remove_frame h : keeps dnsFrame (removeDnsFor h).
Proof. intros s r s' E. by eapply logs_dnsFrame, removeDnsFor_logs. Qed.

Lemma moveDns_frame g r d : keeps dnsFrame (moveDns g r d).
Proof.
  unfold moveDns. repeat first [apply ensure_frame | apply remove_frame | keeps_step].
  all: intros s x s' [= <- <-]; split; [|done]; by apply updId_noDns.
Qed.

Lemma syncRoute_frame g b rv : keeps dnsFrame (syncRoute cfg g b rv).
Proof. destruct rv. unfold syncRoute. repeat first [apply ensure_frame | apply remove_frame | apply moveDns_frame | keeps_step]. Qed.

Lemma syncDns_frame g l1 l2 : keeps dnsFrame (syncDns cfg g l1 l2).
Proof. unfold syncDns. repeat first [apply syncRoute_frame | keeps_step]. Qed.

Lemma when_total b m : total m -> total (when b m).
Proof. destruct b; [done|]. intros _. apply ret_total. Qed.

Lemma moveDns_total g r d : total (moveDns g r d).
Proof.
  unfold moveDns. apply bind_total; [|intros ns; apply bind_total; [|intros _; apply modify_total]].
  - destruct d; [|apply ret_total]. apply bind_total; [apply ensureDnsFor_total|]. intros b. apply ret_total.
  - destruct (truthy _); [|apply ret_total]. apply when_total, removeDnsFor_total.
Qed.

Lemma syncRoute_total g b rv : total (syncRoute cfg g b rv).
Proof.
  destruct rv as [r v]. unfold syncRoute. destruct (_ && _); [apply ret_total|]. cbv zeta.
  destruct (desiredHostname cfg b r v =s _).
  - destruct (desiredHostname _ _ _ _); [|apply ret_total]. apply when_total, bind_total; [apply ensureDnsFor_total|].
    intros _. apply ret_total.
  - destruct b; simpl; [apply moveDns_total|]. destruct (truthy _); [apply removeDnsFor_total|apply ret_total].
Qed.

Lemma syncDns_total g l1 l2 : total (syncDns cfg g l1 l2).
Proof. apply bind_total; [|intros _]; apply forEach_total, syncRoute_total. Qed.

End Sync.

(** ** One pass over one gateway, exactly *)

Definition classOf (g : string) (s : EdgeState) (r : PublicRoute) : option RouteClass :=
  if pr_gatewayId r =s g then (fun v => classify s (r, v)) <$> findId (pr_serverId r) (e_servers s) else None.

Definition activated (now : Z) (r : PublicRoute) : PublicRoute :=
  r <| pr_state := R_active |> <| pr_appliedAt := Some now |> <| pr_lastError := None |>.
Definition failed (msg : string) (r : PublicRoute) : PublicRoute :=
  r <| pr_state := R_failed |> <| pr_lastError := Some msg |>.

(** The rows after the gateway accepted its table, and after it refused. *)
Definition accepted (now : Z) (g : string) (s : EdgeState) (r : PublicRoute) : option PublicRoute :=
  match classOf g s r with
  | Some (Included _) => Some (activated now r)
  | Some Skipped => Some (failed SKIPPED_ERROR r)
  | Some Removing => None
  | None => Some r
  end.
Definition refused (msg : string) (g : string) (s : EdgeState) (r : PublicRoute) : PublicRoute :=
  match classOf g s r with Some (Included _) => failed msg r | _ => r end.

Lemma elem_joined g s r v :
  (r, v) ∈ joined g s <-> r ∈ e_routes s /\ pr_gatewayId r = g /\ findId (pr_serverId r) (e_servers s) = Some v.
Proof.
  unfold joined. rewrite list_elem_of_omap. split.
  - intros (x & Hx & E). destruct (pr_gatewayId x =s g) eqn:Eg; [|done]. apply bool_decide_eq_true in Eg.
    destruct (findId (pr_serverId x) (e_servers s)) eqn:Ef; [|done]. by injection E as -> ->.
  - intros (Hr & Hg & Hv). exists r. split; [done|]. rewrite bool_decide_eq_true_2 by done. by rewrite Hv.
Qed.

Lemma in_ids which g s r : NoDup (map pr_id (e_routes s)) -> r ∈ e_routes s ->
  bool_decide (pr_id r ∈ ids (select s which (joined g s))) =
  match classOf g s r with Some c => which c | None => false end.
Proof.
  intros Hn Hr. assert (pr_id r ∈ ids (select s which (joined g s)) <->
    match classOf g s r with Some c => which c = true | None => False end) as Hiff.
  { unfold ids, select, classOf. rewrite list_elem_of_In, in_map_iff. split.
    - intros ([x v] & E & Hx). simpl in E. apply filter_In in Hx as [Hx Hc]. apply list_elem_of_In, elem_joined in Hx as (Hx & Hg & Hv).
      assert (x = r) as -> by (by eapply (NoDup_map_inj pr_id)). rewrite bool_decide_eq_true_2 by done. by rewrite Hv.
    - destruct (pr_gatewayId r =s g) eqn:Eg; [|done]. apply bool_decide_eq_true in Eg.
      destruct (findId _ _) as [v|] eqn:Ev; [|done]. simpl. intros Hc. exists (r, v). split; [done|]. apply filter_In.
      split; [|done]. by apply list_elem_of_In, elem_joined. }
  destruct (classOf g s r) as [c|]; [destruct (which c)|].
  all: first [by apply bool_decide_eq_true_2, Hiff | by apply bool_decide_eq_false_2; intros ?%Hiff].
Qed.

Lemma accepted_routes now g s : NoDup (map pr_id (e_routes s)) ->
  List.filter (fun r => negb (bool_decide (pr_id r ∈ ids (select s isRemoving (joined g s)))))
    (updWhere (fun r => bool_decide (pr_id r ∈ ids (select s isSkipped (joined g s)))) (failed SKIPPED_ERROR)
      (updWhere (fun r => bool_decide (pr_id r ∈ ids (select s isIncluded (joined g s)))) (activated now) (e_routes s))) =
  omap (accepted now g s) (e_routes s).
Proof.
  intros Hn. assert (forall which r, r ∈ e_routes s -> bool_decide (pr_id r ∈ ids (select s which (joined g s))) =
    match classOf g s r with Some c => which c | None => false end) as Hin by (intros; by apply in_ids).
  revert Hin. generalize (e_routes s). intros l. induction l as [|r l IH]; intros Hin; simpl; [done|].
  assert (forall which, bool_decide (pr_id r ∈ ids (select s which (joined g s))) =
    match classOf g s r with Some c => which c | None => false end) as Hr by (intros; apply Hin, elem_of_cons; by left).
  rewrite (Hr isIncluded). unfold accepted at 1.
  destruct (classOf g s r) as [[| |d]|] eqn:E; simpl; rewrite ?Hr; simpl; rewrite ?Hr; simpl.
  all: rewrite IH by (intros; apply Hin, elem_of_cons; by right); done.
Qed.

Lemma refused_routes msg g s : NoDup (map pr_id (e_routes s)) ->
  updWhere (fun r => bool_decide (pr_id r ∈ ids (select s isIncluded (joined g s)))) (failed msg) (e_routes s) =
  map (refused msg g s) (e_routes s).
Proof.
  intros Hn. unfold updWhere. apply map_ext_in. intros r Hr. rewrite in_ids; [|done|by apply list_elem_of_In].
  unfold refused. by destruct (classOf g s r) as [[]|].
Qed.

Lemma when_updRoutes l f s : when (negb (bool_decide (l = []))) (updRoutes l f) s = updRoutes l f s.
Proof.
  destruct l; simpl; [|done]. unfold updRoutes, onRoutes, modify. unfold updWhere. simpl.
  rewrite map_id. by destruct s.
Qed.

Lemma when_dropRoutes (l : list string) s :
  when (negb (bool_decide (l = []))) (onRoutes (List.filter (fun r => negb (bool_decide (pr_id r ∈ l))))) s =
  onRoutes (List.filter (fun r => negb (bool_decide (pr_id r ∈ l)))) s.
Proof.
  destruct l; simpl; [|done]. unfold onRoutes, modify. f_equal. destruct s as [? routes]; unfold set; simpl. f_equal.
  induction routes as [|r routes IH]; simpl; [done|]. by f_equal.
Qed.

Lemma bind_eq {A} (m m' : ME unit) (k : ME A) s : m s = m' s -> (m ;; k) s = (m' ;; k) s.
Proof. unfold mbind, M_bind. by intros ->. Qed.

Lemma applySucceeded_run now g I K R s x : findId (gw_id g) (e_gateways s) = Some x ->
  applySucceeded now g I K R s = (Ok tt, s
    <| e_routes := List.filter (fun r => negb (bool_decide (pr_id r ∈ R)))
         (updWhere (fun r => bool_decide (pr_id r ∈ K)) (failed SKIPPED_ERROR)
           (updWhere (fun r => bool_decide (pr_id r ∈ I)) (activated now) (e_routes s))) |>
    <| e_gateways := updId (gw_id g) (fun x => x <| gw_lastAppliedAt := Some now |> <| gw_lastError := None |>) (e_gateways s) |>).
Proof.
  intros Hg. unfold applySucceeded, transaction.
  erewrite bind_eq by apply when_updRoutes. erewrite bind_run by reflexivity.
  erewrite bind_eq by apply when_updRoutes. erewrite bind_run by reflexivity.
  erewrite bind_eq by apply when_dropRoutes. erewrite bind_run by reflexivity.
  unfold updGateway. rewrite bind_gets. simpl. rewrite Hg. done.
Qed.

Lemma applyFailed_run g I msg s x : findId (gw_id g) (e_gateways s) = Some x ->
  applyFailed g I msg s = (Ok tt, s
    <| e_routes := updWhere (fun r => bool_decide (pr_id r ∈ I)) (failed msg) (e_routes s) |>
    <| e_gateways := updId (gw_id g) (fun x => x <| gw_lastError := Some msg |>) (e_gateways s) |>).
Proof.
  intros Hg. unfold applyFailed, transaction.
  erewrite bind_eq by apply when_updRoutes. erewrite bind_run by reflexivity.
  unfold updGateway. rewrite bind_gets. simpl. rewrite Hg. done.
Qed.

Section Pass.
Context `{Platform} `{Edge} (cfg : EdgeConfig) (now : Z).

(** What one pass over gateway [g] leaves, by the gateway's answer. *)
Definition passed (g : Gateway) (s s' : EdgeState) : Prop :=
  let want := desiredOf s (joined (gw_id g) s) in
  sameRows s s' /\ map gw_id (e_gateways s') = map gw_id (e_gateways s) /\
  (forall g', g' <> gw_id g -> acknowledged g' (e_log s') = acknowledged g' (e_log s)) /\
  (e_log s ++ [(Apply (gw_id g) want, bool_decide (edgeReply (e_log s) (Apply (gw_id g) want) = None))]) `prefix_of` e_log s' /\
  match edgeReply (e_log s) (Apply (gw_id g) want) with
  | None => acknowledged (gw_id g) (e_log s') = Some want /\
            map noDns (e_routes s') = map noDns (omap (accepted now (gw_id g) s) (e_routes s))
  | Some msg => acknowledged (gw_id g) (e_log s') = acknowledged (gw_id g) (e_log s) /\
                e_routes s' = map (refused msg (gw_id g) s) (e_routes s)
  end.

Lemma reconcileGateway_passed g s : NoDup (map pr_id (e_routes s)) -> gw_id g ∈ map gw_id (e_gateways s) ->
  exists s', reconcileGateway cfg now g s = (Ok tt, s') /\ passed g s s'.
Proof.
  intros Hn Hg. assert (exists x, findId (gw_id g) (e_gateways s) = Some x) as [x Hx].
  { apply list_elem_of_In, in_map_iff in Hg as (x & E & Hx%list_elem_of_In). rewrite <- E. apply (findId_elem _ _ Hx). }
  unfold reconcileGateway. rewrite bind_gets, bind_gets. cbv zeta beta. change (id s) with s.
  unfold passed. set (want := desiredOf s _). destruct (edgeReply (e_log s) (Apply (gw_id g) want)) as [msg|] eqn:Er.
  - erewrite bind_run; [|unfold tryCatch; erewrite bind_throw by (unfold send; rewrite Er; reflexivity);
      erewrite bind_run by (by eapply applyFailed_run); reflexivity].
    eexists. split; [reflexivity|]. split; [done|]. split; [by apply (updId_rids (R := Gateway))|].
    split; [|split; [done|split]].
    + intros g' Hne. apply acknowledged_other. simpl. by rewrite bool_decide_eq_false_2.
    + simpl. by rewrite acknowledged_snoc.
    + exact (refused_routes msg (gw_id g) s Hn).
  - erewrite bind_run; [|unfold tryCatch; erewrite bind_run by (unfold send; rewrite Er; reflexivity); reflexivity].
    unfold when. erewrite bind_run by (by eapply applySucceeded_run).
    match goal with |- context [syncDns _ ?g0 ?l1 ?l2 ?s0] => destruct (syncDns_total cfg g0 l1 l2 s0) as ([] & s' & E) end.
    exists s'. split; [exact E|]. apply syncDns_frame in E as (Hr & Hgw & Hs & Hl & Hf).
    split; [by etransitivity|]. split; [rewrite Hgw; by apply (updId_rids (R := Gateway))|].
    split; [|split; [exact Hl|split]].
    + intros g' Hne. rewrite Hf. apply acknowledged_other. simpl. by rewrite bool_decide_eq_false_2.
    + rewrite Hf. simpl. rewrite acknowledged_snoc. simpl. by rewrite bool_decide_eq_true_2.
    + rewrite Hr. f_equal. exact (accepted_routes now (gw_id g) s Hn).
Qed.

End Pass.

(** ** All gateways *)

Definition routesOn (g : string) (s : EdgeState) : list PublicRoute := List.filter (fun r => pr_gatewayId r =s g) (e_routes s).

(** The forwarding table the database asks for: every route of the gateway that is not
    being removed and whose server has a primary port on a node with a tunnel address,
    pointing at that node and port. *)
Definition wanted (g : string) (s : EdgeState) : list DesiredRoute :=
  omap (fun r => match classOf g s r with Some (Included d) => Some d | _ => None end) (routesOn g s).

Lemma omap_filter {A B} (f : A -> option B) (p : A -> bool) (l : list A) :
  (forall x, p x = false -> f x = None) -> omap f (List.filter p l) = omap f l.
Proof.
  intros Hp. unfold omap. induction l as [|x l IH]; simpl; [done|].
  destruct (p x) eqn:E; simpl; [by rewrite IH|]. by rewrite Hp.
Qed.

Lemma classOf_other g s r : (pr_gatewayId r =s g) = false -> classOf g s r = None.
Proof. unfold classOf. by intros ->. Qed.

Lemma omap_compose {A B C} (f : A -> option B) (h : B -> option C) (k : A -> option C) (l : list A) :
  (forall x, f x ≫= h = k x) -> omap h (omap f l) = omap k l.
Proof.
  intros E. unfold omap. induction l as [|x l IH]; simpl; [done|]. rewrite <- (E x), <- IH. by destruct (f x).
Qed.

Lemma wanted_desired g s : desiredOf s (joined g s) = wanted g s.
Proof.
  unfold wanted, routesOn. rewrite omap_filter by (intros r Hr; by rewrite classOf_other).
  unfold desiredOf, joined. apply omap_compose. intros r. unfold classOf.
  destruct (pr_gatewayId r =s g); [|done]. by destruct (findId (pr_serverId r) (e_servers s)).
Qed.

Lemma classOf_same g s s' r : sameRows s s' -> classOf g s' r = classOf g s r.
Proof. intros (E1 & E2 & E3). unfold classOf, classify, primaryOf. by rewrite E1, E2, E3. Qed.

Lemma classOf_noDns g s r : classOf g s (noDns r) = classOf g s r.
Proof. done. Qed.

(** Nothing changed for gateway [g] but the names its routes answer under and the calls
    made since. *)
Definition sameFor (g : string) (s s' : EdgeState) : Prop :=
  sameRows s s' /\ e_log s `prefix_of` e_log s' /\ acknowledged g (e_log s') = acknowledged g (e_log s) /\ map noDns (routesOn g s') = map noDns (routesOn g s).

(** Between [s] and [s'] the wanted table of gateway [g] was sent to it once the calls
    [before] had been made, and its answer decides what holds: acknowledged, the table is
    the last one it acknowledged and the routes are recorded accordingly; otherwise the last
    acknowledged table is the previous one and the routes of the table are marked failed
    with the reason of that very call. *)
Definition delivered `{Edge} (now : Z) (g : string) (s s' : EdgeState) : Prop :=
  exists before, e_log s `prefix_of` before /\
  match edgeReply before (Apply g (wanted g s)) with
  | None => (before ++ [(Apply g (wanted g s), true)]) `prefix_of` e_log s' /\
      acknowledged g (e_log s') = Some (wanted g s) /\
      map noDns (routesOn g s') = map noDns (omap (accepted now g s) (routesOn g s))
  | Some msg => (before ++ [(Apply g (wanted g s), false)]) `prefix_of` e_log s' /\
      acknowledged g (e_log s') = acknowledged g (e_log s) /\
      map noDns (routesOn g s') = map noDns (map (refused msg g s) (routesOn g s))
  end.

Lemma omap_noDns {B} (f : PublicRoute -> option B) (l l' : list PublicRoute) : (forall r, f (noDns r) = f r) -> map noDns l' = map noDns l -> omap f l' = omap f l.
Proof.
  intros Hf. unfold omap. revert l'. induction l as [|x l IH]; intros [|y l'] E; simpl; try done.
  change (noDns y :: map noDns l' = noDns x :: map noDns l) in E.
  assert (noDns y = noDns x /\ map noDns l' = map noDns l) as [E1 E2] by (by apply (inj2 cons)).
  rewrite (IH l' E2). assert (f y = f x) as -> by (rewrite <- (Hf y), <- (Hf x); congruence). done.
Qed.

Lemma wanted_same g s s' : sameFor g s s' -> wanted g s' = wanted g s.
Proof.
  intros (Hs & _ & _ & Hr). unfold wanted. etransitivity; [apply omap_noDns; [|exact Hr]; done|].
  apply list_omap_ext. apply Forall_Forall2_diag, Forall_forall. intros r _. by rewrite (classOf_same _ s s').
Qed.

Lemma fmap_omap_noDns (f : PublicRoute -> option PublicRoute) l : map noDns (omap f l) = omap (fun r => noDns <$> f r) l.
Proof. unfold omap. induction l as [|x l IH]; simpl; [done|]. destruct (f x); simpl; congruence. Qed.

Lemma noDns_accepted now g s r : noDns <$> accepted now g s (noDns r) = noDns <$> accepted now g s r.
Proof. unfold accepted. rewrite classOf_noDns. by destruct (classOf g s r) as [[]|]. Qed.

Lemma noDns_refused msg g s r : noDns (refused msg g s (noDns r)) = noDns (refused msg g s r).
Proof. unfold refused. rewrite classOf_noDns. by destruct (classOf g s r) as [[]|]. Qed.

Lemma accepted_same now g s s1 : sameFor g s s1 ->
  map noDns (omap (accepted now g s1) (routesOn g s1)) = map noDns (omap (accepted now g s) (routesOn g s)).
Proof.
  intros (Hs & _ & _ & Hr). rewrite !fmap_omap_noDns. etransitivity; [apply omap_noDns; [|exact Hr]; intros; apply noDns_accepted|].
  apply list_omap_ext, Forall_Forall2_diag, Forall_forall. intros r _. unfold accepted. by rewrite (classOf_same _ s s1).
Qed.

Lemma refused_same msg g s s1 : sameFor g s s1 ->
  map noDns (map (refused msg g s1) (routesOn g s1)) = map noDns (map (refused msg g s) (routesOn g s)).
Proof.
  intros (Hs & _ & _ & Hr). rewrite !map_map. transitivity (map (fun r => noDns (refused msg g s1 r)) (map noDns (routesOn g s1))).
  { rewrite map_map. apply map_ext. intros r. by rewrite noDns_refused. }
  rewrite Hr, map_map. apply map_ext. intros r. rewrite noDns_refused. unfold refused. by rewrite (classOf_same _ s s1).
Qed.

Lemma delivered_after `{Edge} now g s s1 s' : sameFor g s s1 -> delivered now g s1 s' -> delivered now g s s'.
Proof.
  intros Hsame. pose proof Hsame as (Hs & Hl & Hf & Hr). intros (before & Hb & Hc).
  exists before. split; [by etransitivity|]. rewrite (wanted_same _ _ _ Hsame) in Hc.
  destruct (edgeReply _ _) as [msg|]; destruct Hc as (H1 & H2 & H3); (split; [done|]); rewrite H2, H3.
  - split; [done|]. by apply refused_same.
  - split; [done|]. by apply accepted_same.
Qed.

Lemma delivered_before `{Edge} now g s s1 s' : sameFor g s1 s' -> delivered now g s s1 -> delivered now g s s'.
Proof.
  intros (Hs & Hl & Hf & Hr) (before & Hb & Hc). exists before. split; [done|].
  destruct (edgeReply _ _) as [msg|]; destruct Hc as (H1 & H2 & H3); (split; [by etransitivity|]); by rewrite Hf, Hr.
Qed.

(** The asked table has one entry per public port when the table of routes does. *)
Lemma wanted_ports g s : NoDup (map (fun r => (pr_gatewayId r, pr_publicPort r)) (e_routes s)) -> NoDup (map dr_publicPort (wanted g s)).
Proof.
  unfold wanted, routesOn. rewrite omap_filter by (intros r Hr; by rewrite classOf_other). unfold omap.
  induction (e_routes s) as [|r l IH]; simpl; [intros; apply NoDup_nil_2|]. intros [Hx Hl]%NoDup_cons.
  destruct (classOf g s r) as [[| |d]|] eqn:E; try by apply IH. simpl. apply NoDup_cons. split; [|by apply IH].
  assert (forall x d, classOf g s x = Some (Included d) -> pr_gatewayId x = g /\ dr_publicPort d = pr_publicPort x) as Hc.
  { intros x d'. unfold classOf, classify. destruct (pr_gatewayId x =s g) eqn:Eg; [|done]. apply bool_decide_eq_true in Eg.
    destruct (findId _ _); [|done]. simpl. destruct (pr_state x =s _); [done|]. destruct (truthy _); [|done]; destruct (primaryOf _ s); [|done].
    by intros [= <-]. }
  destruct (Hc r d E) as [Eg Ep]. intros (d' & Ed & (y & Hy & Ey)%list_elem_of_In%list_elem_of_omap)%list_elem_of_In%in_map_iff.
  destruct (classOf g s y) as [[| |d'']|] eqn:E'; try done. injection Ey as ->. destruct (Hc y d' E') as [Eg' Ep'].
  apply Hx, list_elem_of_In, in_map_iff. exists y. split; [congruence|by apply list_elem_of_In].
Qed.

Lemma map_id_noDns l l' : map noDns l' = map noDns l -> map pr_id l' = map pr_id l.
Proof. intros E. apply (f_equal (map pr_id)) in E. by rewrite !map_map in E. Qed.

Lemma filter_noDns (p : PublicRoute -> bool) l l' :
  (forall r, p (noDns r) = p r) -> map noDns l' = map noDns l -> map noDns (List.filter p l') = map noDns (List.filter p l).
Proof.
  intros Hp E. assert (forall k, map noDns (List.filter p k) = List.filter p (map noDns k)) as Hc.
  { intros k. induction k as [|x k IH]; simpl; [done|]. rewrite Hp. destruct (p x); simpl; congruence. }
  by rewrite !Hc, E.
Qed.

Lemma accepted_core now g s r r' : accepted now g s r = Some r' -> pr_id r' = pr_id r /\ pr_gatewayId r' = pr_gatewayId r.
Proof. unfold accepted. destruct (classOf g s r) as [[]|]; by intros [= <-]. Qed.

Lemma refused_core msg g s r : pr_id (refused msg g s r) = pr_id r /\ pr_gatewayId (refused msg g s r) = pr_gatewayId r.
Proof. unfold refused. by destruct (classOf g s r) as [[]|]. Qed.

Lemma omap_ids (f : PublicRoute -> option PublicRoute) l :
  (forall r r', f r = Some r' -> pr_id r' = pr_id r) -> NoDup (map pr_id l) -> NoDup (map pr_id (omap f l)).
Proof.
  intros Hf. unfold omap. induction l as [|x l IH]; simpl; [done|]. intros [Hx Hl]%NoDup_cons.
  destruct (f x) as [x'|] eqn:E; [|by apply IH]. simpl. apply NoDup_cons. split; [|by apply IH].
  rewrite (Hf _ _ E). intros (y & Ey & (z & Hz & Ez)%list_elem_of_In%list_elem_of_omap)%list_elem_of_In%in_map_iff.
  apply Hx, list_elem_of_In, in_map_iff. exists z. split; [|by apply list_elem_of_In]. rewrite <- Ey. by rewrite (Hf _ _ Ez).
Qed.

Lemma omap_routesOn (f : PublicRoute -> option PublicRoute) g l :
  (forall r r', f r = Some r' -> pr_gatewayId r' = pr_gatewayId r) ->
  List.filter (fun r => pr_gatewayId r =s g) (omap f l) = omap f (List.filter (fun r => pr_gatewayId r =s g) l).
Proof.
  intros Hf. unfold omap. induction l as [|x l IH]; simpl; [done|].
  destruct (f x) as [x'|] eqn:E; simpl; [rewrite (Hf _ _ E)|]; destruct (pr_gatewayId x =s g); simpl; rewrite ?E, IH; done.
Qed.

Lemma map_routesOn (f : PublicRoute -> PublicRoute) g l :
  (forall r, pr_gatewayId (f r) = pr_gatewayId r) ->
  List.filter (fun r => pr_gatewayId r =s g) (map f l) = map f (List.filter (fun r => pr_gatewayId r =s g) l).
Proof. intros Hf. induction l as [|x l IH]; simpl; [done|]. rewrite Hf. destruct (pr_gatewayId x =s g); simpl; by rewrite IH. Qed.

Lemma omap_keep {A} (f : A -> option A) (l : list A) : (forall x, x ∈ l -> f x = Some x) -> omap f l = l.
Proof.
  unfold omap. induction l as [|x l IH]; simpl; [done|]. intros Hf. rewrite Hf by (apply elem_of_cons; by left).
  by rewrite IH by (intros; apply Hf, elem_of_cons; by right).
Qed.

Section Gateways.
Context `{Platform} `{Edge} (cfg : EdgeConfig) (now : Z).

Lemma passed_ids g s s' : passed now g s s' -> NoDup (map pr_id (e_routes s)) -> NoDup (map pr_id (e_routes s')).
Proof.
  intros (_ & _ & _ & _ & Hc) Hn. destruct (edgeReply _ _) as [msg|]; destruct Hc as [_ Hc].
  - rewrite Hc, map_map. erewrite map_ext; [exact Hn|]. intros r. apply refused_core.
  - rewrite (map_id_noDns _ _ Hc). apply omap_ids; [|done]. intros r r' E. by eapply accepted_core.
Qed.

Lemma passed_delivered g s s' : passed now g s s' -> delivered now (gw_id g) s s'.
Proof.
  intros (_ & _ & _ & Hl & Hc). rewrite wanted_desired in Hl, Hc. exists (e_log s). split; [done|].
  destruct (edgeReply _ _) as [msg|]; destruct Hc as [Hf Hr]; (split; [exact Hl|]); (split; [done|]); unfold routesOn.
  - f_equal. rewrite Hr. apply map_routesOn. intros r. apply refused_core.
  - rewrite (filter_noDns (fun r => pr_gatewayId r =s gw_id g) _ _ (fun _ => eq_refl) Hr). f_equal. apply omap_routesOn.
    intros r r' E. by eapply accepted_core.
Qed.

Lemma passed_others g g' s s' : passed now g s s' -> g' <> gw_id g -> sameFor g' s s'.
Proof.
  intros (Hs & _ & Ho & Hl & Hc) Hne. split; [done|]. split; [etransitivity; [|exact Hl]; by apply prefix_app_r|]. split; [by apply Ho|].
  assert (forall r, r ∈ routesOn g' s -> classOf (gw_id g) s r = None) as Hcl.
  { intros r (_ & Hr)%list_elem_of_In%filter_In. apply classOf_other. apply bool_decide_eq_true in Hr. by apply bool_decide_eq_false_2; congruence. }
  unfold routesOn. destruct (edgeReply _ _) as [msg|]; destruct Hc as [_ Hr].
  - rewrite Hr, map_routesOn by (intros; apply refused_core). f_equal. etransitivity; [|apply map_id]. apply map_ext_in.
    intros r Hin%list_elem_of_In. unfold refused. by rewrite Hcl.
  - rewrite (filter_noDns (fun r => pr_gatewayId r =s g') _ _ (fun _ => eq_refl) Hr), omap_routesOn by (intros r r' E; by eapply accepted_core).
    f_equal. apply omap_keep. intros r Hin. unfold accepted. by rewrite Hcl.
Qed.

Lemma sameFor_trans g s1 s2 s3 : sameFor g s1 s2 -> sameFor g s2 s3 -> sameFor g s1 s3.
Proof. intros (A1 & L1 & B1 & C1) (A2 & L2 & B2 & C2). split; [by etransitivity|]. split; [by etransitivity|]. split; congruence. Qed.

Lemma forEach_delivered gs s : NoDup (map pr_id (e_routes s)) -> NoDup (map gw_id gs) ->
  (forall g, g ∈ gs -> gw_id g ∈ map gw_id (e_gateways s)) ->
  exists s', forEach gs (reconcileGateway cfg now) s = (Ok tt, s') /\ sameRows s s' /\ NoDup (map pr_id (e_routes s')) /\
    map gw_id (e_gateways s') = map gw_id (e_gateways s) /\
    (forall g, g ∈ gs -> delivered now (gw_id g) s s') /\ (forall g, g ∉ map gw_id gs -> sameFor g s s').
Proof.
  revert s. induction gs as [|g gs IH]; intros s Hn Hgs Hin; simpl.
  { exists s. split; [done|]. split; [done|]. split; [done|]. split; [done|].
    split; [by intros ? ?%not_elem_of_nil|]. done. }
  apply NoDup_cons in Hgs as [Hg Hgs].
  destruct (reconcileGateway_passed cfg now g s Hn) as (s1 & E1 & P1); [apply Hin, elem_of_cons; by left|].
  rewrite (bind_run _ _ _ _ _ E1). pose proof P1 as (Hs1 & Hgw1 & _).
  destruct (IH s1) as (s' & E' & Hs' & Hn' & Hgw' & Hd & Ho); [by eapply passed_ids|done| |].
  { intros x Hx. rewrite Hgw1. apply Hin, elem_of_cons. by right. }
  exists s'. split; [done|]. split; [by etransitivity|]. split; [done|]. split; [congruence|]. split.
  - intros x [->|Hx]%elem_of_cons.
    + eapply delivered_before; [by apply Ho|]. by apply passed_delivered.
    + eapply delivered_after; [|by apply Hd]. eapply passed_others; [done|]. intros E. apply Hg. rewrite <- E.
      apply list_elem_of_In, in_map. by apply list_elem_of_In.
  - intros x [H1 H2]%not_elem_of_cons. eapply sameFor_trans; [by eapply passed_others|]. by apply Ho.
Qed.

End Gateways.

(** ** Names *)

Lemma append_cons c a b : String c a +:+ b = String c (a +:+ b).
Proof. done. Qed.

Lemma append_length a b : String.length (a +:+ b) = (String.length a + String.length b)%nat.
Proof. induction a as [|c a IH]; [done|]. rewrite append_cons. simpl. by rewrite IH. Qed.

Lemma append_cancel_r a b c : a +:+ c = b +:+ c -> a = b.
Proof.
  revert b. induction a as [|x a IH]; intros [|y b] E; [done|exfalso|exfalso|].
  - apply (f_equal String.length) in E. rewrite !append_length in E. simpl in E. lia.
  - apply (f_equal String.length) in E. rewrite !append_length in E. simpl in E. lia.
  - rewrite !append_cons in E. injection E as -> E. by rewrite (IH b E).
Qed.

Lemma code_inj a b : code a = code b -> a = b.
Proof. unfold code. intros E. rewrite <- (ascii_N_embedding a), <- (ascii_N_embedding b). by rewrite E. Qed.

Lemma code_lower c : code (lowerChar c) = if (65 <=? code c)%N && (code c <=? 90)%N then (code c + 32)%N else code c.
Proof.
  unfold lowerChar. destruct ((65 <=? code c)%N && (code c <=? 90)%N) eqn:E; [|done].
  apply andb_true_iff in E as [E1%N.leb_le E2%N.leb_le]. unfold code at 1. apply N_ascii_embedding. lia.
Qed.

(** The characters of short ids. *)
Definition upperId (c : ascii) : bool := shortIdChar (lowerChar c) && negb (isLower c) && isAscii c.

Lemma alphabetAt_char b : exists c, alphabetAt b = String c "" /\ upperId c = true.
Proof.
  unfold alphabetAt. change (Z.of_nat (String.length ALPHABET)) with 32.
  pose proof (Z.mod_pos_bound b 32 ltac:(lia)) as Hb.
  assert (forall n, (n < 32)%nat -> exists c, match String.get n ALPHABET with Some c => String c "" | None => "" end = String c "" /\ upperId c = true) as Hall.
  { intros n Hn. do 32 (destruct n as [|n]; [eexists; split; reflexivity|]). lia. }
  apply Hall. lia.
Qed.

Lemma allChars_app p a b : allChars p (a +:+ b) = allChars p a && allChars p b.
Proof. induction a as [|c a IH]; [done|]. rewrite append_cons. simpl. by rewrite IH, andb_assoc. Qed.

Lemma shortId_shape bytes : allChars upperId (generateShortId bytes) = true /\ String.length (generateShortId bytes) = 8%nat.
Proof.
  unfold generateShortId. assert (forall l, allChars upperId (String.concat "" (map (fun i => alphabetAt (nth i bytes 0)) l)) = true /\
    String.length (String.concat "" (map (fun i => alphabetAt (nth i bytes 0)) l)) = List.length l) as Hl; [|apply Hl].
  induction l as [|i l [IH1 IH2]]; [done|]. destruct (alphabetAt_char (nth i bytes 0)) as (c & E & Hc).
  destruct l as [|j l]; [simpl; rewrite E; simpl; by rewrite Hc|].
  change (String.concat "" (map (fun i => alphabetAt (nth i bytes 0)) (i :: j :: l))) with
    (alphabetAt (nth i bytes 0) +:+ "" +:+ String.concat "" (map (fun i => alphabetAt (nth i bytes 0)) (j :: l))).
  rewrite E. rewrite !allChars_app, !append_length, IH1, IH2. simpl. by rewrite Hc.
Qed.

Lemma allChars_impl (p q : ascii -> bool) s : (forall c, p c = true -> q c = true) -> allChars p s = true -> allChars q s = true.
Proof. intros Hpq. induction s as [|c s IH]; simpl; [done|]. rewrite !andb_true_iff. naive_solver. Qed.

Lemma lowerAscii_length s : String.length (lowerAscii s) = String.length s.
Proof. induction s; simpl; congruence. Qed.

Lemma lower_shaped s : allChars upperId s = true -> String.length s = 8%nat -> SHORT_ID_SHAPED (lowerAscii s) = true.
Proof.
  intros Hs Hl. unfold SHORT_ID_SHAPED. rewrite lowerAscii_length, Hl. simpl. clear Hl. revert Hs.
  induction s as [|c s IH]; simpl; [done|]. rewrite !andb_true_iff. intros [Hc Hs]. split; [|by apply IH].
  unfold upperId in Hc. by apply andb_true_iff in Hc as [[? _]%andb_true_iff _].
Qed.

Lemma lower_inj a b : allChars upperId a = true -> allChars upperId b = true -> lowerAscii a = lowerAscii b -> a = b.
Proof.
  revert b. induction a as [|x a IH]; intros [|y b] Ha Hb E; try done. simpl in *.
  apply andb_true_iff in Ha as [Hx Ha], Hb as [Hy Hb]. assert (lowerChar x = lowerChar y) as Exy by congruence.
  f_equal; [|apply IH; congruence]. apply code_inj. apply (f_equal code) in Exy. rewrite !code_lower in Exy.
  unfold upperId in Hx, Hy. apply andb_true_iff in Hx as [[_ Hx]%andb_true_iff _], Hy as [[_ Hy]%andb_true_iff _].
  apply negb_true_iff in Hx, Hy. unfold isLower in Hx, Hy. apply andb_false_iff in Hx, Hy. rewrite !N.leb_gt in Hx, Hy.
  repeat match goal with H : context [(?a <=? ?b)%N] |- _ => destruct (N.leb_spec a b) end; simpl in *; lia.
Qed.

Lemma lower_label s : allChars labelInner s = true -> lowerAscii s = s.
Proof.
  induction s as [|c s IH]; simpl; [done|]. rewrite andb_true_iff. intros [Hc Hs]. f_equal; [|by apply IH].
  apply code_inj. rewrite code_lower. destruct (_ && _) eqn:E; [|done]. exfalso.
  unfold labelInner, labelChar, isLower, isDigit in Hc.
  rewrite ?orb_true_iff, ?andb_true_iff, ?N.leb_le, ?N.eqb_eq in Hc. rewrite ?andb_true_iff, ?N.leb_le in E. lia.
Qed.

Lemma labelInner_ascii c : labelInner c = true -> isAscii c = true.
Proof.
  unfold labelInner, labelChar, isLower, isDigit, isAscii.
  rewrite ?orb_true_iff, ?andb_true_iff, ?N.leb_le, ?N.eqb_eq, N.ltb_lt. lia.
Qed.

Lemma upperId_ascii c : upperId c = true -> isAscii c = true.
Proof. unfold upperId. by intros [_ ?]%andb_true_iff. Qed.

Lemma labelTail_inner s : labelTail s = true -> allChars labelInner s = true.
Proof.
  induction s as [|c s IH]; [done|]. destruct s as [|d s]; simpl.
  - intros Hc. unfold labelInner. by rewrite Hc.
  - intros [Hc Ht]%andb_true_iff. apply andb_true_iff. split; [done|]. by apply IH.
Qed.

Lemma pattern_inner s : HOSTNAME_LABEL_PATTERN s = true -> allChars labelInner s = true.
Proof.
  destruct s as [|c s]; [done|]. simpl. rewrite !andb_true_iff. intros [Hc Ht]. split; [unfold labelInner; by rewrite Hc|].
  apply orb_true_iff in Ht as [->%bool_decide_eq_true|[Ht _]%andb_true_iff]; [done|]. by apply labelTail_inner.
Qed.

(** ** Routes are only removed or re-labelled *)

(** The columns that identify a route. *)
Definition coreOf (r : PublicRoute) : PublicRoute :=
  mkRoute (pr_id r) (pr_gatewayId r) (pr_serverId r) (pr_publicPort r) "" R_pending None None (pr_customHostname r) None.

Definition shrinks (s s' : EdgeState) : Prop :=
  sublist (map coreOf (e_routes s')) (map coreOf (e_routes s)) /\ map gw_id (e_gateways s') = map gw_id (e_gateways s) /\
  e_servers s' = e_servers s.

#[export] Instance shrinks_preorder : PreOrder shrinks.
Proof. split; [intros s; split; [reflexivity|done]|]. intros a b c (?&?&?) (?&?&?). split; [by etransitivity|]. split; congruence. Qed.

Lemma onRoutes_shrinks f : (forall l, sublist (map coreOf (f l)) (map coreOf l)) -> keeps shrinks (onRoutes f).
Proof. intros Hf s r s' [= <- <-]. split; [apply Hf|done]. Qed.

Lemma upd_core f (l : list PublicRoute) (p : PublicRoute -> bool) :
  (forall r, coreOf (f r) = coreOf r) -> map coreOf (updFirst p f l) = map coreOf l.
Proof. intros Hf. induction l as [|x l IH]; simpl; [done|]. destruct (p x); simpl; [by rewrite Hf|by rewrite IH]. Qed.

Lemma updWhere_core f (l : list PublicRoute) (p : PublicRoute -> bool) :
  (forall r, coreOf (f r) = coreOf r) -> map coreOf (updWhere p f l) = map coreOf l.
Proof. intros Hf. unfold updWhere. rewrite map_map. apply map_ext. intros r. destruct (p r); auto. Qed.

Lemma filter_core (l : list PublicRoute) (p : PublicRoute -> bool) : sublist (map coreOf (List.filter p l)) (map coreOf l).
Proof. induction l as [|x l IH]; simpl; [done|]. destruct (p x); simpl; by constructor. Qed.

Lemma onlyLogs_shrinks ok s s' : onlyLogs ok s s' -> shrinks s s'.
Proof. intros (more & -> & _). split; [simpl; reflexivity|done]. Qed.

Lemma transaction_shrinks {A} (m : ME A) : keeps shrinks m -> keeps shrinks (transaction m).
Proof.
  intros Hm s r s'. unfold transaction. destruct (m s) as [[a|e] s1] eqn:E; intros [= <- <-]; [by eapply Hm|].
  apply Hm in E as (_ & _ & Hs). split; [simpl; reflexivity|done].
Qed.

Section Shrinks.
Context `{Platform} `{Edge} (cfg : EdgeConfig).

Lemma dnsFrame_shrinks s s' : dnsFrame s s' -> shrinks s s'.
Proof.
  intros (Hr & Hg & (Hs & _) & _). split; [|by rewrite Hg]. apply (f_equal (map coreOf)) in Hr. rewrite !map_map in Hr.
  by rewrite (Hr : map coreOf (e_routes s') = map coreOf (e_routes s)).
Qed.

Lemma updGateway_shrinks id f : (forall g, gw_id (f g) = gw_id g) -> keeps shrinks (updGateway id f).
Proof.
  intros Hf. unfold updGateway. repeat keeps_step. intros s r s' [= <- <-]. split; [simpl; reflexivity|]. split; [|done].
  by apply (updId_rids (R := Gateway)).
Qed.

Lemma updRoutes_shrinks l f : (forall r, coreOf (f r) = coreOf r) -> keeps shrinks (updRoutes l f).
Proof. intros Hf. apply onRoutes_shrinks. intros k. by rewrite updWhere_core. Qed.

Lemma reconcile_shrinks now : keeps shrinks (reconcileOnce cfg now).
Proof.
  unfold reconcileOnce. keeps_step; [keeps_step|]. keeps_step. unfold reconcileGateway, applyFailed, applySucceeded.
  repeat first [apply transaction_shrinks | by apply updGateway_shrinks | by apply updRoutes_shrinks
    | apply onRoutes_shrinks; intros; apply filter_core
    | by intros s r s' E; eapply dnsFrame_shrinks, syncDns_frame
    | by intros s r s' E; apply (onlyLogs_shrinks (fun _ => true)); eapply send_logs
    | keeps_step ].
Qed.

Lemma updRoute_shrinks sid f : (forall r, coreOf (f r) = coreOf r) -> keeps shrinks (updRoute sid f).
Proof. intros Hf. apply onRoutes_shrinks. intros k. by rewrite upd_core. Qed.

Lemma enqueue_logs : keeps (onlyLogs (fun _ => true)) enqueueReconcileBestEffort.
Proof. apply ignore_keeps; [apply _|]. by apply send_logs. Qed.

Lemma markRemoving_shrinks sid : keeps shrinks (markRemoving sid).
Proof.
  unfold markRemoving. apply ignore_keeps; [apply _|].
  repeat first [by apply updRoute_shrinks | by intros ? ? ? E; eapply dnsFrame_shrinks, remove_frame | keeps_step].
Qed.

End Shrinks.

(** ** The invariant of the two tables *)

Definition inRange (cfg : EdgeConfig) (port : Z) : Prop :=
  exists a b rest, portRange cfg = Some a :: Some b :: rest /\ a <= port <= b.

(** What the schema, the port pool and the hostname policy promise together. *)
Record edgeOk `{Platform} (cfg : EdgeConfig) (s : EdgeState) : Prop := {
  eo_gateways : NoDup (map gw_id (e_gateways s));
  eo_ids : NoDup (map pr_id (e_routes s));
  eo_servers : NoDup (map pr_serverId (e_routes s));
  eo_ports : NoDup (map (fun r => (pr_gatewayId r, pr_publicPort r)) (e_routes s));
  eo_range : forall r, r ∈ e_routes s -> inRange cfg (pr_publicPort r);
  eo_custom : forall a b l, a ∈ e_routes s -> b ∈ e_routes s -> pr_customHostname a = Some l -> pr_customHostname b = Some l ->
    pr_serverId a = pr_serverId b;
  eo_labels : forall r l, r ∈ e_routes s -> pr_customHostname r = Some l ->
    validHostnameDto (Some l) = true /\ isReservedHostnameLabel l = false;
  eo_serverIds : NoDup (map sv_id (e_servers s));
  eo_shortIds : NoDup (map sv_shortId (e_servers s));
  eo_shapes : forall v, v ∈ e_servers s -> exists bytes, sv_shortId v = generateShortId bytes }.

Lemma core_elem l l' r : sublist (map coreOf l') (map coreOf l) -> r ∈ l' -> exists x, x ∈ l /\ coreOf x = coreOf r.
Proof.
  intros Hs Hr. assert (coreOf r ∈ map coreOf l) as (x & E & Hx)%list_elem_of_In%in_map_iff.
  { eapply elem_of_sublist; [|exact Hs]. apply list_elem_of_In, in_map. by apply list_elem_of_In. }
  exists x. split; [by apply list_elem_of_In|done].
Qed.

Lemma core_NoDup {B} (f : PublicRoute -> B) l l' : (forall r, f (coreOf r) = f r) ->
  sublist (map coreOf l') (map coreOf l) -> NoDup (map f l) -> NoDup (map f l').
Proof.
  intros Hf Hs Hn. eapply sublist_NoDup; [exact Hn|]. apply (fmap_sublist f) in Hs. unfold fmap, list_fmap in Hs.
  change (sublist (map f (map coreOf l')) (map f (map coreOf l))) in Hs. rewrite !map_map in Hs.
  by rewrite (map_ext _ _ Hf l), (map_ext _ _ Hf l') in Hs.
Qed.

Section Invariant.
Context `{Platform} `{Edge} (cfg : EdgeConfig).

Lemma shrinks_ok s s' : shrinks s s' -> edgeOk cfg s -> edgeOk cfg s'.
Proof.
  intros (Hs & Hg & Hv) [G I V P Rg C L S1 S2 S3]. split; rewrite ?Hg, ?Hv; try done.
  - by eapply core_NoDup; [|exact Hs|].
  - by eapply core_NoDup; [|exact Hs|].
  - by eapply core_NoDup; [|exact Hs|].
  - intros r (x & Hx & E)%(core_elem _ _ _ Hs). injection E as ?. replace (pr_publicPort r) with (pr_publicPort x) by done. by apply Rg.
  - intros a b l (x & Hx & Ex)%(core_elem _ _ _ Hs) (y & Hy & Ey)%(core_elem _ _ _ Hs) Ha Hb.
    injection Ex as ?. injection Ey as ?. replace (pr_serverId a) with (pr_serverId x) by done.
    replace (pr_serverId b) with (pr_serverId y) by done. apply (C x y l); congruence.
  - intros r l (x & Hx & E)%(core_elem _ _ _ Hs) Hl. injection E as ?. apply (L x); congruence.
Qed.

Lemma candidate_range p port : port ∈ portCandidates cfg p -> inRange cfg port.
Proof.
  unfold portCandidates, inRange. destruct (portRange cfg) as [|[a|] [|[b|] rest]]; try by intros ?%not_elem_of_nil.
  intros [Hp|Hp]%elem_of_app; exists a, b, rest; (split; [done|]).
  - destruct ((a <=? p) && (p <=? b)) eqn:E; [|by apply not_elem_of_nil in Hp]. apply list_elem_of_singleton in Hp as ->.
    apply andb_true_iff in E as [?%Z.leb_le ?%Z.leb_le]. done.
  - apply list_elem_of_In, filter_In in Hp as [Hp%list_elem_of_In%elem_of_seqZ _]. lia.
Qed.


(** ** The choice of a public port *)

Definition portFree (g : string) (port : Z) (s : EdgeState) : bool :=
  negb (existsb (fun r => (pr_gatewayId r =s g) && (pr_publicPort r =s port)) (e_routes s)).

(** [uuidv7()] never repeats an id of the table. *)
Definition uuidsFresh (s : EdgeState) : Prop := forall n r, (e_next s <= n)%N -> r ∈ e_routes s -> pr_id r <> uuidv7 n.

Definition newRoute (n : N) (g sid : string) (port : Z) : PublicRoute :=
  mkRoute (uuidv7 n) g sid port "tcp" R_pending None None None None.

Lemma createRoute_inv g sid port s r s' : createRoute g sid port s = (r, s') ->
  (exists e, r = Throw e /\ s' = s <| e_next := (e_next s + 1)%N |>) \/
  (r = Ok (newRoute (e_next s) g sid port) /\
   s' = s <| e_next := (e_next s + 1)%N |> <| e_routes := e_routes s ++ [newRoute (e_next s) g sid port] |> /\
   (forall x, x ∈ e_routes s -> pr_id x <> uuidv7 (e_next s) /\ pr_serverId x <> sid /\ (pr_gatewayId x, pr_publicPort x) <> (g, port))).
Proof.
  unfold createRoute. erewrite bind_run by reflexivity. cbv zeta. rewrite bind_gets. simpl. intros Hrun.
  repeat match type of Hrun with
  | (throwIf ?b ?e ;; _) _ = _ => let E := fresh "Hb" in destruct b eqn:E;
      [injection Hrun as <- <-; left; by eauto | change (throwIf false e) with (mret tt : ME unit) in Hrun; rewrite bind_ret in Hrun]
  | (gets _ ≫= _) _ = _ => rewrite bind_gets in Hrun; simpl in Hrun
  end.
  injection Hrun as <- <-. right.
  split; [done|]. split; [done|]. intros x Hx. repeat split; intros E.
  all: lazymatch goal with
       | E : pr_id _ = _ |- _ => assert (existsb (fun r => pr_id r =s uuidv7 (e_next s)) (e_routes s) = true) as Hc; [|congruence]
       | E : pr_serverId _ = _ |- _ => assert (existsb (fun r => pr_serverId r =s sid) (e_routes s) = true) as Hc; [|congruence]
       | _ => apply (inj2 pair) in E as [Eg Ep]; assert (existsb (fun r => (pr_gatewayId r =s g) && (pr_publicPort r =s port)) (e_routes s) = true) as Hc; [|congruence]
       end; apply existsb_exists; exists x; (split; [by apply list_elem_of_In|]); by rewrite ?andb_true_iff, !bool_decide_eq_true.
Qed.

Lemma bumpNext_ok s n : edgeOk cfg s -> edgeOk cfg (s <| e_next := n |>).
Proof. intros Hok. eapply shrinks_ok; [|exact Hok]. split; [simpl; reflexivity|done]. Qed.

Lemma createRoute_ok g sid port s r s' : inRange cfg port -> createRoute g sid port s = (r, s') -> edgeOk cfg s -> edgeOk cfg s'.
Proof.
  intros Hp [(e & _ & ->)|(_ & -> & Hnew)]%createRoute_inv Hok; [by apply bumpNext_ok|].
  destruct Hok as [G I V P Rg C L S1 S2 S3]. split; simpl; try done; rewrite ?map_app; simpl.
  all: try (apply NoDup_app; split; [done|]; split; [|by apply NoDup_singleton];
    intros y (x & <- & Hx%list_elem_of_In)%list_elem_of_In%in_map_iff Hy%list_elem_of_singleton;
    destruct (Hnew x Hx) as (?&?&?); done).
  - intros x [Hx|Hx%list_elem_of_singleton]%elem_of_app; [by apply Rg|by subst].
  - intros a b l [Ha|Ha%list_elem_of_singleton]%elem_of_app [Hb|Hb%list_elem_of_singleton]%elem_of_app Ea Eb; subst; try done. by eapply C.
  - intros x l [Hx|Hx%list_elem_of_singleton]%elem_of_app E; subst; [by eapply L|done].
Qed.

Lemma tryPorts_ok g sid ports s r s' : (forall p, p ∈ ports -> inRange cfg p) -> tryPorts cfg g sid ports s = (r, s') ->
  edgeOk cfg s -> edgeOk cfg s'.
Proof.
  revert s. induction ports as [|p ports IH]; intros s Hp; simpl; [by intros [= _ <-]|].
  intros [(a & E & _)|(e & s1 & E1 & E2)]%tryCatch_inv Hok.
  - eapply createRoute_ok; [|exact E|done]. apply Hp, elem_of_cons. by left.
  - assert (edgeOk cfg s1) as Hok1 by (eapply createRoute_ok; [|exact E1|done]; apply Hp, elem_of_cons; by left).
    destruct e; try by injection E2 as _ <-. eapply IH; [|exact E2|done]. intros q Hq. apply Hp, elem_of_cons. by right.
Qed.


(** ** Every operation keeps it *)

Definition keepsOk (s s' : EdgeState) : Prop := edgeOk cfg s -> edgeOk cfg s'.

#[export] Instance keepsOk_preorder : PreOrder keepsOk.
Proof. split; [intros s Hs; exact Hs|]. intros a b c Hab Hbc Ha. by apply Hbc, Hab. Qed.

Lemma keepsOk_shrinks {A} (m : ME A) : keeps shrinks m -> keeps keepsOk m.
Proof. intros Hm s r s' E Hs. eapply shrinks_ok; [|exact Hs]. by eapply Hm. Qed.

Lemma modify_tables f : (forall s, e_gateways (f s) = e_gateways s /\ e_routes (f s) = e_routes s /\ e_servers (f s) = e_servers s) ->
  keeps keepsOk (modify f).
Proof.
  intros Hf. apply keepsOk_shrinks. intros s r s' [= <- <-]. destruct (Hf s) as (E1 & E2 & E3). split; [rewrite E2; reflexivity|].
  split; congruence.
Qed.

Lemma enqueue_ok : keeps keepsOk enqueueReconcileBestEffort.
Proof. apply keepsOk_shrinks. intros s r s' E. by eapply onlyLogs_shrinks, enqueue_logs. Qed.

Lemma ensureRoute_ok sid : keeps keepsOk (ensureRouteForServer cfg sid).
Proof.
  unfold ensureRouteForServer. apply ignore_keeps; [apply _|].
  repeat first [apply enqueue_ok | apply modify_tables; done
    | intros ? ? ? E Hs; eapply tryPorts_ok; [|exact E|exact Hs]; apply candidate_range | keeps_step].
Qed.

Definition withCustom (c : option string) (r : PublicRoute) : PublicRoute := r <| pr_customHostname := c |>.

Lemma updFirst_map {B} (f : PublicRoute -> B) p c l : (forall r, f (withCustom c r) = f r) -> map f (updFirst p (withCustom c) l) = map f l.
Proof. intros Hf. induction l as [|x l IH]; simpl; [done|]. destruct (p x); simpl; [by rewrite Hf|by rewrite IH]. Qed.

Lemma updCustom_ok sid c s :
  (forall l, c = Some l -> validHostnameDto (Some l) = true /\ isReservedHostnameLabel l = false /\
     forall r, r ∈ e_routes s -> pr_customHostname r = Some l -> pr_serverId r = sid) ->
  keepsOk s (s <| e_routes := updFirst (fun r => pr_serverId r =s sid) (withCustom c) (e_routes s) |>).
Proof.
  intros Hc [G I V P Rg C L S1 S2 S3].
  assert (forall r, r ∈ updFirst (fun r => pr_serverId r =s sid) (withCustom c) (e_routes s) ->
    exists x, x ∈ e_routes s /\ pr_publicPort r = pr_publicPort x /\ pr_serverId r = pr_serverId x /\
      (pr_customHostname r = pr_customHostname x \/ pr_customHostname r = c /\ pr_serverId x = sid)) as Hel.
  { intros r [Hr|(x & Hx & ->)]%updFirst_elem; [exists r; auto|]. apply findFirst_some in Hx as [Hx Hs].
    apply bool_decide_eq_true in Hs. exists x. split; [done|]. split; [done|]. split; [done|]. by right. }
  split; simpl; rewrite ?updFirst_map by done; try done.
  - intros r (x & Hx & -> & _)%Hel. by apply Rg.
  - intros a b l (x & Hx & _ & -> & Ha)%Hel (y & Hy & _ & -> & Hb)%Hel Ea Eb.
    destruct Ha as [Ha|[Ha Hsa]], Hb as [Hb|[Hb Hsb]]; [apply (C x y l); congruence| | |congruence].
    + destruct (Hc l) as (_ & _ & Hu); [congruence|]. rewrite Hsb. apply Hu; congruence.
    + destruct (Hc l) as (_ & _ & Hu); [congruence|]. rewrite Hsa. symmetry. apply Hu; congruence.
  - intros r l (x & Hx & _ & _ & [Ha|[Ha _]])%Hel E; [apply (L x); congruence|]. destruct (Hc l) as (? & ? & _); [congruence|done].
Qed.

Lemma saveHostname_ok sid l : validHostnameDto (Some l) = true -> isReservedHostnameLabel l = false -> keeps keepsOk (saveHostname sid l).
Proof.
  intros Hv Hr s r s'. unfold saveHostname. rewrite bind_gets. intros [[_ ->]|[Hb E]]%bind_throwIf; [done|].
  injection E as _ <-. apply (updCustom_ok sid (Some l)). intros l' [= <-]. split; [done|]. split; [done|]. intros x Hx El.
  apply dec_stable. intros Hne. assert (existsb (fun r => (pr_customHostname r =s Some l) && negb (pr_serverId r =s sid)) (e_routes s) = true) as Ht;
    [|by rewrite Ht in Hb]. apply existsb_exists. exists x. split; [by apply list_elem_of_In|].
  by rewrite bool_decide_eq_true_2, bool_decide_eq_false_2.
Qed.

Lemma setCustomHostname_ok sid h : (forall l, h = Some l -> validHostnameDto (Some l) = true /\ isReservedHostnameLabel l = false) ->
  keeps keepsOk (setCustomHostname cfg sid h).
Proof.
  intros Hh. unfold setCustomHostname, checkAvailable.
  repeat first [apply enqueue_ok | by apply saveHostname_ok; [apply (Hh _ eq_refl)..] | keeps_step].
  intros s r s' [= <- <-]. by apply (updCustom_ok sid None).
Qed.

Lemma patchHostname_ok a x h : keeps keepsOk (patchHostname cfg a x h).
Proof.
  unfold patchHostname, updateHostname. intros s r s' [[_ ->]|[Hv E]]%bind_throwIf; [done|].
  apply bind_throwIf in E as [[_ ->]|[_ E]]; [done|]. apply bind_throwIf in E as [[_ ->]|[Hr E]]; [done|].
  assert (keeps keepsOk (setCustomHostname cfg (sv_id (ra_server x)) h ;;
    note "server.hostname.update" (Some (xa_id a)) "server" (sv_id (ra_server x)) ;;
    modify (fun s => s <| e_activity := e_activity s ++ [(xa_id a, sv_id (ra_server x), "server.hostname.update")] |>) ;;
    mret h)) as Hk; [|by eapply Hk].
  repeat first [apply modify_tables; done | keeps_step]. apply setCustomHostname_ok. intros l ->.
  apply negb_false_iff in Hv. done.
Qed.

End Invariant.

(** ** Histories *)

(** What creation guarantees of the row it adds (a new id, and the [UNIQUE] short id of
    [generateUniqueShortId]). *)
Definition opOk (s : EdgeState) (op : EdgeOp) : Prop :=
  match op with
  | OCreateServer v _ => (sv_id v ∉ map sv_id (e_servers s)) /\ (sv_shortId v ∉ map sv_shortId (e_servers s)) /\
                         exists bytes, sv_shortId v = generateShortId bytes
  | _ => True
  end.

Inductive reachable `{Platform} `{Edge} (cfg : EdgeConfig) : EdgeState -> Prop :=
  | reachable_start allocations tunnelIps : reachable cfg (mkEdge [] [] [] allocations tunnelIps [] [] [] 0)
  | reachable_step s op : reachable cfg s -> opOk s op -> reachable cfg (runEdge cfg op s).

Section Histories.
Context `{Platform} `{Edge} (cfg : EdgeConfig).

Lemma gateways_ok s gs : NoDup (map gw_id gs) -> edgeOk cfg s -> edgeOk cfg (s <| e_gateways := gs |>).
Proof. intros Hg [G I V P Rg C L S1 S2 S3]. by split. Qed.

Lemma updGateways_ok id f : (forall g, gw_id (f g) = gw_id g) -> keeps (keepsOk cfg) (onGateways (updId id f)).
Proof.
  intros Hf s r s' [= <- <-] Hs. apply gateways_ok; [|done].
  change (NoDup (map rid (updId id f (e_gateways s)))). rewrite updId_rids by done. apply Hs.
Qed.

(** The joined servers replaced by an acceptable list. *)
Lemma servers_ok s vs al : NoDup (map sv_id vs) -> NoDup (map sv_shortId vs) ->
  (forall v, v ∈ vs -> exists bytes, sv_shortId v = generateShortId bytes) ->
  edgeOk cfg s -> edgeOk cfg (s <| e_servers := vs |> <| e_allocations := al |>).
Proof. intros H1 H2 H3 [G I V P Rg C L S1 S2 S3]. by split. Qed.

Lemma addServer_ok s v al : opOk s (OCreateServer v al) -> edgeOk cfg s ->
  edgeOk cfg (s <| e_servers := e_servers s ++ [v] |> <| e_allocations := al |>).
Proof.
  intros (H1 & H2 & H3) Hs. apply servers_ok; [| | |done]; rewrite ?map_app; simpl.
  1, 2: apply NoDup_app; split; [apply Hs|]; split; [|by apply NoDup_singleton]; by intros y Hy ->%list_elem_of_singleton.
  intros w [Hw|Hw%list_elem_of_singleton]%elem_of_app; [by eapply eo_shapes|by subst].
Qed.

Definition onNode (nodeId : string) (v : Server) : Server := v <| sv_nodeId := nodeId |>.

Lemma updFirst_servers {B} (f : Server -> B) p nodeId l : (forall v, f (onNode nodeId v) = f v) -> map f (updFirst p (onNode nodeId) l) = map f l.
Proof. intros Hf. induction l as [|x l IH]; simpl; [done|]. destruct (p x); simpl; [by rewrite Hf|by rewrite IH]. Qed.

Lemma moveServer_ok s id nodeId al : edgeOk cfg s ->
  edgeOk cfg (s <| e_servers := updId id (onNode nodeId) (e_servers s) |> <| e_allocations := al |>).
Proof.
  intros Hs. apply servers_ok; [| | |done]; unfold updId; rewrite ?updFirst_servers by done; [apply Hs..|].
  intros w [Hw|(y & Hy & ->)]%updFirst_elem; [by eapply eo_shapes|].
  apply findFirst_some in Hy as [Hy _]. exact (eo_shapes _ _ Hs y Hy).
Qed.

Lemma deleteServer_ok id : keeps (keepsOk cfg) (deleteServer id).
Proof.
  intros s r s' [= <- <-] Hs.
  assert (edgeOk cfg (s <| e_routes := List.filter (fun r => negb (pr_serverId r =s id)) (e_routes s) |>)) as [G I V P Rg C L S1 S2 S3].
  { eapply shrinks_ok; [|exact Hs]. split; [apply filter_core|done]. }
  split; simpl; try done; [by apply NoDup_map_filter..|]. intros v [Hv _]%list_elem_of_In%filter_In. by apply S3, list_elem_of_In.
Qed.

Lemma removeServer_ok id : keeps (keepsOk cfg) (markRemoving id ;; deleteServer id).
Proof. keeps_step; [apply keepsOk_shrinks, markRemoving_shrinks|apply deleteServer_ok]. Qed.

Lemma createGateway_ok t na ph ti cu ac : keeps (keepsOk cfg) (createGateway t na ph ti cu ac).
Proof.
  intros s r s' E Hs. unfold createGateway in E. erewrite bind_run in E by reflexivity. cbv zeta in E. rewrite bind_gets in E.
  apply bind_throwIf in E as [[_ ->]|[Hb E]]; [by apply bumpNext_ok|]. injection E as _ <-.
  assert (edgeOk cfg (s <| e_gateways := e_gateways s ++ [mkGateway (uuidv7 (e_next s)) na ph ti cu true None None t None] |>)) as Hk;
    [|by destruct Hk; split].
  apply gateways_ok; [|done]. rewrite map_app. apply NoDup_app. split; [apply Hs|]. split; [|by apply NoDup_singleton].
  intros y (g & <- & Hg)%list_elem_of_In%in_map_iff Hy%list_elem_of_singleton. simpl in Hb, Hy.
  assert (existsb (fun g => gw_id g =s uuidv7 (e_next s)) (e_gateways s) = true) as Ht; [|congruence].
  apply existsb_exists. exists g. split; [done|]. by rewrite bool_decide_eq_true_2.
Qed.

Lemma adminGateway_ok id f a b c d : (forall g, gw_id (f g) = gw_id g) ->
  keeps (keepsOk cfg) (getGatewayOrThrow id ;; onGateways (updId id f) ;; note a b c d).
Proof.
  intros Hf. unfold getGatewayOrThrow. repeat first [by apply updGateways_ok | apply modify_tables; done | keeps_step].
Qed.

Lemma run_ok {A} (m : ME A) s : keeps (keepsOk cfg) m -> edgeOk cfg s -> edgeOk cfg (m s).2.
Proof. intros Hm Hs. destruct (m s) as [r s'] eqn:E. by eapply Hm. Qed.

Lemma runEdge_ok op s : opOk s op -> edgeOk cfg s -> edgeOk cfg (runEdge cfg op s).
Proof.
  intros Hop Hs. destruct op; unfold runEdge; apply run_ok; try done.
  - apply ensureRoute_ok.
  - by apply addServer_ok.
  - apply enqueue_ok.
  - by apply moveServer_ok.
  - apply removeServer_ok.
  - apply patchHostname_ok.
  - apply keepsOk_shrinks, reconcile_shrinks.
  - apply createGateway_ok.
  - by apply adminGateway_ok.
  - by apply adminGateway_ok.
Qed.

Lemma reachable_ok s : reachable cfg s -> edgeOk cfg s.
Proof.
  induction 1 as [al ips|s op _ IH Hop]; [|by apply runEdge_ok].
  split; simpl; try apply NoDup_nil_2; intros; exfalso; by eapply not_elem_of_nil.
Qed.

End Histories.

(** ** Which port is taken *)

Section Ports.
Context `{Platform} `{Edge} (cfg : EdgeConfig).

(** The first insert of a route for a server that exists and has none. *)
Definition routable (sid : string) (s : EdgeState) : Prop :=
  existsb (fun v => sv_id v =s sid) (e_servers s) = true /\ existsb (fun r => pr_serverId r =s sid) (e_routes s) = false /\ uuidsFresh s.

Lemma uuid_unused s : uuidsFresh s -> existsb (fun r => pr_id r =s uuidv7 (e_next s)) (e_routes s) = false.
Proof.
  intros Hf. apply not_true_is_false. intros (r & Hr & Er)%existsb_exists. apply bool_decide_eq_true in Er.
  by apply (Hf (e_next s) r ltac:(lia)); [apply list_elem_of_In|].
Qed.

Lemma findFirst_app_one {A} (p : A -> bool) x l : findFirst p ([x] ++ l) = if p x then Some x else findFirst p l.
Proof. done. Qed.

Lemma throwIf_pass {A} e (k : ME A) s : (throwIf false e ;; k) s = k s.
Proof. done. Qed.

Lemma createRoute_run g sid port s : routable sid s ->
  createRoute g sid port s = if portFree g port s
    then (Ok (newRoute (e_next s) g sid port), s <| e_next := (e_next s + 1)%N |> <| e_routes := e_routes s ++ [newRoute (e_next s) g sid port] |>)
    else (Throw (UniqueViolation "public_routes_gateway_id_public_port_key"), s <| e_next := (e_next s + 1)%N |>).
Proof.
  intros (Hv & Hn & Hf). unfold createRoute, portFree. erewrite bind_run by reflexivity. cbv zeta. rewrite bind_gets. simpl.
  rewrite (uuid_unused s Hf), throwIf_pass, Hn, throwIf_pass.
  destruct (existsb (fun r => _ && _) _); [done|]. rewrite throwIf_pass, bind_gets. simpl. by rewrite Hv.
Qed.

Lemma tryPorts_run g sid ports s : routable sid s ->
  match findFirst (fun p => portFree g p s) ports with
  | Some p => exists n s', tryPorts cfg g sid ports s = (Ok (newRoute n g sid p), s') /\ e_routes s' = e_routes s ++ [newRoute n g sid p]
  | None => exists msg s', tryPorts cfg g sid ports s = (Throw (Conflict msg), s') /\ e_routes s' = e_routes s
  end.
Proof.
  revert s. induction ports as [|p ports IH]; intros s Hs; [simpl; eauto|].
  rewrite (findFirst_app_one _ p ports : findFirst _ (p :: ports) = _). cbn [tryPorts]. unfold tryCatch. rewrite createRoute_run by done.
  destruct (portFree g p s) eqn:E; [eauto|].
  assert (routable sid (s <| e_next := (e_next s + 1)%N |>)) as Hs'.
  { destruct Hs as (Hv & Hn & Hf). split; [done|]. split; [done|]. intros n r Hle. apply Hf. simpl in Hle. lia. }
  specialize (IH _ Hs'). change (fun p => portFree g p (s <| e_next := (e_next s + 1)%N |>)) with (fun p => portFree g p s) in IH.
  destruct (findFirst _ ports) as [q|]; exact IH.
Qed.

Lemma findFirst_filter {A} (p q : A -> bool) l : findFirst p (List.filter q l) = findFirst (fun x => q x && p x) l.
Proof. unfold findFirst. induction l as [|x l IH]; simpl; [done|]. destruct (q x); simpl; by rewrite IH. Qed.

Lemma findFirst_split {A} (p : A -> bool) l x : findFirst p l = Some x ->
  exists l1 l2, l = l1 ++ x :: l2 /\ p x = true /\ forall y, y ∈ l1 -> p y = false.
Proof.
  unfold findFirst. induction l as [|y l IH]; simpl; [done|]. destruct (p y) eqn:E.
  - intros [= ->]. exists [], l. split; [done|]. split; [done|]. by intros ? ?%not_elem_of_nil.
  - intros (l1 & l2 & -> & Hx & Hl)%IH. exists (y :: l1), l2. split; [done|]. split; [done|].
    intros z [->|Hz]%elem_of_cons; auto.
Qed.

(** A scan of consecutive ports stops at the least acceptable one. *)
Lemma findFirst_least p a b x : findFirst p (seqZ a (b - a + 1)) = Some x -> p x = true /\ a <= x <= b /\ forall q, a <= q < x -> p q = false.
Proof.
  intros (l1 & l2 & E & Hx & Hl)%findFirst_split. split; [done|].
  assert (seqZ a (b - a + 1) !! List.length l1 = Some x) as Hi by (rewrite E; by rewrite lookup_app_r, Nat.sub_diag by lia).
  apply lookup_seqZ in Hi as [-> Hi]. split; [lia|]. intros q Hq. apply Hl.
  assert (seqZ a (b - a + 1) !! Z.to_nat (q - a) = Some q) as Hlq by (apply lookup_seqZ; lia).
  rewrite E, lookup_app_l in Hlq by lia. by eapply list_elem_of_lookup_2.
Qed.

Section Candidates.
Context (free : Z -> bool) (a b : Z) (rest : list (option Z)) (preferred : Z).
Hypothesis Hrange : portRange cfg = Some a :: Some b :: rest.

Lemma candidates_first p : findFirst free (portCandidates cfg preferred) = Some p ->
  a <= p <= b /\ free p = true /\
  (p = preferred \/ ~ (a <= preferred <= b /\ free preferred = true) /\ forall q, a <= q < p -> free q = false).
Proof.
  unfold portCandidates. rewrite Hrange. destruct ((a <=? preferred) && (preferred <=? b)) eqn:E.
  - rewrite findFirst_app_one. apply andb_true_iff in E as [E1%Z.leb_le E2%Z.leb_le]. destruct (free preferred) eqn:Ep.
    { intros [= <-]. auto. }
    rewrite findFirst_filter. intros (Hp & Hr & Hl)%findFirst_least. apply andb_true_iff in Hp as [_ Hp]. split; [done|]. split; [done|].
    right. split; [by intros [_ ?]|]. intros q Hq. destruct (Z.eq_dec q preferred) as [->|Hne]; [done|].
    specialize (Hl q Hq). apply andb_false_iff in Hl as [Hl|Hl]; [|done]. by apply negb_false_iff, Z.eqb_eq in Hl.
  - simpl. rewrite findFirst_filter. intros (Hp & Hr & Hl)%findFirst_least. apply andb_true_iff in Hp as [_ Hp]. split; [done|]. split; [done|].
    right. apply andb_false_iff in E. rewrite !Z.leb_gt in E. split; [lia|]. intros q Hq. specialize (Hl q Hq).
    apply andb_false_iff in Hl as [Hl|Hl]; [|done]. apply negb_false_iff, Z.eqb_eq in Hl. lia.
Qed.

Lemma candidates_none : findFirst free (portCandidates cfg preferred) = None -> forall q, a <= q <= b -> free q = false.
Proof.
  intros E q Hq. unfold portCandidates in E. rewrite Hrange in E. eapply findFirst_none in E; [exact E|].
  apply elem_of_app. destruct (Z.eq_dec q preferred) as [->|Hne].
  - left. destruct (andb_true_iff (a <=? preferred) (preferred <=? b)) as [_ ->]; [by apply list_elem_of_singleton|].
    by rewrite !Z.leb_le.
  - right. apply list_elem_of_In, filter_In. split; [apply list_elem_of_In, elem_of_seqZ; lia|]. by apply negb_true_iff, Z.eqb_neq.
Qed.

End Candidates.

End Ports.

(** ** Names of one installation *)

(** The lower-cased first label of a route's name. *)
Definition nameLabel (r : PublicRoute) (v : Server) : string :=
  lowerAscii (match truthy (pr_customHostname r) with Some l => l | None => sv_shortId v end).

Section Names.
Context `{!Platform} `{!AsciiLower} `{!Edge} (cfg : EdgeConfig).

Lemma customLabel s r l : edgeOk cfg s -> r ∈ e_routes s -> truthy (pr_customHostname r) = Some l ->
  pr_customHostname r = Some l /\ toLowerCase l = l /\ lowerAscii l = l /\ SHORT_ID_SHAPED l = false.
Proof.
  intros Hok Hr Ht. assert (pr_customHostname r = Some l) as Hc.
  { unfold truthy in Ht. destruct (pr_customHostname r) as [x|]; [|done]. destruct (x =s ""); congruence. }
  destruct (eo_labels _ _ Hok r l Hr Hc) as [[_ Hp]%andb_true_iff Hres]. apply pattern_inner in Hp.
  assert (toLowerCase l = l) as El.
  { rewrite toLowerCase_ascii; [by apply lower_label|]. eapply allChars_impl; [|exact Hp]. apply labelInner_ascii. }
  split; [done|]. split; [done|]. split; [by apply lower_label|]. unfold isReservedHostnameLabel in Hres. rewrite El in Hres.
  by apply orb_false_iff in Hres as [_ ?].
Qed.

Lemma shortIdLabel s v : edgeOk cfg s -> v ∈ e_servers s ->
  toLowerCase (sv_shortId v) = lowerAscii (sv_shortId v) /\ SHORT_ID_SHAPED (lowerAscii (sv_shortId v)) = true /\
  allChars upperId (sv_shortId v) = true.
Proof.
  intros Hok Hv. destruct (eo_shapes _ _ Hok v Hv) as [bytes ->]. destruct (shortId_shape bytes) as [Hc Hl].
  split; [|by split; [apply lower_shaped|]]. apply toLowerCase_ascii. eapply allChars_impl; [|exact Hc]. apply upperId_ascii.
Qed.

Lemma desiredHostname_label s r v z : edgeOk cfg s -> r ∈ e_routes s -> v ∈ e_servers s ->
  truthy (PUBLIC_GATEWAY_HOSTNAME_ZONE cfg) = Some z ->
  desiredHostname cfg true r v = Some (nameLabel r v +:+ ".mc." +:+ z).
Proof.
  intros Hok Hr Hv Hz. unfold desiredHostname, nameLabel. rewrite Hz.
  assert (PUBLIC_GATEWAY_HOSTNAME_ZONE cfg = Some z) as Ez.
  { unfold truthy in Hz. destruct (PUBLIC_GATEWAY_HOSTNAME_ZONE cfg) as [x|]; [|done]. destruct (x =s ""); congruence. }
  rewrite Ez. destruct (truthy (pr_customHostname r)) as [l|] eqn:El.
  - destruct (customLabel s r l Hok Hr El) as (_ & E1 & E2 & _). unfold deriveCustomHostname. simpl. by rewrite E1, E2.
  - destruct (shortIdLabel s v Hok Hv) as (E1 & _). unfold deriveHostname. simpl. by rewrite E1.
Qed.

Lemma nameLabel_inj s r1 v1 r2 v2 : edgeOk cfg s -> r1 ∈ e_routes s -> r2 ∈ e_routes s -> v1 ∈ e_servers s -> v2 ∈ e_servers s ->
  pr_serverId r1 = sv_id v1 -> pr_serverId r2 = sv_id v2 -> nameLabel r1 v1 = nameLabel r2 v2 -> pr_serverId r1 = pr_serverId r2.
Proof.
  intros Hok Hr1 Hr2 Hv1 Hv2 E1 E2. unfold nameLabel.
  destruct (truthy (pr_customHostname r1)) as [l1|] eqn:T1, (truthy (pr_customHostname r2)) as [l2|] eqn:T2.
  - destruct (customLabel s r1 l1 Hok Hr1 T1) as (C1 & _ & L1 & _), (customLabel s r2 l2 Hok Hr2 T2) as (C2 & _ & L2 & _).
    rewrite L1, L2. intros ->. by eapply eo_custom.
  - destruct (customLabel s r1 l1 Hok Hr1 T1) as (_ & _ & L1 & S1), (shortIdLabel s v2 Hok Hv2) as (_ & S2 & _).
    rewrite L1. intros ->. congruence.
  - destruct (customLabel s r2 l2 Hok Hr2 T2) as (_ & _ & L1 & S1), (shortIdLabel s v1 Hok Hv1) as (_ & S2 & _).
    rewrite L1. intros <-. congruence.
  - intros E. rewrite E1, E2. destruct (shortIdLabel s v1 Hok Hv1) as (_ & _ & U1), (shortIdLabel s v2 Hok Hv2) as (_ & _ & U2).
    apply lower_inj in E; [|done..]. f_equal. by eapply (NoDup_map_inj sv_shortId); [apply (eo_shortIds _ _ Hok)|..].
Qed.

Lemma desired_inj s g1 g2 rv1 rv2 z : edgeOk cfg s -> truthy (PUBLIC_GATEWAY_HOSTNAME_ZONE cfg) = Some z ->
  rv1 ∈ joined g1 s -> rv2 ∈ joined g2 s ->
  desiredHostname cfg true rv1.1 rv1.2 = desiredHostname cfg true rv2.1 rv2.2 -> pr_serverId rv1.1 = pr_serverId rv2.1.
Proof.
  destruct rv1 as [r1 v1], rv2 as [r2 v2]. cbn [fst snd]. intros Hok Hz (J1 & _ & F1)%elem_joined (J2 & _ & F2)%elem_joined.
  apply findId_some in F1 as [V1 E1], F2 as [V2 E2].
  rewrite (desiredHostname_label s r1 v1 z), (desiredHostname_label s r2 v2 z) by done. intros [= E]. apply append_cancel_r in E.
  by apply (nameLabel_inj s r1 v1 r2 v2); [..|exact E]; try (symmetry; first [exact E1 | exact E2]).
Qed.

End Names.

(** ** Keeping a name answered *)

Lemma answering_snoc log c ok : answering (log ++ [(c, ok)]) =
  match c with
  | EnsureSrv h _ _ => if ok then {[h]} ∪ answering log else answering log
  | RemoveSrv h => answering log ∖ {[h]}
  | _ => answering log
  end.
Proof. unfold answering. rewrite fold_left_app. simpl. by destruct c, ok. Qed.

Definition withLog (log : list (EdgeCall * bool)) (s : EdgeState) : EdgeState := s <| e_log := log |>.

Section Dns.
Context `{Platform} `{Edge}.

Lemma ignoreSend_run c s r s' : ignoreErrors (send c) s = (r, s') ->
  exists ok, s' = withLog (e_log s ++ [(c, ok)]) s.
Proof.
  unfold ignoreErrors. intros [(a & E & _)|(e & s1 & E & [= _ <-])]%tryCatch_inv;
    destruct (send_inv _ _ _ _ E) as (ok & -> & _); by exists ok.
Qed.

Lemma ensureDnsFor_run h ip p s : exists ok log, ensureDnsFor h ip p s = (Ok ok, withLog log s) /\
  answering log = if ok : bool then {[h]} ∪ answering (e_log s) else answering (e_log s).
Proof.
  unfold ensureDnsFor. destruct (ignore_total (send (EnsureAddressRecord h ip)) s) as ([] & s1 & E1). rewrite (bind_run _ _ _ _ _ E1). apply ignoreSend_run in E1 as [ok1 ->].
  unfold tryCatch, send at 1, mbind, M_bind. simpl. destruct (edgeReply _ _).
  - eexists false, _. split; [reflexivity|]. by rewrite !answering_snoc.
  - eexists true, _. split; [reflexivity|]. by rewrite !answering_snoc.
Qed.

Lemma removeDnsFor_run h s : exists log, removeDnsFor h s = (Ok tt, withLog log s) /\ answering log = answering (e_log s) ∖ {[h]}.
Proof.
  unfold removeDnsFor. destruct (ignore_total (send (RemoveSrv h)) s) as ([] & s1 & E1). rewrite (bind_run _ _ _ _ _ E1).
  apply ignoreSend_run in E1 as [ok1 ->].
  destruct (ignore_total (send (RemoveAddressRecord h)) (withLog (e_log s ++ [(RemoveSrv h, ok1)]) s)) as ([] & s2 & E2).
  pose proof E2 as [ok2 ->]%ignoreSend_run. eexists. split; [exact E2|]. simpl. by rewrite !answering_snoc.
Qed.

End Dns.

#[local] Arguments desiredHostname : simpl never.
#[local] Arguments syncRoute : simpl never.

Section KeepName.
Context `{Platform} `{Edge} (cfg : EdgeConfig) (gids : list string) (r0 : PublicRoute) (v0 : Server) (h0 d0 : string).

(** A name nobody else uses or wants. *)
Definition apart (name : option string) : Prop := name <> Some h0 /\ name <> Some d0.

(** Route [r0] is recorded under the answering name [h], and the other routes stay away. *)
Record holdsName (h : string) (s : EdgeState) : Prop := {
  hn_row : exists r, r ∈ e_routes s /\ pr_id r = pr_id r0 /\ pr_serverId r = pr_serverId r0 /\
    pr_customHostname r = pr_customHostname r0 /\ pr_state r <> R_removing /\ pr_dnsSyncedHostname r = Some h;
  hn_answer : h ∈ answering (e_log s);
  hn_ids : NoDup (map pr_id (e_routes s));
  hn_gateways : map gw_id (e_gateways s) = gids;
  hn_server : findId (pr_serverId r0) (e_servers s) = Some v0;
  hn_others : forall b, b ∈ e_routes s -> pr_id b <> pr_id r0 -> apart (pr_dnsSyncedHostname b) /\
    forall v, findId (pr_serverId b) (e_servers s) = Some v -> apart (desiredHostname cfg true b v) }.

Definition sameName (r r' : PublicRoute) : Prop :=
  pr_id r' = pr_id r /\ pr_serverId r' = pr_serverId r /\ pr_customHostname r' = pr_customHostname r /\
  pr_dnsSyncedHostname r' = pr_dnsSyncedHostname r.

Lemma desired_same b r r' v : sameName r r' -> desiredHostname cfg b r' v = desiredHostname cfg b r v.
Proof. intros (_ & _ & E & _). unfold desiredHostname. by rewrite E. Qed.

Lemma holds_log h s log : h ∈ answering log -> holdsName h s -> holdsName h (withLog log s).
Proof. intros Hl [R A I G V O]. by split. Qed.

Lemma holds_gateways h s gs : map gw_id gs = gids -> holdsName h s -> holdsName h (s <| e_gateways := gs |>).
Proof. intros Hg [R A I G V O]. by split. Qed.

Lemma holds_update h s (these : list string) f :
  (forall r, sameName r (f r) /\ pr_state (f r) <> R_removing) -> holdsName h s ->
  holdsName h (s <| e_routes := updWhere (fun r => bool_decide (pr_id r ∈ these)) f (e_routes s) |>).
Proof.
  intros Hf [(r & Hr & E1 & E2 & E3 & E4 & E5) A I G V O].
  set (F := fun r => if bool_decide (pr_id r ∈ these) then f r else r).
  assert (forall r, sameName r (F r)) as HF by (intros x; unfold F; case_bool_decide; [apply Hf|done]).
  split; simpl; try done.
  - exists (F r). split; [apply list_elem_of_In, (in_map F), list_elem_of_In, Hr|]. destruct (HF r) as (->&->&->&->).
    split; [done|]. split; [done|]. split; [done|]. split; [|done]. unfold F. case_bool_decide; [apply Hf|done].
  - unfold updWhere. rewrite map_map. erewrite map_ext; [exact I|]. intros x. apply (HF x).
  - intros b (x & <- & Hx%list_elem_of_In)%list_elem_of_In%in_map_iff Hne. fold (F x) in *. destruct (HF x) as (Ei & Es & _ & ->).
    rewrite Ei in Hne. destruct (O x Hx Hne) as [O1 O2]. split; [done|]. intros v. rewrite Es, (desired_same true x (F x)) by done. apply O2.
Qed.

Lemma holds_drop h s (these : list string) : pr_id r0 ∉ these -> holdsName h s ->
  holdsName h (s <| e_routes := List.filter (fun r => negb (bool_decide (pr_id r ∈ these))) (e_routes s) |>).
Proof.
  intros Hn [(r & Hr & E1 & Hrest) A I G V O]. split; simpl; try done.
  - exists r. split; [|done]. apply list_elem_of_In, filter_In. split; [by apply list_elem_of_In|].
    by rewrite bool_decide_eq_false_2 by (by rewrite E1).
  - by apply NoDup_map_filter.
  - intros b [Hb _]%list_elem_of_In%filter_In. apply O. by apply list_elem_of_In.
Qed.

Definition syncedAs (new : option string) (r : PublicRoute) : PublicRoute := r <| pr_dnsSyncedHostname := new |>.

Lemma syncedAs_elem id new s r' : NoDup (map pr_id (e_routes s)) -> r' ∈ updId id (syncedAs new) (e_routes s) ->
  exists r, r ∈ e_routes s /\ r' = (if pr_id r =s id then syncedAs new r else r).
Proof.
  unfold updId. induction (e_routes s) as [|x l IH]; simpl; [by intros _ ?%not_elem_of_nil|].
  intros [Hx Hl]%NoDup_cons. change (rid x) with (pr_id x). destruct (pr_id x =s id) eqn:E.
  - intros [->|Hr]%elem_of_cons; [exists x; rewrite E; split; [apply elem_of_cons; by left|done]|].
    exists r'. split; [apply elem_of_cons; by right|]. apply bool_decide_eq_true in E. rewrite bool_decide_eq_false_2; [done|].
    intros Er. apply Hx. rewrite E, <- Er. apply list_elem_of_In, in_map, list_elem_of_In, Hr.
  - intros [->|Hr]%elem_of_cons; [exists x; rewrite E; split; [apply elem_of_cons; by left|done]|].
    destruct (IH Hl Hr) as (r & H1 & H2). exists r. split; [apply elem_of_cons; by right|done].
Qed.

Lemma syncedAs_in id new s r : NoDup (map pr_id (e_routes s)) -> r ∈ e_routes s ->
  (if pr_id r =s id then syncedAs new r else r) ∈ updId id (syncedAs new) (e_routes s).
Proof.
  unfold updId. induction (e_routes s) as [|x l IH]; simpl; [by intros _ ?%not_elem_of_nil|].
  intros [Hx Hl]%NoDup_cons [->|Hr]%elem_of_cons.
  - change (rid x) with (pr_id x). destruct (pr_id x =s id); apply elem_of_cons; by left.
  - change (rid x) with (pr_id x). destruct (pr_id x =s id) eqn:E; apply elem_of_cons; right; [|by apply IH].
    apply bool_decide_eq_true in E. rewrite bool_decide_eq_false_2; [done|]. intros Er. apply Hx. rewrite E, <- Er.
    apply list_elem_of_In, in_map, list_elem_of_In, Hr.
Qed.

Lemma syncedAs_ids id new s : map pr_id (updId id (syncedAs new) (e_routes s)) = map pr_id (e_routes s).
Proof. by apply (updId_rids (R := PublicRoute)). Qed.

Lemma holds_other h s id new : id <> pr_id r0 -> apart new -> holdsName h s ->
  holdsName h (s <| e_routes := updId id (syncedAs new) (e_routes s) |>).
Proof.
  intros Hne Hnew [(r & Hr & E1 & Hrest) A I G V O]. split; simpl; rewrite ?syncedAs_ids; try done.
  - exists r. split; [|done]. pose proof (syncedAs_in id new s r I Hr) as Hi. by rewrite bool_decide_eq_false_2 in Hi by congruence.
  - intros b (x & Hx & ->)%syncedAs_elem Hb; [|done]. destruct (pr_id x =s id) eqn:E; [|by apply O].
    split; [done|]. apply (O x Hx Hb).
Qed.

Lemma holds_own h h' s log : h' ∈ answering log -> holdsName h s ->
  holdsName h' (withLog log (s <| e_routes := updId (pr_id r0) (syncedAs (Some h')) (e_routes s) |>)).
Proof.
  intros Ha [(r & Hr & E1 & E2 & E3 & E4 & _) A I G V O]. split; simpl; rewrite ?syncedAs_ids; try done.
  - exists (syncedAs (Some h') r). split; [|done]. pose proof (syncedAs_in (pr_id r0) (Some h') s r I Hr) as Hi. by rewrite bool_decide_eq_true_2 in Hi.
  - intros b (x & Hx & ->)%syncedAs_elem Hb; [|done]. destruct (pr_id x =s pr_id r0) eqn:E; [|by apply O].
    apply bool_decide_eq_true in E. done.
Qed.

Lemma ensure_holds h x ip p s ok s' : ensureDnsFor x ip p s = (Ok ok, s') -> holdsName h s ->
  holdsName h s' /\ (ok = true -> x ∈ answering (e_log s')).
Proof.
  intros E Hh. destruct (ensureDnsFor_run x ip p s) as (ok' & log & E' & Hl). rewrite E in E'. injection E' as <- ->.
  pose proof (hn_answer _ _ Hh) as Ha. split; [apply holds_log; [|done]; rewrite Hl; destruct ok; set_solver|].
  intros ->. simpl. rewrite Hl. set_solver.
Qed.

Lemma remove_holds h x s r s' : x <> h -> removeDnsFor x s = (r, s') -> holdsName h s ->
  holdsName h s' /\ forall y, y <> x -> y ∈ answering (e_log s) -> y ∈ answering (e_log s').
Proof.
  intros Hne E Hh. destruct (removeDnsFor_run x s) as (log & E' & Hl). rewrite E in E'. injection E' as -> ->.
  pose proof (hn_answer _ _ Hh) as Ha. split; [apply holds_log; [|done]; rewrite Hl; set_solver|].
  intros y Hy Hin. simpl. rewrite Hl. set_solver.
Qed.

Lemma truthy_some o x : truthy o = Some x -> o = Some x.
Proof. unfold truthy. destruct o as [y|]; [|done]. by destruct (y =s ""). Qed.

Lemma apart_ne o x h : (h = h0 \/ h = d0) -> apart o -> o = Some x -> x <> h.
Proof. intros [->| ->] [A1 A2] -> ->; done. Qed.

(** Publishing or retiring another route's names leaves [r0] alone. *)
Lemma moveDns_other h gw b desired s r s' : (h = h0 \/ h = d0) -> pr_id b <> pr_id r0 -> apart (pr_dnsSyncedHostname b) -> apart desired ->
  moveDns gw b desired s = (r, s') -> holdsName h s -> holdsName h s'.
Proof.
  intros Hh Hne Hb Hd E Hs. unfold moveDns in E. apply bind_inv in E as [(e & E & _)|(ns & s1 & E1 & E)].
  { destruct desired as [x|]; [|done]. apply bind_inv in E as [(e' & E & _)|(ok & s2 & E & [=])].
    destruct (ensureDnsFor_total x (gw_publicHost gw) (pr_publicPort b) s) as (? & ? & ?). congruence. }
  assert (holdsName h s1 /\ apart ns) as [Hs1 Hns].
  { destruct desired as [x|]; [|injection E1 as <- <-; done]. apply bind_inv in E1 as [(e' & _ & [=])|(ok & s2 & E1 & [= <- <-])].
    split; [by eapply ensure_holds|]. by destruct ok. }
  apply bind_inv in E as [(e & E & _)|([] & s2 & E2 & E)].
  { destruct (truthy _) as [old|]; [|done]. unfold when in E. destruct (_ && _); [|done].
    destruct (removeDnsFor_total old s1) as (? & ? & ?). congruence. }
  assert (holdsName h s2) as Hs2.
  { destruct (truthy (pr_dnsSyncedHostname b)) as [old|] eqn:To; [|by injection E2 as <-]. unfold when in E2.
    destruct (_ && _); [|by injection E2 as <-]. eapply remove_holds; [|exact E2|done]. eapply apart_ne; [done|exact Hb|]. by apply truthy_some. }
  injection E as _ <-. apply holds_other; [done| |done]. destruct ns; [done|]. destruct desired; [|done].
  destruct (truthy (pr_dnsSyncedHostname b)) as [old|] eqn:To; [|done]. by rewrite <- (truthy_some _ _ To).
Qed.

Lemma syncRoute_other h gw inc b v s r s' : (h = h0 \/ h = d0) -> pr_id b <> pr_id r0 -> apart (pr_dnsSyncedHostname b) ->
  apart (desiredHostname cfg inc b v) -> syncRoute cfg gw inc (b, v) s = (r, s') -> holdsName h s -> holdsName h s'.
Proof.
  intros Hh Hne Hb Hd E Hs. unfold syncRoute in E. destruct (_ && _); [by injection E as _ <-|]. cbv zeta in E.
  destruct (desiredHostname cfg inc b v =s pr_dnsSyncedHostname b).
  - destruct (desiredHostname cfg inc b v) as [x|]; [|by injection E as _ <-]. destruct inc; [|by injection E as _ <-].
    apply bind_inv in E as [(e & E & _)|(ok & s2 & E & [= _ <-])]; [|by eapply ensure_holds].
    destruct (ensureDnsFor_total x (gw_publicHost gw) (pr_publicPort b) s) as (? & ? & ?). congruence.
  - destruct inc; simpl in E; [by eapply moveDns_other|].
    destruct (truthy (pr_dnsSyncedHostname b)) as [old|] eqn:To; [|by injection E as _ <-].
    eapply remove_holds; [|exact E|done]. eapply apart_ne; [done|exact Hb|]. by apply truthy_some.
Qed.

(** Its own turn: it keeps its name, or has moved to the wanted one, and that one answers. *)
Lemma moveDns_own h gw r s x s' : h <> d0 -> h <> "" -> pr_id r = pr_id r0 -> pr_dnsSyncedHostname r = Some h ->
  moveDns gw r (Some d0) s = (x, s') -> holdsName h s -> holdsName h s' \/ holdsName d0 s'.
Proof.
  intros Hne Hnn Hid Hsy E Hs. unfold moveDns in E. rewrite Hsy in E.
  assert (truthy (Some h) = Some h) as Th by (unfold truthy; by rewrite bool_decide_eq_false_2). rewrite Th in E. cbv zeta in E.
  destruct (ensureDnsFor_run d0 (gw_publicHost gw) (pr_publicPort r) s) as (ok & log & E1 & Hl).
  pose proof (hn_answer _ _ Hs) as Ha. erewrite bind_run in E by (erewrite bind_run by exact E1; reflexivity). rewrite Hid in E. destruct ok.
  - right. rewrite bool_decide_eq_false_2 in E by congruence. simpl in E. unfold when in E.
    destruct (removeDnsFor_run h (withLog log s)) as (log2 & E2 & Hl2). rewrite (bind_run _ _ _ _ _ E2) in E.
    assert (s' = withLog log2 (s <| e_routes := updId (pr_id r0) (syncedAs (Some d0)) (e_routes s) |>)) as -> by (by injection E as _ <-).
    apply (holds_own h); [|done]. rewrite Hl2. simpl. rewrite Hl. set_solver.
  - left. rewrite bool_decide_eq_false_2 in E by congruence. simpl in E.
    assert (s' = withLog log (s <| e_routes := updId (pr_id r0) (syncedAs (Some h)) (e_routes s) |>)) as -> by (by injection E as _ <-).
    apply (holds_own h); [|done]. by rewrite Hl.
Qed.

Lemma syncRoute_own h gw r s x s' : (h = h0 \/ h = d0) -> h <> "" -> pr_id r = pr_id r0 -> pr_customHostname r = pr_customHostname r0 ->
  pr_dnsSyncedHostname r = Some h -> desiredHostname cfg true r0 v0 = Some d0 ->
  syncRoute cfg gw true (r, v0) s = (x, s') -> holdsName h s -> holdsName h s' \/ holdsName d0 s'.
Proof.
  intros Hh Hnn Hid Hc Hsy Hd E Hs. unfold syncRoute in E. rewrite Hsy in E.
  assert (truthy (Some h) = Some h) as Th by (unfold truthy; by rewrite bool_decide_eq_false_2). rewrite Th in E.
  rewrite (bool_decide_eq_false_2 (Some h = None)) in E by done. rewrite andb_false_r in E. cbv zeta in E.
  assert (desiredHostname cfg true r v0 = Some d0) as Ed by (unfold desiredHostname in *; by rewrite Hc). rewrite Ed in E.
  destruct (decide (d0 = h)) as [->|Hne].
  - rewrite bool_decide_eq_true_2 in E by done. left. unfold when in E. apply bind_inv in E as [(err & E & _)|(ok & s2 & E & [= _ <-])].
    + destruct (ensureDnsFor_total h (gw_publicHost gw) (pr_publicPort r) s) as (? & ? & ?). congruence.
    + by eapply ensure_holds.
  - rewrite bool_decide_eq_false_2 in E by congruence. simpl in E. by eapply (moveDns_own h gw r).
Qed.

(** A joined row as the pass reads it: [r0] under the name [h], or a route that stays away. *)
Definition goodRow (h : string) (inc : bool) (bv : PublicRoute * Server) : Prop :=
  (pr_id bv.1 = pr_id r0 /\ inc = true /\ bv.2 = v0 /\ pr_customHostname bv.1 = pr_customHostname r0 /\ pr_dnsSyncedHostname bv.1 = Some h) \/
  (pr_id bv.1 <> pr_id r0 /\ apart (pr_dnsSyncedHostname bv.1) /\ apart (desiredHostname cfg inc bv.1 bv.2)).

Definition kept (s : EdgeState) : Prop := exists h, (h = h0 \/ h = d0) /\ holdsName h s.

Lemma forEach_others h inc gw l s r s' : (h = h0 \/ h = d0) -> (forall bv, bv ∈ l -> pr_id bv.1 <> pr_id r0) ->
  (forall bv, bv ∈ l -> exists k, goodRow k inc bv) -> forEach l (syncRoute cfg gw inc) s = (r, s') -> holdsName h s -> holdsName h s'.
Proof.
  intros Hh. revert s. induction l as [|[b v] l IH]; intros s Hne Hg; simpl; [by intros [= _ <-]|].
  intros [(e & E & _)|([] & s1 & E & E')]%bind_inv Hs; (destruct (Hg (b, v)) as [k [(Hid & _)|(Hid & H1 & H2)]]; [apply elem_of_cons; by left|..]).
  1, 3: by destruct (Hne (b, v)); [apply elem_of_cons; left|].
  - by eapply syncRoute_other.
  - eapply IH; [| |exact E'|by eapply syncRoute_other]; intros bv Hbv; [apply Hne|apply Hg]; apply elem_of_cons; by right.
Qed.

Lemma forEach_kept h gw l s r s' : (h = h0 \/ h = d0) -> h <> "" -> desiredHostname cfg true r0 v0 = Some d0 ->
  NoDup (ids l) -> (forall bv, bv ∈ l -> goodRow h true bv) -> forEach l (syncRoute cfg gw true) s = (r, s') -> holdsName h s -> kept s'.
Proof.
  intros Hh Hnn Hd. revert s. induction l as [|[b v] l IH]; intros s Hn Hg; simpl; [intros [= _ <-]; by exists h|].
  simpl in Hn. apply NoDup_cons in Hn as [Hb Hn].
  intros [(e & E & _)|([] & s1 & E & E')]%bind_inv Hs.
  { destruct (syncRoute_total cfg gw true (b, v) s) as (? & ? & ?). congruence. }
  destruct (Hg (b, v)) as [(Hid & _ & Ev & Hc & Hsy)|(Hid & H1 & H2)]; [apply elem_of_cons; by left| |].
  - simpl in *. subst v. assert (holdsName h s1 \/ holdsName d0 s1) as Hor by (by eapply syncRoute_own).
    assert (exists h', (h' = h0 \/ h' = d0) /\ holdsName h' s1) as (h' & Hh' & Hs1) by (destruct Hor; eauto). exists h'. split; [done|].
    eapply forEach_others; [done| | |exact E'|done].
    + intros bv Hbv Eid. apply Hb. rewrite Hid, <- Eid. apply list_elem_of_In, (in_map (fun rv : PublicRoute * Server => pr_id rv.1)), list_elem_of_In, Hbv.
    + intros bv Hbv. exists h. apply Hg, elem_of_cons. by right.
  - eapply IH; [done| |exact E'|by eapply syncRoute_other]. intros bv Hbv. apply Hg, elem_of_cons. by right.
Qed.

Lemma snapshot_rows h s g bv : holdsName h s -> bv ∈ joined g s ->
  goodRow h true bv /\ (classify s bv = Removing -> goodRow h false bv).
Proof.
  intros [(r & Hr & E1 & E2 & E3 & E4 & E5) A I G V O]. destruct bv as [b v]. intros (Hb & _ & Hv)%elem_joined. simpl.
  destruct (decide (pr_id b = pr_id r0)) as [Eid|Hne].
  - assert (b = r) as -> by (eapply (NoDup_map_inj pr_id); [done..|congruence]). rewrite E2, V in Hv. injection Hv as <-. split; [left; done|].
    rewrite bool_decide_eq_false_2 by done. destruct (truthy _); [destruct (primaryOf _ s)|]; done.
  - destruct (O b Hb Hne) as [O1 O2]. split; [right; auto|]. intros _. right. done.
Qed.

Lemma not_removing h s g : holdsName h s -> pr_id r0 ∉ ids (select s isRemoving (joined g s)).
Proof.
  intros Hs ([b v] & E & [Hb Hc]%filter_In)%list_elem_of_In%in_map_iff. apply list_elem_of_In in Hb.
  destruct (snapshot_rows h s g (b, v) Hs Hb) as [_ Hrem]. destruct (classify s (b, v)) eqn:Ec; try done.
  destruct (Hrem eq_refl) as [(_ & [=] & _)|(Hne & _)]. done.
Qed.

Lemma joined_ids g s : NoDup (map pr_id (e_routes s)) -> NoDup (ids (joined g s)).
Proof.
  unfold ids, joined, omap. induction (e_routes s) as [|r l IH]; simpl; [done|]. intros [Hr Hl]%NoDup_cons.
  destruct (pr_gatewayId r =s g); [|by apply IH]. destruct (findId _ _) as [v|]; simpl; [|by apply IH]. apply NoDup_cons. split; [|by apply IH].
  intros ([b w] & Eb & (x & Hx & Ex)%list_elem_of_In%list_elem_of_omap)%list_elem_of_In%in_map_iff. simpl in Eb. apply Hr.
  destruct (pr_gatewayId x =s g); [|done]. destruct (findId _ _); [|done]. injection Ex as -> ->. rewrite <- Eb.
  apply list_elem_of_In, in_map, list_elem_of_In, Hx.
Qed.

Lemma failed_holds h gw I msg s x r s' : findId (gw_id gw) (e_gateways s) = Some x -> applyFailed gw I msg s = (r, s') ->
  holdsName h s -> holdsName h s'.
Proof.
  intros Hx E Hs. rewrite (applyFailed_run _ _ _ _ _ Hx) in E. apply pair_eq in E as [_ <-].
  apply holds_gateways; [rewrite <- (hn_gateways _ _ Hs); by apply (updId_rids (R := Gateway))|]. by apply holds_update.
Qed.

Lemma succeeded_holds h now gw I K R s x r s' : findId (gw_id gw) (e_gateways s) = Some x -> pr_id r0 ∉ R ->
  applySucceeded now gw I K R s = (r, s') -> holdsName h s -> holdsName h s'.
Proof.
  intros Hx HR E Hs. rewrite (applySucceeded_run _ _ _ _ _ _ _ Hx) in E. apply pair_eq in E as [_ <-].
  apply holds_gateways; [rewrite <- (hn_gateways _ _ Hs); by apply (updId_rids (R := Gateway))|].
  apply (holds_update h s I (activated now)) in Hs; [|done].
  apply (holds_update h _ K (failed SKIPPED_ERROR)) in Hs; [|done].
  exact (holds_drop h _ R HR Hs).
Qed.

Lemma syncDns_kept h gw s0 g s r s' : (h = h0 \/ h = d0) -> h <> "" -> desiredHostname cfg true r0 v0 = Some d0 -> holdsName h s0 ->
  syncDns cfg gw (select s0 isIncluded (joined g s0)) (select s0 isRemoving (joined g s0)) s = (r, s') -> holdsName h s -> kept s'.
Proof.
  intros Hh Hnn Hd Hs0 E Hs. unfold syncDns in E. apply bind_inv in E as [(e & E & _)|([] & s1 & E1 & E2)].
  { destruct (forEach_total (select s0 isIncluded (joined g s0)) _ (syncRoute_total cfg gw true) s) as (? & ? & ?). congruence. }
  assert (kept s1) as (h1 & Hh1 & Hs1).
  { eapply forEach_kept; [done..| | |exact E1|done].
    - unfold ids, select. apply NoDup_map_filter, joined_ids, Hs0.
    - intros bv [Hb _]%list_elem_of_In%filter_In. apply (snapshot_rows h s0 g); [done|by apply list_elem_of_In]. }
  exists h1. split; [done|]. eapply forEach_others; [done| | |exact E2|done].
  - intros bv Hb Eid. apply (not_removing h s0 g Hs0). rewrite <- Eid.
    apply list_elem_of_In, (in_map (fun rv : PublicRoute * Server => pr_id rv.1)), list_elem_of_In, Hb.
  - intros bv [Hb Hc]%list_elem_of_In%filter_In. exists h. apply (snapshot_rows h s0 g); [done|by apply list_elem_of_In|].
    by destruct (classify s0 bv).
Qed.

Lemma reconcileGateway_kept now gw s r s' : h0 <> "" -> d0 <> "" -> desiredHostname cfg true r0 v0 = Some d0 ->
  gw_id gw ∈ gids -> reconcileGateway cfg now gw s = (r, s') -> kept s -> kept s'.
Proof.
  intros Hn0 Hn1 Hd Hgw E (h & Hh & Hs). assert (h <> "") as Hnn by (destruct Hh; congruence).
  assert (exists x, findId (gw_id gw) (e_gateways s) = Some x) as [x Hx].
  { rewrite <- (hn_gateways _ _ Hs) in Hgw. apply list_elem_of_In, in_map_iff in Hgw as (x & Ex & Hx%list_elem_of_In). rewrite <- Ex. apply (findId_elem _ _ Hx). }
  unfold reconcileGateway in E. rewrite bind_gets, bind_gets in E. cbv zeta beta in E. change (id s) with s in E.
  set (c := Apply (gw_id gw) _) in E.
  assert (forall ok, holdsName h (withLog (e_log s ++ [(c, ok)]) s)) as Hlog.
  { intros ok. apply holds_log; [|done]. rewrite answering_snoc. apply Hs. }
  unfold tryCatch in E. unfold send in E. destruct (edgeReply (e_log s) c) as [msg|] eqn:Er.
  - apply bind_inv in E as [(e & E & _)|(b & s1 & E & E')].
    + erewrite bind_throw in E by (rewrite Er; reflexivity). erewrite bind_run in E by (by eapply applyFailed_run). done.
    + erewrite bind_throw in E by (rewrite Er; reflexivity). apply bind_inv in E as [(e & _ & [=])|([] & s2 & E & [= <- <-])].
      injection E' as _ <-. exists h. split; [done|]. by eapply (failed_holds h gw _ _ (withLog (e_log s ++ [(c, false)]) s)).
  - erewrite bind_run in E by (erewrite bind_run by (rewrite Er; reflexivity); reflexivity). unfold when in E.
    apply bind_inv in E as [(e & E & _)|([] & s1 & E & E')]; [by erewrite applySucceeded_run in E|].
    eapply (syncDns_kept h gw s (gw_id gw)); [done..|exact E'|].
    eapply (succeeded_holds h now gw _ _ _ (withLog (e_log s ++ [(c, true)]) s)); [exact Hx|exact (not_removing h s (gw_id gw) Hs)|exact E|apply Hlog].
Qed.

Lemma forEach_gateways_kept now gws s r s' : h0 <> "" -> d0 <> "" -> desiredHostname cfg true r0 v0 = Some d0 ->
  (forall g, g ∈ gws -> gw_id g ∈ gids) -> forEach gws (reconcileGateway cfg now) s = (r, s') -> kept s -> kept s'.
Proof.
  intros Hn0 Hn1 Hd. revert s. induction gws as [|g gws IH]; intros s Hin; simpl; [by intros [= _ <-]|].
  assert (gw_id g ∈ gids) as Hg by (apply Hin, elem_of_cons; by left).
  intros [(e & E & _)|([] & s1 & E & E')]%bind_inv Hk; [by eapply reconcileGateway_kept|].
  eapply IH; [|exact E'|by eapply reconcileGateway_kept]. intros x Hx. apply Hin, elem_of_cons. by right.
Qed.

End KeepName.

(** ** The properties *)

Section Properties.
Context `{Platform} `{Edge} (cfg : EdgeConfig).

(** C38: whatever happened before, a reconciliation never fails; it sends every active
    gateway exactly the table the database asks for (one target per public port: the tunnel
    address of the server's current node and its primary port).  When the gateway
    acknowledges, that is the last table it acknowledged and the routes of the table are
    active, the others failed and the removed ones gone; when that call fails, the last
    acknowledged table is unchanged and the routes of the table are marked failed with the
    reason of the call.  The servers and their ports are not touched.  What a gateway that
    did not acknowledge serves (the call may time out after the table was installed) is not
    decided here: the next pass sends the table again. *)
Theorem reconcile_serves_wanted s now g : reachable cfg s -> g ∈ activeGateways s ->
  exists s', reconcileOnce cfg now s = (Ok tt, s') /\ sameRows s s' /\
    NoDup (map dr_publicPort (wanted (gw_id g) s)) /\ delivered now (gw_id g) s s'.
Proof.
  intros Hr%reachable_ok Hg. destruct (forEach_delivered cfg now (activeGateways s) s) as (s' & E & Hs & _ & _ & Hd & _).
  - apply Hr.
  - unfold activeGateways. apply NoDup_map_filter, Hr.
  - intros x [Hx _]%list_elem_of_In%filter_In. apply list_elem_of_In, in_map. done.
  - exists s'. split; [exact E|]. split; [done|]. split; [|by apply Hd]. apply wanted_ports, Hr.
Qed.


(** C39: in every state the operations can reach, two routes never want the same public
    name: custom labels are unique, they never spell a short id, and two short ids stay
    distinct when lower-cased. *)
Theorem public_names_distinct `{!AsciiLower} s g1 g2 r1 v1 r2 v2 z :
  reachable cfg s -> truthy (PUBLIC_GATEWAY_HOSTNAME_ZONE cfg) = Some z ->
  (r1, v1) ∈ joined g1 s -> (r2, v2) ∈ joined g2 s -> pr_id r1 <> pr_id r2 ->
  exists h1 h2, desiredHostname cfg true r1 v1 = Some h1 /\ desiredHostname cfg true r2 v2 = Some h2 /\ h1 <> h2.
Proof.
  intros Hok%reachable_ok Hz J1 J2 Hne. pose proof J1 as (R1 & _ & F1)%elem_joined. pose proof J2 as (R2 & _ & F2)%elem_joined.
  apply findId_some in F1 as [V1 _], F2 as [V2 _].
  pose proof (desiredHostname_label cfg s r1 v1 z Hok R1 V1 Hz) as E1. pose proof (desiredHostname_label cfg s r2 v2 z Hok R2 V2 Hz) as E2.
  eexists _, _. split; [exact E1|]. split; [exact E2|]. intros E. apply Hne. f_equal.
  eapply (NoDup_map_inj pr_serverId); [apply (eo_servers _ _ Hok)|done|done|].
  apply (desired_inj cfg s g1 g2 (r1, v1) (r2, v2) z); [done..|]. cbn [fst snd]. congruence.
Qed.


(** A server that exists and has no route gets one, on its own port when that port is in
    the pool and free on the gateway, otherwise on the lowest free port of the pool; only
    when the pool is exhausted is it refused, and then nothing is written. *)
Theorem route_port_choice g sid preferred s a b rest : portRange cfg = Some a :: Some b :: rest ->
  existsb (fun v => sv_id v =s sid) (e_servers s) = true -> existsb (fun r => pr_serverId r =s sid) (e_routes s) = false ->
  uuidsFresh s ->
  (exists row s', createRouteWithFreePort cfg g sid preferred s = (Ok row, s') /\ e_routes s' = e_routes s ++ [row] /\
     pr_serverId row = sid /\ pr_gatewayId row = g /\ a <= pr_publicPort row <= b /\ portFree g (pr_publicPort row) s = true /\
     (pr_publicPort row = preferred \/
      ~ (a <= preferred <= b /\ portFree g preferred s = true) /\ forall q, a <= q < pr_publicPort row -> portFree g q s = false)) \/
  (exists msg s', createRouteWithFreePort cfg g sid preferred s = (Throw (Conflict msg), s') /\ e_routes s' = e_routes s /\
     forall q, a <= q <= b -> portFree g q s = false).
Proof.
  intros Hrange Hv Hn Hf. pose proof (tryPorts_run cfg g sid (portCandidates cfg preferred) s (conj Hv (conj Hn Hf))) as Ht.
  unfold createRouteWithFreePort. destruct (findFirst _ (portCandidates cfg preferred)) as [p|] eqn:E.
  - left. destruct Ht as (n & s' & E1 & E2). eexists _, s'. split; [exact E1|]. split; [exact E2|]. split; [done|]. split; [done|].
    simpl. exact (candidates_first cfg (fun q => portFree g q s) a b rest preferred Hrange p E).
  - right. destruct Ht as (msg & s' & E1 & E2). exists msg, s'. split; [exact E1|]. split; [exact E2|].
    exact (candidates_none cfg (fun q => portFree g q s) a b rest preferred Hrange E).
Qed.


(** A server that can be reached by name stays reachable by name through a
    reconciliation, whatever the gateways and the DNS server answer: afterwards its route
    is recorded under its old name or the wanted one, and that name answers.  (The name
    must not be passing between two routes: no other route is recorded under or wants
    either name.) *)
Theorem publish_before_retire s now r0 v0 h0 d0 : reachable cfg s ->
  r0 ∈ e_routes s -> findId (pr_serverId r0) (e_servers s) = Some v0 -> pr_state r0 <> R_removing ->
  pr_dnsSyncedHostname r0 = Some h0 -> h0 ∈ answering (e_log s) -> h0 <> "" ->
  desiredHostname cfg true r0 v0 = Some d0 -> d0 <> "" ->
  (forall b, b ∈ e_routes s -> pr_id b <> pr_id r0 -> apart h0 d0 (pr_dnsSyncedHostname b) /\
     forall v, findId (pr_serverId b) (e_servers s) = Some v -> apart h0 d0 (desiredHostname cfg true b v)) ->
  exists s' r h, reconcileOnce cfg now s = (Ok tt, s') /\ r ∈ e_routes s' /\ pr_id r = pr_id r0 /\
    (h = h0 \/ h = d0) /\ pr_dnsSyncedHostname r = Some h /\ h ∈ answering (e_log s').
Proof.
  intros Hr%reachable_ok Hin Hv Hst Hsy Ha Hn0 Hd Hn1 Hothers.
  assert (forall x, x ∈ activeGateways s -> gw_id x ∈ map gw_id (e_gateways s)) as Hgs.
  { intros x [Hx _]%list_elem_of_In%filter_In. by apply list_elem_of_In, in_map. }
  destruct (forEach_delivered cfg now (activeGateways s) s) as (s' & E & _); [apply Hr|unfold activeGateways; apply NoDup_map_filter, Hr|done|].
  assert (kept cfg (map gw_id (e_gateways s)) r0 v0 h0 d0 s) as Hk.
  { exists h0. split; [by left|]. split; try done; [|apply Hr]. by exists r0. }
  destruct (forEach_gateways_kept cfg _ r0 v0 h0 d0 now (activeGateways s) s _ _ Hn0 Hn1 Hd Hgs E Hk) as (h & Hh & Hs').
  destruct (hn_row _ _ _ _ _ _ _ _ Hs') as (r & H1 & H2 & _ & _ & _ & H3). exists s', r, h. split; [exact E|].
  split; [done|]. split; [done|]. split; [done|]. split; [done|]. apply (hn_answer _ _ _ _ _ _ _ _ Hs').
Qed.

End Properties.

(** ** Witnesses *)

Module DemoEdge.

#[export] Instance platform : Platform :=
  {| uuidv7 n := "id-" +:+ pretty n; randomRef n := "ref-" +:+ pretty n; randomBytes8 n := [Z.of_N n];
     collate a b := leOf String.compare a b; toLowerCase := lowerAscii |}.

#[export] Instance lower : AsciiLower.
Proof. split. done. Qed.

(** Everything is accepted. *)
#[export] Instance edge : Edge :=
  {| edgeReply _ _ := None; dnsCanPublish _ := true; dnsAvailable _ _ := Ok true |}.

Definition cfg : EdgeConfig := mkEdgeConfig None (Some "gx.br").

Definition server (id : string) (bytes : list Z) : Server :=
  mkServer id (generateShortId bytes) "u" "n" None (Some "p") (Some 2000) "srv" None None 100 1024 0 4096 500 false 1 1 1 1
    Srv_setup_pending None None None None "offline".

Definition port (i p : Z) (sid : string) : Allocation := mkAllocation i "n" "0.0.0.0" p (Some sid) true.

Definition owner (v : Server) : ResolvedAccess := mkResolved v role_owner (fun _ => true).

(** A gateway, two servers on the same internal port, a custom name for the first. *)
Definition ops : list EdgeOp :=
  [OCreateGateway 1 "gw" "203.0.113.5" "10.10.0.1" "http://10.10.0.1:9443" "root";
   OCreateServer (server "a" [1]) [port 1 25570 "a"];
   OCreateServer (server "b" [2]) [port 1 25570 "a"; port 2 25570 "b"];
   OReconcile 2;
   OPatchHostname (mkActor "u" false) (owner (server "a" [1])) (Some "survival")].

Definition start : EdgeState := mkEdge [] [] [] [] {["n" := "10.10.0.2"]} [] [] [] 0.
Definition before : EdgeState := Eval vm_compute in runEdges cfg ops start.


Lemma before_reachable : reachable cfg before.
Proof.
  assert (before = runEdges cfg ops start) as -> by (vm_compute; reflexivity).
  apply reachable_step; [|done]. apply reachable_step; [|done].
  apply reachable_step; [apply reachable_step; [apply reachable_step; [apply reachable_start|done]|]|].
  - split; [apply not_elem_of_nil|]. split; [apply not_elem_of_nil|]. by exists [1].
  - match goal with |- opOk ?s _ => assert (map sv_id (e_servers s) = ["a"] /\ map sv_shortId (e_servers s) = ["10000000"]) as [E1 E2] by (vm_compute; done) end.
    split; [rewrite E1; by intros ?%list_elem_of_singleton|]. split; [rewrite E2; by intros ?%list_elem_of_singleton|]. by exists [2].
Qed.

End DemoEdge.

#[local] Existing Instance DemoEdge.platform.
#[local] Existing Instance DemoEdge.lower.
#[local] Existing Instance DemoEdge.edge.

(** The two routes, and the state of the edge after the second pass. *)
Example demo_addresses :
  map (fun r => (pr_serverId r, pr_publicPort r, pr_dnsSyncedHostname r)) (e_routes DemoEdge.before) =
    [("a", 25570, Some "10000000.mc.gx.br"); ("b", 25565, Some "20000000.mc.gx.br")] /\
  map (fun r => (pr_serverId r, pr_dnsSyncedHostname r)) (e_routes (reconcileOnce DemoEdge.cfg 3 DemoEdge.before).2) =
    [("a", Some "survival.mc.gx.br"); ("b", Some "20000000.mc.gx.br")].
Proof. vm_compute. done. Qed.

Definition demoGateway : Gateway := Eval vm_compute in default (mkGateway "" "" "" "" "" false None None 0 None) (head (e_gateways DemoEdge.before)).
Definition demoRoute (i : nat) : PublicRoute := nth i (e_routes DemoEdge.before) (mkRoute "" "" "" 0 "" R_failed None None None None).
Definition demoServer (i : nat) : Server := nth i (e_servers DemoEdge.before) (DemoEdge.server "" []).

Lemma demo_joined i : (i < 2)%nat -> (demoRoute i, demoServer i) ∈ joined (gw_id demoGateway) DemoEdge.before.
Proof.
  intros Hi. apply elem_joined. split.
  - apply list_elem_of_In, nth_In. replace (List.length (e_routes DemoEdge.before)) with 2%nat by (vm_compute; reflexivity). lia.
  - destruct i as [|[|i]]; [vm_compute; done..|lia].
Qed.

Lemma reconcile_serves_wanted_witness : exists s', reconcileOnce DemoEdge.cfg 3 DemoEdge.before = (Ok tt, s') /\ sameRows DemoEdge.before s' /\
  NoDup (map dr_publicPort (wanted (gw_id demoGateway) DemoEdge.before)) /\ delivered 3 (gw_id demoGateway) DemoEdge.before s'.
Proof.
  apply (reconcile_serves_wanted DemoEdge.cfg DemoEdge.before 3 demoGateway DemoEdge.before_reachable).
  apply list_elem_of_In, filter_In. split; [vm_compute; by left|vm_compute; reflexivity].
Defined.

Lemma public_names_distinct_witness : exists h1 h2,
  desiredHostname DemoEdge.cfg true (demoRoute 0) (demoServer 0) = Some h1 /\
  desiredHostname DemoEdge.cfg true (demoRoute 1) (demoServer 1) = Some h2 /\ h1 <> h2.
Proof.
  apply (public_names_distinct DemoEdge.cfg DemoEdge.before (gw_id demoGateway) (gw_id demoGateway) (demoRoute 0) (demoServer 0)
    (demoRoute 1) (demoServer 1) "gx.br" DemoEdge.before_reachable).
  - reflexivity.
  - apply demo_joined. lia.
  - apply demo_joined. lia.
  - vm_compute. discriminate.
Defined.

(** Server [b] before it has its route. *)
Definition unrouted : EdgeState :=
  let s := runEdges DemoEdge.cfg (take 2 DemoEdge.ops) DemoEdge.start in s <| e_servers := e_servers s ++ [DemoEdge.server "b" [2]] |>.

Lemma pretty_N_inj (a b : N) : pretty a = pretty b -> a = b.
Proof. apply (inj pretty). Qed.

Lemma route_port_choice_witness :
  (exists row s', createRouteWithFreePort DemoEdge.cfg "id-0" "b" 25570 unrouted = (Ok row, s') /\ e_routes s' = e_routes unrouted ++ [row] /\
     pr_serverId row = "b" /\ pr_gatewayId row = "id-0" /\ 25565 <= pr_publicPort row <= 25664 /\
     portFree "id-0" (pr_publicPort row) unrouted = true /\
     (pr_publicPort row = 25570 \/
      ~ (25565 <= 25570 <= 25664 /\ portFree "id-0" 25570 unrouted = true) /\
      forall q, 25565 <= q < pr_publicPort row -> portFree "id-0" q unrouted = false)) \/
  (exists msg s', createRouteWithFreePort DemoEdge.cfg "id-0" "b" 25570 unrouted = (Throw (Conflict msg), s') /\ e_routes s' = e_routes unrouted /\
     forall q, 25565 <= q <= 25664 -> portFree "id-0" q unrouted = false).
Proof.
  apply (route_port_choice DemoEdge.cfg "id-0" "b" 25570 unrouted 25565 25664 []).
  - vm_compute. reflexivity.
  - vm_compute. reflexivity.
  - vm_compute. reflexivity.
  - intros n r Hn Hr. assert (map pr_id (e_routes unrouted) = ["id-1"] /\ e_next unrouted = 2%N) as [E1 E2] by (vm_compute; done).
    assert (pr_id r ∈ ["id-1"]) as Hi%list_elem_of_singleton by (rewrite <- E1; by apply list_elem_of_In, in_map, list_elem_of_In).
    rewrite Hi. change (uuidv7 n) with ("id-" +:+ pretty n). intros E. change "id-1" with ("id-" +:+ pretty 1%N) in E.
    apply String.app_inj, pretty_N_inj in E. lia.
Defined.

Lemma publish_before_retire_witness :
  exists s' r h, reconcileOnce DemoEdge.cfg 3 DemoEdge.before = (Ok tt, s') /\ r ∈ e_routes s' /\ pr_id r = pr_id (demoRoute 0) /\
    (h = "10000000.mc.gx.br" \/ h = "survival.mc.gx.br") /\ pr_dnsSyncedHostname r = Some h /\ h ∈ answering (e_log s').
Proof.
  apply (publish_before_retire DemoEdge.cfg DemoEdge.before 3 (demoRoute 0) (demoServer 0) "10000000.mc.gx.br" "survival.mc.gx.br"
    DemoEdge.before_reachable).
  - apply (proj1 (elem_joined _ _ _ _) (demo_joined 0 ltac:(lia))).
  - vm_compute. reflexivity.
  - vm_compute. discriminate.
  - vm_compute. reflexivity.
  - apply (bool_decide_eq_true_1 ("10000000.mc.gx.br" ∈ answering (e_log DemoEdge.before))). vm_compute. reflexivity.
  - discriminate.
  - vm_compute. reflexivity.
  - discriminate.
  - intros b Hb Hne. assert (e_routes DemoEdge.before = [demoRoute 0; demoRoute 1]) as E by (vm_compute; reflexivity).
    rewrite E in Hb. apply elem_of_cons in Hb as [Hb|Hb%list_elem_of_singleton]; subst b; [done|]. split; [vm_compute; done|].
    intros v Hv. vm_compute in Hv. injection Hv as <-. vm_compute. done.
Defined.
