(* ===== verification/Databases.v ===== *)
(** Databases: the MySQL schemas customers get with a server.

    [databases/databases.service.ts] and [databases/database-hosts.service.ts] with their
    request bodies, and [databases/mysql-host-client.service.ts], which runs the statements.
    The MySQL servers are a parameter: an engine with the schemas, accounts and grants it
    holds, what a statement does to it, and how each request ends. *)

From S2P Require Import Prelude JsNum Capacity Store Scheduler Subscriptions JsString Servers Accounts Sessions Access Dto Fleet Crypto Controls Gateway.
From Stdlib Require Import Ascii String QArith Lia.

Local Open Scope Z_scope.

(** ** MySQL *)

Inductive Statement :=
  | SELECT_1
  | CREATE_DATABASE (name : string)
  | CREATE_USER (user remote password : string)
  | GRANT_ALL (database user remote : string)
  | FLUSH_PRIVILEGES
  | DROP_DATABASE (name : string)
  | DROP_USER (user remote : string).

(** An engine: the contents of its schemas, the password of its accounts, and the schema
    patterns each account was granted ([_] and [%] are wildcards in a grant). *)
Class MysqlEngine := {
  Engine : Type; Contents : Type;
  emptySchema : Contents;
  schema : Engine -> string -> option Contents;
  account : Engine -> string -> string -> option string;
  granted : Engine -> string -> string -> string -> bool;
  reaches : Engine -> string -> string -> string -> bool;
  execute : Engine -> Statement -> Engine }.

Record HostCredentials := mkCredentials { hc_host : string; hc_port : Z; hc_username : string; hc_password : string }.

Inductive MysqlRequest := Connect (host : HostCredentials) | Query (host : HostCredentials) (statement : Statement) | End_ (host : HostCredentials).

(** How a request ends: done, or an error, carried out or not. *)
Inductive MysqlOutcome := MyDone | MyFailed (msg : string) (carriedOut : bool).

(** The outcome of a request, given all requests so far, this one last. *)
Class MysqlNetwork := { mysqlOutcome : list MysqlRequest -> MysqlOutcome }.

(** [randomBytes(24)] and [randomBytes(3)]. *)
Class DbDraws := { bytes24 : N -> string; bytes3 : N -> string }.

(** ** Rows and state *)

Record DatabaseHost := mkHost {
  dh_id : string; dh_name : string; dh_host : string; dh_port : Z; dh_username : string; dh_passwordEnc : string;
  dh_keyVersion : Z; dh_nodeId : option string; dh_maxDatabases : Z; dh_createdAt : Z; dh_deletedAt : option Z }.
#[export] Instance DatabaseHost_row : Row DatabaseHost := dh_id.
#[export] Instance DatabaseHost_settable : Settable DatabaseHost := fun r =>
  mkHost (dh_id r) (dh_name r) (dh_host r) (dh_port r) (dh_username r) (dh_passwordEnc r) (dh_keyVersion r) (dh_nodeId r)
    (dh_maxDatabases r) (dh_createdAt r) (dh_deletedAt r).

Record Database := mkDatabase {
  db_id : string; db_serverId : string; db_hostId : string; db_database : string; db_username : string;
  db_passwordEnc : string; db_keyVersion : Z; db_remote : string; db_createdAt : Z }.
#[export] Instance Database_row : Row Database := db_id.

(** The tables, the engine behind each address, and the requests sent. *)
Record DbState `{MysqlEngine} := mkDbState {
  b_control : Control; b_hosts : list DatabaseHost; b_databases : list Database; b_engines : string * Z -> Engine;
  b_sent : list MysqlRequest }.
#[export] Instance DbState_settable `{MysqlEngine} : Settable DbState := fun s =>
  mkDbState _ (b_control s) (b_hosts s) (b_databases s) (b_engines s) (b_sent s).

Abbreviation MB := (M DbState).

(** ** Request bodies *)

Definition identChar (c : ascii) : bool := isLower c || isDigit c || (code c =? 95)%N.

(** [/^[a-z0-9_]{1,hi}$/]. *)
Definition identifier (hi : nat) (s : string) : bool :=
  (1 <=? String.length s)%nat && (String.length s <=? hi)%nat && allChars identChar s.

Definition validCreateDatabaseDto (name : Field string) : bool :=
  match name with Val s => lengthOk 1 32 s && negb (s =s "") && allChars identChar s | _ => true end.

Record CreateHostDto := mkCreateHost {
  ch_name : string; ch_host : string; ch_port : Field Z; ch_username : string; ch_password : string; ch_nodeId : Field string;
  ch_maxDatabases : Field Z }.

Definition validCreateHostDto (dto : CreateHostDto) : bool :=
  lengthOk 1 191 (ch_name dto) && lengthOk 1 255 (ch_host dto) &&
  match ch_port dto with Val p => (1 <=? p) && (p <=? 65535) | _ => true end &&
  lengthOk 1 191 (ch_username dto) && lengthOk 1 512 (ch_password dto) && minOk 0 (ch_maxDatabases dto).

Record UpdateHostDto := mkUpdateHost { uh_name : Field string; uh_maxDatabases : Field Z }.

Definition validUpdateHostDto (dto : UpdateHostDto) : bool := lengthOkF 1 191 (uh_name dto) && minOk 0 (uh_maxDatabases dto).

(** ** Text *)

(** [Number(enc.slice(1, enc.indexOf('.')))], for an [enc] with a dot. *)
Definition envelopeVersion (enc : string) : JsNumber := jsNumber (dropS 1 (default "" (head (splitOn "." enc)))).

(** A value for a [SmallInt] column. *)
Definition smallInt (n : JsNumber) : Res Z :=
  match n with
  | Fin q => let z := Qround.Qfloor q in
             if Qeq_bool q (inject_Z z) && (-32768 <=? z) && (z <=? 32767) then Ok z else Throw (External "Invalid value for a SmallInt column")
  | _ => Throw (External "Invalid value for a SmallInt column")
  end.

(** ** mysql-host-client.service.ts *)

(** [try { m } finally { fin }]: an exception of [fin] replaces the result. *)
Definition tryFinally {S A} (m : M S A) (fin : M S unit) : M S A := fun s =>
  let (r, s1) := m s in
  match fin s1 with
  | (Ok _, s2) => (r, s2)
  | (Throw e, s2) => (Throw e, s2)
  end.

Section Client.
Context `{MysqlEngine} `{MysqlNetwork}.

Definition address (host : HostCredentials) : string * Z := (hc_host host, hc_port host).

Definition mysqlRequest (host : HostCredentials) (req : MysqlRequest) (effect : Engine -> Engine) (wrap : string -> exn) : MB unit := fun s =>
  let sent := b_sent s ++ [req] in
  let carried := fun k => if k =s address host then effect (b_engines s k) else b_engines s k in
  match mysqlOutcome sent with
  | MyDone => (Ok tt, s <| b_sent := sent |> <| b_engines := carried |>)
  | MyFailed msg b => (Throw (wrap msg), s <| b_sent := sent |> <| b_engines := if b then carried else b_engines s |>)
  end.

Definition connect (host : HostCredentials) : MB unit :=
  mysqlRequest host (Connect host) (fun e => e) (fun msg => Http ("Could not connect to database host: " +:+ msg) 503).

Definition query (host : HostCredentials) (st : Statement) : MB unit := mysqlRequest host (Query host st) (fun e => execute e st) External.

Definition endConn (host : HostCredentials) : MB unit := mysqlRequest host (End_ host) (fun e => e) External.

Definition withConnection (host : HostCredentials) (body : MB unit) : MB unit := connect host ;; tryFinally body (endConn host).

Definition assertSafeIdentifier (name kind : string) : MB unit :=
  throwIf (negb (identifier 64 name)) (External ("mysql-host-client: refusing unsafe " +:+ kind +:+ " identifier " +:+ quoted name)).

Definition testConnection (host : HostCredentials) : MB unit := withConnection host (query host SELECT_1).

Definition createDatabaseAndUser (host : HostCredentials) (database dbUsername dbPassword remote : string) : MB unit :=
  assertSafeIdentifier database "database" ;;
  assertSafeIdentifier dbUsername "username" ;;
  withConnection host (
    query host (CREATE_DATABASE database) ;;
    query host (CREATE_USER dbUsername remote dbPassword) ;;
    query host (GRANT_ALL database dbUsername remote) ;;
    query host FLUSH_PRIVILEGES).

Definition dropDatabaseAndUser (host : HostCredentials) (database dbUsername remote : string) : MB unit :=
  assertSafeIdentifier database "database" ;;
  assertSafeIdentifier dbUsername "username" ;;
  withConnection host (
    query host (DROP_DATABASE database) ;;
    query host (DROP_USER dbUsername remote) ;;
    query host FLUSH_PRIVILEGES).

End Client.

(** ** database-hosts.service.ts *)

Definition hostAad (hostId : string) : string := "database_hosts:password_enc:" +:+ hostId.

Section Services.
Context `{Platform} `{Secrets} `{Gcm} `{MysqlEngine} `{MysqlNetwork} `{DbDraws} (crypto : CryptoService).

Definition onControlB {A} (m : MC A) : MB A := fun s => let (r, c) := m (b_control s) in (r, s <| b_control := c |>).

Definition freshB : MB N := onControlB freshC.

Definition nowB : MB Z := gets (fun s => c_now (b_control s)).

Definition encryptB (plaintext aad : string) : MB string := n ← freshB; lift (encrypt crypto n plaintext aad).

Definition databasesOn (hostId : string) (s : DbState) : Z := countWhere (fun d => db_hostId d =s hostId) (b_databases s).

Definition listHosts : MB (list (DatabaseHost * Z)) :=
  gets (fun s => map (fun h => (h, databasesOn (dh_id h) s))
    (sortBy (fun a b => dh_createdAt b <=? dh_createdAt a) (List.filter (fun h => dh_deletedAt h =s None) (b_hosts s)))).

Definition getHost (id : string) : MB DatabaseHost :=
  found ← gets (fun s => findFirst (fun h => (dh_id h =s id) && (dh_deletedAt h =s None)) (b_hosts s));
  orThrow found (NotFound "Database host not found").

(** [prisma.$transaction]: an exception undoes the writes of the block. *)
Definition hostTransaction {A} (m : MB A) : MB A := fun s =>
  match m s with
  | (Ok a, s') => (Ok a, s')
  | (Throw e, s') => (Throw e, s' <| b_hosts := b_hosts s |>)
  end.

Definition withPassword (enc : string) (keyVersion : Z) (h : DatabaseHost) : DatabaseHost :=
  h <| dh_passwordEnc := enc |> <| dh_keyVersion := keyVersion |>.

Definition createHost (dto : CreateHostDto) : MB DatabaseHost :=
  let port := default 3306 (given (ch_port dto)) in
  testConnection (mkCredentials (ch_host dto) port (ch_username dto) (ch_password dto)) ;;
  hostTransaction (
    n ← freshB;
    now ← nowB;
    known ← gets (fun s => match given (ch_nodeId dto) with
                           | None => true
                           | Some nodeId => bool_decide (is_Some (findId nodeId (c_nodes (b_control s))))
                           end);
    throwIf (negb known) (External "database_hosts_node_id_fkey") ;;
    throwIf (negb (fitsInt4 (default 0 (given (ch_maxDatabases dto))))) (External "Unable to fit integer value into an INT4") ;;
    let created := mkHost (uuidv7 n) (ch_name dto) (ch_host dto) port (ch_username dto) "" 1 (given (ch_nodeId dto))
                     (default 0 (given (ch_maxDatabases dto))) now None in
    taken ← gets (fun s => existsb (fun h => dh_id h =s dh_id created) (b_hosts s));
    throwIf taken (UniqueViolation "database_hosts_pkey") ;;
    modify (fun s => s <| b_hosts := b_hosts s ++ [created] |>) ;;
    enc ← encryptB (ch_password dto) (hostAad (dh_id created));
    keyVersion ← lift (smallInt (envelopeVersion enc));
    modify (fun s => s <| b_hosts := updId (dh_id created) (withPassword enc keyVersion) (b_hosts s) |>) ;;
    mret (withPassword enc keyVersion created)).

Definition patchedHost (dto : UpdateHostDto) (h : DatabaseHost) : Res DatabaseHost :=
  name ← patch (uh_name dto) (dh_name h);
  maxDatabases ← patch (uh_maxDatabases dto) (dh_maxDatabases h);
  mret (h <| dh_name := name |> <| dh_maxDatabases := maxDatabases |>).

Definition updateHost (id : string) (dto : UpdateHostDto) : MB unit :=
  h ← getHost id;
  updated ← lift (patchedHost dto h);
  throwIf (negb (fitsInt4 (dh_maxDatabases updated))) (External "Unable to fit integer value into an INT4") ;;
  modify (fun s => s <| b_hosts := updId id (fun _ => updated) (b_hosts s) |>).

Definition removeHost (id : string) : MB unit :=
  getHost id ;;
  inUse ← gets (databasesOn id);
  throwIf (0 <? inUse) (Conflict "Database host is in use by existing databases") ;;
  now ← nowB;
  modify (fun s => s <| b_hosts := updId id (fun h => h <| dh_deletedAt := Some now |>) (b_hosts s) |>).

Definition decryptCredentials (id : string) : MB HostCredentials :=
  host ← getHost id;
  password ← lift (decrypt crypto (dh_passwordEnc host) (hostAad (dh_id host)));
  mret (mkCredentials (dh_host host) (dh_port host) (dh_username host) password).

(** ** databases.service.ts *)

Definition DEFAULT_SUFFIX : string := "db".
Definition REMOTE : string := "%".

Definition passwordAad (databaseId : string) : string := "databases:password_enc:" +:+ databaseId.

Definition sanitizeSuffix (name : option string) : string :=
  let trimmed := toLowerCase (trim (default "" name)) in
  if identifier 32 trimmed then trimmed else DEFAULT_SUFFIX.

Definition databaseName (shortId suffix : string) : string := "s" +:+ toLowerCase shortId +:+ "_" +:+ suffix.

Definition usernameFor (shortId bytes : string) : string := "u" +:+ toLowerCase shortId +:+ hex bytes.

Fixpoint uniqueDbUsername (attempts : nat) (hostId shortId : string) : MB string :=
  match attempts with
  | O => throw (Conflict "Could not allocate a unique database username, please retry")
  | S k =>
    n ← freshB;
    let candidate := usernameFor shortId (bytes3 n) in
    existing ← gets (fun s => existsb (fun d => (db_hostId d =s hostId) && (db_username d =s candidate)) (b_databases s));
    if (existing : bool) then uniqueDbUsername k hostId shortId else mret candidate
  end.

(** The share of its cap a host has in use. *)
Definition loadRatio (s : DbState) (h : DatabaseHost) : Q := fdiv (inject_Z (databasesOn (dh_id h) s)) (inject_Z (dh_maxDatabases h)).

Definition byLoad (s : DbState) (a b : DatabaseHost) : bool := Qle_bool (fsub (loadRatio s a) (loadRatio s b)) 0.

Definition hasRoom (s : DbState) (h : DatabaseHost) : bool := databasesOn (dh_id h) s <? dh_maxDatabases h.

Definition pickHostWithCapacity : MB string :=
  withRoom ← gets (fun s => sortBy (byLoad s) (List.filter (hasRoom s) (List.filter (fun h => dh_deletedAt h =s None) (b_hosts s))));
  match withRoom with
  | [] => throw (Conflict "No database host with available capacity")
  | h :: _ => mret (dh_id h)
  end.

(** [database.create] under the actor's row policies: the columns' constraints. *)
Definition insertDatabase (d : Database) : MB unit :=
  server ← gets (fun s => existsb (fun v => sv_id v =s db_serverId d) (x_servers (c_access (b_control s))));
  throwIf (negb server) (External "databases_server_id_fkey") ;;
  rows ← gets b_databases;
  throwIf (existsb (fun x => db_id x =s db_id d) rows) (UniqueViolation "databases_pkey") ;;
  throwIf (existsb (fun x => (db_hostId x =s db_hostId d) && (db_database x =s db_database d)) rows) (UniqueViolation "databases_host_id_database_key") ;;
  throwIf (existsb (fun x => (db_hostId x =s db_hostId d) && (db_username x =s db_username d)) rows) (UniqueViolation "databases_host_id_username_key") ;;
  modify (fun s => s <| b_databases := b_databases s ++ [d] |>).

Record CreatedDatabase := mkCreated {
  cd_id : string; cd_database : string; cd_username : string; cd_password : string; cd_remote : string; cd_host : string; cd_port : Z }.

Definition resolveB (actor : AccessActor) (serverId : string) : MB ResolvedAccess := onControlB (resolveC actor serverId).

Definition listDatabases (actor : AccessActor) (serverId : string) : MB (list Database) :=
  access ← resolveB actor serverId;
  requirePermission access "database.read" ;;
  gets (fun s => sortBy (fun a b => db_createdAt a <=? db_createdAt b)
    (List.filter (fun d => db_serverId d =s sv_id (ra_server access)) (b_databases s))).

(** The block of [create] that is undone by dropping what was provisioned. *)
Definition recordDatabase (actor : AccessActor) (server : Server) (hostId database dbUsername dbPassword : string) (host : HostCredentials)
    : MB CreatedDatabase :=
  n ← freshB;
  let id := randomUUID n in
  enc ← encryptB dbPassword (passwordAad id);
  keyVersion ← lift (smallInt (envelopeVersion enc));
  now ← nowB;
  insertDatabase (mkDatabase id (sv_id server) hostId database dbUsername enc keyVersion REMOTE now) ;;
  onControlB (auditC "server.database.create" (xa_id actor) (sv_id server)) ;;
  onControlB (recordActivity (xa_id actor) (sv_id server) "server.database.create") ;;
  mret (mkCreated id database dbUsername dbPassword REMOTE (hc_host host) (hc_port host)).

Definition createDatabase (actor : AccessActor) (serverId : string) (name : Field string) : MB CreatedDatabase :=
  access ← resolveB actor serverId;
  requirePermission access "database.create" ;;
  let server := ra_server access in
  existingCount ← gets (fun s => countWhere (fun d => db_serverId d =s sv_id server) (b_databases s));
  throwIf (sv_maxDatabases server <=? existingCount) (Conflict "Database limit reached for this server’s plan") ;;
  hostId ← pickHostWithCapacity;
  host ← decryptCredentials hostId;
  let suffix := sanitizeSuffix (given name) in
  let database := databaseName (sv_shortId server) suffix in
  n ← freshB;
  let dbPassword := base64url (bytes24 n) in
  dbUsername ← uniqueDbUsername 5 hostId (sv_shortId server);
  createDatabaseAndUser host database dbUsername dbPassword REMOTE ;;
  tryCatch (recordDatabase actor server hostId database dbUsername dbPassword host)
    (fun err => tryCatch (dropDatabaseAndUser host database dbUsername REMOTE) (fun _ => mret tt) ;; throw err).

Definition deleteDatabase (actor : AccessActor) (serverId databaseId : string) : MB unit :=
  access ← resolveB actor serverId;
  requirePermission access "database.delete" ;;
  let server := ra_server access in
  found ← gets (fun s => findFirst (fun d => (db_id d =s databaseId) && (db_serverId d =s sv_id server)) (b_databases s));
  db ← orThrow found (NotFound "Database not found");
  host ← decryptCredentials (db_hostId db);
  dropDatabaseAndUser host (db_database db) (db_username db) (db_remote db) ;;
  modify (fun s => s <| b_databases := List.filter (fun d => negb (db_id d =s db_id db)) (b_databases s) |>) ;;
  onControlB (auditC "server.database.delete" (xa_id actor) (sv_id server)) ;;
  onControlB (recordActivity (xa_id actor) (sv_id server) "server.database.delete").

(** Drop one database; the outcome is counted or reported. *)
Definition dropOne (acc : Z * list (string * string)) (db : Database) : MB (Z * list (string * string)) :=
  tryCatch
    (host ← decryptCredentials (db_hostId db);
     dropDatabaseAndUser host (db_database db) (db_username db) (db_remote db) ;;
     mret (acc.1 + 1, acc.2))
    (fun err => mret (acc.1, acc.2 ++ [(db_database db, message err)])).

Definition deleteAllForServer (serverId : string) : MB (Z * list (string * string)) :=
  dbs ← gets (fun s => List.filter (fun d => db_serverId d =s serverId) (b_databases s));
  forFold dbs (0, []) dropOne.

(** What [ServersService.remove] does here: the schemas, then the row, whose databases the
    foreign key removes with it. *)
Definition removeServerDatabases (serverId : string) : MB (Z * list (string * string)) :=
  result ← deleteAllForServer serverId;
  modify (fun s => s <| b_databases := List.filter (fun d => negb (db_serverId d =s serverId)) (b_databases s) |>
    <| b_control := (b_control s) <| c_access := (c_access (b_control s))
         <| x_servers := List.filter (fun v => negb (sv_id v =s serverId)) (x_servers (c_access (b_control s))) |> |> |>) ;;
  mret result.

End Services.
