(* ===== verification/DatabaseRules.v ===== *)
(** DatabaseRules: what a customer's database credentials reach.

    The documented behaviour of MySQL the services rely on ([MysqlLaws]), and the theorems on
    Databases: the credentials of one server reach no schema of another, whatever requests are
    served; what a successful creation leaves behind; what removing a server leaves behind; and
    the failure of the clean-up of a rejected creation. *)

From S2P Require Import Prelude JsNum Capacity Store Scheduler Subscriptions JsString Servers Accounts Sessions Access Dto Fleet Crypto Controls Gateway GatewayRules Databases.
From Stdlib Require Import Ascii String QArith Lia.

Local Open Scope Z_scope.

(** ** MySQL *)

(** The patterns of a schema-level grant: [_] is any character, [%] any text, and a backslash
    takes the next character literally. *)
Fixpoint sqlLike (p s : string) : bool :=
  match p with
  | EmptyString => s =s ""
  | String c p' =>
    if Ascii.eqb c "%" then
      (fix any s := sqlLike p' s || match s with EmptyString => false | String _ s' => any s' end) s
    else match s with
         | EmptyString => false
         | String d s' =>
           if Ascii.eqb c "_" then sqlLike p' s'
           else if Ascii.eqb c "\" then
             match p' with
             | EmptyString => Ascii.eqb d "\" && (s' =s "")
             | String c' p'' => Ascii.eqb c' d && sqlLike p'' s'
             end
           else Ascii.eqb c d && sqlLike p' s'
         end
  end.

Example sqlLike_ex : map (sqlLike "sab_c%") ["sab_c"; "sabxcde"; "sab_d"; "sabc"] = [true; true; false; false].
Proof. reflexivity. Qed.

(** [IF NOT EXISTS] keeps what is there, [IF EXISTS] tolerates what is not, a statement touches
    what it names and nothing else, and an account reaches a schema through its grants only. *)
Class MysqlLaws `{MysqlEngine} : Prop := {
  schema_effect e st n : schema (execute e st) n =
    match st with
    | CREATE_DATABASE x => if x =s n then Some (default emptySchema (schema e n)) else schema e n
    | DROP_DATABASE x => if x =s n then None else schema e n
    | _ => schema e n
    end;
  account_effect e st u r : account (execute e st) u r =
    match st with
    | CREATE_USER u' r' p => if (u' =s u) && (r' =s r) then Some (default p (account e u r)) else account e u r
    | DROP_USER u' r' => if (u' =s u) && (r' =s r) then None else account e u r
    | _ => account e u r
    end;
  grant_effect e st u r p : granted (execute e st) u r p =
    match st with
    | GRANT_ALL p' u' r' => granted e u r p || ((u' =s u) && (r' =s r) && (p' =s p))
    | DROP_USER u' r' => granted e u r p && negb ((u' =s u) && (r' =s r))
    | _ => granted e u r p
    end;
  reach_granted e u r n : reaches e u r n = true -> exists p, granted e u r p = true /\ sqlLike p n = true }.

(** ** Frames *)

Definition preserves {S} (P : S -> Prop) (s s' : S) : Prop := P s -> P s'.

#[export] Instance preserves_preorder {S} (P : S -> Prop) : PreOrder (preserves P).
Proof. split; unfold preserves; repeat intro; auto. Qed.

Lemma keeps_tryFinally {S A} (R : S -> S -> Prop) `{!PreOrder R} (m : M S A) fin : keeps R m -> keeps R fin -> keeps R (tryFinally m fin).
Proof.
  intros Hm Hf s r s'. unfold tryFinally. destruct (m s) as [x s1] eqn:E1. destruct (fin s1) as [[u|e] s2] eqn:E2; intros [= <- <-];
    (transitivity s1; [by eapply Hm|by eapply Hf]).
Qed.

(** The tables and the engines. *)
Definition tables `{MysqlEngine} (s : DbState) := (x_servers (c_access (b_control s)), b_hosts s, b_databases s).
Definition full `{MysqlEngine} (s : DbState) := (tables s, b_engines s).

Lemma same_preserves {S A X} (π : S -> X) (P : S -> Prop) (m : M S A) :
  (forall s s', π s' = π s -> P s -> P s') -> keeps (same π) m -> keeps (preserves P) m.
Proof. intros HP Hm s r s' E. exact (HP s s' (Hm s r s' E)). Qed.

Section Frames.
Context `{Platform} `{Secrets} `{Gcm} `{MysqlEngine} `{MysqlNetwork} `{DbDraws} (crypto : CryptoService).

Lemma keeps_onControlB {A} (m : MC A) : keeps (same (fun c => x_servers (c_access c))) m -> keeps (same full) (onControlB m).
Proof.
  intros Hm s r s'. unfold onControlB. destruct (m (b_control s)) as [r0 c] eqn:E. intros [= _ <-]. apply Hm in E.
  unfold same, full, tables in *. simpl. by rewrite E.
Qed.

Lemma keeps_onAccessC {A} (m : MX A) : keeps (same accessCore) m -> keeps (same (fun c => x_servers (c_access c))) (onAccess m).
Proof.
  intros Hm s r s'. unfold onAccess. destruct (m (c_access s)) as [r0 a] eqn:E. intros [= _ <-]. apply Hm in E. injection E as E _. exact E.
Qed.

Lemma resolveB_full actor v : keeps (same full) (resolveB actor v).
Proof. apply keeps_onControlB. intros s r s'. unfold resolveC. apply keeps_onAccessC, resolve_core. Qed.

Lemma freshB_full : keeps (same full) freshB.
Proof. apply keeps_onControlB. by intros s r s' [= _ <-]. Qed.

Lemma auditB_full action a v : keeps (same full) (onControlB (auditC action a v)).
Proof. apply keeps_onControlB, keeps_onAccessC. unfold log. by intros s r s' [= _ <-]. Qed.

Lemma activityB_full a v e : keeps (same full) (onControlB (recordActivity a v e)).
Proof. apply keeps_onControlB. unfold recordActivity. keeps_auto. by intros s r s' [= _ <-]. Qed.

Lemma encryptB_full p aad : keeps (same full) (encryptB crypto p aad).
Proof. unfold encryptB. keeps_auto. apply freshB_full. Qed.

Lemma getHost_full id : keeps (same full) (getHost id).
Proof. unfold getHost. keeps_auto. Qed.

Lemma decryptCredentials_full id : keeps (same full) (decryptCredentials crypto id).
Proof. unfold decryptCredentials. keeps_auto. apply getHost_full. Qed.

Lemma uniqueDbUsername_full k hostId sid : keeps (same full) (uniqueDbUsername k hostId sid).
Proof. induction k as [|k IH]; simpl; keeps_auto. apply freshB_full. Qed.

(** A request changes the engine at its address, by its effect or not at all. *)
Lemma mysqlRequest_inv host req eff wrap s r s' : mysqlRequest host req eff wrap s = (r, s') ->
  tables s' = tables s /\ b_control s' = b_control s /\
  (forall k, b_engines s' k = if k =s address host then eff (b_engines s k) else b_engines s k) /\ r = Ok tt \/
  tables s' = tables s /\ b_control s' = b_control s /\ (exists e, r = Throw e) /\
  ((forall k, b_engines s' k = if k =s address host then eff (b_engines s k) else b_engines s k) \/ b_engines s' = b_engines s).
Proof.
  unfold mysqlRequest. destruct (mysqlOutcome _) as [|msg [|]]; intros [= <- <-]; simpl; [left|right..]; split_and!; eauto.
Qed.

(** A statement that keeps a property of engines keeps it on all of them, whatever the outcome. *)
Lemma query_keeps (Q : Engine -> Prop) host st : (forall e, Q e -> Q (execute e st)) ->
  keeps (preserves (fun s => forall k, Q (b_engines s k))) (query host st).
Proof.
  intros HQ s r s' E Hs k. apply mysqlRequest_inv in E as [(_ & _ & E & _)|(_ & _ & _ & [E|E])]; rewrite E; auto; case_bool_decide; auto.
Qed.

Lemma connect_keeps (Q : Engine -> Prop) host : keeps (preserves (fun s => forall k, Q (b_engines s k))) (connect host).
Proof. intros s r s' E Hs k. apply mysqlRequest_inv in E as [(_ & _ & E & _)|(_ & _ & _ & [E|E])]; rewrite E; auto; case_bool_decide; auto. Qed.

Lemma endConn_keeps (Q : Engine -> Prop) host : keeps (preserves (fun s => forall k, Q (b_engines s k))) (endConn host).
Proof. intros s r s' E Hs k. apply mysqlRequest_inv in E as [(_ & _ & E & _)|(_ & _ & _ & [E|E])]; rewrite E; auto; case_bool_decide; auto. Qed.

Lemma mysqlRequest_tables host req eff wrap : keeps (same tables) (mysqlRequest host req eff wrap).
Proof. intros s r s' E. unfold same. by apply mysqlRequest_inv in E as [(E & _)|(E & _)]. Qed.

Lemma createDbUser_tables host d u p r : keeps (same tables) (createDatabaseAndUser host d u p r).
Proof. unfold createDatabaseAndUser, assertSafeIdentifier, withConnection. keeps_auto; try apply mysqlRequest_tables. apply keeps_tryFinally; [typeclasses eauto| |apply mysqlRequest_tables]. keeps_auto; apply mysqlRequest_tables. Qed.

Lemma dropDbUser_tables host d u r : keeps (same tables) (dropDatabaseAndUser host d u r).
Proof. unfold dropDatabaseAndUser, assertSafeIdentifier, withConnection. keeps_auto; try apply mysqlRequest_tables. apply keeps_tryFinally; [typeclasses eauto| |apply mysqlRequest_tables]. keeps_auto; apply mysqlRequest_tables. Qed.

Lemma createDbUser_keeps (Q : Engine -> Prop) host d u p r :
  (forall e, Q e -> Q (execute e (CREATE_DATABASE d))) -> (forall e, Q e -> Q (execute e (CREATE_USER u r p))) ->
  (forall e, Q e -> Q (execute e (GRANT_ALL d u r))) -> (forall e, Q e -> Q (execute e FLUSH_PRIVILEGES)) ->
  keeps (preserves (fun s => forall k, Q (b_engines s k))) (createDatabaseAndUser host d u p r).
Proof.
  intros H1' H2' H3' H4'. unfold createDatabaseAndUser, assertSafeIdentifier, withConnection. keeps_auto; [apply connect_keeps|].
  apply keeps_tryFinally; [typeclasses eauto| |apply endConn_keeps]. keeps_auto; by apply query_keeps.
Qed.

Lemma dropDbUser_keeps (Q : Engine -> Prop) host d u r :
  (forall e, Q e -> Q (execute e (DROP_DATABASE d))) -> (forall e, Q e -> Q (execute e (DROP_USER u r))) ->
  (forall e, Q e -> Q (execute e FLUSH_PRIVILEGES)) ->
  keeps (preserves (fun s => forall k, Q (b_engines s k))) (dropDatabaseAndUser host d u r).
Proof.
  intros H1' H2' H3'. unfold dropDatabaseAndUser, assertSafeIdentifier, withConnection. keeps_auto; [apply connect_keeps|].
  apply keeps_tryFinally; [typeclasses eauto| |apply endConn_keeps]. keeps_auto; by apply query_keeps.
Qed.

End Frames.

#[export] Hint Resolve resolveB_full freshB_full auditB_full activityB_full encryptB_full getHost_full decryptCredentials_full
  uniqueDbUsername_full : keeps.

(** ** Names *)

Lemma append_inj_length a b c d : String.length a = String.length b -> a +:+ c = b +:+ d -> a = b /\ c = d.
Proof.
  revert b. induction a as [|x a IH]; intros [|y b] Hl E; simpl in Hl; try lia; [done|]. rewrite !append_cons in E. injection E as -> E.
  by destruct (IH b ltac:(lia) E) as [-> ->].
Qed.

Lemma shaped_length sid : SHORT_ID_SHAPED sid = true -> String.length sid = 8%nat.
Proof. by intros [?%Nat.eqb_eq _]%andb_true_iff. Qed.

(** No wildcard occurs in a short id, so a pattern that starts with one fixes it. *)
Lemma like_fixed a b p q : allChars shortIdChar a = true -> String.length a = String.length b -> sqlLike (a +:+ p) (b +:+ q) = true -> a = b.
Proof.
  revert b. induction a as [|x a IH]; intros [|y b] Ha Hl E; simpl in Hl; try lia; [done|]. simpl in Ha. apply andb_true_iff in Ha as [Hx Ha].
  rewrite !append_cons in E. simpl in E.
  destruct (Ascii.eqb_spec x "%") as [->|_]; [discriminate Hx|]. destruct (Ascii.eqb_spec x "_") as [->|_]; [discriminate Hx|].
  destruct (Ascii.eqb_spec x "\") as [->|_]; [discriminate Hx|]. apply andb_true_iff in E as [->%Ascii.eqb_eq E]. f_equal. apply IH; [done|lia|done].
Qed.

Lemma like_tenant sid sid' y z : SHORT_ID_SHAPED sid = true -> SHORT_ID_SHAPED sid' = true ->
  sqlLike ("s" +:+ sid +:+ "_" +:+ y) ("s" +:+ sid' +:+ "_" +:+ z) = true -> sid = sid'.
Proof.
  intros H1 H2 E. apply (like_fixed ("s" +:+ sid) ("s" +:+ sid') ("_" +:+ y) ("_" +:+ z)) in E.
  - by injection E.
  - simpl. by apply andb_true_iff in H1 as [_ ?].
  - simpl. by rewrite !shaped_length.
Qed.

(** ** The invariant *)

(** An account named after a short id is only granted schemas named after it. *)
Definition tenantGrants `{MysqlEngine} (e : Engine) : Prop :=
  forall sid x r p, SHORT_ID_SHAPED sid = true -> granted e ("u" +:+ sid +:+ x) r p = true -> exists y, p = "s" +:+ sid +:+ "_" +:+ y.

Definition liveHost `{MysqlEngine} (id : string) (s : DbState) : Prop := exists h, h ∈ b_hosts s /\ dh_id h = id /\ dh_deletedAt h = None.

Definition serversOf `{MysqlEngine} (s : DbState) : list Server := x_servers (c_access (b_control s)).

Record serversOk (vs : list Server) : Prop := {
  vo_ids : NoDup (map sv_id vs);
  vo_shortIds : NoDup (map sv_shortId vs);
  vo_shapes : forall v, v ∈ vs -> exists bytes, sv_shortId v = generateShortId bytes }.

(** A row is about an existing server, after which its schema and its account are named. *)
Definition named `{Platform} (vs : list Server) (d : Database) : Prop :=
  exists v suffix bytes, v ∈ vs /\ sv_id v = db_serverId d /\ db_database d = databaseName (sv_shortId v) suffix /\
    db_username d = usernameFor (sv_shortId v) bytes /\ identifier 32 suffix = true /\ String.length bytes = 3%nat.

Record dbOk `{Platform} `{MysqlEngine} (s : DbState) : Prop := {
  do_servers : serversOk (serversOf s);
  do_hosts : NoDup (map dh_id (b_hosts s));
  do_rows : forall d, d ∈ b_databases s -> named (serversOf s) d;
  do_live : forall d, d ∈ b_databases s -> liveHost (db_hostId d) s;
  do_engines : forall k, tenantGrants (b_engines s k) }.

(** Requests, what other services do to servers, and what customers do with their accounts. *)
Inductive DbOp `{MysqlEngine} :=
  | BCreateHost (dto : CreateHostDto)
  | BUpdateHost (id : string) (dto : UpdateHostDto)
  | BRemoveHost (id : string)
  | BCreate (actor : AccessActor) (serverId : string) (name : Field string)
  | BDelete (actor : AccessActor) (serverId databaseId : string)
  | BRemoveServer (serverId : string)
  | BElsewhere (c : Control)
  | BCustomer (k : string * Z) (e : Engine).

(** Other services keep ids and short ids of the servers that have databases, and create short
    ids as ServersService does; a customer's statements grant nothing. *)
Definition authenticDb `{MysqlEngine} (op : DbOp) (s : DbState) : Prop :=
  match op with
  | BElsewhere c => serversOk (x_servers (c_access c)) /\
      forall d v, d ∈ b_databases s -> v ∈ serversOf s -> sv_id v = db_serverId d ->
        exists v', v' ∈ x_servers (c_access c) /\ sv_id v' = sv_id v /\ sv_shortId v' = sv_shortId v
  | BCustomer k e => forall u r p, granted e u r p = granted (b_engines s k) u r p
  | _ => True
  end.

Definition runDb `{Platform} `{Secrets} `{Gcm} `{MysqlEngine} `{MysqlNetwork} `{DbDraws} (crypto : CryptoService) (op : DbOp) (s : DbState) : DbState :=
  match op with
  | BCreateHost dto => (createHost crypto dto s).2
  | BUpdateHost id dto => (updateHost id dto s).2
  | BRemoveHost id => (removeHost id s).2
  | BCreate a v n => (createDatabase crypto a v n s).2
  | BDelete a v d => (deleteDatabase crypto a v d s).2
  | BRemoveServer v => (removeServerDatabases crypto v s).2
  | BElsewhere c => s <| b_control := c |>
  | BCustomer k e => s <| b_engines := fun k' => if k' =s k then e else b_engines s k' |>
  end.

Fixpoint authenticDbs `{Platform} `{Secrets} `{Gcm} `{MysqlEngine} `{MysqlNetwork} `{DbDraws} (crypto : CryptoService) (ops : list DbOp) (s : DbState) : Prop :=
  match ops with
  | [] => True
  | op :: ops' => authenticDb op s /\ authenticDbs crypto ops' (runDb crypto op s)
  end.

Definition runDbs `{Platform} `{Secrets} `{Gcm} `{MysqlEngine} `{MysqlNetwork} `{DbDraws} (crypto : CryptoService) (ops : list DbOp) (s : DbState) : DbState :=
  fold_left (fun s op => runDb crypto op s) ops s.

(** [randomBytes(3)] is three bytes. *)
Class DrawLaws `{DbDraws} : Prop := { bytes3_length n : String.length (bytes3 n) = 3%nat }.

Section Isolation.
Context `{AsciiLower} `{Secrets} `{GcmLaws} `{MysqlLaws} `{MysqlNetwork} `{DrawLaws} (crypto : CryptoService).

Lemma lower_shortId bytes : toLowerCase (generateShortId bytes) = lowerAscii (generateShortId bytes) /\
  SHORT_ID_SHAPED (toLowerCase (generateShortId bytes)) = true.
Proof.
  destruct (shortId_shape bytes) as [Hc Hl].
  assert (toLowerCase (generateShortId bytes) = lowerAscii (generateShortId bytes)) as E
    by (apply toLowerCase_ascii; eapply allChars_impl; [|exact Hc]; apply upperId_ascii).
  rewrite E. split; [done|]. by apply lower_shaped.
Qed.

Lemma lower_shortId_inj b1 b2 : toLowerCase (generateShortId b1) = toLowerCase (generateShortId b2) -> generateShortId b1 = generateShortId b2.
Proof.
  rewrite (proj1 (lower_shortId b1)), (proj1 (lower_shortId b2)). destruct (shortId_shape b1) as [? _], (shortId_shape b2) as [? _]. by apply lower_inj.
Qed.

(** The statements the services send keep the grants apart. *)
Lemma tenant_grant bytes suffix x r e : tenantGrants e ->
  tenantGrants (execute e (GRANT_ALL (databaseName (generateShortId bytes) suffix) (usernameFor (generateShortId bytes) x) r)).
Proof.
  intros He sid y r' p Hs. rewrite grant_effect. intros [Hg|Hg]%orb_true_iff; [by eapply He|].
  rewrite !andb_true_iff, !bool_decide_eq_true in Hg. destruct Hg as [[Eu _] Ep]. exists suffix. rewrite <- Ep. unfold databaseName. do 2 f_equal.
  destruct (lower_shortId bytes) as [_ Hb]. unfold usernameFor in Eu. rewrite !append_cons in Eu. injection Eu as Eu.
  change (toLowerCase (generateShortId bytes) +:+ hex x = sid +:+ y) in Eu. by apply append_inj_length in Eu as [-> _]; [|rewrite !shaped_length].
Qed.

Lemma tenant_other e st : match st with GRANT_ALL _ _ _ => False | _ => True end -> tenantGrants e -> tenantGrants (execute e st).
Proof.
  intros Hst He sid y r p Hs. rewrite grant_effect. destruct st; try done; intros Hg; try by eapply He.
  apply andb_true_iff in Hg as [Hg _]. by eapply He.
Qed.

Lemma dbOk_full s s' : full s' = full s -> dbOk s -> dbOk s'.
Proof.
  unfold full, tables. intros [= Es Eh Ed Ee] [A B C D E]. unfold liveHost, serversOf in *.
  split; unfold liveHost, serversOf; rewrite ?Es, ?Eh, ?Ed, ?Ee; auto.
Qed.

(** Room for a row of a server on a host. *)
Definition placed (v : Server) (hostId : string) (s : DbState) : Prop := dbOk s /\ v ∈ serversOf s /\ liveHost hostId s.

Lemma placed_full v hostId s s' : full s' = full s -> placed v hostId s -> placed v hostId s'.
Proof.
  intros E (A & B & C). split; [by eapply dbOk_full|]. unfold full, tables in E. injection E as Es Eh _ _. unfold serversOf, liveHost in *. by rewrite Es, Eh.
Qed.

Lemma placed_calm {A} v hostId (m : MB A) : keeps (same full) m -> keeps (preserves (placed v hostId)) m.
Proof. apply same_preserves. apply placed_full. Qed.

(** What keeps the tables and the grants apart keeps everything. *)
Lemma placed_step {A} v hostId (m : MB A) : keeps (same tables) m -> keeps (preserves (fun s => forall k, tenantGrants (b_engines s k))) m ->
  keeps (preserves (placed v hostId)) m.
Proof.
  intros Ht Hq s r s' E ([A1 B1 C1 D1 E1] & B & C). pose proof (Ht _ _ _ E) as T. specialize (Hq _ _ _ E E1).
  unfold same, tables in T. injection T as Es Eh Ed. unfold placed, serversOf, liveHost in *. rewrite Es, Eh.
  split; [|done]. split; unfold serversOf, liveHost; rewrite ?Es, ?Eh, ?Ed; auto.
Qed.

Lemma insertDatabase_placed d v bytes suffix x : sv_id v = db_serverId d -> sv_shortId v = generateShortId bytes ->
  db_database d = databaseName (sv_shortId v) suffix -> db_username d = usernameFor (sv_shortId v) x -> identifier 32 suffix = true -> String.length x = 3%nat ->
  keeps (preserves (placed v (db_hostId d))) (insertDatabase d).
Proof.
  intros Hv Hb Hd Hu Hs Hx. unfold insertDatabase. keeps_auto. intros s r s' [= _ <-] ([A B C D E] & Hin & Hl). split; [|done].
  split; unfold serversOf, liveHost in *; simpl; try done.
  - intros y [Hy| ->%list_elem_of_singleton]%elem_of_app; [auto|]. by exists v, suffix, x.
  - intros y [Hy| ->%list_elem_of_singleton]%elem_of_app; auto.
Qed.

Lemma sanitizeSuffix_safe name : identifier 32 (sanitizeSuffix name) = true.
Proof. unfold sanitizeSuffix. cbv zeta. destruct (identifier 32 (toLowerCase _)) eqn:E; [done|reflexivity]. Qed.

Lemma resolveB_server actor id s acc s' : resolveB actor id s = (Ok acc, s') -> ra_server acc ∈ serversOf s.
Proof.
  unfold resolveB, onControlB, resolveC, onAccess. destruct (resolve _ _ _ _ _) as [r a] eqn:E. intros [= -> _]. unfold resolve in E. rewrite bind_gets in E.
  unfold serversOf. destruct (fetchOwned _ _ _ _) as [v|] eqn:Ef; [|done]. apply findFirst_some in Ef as [Hin _]. unfold orThrow in E. rewrite bind_ret in E.
  destruct (xa_isAdmin actor); [by injection E as <- _|]. destruct (sv_ownerId v =s xa_id actor); [by injection E as <- _|].
  apply bind_ok in E as (p & s1 & _ & E). by injection E as <- _.
Qed.

Lemma pickHost_live s id s' : pickHostWithCapacity s = (Ok id, s') ->
  s' = s /\ exists h, h ∈ b_hosts s /\ dh_id h = id /\ dh_deletedAt h = None /\ hasRoom s h = true.
Proof.
  unfold pickHostWithCapacity. rewrite bind_gets. set (l := List.filter _ _). pose proof (sortBy_perm (byLoad s) l) as P.
  destruct (sortBy (byLoad s) l) as [|h t]; [done|]. intros [= <- <-]. split; [done|]. exists h.
  assert (h ∈ l) as Hh by (rewrite <- P; by apply elem_of_cons; left).
  apply list_elem_of_In, filter_In in Hh as [Hh Hr]. apply filter_In in Hh as [Hh Hd]. apply bool_decide_eq_true in Hd. by apply list_elem_of_In in Hh.
Qed.

Lemma uniqueDbUsername_shape k hostId sid s u s' : uniqueDbUsername k hostId sid s = (Ok u, s') -> exists x, u = usernameFor sid x /\ String.length x = 3%nat.
Proof.
  revert s. induction k as [|k IH]; intros s E; simpl in E; mok. subst. destruct (existsb _ _); [by eapply IH|]. mok. subst. eexists. split; [done|]. apply bytes3_length.
Qed.

Lemma record_placed actor v hostId suffix x p host bytes : sv_shortId v = generateShortId bytes -> identifier 32 suffix = true -> String.length x = 3%nat ->
  keeps (preserves (placed v hostId)) (recordDatabase crypto actor v hostId (databaseName (sv_shortId v) suffix) (usernameFor (sv_shortId v) x) p host).
Proof.
  intros Hb Hs Hx. unfold recordDatabase, nowB. keeps_auto; try (apply placed_calm; auto with keeps; fail).
  match goal with |- keeps _ (insertDatabase ?d) => by apply (insertDatabase_placed d v bytes suffix x) end.
Qed.

Lemma drop_placed v hostId host d u r : keeps (preserves (placed v hostId)) (dropDatabaseAndUser host d u r).
Proof. apply placed_step; [apply dropDbUser_tables|]. apply dropDbUser_keeps; intros e; by apply tenant_other. Qed.

Lemma provision_placed v hostId host suffix x p bytes : sv_shortId v = generateShortId bytes ->
  keeps (preserves (placed v hostId)) (createDatabaseAndUser host (databaseName (sv_shortId v) suffix) (usernameFor (sv_shortId v) x) p REMOTE).
Proof.
  intros ->. apply placed_step; [apply createDbUser_tables|].
  apply createDbUser_keeps; intros e; [by apply tenant_other|by apply tenant_other|by apply tenant_grant|by apply tenant_other].
Qed.

(** A bind whose first part leaves tables and engines alone. *)
Lemma bind_calm {A B} v hostId (m : MB A) (k : A -> MB B) s r s' : keeps (same full) m -> (m ≫= k) s = (r, s') -> placed v hostId s ->
  placed v hostId s' \/ exists a s1, m s = (Ok a, s1) /\ placed v hostId s1 /\ k a s1 = (r, s').
Proof.
  intros Hm E Hp. apply bind_inv in E as [(e & E & _)|(a & s1 & E1 & E)]; [left|right; exists a, s1; split_and!; [done| |done]];
    by eapply (placed_calm _ _ _ Hm).
Qed.

Lemma provisionAndRecord_placed actor v hostId suffix x p host bytes : sv_shortId v = generateShortId bytes -> identifier 32 suffix = true -> String.length x = 3%nat ->
  keeps (preserves (placed v hostId)) (createDatabaseAndUser host (databaseName (sv_shortId v) suffix) (usernameFor (sv_shortId v) x) p REMOTE ;;
    tryCatch (recordDatabase crypto actor v hostId (databaseName (sv_shortId v) suffix) (usernameFor (sv_shortId v) x) p host)
      (fun err => tryCatch (dropDatabaseAndUser host (databaseName (sv_shortId v) suffix) (usernameFor (sv_shortId v) x) REMOTE) (fun _ => mret tt) ;; throw err)).
Proof.
  intros Hb Hs Hx. apply keeps_bind; [typeclasses eauto|by eapply provision_placed|intros _].
  apply keeps_tryCatch; [typeclasses eauto|by eapply record_placed|intros err]. keeps_auto. apply drop_placed.
Qed.

Lemma createDatabase_ok actor id name : keeps (preserves dbOk) (createDatabase crypto actor id name).
Proof.
  intros s r s' E Ok. unfold createDatabase in E. apply bind_inv in E as [(e & E & _)|(acc & s1 & E1 & E)].
  { eapply dbOk_full; [|done]. by eapply resolveB_full. }
  assert (dbOk s1) as Ok1 by (eapply dbOk_full; [by eapply resolveB_full|done]).
  assert (ra_server acc ∈ serversOf s1) as Hin.
  { pose proof (resolveB_full _ _ _ _ _ E1) as F. unfold same, full, tables in F. injection F as F _ _ _. unfold serversOf. rewrite F.
    by eapply resolveB_server. }
  apply bind_throwIf_inv in E as [(_ & _ & ->)|(_ & E)]; [done|]. rewrite bind_gets in E.
  apply bind_throwIf_inv in E as [(_ & _ & ->)|(_ & E)]; [done|]. apply bind_inv in E as [(e & E & _)|(hostId & s2 & E2 & E)].
  { unfold pickHostWithCapacity in E. rewrite bind_gets in E. destruct (sortBy _ _); by injection E as _ <-. }
  apply pickHost_live in E2 as (-> & h & Hh & Hid & Hd & _). destruct (vo_shapes _ (do_servers _ Ok1) _ Hin) as [bytes Hb].
  assert (placed (ra_server acc) hostId s1) as Hp by (split_and!; [done|done|by exists h]).
  enough (placed (ra_server acc) hostId s') as [? _] by done.
  apply (bind_calm (ra_server acc) hostId) in E as [?|(host & s2 & _ & Hp2 & E)]; [done| |auto with keeps|done]. cbv zeta in E.
  apply (bind_calm (ra_server acc) hostId) in E as [?|(n & s3 & _ & Hp3 & E)]; [done| |auto with keeps|done]. cbv zeta in E.
  apply (bind_calm (ra_server acc) hostId) in E as [?|(u & s4 & Eu & Hp4 & E)]; [done| |auto with keeps|done].
  apply uniqueDbUsername_shape in Eu as (x & -> & Hx). exact (provisionAndRecord_placed _ _ _ _ _ _ _ _ Hb (sanitizeSuffix_safe _) Hx _ _ _ E Hp4).
Qed.

(** ** The other operations *)

Lemma dbOk_calm {A} (m : MB A) : keeps (same full) m -> keeps (preserves dbOk) m.
Proof. apply same_preserves. apply dbOk_full. Qed.

Lemma dbOk_step {A} (m : MB A) : keeps (same tables) m -> keeps (preserves (fun s => forall k, tenantGrants (b_engines s k))) m -> keeps (preserves dbOk) m.
Proof.
  intros Ht Hq s r s' E [A1 B1 C1 D1 E1]. pose proof (Ht _ _ _ E) as T. specialize (Hq _ _ _ E E1). unfold same, tables in T. injection T as Es Eh Ed.
  unfold serversOf, liveHost in *. split; unfold serversOf, liveHost; rewrite ?Es, ?Eh, ?Ed; auto.
Qed.

Lemma drop_ok host d u r : keeps (preserves dbOk) (dropDatabaseAndUser host d u r).
Proof. apply dbOk_step; [apply dropDbUser_tables|]. apply dropDbUser_keeps; intros e; by apply tenant_other. Qed.

Lemma rows_removed (p : Database -> bool) s : dbOk s -> dbOk (s <| b_databases := List.filter p (b_databases s) |>).
Proof.
  intros [A B C D E]. split; try done; intros d [Hd _]%list_elem_of_In%filter_In; apply list_elem_of_In in Hd; [by apply C|by apply D].
Qed.

Lemma deleteDatabase_ok actor id databaseId : keeps (preserves dbOk) (deleteDatabase crypto actor id databaseId).
Proof.
  unfold deleteDatabase. keeps_auto; try (apply dbOk_calm; auto with keeps; fail); [apply drop_ok|]. intros s r s' [= _ <-]. exact (rows_removed _ s).
Qed.

Lemma removeServerDb_ok id : keeps (preserves dbOk) (removeServerDatabases crypto id).
Proof.
  unfold removeServerDatabases, deleteAllForServer, dropOne. keeps_auto; try (apply dbOk_calm; auto with keeps; fail); [apply drop_ok|].
  intros s r s' [= _ <-] Ok. apply (rows_removed (fun d => negb (db_serverId d =s id))) in Ok. destruct Ok as [[A1 A2 A3] B C D E].
  split; unfold serversOf, liveHost in *; simpl in *; try done.
  - split; [by apply NoDup_map_filter|by apply NoDup_map_filter|]. intros v [Hv _]%list_elem_of_In%filter_In. apply A3. by apply list_elem_of_In.
  - intros d Hd. destruct (C d Hd) as (v & sf & x & Hv & Hi & Hn). exists v, sf, x. split; [|done]. apply list_elem_of_In, filter_In.
    split; [by apply list_elem_of_In|]. apply list_elem_of_In, filter_In in Hd as [_ Hd]. by rewrite Hi.
Qed.

(** Hosts may change as long as those in use stay. *)
Lemma hosts_changed s hs : dbOk s -> NoDup (map dh_id hs) ->
  (forall h d, h ∈ b_hosts s -> dh_deletedAt h = None -> d ∈ b_databases s -> db_hostId d = dh_id h -> exists h', h' ∈ hs /\ dh_id h' = dh_id h /\ dh_deletedAt h' = None) ->
  dbOk (s <| b_hosts := hs |>).
Proof.
  intros [A B C D E] Hn Hh. split; try done. intros d Hd. destruct (D d Hd) as (h & H1' & H2' & H3'). destruct (Hh h d) as (h' & ? & ? & ?); try done.
  exists h'. split; [done|]. split; [congruence|done].
Qed.

Definition exceptHosts (s : DbState) := (serversOf s, b_databases s, b_engines s).

Lemma hostTransaction_ok {A} (m : MB A) : keeps (same exceptHosts) m -> keeps (preserves dbOk) m -> keeps (preserves dbOk) (hostTransaction m).
Proof.
  intros Hs Hm s r s'. unfold hostTransaction. destruct (m s) as [[a|e] s1] eqn:E; intros [= _ <-]; [by eapply Hm|].
  apply Hs in E. unfold same, exceptHosts in E. injection E as E1 E2 E3. intros Ok. apply (dbOk_full s); [|done]. unfold full, tables, serversOf in *. simpl. congruence.
Qed.

Lemma full_except {A} (m : MB A) : keeps (same full) m -> keeps (same exceptHosts) m.
Proof. intros Hm s r s' E. apply Hm in E. unfold same, full, tables in E. injection E as E1 _ E2 E3. unfold same, exceptHosts, serversOf. congruence. Qed.

Lemma hostAdded created s : existsb (fun h => dh_id h =s dh_id created) (b_hosts s) = false -> dbOk s -> dbOk (s <| b_hosts := b_hosts s ++ [created] |>).
Proof.
  intros Ht Ok. apply hosts_changed; [done| |].
  - rewrite map_app. apply NoDup_app. split_and!; [apply Ok| |apply NoDup_singleton]. intros x Hx ->%list_elem_of_singleton.
    apply list_elem_of_In, in_map_iff in Hx as (h & Eh & Hh). assert (existsb (fun h => dh_id h =s dh_id created) (b_hosts s) = true) as F; [|congruence].
    apply existsb_exists. exists h. split; [done|]. by rewrite bool_decide_eq_true_2.
  - intros h d Hh Hd _ _. exists h. split_and!; [apply elem_of_app; by left|done|done].
Qed.

(** An update of one host that keeps its id and its deletion date. *)
Lemma hostUpdated id f s : (forall h, dh_id (f h) = dh_id h) -> (forall h, dh_deletedAt (f h) = dh_deletedAt h) -> dbOk s ->
  dbOk (s <| b_hosts := updId id f (b_hosts s) |>).
Proof.
  intros Hi Hd Ok. apply hosts_changed; [done| |].
  - change dh_id with (@rid DatabaseHost _). rewrite updId_rids by done. apply Ok.
  - intros h d Hh Hn _ _. exists (if dh_id h =s id then f h else h). split; [|by destruct (dh_id h =s id); rewrite ?Hi, ?Hd].
    apply updId_elem; [apply Ok|]. by exists h.
Qed.

Lemma hostPassword_ok created password : keeps (preserves dbOk) (
  enc ← encryptB crypto password (hostAad (dh_id created)); keyVersion ← lift (smallInt (envelopeVersion enc));
  modify (fun s => s <| b_hosts := updId (dh_id created) (withPassword enc keyVersion) (b_hosts s) |>) ;; mret (withPassword enc keyVersion created)).
Proof. keeps_auto; [apply dbOk_calm, encryptB_full|]. intros s r s' [= _ <-]. intros Ok. by apply (hostUpdated _ (withPassword a a0)). Qed.

Lemma createHost_ok dto : keeps (preserves dbOk) (createHost crypto dto).
Proof.
  unfold createHost. apply keeps_bind; [typeclasses eauto| |intros _].
  { apply dbOk_step; unfold testConnection, withConnection.
    - keeps_auto; [apply mysqlRequest_tables|]. apply keeps_tryFinally; [typeclasses eauto|apply mysqlRequest_tables..].
    - keeps_auto; [apply connect_keeps|]. apply keeps_tryFinally; [typeclasses eauto| |apply endConn_keeps]. apply query_keeps. intros e. by apply tenant_other. }
  apply hostTransaction_ok; unfold nowB.
  - keeps_auto; try (apply full_except; auto with keeps; fail); by intros s r s' [= _ <-].
  - apply keeps_bind; [typeclasses eauto|apply dbOk_calm, freshB_full|intros n]. apply keeps_bind; [typeclasses eauto|apply keeps_gets; typeclasses eauto|intros now].
    cbv zeta. set (created := mkHost _ _ _ _ _ _ _ _ _ _ _).
    apply keeps_bind; [typeclasses eauto|apply keeps_gets; typeclasses eauto|intros known].
    apply keeps_bind; [typeclasses eauto|apply keeps_throwIf; typeclasses eauto|intros _].
    apply keeps_bind; [typeclasses eauto|apply keeps_throwIf; typeclasses eauto|intros _].
    intros s r s' E. rewrite bind_gets in E. apply bind_throwIf_inv in E as [(_ & _ & ->)|(Ht & E)]; [done|].
    intros Ok. apply bind_inv in E as [(e & [=] & _)|(u & s1 & [= _ <-] & E)].
    exact (hostPassword_ok created _ _ _ _ E (hostAdded _ _ Ht Ok)).
Qed.

Lemma getHost_live id s h s' : getHost id s = (Ok h, s') -> s' = s /\ h ∈ b_hosts s /\ dh_id h = id /\ dh_deletedAt h = None.
Proof.
  unfold getHost. rewrite bind_gets. intros [E ->]%orThrow_ok. apply findFirst_some in E as [Hin E]. rewrite andb_true_iff, !bool_decide_eq_true in E. tauto.
Qed.

Lemma updateHost_ok id dto : keeps (preserves dbOk) (updateHost id dto).
Proof.
  intros s r s' E Ok. unfold updateHost in E. apply bind_inv in E as [(e & E & _)|(h & s1 & E1 & E)].
  { eapply dbOk_full; [|done]. by eapply getHost_full. }
  apply getHost_live in E1 as (-> & Hin & Hid & Hd). apply bind_inv in E as [(e & [= _ <-] & _)|(h' & s1 & E1 & E)]; [done|].
  injection E1 as E1 <-. apply bind_throwIf_inv in E as [(_ & _ & ->)|(_ & E)]; [done|]. injection E as _ <-.
  assert (dh_id h' = id /\ dh_deletedAt h' = None) as [Hid' Hd'] by (unfold patchedHost in E1; by patches E1).
  apply hosts_changed; [done| |].
  - change dh_id with (@rid DatabaseHost _). rewrite (replace_rids id h h'); [apply Ok| |done]. rewrite <- Hid. apply findId_unique; [apply Ok|done].
  - intros x d Hx Hn _ _. exists (if dh_id x =s id then h' else x). split.
    + apply updId_elem; [apply Ok|]. by exists x.
    + case_bool_decide; [split; congruence|done].
Qed.

Lemma removeHost_ok id : keeps (preserves dbOk) (removeHost id).
Proof.
  intros s r s' E Ok. unfold removeHost, nowB in E. apply bind_inv in E as [(e & E & _)|(h & s1 & E1 & E)].
  { eapply dbOk_full; [|done]. by eapply getHost_full. }
  apply getHost_live in E1 as (-> & Hin & Hid & Hd). rewrite bind_gets in E. apply bind_throwIf_inv in E as [(_ & _ & ->)|(Hz & E)]; [done|].
  rewrite bind_gets in E. injection E as _ <-. apply hosts_changed; [done| |].
  - change dh_id with (@rid DatabaseHost _). rewrite updId_rids by done. apply Ok.
  - intros x d Hx Hn Hdb He. exists x. split_and!; [|done|done]. apply updId_elem; [apply Ok|]. exists x. split; [done|].
    rewrite bool_decide_eq_false_2; [done|]. intros Ex. apply Z.ltb_ge in Hz. unfold databasesOn, countWhere in Hz.
    assert (d ∈ List.filter (fun d => db_hostId d =s id) (b_databases s)) as Hf.
    { apply list_elem_of_In, filter_In. split; [by apply list_elem_of_In|]. rewrite bool_decide_eq_true_2; [done|]. rewrite He. exact Ex. }
    destruct (List.filter _ _); [by apply not_elem_of_nil in Hf|simpl in Hz; lia].
Qed.

Lemma runDb_ok op s : authenticDb op s -> dbOk s -> dbOk (runDb crypto op s).
Proof.
  intros Ha Ok. destruct op; simpl in *.
  - destruct (createHost crypto dto s) eqn:E. by eapply createHost_ok.
  - destruct (updateHost id dto s) eqn:E. by eapply updateHost_ok.
  - destruct (removeHost id s) eqn:E. by eapply removeHost_ok.
  - destruct (createDatabase crypto actor serverId name s) eqn:E. by eapply createDatabase_ok.
  - destruct (deleteDatabase crypto actor serverId databaseId s) eqn:E. by eapply deleteDatabase_ok.
  - destruct (removeServerDatabases crypto serverId s) eqn:E. by eapply removeServerDb_ok.
  - destruct Ha as [Ha Hk], Ok as [A B C D E]. split; unfold serversOf in *; simpl; try done. intros d Hd.
    destruct (C d Hd) as (v & sf & x & Hv & Hi & Hn & Hu). destruct (Hk d v Hd Hv Hi) as (v' & Hv' & Ei & Es). exists v', sf, x. rewrite Es. split_and!; try done; [congruence|apply Hu..].
  - destruct Ok as [A B C D E]. split; try done. simpl. intros k'. case_bool_decide as Ek; [|apply E]. intros sid x r p Hs. rewrite Ha. by apply E.
Qed.

Lemma runDbs_ok ops s : authenticDbs crypto ops s -> dbOk s -> dbOk (runDbs crypto ops s).
Proof. revert s. induction ops as [|op ops IH]; intros s; simpl; [done|]. intros [Ha Has] Ok. apply IH; [done|]. by apply runDb_ok. Qed.

(** C19: a customer's database credentials reach only that customer's schemas.  Whatever requests,
    administration, changes of servers and statements of customers interleave, the account of a
    database of one server is granted no schema of another server, on any MySQL server: not
    through a wildcard in a grant, not through two registrations of one MySQL server, and not
    after failures half way through. *)
Theorem tenant_databases_isolated ops s d1 d2 k r : dbOk s -> authenticDbs crypto ops s ->
  d1 ∈ b_databases (runDbs crypto ops s) -> d2 ∈ b_databases (runDbs crypto ops s) -> db_serverId d1 <> db_serverId d2 ->
  reaches (b_engines (runDbs crypto ops s) k) (db_username d1) r (db_database d2) = false.
Proof.
  intros Ok Ha H1' H2' Hne. apply (runDbs_ok ops) in Ok; [|done]. set (s' := runDbs crypto ops s) in *.
  destruct (do_rows _ Ok d1 H1') as (v1 & sf1 & x1 & Hv1 & Hi1 & _ & Hu & _). destruct (do_rows _ Ok d2 H2') as (v2 & sf2 & x2 & Hv2 & Hi2 & Hn & _).
  destruct (vo_shapes _ (do_servers _ Ok) v1 Hv1) as [b1 Hb1], (vo_shapes _ (do_servers _ Ok) v2 Hv2) as [b2 Hb2].
  apply not_true_iff_false. intros (p & Hg & Hl)%reach_granted. rewrite Hu in Hg. rewrite Hn in Hl. unfold usernameFor, databaseName in *.
  rewrite Hb1 in Hg. rewrite Hb2 in Hl. destruct (lower_shortId b1) as [_ S1], (lower_shortId b2) as [_ S2].
  apply (do_engines _ Ok) in Hg as [y ->]; [|done]. apply like_tenant in Hl; [|done|done]. apply lower_shortId_inj in Hl.
  apply Hne. rewrite <- Hi1, <- Hi2. f_equal. apply (NoDup_map_inj sv_shortId (serversOf s')); [apply Ok|done|done|congruence].
Qed.

End Isolation.

(** ** What the statements leave behind *)

Lemma allChars_ident_hex x : allChars identChar (hex x) = true.
Proof.
  induction x as [|c x IH]; [done|]. simpl. rewrite IH, andb_true_r. apply andb_true_iff.
  assert (forall n, (n < 16)%N -> identChar (hexDigit n) = true) as Hd.
  { intros n Hn. assert (forallb (fun k => identChar (hexDigit (N.of_nat k))) (seq 0 16) = true) as F by reflexivity.
    rewrite forallb_forall in F. specialize (F (N.to_nat n)). rewrite N2Nat.id in F. apply F, in_seq. lia. }
  pose proof (code_bound c). split; apply Hd; [apply N.Div0.div_lt_upper_bound|apply N.mod_lt]; lia.
Qed.

Lemma hex_length x : String.length (hex x) = (2 * String.length x)%nat.
Proof. induction x as [|c x IH]; simpl; [done|]. rewrite IH. lia. Qed.

Lemma shortIdChar_ident c : shortIdChar c = true -> identChar c = true.
Proof. unfold shortIdChar, identChar. by destruct (isDigit c), (isLower c). Qed.

Section Provisioning.
Context `{AsciiLower} `{Secrets} `{GcmLaws} `{MysqlLaws} `{MysqlNetwork} `{DrawLaws} (crypto : CryptoService).

Lemma shortId_ident bytes : allChars identChar (toLowerCase (generateShortId bytes)) = true.
Proof. destruct (lower_shortId bytes) as [_ [_ Hc]%andb_true_iff]. eapply allChars_impl; [|exact Hc]. apply shortIdChar_ident. Qed.

(** Every generated name passes the client's check. *)
Lemma databaseName_safe bytes suffix : identifier 32 suffix = true -> identifier 64 (databaseName (generateShortId bytes) suffix) = true.
Proof.
  intros [[H1' H2']%andb_true_iff H3']%andb_true_iff. unfold identifier, databaseName. rewrite !append_length, !allChars_app, shortId_ident, H3'.
  rewrite (shaped_length _ (proj2 (lower_shortId bytes))). apply Nat.leb_le in H1', H2'. simpl String.length.
  rewrite (proj2 (Nat.leb_le _ _)), (proj2 (Nat.leb_le _ _)) by lia. reflexivity.
Qed.

Lemma usernameFor_safe bytes x : String.length x = 3%nat -> identifier 64 (usernameFor (generateShortId bytes) x) = true.
Proof.
  intros Hx. unfold identifier, usernameFor. rewrite !append_length, !allChars_app, shortId_ident, allChars_ident_hex, hex_length, Hx.
  by rewrite (shaped_length _ (proj2 (lower_shortId bytes))).
Qed.

Lemma named_safe vs d : serversOk vs -> named vs d -> identifier 64 (db_database d) = true /\ identifier 64 (db_username d) = true.
Proof.
  intros Hvs (v & sf & x & Hv & _ & -> & -> & Hs & Hx). destruct (vo_shapes _ Hvs v Hv) as [b ->]. split; [by apply databaseName_safe|by apply usernameFor_safe].
Qed.

(** Carrying out one request after another on the engine of a host. *)
Definition executed (host : HostCredentials) (sts : list Statement) (s s' : DbState) : Prop :=
  tables s' = tables s /\ b_control s' = b_control s /\
  forall k, b_engines s' k = if k =s address host then fold_left execute sts (b_engines s k) else b_engines s k.

Lemma executed_trans host a b s s1 s2 : executed host a s s1 -> executed host b s1 s2 -> executed host (a ++ b) s s2.
Proof.
  intros (T1 & C1 & E1) (T2 & C2 & E2). split_and!; [congruence|congruence|]. intros k. rewrite E2, E1. case_bool_decide; [by rewrite fold_left_app|done].
Qed.

Lemma mysqlRequest_ok host req eff wrap s u s' : mysqlRequest host req eff wrap s = (Ok u, s') ->
  tables s' = tables s /\ b_control s' = b_control s /\ forall k, b_engines s' k = if k =s address host then eff (b_engines s k) else b_engines s k.
Proof. by intros [(A & B & C & _)|(_ & _ & (e & [=]) & _)]%mysqlRequest_inv. Qed.

Lemma query_ok host st s u s' : query host st s = (Ok u, s') -> executed host [st] s s'.
Proof. apply mysqlRequest_ok. Qed.

Lemma idle_ok host req wrap s u s' : mysqlRequest host req (fun e => e) wrap s = (Ok u, s') -> executed host [] s s'.
Proof. apply mysqlRequest_ok. Qed.

Lemma withConnection_ok host body sts s u s' : (forall s u s', body s = (Ok u, s') -> executed host sts s s') ->
  withConnection host body s = (Ok u, s') -> executed host sts s s'.
Proof.
  intros Hb E. unfold withConnection in E. apply bind_ok in E as (? & s1 & E1 & E). apply idle_ok in E1. unfold tryFinally in E.
  destruct (body s1) as [r s2] eqn:E2. destruct (endConn host s2) as [[v|e] s3] eqn:E3; [|done]. injection E as -> ->. apply Hb in E2. apply idle_ok in E3.
  rewrite <- (app_nil_r sts). eapply executed_trans; [|exact E3]. by apply (executed_trans host [] sts s s1 s2).
Qed.

Lemma createDbUser_ok host d u p r s x s' : createDatabaseAndUser host d u p r s = (Ok x, s') ->
  executed host [CREATE_DATABASE d; CREATE_USER u r p; GRANT_ALL d u r; FLUSH_PRIVILEGES] s s'.
Proof.
  unfold createDatabaseAndUser, assertSafeIdentifier. intros E. apply bind_ok in E as (? & ? & [_ ->]%throwIf_ok & E). apply bind_ok in E as (? & ? & [_ ->]%throwIf_ok & E).
  revert E. apply withConnection_ok. clear. intros s u0 s' E.
  apply bind_ok in E as (? & s1 & E1%query_ok & E). apply bind_ok in E as (? & s2 & E2%query_ok & E). apply bind_ok in E as (? & s3 & E3%query_ok & E4%query_ok).
  exact (executed_trans _ _ _ _ _ _ E1 (executed_trans _ _ _ _ _ _ E2 (executed_trans _ _ _ _ _ _ E3 E4))).
Qed.

Lemma dropDbUser_ok host d u r s x s' : dropDatabaseAndUser host d u r s = (Ok x, s') ->
  executed host [DROP_DATABASE d; DROP_USER u r; FLUSH_PRIVILEGES] s s'.
Proof.
  unfold dropDatabaseAndUser, assertSafeIdentifier. intros E. apply bind_ok in E as (? & ? & [_ ->]%throwIf_ok & E). apply bind_ok in E as (? & ? & [_ ->]%throwIf_ok & E).
  revert E. apply withConnection_ok. clear. intros s u0 s' E.
  apply bind_ok in E as (? & s1 & E1%query_ok & E). apply bind_ok in E as (? & s2 & E2%query_ok & E3%query_ok).
  exact (executed_trans _ _ _ _ _ _ E1 (executed_trans _ _ _ _ _ _ E2 E3)).
Qed.

(** When the network is up, a drop with safe names succeeds. *)
Lemma dropDbUser_up host d u r s : (forall sent, mysqlOutcome sent = MyDone) -> identifier 64 d = true -> identifier 64 u = true ->
  exists s', dropDatabaseAndUser host d u r s = (Ok tt, s').
Proof.
  intros Hup Hd Hu. assert (forall req eff wrap s, exists s', mysqlRequest host req eff wrap s = (Ok tt, s')) as R by (intros; unfold mysqlRequest; rewrite Hup; eauto).
  unfold dropDatabaseAndUser, assertSafeIdentifier. rewrite Hd, Hu. unfold throwIf. simpl. rewrite !bind_ret. unfold withConnection, connect, query, endConn.
  edestruct R as [s1 E1]. rewrite (bind_run _ _ _ _ _ E1). unfold tryFinally.
  edestruct R as [s2 E2]. rewrite (bind_run _ _ _ _ _ E2). edestruct R as [s3 E3]. rewrite (bind_run _ _ _ _ _ E3).
  edestruct R as [s4 E4]. rewrite E4. edestruct R as [s5 E5]. rewrite E5. eauto.
Qed.

(** Nothing of a database is left on an engine. *)
Definition absent (d u r : string) (e : Engine) : Prop := schema e d = None /\ account e u r = None.

Lemma dropped_absent host d u r s s' : executed host [DROP_DATABASE d; DROP_USER u r; FLUSH_PRIVILEGES] s s' -> absent d u r (b_engines s' (address host)).
Proof.
  intros (_ & _ & E). rewrite E, bool_decide_eq_true_2 by done. simpl. split; rewrite ?schema_effect, ?account_effect; by rewrite !bool_decide_eq_true_2.
Qed.

Lemma absent_drop d u r e st : match st with DROP_DATABASE _ | DROP_USER _ _ | FLUSH_PRIVILEGES => True | _ => False end ->
  absent d u r e -> absent d u r (execute e st).
Proof.
  intros Hst [A B]. split; rewrite ?schema_effect, ?account_effect; destruct st; try done; [by case_bool_decide|by destruct (_ && _)].
Qed.

(** A rejected creation is undone: if recording the new database fails while the MySQL server
    answers, neither the schema nor the account named by the request is left on it. *)
Theorem rejected_creation_undone actor v hostId database u p host s e s' : (forall sent, mysqlOutcome sent = MyDone) ->
  identifier 64 database = true -> identifier 64 u = true ->
  tryCatch (recordDatabase crypto actor v hostId database u p host)
    (fun err => tryCatch (dropDatabaseAndUser host database u REMOTE) (fun _ => mret tt) ;; throw err) s = (Throw e, s') ->
  absent database u REMOTE (b_engines s' (address host)).
Proof.
  intros Hup Hd Hu E. apply tryCatch_inv in E as [(a & _ & [=])|(err & s1 & _ & E)].
  destruct (dropDbUser_up host database u REMOTE s1 Hup Hd Hu) as [s2 E2]. unfold tryCatch, mbind, M_bind in E. rewrite E2 in E. injection E as _ <-.
  eapply dropped_absent. by eapply dropDbUser_ok.
Qed.

Lemma encryptB_ok plain aad s enc s' : encryptB crypto plain aad s = (Ok enc, s') -> exists n, encrypt crypto n plain aad = Ok enc.
Proof. unfold encryptB. intros E. apply bind_ok in E as (n & s1 & _ & E). apply lift_ok in E as [E _]. eauto. Qed.

Lemma decryptCredentials_ok id s host s' : decryptCredentials crypto id s = (Ok host, s') ->
  s' = s /\ exists h, h ∈ b_hosts s /\ dh_id h = id /\ dh_deletedAt h = None /\ address host = (dh_host h, dh_port h).
Proof.
  unfold decryptCredentials. intros E. apply bind_ok in E as (h & s1 & (-> & Hin & Hid & Hd)%getHost_live & E). mok. subst. split; [done|]. by exists h.
Qed.

Lemma insertDatabase_run d s u s' : insertDatabase d s = (Ok u, s') -> s' = s <| b_databases := b_databases s ++ [d] |>.
Proof. unfold insertDatabase. intros E. mok. by subst. Qed.

Lemma full_inv s s' : full s' = full s -> serversOf s' = serversOf s /\ b_hosts s' = b_hosts s /\ b_databases s' = b_databases s /\ b_engines s' = b_engines s.
Proof. unfold full, tables, serversOf. by intros [= -> -> -> ->]. Qed.

Lemma recordDatabase_ok actor v hostId database u p host s cd s' : recordDatabase crypto actor v hostId database u p host s = (Ok cd, s') ->
  exists d n, b_databases s' = b_databases s ++ [d] /\ db_serverId d = sv_id v /\ db_hostId d = hostId /\ db_id d = cd_id cd /\
    encrypt crypto n p (passwordAad (db_id d)) = Ok (db_passwordEnc d) /\
    cd = mkCreated (db_id d) database u p REMOTE (hc_host host) (hc_port host) /\
    serversOf s' = serversOf s /\ b_hosts s' = b_hosts s /\ b_engines s' = b_engines s.
Proof.
  unfold recordDatabase, nowB. intros E. apply bind_ok in E as (n & s1 & E1 & E). pose proof (full_inv _ _ (freshB_full _ _ _ E1)) as (A1 & A2 & A3 & A4).
  cbv zeta in E. apply bind_ok in E as (enc & s2 & E2 & E). pose proof (full_inv _ _ (encryptB_full _ _ _ _ _ _ E2)) as (B1 & B2 & B3 & B4).
  apply encryptB_ok in E2 as [m Em]. apply bind_ok in E as (kv & ? & [_ ->]%lift_ok & E). rewrite bind_gets in E.
  apply bind_ok in E as (? & s3 & E3%insertDatabase_run & E). apply bind_ok in E as (? & s4 & E4 & E).
  pose proof (full_inv _ _ (auditB_full _ _ _ _ _ _ E4)) as (C1 & C2 & C3 & C4). apply bind_ok in E as (? & s5 & E5 & E).
  pose proof (full_inv _ _ (activityB_full _ _ _ _ _ _ E5)) as (D1 & D2 & D3 & D4). injection E as <- <-. subst s3. unfold serversOf in *. simpl in *.
  eexists (mkDatabase _ _ _ _ _ _ _ _ _), m. simpl. split_and!; first [done|congruence|exact Em|rewrite D3, C3, B3, A3; reflexivity].
Qed.

(** What a customer gets.  A successful creation records one database, within the limit of the
    server and of the host; the host holds its schema, the account with the password shown (an
    account that was already there keeps its own), and the grant; and the stored password
    decrypts to the one shown. *)
Theorem created_database_works cfg actor id name s cd s' :
  onModuleInit cfg = Ok crypto -> 0 < cy_currentVersion crypto <= 2 ^ 53 -> createDatabase crypto actor id name s = (Ok cd, s') ->
  exists d v h, b_databases s' = b_databases s ++ [d] /\ db_id d = cd_id cd /\ v ∈ serversOf s /\ db_serverId d = sv_id v /\
    countWhere (fun x => db_serverId x =s sv_id v) (b_databases s') <= sv_maxDatabases v /\
    h ∈ b_hosts s' /\ db_hostId d = dh_id h /\ dh_deletedAt h = None /\ databasesOn (dh_id h) s' <= dh_maxDatabases h /\
    decrypt crypto (db_passwordEnc d) (passwordAad (db_id d)) = Ok (cd_password cd) /\
    exists e0 e, e0 = b_engines s (cd_host cd, cd_port cd) /\ e = b_engines s' (cd_host cd, cd_port cd) /\
      schema e (cd_database cd) = Some (default emptySchema (schema e0 (cd_database cd))) /\
      account e (cd_username cd) (cd_remote cd) = Some (default (cd_password cd) (account e0 (cd_username cd) (cd_remote cd))) /\
      granted e (cd_username cd) (cd_remote cd) (cd_database cd) = true.
Proof.
  intros Hi Hv E. unfold createDatabase in E. apply bind_ok in E as (acc & s1 & E1 & E). pose proof (resolveB_server _ _ _ _ _ E1) as Hin.
  apply (resolveB_full) in E1 as (A1 & A2 & A3 & A4)%full_inv. apply bind_ok in E as (? & ? & [_ ->]%throwIf_ok & E). cbv zeta in E. rewrite bind_gets in E.
  apply bind_ok in E as (? & ? & [Hlim ->]%throwIf_ok & E). apply bind_ok in E as (hostId & ? & (-> & h & Hh & Hid & Hd & Hroom)%pickHost_live & E).
  apply bind_ok in E as (host & ? & (-> & h' & Hh' & Hid' & Hd' & Ha)%decryptCredentials_ok & E). apply bind_ok in E as (n & s2 & E2 & E).
  apply freshB_full in E2 as (B1 & B2 & B3 & B4)%full_inv. cbv zeta in E. apply bind_ok in E as (u & s3 & E3 & E).
  apply uniqueDbUsername_full in E3 as (C1 & C2 & C3 & C4)%full_inv. apply bind_ok in E as (? & s4 & (T & _ & Eng)%createDbUser_ok & E).
  apply tryCatch_inv in E as [(a & E & [= <-])|(err & s5 & _ & E)].
  2:{ apply bind_ok in E as (? & ? & _ & E). done. }
  apply recordDatabase_ok in E as (d & m & D1 & D2 & D3 & D4 & D5 & -> & D6 & D7 & D8).
  unfold tables in T. injection T as T1 T2 T3. fold (serversOf s4) in *. unfold serversOf in *.
  exists d, (ra_server acc), h. cbn [cd_id cd_database cd_username cd_password cd_remote cd_host cd_port] in *.
  assert (b_databases s' = b_databases s ++ [d]) as Edb by (rewrite D1, T3, C3, B3, A3; reflexivity).
  split_and!; [done|done|done|done| | |congruence|done| | |].
  - rewrite Edb, countWhere_app. apply Z.leb_gt in Hlim. rewrite A3 in Hlim. unfold countWhere at 2. simpl. rewrite D2, bool_decide_eq_true_2 by done. simpl. lia.
  - rewrite D7, T2, C2, B2. done.
  - unfold hasRoom, databasesOn in Hroom. apply Z.ltb_lt in Hroom. rewrite A3 in Hroom. unfold databasesOn. rewrite Edb, countWhere_app. unfold countWhere at 2. simpl.
    rewrite D3, bool_decide_eq_true_2 by congruence. simpl. lia.
  - by destruct (decrypt_encrypted cfg crypto m (base64url (bytes24 n)) (passwordAad (db_id d)) (db_passwordEnc d) Hi Hv D5).
  - eexists _, _. split; [reflexivity|]. split; [reflexivity|]. rewrite D8, Eng, C4, B4, A4. unfold address. rewrite bool_decide_eq_true_2 by done. simpl.
    rewrite !schema_effect, !account_effect, !grant_effect, !bool_decide_eq_true_2 by done. split_and!; [done|done|]. by rewrite orb_true_r.
Qed.

(** ** Removing a server *)

(** The credentials of every host in use can be read. *)
Definition hostsReadable (s : DbState) : Prop :=
  forall h, h ∈ b_hosts s -> dh_deletedAt h = None -> exists p, decrypt crypto (dh_passwordEnc h) (hostAad (dh_id h)) = Ok p.

(** No engine at the address of a database's host has anything of it. *)
Definition goneFrom (s : DbState) (d : Database) : Prop :=
  forall h, h ∈ b_hosts s -> dh_id h = db_hostId d -> absent (db_database d) (db_username d) (db_remote d) (b_engines s (dh_host h, dh_port h)).

Lemma getHost_found id s h : NoDup (map dh_id (b_hosts s)) -> h ∈ b_hosts s -> dh_id h = id -> dh_deletedAt h = None -> getHost id s = (Ok h, s).
Proof.
  intros Hn Hin Hid Hd. unfold getHost. rewrite bind_gets. destruct (findFirst _ _) as [x|] eqn:E.
  - apply findFirst_some in E as [Hx E]. rewrite andb_true_iff, !bool_decide_eq_true in E. destruct E as [Ex _].
    assert (x = h) as ->; [|done]. apply (NoDup_map_inj dh_id (b_hosts s)); [done|done|done|congruence].
  - pose proof (findFirst_none _ _ E h Hin) as F. simpl in F. by rewrite !bool_decide_eq_true_2 in F.
Qed.

Lemma decrypt_readable id s : dbOk s -> hostsReadable s -> liveHost id s ->
  exists host h, decryptCredentials crypto id s = (Ok host, s) /\ h ∈ b_hosts s /\ dh_id h = id /\ address host = (dh_host h, dh_port h).
Proof.
  intros Ok Hr (h & Hin & Hid & Hd). destruct (Hr h Hin Hd) as [p Hp]. unfold decryptCredentials.
  rewrite (bind_run _ _ _ _ _ (getHost_found id s h (do_hosts _ Ok) Hin Hid Hd)). unfold lift, mbind, M_bind. rewrite Hp.
  eexists _, h. split; [reflexivity|done].
Qed.

(** One round of the loop. *)
Lemma dropOne_up d acc s : (forall sent, mysqlOutcome sent = MyDone) -> dbOk s -> hostsReadable s -> d ∈ b_databases s ->
  exists s', dropOne crypto acc d s = (Ok (acc.1 + 1, acc.2), s') /\ tables s' = tables s /\ goneFrom s' d /\ (forall x, goneFrom s x -> goneFrom s' x).
Proof.
  intros Hup Ok Hr Hd. destruct (decrypt_readable _ s Ok Hr (do_live _ Ok d Hd)) as (host & h & E & Hh & Hid & Ha).
  destruct (named_safe _ d (do_servers _ Ok) (do_rows _ Ok d Hd)) as [S1 S2].
  destruct (dropDbUser_up host (db_database d) (db_username d) (db_remote d) s Hup S1 S2) as [s' E'].
  exists s'. unfold dropOne, tryCatch. rewrite (bind_run _ _ _ _ _ E), (bind_run _ _ _ _ _ E'). pose proof (dropDbUser_ok _ _ _ _ _ _ _ E') as X.
  pose proof (dropped_absent _ _ _ _ _ _ X) as Hab. destruct X as (T & _ & _). split; [done|]. split; [done|].
  unfold tables in T. injection T as _ T2 _. split.
  - intros x Hx Hxi. rewrite T2 in Hx. assert (x = h) as -> by (apply (NoDup_map_inj dh_id (b_hosts s)); [apply Ok|done|done|congruence]). by rewrite <- Ha.
  - intros x Hg y Hy Hyi. rewrite T2 in Hy. specialize (Hg y Hy Hyi).
    assert (forall k, absent (db_database x) (db_username x) (db_remote x) (b_engines s k) -> absent (db_database x) (db_username x) (db_remote x) (b_engines s' k)) as K; [|by apply K].
    intros k Hk. pose proof (dropDbUser_ok _ _ _ _ _ _ _ E') as (_ & _ & Eng). rewrite Eng. case_bool_decide; [|done]. simpl. by repeat apply absent_drop.
Qed.

Lemma dropAll_up ds : forall acc s, (forall sent, mysqlOutcome sent = MyDone) -> dbOk s -> hostsReadable s -> (forall d, d ∈ ds -> d ∈ b_databases s) ->
  exists s', forFold ds acc (dropOne crypto) s = (Ok (acc.1 + Z.of_nat (List.length ds), acc.2), s') /\ tables s' = tables s /\
    (forall d, d ∈ ds -> goneFrom s' d) /\ (forall x, goneFrom s x -> goneFrom s' x).
Proof.
  induction ds as [|d ds IH]; intros acc s Hup Ok Hr Hds; simpl.
  - exists s. rewrite Z.add_0_r. destruct acc. split_and!; [done|done|by intros d ?%not_elem_of_nil|done].
  - destruct (dropOne_up d acc s Hup Ok Hr) as (s1 & E1 & T1 & G1 & K1); [apply Hds, elem_of_cons; by left|].
    assert (dbOk s1) as Ok1.
    { assert (keeps (preserves dbOk) (dropOne crypto acc d)) as K by (unfold dropOne; keeps_auto; [apply dbOk_calm; auto with keeps|apply drop_ok]). by eapply K. }
    pose proof T1 as T1'. unfold tables in T1'. injection T1' as Es Eh Ed.
    destruct (IH (acc.1 + 1, acc.2) s1 Hup Ok1) as (s2 & E2 & T2 & G2 & K2).
    + intros h Hh. rewrite Eh in Hh. by apply Hr.
    + intros x Hx. rewrite Ed. apply Hds, elem_of_cons. by right.
    + exists s2. rewrite (bind_run _ _ _ _ _ E1), E2. split_and!; [do 3 f_equal; cbn [fst]; lia|congruence| |auto].
      intros x [->|Hx]%elem_of_cons; auto.
Qed.

(** Removing a server while the MySQL servers answer leaves nothing of its databases: no row, no
    schema and no account, on any host; every database is counted and none is reported. *)
Theorem server_removal_drops_databases id s : (forall sent, mysqlOutcome sent = MyDone) -> dbOk s -> hostsReadable s ->
  exists s', removeServerDatabases crypto id s = (Ok (countWhere (fun d => db_serverId d =s id) (b_databases s), []), s') /\
    (forall d, d ∈ b_databases s' -> db_serverId d <> id) /\
    (forall d, d ∈ b_databases s -> db_serverId d = id -> goneFrom s' d).
Proof.
  intros Hup Ok Hr. unfold removeServerDatabases.
  destruct (dropAll_up (List.filter (fun d => db_serverId d =s id) (b_databases s)) (0, []) s Hup Ok Hr) as (s1 & E1 & T1 & G1 & _).
  { intros d [Hd _]%list_elem_of_In%filter_In. by apply list_elem_of_In. }
  assert (deleteAllForServer crypto id s = (Prelude.Ok (countWhere (fun d => db_serverId d =s id) (b_databases s), []), s1)) as E by exact E1.
  rewrite (bind_run _ _ _ _ _ E). eexists. split; [reflexivity|]. simpl. split.
  - intros d [_ Hd]%list_elem_of_In%filter_In. by apply negb_true_iff, bool_decide_eq_false in Hd.
  - intros d Hd Hi. apply G1. apply list_elem_of_In, filter_In. split; [by apply list_elem_of_In|]. by apply bool_decide_eq_true_2.
Qed.

End Provisioning.

(** ** Witnesses *)

Module DemoMysql.

Record Eng := mkEng { g_schemas : gmap string string; g_accounts : gmap (string * string) string; g_grants : gset (string * string * string) }.

Definition run (e : Eng) (st : Statement) : Eng :=
  match st with
  | CREATE_DATABASE n => mkEng (<[n := default "" (g_schemas e !! n)]> (g_schemas e)) (g_accounts e) (g_grants e)
  | CREATE_USER u r p => mkEng (g_schemas e) (<[(u, r) := default p (g_accounts e !! (u, r))]> (g_accounts e)) (g_grants e)
  | GRANT_ALL d u r => mkEng (g_schemas e) (g_accounts e) ({[(u, r, d)]} ∪ g_grants e)
  | DROP_DATABASE n => mkEng (delete n (g_schemas e)) (g_accounts e) (g_grants e)
  | DROP_USER u r => mkEng (g_schemas e) (delete (u, r) (g_accounts e)) (filter (fun x => x.1 <> (u, r)) (g_grants e))
  | SELECT_1 | FLUSH_PRIVILEGES => e
  end.

#[export] Instance engine : MysqlEngine :=
  {| Engine := Eng; Contents := string; emptySchema := ""; schema e n := g_schemas e !! n; account e u r := g_accounts e !! (u, r);
     granted e u r p := bool_decide ((u, r, p) ∈ g_grants e);
     reaches e u r n := existsb (fun g => (g.1 =s (u, r)) && sqlLike g.2 n) (elements (g_grants e)); execute := run |}.

#[export] Instance laws : MysqlLaws.
Proof.
  split; cbn.
  - intros e [] n; try done; cbn; case_bool_decide as E; subst; rewrite ?lookup_insert_eq, ?lookup_delete_eq; try done;
      [by rewrite lookup_insert_ne|by rewrite lookup_delete_ne].
  - intros e [] u r; try done; cbn; destruct (_ && _) eqn:E; rewrite ?andb_true_iff, ?bool_decide_eq_true in E.
    1,3: destruct E as [-> ->]; by rewrite ?lookup_insert_eq, ?lookup_delete_eq.
    all: rewrite ?lookup_insert_ne, ?lookup_delete_ne; try done; intros [= -> ->]; by rewrite !bool_decide_eq_true_2 in E.
  - intros e [] u r p; try done; cbn; apply eq_true_iff_eq; rewrite ?orb_true_iff, ?andb_true_iff, ?negb_true_iff, ?andb_false_iff, ?bool_decide_eq_true, ?bool_decide_eq_false.
    + set_solver.
    + rewrite elem_of_filter. simpl. split; [|naive_solver]. intros [Hn Hg]. split; [done|]. destruct (decide (user = u)); [|by left]. right. congruence.
  - intros e u r n (g & Hg & [E1%bool_decide_eq_true E2]%andb_true_iff)%existsb_exists. exists g.2. split; [|done].
    apply bool_decide_eq_true_2. apply list_elem_of_In, elem_of_elements in Hg. destruct g as [[] ]. simpl in *. by injection E1 as -> ->.
Qed.

(** Every request is carried out. *)
#[export] Instance network : MysqlNetwork := {| mysqlOutcome _ := MyDone |}.

#[export] Instance draws : DbDraws := {| bytes24 n := "secret-" +:+ pretty n; bytes3 n := String (ascii_of_N n) "xy" |}.

#[export] Instance drawLaws : DrawLaws.
Proof. by split. Qed.

Definition crypto : CryptoService := mkCrypto {[1 := unbase64 "b2xk"]} 1.

Definition server (id : string) (bytes : list Z) : Server := (DemoEdge.server id bytes) <| sv_maxDatabases := 2 |> <| sv_status := Srv_ready |>.

Definition access : AccessState := mkAccess [server "a" [1]; server "b" [2]] [] [] [] ∅ [] 10%N.

Definition start : DbState := mkDbState _ (mkControl access [] [] [] 5000) [] [] (fun _ => mkEng ∅ ∅ ∅) [].

Definition actor : AccessActor := mkActor "u" false.

Definition host : CreateHostDto := mkCreateHost "db1" "10.0.0.5" Unset "root" "hunter2" Unset (Val 10).

(** Two servers create a database of the same name. *)
Definition ops : list DbOp := [BCreateHost host; BCreate actor "a" (Val "world"); BCreate actor "b" (Val "world")].

(** One database, in which the customer has stored something. *)
Definition place : string * Z := ("10.0.0.5", 3306).
Definition one : DbState := @runDbs DemoEdge.platform DemoAuth.secrets DemoCrypto.gcm _ _ _ crypto [BCreateHost host; BCreate actor "a" (Val "world")] start.
Definition written (e : Eng) : Eng := mkEng (const "player data" <$> g_schemas e) (g_accounts e) (g_grants e).
Definition filled : DbState := one <| b_engines := fun k => written (b_engines one k) |>.

End DemoMysql.

#[local] Existing Instance DemoEdge.platform.
#[local] Existing Instance DemoEdge.lower.
#[local] Existing Instance DemoAuth.secrets.
#[local] Existing Instance DemoCrypto.gcm.
#[local] Existing Instance DemoCrypto.gcmLaws.
#[local] Existing Instance DemoMysql.engine.
#[local] Existing Instance DemoMysql.laws.
#[local] Existing Instance DemoMysql.network.
#[local] Existing Instance DemoMysql.draws.
#[local] Existing Instance DemoMysql.drawLaws.

Lemma demo_dbOk : dbOk DemoMysql.start.
Proof.
  split.
  - split; [apply (bool_decide_unpack _); reflexivity|apply (bool_decide_unpack _); reflexivity|].
    intros v Hv. cbn in Hv. rewrite !elem_of_cons, elem_of_nil in Hv. destruct Hv as [->|[->|[]]]; eexists; reflexivity.
  - apply NoDup_nil_2.
  - intros d Hd. by apply not_elem_of_nil in Hd.
  - intros d Hd. by apply not_elem_of_nil in Hd.
  - intros k sid x r p _ Hg. discriminate Hg.
Qed.

Lemma tenant_databases_isolated_witness :
  exists d1 d2, let s' := runDbs DemoMysql.crypto DemoMysql.ops DemoMysql.start in
    b_databases s' = [d1; d2] /\ db_hostId d1 = db_hostId d2 /\
    reaches (b_engines s' ("10.0.0.5", 3306)) (db_username d1) "%" (db_database d1) = true /\
    reaches (b_engines s' ("10.0.0.5", 3306)) (db_username d1) "%" (db_database d2) = false.
Proof.
  destruct (b_databases (runDbs DemoMysql.crypto DemoMysql.ops DemoMysql.start)) as [|d1 [|d2 [|]]] eqn:E; try (vm_compute in E; discriminate E).
  exists d1, d2. cbv zeta. split; [exact E|]. pose proof E as E'. vm_compute in E'. injection E' as E1 E2.
  split; [by subst|]. split; [subst; vm_compute; reflexivity|].
  apply (tenant_databases_isolated DemoMysql.crypto DemoMysql.ops DemoMysql.start d1 d2 ("10.0.0.5", 3306) "%" demo_dbOk).
  - repeat split.
  - rewrite E. apply elem_of_cons. by left.
  - rewrite E. apply elem_of_cons. right. apply elem_of_cons. by left.
  - subst. discriminate.
Defined.

(** Creating a database under the name of an existing one loses the existing one.  The request
    is rejected by the unique index on host and name, and the clean-up meant for what it had
    just provisioned drops the schema, which was there before: [CREATE DATABASE IF NOT EXISTS]
    had created nothing.  The row of the first database stays, without its data. *)
Theorem duplicate_name_destroys_database :
  exists d s', b_databases DemoMysql.filled = [d] /\
    schema (b_engines DemoMysql.filled DemoMysql.place) (db_database d) = Some "player data" /\
    createDatabase DemoMysql.crypto DemoMysql.actor "a" (Val "world") DemoMysql.filled =
      (Throw (UniqueViolation "databases_host_id_database_key"), s') /\
    b_databases s' = [d] /\ schema (b_engines s' DemoMysql.place) (db_database d) = None.
Proof.
  eexists _, (createDatabase DemoMysql.crypto DemoMysql.actor "a" (Val "world") DemoMysql.filled).2.
  split; [vm_compute; reflexivity|]. split; [vm_compute; reflexivity|]. split; [|split; vm_compute; reflexivity].
  etransitivity; [apply surjective_pairing|]. f_equal.
Qed.
