(* ===== verification/SigningKeys.v ===== *)
(** SigningKeys: the keys that sign capability tokens, and who accepts the tokens.

    [core/capability-token/capability-token.service.ts] with [ed25519.ts] (loading the current
    key, signing), [security/signing-keys.service.ts] and [security/jwks.controller.ts]
    (rotation, retirement, the published keys), and the verifying side in the node agent,
    [agent/internal/auth/jwt.go] with the refresh of [agent/cmd/pxagent/serve.go].  Ed25519 is a
    parameter; tokens reach the verifier parsed, as golang-jwt hands them over. *)

From S2P Require Import Prelude JsNum Capacity Store Scheduler Subscriptions JsString Servers Accounts Sessions Access Dto Fleet Crypto Controls.
From Stdlib Require Import Ascii String Lia.

Local Open Scope Z_scope.

(** ** Text *)

Definition hex2 (n : N) : string := String (hexDigit (n / 16)) (String (hexDigit (n mod 16)) "").

Definition escapeChar (c : ascii) : string :=
  if (code c =? 34)%N then String "\" (String c "")
  else if (code c =? 92)%N then "\\"
  else if (code c =? 8)%N then "\b" else if (code c =? 9)%N then "\t" else if (code c =? 10)%N then "\n"
  else if (code c =? 12)%N then "\f" else if (code c =? 13)%N then "\r"
  else if (code c <? 32)%N then "\u00" +:+ hex2 (code c) else String c "".

Fixpoint escaped (s : string) : string := match s with EmptyString => "" | String c s' => escapeChar c +:+ escaped s' end.

(** [JSON.stringify] of a string, of a property and of an object. *)
Definition jsonString (s : string) : string := quoted (escaped s).
Definition jsonProp (name value : string) : string := quoted name +:+ ":" +:+ value.
Definition jsonObject (props : list string) : string := "{" +:+ join "," props +:+ "}".
Definition jsonArray (items : list string) : string := "[" +:+ join "," items +:+ "]".

Fixpoint radix36 (fuel : nat) (n : N) (acc : string) : string :=
  match fuel with
  | O => acc
  | S fuel' => let acc' := String (hexDigit (n mod 36)) acc in if (n <? 36)%N then acc' else radix36 fuel' (n / 36) acc'
  end.

(** [n.toString(36)] of a timestamp; 13 digits hold 64 bits. *)
Definition toString36 (n : Z) : string := radix36 13 (Z.to_N n) "".

Example toString36_ex : toString36 1700000000000 = "loyw3v28".
Proof. vm_compute. reflexivity. Qed.

(** ** Keys *)

(** Ed25519 on raw seeds and public keys, and the draws of a seed and of four bytes. *)
Class Ed25519 := {
  publicOf : string -> string;
  edSign : string -> string -> string;
  edVerify : string -> string -> string -> bool;
  newSeed : N -> string;
  bytes4 : N -> string }.

Inductive KeyState := key_current | key_retiring | key_retired.
#[export] Instance KeyState_eq : EqDecision KeyState.
Proof. solve_decision. Defined.

Record SigningKey := mkSigningKey {
  sk_kid : string; sk_publicKey : string; sk_privateKeyEnc : option string; sk_state : KeyState; sk_createdAt : Z;
  sk_promotedAt : option Z; sk_retiredAt : option Z }.
#[export] Instance SigningKey_row : Row SigningKey := sk_kid.
#[export] Instance SigningKey_settable : Settable SigningKey := fun r =>
  mkSigningKey (sk_kid r) (sk_publicKey r) (sk_privateKeyEnc r) (sk_state r) (sk_createdAt r) (sk_promotedAt r) (sk_retiredAt r).

(** The table, the key the process signs with, the audit trail, draws and the clock. *)
Record Keys := mkKeys {
  k_rows : list SigningKey; k_current : option (string * string); k_audit : list (string * string * string); k_next : N; k_now : Z }.
#[export] Instance Keys_settable : Settable Keys := fun s => mkKeys (k_rows s) (k_current s) (k_audit s) (k_next s) (k_now s).

Abbreviation MK := (M Keys).

Definition signingKeyAad (kid : string) : string := "signing_keys:private_key_enc:" +:+ kid.

(** ** ed25519.ts *)

(** The key object of a seed is the seed. *)
Definition privateKeyFromSeedPub (bytes : string) : Res string :=
  if negb (String.length bytes =? 64)%nat then
    Throw (External ("privateKeyFromSeedPub: expected 64 bytes (seed+pub), got " +:+ zstr (Z.of_nat (String.length bytes))))
  else Ok (String.substring 0 32 bytes).

Section Service.
Context `{Gcm} `{Ed25519} (crypto : CryptoService) (PANEL_ED25519_PRIVATE_KEY : option string).

Definition freshK : MK N := fun s => (Ok (k_next s), s <| k_next := (k_next s + 1)%N |>).

Definition generateSeedPubKeypair : MK (string * string) :=
  n ← freshK;
  let seed := newSeed n in
  mret (seed +:+ publicOf seed, publicOf seed).

Definition encryptK (plaintext aad : string) : MK string := n ← freshK; lift (encrypt crypto n plaintext aad).

(** [signingKey.create]: the key id is unique. *)
Definition insertKey (r : SigningKey) : MK unit :=
  taken ← gets (fun s => existsb (fun x => sk_kid x =s sk_kid r) (k_rows s));
  throwIf taken (UniqueViolation "signing_keys_kid_key") ;;
  modify (fun s => s <| k_rows := k_rows s ++ [r] |>).

(** ** capability-token.service.ts *)

Definition newestFirst (a b : SigningKey) : bool := sk_createdAt b <=? sk_createdAt a.

Definition currentRow (s : Keys) : option SigningKey :=
  head (sortBy newestFirst (List.filter (fun r => sk_state r =s key_current) (k_rows s))).

Definition loadKey (kid : string) (bytes : string) : MK unit :=
  privateKey ← lift (privateKeyFromSeedPub bytes);
  modify (fun s => s <| k_current := Some (kid, privateKey) |>).

Definition reloadCurrentKey : MK unit :=
  row ← gets currentRow;
  match row with
  | Some row =>
    enc ← orThrow (sk_privateKeyEnc row)
      (External ("CapabilityTokenService: current signing key " +:+ sk_kid row +:+ " has no private key on file"));
    seedPub ← lift (decrypt crypto enc (signingKeyAad (sk_kid row)));
    loadKey (sk_kid row) (unbase64 seedPub)
  | None =>
    raw ← orThrow (truthy PANEL_ED25519_PRIVATE_KEY)
      (External "CapabilityTokenService: PANEL_ED25519_PRIVATE_KEY is not configured and no signing key exists in the database");
    let bytes := unbase64 raw in
    throwIf (negb (String.length bytes =? 64)%nat)
      (External ("CapabilityTokenService: PANEL_ED25519_PRIVATE_KEY must decode to 64 bytes (Go ed25519 seed+pub), got " +:+
                 zstr (Z.of_nat (String.length bytes)))) ;;
    n ← freshK;
    let kid := "seed-" +:+ hex (bytes4 n) in
    let publicKeyRaw := dropS 32 bytes in
    enc ← encryptK (base64 bytes) (signingKeyAad kid);
    now ← gets k_now;
    insertKey (mkSigningKey kid (base64 publicKeyRaw) (Some enc) key_current now (Some now) None) ;;
    loadKey kid bytes
  end.

(** A process starts with no key in memory. *)
Definition boot : MK unit := modify (fun s => s <| k_current := None |>) ;; reloadCurrentKey.

(** A signed token: its key id, its claims and the signature over both. *)
Record Token := mkToken { to_kid : string; to_claims : Claims; to_signature : string }.

Definition jwsHeader (kid : string) : string :=
  jsonObject [jsonProp "alg" (jsonString "EdDSA"); jsonProp "typ" (jsonString "JWT"); jsonProp "kid" (jsonString kid)].

Definition jwsPayload (c : Claims) : string :=
  jsonObject ([jsonProp "sub" (jsonString (cp_sub c)); jsonProp "aud" (jsonString (cp_aud c)); jsonProp "iat" (zstr (cp_iat c));
               jsonProp "nbf" (zstr (cp_nbf c)); jsonProp "exp" (zstr (cp_exp c)); jsonProp "jti" (jsonString (cp_jti c));
               jsonProp "uid" (jsonString (cp_uid c)); jsonProp "cap" (jsonString (cp_cap c));
               jsonProp "permissions" (jsonArray (map jsonString (cp_permissions c)))] ++
              match cp_path c with Some path => [jsonProp "ctx" (jsonObject [jsonProp "path" (jsonString path)])] | None => [] end).

Definition signingInput (kid : string) (c : Claims) : string := base64url (jwsHeader kid) +:+ "." +:+ base64url (jwsPayload c).

(** The signing half of [mint]; its claims are [Controls.mint]'s. *)
Definition signToken (c : Claims) : MK Token :=
  current ← gets k_current;
  key ← orThrow current (External "Cannot read properties of undefined (reading 'kid')");
  mret (mkToken (fst key) c (edSign (snd key) (signingInput (fst key) c))).

(** The compact form a browser is given. *)
Definition compact (t : Token) : string := signingInput (to_kid t) (to_claims t) +:+ "." +:+ base64url (to_signature t).

(** ** signing-keys.service.ts *)

Definition keysTransaction {A} (m : MK A) : MK A := fun s =>
  match m s with
  | (Ok a, s') => (Ok a, s')
  | (Throw e, s') => (Throw e, s' <| k_rows := k_rows s |>)
  end.

Definition auditK (action actorId kid : string) : MK unit := modify (fun s => s <| k_audit := k_audit s ++ [(action, actorId, kid)] |>).

Definition rotate (actorId : string) : MK string :=
  pair ← generateSeedPubKeypair;
  now ← gets k_now;
  let kid := "k-" +:+ toString36 now in
  keysTransaction (
    modify (fun s => s <| k_rows := updWhere (fun r => sk_state r =s key_current) (fun r => r <| sk_state := key_retiring |>) (k_rows s) |>) ;;
    enc ← encryptK (base64 (fst pair)) (signingKeyAad kid);
    insertKey (mkSigningKey kid (base64 (snd pair)) (Some enc) key_current now (Some now) None)) ;;
  reloadCurrentKey ;;
  auditK "admin.signing_key.rotated" actorId kid ;;
  mret kid.

Definition retiredRow (now : Z) (r : SigningKey) : SigningKey :=
  r <| sk_state := key_retired |> <| sk_retiredAt := Some now |> <| sk_privateKeyEnc := None |>.

Definition retire (kid actorId : string) : MK unit :=
  found ← gets (fun s => findId kid (k_rows s));
  orThrow found RecordNotFound ;;
  now ← gets k_now;
  modify (fun s => s <| k_rows := updId kid (retiredRow now) (k_rows s) |>) ;;
  auditK "admin.signing_key.retired" actorId kid.

Definition published (r : SigningKey) : bool := bool_decide (sk_state r ∈ [key_current; key_retiring]).

Definition listPublic (s : Keys) : list (string * string * KeyState) :=
  map (fun r => (sk_kid r, sk_publicKey r, sk_state r)) (sortBy newestFirst (List.filter published (k_rows s))).

(** ** jwks.controller.ts *)

Definition jwks (s : Keys) : list (string * string) := map (fun k => (fst (fst k), snd (fst k))) (listPublic s).

(** ** The verifying side: agent/internal/auth/jwt.go *)

Record TokenVerifier := mkVerifier { tv_keys : gmap string string; tv_fallback : option string; tv_nodeAud : string; tv_clockSkew : Z }.
#[export] Instance TokenVerifier_settable : Settable TokenVerifier := fun v =>
  mkVerifier (tv_keys v) (tv_fallback v) (tv_nodeAud v) (tv_clockSkew v).

Definition SetKeys (keys : gmap string string) (v : TokenVerifier) : TokenVerifier := v <| tv_keys := keys |>.

(** [base64.StdEncoding.DecodeString], which refuses what is not the encoding of something. *)
Definition decodeString (s : string) : option string := let raw := unbase64 s in if base64 raw =s s then Some raw else None.

(** [FetchJWKS]: one malformed key fails the whole fetch. *)
Fixpoint FetchJWKS (l : list (string * string)) (keys : gmap string string) : option (gmap string string) :=
  match l with
  | [] => Some keys
  | (kid, publicKey) :: l' =>
    raw ← decodeString publicKey;
    if (String.length raw =? 32)%nat then FetchJWKS l' (<[kid := raw]> keys) else None
  end.

(** A round of the refresh loop; a failed fetch keeps the keys. *)
Definition refreshKeys (s : Keys) (v : TokenVerifier) : TokenVerifier :=
  match FetchJWKS (jwks s) ∅ with Some keys => SetKeys keys v | None => v end.

Definition keyOf (v : TokenVerifier) (kid : string) : option string :=
  match tv_keys v !! kid with Some pk => Some pk | None => tv_fallback v end.

(** Times in seconds; the leeway applies to both ends. *)
Definition Verify (v : TokenVerifier) (now : Z) (t : Token) (wantServer wantCap : string) : bool :=
  match keyOf v (to_kid t) with
  | None => false
  | Some pk =>
    let c := to_claims t in
    edVerify pk (signingInput (to_kid t) c) (to_signature t) && (cp_aud c =s tv_nodeAud v) &&
    (now <? cp_exp c + tv_clockSkew v) && (cp_nbf c - tv_clockSkew v <=? now) &&
    (cp_sub c =s wantServer) && (cp_cap c =s wantCap) && negb (cp_jti c =s "")
  end.

End Service.
