(* ===== verification/KeyRules.v ===== *)
(** KeyRules: rotating the signing keys loses no session.

    The invariant of SigningKeys under starts, rotations, retirements and signatures, the
    theorem that a token is accepted until its key is retired by an agent whose copy of the key
    list is no older than the key, and what retiring does and does not do. *)

From S2P Require Import Prelude JsNum Capacity Store Scheduler Subscriptions JsString Servers Accounts Sessions Access Dto Fleet Crypto Controls SigningKeys.
From Stdlib Require Import Ascii String Lia.

Local Open Scope Z_scope.

(** A signature verifies under the public half of its key; seeds and public keys are 32 bytes. *)
Class Ed25519Laws `{Ed25519} : Prop := {
  sign_verifies seed msg : edVerify (publicOf seed) msg (edSign seed msg) = true;
  publicOf_length seed : String.length (publicOf seed) = 32%nat;
  newSeed_length n : String.length (newSeed n) = 32%nat }.

Inductive KeyOp := KBoot | KRotate (actorId : string) | KRetire (kid actorId : string) | KSign (c : Claims) | KTick (ms : Z).

Section Rules.
Context `{GcmLaws} `{Ed25519Laws} (cfg : CryptoConfig) (crypto : CryptoService) (env : option string).
Hypothesis crypto_started : onModuleInit cfg = Ok crypto.
Hypothesis crypto_version : 0 < cy_currentVersion crypto <= 2 ^ 53.
(** The configured key is a seed followed by its public half. *)
Hypothesis env_pair : forall raw, truthy env = Some raw -> exists seed, unbase64 raw = seed +:+ publicOf seed.

Definition runKey (op : KeyOp) (s : Keys) : Keys :=
  match op with
  | KBoot => (boot crypto env s).2
  | KRotate a => (rotate crypto env a s).2
  | KRetire kid a => (retire kid a s).2
  | KSign c => (signToken c s).2
  | KTick ms => s <| k_now := k_now s + ms |>
  end.

Definition runKeys (ops : list KeyOp) (s : Keys) : Keys := fold_left (fun s op => runKey op s) ops s.

(** Only keys that no longer sign are retired. *)
Definition orderly (op : KeyOp) (s : Keys) : Prop :=
  match op with KRetire kid _ => forall r, r ∈ k_rows s -> sk_kid r = kid -> sk_state r <> key_current | _ => True end.

Fixpoint orderlyRun (ops : list KeyOp) (s : Keys) : Prop :=
  match ops with [] => True | op :: ops' => orderly op s /\ orderlyRun ops' (runKey op s) end.

(** ** The invariant *)

Definition keyRowOk (r : SigningKey) : Prop :=
  exists seed enc, sk_privateKeyEnc r = Some enc /\ decrypt crypto enc (signingKeyAad (sk_kid r)) = Ok (base64 (seed +:+ publicOf seed)) /\
    sk_publicKey r = base64 (publicOf seed) /\ String.length seed = 32%nat.

(** Every key on file has a public half of the right length. *)
Definition publicRows (rows : list SigningKey) : Prop := forall r, r ∈ rows -> exists seed, sk_publicKey r = base64 (publicOf seed).

Record keysOk (s : Keys) : Prop := {
  ko_kids : NoDup (map sk_kid (k_rows s));
  ko_public : publicRows (k_rows s);
  ko_rows : forall r, r ∈ k_rows s -> sk_state r = key_current -> keyRowOk r;
  ko_one : forall r r', r ∈ k_rows s -> r' ∈ k_rows s -> sk_state r = key_current -> sk_state r' = key_current -> r = r';
  ko_memory : forall kid seed, k_current s = Some (kid, seed) ->
    exists r, r ∈ k_rows s /\ sk_kid r = kid /\ sk_state r = key_current /\ sk_publicKey r = base64 (publicOf seed) }.

Lemma substring_app a b : String.length a = 32%nat -> String.substring 0 32 (a +:+ b) = a.
Proof.
  generalize 32%nat. induction a as [|c a IH]; intros n Hn; subst; [by destruct b|]. change (String c a +:+ b) with (String c (a +:+ b)). simpl. f_equal. by apply IH.
Qed.

Lemma dropS_app a b : String.length a = 32%nat -> dropS 32 (a +:+ b) = b.
Proof.
  generalize 32%nat. induction a as [|c a IH]; intros n Hn; subst; [done|]. change (String c a +:+ b) with (String c (a +:+ b)). simpl. by apply IH.
Qed.

Lemma string_app_length a b : String.length (a +:+ b) = (String.length a + String.length b)%nat.
Proof. induction a as [|c a IH]; [done|]. change (String c a +:+ b) with (String c (a +:+ b)). simpl. by rewrite IH. Qed.

Lemma loadKey_pair kid seed s : String.length seed = 32%nat -> loadKey kid (seed +:+ publicOf seed) s = (Ok tt, s <| k_current := Some (kid, seed) |>).
Proof.
  intros Hl. unfold loadKey, privateKeyFromSeedPub. rewrite string_app_length, Hl, publicOf_length. cbn [Nat.add Nat.eqb negb].
  by rewrite substring_app.
Qed.

Lemma currentRow_some s r : currentRow s = Some r -> r ∈ k_rows s /\ sk_state r = key_current.
Proof.
  unfold currentRow. intros Hh. set (l := List.filter _ _) in Hh. pose proof (sortBy_perm newestFirst l) as P.
  destruct (sortBy newestFirst l) as [|x t]; [done|]. injection Hh as ->.
  assert (r ∈ l) as Hr by (rewrite <- P; by apply elem_of_cons; left). apply list_elem_of_In, filter_In in Hr as [Hr Hs].
  split; [by apply list_elem_of_In|by apply bool_decide_eq_true in Hs].
Qed.

Lemma currentRow_none s r : currentRow s = None -> r ∈ k_rows s -> sk_state r <> key_current.
Proof.
  unfold currentRow. intros Hh%sortBy_head_none Hr Hs.
  assert (r ∈ List.filter (fun r => sk_state r =s key_current) (k_rows s)) as Hf
    by (apply list_elem_of_In, filter_In; split; [by apply list_elem_of_In|by apply bool_decide_eq_true_2]).
  rewrite Hh in Hf. by apply not_elem_of_nil in Hf.
Qed.

(** With a current key on file, loading it succeeds. *)
Lemma reload_current s r : currentRow s = Some r -> keyRowOk r ->
  exists seed, sk_publicKey r = base64 (publicOf seed) /\ reloadCurrentKey crypto env s = (Ok tt, s <| k_current := Some (sk_kid r, seed) |>).
Proof.
  intros Hr (seed & enc & He & Hd & Hp & Hl). exists seed. split; [done|]. unfold reloadCurrentKey. rewrite bind_gets, Hr, He. unfold orThrow. rewrite bind_ret.
  unfold lift, mbind, M_bind. rewrite Hd, unbase64_base64. by apply loadKey_pair.
Qed.

(** A row for a fresh key: what [create] inserts. *)
Lemma fresh_row_ok kid seed enc n now : encrypt crypto n (base64 (seed +:+ publicOf seed)) (signingKeyAad kid) = Ok enc -> String.length seed = 32%nat ->
  keyRowOk (mkSigningKey kid (base64 (publicOf seed)) (Some enc) key_current now (Some now) None).
Proof. intros He Hl. exists seed, enc. split_and!; try done. exact (decrypt_encrypted cfg crypto n _ _ enc crypto_started crypto_version He). Qed.

Lemma existsb_kid kid l : existsb (fun x : SigningKey => sk_kid x =s kid) l = false -> kid ∉ map sk_kid l.
Proof.
  intros Hf (x & Hx & Hin)%list_elem_of_In%in_map_iff. assert (existsb (fun x : SigningKey => sk_kid x =s kid) l = true) as F; [|congruence].
  apply existsb_exists. exists x. split; [done|]. by apply bool_decide_eq_true_2.
Qed.

(** Adding a good current row to a table without one. *)
Lemma keysOk_add rows r k : k_rows k = rows ++ [r] -> publicRows rows -> NoDup (map sk_kid rows) -> (forall x, x ∈ rows -> sk_state x <> key_current) -> keyRowOk r -> sk_state r = key_current ->
  sk_kid r ∉ map sk_kid rows -> (k_current k = None \/ exists seed, k_current k = Some (sk_kid r, seed) /\ sk_publicKey r = base64 (publicOf seed)) ->
  keysOk k.
Proof.
  intros Ek Hpub Hn Hc Hr Hs Hk Hm. split; rewrite Ek.
  - rewrite map_app. apply NoDup_app. split_and!; [done| |apply NoDup_singleton]. intros x Hx ->%list_elem_of_singleton. done.
  - intros x [Hx| ->%list_elem_of_singleton]%elem_of_app; [by apply Hpub|]. destruct Hr as (seed & _ & _ & _ & Hp & _). eauto.
  - intros x [Hx| ->%list_elem_of_singleton]%elem_of_app Hx'; [by apply Hc in Hx|done].
  - intros x y [Hx| ->%list_elem_of_singleton]%elem_of_app [Hy| ->%list_elem_of_singleton]%elem_of_app Sx Sy; try done; [by apply Hc in Hx|by apply Hc in Hx|by apply Hc in Hy].
  - intros kid seed E. destruct Hm as [Hm|(seed' & Hm & Hp)]; rewrite Hm in E; [done|]. injection E as <- <-. exists r. split_and!; try done.
    apply elem_of_app. right. by apply list_elem_of_singleton.
Qed.

Lemma encryptK_inv plain aad s r s' : encryptK crypto plain aad s = (r, s') ->
  s' = s <| k_next := (k_next s + 1)%N |> /\ exists n, r = encrypt crypto n plain aad.
Proof. unfold encryptK, freshK, lift, mbind, M_bind. simpl. intros [= <- <-]. eauto. Qed.

Lemma insertKey_inv row s r s' : insertKey row s = (r, s') ->
  ((exists e, r = Throw e) /\ s' = s) \/ (r = Ok tt /\ (sk_kid row ∉ map sk_kid (k_rows s)) /\ s' = s <| k_rows := k_rows s ++ [row] |>).
Proof.
  unfold insertKey. rewrite bind_gets. intros E. apply bind_throwIf_inv in E as [(_ & -> & ->)|(Ht & [= <- <-])]; [left; eauto|].
  right. split_and!; [done|by apply existsb_kid|done].
Qed.

(** ** Every operation keeps it *)

Lemma pair_seed seed : String.length (seed +:+ publicOf seed) = 64%nat -> String.length seed = 32%nat.
Proof. rewrite string_app_length, publicOf_length. lia. Qed.

Lemma reload_ok s r s' : keysOk s -> (currentRow s = None -> k_current s = None) -> reloadCurrentKey crypto env s = (r, s') -> keysOk s'.
Proof.
  intros Hok Hm E. destruct (currentRow s) as [row|] eqn:Ec.
  - pose proof (currentRow_some _ _ Ec) as [Hin Hs]. destruct (reload_current s row Ec (ko_rows _ Hok row Hin Hs)) as (seed & Hp & Er).
    rewrite E in Er. injection Er as _ ->. destruct Hok as [A P B C D]. split; try done. simpl. intros kid seed' [= <- <-]. by exists row.
  - unfold reloadCurrentKey in E. rewrite bind_gets, Ec in E. apply bind_orThrow_inv in E as [(_ & _ & ->)|(raw & Hraw & E)]; [done|].
    cbv zeta in E. apply bind_throwIf_inv in E as [(_ & _ & ->)|(Hl & E)]; [done|]. destruct (env_pair raw Hraw) as [seed Eb]. rewrite Eb in *.
    apply negb_false_iff, Nat.eqb_eq, pair_seed in Hl. rewrite dropS_app in E by done. unfold freshK in E. unfold mbind at 1, M_bind at 1 in E.
    apply bind_inv in E as [(e & E & _)|(enc & s1 & E1 & E)].
    { apply encryptK_inv in E as [-> _]. by destruct Hok. }
    apply encryptK_inv in E1 as [-> [n Hn]]. rewrite bind_gets in E. apply bind_inv in E as [(e & E & _)|(u & s1 & E1 & E)].
    { apply insertKey_inv in E as [[_ ->]|[[=] _]]. by destruct Hok. }
    apply insertKey_inv in E1 as [[[e [=]] _]|(_ & Hkid & ->)]. rewrite loadKey_pair in E by done. injection E as _ <-.
    eapply (keysOk_add (k_rows s)); [reflexivity|apply Hok|apply Hok|intros x Hx; by eapply currentRow_none|by eapply fresh_row_ok|done|done|right; eauto].
Qed.

(** After the old keys stepped back, loading finds the new one. *)
Lemma currentRow_last rows r k : (forall x, x ∈ rows -> sk_state x <> key_current) -> sk_state r = key_current -> k_rows k = rows ++ [r] -> currentRow k = Some r.
Proof.
  intros Hc Hs Ek. unfold currentRow. rewrite Ek, List.filter_app, filter_none; [simpl; by rewrite bool_decide_eq_true_2|].
  intros x Hx. apply bool_decide_eq_false. by apply Hc.
Qed.

Lemma retiring_none rows x : x ∈ updWhere (fun r => sk_state r =s key_current) (fun r => r <| sk_state := key_retiring |>) rows -> sk_state x <> key_current.
Proof. intros (y & _ & ->)%updWhere_elem. by case_bool_decide. Qed.

Lemma retiring_kids rows : map sk_kid (updWhere (fun r => sk_state r =s key_current) (fun r => r <| sk_state := key_retiring |>) rows) = map sk_kid rows.
Proof. unfold updWhere. rewrite map_map. apply map_ext. intros x. by destruct (_ =s _). Qed.

Lemma keysOk_next s n a : keysOk s -> keysOk (s <| k_next := n |> <| k_audit := a |>).
Proof. by intros [A P B C D]. Qed.

Definition steppedBack (rows : list SigningKey) : list SigningKey :=
  updWhere (fun r => sk_state r =s key_current) (fun r => r <| sk_state := key_retiring |>) rows.

Lemma rotateTx_inv kid seed now s r s' :
  keysTransaction (
    modify (fun s => s <| k_rows := steppedBack (k_rows s) |>) ;;
    enc ← encryptK crypto (base64 (seed +:+ publicOf seed)) (signingKeyAad kid);
    insertKey (mkSigningKey kid (base64 (publicOf seed)) (Some enc) key_current now (Some now) None)) s = (r, s') -> String.length seed = 32%nat ->
  k_current s' = k_current s /\
  ((exists e, r = Throw e) /\ k_rows s' = k_rows s \/
   r = Ok tt /\ exists row, sk_kid row = kid /\ keyRowOk row /\ sk_state row = key_current /\ sk_publicKey row = base64 (publicOf seed) /\
     (kid ∉ map sk_kid (k_rows s)) /\ k_rows s' = steppedBack (k_rows s) ++ [row]).
Proof.
  intros E Hl. unfold keysTransaction in E. match type of E with match ?m with _ => _ end = _ => destruct m as [[x|e] s1] eqn:Em end; injection E as <- <-.
  - apply bind_ok in Em as (? & s2 & [_ ->]%modify_ok & Em). apply bind_ok in Em as (enc & s3 & [-> [n Hn]]%encryptK_inv & Em).
    apply insertKey_inv in Em as [[[e [=]] _]|([= ->] & Hk & ->)]. simpl in *. split; [done|]. right. split; [done|].
    eexists. split_and!; [| | | | |reflexivity]; try done; [by eapply fresh_row_ok|]. unfold steppedBack in Hk. by rewrite retiring_kids in Hk.
  - apply bind_inv in Em as [(e' & [=] & _)|(? & s2 & [_ ->]%modify_ok & Em)]. apply bind_inv in Em as [(e' & [-> _]%encryptK_inv & _)|(enc & s3 & [-> _]%encryptK_inv & Em)].
    + split; [done|]. left. eauto.
    + apply insertKey_inv in Em as [[_ ->]|[[=] _]]. split; [done|]. left. eauto.
Qed.

(** What a rotation does: all or nothing in the table, and then the new key signs. *)
Lemma rotate_spec actor s r s' : keysOk s -> rotate crypto env actor s = (r, s') ->
  (k_rows s' = k_rows s /\ k_current s' = k_current s /\ (exists e, r = Throw e)) \/
  exists row seed, keyRowOk row /\ sk_state row = key_current /\ sk_publicKey row = base64 (publicOf seed) /\
    (sk_kid row ∉ map sk_kid (k_rows s)) /\ k_rows s' = steppedBack (k_rows s) ++ [row] /\
    k_current s' = Some (sk_kid row, seed) /\ r = Ok (sk_kid row).
Proof.
  intros Hok E. unfold rotate, generateSeedPubKeypair in E. unfold mbind at 1, M_bind at 1 in E. unfold freshK at 1 in E. simpl in E.
  rewrite bind_gets in E. cbv zeta in E. apply bind_inv in E as [(e & E & ->)|(u & s1 & E1 & E)].
  - apply rotateTx_inv in E as [Hc [[_ Hr]|([=] & _)]]; [|apply newSeed_length]. left. simpl in *. eauto.
  - apply rotateTx_inv in E1 as [Hc [[[e [=]] _]|(_ & row & Hk & Hrow & Hs & Hp & Hn & Hrows)]]; [|apply newSeed_length]. right. simpl in *.
    destruct (reload_current s1 row) as (seed & Hp' & Er); [by eapply currentRow_last; [apply retiring_none| |]|done|].
    rewrite (bind_run _ _ _ _ _ Er) in E. injection E as <- <-. exists row, seed. simpl. rewrite Hk. split_and!; done.
Qed.

Lemma rotate_ok actor s r s' : keysOk s -> rotate crypto env actor s = (r, s') -> keysOk s'.
Proof.
  intros Hok E. destruct (rotate_spec _ _ _ _ Hok E) as [(Er & Ec & _)|(row & seed & Hrow & Hs & Hp & Hn & Er & Ec & _)].
  - destruct Hok as [A P B C D]. split; rewrite ?Er, ?Ec; done.
  - eapply (keysOk_add (steppedBack (k_rows s)) row); try done; [| |by intros x; apply retiring_none| |right; eauto].
    + intros x (y & Hy & ->)%updWhere_elem. destruct (ko_public _ Hok y Hy) as [sd Hsd]. exists sd. by case_bool_decide.
    + unfold steppedBack. rewrite retiring_kids. apply Hok.
    + unfold steppedBack. by rewrite retiring_kids.
Qed.

Lemma retire_ok kid actor s r s' : keysOk s -> orderly (KRetire kid actor) s -> retire kid actor s = (r, s') -> keysOk s'.
Proof.
  intros [A P B C D] Ho E. unfold retire in E. rewrite bind_gets in E. apply bind_orThrow_inv in E as [(_ & _ & ->)|(x & _ & E)]; [done|].
  rewrite bind_gets in E. injection E as _ <-. set (f := retiredRow (k_now s)).
  assert (forall y, y ∈ updId kid f (k_rows s) -> sk_state y = key_current -> y ∈ k_rows s) as Hkeep.
  { intros y (z & Hz & ->)%updId_elem; [|done]. case_bool_decide; [done|by intros _]. }
  split; simpl.
  - change sk_kid with (@rid SigningKey _). by rewrite updId_rids.
  - intros y (z & Hz & ->)%updId_elem; [|done]. destruct (P z Hz) as [sd Hsd]. exists sd. by case_bool_decide.
  - intros y Hy Hs. apply B; auto.
  - intros y z Hy Hz Sy Sz. apply C; auto.
  - intros k seed Hk. destruct (D k seed Hk) as (y & Hy & Ek & Hs & Hp). exists y. split_and!; try done. apply updId_elem; [done|]. exists y. split; [done|].
    rewrite bool_decide_eq_false_2; [done|]. intros E. by apply (Ho y Hy E).
Qed.

Lemma runKey_ok op s : orderly op s -> keysOk s -> keysOk (runKey op s).
Proof.
  intros Ho Hok. destruct op; simpl.
  - destruct (boot crypto env s) as [r s'] eqn:E. unfold boot in E. apply bind_inv in E as [(e & [=] & _)|(? & s1 & [_ ->]%modify_ok & E)].
    refine (reload_ok _ _ _ _ _ E); [|done]. destruct Hok as [A P B C D]. split; [done..|by intros].
  - destruct (rotate crypto env actorId s) as [r s'] eqn:E. by eapply rotate_ok.
  - destruct (retire kid actorId s) as [r s'] eqn:E. by eapply retire_ok.
  - unfold signToken. rewrite bind_gets. by destruct (k_current s).
  - by destruct Hok.
Qed.

Lemma runKeys_ok ops s : orderlyRun ops s -> keysOk s -> keysOk (runKeys ops s).
Proof. revert s. induction ops as [|op ops IH]; intros s; [done|]. intros [Ho Hos] Hok. by apply IH, runKey_ok. Qed.

(** ** Published keys *)

(** A key with this public half is on file and not retired. *)
Definition lasting (kid pub : string) (s : Keys) : Prop := exists r, r ∈ k_rows s /\ sk_kid r = kid /\ sk_publicKey r = pub /\ sk_state r <> key_retired.

Lemma reload_rows s r s' : reloadCurrentKey crypto env s = (r, s') -> exists l, k_rows s' = k_rows s ++ l.
Proof.
  assert (keeps (fun s s' => exists l, k_rows s' = k_rows s ++ l) (reloadCurrentKey crypto env)) as K; [|by apply K].
  assert (PreOrder (fun s s' : Keys => exists l, k_rows s' = k_rows s ++ l)).
  { split; [intros x; exists []; by rewrite app_nil_r|]. intros x y z [l1 E1] [l2 E2]. exists (l1 ++ l2). by rewrite E2, E1, app_assoc. }
  unfold reloadCurrentKey, loadKey, encryptK, insertKey, freshK. keeps_auto; intros x y z [= _ <-]; simpl; first [exists []; by rewrite app_nil_r|by eexists].
Qed.

Lemma runKey_lasting op kid pub s : keysOk s -> (forall a, op <> KRetire kid a) -> lasting kid pub s -> lasting kid pub (runKey op s).
Proof.
  intros Hok Hop (r & Hr & Hk & Hp & Hs). destruct op; simpl.
  - destruct (boot crypto env s) as [x s'] eqn:E. unfold boot in E. apply bind_inv in E as [(e & [=] & _)|(? & s1 & [_ ->]%modify_ok & [l E]%reload_rows)].
    exists r. simpl in *. rewrite E. split; [apply elem_of_app; by left|done].
  - destruct (rotate crypto env actorId s) as [x s'] eqn:E. destruct (rotate_spec _ _ _ _ Hok E) as [(Er & _)|(row & seed & _ & _ & _ & _ & Er & _)]; simpl.
    + exists r. by rewrite Er.
    + exists (if sk_state r =s key_current then r <| sk_state := key_retiring |> else r). rewrite Er. split; [|by case_bool_decide].
      apply elem_of_app. left. apply updWhere_elem. by exists r.
  - destruct (retire kid0 actorId s) as [x s'] eqn:E. unfold retire in E. rewrite bind_gets in E.
    apply bind_orThrow_inv in E as [(_ & _ & ->)|(y & _ & E)]; [by exists r|]. rewrite bind_gets in E. injection E as _ <-. exists r. split; [|done]. simpl.
    apply updId_elem; [apply Hok|]. exists r. split; [done|]. rewrite bool_decide_eq_false_2; [done|]. intros Ek. apply (Hop actorId). f_equal. rewrite <- Hk. exact (eq_sym Ek).
  - exists r. unfold signToken. rewrite bind_gets. by destruct (k_current s).
  - by exists r.
Qed.

Lemma runKeys_lasting ops kid pub : forall s, orderlyRun ops s -> keysOk s -> (forall a, KRetire kid a ∉ ops) -> lasting kid pub s -> lasting kid pub (runKeys ops s).
Proof.
  induction ops as [|op ops IH]; intros s; [done|]. intros [Ho Hos] Hok Hn Hl. apply IH; [done|by apply runKey_ok| |].
  - intros a Ha. apply (Hn a), elem_of_cons. by right.
  - apply runKey_lasting; [done| |done]. intros a ->. apply (Hn a), elem_of_cons. by left.
Qed.

Lemma fold_keys (l : list (string * string)) : forall (m : gmap string string) kid pub, NoDup (map fst l) -> (kid, pub) ∈ l \/ (kid ∉ map fst l) /\ m !! kid = Some (unbase64 pub) ->
  fold_left (fun m k => <[fst k := unbase64 (snd k)]> m) l m !! kid = Some (unbase64 pub).
Proof.
  induction l as [|[k p] l IH]; intros m kid pub Hn Hin; simpl in *; [by destruct Hin as [?%not_elem_of_nil|[_ ?]]|].
  apply NoDup_cons in Hn as [Hk Hn]. apply IH; [done|]. destruct Hin as [[E|Hin]%elem_of_cons|[Hni Hm]].
  - injection E as -> ->. right. split; [done|]. apply lookup_insert_eq.
  - by left.
  - right. split; [by intros ?; apply Hni, elem_of_cons; right|]. rewrite lookup_insert_ne; [done|]. intros ->. apply Hni, elem_of_cons. by left.
Qed.

Lemma fetch_keys (l : list (string * string)) : forall m, (forall k p, (k, p) ∈ l -> exists seed, p = base64 (publicOf seed)) ->
  FetchJWKS l m = Some (fold_left (fun m k => <[fst k := unbase64 (snd k)]> m) l m).
Proof.
  induction l as [|[k p] l IH]; intros m Hl; simpl; [done|]. destruct (Hl k p) as [seed ->]; [apply elem_of_cons; by left|].
  unfold decodeString. rewrite unbase64_base64, bool_decide_eq_true_2 by done. simpl. rewrite publicOf_length. simpl. apply IH.
  intros k' p' Hin. apply (Hl k' p'), elem_of_cons. by right.
Qed.

Lemma published_listed s r : r ∈ k_rows s -> sk_state r <> key_retired -> (sk_kid r, sk_publicKey r) ∈ jwks s.
Proof.
  intros Hr Hs. unfold jwks, listPublic. rewrite map_map. apply list_elem_of_In, in_map_iff. exists r. split; [done|].
  apply list_elem_of_In. rewrite sortBy_perm. apply list_elem_of_In, filter_In. split; [by apply list_elem_of_In|].
  unfold published. apply bool_decide_eq_true_2. destruct (sk_state r); set_solver.
Qed.

Lemma jwks_kids s : map fst (jwks s) ≡ₚ map sk_kid (List.filter published (k_rows s)).
Proof. unfold jwks, listPublic. rewrite !map_map. simpl. by rewrite (sortBy_perm newestFirst). Qed.

(** A fetch of the published list succeeds. *)
Lemma refreshKeys_eq s v : publicRows (k_rows s) -> refreshKeys s v = SetKeys (fold_left (fun m k => <[fst k := unbase64 (snd k)]> m) (jwks s) ∅) v.
Proof.
  intros Hp. unfold refreshKeys. rewrite fetch_keys; [done|]. intros k p Hin. unfold jwks, listPublic in Hin. rewrite map_map in Hin.
  apply list_elem_of_In, in_map_iff in Hin as (r & [= <- <-] & Hr). apply Hp. apply list_elem_of_In in Hr. rewrite sortBy_perm in Hr.
  apply list_elem_of_In, filter_In in Hr as [Hr _]. by apply list_elem_of_In.
Qed.

Lemma refreshed_verifier s v : tv_fallback (refreshKeys s v) = tv_fallback v /\ tv_nodeAud (refreshKeys s v) = tv_nodeAud v /\ tv_clockSkew (refreshKeys s v) = tv_clockSkew v.
Proof. unfold refreshKeys. by destruct (FetchJWKS _ _). Qed.

Lemma refreshed_key s v kid pub : keysOk s -> lasting kid pub s -> keyOf (refreshKeys s v) kid = Some (unbase64 pub).
Proof.
  intros Hok (r & Hr & <- & <- & Hs). rewrite refreshKeys_eq by apply Hok. unfold keyOf, SetKeys. cbn [tv_keys set]. rewrite (fold_keys _ _ _ (sk_publicKey r)); [done| |].
  - rewrite jwks_kids. apply NoDup_map_filter, Hok.
  - left. by apply published_listed.
Qed.

(** A public half stays on file under its key id, whatever becomes of the key. *)
Definition onFile (kid pub : string) (s : Keys) : Prop := exists r, r ∈ k_rows s /\ sk_kid r = kid /\ sk_publicKey r = pub.

Lemma runKey_onFile op kid pub s : keysOk s -> onFile kid pub s -> onFile kid pub (runKey op s).
Proof.
  intros Hok (r & Hr & Hk & Hp). destruct op; simpl.
  - destruct (boot crypto env s) as [x s'] eqn:E. unfold boot in E. apply bind_inv in E as [(e & [=] & _)|(? & s1 & [_ ->]%modify_ok & [l E]%reload_rows)].
    exists r. simpl in *. rewrite E. split; [apply elem_of_app; by left|done].
  - destruct (rotate crypto env actorId s) as [x s'] eqn:E. destruct (rotate_spec _ _ _ _ Hok E) as [(Er & _)|(row & seed & _ & _ & _ & _ & Er & _)]; simpl.
    + exists r. by rewrite Er.
    + exists (if sk_state r =s key_current then r <| sk_state := key_retiring |> else r). rewrite Er. split; [|by case_bool_decide].
      apply elem_of_app. left. apply updWhere_elem. by exists r.
  - destruct (retire kid0 actorId s) as [x s'] eqn:E. unfold retire in E. rewrite bind_gets in E.
    apply bind_orThrow_inv in E as [(_ & _ & ->)|(y & _ & E)]; [by exists r|]. rewrite bind_gets in E. injection E as _ <-.
    exists (if rid r =s kid0 then retiredRow (k_now s) r else r). split; [|by case_bool_decide]. simpl. apply updId_elem; [apply Hok|]. by exists r.
  - exists r. unfold signToken. rewrite bind_gets. by destruct (k_current s).
  - by exists r.
Qed.

Lemma runKeys_onFile ops kid pub : forall s, orderlyRun ops s -> keysOk s -> onFile kid pub s -> onFile kid pub (runKeys ops s).
Proof. induction ops as [|op ops IH]; intros s; [done|]. intros [Ho Hos] Hok Hl. apply IH; [done|by apply runKey_ok|by apply runKey_onFile]. Qed.

Lemma orderlyRun_app ops ops' s : orderlyRun (ops ++ ops') s <-> orderlyRun ops s /\ orderlyRun ops' (runKeys ops s).
Proof. revert s. induction ops as [|op ops IH]; intros s; simpl; [naive_solver|]. rewrite IH. naive_solver. Qed.

Lemma runKeys_app ops ops' s : runKeys (ops ++ ops') s = runKeys ops' (runKeys ops s).
Proof. unfold runKeys. apply fold_left_app. Qed.

(** The states in which an agent may have fetched the list of keys last, for a token of key
    [kid] signed after [ops1], in a state that became [s1]: any since that key began to sign, up
    to its retirement. *)
Inductive fetchedIn (ops1 : list KeyOp) (s s1 : Keys) (kid : string) : Keys -> Prop :=
  | fetched_after ops2 : orderlyRun ops2 s1 -> (forall a, KRetire kid a ∉ ops2) -> fetchedIn ops1 s s1 kid (runKeys ops2 s1)
  | fetched_before opsA opsB seed : ops1 = opsA ++ opsB -> k_current (runKeys opsA s) = Some (kid, seed) -> fetchedIn ops1 s s1 kid (runKeys opsA s).

(** In each of them the list has the half that verifies the token. *)
Lemma fetched_lasting ops1 s kid seed sf : keysOk s -> orderlyRun ops1 s -> k_current (runKeys ops1 s) = Some (kid, seed) ->
  fetchedIn ops1 s (runKeys ops1 s) kid sf -> keysOk sf /\ lasting kid (base64 (publicOf seed)) sf.
Proof.
  intros Hok Ho Hc Hf. pose proof (runKeys_ok ops1 s Ho Hok) as Hok1. destruct (ko_memory _ Hok1 kid seed Hc) as (r & Hr & Hkid & Hst & Hp).
  destruct Hf as [ops2 Ho2 Hn|opsA opsB seed' -> HA].
  - split; [by apply runKeys_ok|]. apply runKeys_lasting; try done. exists r. split_and!; try done. by rewrite Hst.
  - apply orderlyRun_app in Ho as [HoA HoB]. pose proof (runKeys_ok opsA s HoA Hok) as HokA. split; [done|].
    destruct (ko_memory _ HokA kid seed' HA) as (x & Hx & Hxk & Hxs & Hxp).
    destruct (runKeys_onFile opsB kid (sk_publicKey x) (runKeys opsA s) HoB HokA) as (y & Hy & Hyk & Hyp); [by exists x|]. rewrite runKeys_app in *.
    assert (y = r) as -> by (apply (NoDup_map_inj sk_kid (k_rows (runKeys opsB (runKeys opsA s)))); [apply Hok1|done|done|congruence]).
    exists x. split_and!; [done|done|congruence|by rewrite Hxs].
Qed.

(** C20: rotating keys logs nobody out.  A token the panel signs is accepted by the agent of its
    node until it expires, after any number of starts, rotations, signatures and retirements of
    keys that no longer sign, whenever the agent fetched its list of keys last: at any time from
    the moment the token's key began to sign, before or after the token was signed, until that
    key is retired.  An agent that has not fetched the list since the key began to sign is
    outside the claim: [new_key_unknown_until_refresh]. *)
Theorem tokens_outlive_rotation ops1 s c t s1 sf v now : keysOk s -> orderlyRun ops1 s -> signToken c (runKeys ops1 s) = (Ok t, s1) ->
  fetchedIn ops1 s s1 (to_kid t) sf ->
  tv_nodeAud v = cp_aud c -> 0 <= tv_clockSkew v -> cp_nbf c <= now < cp_exp c -> cp_jti c <> "" ->
  Verify (refreshKeys sf v) now t (cp_sub c) (cp_cap c) = true.
Proof.
  intros Hok Ho1 Hs Hf Ha Hk Ht Hj. unfold signToken in Hs. rewrite bind_gets in Hs.
  destruct (k_current (runKeys ops1 s)) as [[kid seed]|] eqn:Ec; [|done]. injection Hs as <- <-. cbn [to_kid fst snd] in *.
  destruct (fetched_lasting ops1 s kid seed sf Hok Ho1 Ec Hf) as [Hokf Hl].
  unfold Verify. cbn [to_kid to_claims to_signature]. rewrite (refreshed_key _ v kid _ Hokf Hl), unbase64_base64, sign_verifies.
  destruct (refreshed_verifier sf v) as (_ & -> & ->). rewrite Ha, !bool_decide_eq_true_2, bool_decide_eq_false_2 by done.
  rewrite (proj2 (Z.ltb_lt _ _)), (proj2 (Z.leb_le _ _)) by lia. done.
Qed.

(** ** Retirement *)

(** What a retirement does to the table. *)
Lemma retire_row kid actor s r : findId kid (k_rows s) = Some r ->
  retire kid actor s = (Ok tt, s <| k_rows := updId kid (retiredRow (k_now s)) (k_rows s) |> <| k_audit := k_audit s ++ [("admin.signing_key.retired", actor, kid)] |>).
Proof. intros Hf. unfold retire. rewrite bind_gets, Hf. done. Qed.

Lemma retired_unlisted kid s v : publicRows (k_rows s) -> NoDup (map sk_kid (k_rows s)) -> (forall r, r ∈ k_rows s -> sk_kid r = kid -> sk_state r = key_retired) ->
  tv_keys (refreshKeys s v) !! kid = None.
Proof.
  intros Hp0 Hn Hr. rewrite refreshKeys_eq by done. unfold SetKeys. cbn [tv_keys set].
  assert (kid ∉ map fst (jwks s)) as Hk.
  { rewrite jwks_kids. intros (r & <- & [Hin Hp]%filter_In)%list_elem_of_In%in_map_iff. unfold published in Hp. apply bool_decide_eq_true in Hp.
    rewrite (Hr r) in Hp by (done || by apply list_elem_of_In). set_solver. }
  revert Hk. generalize (jwks s). intros l Hk. assert (forall m : gmap string string, m !! kid = None -> fold_left (fun m k => <[fst k := unbase64 (snd k)]> m) l m !! kid = None) as F.
  { induction l as [|[k p] l IH]; intros m Hm; simpl in *; [done|]. apply not_elem_of_cons in Hk as [Hne Hk]. apply IH; [done|]. by rewrite lookup_insert_ne. }
  apply F, lookup_empty.
Qed.

Lemma retire_unlists kid actor s r s' v : keysOk s -> retire kid actor s = (Ok r, s') -> tv_keys (refreshKeys s' v) !! kid = None.
Proof.
  intros Hok E. unfold retire in E. rewrite bind_gets in E. apply bind_orThrow_inv in E as [(_ & [=] & _)|(x & _ & E)].
  rewrite bind_gets in E. injection E as _ <-. pose proof (ko_kids _ Hok) as Hn. apply retired_unlisted; simpl.
  - intros y (z & Hz & ->)%updId_elem; [|done]. destruct (ko_public _ Hok z Hz) as [sd Hsd]. exists sd. by case_bool_decide.
  - change sk_kid with (@rid SigningKey _). by rewrite updId_rids.
  - intros y (z & Hz & ->)%updId_elem; [|done]. case_bool_decide as Ez; [done|]. intros Ey. by destruct Ez.
Qed.

(** Retiring the key in use breaks new tokens.  Nothing checks that the key is no longer the one
    that signs: the process keeps signing with it, and no agent that follows the published list
    accepts what it signs. *)
Theorem retiring_current_key_breaks_tokens kid seed actor s u s' v now c t s'' server cap : keysOk s -> k_current s = Some (kid, seed) ->
  retire kid actor s = (Ok u, s') -> tv_fallback v = None -> signToken c s' = (Ok t, s'') ->
  to_kid t = kid /\ Verify (refreshKeys s' v) now t server cap = false.
Proof.
  intros Hok Hc Hr Hf Hs. assert (k_current s' = Some (kid, seed)) as Hc'.
  { unfold retire in Hr. rewrite bind_gets in Hr. apply bind_orThrow_inv in Hr as [(_ & [=] & _)|(x & _ & E)]. rewrite bind_gets in E. by injection E as _ <-. }
  unfold signToken in Hs. rewrite bind_gets, Hc' in Hs. injection Hs as <- _. split; [done|]. unfold Verify, keyOf. cbn [to_kid fst].
  rewrite (retire_unlists _ _ _ _ _ _ Hok Hr). by rewrite (proj1 (refreshed_verifier _ v)), Hf.
Qed.

(** Retiring the key the agents were installed with does not stop it.  An agent that knows the
    seed key's public half as its fallback goes on accepting tokens of that key, whether or not
    it is on the published list. *)
Theorem retired_seed_key_accepted kid seed actor s u s' v now c : keysOk s -> retire kid actor s = (Ok u, s') -> tv_fallback v = Some (publicOf seed) ->
  tv_nodeAud v = cp_aud c -> 0 <= tv_clockSkew v -> cp_nbf c <= now < cp_exp c -> cp_jti c <> "" ->
  Verify (refreshKeys s' v) now (mkToken kid c (edSign seed (signingInput kid c))) (cp_sub c) (cp_cap c) = true.
Proof.
  intros Hok Hr Hf Ha Hk Ht Hj. unfold Verify, keyOf. cbn [to_kid to_claims to_signature]. rewrite (retire_unlists _ _ _ _ _ _ Hok Hr).
  destruct (refreshed_verifier s' v) as (-> & -> & ->). rewrite Hf, sign_verifies, Ha, !bool_decide_eq_true_2, bool_decide_eq_false_2 by done.
  rewrite (proj2 (Z.ltb_lt _ _)), (proj2 (Z.leb_le _ _)) by lia. done.
Qed.

(** A rotation is not seamless for new tokens.  The new key signs at once, but an agent that
    fetched the list before the rotation and has no fallback refuses every token it signs until
    it fetches again, up to five minutes later. *)
Theorem new_key_unknown_until_refresh actor s kid s' v c t s'' now server cap : keysOk s -> tv_fallback v = None ->
  rotate crypto env actor s = (Ok kid, s') -> signToken c s' = (Ok t, s'') -> Verify (refreshKeys s v) now t server cap = false.
Proof.
  intros Hok Hf Hr Hs. destruct (rotate_spec _ _ _ _ Hok Hr) as [(_ & _ & e & [=])|(row & seed & _ & _ & _ & Hn & _ & Hc & _)].
  unfold signToken in Hs. rewrite bind_gets, Hc in Hs. injection Hs as <- _. unfold Verify, keyOf. cbn [to_kid fst].
  rewrite (retired_unlisted _ s v (ko_public _ Hok) (ko_kids _ Hok)).
  - by rewrite (proj1 (refreshed_verifier _ v)), Hf.
  - intros r Hr' E. exfalso. apply Hn. rewrite <- E. apply list_elem_of_In, in_map. by apply list_elem_of_In.
Qed.

End Rules.

(** ** Witnesses *)

Module DemoKeys.

(** The first 32 characters, padded. *)
Fixpoint fit (n : nat) (s : string) : string :=
  match n with
  | O => ""
  | S n' => match s with EmptyString => String "0" (fit n' "") | String c s' => String c (fit n' s') end
  end.

Lemma fit_length n s : String.length (fit n s) = n.
Proof. revert s. induction n as [|n IH]; intros [|c s]; simpl; by rewrite ?IH. Qed.

(** A signature spells the public half and the message. *)
#[export] Instance ed : Ed25519 :=
  {| publicOf seed := fit 32 ("pub-" +:+ seed); edSign seed msg := fit 32 ("pub-" +:+ seed) +:+ msg; edVerify pub msg sig := sig =s (pub +:+ msg);
     newSeed n := fit 32 (pretty n); bytes4 n := "abcd" |}.

#[export] Instance edLaws : Ed25519Laws.
Proof. split; intros; cbn [publicOf edSign edVerify newSeed ed]; [by apply bool_decide_eq_true_2|apply fit_length|apply fit_length]. Qed.

Definition crypto : CryptoService := mkCrypto {[1 := unbase64 "b2xk"]} 1.
Definition seed : string := fit 32 "installed".
Definition env : option string := Some (base64 (seed +:+ publicOf seed)).

Definition start : Keys := mkKeys [] None [] 0%N 1700000000000.

Definition claims : Claims := mkClaims "srv" "node:n" 1700000001 1700000001 1700000301 "jti-1" "u" "ws" ["websocket.connect"] None.

(** A start; then, after the token was signed, a rotation and another start. *)
Definition before : list KeyOp := [KBoot; KTick 1000].
Definition after : list KeyOp := [KTick 1000; KRotate "admin"; KBoot].

Definition verifier : TokenVerifier := mkVerifier ∅ None "node:n" 60.

End DemoKeys.

#[local] Existing Instance DemoCrypto.gcm.
#[local] Existing Instance DemoCrypto.gcmLaws.
#[local] Existing Instance DemoKeys.ed.
#[local] Existing Instance DemoKeys.edLaws.

Lemma demo_keysOk : keysOk DemoKeys.crypto DemoKeys.start.
Proof. split; simpl; [apply NoDup_nil_2|by intros r ?%not_elem_of_nil|by intros r ?%not_elem_of_nil|by intros r r' ?%not_elem_of_nil|done]. Qed.

Lemma demo_env raw : truthy DemoKeys.env = Some raw -> exists seed, unbase64 raw = seed +:+ publicOf seed.
Proof.
  intros Hr. exists DemoKeys.seed. rewrite <- (unbase64_base64 (DemoKeys.seed +:+ publicOf DemoKeys.seed)). f_equal.
  vm_compute in Hr. injection Hr as <-. reflexivity.
Qed.

Lemma tokens_outlive_rotation_witness :
  exists t s1, signToken DemoKeys.claims (runKeys DemoKeys.crypto DemoKeys.env DemoKeys.before DemoKeys.start) = (Ok t, s1) /\
    to_kid t = "seed-61626364" /\
    fst <$> k_current (runKeys DemoKeys.crypto DemoKeys.env DemoKeys.after s1) = Some "k-loyw3wls" /\
    Verify (refreshKeys (runKeys DemoKeys.crypto DemoKeys.env DemoKeys.after s1) DemoKeys.verifier) 1700000100 t "srv" "ws" = true /\
    Verify (refreshKeys (runKeys DemoKeys.crypto DemoKeys.env [KBoot] DemoKeys.start) DemoKeys.verifier) 1700000100 t "srv" "ws" = true.
Proof.
  destruct (signToken DemoKeys.claims (runKeys DemoKeys.crypto DemoKeys.env DemoKeys.before DemoKeys.start)) as [[t|e] s1] eqn:E; [|vm_compute in E; discriminate E].
  exists t, s1. split; [reflexivity|].
  assert (to_kid t = "seed-61626364") as Hk by (vm_compute in E; by injection E as <- _).
  assert (s1 = (signToken DemoKeys.claims (runKeys DemoKeys.crypto DemoKeys.env DemoKeys.before DemoKeys.start)).2) as E1 by (by rewrite E).
  split; [exact Hk|]. split; [rewrite E1; vm_compute; reflexivity|].
  assert (forall sf, fetchedIn DemoKeys.crypto DemoKeys.env DemoKeys.before DemoKeys.start s1 (to_kid t) sf ->
    Verify (refreshKeys sf DemoKeys.verifier) 1700000100 t "srv" "ws" = true) as Ht.
  { intros sf Hf. apply (tokens_outlive_rotation DemoCrypto.first DemoKeys.crypto DemoKeys.env eq_refl ltac:(simpl; lia) demo_env
      DemoKeys.before DemoKeys.start DemoKeys.claims t s1 sf DemoKeys.verifier 1700000100 demo_keysOk); [by repeat split|exact E|exact Hf|reflexivity|simpl; lia|simpl; lia|discriminate]. }
  split; apply Ht.
  - apply fetched_after; [by repeat split|]. intros a Ha. unfold DemoKeys.after in Ha. rewrite !elem_of_cons, elem_of_nil in Ha. destruct Ha as [?|[?|[?|[]]]]; discriminate.
  - apply (fetched_before _ _ _ _ _ _ [KBoot] [KTick 1000] DemoKeys.seed); [reflexivity|]. rewrite Hk. vm_compute. reflexivity.
Defined.
