(* ===== verification/PowerDns.v ===== *)
(** PowerDns: publishing names on the platform's own name servers.

    [gateway/dns/powerdns.dns-provider.ts], the [DnsProvider] behind Gateway: which names it may
    publish, the records it writes, and the cached view of the zone it uses to skip writes that
    would change nothing.  The PowerDNS server is a parameter: the records a zone shows and
    what a PATCH does to it. *)

From S2P Require Import Prelude JsNum Capacity Store Scheduler Subscriptions JsString Servers Accounts.
From Stdlib Require Import Ascii String Lia.

Local Open Scope Z_scope.

Definition ZONE_SNAPSHOT_TTL_MS : Z := 5000.

(** ** The zone *)

Record PowerDnsRRSet := mkRRSet { rs_name : string; rs_type : string; rs_ttl : option Z; rs_records : option (list (string * bool)) }.

(** One entry of a PATCH: [changetype] REPLACE or DELETE. *)
Inductive Change := Replace (rrset : PowerDnsRRSet) | Delete (name type : string).

(** The server, the literals [node:net] recognises, and the escaping of a URL segment. *)
Class NameServer := {
  Zone : Type;
  zoneView : Zone -> list PowerDnsRRSet;
  zonePatch : Zone -> list Change -> Zone;
  isIPv4 : string -> bool; isIPv6 : string -> bool;
  encodeURIComponent : string -> string }.

Definition isRRSet (name type : string) (r : PowerDnsRRSet) : bool := (rs_name r =s name) && (rs_type r =s type).

Definition findRRSet (name type : string) (view : list PowerDnsRRSet) : option PowerDnsRRSet := findFirst (isRRSet name type) view.

Inductive DnsRequest := GetZone (url key : string) | PatchZone (url key : string) (changes : list Change).

(** How a request ends: carried out; refused with a status and a text, without effect; or no
    answer in time, carried out or not. *)
Inductive DnsOutcome := Delivered | Refused (status : Z) (text : string) | Lost (msg : string) (carriedOut : bool).

(** The outcome and the duration of a request, given all requests so far, this one last. *)
Class DnsNetwork := { dnsOutcome : list DnsRequest -> DnsOutcome; dnsElapsed : list DnsRequest -> N }.

Record DnsSettings := mkDnsSettings {
  PUBLIC_GATEWAY_DNS_API_URL : option string; PUBLIC_GATEWAY_DNS_API_TOKEN : option string;
  PUBLIC_GATEWAY_DNS_SERVER_ID : option string; PUBLIC_GATEWAY_DNS_ZONE : option string; GATEWAY_HOSTNAME_ZONE : option string }.

(** The zone the server holds, the provider's cached view with its time, the requests sent and
    the clock. *)
Record DnsState `{NameServer} := mkDnsState { dn_zone : Zone; dn_snapshot : option (Z * list PowerDnsRRSet); dn_requests : list DnsRequest; dn_now : Z }.

Definition withSnapshot `{NameServer} (v : option (Z * list PowerDnsRRSet)) (s : DnsState) : DnsState :=
  mkDnsState _ (dn_zone s) v (dn_requests s) (dn_now s).

Abbreviation MD := (M DnsState).

Section Provider.
Context `{Platform} `{NameServer} `{DnsNetwork} (config : DnsSettings).

Definition unavailable (msg : string) : exn := Http msg 503.

(** ** Settings *)

Definition withoutSlash (url : string) : string :=
  if endsWith "/" url then String.substring 0 (String.length url - 1) url else url.

Definition apiUrl : Res string :=
  match truthy (PUBLIC_GATEWAY_DNS_API_URL config) with
  | Some url => Ok (withoutSlash url)
  | None => Throw (unavailable "PUBLIC_GATEWAY_DNS_API_URL is not configured")
  end.

Definition apiKey : Res string :=
  match truthy (PUBLIC_GATEWAY_DNS_API_TOKEN config) with
  | Some key => Ok key
  | None => Throw (unavailable "PUBLIC_GATEWAY_DNS_API_TOKEN is not configured")
  end.

Definition dnsServerId : string := default "localhost" (truthy (PUBLIC_GATEWAY_DNS_SERVER_ID config)).

Definition zoneName : Res string :=
  match truthy (PUBLIC_GATEWAY_DNS_ZONE config), truthy (GATEWAY_HOSTNAME_ZONE config) with
  | Some z, _ => Ok z
  | None, Some z => Ok z
  | None, None => Throw (unavailable "PUBLIC_GATEWAY_DNS_ZONE (or PUBLIC_GATEWAY_HOSTNAME_ZONE) is not configured")
  end.

Definition fqdn (name : string) : string := if endsWith "." name then name else name +:+ ".".

Definition canPublish (hostname : string) : bool :=
  match zoneName with
  | Throw _ => false
  | Ok zone =>
    let zone := toLowerCase (fqdn zone) in
    let name := toLowerCase (fqdn hostname) in
    (name =s zone) || endsWith ("." +:+ zone) name
  end.

Definition assertInZone (hostname : string) : Res unit :=
  if canPublish hostname then Ok tt
  else match zoneName with
       | Throw e => Throw e
       | Ok zone => Throw (unavailable (quoted hostname +:+ " is outside the PowerDNS-managed zone " +:+ quoted zone +:+ " — it cannot be published there"))
       end.

(** ** Requests *)

Definition zoneUrl : Res string :=
  url ← apiUrl;
  zone ← zoneName;
  mret (url +:+ "/api/v1/servers/" +:+ dnsServerId +:+ "/zones/" +:+ encodeURIComponent (fqdn zone)).

(** [fetch]: an answer, or the exception of a timeout. *)
Definition send (request : DnsRequest) (effect : Zone -> Zone) (verb : string) : MD unit := fun s =>
  let sent := dn_requests s ++ [request] in
  let after z := mkDnsState _ z (dn_snapshot s) sent (dn_now s + Z.of_N (dnsElapsed sent)) in
  match dnsOutcome sent with
  | Delivered => (Ok tt, after (effect (dn_zone s)))
  | Refused status text =>
    (Throw (unavailable ("PowerDNS API " +:+ verb +:+ " zone failed (" +:+ zstr status +:+ "): " +:+ text)), after (dn_zone s))
  | Lost msg done => (Throw (External msg), after (if done then effect (dn_zone s) else dn_zone s))
  end.

Definition patchRrsets (changes : list Change) : MD unit :=
  url ← lift zoneUrl;
  key ← lift apiKey;
  send (PatchZone url key changes) (fun z => zonePatch z changes) "PATCH" ;;
  modify (withSnapshot None).

Definition getZone : MD (list PowerDnsRRSet) :=
  url ← lift zoneUrl;
  key ← lift apiKey;
  send (GetZone url key) (fun z => z) "GET" ;;
  gets (fun s => zoneView (dn_zone s)).

Definition snapshotZone : MD (list PowerDnsRRSet) :=
  now ← gets dn_now;
  cached ← gets dn_snapshot;
  match cached with
  | Some (at_, zone) => if now - at_ <? ZONE_SNAPSHOT_TTL_MS then mret zone
                        else zone' ← getZone; modify (withSnapshot (Some (now, zone'))) ;; mret zone'
  | None => zone' ← getZone; modify (withSnapshot (Some (now, zone'))) ;; mret zone'
  end.

(** The contents that answer: disabled records do not. *)
Definition enabled (r : PowerDnsRRSet) : list string :=
  map fst (List.filter (fun c => negb (snd c)) (default [] (rs_records r))).

Definition matches (name type : string) (ttl : Z) (contents : list string) (zone : list PowerDnsRRSet) : bool :=
  match findRRSet name type zone with
  | None => false
  | Some existing => (rs_ttl existing =s Some ttl) && (sortBy String.leb (enabled existing) =s sortBy String.leb contents)
  end.

Definition rrsetIsCurrent (name type : string) (ttl : Z) (contents : list string) : MD bool :=
  tryCatch (zone ← snapshotZone; mret (matches name type ttl contents zone)) (fun _ => mret false).

(** ** Records *)

Definition srvName (hostname : string) : string := "_minecraft._tcp." +:+ hostname.

(** Write one rrset, unless the zone already has it. *)
Definition ensureRRSet (name type content : string) : MD unit :=
  current ← rrsetIsCurrent name type 60 [content];
  if (current : bool) then mret tt
  else patchRrsets [Replace (mkRRSet name type (Some 60) (Some [(content, false)]))].

Definition srvContent (target : string) (port : Z) : string := "0 0 " +:+ zstr port +:+ " " +:+ fqdn target.

Definition ensureSrv (hostname target : string) (port : Z) : MD unit :=
  lift (assertInZone (srvName hostname)) ;;
  ensureRRSet (fqdn (srvName hostname)) "SRV" (srvContent target port).

Definition removeSrv (hostname : string) : MD unit :=
  lift (assertInZone (srvName hostname)) ;;
  patchRrsets [Delete (fqdn (srvName hostname)) "SRV"].

Definition addressType (ip : string) : option string := if isIPv4 ip then Some "A" else if isIPv6 ip then Some "AAAA" else None.

Definition ensureAddressRecord (hostname ip : string) : MD unit :=
  lift (assertInZone hostname) ;;
  match addressType ip with
  | None => mret tt
  | Some type => ensureRRSet (fqdn hostname) type ip
  end.

Definition removeAddressRecord (hostname : string) : MD unit :=
  lift (assertInZone hostname) ;;
  patchRrsets [Delete (fqdn hostname) "A"; Delete (fqdn hostname) "AAAA"].

Definition isHostnameAvailable (hostname : string) : MD bool :=
  tryCatch
    (zone ← getZone;
     mret (negb (existsb (fun r => (rs_name r =s fqdn hostname) && (0 <? Z.of_nat (List.length (default [] (rs_records r))))) zone)))
    (fun _ => mret true).

End Provider.

(** ** What the server promises *)

(** The effect of one change on the rrset of a name and type. *)
Definition changed (name type : string) (before : option PowerDnsRRSet) (c : Change) : option PowerDnsRRSet :=
  match c with
  | Replace r => if isRRSet name type r then Some r else before
  | Delete n t => if (n =s name) && (t =s type) then None else before
  end.

(** REPLACE is an upsert, DELETE of what is not there does nothing, and the changes of a PATCH
    are applied in order. *)
Class NameServerLaws `{NameServer} : Prop := {
  patch_effect name type z changes :
    findRRSet name type (zoneView (zonePatch z changes)) = fold_left (changed name type) changes (findRRSet name type (zoneView z)) }.

(** A view is as good as the zone. *)
Definition agrees `{NameServer} (view : list PowerDnsRRSet) (z : Zone) : Prop :=
  forall name type, findRRSet name type view = findRRSet name type (zoneView z).

(** A cached view that may still be used agrees with the zone. *)
Definition coherent `{NameServer} (s : DnsState) : Prop :=
  forall at_ view, dn_snapshot s = Some (at_, view) -> dn_now s - at_ < ZONE_SNAPSHOT_TTL_MS -> agrees view (dn_zone s).

(** The name servers answer a name with exactly these contents. *)
Definition answers `{NameServer} (s : DnsState) (name type : string) (contents : list string) : Prop :=
  exists r, findRRSet name type (zoneView (dn_zone s)) = Some r /\ rs_ttl r = Some 60 /\ enabled r = contents.

Definition isPatch (r : DnsRequest) : bool := match r with PatchZone _ _ _ => true | GetZone _ _ => false end.

Lemma sortBy_singleton {A} (le : A -> A -> bool) l x : sortBy le l = sortBy le [x] -> l = [x].
Proof. intros E. apply Permutation_singleton_r. rewrite <- (sortBy_perm le l), E. done. Qed.

Section ProviderRules.
Context `{Platform} `{NameServer} `{DnsNetwork} (config : DnsSettings).

Lemma dnsSend_inv request effect verb s r s' : send request effect verb s = (r, s') ->
  dn_snapshot s' = dn_snapshot s /\ dn_now s <= dn_now s' /\ dn_requests s' = dn_requests s ++ [request] /\
  (r = Ok tt /\ dnsOutcome (dn_requests s ++ [request]) = Delivered /\ dn_zone s' = effect (dn_zone s) \/
   (exists e, r = Throw e) /\ dnsOutcome (dn_requests s ++ [request]) <> Delivered).
Proof.
  unfold send. destruct (dnsOutcome _) as [|status text|msg b] eqn:E; intros [= <- <-]; simpl; (split_and!; [done|lia|done|]); eauto.
Qed.

(** Reading leaves the zone alone, whatever the outcome. *)
Lemma getZone_inv s r s' : getZone config s = (r, s') ->
  dn_zone s' = dn_zone s /\ dn_snapshot s' = dn_snapshot s /\ dn_now s <= dn_now s' /\
  List.filter isPatch (dn_requests s') = List.filter isPatch (dn_requests s) /\
  (forall view, r = Ok view -> view = zoneView (dn_zone s)) /\
  ((forall sent, dnsOutcome sent = Delivered) -> (exists u, zoneUrl config = Ok u) -> (exists k, apiKey config = Ok k) -> r = Ok (zoneView (dn_zone s))).
Proof.
  unfold getZone, lift, mbind, M_bind. destruct (zoneUrl config) as [u|e]; [|intros [= <- <-]; split_and!; try done; try lia; by intros ? [??]].
  destruct (apiKey config) as [k|e]; [|intros [= <- <-]; split_and!; try done; try lia; by intros ? ? [??]].
  assert (dn_zone (send (GetZone u k) (fun z => z) "GET" s).2 = dn_zone s) as Ez.
  { unfold send. destruct (dnsOutcome _) as [|? ?|? []]; done. }
  destruct (send _ _ _ s) as [[[]|e] s1] eqn:E; apply dnsSend_inv in E as (E1 & E2 & E3 & E4); simpl in Ez; intros [= <- <-].
  - rewrite Ez. split_and!; try done. + rewrite E3, List.filter_app. apply app_nil_r. + by intros view [= <-].
  - rewrite E3, List.filter_app. simpl. rewrite app_nil_r. split_and!; try done.
    intros Hd. destruct E4 as [(? & _)|(_ & E4)]; [done|]. by destruct E4.
Qed.

Lemma coherent_later s s' : dn_zone s' = dn_zone s -> dn_snapshot s' = dn_snapshot s -> dn_now s <= dn_now s' -> coherent s -> coherent s'.
Proof. intros Ez Es Hn Hc at_ view Hv Ht. rewrite Ez. rewrite Es in Hv. apply (Hc at_ view Hv). lia. Qed.

Lemma snapshotZone_inv s r s' : coherent s -> snapshotZone config s = (r, s') ->
  dn_zone s' = dn_zone s /\ coherent s' /\ List.filter isPatch (dn_requests s') = List.filter isPatch (dn_requests s) /\
  (forall view, r = Ok view -> agrees view (dn_zone s)) /\
  ((forall sent, dnsOutcome sent = Delivered) -> (exists u, zoneUrl config = Ok u) -> (exists k, apiKey config = Ok k) -> exists view, r = Ok view).
Proof.
  intros Hc E.
  assert (forall now, (zone ← getZone config; modify (withSnapshot (Some (now, zone))) ;; mret zone) s = (r, s') ->
    dn_zone s' = dn_zone s /\ coherent s' /\ List.filter isPatch (dn_requests s') = List.filter isPatch (dn_requests s) /\
    (forall view, r = Ok view -> agrees view (dn_zone s)) /\
    ((forall sent, dnsOutcome sent = Delivered) -> (exists u, zoneUrl config = Ok u) -> (exists k, apiKey config = Ok k) -> exists view, r = Ok view)) as Fetch.
  { intros now Ef. unfold mbind at 1, M_bind at 1 in Ef. destruct (getZone config s) as [r0 s1] eqn:Eg.
    apply getZone_inv in Eg as (G1 & G2 & G3 & G4 & G5 & G6). destruct r0 as [view|e].
    - injection Ef as <- <-. specialize (G5 view eq_refl) as ->. split_and!; try done.
      + intros at_ v [= <- <-] _. simpl. by rewrite G1.
      + by intros v [= <-].
      + intros _ _ _. by eexists.
    - injection Ef as <- <-. split_and!; try done; [by apply (coherent_later s)|]. intros A B C. specialize (G6 A B C). done. }
  unfold snapshotZone in E. rewrite bind_gets, bind_gets in E. destruct (dn_snapshot s) as [[at_ view]|] eqn:Es; [|by apply Fetch in E].
  destruct (dn_now s - at_ <? ZONE_SNAPSHOT_TTL_MS) eqn:Et; [|by apply Fetch in E]. injection E as <- <-. split_and!; try done.
  - intros v [= <-]. apply (Hc at_ view Es). lia.
  - intros _ _ _. by eexists.
Qed.

Lemma matches_agree name type ttl contents view z : agrees view z -> matches name type ttl contents view = matches name type ttl contents (zoneView z).
Proof. intros Ha. unfold matches. by rewrite (Ha name type). Qed.

Lemma current_inv name type contents s r s' : coherent s -> rrsetIsCurrent config name type 60 contents s = (r, s') ->
  dn_zone s' = dn_zone s /\ coherent s' /\ List.filter isPatch (dn_requests s') = List.filter isPatch (dn_requests s) /\
  exists b, r = Ok b /\ (b = true -> matches name type 60 contents (zoneView (dn_zone s)) = true) /\
    ((forall sent, dnsOutcome sent = Delivered) -> (exists u, zoneUrl config = Ok u) -> (exists k, apiKey config = Ok k) ->
     b = matches name type 60 contents (zoneView (dn_zone s))).
Proof.
  intros Hc E. unfold rrsetIsCurrent in E. apply tryCatch_inv in E as [(b & E & ->)|(e & s1 & E & Eh)].
  - apply bind_ok in E as (view & s1 & E & Em). apply mret_ok in Em as [[= ->] ->]. apply snapshotZone_inv in E as (G1 & G2 & G3 & G4 & _); [|done].
    split_and!; try done. eexists. split; [reflexivity|]. rewrite (matches_agree _ _ _ _ _ _ (G4 view eq_refl)). done.
  - injection Eh as <- <-. apply bind_inv in E as [(e' & E & _)|(view & s2 & E & Em)]; [|done].
    apply snapshotZone_inv in E as (G1 & G2 & G3 & _ & G5); [|done]. split_and!; try done. exists false. split_and!; [done|done|].
    intros A B C. destruct (G5 A B C) as [v [=]].
Qed.

Lemma matches_answers name type content s : matches name type 60 [content] (zoneView (dn_zone s)) = true <-> answers s name type [content].
Proof.
  unfold matches, answers. destruct (findRRSet name type _) as [r|]; [|split; [done|by intros (? & ? & _)]].
  rewrite andb_true_iff, !bool_decide_eq_true. split.
  - intros [Ht Hs]. exists r. split_and!; [done|done|]. by eapply sortBy_singleton.
  - intros (r' & [= <-] & Ht & ->). done.
Qed.

Context `{!NameServerLaws}.

Lemma patch_inv changes s r s' : patchRrsets config changes s = (r, s') ->
  (exists e, r = Throw e) \/
  r = Ok tt /\ dn_snapshot s' = None /\ forall name type,
    findRRSet name type (zoneView (dn_zone s')) = fold_left (changed name type) changes (findRRSet name type (zoneView (dn_zone s))).
Proof.
  unfold patchRrsets, lift, mbind, M_bind. destruct (zoneUrl config) as [u|e]; [|intros [= <- _]; eauto].
  destruct (apiKey config) as [k|e]; [|intros [= <- _]; eauto].
  destruct (send _ _ _ s) as [[[]|e] s1] eqn:E; [|intros [= <- _]; eauto]. apply dnsSend_inv in E as (_ & _ & _ & [(_ & _ & Ez)|((e & [=]) & _)]).
  intros [= <- <-]. right. split_and!; [done|done|]. intros name type. simpl. rewrite Ez. apply patch_effect.
Qed.

Lemma ensureRRSet_inv name type content s s' : coherent s -> ensureRRSet config name type content s = (Ok tt, s') ->
  answers s' name type [content] /\ coherent s'.
Proof.
  intros Hc E. unfold ensureRRSet in E. apply bind_ok in E as (b & s1 & E1 & E). apply current_inv in E1 as (Z1 & C1 & _ & (? & [= <-] & Hb & _)); [|done].
  destruct b.
  - apply mret_ok in E as [_ ->]. split; [|done]. specialize (Hb eq_refl). apply matches_answers in Hb. unfold answers. by rewrite Z1.
  - apply patch_inv in E as [(e & [=])|(_ & Es & Hf)]. split; [|intros at_ v Hv; congruence].
    exists (mkRRSet name type (Some 60) (Some [(content, false)])). rewrite Hf. simpl. unfold isRRSet. simpl. by rewrite !bool_decide_eq_true_2.
Qed.

(** A published name answers.  When [ensureAddressRecord] or [ensureSrv] returns, whether it
    wrote or trusted its cached view, the name servers answer the name with exactly the
    address (or the service) asked for; and the view it keeps agrees with the zone. *)
Theorem published_name_answers hostname ip target port s s' : coherent s ->
  (ensureAddressRecord config hostname ip s = (Ok tt, s') -> forall type, addressType ip = Some type -> answers s' (fqdn hostname) type [ip] /\ coherent s') /\
  (ensureSrv config hostname target port s = (Ok tt, s') -> answers s' (fqdn (srvName hostname)) "SRV" [srvContent target port] /\ coherent s').
Proof.
  intros Hc. split.
  - intros E type Ht. unfold ensureAddressRecord in E. apply bind_ok in E as (? & s1 & E1 & E). apply lift_ok in E1 as [_ ->]. rewrite Ht in E.
    by apply ensureRRSet_inv in E.
  - intros E. unfold ensureSrv in E. apply bind_ok in E as (? & s1 & E1 & E). apply lift_ok in E1 as [_ ->]. by apply ensureRRSet_inv in E.
Qed.

(** Publishing what already answers writes nothing: no PATCH is sent, so the serial of the zone
    does not move. *)
Theorem republishing_writes_nothing name type content s r s' : coherent s -> answers s name type [content] ->
  (forall sent, dnsOutcome sent = Delivered) -> (exists u, zoneUrl config = Ok u) -> (exists k, apiKey config = Ok k) ->
  ensureRRSet config name type content s = (r, s') ->
  r = Ok tt /\ dn_zone s' = dn_zone s /\ List.filter isPatch (dn_requests s') = List.filter isPatch (dn_requests s).
Proof.
  intros Hc Ha Hd Hu Hk E. unfold ensureRRSet in E. apply bind_inv in E as [(e & E & _)|(b & s1 & E1 & E)].
  - apply current_inv in E as (_ & _ & _ & (b & [=] & _)); done.
  - apply current_inv in E1 as (Z1 & _ & P1 & (? & [= <-] & _ & Hb)); [|done]. rewrite (Hb Hd Hu Hk) in E.
    rewrite (proj2 (matches_answers name type content s) Ha) in E. by apply mret_ok in E as [-> ->].
Qed.

(** A removed name no longer answers. *)
Theorem removed_name_silent hostname s s' : removeAddressRecord config hostname s = (Ok tt, s') ->
  findRRSet (fqdn hostname) "A" (zoneView (dn_zone s')) = None /\ findRRSet (fqdn hostname) "AAAA" (zoneView (dn_zone s')) = None /\ coherent s'.
Proof.
  intros E. unfold removeAddressRecord in E. apply bind_ok in E as (? & s1 & E1 & E). apply lift_ok in E1 as [_ ->].
  apply patch_inv in E as [(e & [=])|(_ & Es & Hf)]. split_and!; [| |intros at_ v Hv; congruence]; rewrite Hf; simpl; rewrite !bool_decide_eq_true_2 by done; simpl; done.
Qed.
End ProviderRules.

(** ** Witnesses *)

Module DemoDns.

Definition applyChange (z : list PowerDnsRRSet) (c : Change) : list PowerDnsRRSet :=
  match c with
  | Replace r => r :: List.filter (fun x => negb (isRRSet (rs_name r) (rs_type r) x)) z
  | Delete n t => List.filter (fun x => negb (isRRSet n t x)) z
  end.

#[export] Instance nameServer : NameServer :=
  {| Zone := list PowerDnsRRSet; zoneView z := z; zonePatch z cs := fold_left applyChange cs z;
     isIPv4 s := negb (includesStr ":" s); isIPv6 s := includesStr ":" s; encodeURIComponent s := s |}.

Definition settings : DnsSettings := mkDnsSettings (Some "http://ns1:8081/") (Some "key") None (Some "mc.example.com") None.

Definition start : DnsState := mkDnsState _ [] None [] 1000.

(** Every request is carried out at once. *)
#[export] Instance network : DnsNetwork := {| dnsOutcome _ := Delivered; dnsElapsed _ := 20%N |}.

(** The connection breaks on the fourth request, after the server carried it out. *)
Definition unlucky : DnsNetwork :=
  {| dnsOutcome sent := if (List.length sent =? 4)%nat then Lost "fetch failed" true else Delivered; dnsElapsed _ := 20%N |}.

End DemoDns.

#[local] Existing Instance Demo.platform.
#[local] Existing Instance DemoDns.nameServer.

Lemma find_kept n t (p : PowerDnsRRSet -> bool) z : (forall x, isRRSet n t x = true -> p x = true) ->
  findRRSet n t (List.filter p z) = findRRSet n t z.
Proof.
  intros Hp. unfold findRRSet, findFirst. induction z as [|x z IH]; simpl; [done|]. destruct (p x) eqn:Ep; simpl; [by rewrite IH|].
  destruct (isRRSet n t x) eqn:E; [|done]. rewrite Hp in Ep by done. done.
Qed.

Lemma find_dropped n t z : findRRSet n t (List.filter (fun x => negb (isRRSet n t x)) z) = None.
Proof. unfold findRRSet, findFirst. induction z as [|x z IH]; simpl; [done|]. destruct (isRRSet n t x) eqn:E; simpl; [done|]. by rewrite E. Qed.

Lemma isRRSet_eq n t x : isRRSet n t x = true -> rs_name x = n /\ rs_type x = t.
Proof. unfold isRRSet. by rewrite andb_true_iff, !bool_decide_eq_true. Qed.

(** Removing another rrset, or this one. *)
Lemma find_removed n t n' t' z :
  findRRSet n t (List.filter (fun x => negb (isRRSet n' t' x)) z) = if (n' =s n) && (t' =s t) then None else findRRSet n t z.
Proof.
  destruct ((n' =s n) && (t' =s t)) eqn:E.
  - apply andb_true_iff in E as [->%bool_decide_eq_true ->%bool_decide_eq_true]. apply find_dropped.
  - apply find_kept. intros x [En Et]%isRRSet_eq. apply negb_true_iff. unfold isRRSet. rewrite En, Et.
    rewrite andb_false_iff, !bool_decide_eq_false in *. naive_solver.
Qed.

#[local] Instance demo_nameServerLaws : NameServerLaws.
Proof.
  split. intros n t z cs. cbn. revert z. induction cs as [|c cs IH]; intros z; [done|]. cbn [fold_left]. rewrite IH. f_equal.
  destruct c as [r|n' t']; cbn [DemoDns.applyChange changed].
  - cbn [List.find]. destruct (isRRSet n t r) eqn:E; [done|]. pose proof (find_removed n t (rs_name r) (rs_type r) z) as F.
    unfold isRRSet in E. rewrite E in F. exact F.
  - apply find_removed.
Qed.

Lemma demo_coherent : coherent DemoDns.start.
Proof. intros at_ view [=]. Qed.

#[local] Existing Instance DemoDns.network.

Lemma published_name_answers_witness :
  exists s', ensureAddressRecord DemoDns.settings "abc.mc.example.com" "10.0.0.1" DemoDns.start = (Ok tt, s') /\
    answers s' "abc.mc.example.com." "A" ["10.0.0.1"].
Proof.
  destruct (ensureAddressRecord DemoDns.settings "abc.mc.example.com" "10.0.0.1" DemoDns.start) as [[[]|e] s'] eqn:E; [|vm_compute in E; discriminate E].
  exists s'. split; [reflexivity|].
  apply (published_name_answers DemoDns.settings "abc.mc.example.com" "10.0.0.1" "gw" 25565 DemoDns.start s' demo_coherent); [exact E|reflexivity].
Defined.

(** A view the provider keeps is trusted, whatever the zone holds: one read before a write of
    its own and stored after it makes the next publication a no-op. *)
Theorem kept_view_is_trusted name type content s now view : matches name type 60 [content] view = true -> dn_now s - now < ZONE_SNAPSHOT_TTL_MS ->
  ensureRRSet DemoDns.settings name type content (withSnapshot (Some (now, view)) s) = (Ok tt, withSnapshot (Some (now, view)) s).
Proof.
  intros Hm Ht. unfold ensureRRSet, rrsetIsCurrent, snapshotZone, mbind, M_bind, tryCatch, gets. simpl.
  assert ((dn_now s - now <? ZONE_SNAPSHOT_TTL_MS) = true) as -> by lia. simpl. by rewrite Hm.
Qed.

(** A removal whose answer is lost keeps the view from before it: the name is published again
    within five seconds, successfully, and does not answer. *)
Theorem lost_removal_hides_name :
  let publish := @ensureAddressRecord _ _ DemoDns.unlucky DemoDns.settings "abc.mc.example.com" "10.0.0.1" in
  let s1 := (publish DemoDns.start).2 in
  let s2 := (publish s1).2 in
  let removal := @removeAddressRecord _ _ DemoDns.unlucky DemoDns.settings "abc.mc.example.com" s2 in
  removal.1 = Throw (External "fetch failed") /\ (publish removal.2).1 = Ok tt /\
  findRRSet "abc.mc.example.com." "A" (zoneView (dn_zone (publish removal.2).2)) = None.
Proof. vm_compute. done. Qed.
