(* ===== verification/Presets.v ===== *)
(** Presets: the built-in game software.

    The tables of [templates/software-presets.ts]: the kinds, the known versions of each, and what
    a template created from a preset starts with.  An install script is kept as its bash source,
    with [~] for the double quote; [scriptText] puts the quotes back. *)

From S2P Require Import Prelude JsNum Store JsString Dto Variables.
From Stdlib Require Import Ascii String.

Local Open Scope Z_scope.

(** ** Kinds and versions *)

Inductive PresetKind := preset_paper | preset_fabric | preset_quilt | preset_vanilla | preset_forge | preset_neoforge | preset_purpur.
#[export] Instance PresetKind_eq : EqDecision PresetKind.
Proof. solve_decision. Defined.

Definition PRESET_KINDS : list PresetKind :=
  [preset_paper; preset_fabric; preset_quilt; preset_vanilla; preset_forge; preset_neoforge; preset_purpur].

Definition presetStr (k : PresetKind) : string :=
  match k with
  | preset_paper => "paper" | preset_fabric => "fabric" | preset_quilt => "quilt" | preset_vanilla => "vanilla" | preset_forge => "forge"
  | preset_neoforge => "neoforge" | preset_purpur => "purpur"
  end.

(** [template.softwareKind in SOFTWARE_PRESETS]. *)
Definition presetOf (kind : string) : option PresetKind := findFirst (fun k => presetStr k =s kind) PRESET_KINDS.

Definition KNOWN_MINECRAFT_VERSIONS (k : PresetKind) : list string :=
  match k with
  | preset_vanilla => [
      "26.3"; "26.2"; "26.1.2"; "26.1.1"; "26.1"; "1.21.11"; "1.21.10"; "1.21.9"; "1.21.8"; "1.21.7"; "1.21.6"; "1.21.5";
      "1.21.4"; "1.21.3"; "1.21.2"; "1.21.1"; "1.21"; "1.20.6"; "1.20.5"; "1.20.4"; "1.20.3"; "1.20.2"; "1.20.1"; "1.20";
      "1.19.4"; "1.19.3"; "1.19.2"; "1.19.1"; "1.19"; "1.18.2"; "1.18.1"; "1.18"; "1.17.1"; "1.17"; "1.16.5"; "1.16.4"; "1.16.3";
      "1.16.2"; "1.16.1"; "1.16"; "1.15.2"; "1.15.1"; "1.15"; "1.14.4"; "1.14.3"; "1.14.2"; "1.14.1"; "1.14"; "1.13.2"; "1.13.1";
      "1.13"; "1.12.2"; "1.12.1"; "1.12"; "1.11.2"; "1.11.1"; "1.11"; "1.10.2"; "1.10.1"; "1.10"; "1.9.4"; "1.9.3"; "1.9.2";
      "1.9.1"; "1.9"; "1.8.9"; "1.8.8"; "1.8.7"; "1.8.6"; "1.8.5"; "1.8.4"; "1.8.3"; "1.8.2"; "1.8.1"; "1.8"; "1.7.10"; "1.7.9";
      "1.7.8"; "1.7.7"; "1.7.6"; "1.7.5"; "1.7.4"; "1.7.3"; "1.7.2"; "1.6.4"; "1.6.2"; "1.6.1"; "1.5.2"; "1.5.1"; "1.4.7";
      "1.4.6"; "1.4.5"; "1.4.4"; "1.4.2"; "1.3.2"; "1.3.1"; "1.2.5"; "1.2.4"; "1.2.3"; "1.2.2"; "1.2.1"; "1.1"; "1.0"]
  | preset_paper => [
      "26.3"; "26.2"; "26.1.2"; "26.1.1"; "1.21.11"; "1.21.10"; "1.21.9"; "1.21.8"; "1.21.7"; "1.21.6"; "1.21.5"; "1.21.4";
      "1.21.3"; "1.21.1"; "1.21"; "1.20.6"; "1.20.5"; "1.20.4"; "1.20.2"; "1.20.1"; "1.20"; "1.19.4"; "1.19.3"; "1.19.2";
      "1.19.1"; "1.19"; "1.18.2"; "1.18.1"; "1.18"; "1.17.1"; "1.17"; "1.16.5"; "1.16.4"; "1.16.3"; "1.16.2"; "1.16.1"; "1.15.2";
      "1.15.1"; "1.15"; "1.14.4"; "1.14.3"; "1.14.2"; "1.14.1"; "1.14"; "1.13.2"; "1.13.1"; "1.13"; "1.12.2"; "1.12.1"; "1.12";
      "1.11.2"; "1.10.2"; "1.9.4"; "1.8.8"; "1.7.10"]
  | preset_purpur => [
      "26.3"; "26.2"; "26.1.2"; "1.21.11"; "1.21.10"; "1.21.9"; "1.21.8"; "1.21.7"; "1.21.6"; "1.21.5"; "1.21.4"; "1.21.3";
      "1.21.1"; "1.21"; "1.20.6"; "1.20.4"; "1.20.2"; "1.20.1"; "1.20"; "1.19.4"; "1.19.3"; "1.19.2"; "1.19.1"; "1.19"; "1.18.2";
      "1.18.1"; "1.18"; "1.17.1"; "1.17"; "1.16.5"; "1.16.4"; "1.16.3"; "1.16.2"; "1.16.1"; "1.15.2"; "1.15.1"; "1.15"; "1.14.4";
      "1.14.3"; "1.14.2"; "1.14.1"]
  | preset_fabric => [
      "26.3"; "26.2"; "26.1.2"; "26.1.1"; "26.1"; "1.21.11"; "1.21.10"; "1.21.9"; "1.21.8"; "1.21.7"; "1.21.6"; "1.21.5";
      "1.21.4"; "1.21.3"; "1.21.2"; "1.21.1"; "1.21"; "1.20.6"; "1.20.5"; "1.20.4"; "1.20.3"; "1.20.2"; "1.20.1"; "1.20";
      "1.19.4"; "1.19.3"; "1.19.2"; "1.19.1"; "1.19"; "1.18.2"; "1.18.1"; "1.18"; "1.17.1"; "1.17"; "1.16.5"; "1.16.4"; "1.16.3";
      "1.16.2"; "1.16.1"; "1.16"; "1.15.2"; "1.15.1"; "1.15"; "1.14.4"; "1.14.3"; "1.14.2"; "1.14.1"; "1.14"]
  | preset_quilt => [
      "26.2"; "26.1.2"; "26.1.1"; "26.1"; "1.21.11"; "1.21.10"; "1.21.9"; "1.21.8"; "1.21.7"; "1.21.6"; "1.21.5"; "1.21.4";
      "1.21.3"; "1.21.2"; "1.21.1"; "1.21"; "1.20.6"; "1.20.5"; "1.20.4"; "1.20.3"; "1.20.2"; "1.20.1"; "1.20"; "1.19.4";
      "1.19.3"; "1.19.2"; "1.19.1"; "1.19"; "1.18.2"; "1.18.1"; "1.18"; "1.17.1"; "1.17"; "1.16.5"; "1.16.4"; "1.16.3"; "1.16.2";
      "1.16.1"; "1.16"; "1.15.2"; "1.15.1"; "1.15"; "1.14.4"; "1.14.3"; "1.14.2"; "1.14.1"; "1.14"]
  | preset_forge => [
      "26.2"; "26.1.2"; "26.1.1"; "26.1"; "1.21.11"; "1.21.10"; "1.21.9"; "1.21.8"; "1.21.7"; "1.21.6"; "1.21.5"; "1.21.4";
      "1.21.3"; "1.21.1"; "1.21"; "1.20.6"; "1.20.4"; "1.20.3"; "1.20.2"; "1.20.1"; "1.20"; "1.19.4"; "1.19.3"; "1.19.2";
      "1.19.1"; "1.19"; "1.18.2"; "1.18.1"; "1.18"; "1.17.1"; "1.16.5"; "1.16.4"; "1.16.3"; "1.16.2"; "1.16.1"; "1.15.2";
      "1.15.1"; "1.15"; "1.14.4"; "1.14.3"; "1.14.2"; "1.13.2"; "1.12.2"; "1.12.1"; "1.12"; "1.11.2"; "1.11"; "1.10.2"; "1.10";
      "1.9.4"; "1.9"; "1.8.9"; "1.8.8"; "1.8"; "1.7.10"; "1.7.2"; "1.6.4"; "1.6.3"; "1.6.2"; "1.6.1"; "1.5.2"; "1.5.1"; "1.5";
      "1.4.7"; "1.4.6"; "1.4.5"; "1.4.4"; "1.4.3"; "1.4.2"; "1.4.1"; "1.4.0"; "1.3.2"; "1.2.5"; "1.2.4"; "1.2.3"; "1.1"]
  | preset_neoforge => [
      "26.3"; "26.2"; "26.1.2"; "26.1.1"; "26.1"; "1.21.11"; "1.21.10"; "1.21.9"; "1.21.8"; "1.21.7"; "1.21.6"; "1.21.5";
      "1.21.4"; "1.21.3"; "1.21.2"; "1.21.1"; "1.21"; "1.20.6"; "1.20.5"; "1.20.4"; "1.20.3"; "1.20.2"; "1.20.1"]
  end.

(** ** Preset data *)

Record VariableDto := mkVariableDto {
  vd_name : string; vd_description : Field string; vd_envVariable : string; vd_defaultValue : Field string; vd_rules : Field string;
  vd_isUserViewable : Field bool; vd_isUserEditable : Field bool; vd_sortOrder : Field Z }.

Record TemplatePreset := mkPreset {
  ps_name : string; ps_description : string; ps_dockerImages : list (string * string); ps_startupCommand : string; ps_stopCommand : string;
  ps_installImage : string; ps_installEntrypoint : string; ps_installScript : string; ps_softwareKind : PresetKind;
  ps_variables : list VariableDto; ps_versionVariable : string; ps_buildVariable : option string }.

Definition JAVA_IMAGES : list (string * string) :=
  [("Java 8", "ghcr.io/pterodactyl/yolks:java_8"); ("Java 17", "ghcr.io/pterodactyl/yolks:java_17");
   ("Java 21", "ghcr.io/pterodactyl/yolks:java_21"); ("Java 25", "ghcr.io/pterodactyl/yolks:java_25")].

Definition STANDARD_STARTUP_COMMAND : string := "java -Xms128M -Xmx{{SERVER_MEMORY}}M -jar {{SERVER_JARFILE}} nogui".
Definition MODLOADER_STARTUP_COMMAND : string := "java -Xms128M -Xmx{{SERVER_MEMORY}}M @unix_args.txt nogui".
Definition INSTALL_IMAGE : string := "ghcr.io/parkervcp/installers:debian".
Definition JAVA_INSTALL_IMAGE : string := "ghcr.io/parkervcp/installers:java_25".
Definition INSTALL_ENTRYPOINT : string := "bash".

Definition serverMemoryVariable (sortOrder : Z) : VariableDto :=
  mkVariableDto "Server Memory (MB)"
    (Val "Java heap (-Xmx), derived from the plan memory with JVM headroom (see jvmHeapMb). Set by the plan, not directly editable.")
    "SERVER_MEMORY" (Val "1024") (Val "required|integer|min:512") (Val true) (Val false) (Val sortOrder).

Definition jarFileVariable (defaultValue : string) : VariableDto :=
  mkVariableDto "Server Jar File" (Val "The name of the server jar to execute.") "SERVER_JARFILE" (Val defaultValue) (Val "required|string|max:64")
    (Val true) (Val true) (Val 0).

Definition minecraftVersionVariable (description : string) : VariableDto :=
  mkVariableDto "Minecraft Version" (Val description) "MINECRAFT_VERSION" (Val "latest") (Val "required|string|max:16") (Val true) (Val true) (Val 1).

(** ** Install scripts *)

Fixpoint scriptText (s : string) : string :=
  match s with
  | EmptyString => EmptyString
  | String c s' => String (if Ascii.eqb c "~" then ascii_of_N 34 else c) (scriptText s')
  end.

Definition WRITE_ARGS_FILE : string :=
  scriptText "ARGS_FILE=$(find libraries -name unix_args.txt 2>/dev/null | head -n1)
if [ -n ~$ARGS_FILE~ ]; then
  cp ~$ARGS_FILE~ unix_args.txt
else
  LEGACY_JAR=$(find . -maxdepth 1 \( -name ~*-shim.jar~ -o -name ~*-universal.jar~ \) | head -n1)
  if [ -z ~$LEGACY_JAR~ ]; then
    echo ~Installer produced neither a unix_args.txt nor a runnable jar~ >&2
    exit 1
  fi
  mv ~$LEGACY_JAR~ ~${SERVER_JARFILE}~
  printf -- '-jar\n%s\n' ~${SERVER_JARFILE}~ > unix_args.txt
fi".

Definition CLEAN_STALE_MODLOADER_ARTIFACTS : string :=
  scriptText "rm -f unix_args.txt
rm -rf libraries
find . -maxdepth 1 \( -name ~*-shim.jar~ -o -name ~*-universal.jar~ \) -delete".

Definition PAPER_INSTALL_SCRIPT : string :=
  scriptText "#!/bin/bash
set -euo pipefail
cd /mnt/server

: ~${MINECRAFT_VERSION:=latest}~
: ~${PAPER_BUILD:=latest}~
: ~${SERVER_JARFILE:=server.jar}~

PAPER_API=~https://fill.papermc.io/v3/projects/paper~

if [ ~$MINECRAFT_VERSION~ == ~latest~ ]; then
  # v3 groups versions by minor release ({~26.3~:[~26.3~,~26.3-rc-3~],
  # ~26.2~:[...], ...}), with both the groups and the entries inside each
  # group already newest-first — so the first entry of the first group is
  # the newest release, and skipping the rest of the group skips its
  # release candidates.
  MINECRAFT_VERSION=$(curl -fsSL ~$PAPER_API~ | jq -r '.versions | to_entries | .[0].value[0] // empty')
fi
if [ -z ~$MINECRAFT_VERSION~ ]; then
  echo ~Could not resolve a Paper version from $PAPER_API~ >&2
  exit 1
fi

BUILDS=$(curl -fsSL ~${PAPER_API}/versions/${MINECRAFT_VERSION}/builds~)
if [ ~$PAPER_BUILD~ == ~latest~ ]; then
  BUILD=$(echo ~$BUILDS~ | jq -r '.[0] // empty')
else
  BUILD=$(echo ~$BUILDS~ | jq -r --arg b ~$PAPER_BUILD~ '[.[] | select((.id | tostring) == $b)][0] // empty')
fi
if [ -z ~$BUILD~ ]; then
  echo ~No Paper build \~${PAPER_BUILD}\~ exists for Minecraft ${MINECRAFT_VERSION}~ >&2
  exit 1
fi

PAPER_BUILD=$(echo ~$BUILD~ | jq -r '.id')
# v3 serves content-addressed download URLs (the sha256 is IN the path),
# so unlike the sunset v2 API this one CANNOT be assembled by hand — it
# has to be read back out of the build object.
DOWNLOAD_URL=$(echo ~$BUILD~ | jq -r '.downloads[~server:default~].url // empty')
EXPECTED_SHA256=$(echo ~$BUILD~ | jq -r '.downloads[~server:default~].checksums.sha256 // empty')
if [ -z ~$DOWNLOAD_URL~ ]; then
  echo ~Paper build ${PAPER_BUILD} has no server:default download~ >&2
  exit 1
fi

echo ~Downloading Paper ${MINECRAFT_VERSION} build ${PAPER_BUILD}...~
curl -fsSL -o ~${SERVER_JARFILE}~ ~$DOWNLOAD_URL~

if [ -n ~$EXPECTED_SHA256~ ]; then
  echo ~${EXPECTED_SHA256}  ${SERVER_JARFILE}~ | sha256sum -c -
fi

echo ~eula=true~ > eula.txt
if grep -q '^server-port=' server.properties 2>/dev/null; then
  sed -i ~s/^server-port=.*/server-port=${SERVER_PORT}/~ server.properties
else
  echo ~server-port=${SERVER_PORT}~ >> server.properties
fi
echo ~Install complete.~
".

Definition FABRIC_INSTALL_SCRIPT : string :=
  scriptText "#!/bin/bash
set -euo pipefail
cd /mnt/server

: ~${MINECRAFT_VERSION:=latest}~
: ~${FABRIC_LOADER_VERSION:=latest}~
: ~${SERVER_JARFILE:=fabric-server-launch.jar}~

if [ ~$MINECRAFT_VERSION~ == ~latest~ ]; then
  MINECRAFT_VERSION=$(curl -fsSL https://meta.fabricmc.net/v2/versions/game | jq -r '[.[] | select(.stable == true)][0].version')
fi
if [ ~$FABRIC_LOADER_VERSION~ == ~latest~ ]; then
  FABRIC_LOADER_VERSION=$(curl -fsSL https://meta.fabricmc.net/v2/versions/loader | jq -r '[.[] | select(.stable == true)][0].version')
fi
INSTALLER_VERSION=$(curl -fsSL https://meta.fabricmc.net/v2/versions/installer | jq -r '[.[] | select(.stable == true)][0].version')

echo ~Downloading Fabric installer ${INSTALLER_VERSION}...~
curl -fsSL -o fabric-installer.jar ~https://maven.fabricmc.net/net/fabricmc/fabric-installer/${INSTALLER_VERSION}/fabric-installer-${INSTALLER_VERSION}.jar~
java -jar fabric-installer.jar server -mcversion ~$MINECRAFT_VERSION~ -loader ~$FABRIC_LOADER_VERSION~ -downloadMinecraft
rm -f fabric-installer.jar

# The installer writes TWO jars, and which one is which matters:
# fabric-server-launch.jar is the launcher you are meant to run (a few
# hundred bytes — it loads the real loader out of libraries/), while
# server.jar is the plain vanilla Minecraft server it just downloaded FOR
# that launcher to boot. Renaming server.jar onto SERVER_JARFILE — which
# DEFAULTS to fabric-server-launch.jar — therefore overwrote the launcher
# with vanilla, so every ~Fabric~ server here started a stock vanilla
# server that ignored mods/ entirely (found live: a 1.20.1 Fabric server
# whose log went straight to ~Starting minecraft server version 1.20.1~
# with no Fabric loader line at all). Only the LAUNCHER may be renamed,
# and only when a custom filename was asked for; server.jar has to stay
# exactly where the launcher expects to find it.
if [ ~${SERVER_JARFILE}~ != ~fabric-server-launch.jar~ ]; then
  mv fabric-server-launch.jar ~${SERVER_JARFILE}~
fi

echo ~eula=true~ > eula.txt
if grep -q '^server-port=' server.properties 2>/dev/null; then
  sed -i ~s/^server-port=.*/server-port=${SERVER_PORT}/~ server.properties
else
  echo ~server-port=${SERVER_PORT}~ >> server.properties
fi
echo ~Install complete.~
".

Definition QUILT_INSTALL_SCRIPT : string :=
  scriptText "#!/bin/bash
set -euo pipefail
cd /mnt/server

: ~${MINECRAFT_VERSION:=latest}~
: ~${QUILT_LOADER_VERSION:=latest}~
: ~${SERVER_JARFILE:=quilt-server-launch.jar}~

if [ ~$MINECRAFT_VERSION~ == ~latest~ ]; then
  MINECRAFT_VERSION=$(curl -fsSL -A ~gxhost-hosting-panel/0.1.0~ https://meta.quiltmc.org/v3/versions/game | jq -r '[.[] | select(.stable == true)][0].version')
fi
if [ ~$QUILT_LOADER_VERSION~ == ~latest~ ]; then
  QUILT_LOADER_VERSION=$(curl -fsSL -A ~gxhost-hosting-panel/0.1.0~ https://meta.quiltmc.org/v3/versions/loader | jq -r '[.[] | select(.version | test(~-(alpha|beta|rc)~; ~i~) | not)][0].version')
fi
INSTALLER_URL=$(curl -fsSL -A ~gxhost-hosting-panel/0.1.0~ https://meta.quiltmc.org/v3/versions/installer | jq -r '.[0].url')

echo ~Downloading Quilt installer...~
curl -fsSL -o quilt-installer.jar ~$INSTALLER_URL~
java -jar quilt-installer.jar install server ~$MINECRAFT_VERSION~ ~$QUILT_LOADER_VERSION~ --download-server --install-dir=.
rm -f quilt-installer.jar

# Same reasoning as the Fabric block above: the Quilt installer also
# writes a small launcher (quilt-server-launch.jar) next to the vanilla
# server.jar it downloads, and only the LAUNCHER may be renamed.
if [ -f quilt-server-launch.jar ] && [ ~${SERVER_JARFILE}~ != ~quilt-server-launch.jar~ ]; then
  mv quilt-server-launch.jar ~${SERVER_JARFILE}~
fi

echo ~eula=true~ > eula.txt
if grep -q '^server-port=' server.properties 2>/dev/null; then
  sed -i ~s/^server-port=.*/server-port=${SERVER_PORT}/~ server.properties
else
  echo ~server-port=${SERVER_PORT}~ >> server.properties
fi
echo ~Install complete.~
".

Definition VANILLA_INSTALL_SCRIPT : string :=
  scriptText "#!/bin/bash
set -euo pipefail
cd /mnt/server

: ~${MINECRAFT_VERSION:=latest}~
: ~${SERVER_JARFILE:=server.jar}~

MANIFEST=$(curl -fsSL https://launchermeta.mojang.com/mc/game/version_manifest.json)
if [ ~$MINECRAFT_VERSION~ == ~latest~ ]; then
  MINECRAFT_VERSION=$(echo ~$MANIFEST~ | jq -r '.latest.release')
fi
VERSION_URL=$(echo ~$MANIFEST~ | jq -r --arg v ~$MINECRAFT_VERSION~ '.versions[] | select(.id == $v) | .url')
DOWNLOAD_URL=$(curl -fsSL ~$VERSION_URL~ | jq -r '.downloads.server.url')

echo ~Downloading vanilla Minecraft ${MINECRAFT_VERSION}...~
curl -fsSL -o ~${SERVER_JARFILE}~ ~$DOWNLOAD_URL~

echo ~eula=true~ > eula.txt
if grep -q '^server-port=' server.properties 2>/dev/null; then
  sed -i ~s/^server-port=.*/server-port=${SERVER_PORT}/~ server.properties
else
  echo ~server-port=${SERVER_PORT}~ >> server.properties
fi
echo ~Install complete.~
".

Definition FORGE_INSTALL_SCRIPT : string :=
  scriptText "#!/bin/bash
set -euo pipefail
cd /mnt/server

: ~${MINECRAFT_VERSION:=latest}~
: ~${FORGE_VERSION:=latest}~
: ~${SERVER_JARFILE:=server.jar}~

" +:+
  CLEAN_STALE_MODLOADER_ARTIFACTS +:+
  scriptText "

PROMOTIONS=$(curl -fsSL https://files.minecraftforge.net/net/minecraftforge/forge/promotions_slim.json)

if [ ~$MINECRAFT_VERSION~ == ~latest~ ]; then
  MINECRAFT_VERSION=$(echo ~$PROMOTIONS~ | jq -r '.promos | keys[]' | grep -E '^[0-9.]+-recommended$' | sed 's/-recommended$//' | sort -V | tail -n1)
fi

if [ ~$FORGE_VERSION~ == ~latest~ ]; then
  FORGE_VERSION=$(echo ~$PROMOTIONS~ | jq -r --arg v ~$MINECRAFT_VERSION~ '.promos[($v + ~-latest~)] // .promos[($v + ~-recommended~)]')
fi

FULL_VERSION=~${MINECRAFT_VERSION}-${FORGE_VERSION}~
INSTALLER_URL=~https://maven.minecraftforge.net/net/minecraftforge/forge/${FULL_VERSION}/forge-${FULL_VERSION}-installer.jar~
echo ~Downloading Forge installer ${FULL_VERSION}...~
if ! curl -fsSL -o forge-installer.jar ~$INSTALLER_URL~; then
  # A handful of legacy builds (found live on 1.7.10-10.13.4.1614) publish
  # under a Maven artifact version with the Minecraft version repeated as
  # a trailing suffix (~.../1.7.10-10.13.4.1614-1.7.10/...~) that
  # promotions_slim.json's plain ~<mcVersion>-<build>~ never reflects —
  # the first attempt 404s without it. No clean version cutoff for which
  # builds need this, so it's a fallback, not the primary path.
  FULL_VERSION=~${FULL_VERSION}-${MINECRAFT_VERSION}~
  INSTALLER_URL=~https://maven.minecraftforge.net/net/minecraftforge/forge/${FULL_VERSION}/forge-${FULL_VERSION}-installer.jar~
  echo ~Retrying with legacy version suffix: ${FULL_VERSION}...~
  curl -fsSL -o forge-installer.jar ~$INSTALLER_URL~
fi
java -jar forge-installer.jar --installServer
rm -f forge-installer.jar forge-installer.jar.log

" +:+
  WRITE_ARGS_FILE +:+
  scriptText "

echo ~eula=true~ > eula.txt
if grep -q '^server-port=' server.properties 2>/dev/null; then
  sed -i ~s/^server-port=.*/server-port=${SERVER_PORT}/~ server.properties
else
  echo ~server-port=${SERVER_PORT}~ >> server.properties
fi
echo ~Install complete.~
".

Definition NEOFORGE_INSTALL_SCRIPT : string :=
  scriptText "#!/bin/bash
set -euo pipefail
cd /mnt/server

: ~${MINECRAFT_VERSION:=latest}~
: ~${NEOFORGE_VERSION:=latest}~
: ~${SERVER_JARFILE:=server.jar}~

" +:+
  CLEAN_STALE_MODLOADER_ARTIFACTS +:+
  scriptText "

VERSIONS=$(curl -fsSL https://maven.neoforged.net/api/maven/versions/releases/net/neoforged/neoforge | jq -r '.versions[]')

if [ ~$NEOFORGE_VERSION~ == ~latest~ ]; then
  if [ ~$MINECRAFT_VERSION~ == ~latest~ ]; then
    NEOFORGE_VERSION=$(echo ~$VERSIONS~ | sort -V | tail -n1)
  else
    # Only the old ~1.x~ Minecraft scheme drops a leading ~1.~ to reach
    # NeoForge's own prefix (1.21.4 -> 21.4); the newer bare-year scheme
    # (26.1, 26.2, ...) already IS the NeoForge prefix as-is — stripping
    # its first segment too would turn ~26.2~ into ~2~ and never match.
    if [[ ~$MINECRAFT_VERSION~ == 1.* ]]; then
      PREFIX=$(echo ~$MINECRAFT_VERSION~ | cut -d. -f2-)
    else
      PREFIX=~$MINECRAFT_VERSION~
    fi
    NEOFORGE_VERSION=$(echo ~$VERSIONS~ | grep ~^${PREFIX}\.~ | sort -V | tail -n1)
  fi
fi

INSTALLER_URL=~https://maven.neoforged.net/releases/net/neoforged/neoforge/${NEOFORGE_VERSION}/neoforge-${NEOFORGE_VERSION}-installer.jar~
echo ~Downloading NeoForge installer ${NEOFORGE_VERSION}...~
curl -fsSL -o neoforge-installer.jar ~$INSTALLER_URL~
java -jar neoforge-installer.jar --installServer
rm -f neoforge-installer.jar neoforge-installer.jar.log

" +:+
  WRITE_ARGS_FILE +:+
  scriptText "

echo ~eula=true~ > eula.txt
if grep -q '^server-port=' server.properties 2>/dev/null; then
  sed -i ~s/^server-port=.*/server-port=${SERVER_PORT}/~ server.properties
else
  echo ~server-port=${SERVER_PORT}~ >> server.properties
fi
echo ~Install complete.~
".

Definition PURPUR_INSTALL_SCRIPT : string :=
  scriptText "#!/bin/bash
set -euo pipefail
cd /mnt/server

: ~${MINECRAFT_VERSION:=latest}~
: ~${PURPUR_BUILD:=latest}~
: ~${SERVER_JARFILE:=server.jar}~

if [ ~$MINECRAFT_VERSION~ == ~latest~ ]; then
  MINECRAFT_VERSION=$(curl -fsSL https://api.purpurmc.org/v2/purpur | jq -r '.versions[-1]')
fi

if [ ~$PURPUR_BUILD~ == ~latest~ ]; then
  PURPUR_BUILD=$(curl -fsSL ~https://api.purpurmc.org/v2/purpur/${MINECRAFT_VERSION}~ | jq -r '.builds.latest')
fi

DOWNLOAD_URL=~https://api.purpurmc.org/v2/purpur/${MINECRAFT_VERSION}/${PURPUR_BUILD}/download~
echo ~Downloading Purpur ${MINECRAFT_VERSION} build ${PURPUR_BUILD}...~
curl -fsSL -o ~${SERVER_JARFILE}~ ~$DOWNLOAD_URL~

echo ~eula=true~ > eula.txt
if grep -q '^server-port=' server.properties 2>/dev/null; then
  sed -i ~s/^server-port=.*/server-port=${SERVER_PORT}/~ server.properties
else
  echo ~server-port=${SERVER_PORT}~ >> server.properties
fi
echo ~Install complete.~
".

(** ** The presets *)

Definition SOFTWARE_PRESETS (k : PresetKind) : TemplatePreset :=
  match k with
  | preset_paper =>
    mkPreset "Paper" "Servidor Paper de alto desempenho para Minecraft: Java Edition." JAVA_IMAGES STANDARD_STARTUP_COMMAND "stop" INSTALL_IMAGE INSTALL_ENTRYPOINT PAPER_INSTALL_SCRIPT preset_paper
      [jarFileVariable "server.jar";
       minecraftVersionVariable (scriptText "The version of Minecraft to install. Use ~latest~ for the newest release.");
       mkVariableDto "Paper Build" (Val (scriptText "The Paper build number to install. Use ~latest~ for the newest build.")) "PAPER_BUILD" (Val "latest") (Val "required|string|max:16") (Val true) (Val true) (Val 2);
       serverMemoryVariable 3]
      "MINECRAFT_VERSION" (Some "PAPER_BUILD")
  | preset_fabric =>
    mkPreset "Fabric" "Servidor modificado de Minecraft: Java Edition com o carregador de mods Fabric." JAVA_IMAGES STANDARD_STARTUP_COMMAND "stop" JAVA_INSTALL_IMAGE INSTALL_ENTRYPOINT FABRIC_INSTALL_SCRIPT preset_fabric
      [jarFileVariable "fabric-server-launch.jar";
       minecraftVersionVariable (scriptText "The version of Minecraft to install. Use ~latest~ for the newest release.");
       mkVariableDto "Fabric Loader Version" (Val (scriptText "The Fabric loader version to install. Use ~latest~ for the newest stable release.")) "FABRIC_LOADER_VERSION" (Val "latest") (Val "required|string|max:16") (Val true) (Val true) (Val 2);
       serverMemoryVariable 3]
      "MINECRAFT_VERSION" (Some "FABRIC_LOADER_VERSION")
  | preset_quilt =>
    mkPreset "Quilt" "Servidor modificado de Minecraft: Java Edition com o carregador de mods Quilt." JAVA_IMAGES STANDARD_STARTUP_COMMAND "stop" JAVA_INSTALL_IMAGE INSTALL_ENTRYPOINT QUILT_INSTALL_SCRIPT preset_quilt
      [jarFileVariable "quilt-server-launch.jar";
       minecraftVersionVariable (scriptText "The version of Minecraft to install. Use ~latest~ for the newest release.");
       mkVariableDto "Quilt Loader Version" (Val (scriptText "The Quilt loader version to install. Use ~latest~ for the newest stable release.")) "QUILT_LOADER_VERSION" (Val "latest") (Val "required|string|max:32") (Val true) (Val true) (Val 2);
       serverMemoryVariable 3]
      "MINECRAFT_VERSION" (Some "QUILT_LOADER_VERSION")
  | preset_vanilla =>
    mkPreset "Vanilla" "Servidor oficial e sem modificações do Minecraft: Java Edition — sem plugins ou mods." JAVA_IMAGES STANDARD_STARTUP_COMMAND "stop" INSTALL_IMAGE INSTALL_ENTRYPOINT VANILLA_INSTALL_SCRIPT preset_vanilla
      [jarFileVariable "server.jar";
       minecraftVersionVariable (scriptText "The version of Minecraft to install. Use ~latest~ for the newest release.");
       serverMemoryVariable 2]
      "MINECRAFT_VERSION" None
  | preset_forge =>
    mkPreset "Forge" "Servidor modificado de Minecraft: Java Edition com o carregador de mods Forge." JAVA_IMAGES MODLOADER_STARTUP_COMMAND "stop" JAVA_INSTALL_IMAGE INSTALL_ENTRYPOINT FORGE_INSTALL_SCRIPT preset_forge
      [jarFileVariable "server.jar";
       minecraftVersionVariable (scriptText "The version of Minecraft to install. Use ~latest~ for the newest release Forge publishes a recommended build for.");
       mkVariableDto "Forge Version" (Val (scriptText "The Forge version to install. Use ~latest~ for the newest build matching the Minecraft version above.")) "FORGE_VERSION" (Val "latest") (Val "required|string|max:32") (Val true) (Val true) (Val 2);
       serverMemoryVariable 3]
      "MINECRAFT_VERSION" (Some "FORGE_VERSION")
  | preset_neoforge =>
    mkPreset "NeoForge" "Servidor modificado de Minecraft: Java Edition com NeoForge, fork do Forge mantido ativamente para versões modernas." JAVA_IMAGES MODLOADER_STARTUP_COMMAND "stop" JAVA_INSTALL_IMAGE INSTALL_ENTRYPOINT NEOFORGE_INSTALL_SCRIPT preset_neoforge
      [jarFileVariable "server.jar";
       minecraftVersionVariable (scriptText "The version of Minecraft to install. Use ~latest~ for the newest release.");
       mkVariableDto "NeoForge Version" (Val (scriptText "The NeoForge version to install. Use ~latest~ for the newest build matching the Minecraft version above.")) "NEOFORGE_VERSION" (Val "latest") (Val "required|string|max:32") (Val true) (Val true) (Val 2);
       serverMemoryVariable 3]
      "MINECRAFT_VERSION" (Some "NEOFORGE_VERSION")
  | preset_purpur =>
    mkPreset "Purpur" "Servidor baseado no Paper com ajustes extras de desempenho e jogabilidade — compatível com plugins do Paper." JAVA_IMAGES STANDARD_STARTUP_COMMAND "stop" INSTALL_IMAGE INSTALL_ENTRYPOINT PURPUR_INSTALL_SCRIPT preset_purpur
      [jarFileVariable "server.jar";
       minecraftVersionVariable (scriptText "The version of Minecraft to install. Use ~latest~ for the newest release.");
       mkVariableDto "Purpur Build" (Val (scriptText "The Purpur build number to install. Use ~latest~ for the newest build.")) "PURPUR_BUILD" (Val "latest") (Val "required|string|max:16") (Val true) (Val true) (Val 2);
       serverMemoryVariable 3]
      "MINECRAFT_VERSION" (Some "PURPUR_BUILD")
  end.
