(* ===== verification/Discovery.v ===== *)
(** Discovery: the published versions of the game software.

    [templates/software-discovery.service.ts]: the lists the quick creation offers, read from the
    projects' public interfaces and cached for ten minutes.  The answers of those interfaces, the
    collation of [localeCompare] and the engine's sort on an inconsistent comparator are
    parameters. *)

From S2P Require Import Prelude JsNum Store JsString Dto Variables Presets.
From Stdlib Require Import QArith Ascii String Lia.

Local Open Scope Z_scope.

(** ** JSON documents *)

(** A parsed document; the entries of an object in the order of [Object.keys]. *)
Inductive Json :=
  | JNull | JBool (b : bool) | JNum (n : JsNumber) | JStr (s : string) | JArr (l : list Json) | JObj (l : list (string * Json)).

Definition entryOf (key : string) (l : list (string * Json)) : option Json := snd <$> findFirst (fun e => fst e =s key) l.

(** [data.key]: [None] is [undefined]; reading a property of [null] throws. *)
Definition member (data : Json) (key : string) : Res (option Json) :=
  match data with
  | JNull => Throw (External "Cannot read properties of null")
  | JObj l => Ok (entryOf key l)
  | _ => Ok None
  end.

(** [data?.key]. *)
Definition optMember (data : option Json) (key : string) : option Json :=
  match data with Some (JObj l) => entryOf key l | _ => None end.

Definition arrayOr (o : option Json) : list Json := match o with Some (JArr l) => l | _ => [] end.
Definition stringOf (j : Json) : option string := match j with JStr s => Some s | _ => None end.
(** [.filter((v): v is string => typeof v === 'string')]. *)
Definition stringsOf (l : list Json) : list string := omap stringOf l.

Definition stringAt (entry : Json) (key : string) : option string := optMember (Some entry) key ≫= stringOf.

(** [Object.values(o)] of an object or an array; [None] when it is neither. *)
Definition objectValues (o : option Json) : option (list Json) :=
  match o with Some (JArr l) => Some l | Some (JObj l) => Some (map snd l) | _ => None end.

(** ** Versions *)

Class DiscoveryWorld := {
  (** The body answered to a GET at an instant; [None] when the request fails, times out, is
      refused, or the body does not parse. *)
  httpJson : Z -> string -> option Json;
  encodeComponent : string -> string;
  localeOrder : string -> string -> comparison;
  (** [Array.prototype.sort] with a comparator. *)
  jsSort : (string -> string -> comparison) -> list string -> list string;
  (** Whether Redis answers. *)
  redisUp : Z -> bool }.

Section Service.
Context `{DiscoveryWorld} (now : Z).

Definition isNaN (n : JsNumber) : bool := match n with NaN => true | _ => false end.

(** The sign of [nb - na]. *)
Definition numberOrder (na nb : JsNumber) : comparison := if jsLt nb na then Lt else if jsLt na nb then Gt else Eq.

(** The loop over the positions. *)
Fixpoint compareParts (fallback : comparison) (pa pb : list JsNumber) (positions : list nat) : comparison :=
  match positions with
  | [] => Eq
  | i :: positions' =>
    let na := default (Fin 0) (nth_error pa i) in
    let nb := default (Fin 0) (nth_error pb i) in
    if isNaN na || isNaN nb then fallback
    else match numberOrder na nb with Eq => compareParts fallback pa pb positions' | c => c end
  end.

Definition versionParts (v : string) : list JsNumber := map jsNumber (splitOn "." v).

Definition compareVersionsDesc (a b : string) : comparison :=
  let pa := versionParts a in
  let pb := versionParts b in
  compareParts (localeOrder b a) pa pb (seq 0 (Nat.max (List.length pa) (List.length pb))).

(** ** The interfaces of the projects *)

Definition fetchJson (url : string) : Res Json :=
  match httpJson now url with Some j => Ok j | None => Throw (External url) end.

Definition fetchPaperVersions : Res (list string) :=
  data ← fetchJson "https://fill.papermc.io/v3/projects/paper";
  versions ← member data "versions";
  match objectValues versions with
  | None => mret []
  | Some groups => mret (stringsOf (groups ≫= fun group => arrayOr (Some group)))
  end.

Definition buildId (b : Json) : option string :=
  match optMember (Some b) "id" with Some (JNum n) => Some (numStr n) | _ => None end.

Definition fetchPaperBuilds (mcVersion : string) : Res (list string) :=
  data ← fetchJson ("https://fill.papermc.io/v3/projects/paper/versions/" +:+ encodeComponent mcVersion +:+ "/builds");
  mret (omap buildId (arrayOr (Some data))).

Definition fetchPurpurVersions : Res (list string) :=
  data ← fetchJson "https://api.purpurmc.org/v2/purpur";
  versions ← member data "versions";
  mret (rev (stringsOf (arrayOr versions))).

Definition fetchPurpurBuilds (mcVersion : string) : Res (list string) :=
  data ← fetchJson ("https://api.purpurmc.org/v2/purpur/" +:+ encodeComponent mcVersion);
  builds ← member data "builds";
  mret (rev (stringsOf (arrayOr (optMember builds "all")))).

Definition isTrue (o : option Json) : bool := match o with Some (JBool true) => true | _ => false end.

Definition stableVersion (entry : Json) : option string :=
  version ← stringAt entry "version";
  if isTrue (optMember (Some entry) "stable") then Some version else None.

Definition fetchStableVersionList (url : string) : Res (list string) :=
  data ← fetchJson url;
  mret (omap stableVersion (arrayOr (Some data))).

Definition fetchFabricGameVersions : Res (list string) := fetchStableVersionList "https://meta.fabricmc.net/v2/versions/game".
Definition fetchFabricLoaderVersions : Res (list string) := fetchStableVersionList "https://meta.fabricmc.net/v2/versions/loader".
Definition fetchQuiltGameVersions : Res (list string) := fetchStableVersionList "https://meta.quiltmc.org/v3/versions/game".

Definition foldCase (c : ascii) : ascii :=
  if (65 <=? code c)%N && (code c <=? 90)%N then ascii_of_N (code c + 32) else c.
Fixpoint foldCaseS (s : string) : string := match s with EmptyString => "" | String c s' => String (foldCase c) (foldCaseS s') end.

(** [/-(?:alpha|beta|rc)/i.test(s)]. *)
Fixpoint preReleaseIn (s : string) : bool :=
  existsb (fun w => startsWith w s) ["-alpha"; "-beta"; "-rc"] || match s with EmptyString => false | String _ s' => preReleaseIn s' end.
Definition preRelease (version : string) : bool := preReleaseIn (foldCaseS version).

Definition fetchQuiltLoaderVersions : Res (list string) :=
  data ← fetchJson "https://meta.quiltmc.org/v3/versions/loader";
  mret (List.filter (fun version => negb (preRelease version)) (omap (fun entry => stringAt entry "version") (arrayOr (Some data)))).

Definition releaseId (v : Json) : option string :=
  id ← stringAt v "id";
  if bool_decide (stringAt v "type" = Some "release") then Some id else None.

Definition fetchVanillaVersions : Res (list string) :=
  data ← fetchJson "https://launchermeta.mojang.com/mc/game/version_manifest.json";
  versions ← member data "versions";
  mret (omap releaseId (arrayOr versions)).

(** The entries of [promos]; an array has none whose key is a version with a suffix. *)
Definition fetchForgePromotions : Res (list (string * Json)) :=
  data ← fetchJson "https://files.minecraftforge.net/net/minecraftforge/forge/promotions_slim.json";
  promos ← member data "promos";
  mret match promos with Some (JObj l) => l | _ => [] end.

Definition versionChar (c : ascii) : bool := isDigit c || Ascii.eqb c ".".

(** The longest prefix of digits and dots, and what follows it. *)
Fixpoint spanVersion (s : string) : string * string :=
  match s with
  | EmptyString => ("", "")
  | String c s' => if versionChar c then let '(v, rest) := spanVersion s' in (String c v, rest) else ("", s)
  end.

(** The first group of [/^([0-9.]+)-(recommended|latest)$/]. *)
Definition promotedVersion (key : string) : option string :=
  let '(version, rest) := spanVersion key in
  if negb (version =s "") && ((rest =s "-recommended") || (rest =s "-latest")) then Some version else None.

(** Insertion into a [Set], which keeps the first of equal values. *)
Definition addToSet (set : list string) (x : string) : list string := if includes x set then set else set ++ [x].

Definition forgeVersionsOf (promos : list (string * Json)) : list string :=
  jsSort compareVersionsDesc (fold_left addToSet (omap (fun e => promotedVersion (fst e)) promos) []).

Definition fetchForgeVersions : Res (list string) :=
  promos ← fetchForgePromotions;
  mret (forgeVersionsOf promos).

Definition forgeBuildsOf (promos : list (string * Json)) (mcVersion : string) : list string :=
  let recommended := entryOf (mcVersion +:+ "-recommended") promos in
  let latest := entryOf (mcVersion +:+ "-latest") promos in
  match recommended ≫= stringOf, latest ≫= stringOf with
  | Some r, Some l => if r =s l then [r] else [r; l]
  | Some r, None => [r]
  | None, Some l => [l]
  | None, None => []
  end.

Definition fetchForgeBuildsFor (mcVersion : string) : Res (list string) :=
  promos ← fetchForgePromotions;
  mret (forgeBuildsOf promos mcVersion).

Definition fetchNeoForgeReleaseVersions : Res (list string) :=
  data ← fetchJson "https://maven.neoforged.net/api/maven/versions/releases/net/neoforged/neoforge";
  versions ← member data "versions";
  mret (stringsOf (arrayOr versions)).

Definition NEOFORGE_OLDEST_MINECRAFT_VERSION : string := "1.20.1".

(** [list.slice(0, list.indexOf(x) + 1)], or the list when [x] is not in it. *)
Fixpoint upTo (x : string) (l : list string) : list string :=
  match l with [] => [] | y :: l' => if y =s x then [y] else y :: upTo x l' end.

Definition fetchNeoForgeVersions : Res (list string) :=
  vanillaVersions ← fetchVanillaVersions;
  mret (upTo NEOFORGE_OLDEST_MINECRAFT_VERSION vanillaVersions).

Definition neoForgePrefix (mcVersion : string) : string := if startsWith "1." mcVersion then dropS 2 mcVersion else mcVersion.

Definition neoForgeBuildsOf (releases : list string) (mcVersion : string) : list string :=
  let prefix := neoForgePrefix mcVersion in
  jsSort compareVersionsDesc (List.filter (fun v => (v =s prefix) || startsWith (prefix +:+ ".") v) releases).

Definition fetchNeoForgeBuildsFor (mcVersion : string) : Res (list string) :=
  releases ← fetchNeoForgeReleaseVersions;
  mret (neoForgeBuildsOf releases mcVersion).

(** ** The cache *)

Definition DISCOVERY_TTL_SECONDS : Z := 600.

(** The lists under [template-discovery:], with the instants they expire. *)
Abbreviation DiscoveryCache := (gmap string (list string * Z)%type).

Definition liveEntry (cache : DiscoveryCache) (key : string) : option (list string) :=
  if redisUp now then
    match cache !! key with Some (l, expiresAt) => if now <? expiresAt then Some l else None | None => None end
  else None.

Definition cachedDiscovery (key : string) (fetcher : Res (list string)) (cache : DiscoveryCache) : list string * DiscoveryCache :=
  match liveEntry cache key with
  | Some hit => (hit, cache)
  | None =>
    let result := match fetcher with Ok l => l | Throw _ => [] end in
    (result, if redisUp now then <[key := (result, now + DISCOVERY_TTL_SECONDS * 1000)]> cache else cache)
  end.

Definition getVersions (kind : PresetKind) : DiscoveryCache -> list string * DiscoveryCache :=
  match kind with
  | preset_paper => cachedDiscovery "template-discovery:paper:versions" fetchPaperVersions
  | preset_purpur => cachedDiscovery "template-discovery:purpur:versions" fetchPurpurVersions
  | preset_fabric => cachedDiscovery "template-discovery:fabric:versions" fetchFabricGameVersions
  | preset_quilt => cachedDiscovery "template-discovery:quilt:versions" fetchQuiltGameVersions
  | preset_vanilla => cachedDiscovery "template-discovery:vanilla:versions" fetchVanillaVersions
  | preset_forge => cachedDiscovery "template-discovery:forge:versions" fetchForgeVersions
  | preset_neoforge => cachedDiscovery "template-discovery:neoforge:versions" fetchNeoForgeVersions
  end.

Definition getBuilds (kind : PresetKind) (mcVersion : string) (cache : DiscoveryCache) : list string * DiscoveryCache :=
  match kind with
  | preset_paper => cachedDiscovery ("template-discovery:paper:builds:" +:+ mcVersion) (fetchPaperBuilds mcVersion) cache
  | preset_purpur => cachedDiscovery ("template-discovery:purpur:builds:" +:+ mcVersion) (fetchPurpurBuilds mcVersion) cache
  | preset_fabric => cachedDiscovery "template-discovery:fabric:loaders" fetchFabricLoaderVersions cache
  | preset_quilt => cachedDiscovery "template-discovery:quilt:loaders" fetchQuiltLoaderVersions cache
  | preset_forge => cachedDiscovery ("template-discovery:forge:builds:" +:+ mcVersion) (fetchForgeBuildsFor mcVersion) cache
  | preset_neoforge => cachedDiscovery ("template-discovery:neoforge:builds:" +:+ mcVersion) (fetchNeoForgeBuildsFor mcVersion) cache
  | preset_vanilla => ([], cache)
  end.

End Service.
