(* ===== verification/DiscoveryRules.v ===== *)
(** DiscoveryRules: what the discovered lists are.

    The comparison of versions is a total order on dotted numbers, so the Forge list is sorted,
    complete and free of duplicates, and every version on it has a build; a list is never older
    than ten minutes; and the NeoForge builds of one version contain those of later ones. *)

From S2P Require Import Prelude JsNum Store JsString Dto Variables Presets Discovery.
From Stdlib Require Import QArith Ascii String Lia Lqa.

Local Open Scope Z_scope.

(** ** Numbers *)

Lemma takeDigits_all s : everyChar isDigit s = true -> forall acc n, exists v, takeDigits acc n s = (v, (n + String.length s)%nat, "").
Proof.
  induction s as [|c s IH]; intros Hs acc n; simpl; [exists acc; by rewrite Nat.add_0_r|]. simpl in Hs. apply andb_true_iff in Hs as [-> Hs].
  destruct (IH Hs (acc * 10 + digitVal c) (Datatypes.S n)) as [v ->]. exists v. by rewrite <- Nat.add_succ_comm.
Qed.

Lemma readUnsigned_digits c s : everyChar isDigit (String c s) = true -> isNaN (readUnsigned (String c s)) = false.
Proof.
  intros Hs. unfold readUnsigned. rewrite bool_decide_false.
  - destruct (takeDigits_all (String c s) Hs 0 0) as [v ->]. cbv beta iota zeta. cbn [String.length Nat.add readExponent]. unfold toDouble. by destruct (Qle_bool _ _).
  - intros [= -> ->]. done.
Qed.

Lemma digit_visible c : isDigit c = true -> visible c = true.
Proof. destruct c as [[] [] [] [] [] [] [] []]; vm_compute; done. Qed.

Lemma digits_number s : everyChar isDigit s = true -> isNaN (jsNumber s) = false.
Proof.
  intros Hs. unfold jsNumber. rewrite trim_visible by (eapply everyChar_impl; [exact digit_visible|done]). destruct s as [|c s]; [done|].
  pose proof (readUnsigned_digits c s Hs) as Hr. pose proof Hs as Hs'. simpl in Hs'. apply andb_true_iff in Hs' as [Hc Hs'].
  destruct c as [[] [] [] [] [] [] [] []]; try (vm_compute in Hc; discriminate Hc); try exact Hr.
  destruct s as [|d s]; [exact Hr|]. simpl in Hs'. apply andb_true_iff in Hs' as [Hd _].
  destruct d as [[] [] [] [] [] [] [] []]; try (vm_compute in Hd; discriminate Hd); exact Hr.
Qed.

(** ** The order of versions *)

Lemma jsLt_fin p q : jsLt (Fin p) (Fin q) = true <-> (p < q)%Q.
Proof. simpl. rewrite negb_true_iff, <- not_true_iff_false, Qle_bool_iff. split; [apply Qnot_le_lt|apply Qlt_not_le]. Qed.

(** Numbers other than NaN in one line: the order of their differences. *)
Lemma numberOrder_spec a b : isNaN a = false -> isNaN b = false ->
  match numberOrder a b with
  | Lt => jsLt b a = true
  | Gt => jsLt a b = true
  | Eq => jsLt a b = false /\ jsLt b a = false
  end.
Proof. intros _ _. unfold numberOrder. destruct (jsLt b a) eqn:E1; [done|]. by destruct (jsLt a b) eqn:E2. Qed.

Lemma jsLt_asym a b : jsLt a b = true -> jsLt b a = false.
Proof.
  destruct a as [| | |p], b as [| | |q]; try done. rewrite jsLt_fin. intros Hp. apply not_true_iff_false. rewrite jsLt_fin. lra.
Qed.

Lemma jsLt_cotrans a b c : isNaN a = false -> isNaN b = false -> isNaN c = false -> jsLt a c = true -> jsLt a b = true \/ jsLt b c = true.
Proof.
  destruct a as [| | |p], b as [| | |q], c as [| | |r]; try done; try (by left); try (by right). intros _ _ _. rewrite !jsLt_fin. intros Hr.
  destruct (Qlt_le_dec p q); [by left|right; lra].
Qed.

Lemma numberOrder_opp a b : numberOrder b a = CompOpp (numberOrder a b).
Proof.
  unfold numberOrder. destruct (jsLt b a) eqn:E1, (jsLt a b) eqn:E2; try done. by rewrite (jsLt_asym _ _ E1) in E2.
Qed.

Definition numeric (parts : list JsNumber) : Prop := forall i, isNaN (default (Fin 0) (nth_error parts i)) = false.

Section Order.
Context (pa pb pc : list JsNumber) (Ha : numeric pa) (Hb : numeric pb) (Hc : numeric pc).

Lemma compareParts_opp f1 f2 ps : compareParts f2 pb pa ps = CompOpp (compareParts f1 pa pb ps).
Proof using Ha Hb.
  induction ps as [|i ps IH]; [done|]. cbn [compareParts]. rewrite (Ha i), (Hb i). cbn [orb].
  rewrite (numberOrder_opp (default (Fin 0) (nth_error pa i))). by destruct (numberOrder _ _).
Qed.

Lemma compareParts_trans f1 f2 f3 ps :
  compareParts f1 pa pb ps <> Gt -> compareParts f2 pb pc ps <> Gt -> compareParts f3 pa pc ps <> Gt.
Proof using Ha Hb Hc.
  induction ps as [|i ps IH]; [done|]. cbn [compareParts]. pose proof (Ha i) as Na. pose proof (Hb i) as Nb. pose proof (Hc i) as Nc.
  rewrite Na, Nb, Nc. cbn [orb]. revert Na Nb Nc.
  generalize (default (Fin 0) (nth_error pa i)) (default (Fin 0) (nth_error pb i)) (default (Fin 0) (nth_error pc i)). intros a b c Na Nb Nc.
  pose proof (numberOrder_spec a b Na Nb) as S1. pose proof (numberOrder_spec b c Nb Nc) as S2. pose proof (numberOrder_spec a c Na Nc) as S3.
  pose proof (jsLt_cotrans a b c Na Nb Nc) as C1. pose proof (jsLt_cotrans b c a Nb Nc Na) as C2. pose proof (jsLt_cotrans c a b Nc Na Nb) as C3.
  pose proof (jsLt_asym b a) as A1. pose proof (jsLt_asym c b) as A2.
  destruct (numberOrder a b), (numberOrder b c), (numberOrder a c); try done; intros; intuition congruence.
Qed.

(** Positions past both versions do not matter. *)
Lemma compareParts_past f ps : Forall (fun i => (List.length pa <= i)%nat /\ (List.length pb <= i)%nat) ps -> compareParts f pa pb ps = Eq.
Proof using Type.
  induction ps as [|i ps IH]; [done|]. intros [[H1 H2] Hi]%Forall_cons. cbn [compareParts].
  rewrite !(proj2 (nth_error_None _ _)) by done. cbn. by apply IH.
Qed.

Lemma compareParts_app f l1 l2 : compareParts f pa pb (l1 ++ l2) = match compareParts f pa pb l1 with Eq => compareParts f pa pb l2 | c => c end.
Proof using Ha Hb.
  induction l1 as [|i l1 IH]; [done|]. cbn [compareParts List.app]. rewrite (Ha i), (Hb i). cbn [orb]. destruct (numberOrder _ _); [|done|done]. exact IH.
Qed.

Lemma compareParts_extend f n : (Nat.max (List.length pa) (List.length pb) <= n)%nat ->
  compareParts f pa pb (seq 0 n) = compareParts f pa pb (seq 0 (Nat.max (List.length pa) (List.length pb))).
Proof using Ha Hb.
  intros Hn. set (m := Nat.max _ _) in *. replace n with (m + (n - m))%nat by lia. rewrite seq_app, compareParts_app, (compareParts_past f (seq (0 + m) _)).
  - by destruct (compareParts _ _ _ _).
  - apply Forall_forall. intros i Hi%list_elem_of_In%in_seq. lia.
Qed.

End Order.

(** ** Dotted versions *)

Lemma versionChar_parts v : everyChar versionChar v = true -> Forall (fun p => everyChar isDigit p = true) (splitOn "." v).
Proof.
  induction v as [|c v IH]; simpl; [intros _; by repeat constructor|]. intros [Hc Hv]%andb_true_iff. specialize (IH Hv).
  destruct (Ascii.eqb c ".") eqn:E; [by constructor|]. unfold versionChar in Hc. rewrite E, orb_false_r in Hc.
  destruct (splitOn "." v) as [|x l]; [constructor; [simpl; by rewrite Hc|done]|]. apply Forall_cons in IH as [Hx Hl].
  constructor; [simpl; by rewrite Hc, Hx|done].
Qed.

Lemma version_numeric v : everyChar versionChar v = true -> numeric (versionParts v).
Proof.
  intros Hv i. unfold versionParts. rewrite nth_error_map. destruct (nth_error (splitOn "." v) i) as [p|] eqn:E; [|done]. cbn.
  apply digits_number. apply nth_error_In, list_elem_of_In in E. by apply (proj1 (Forall_forall _ _) (versionChar_parts v Hv)).
Qed.

(** What ECMAScript promises of a sort: the elements, in order when the comparator is consistent
    on them. *)
Class SortLaws `{DiscoveryWorld} : Prop := {
  jsSort_perm cmp l : jsSort cmp l ≡ₚ l;
  jsSort_sorted cmp l :
    (forall a b, a ∈ l -> b ∈ l -> cmp b a = CompOpp (cmp a b)) ->
    (forall a b c, a ∈ l -> b ∈ l -> c ∈ l -> cmp a b <> Gt -> cmp b c <> Gt -> cmp a c <> Gt) ->
    sortedBy (leOf cmp) (jsSort cmp l) }.

Section Versions.
Context `{DiscoveryWorld} `{!SortLaws}.

Lemma compareVersions_at a b n : everyChar versionChar a = true -> everyChar versionChar b = true ->
  (Nat.max (List.length (versionParts a)) (List.length (versionParts b)) <= n)%nat ->
  compareVersionsDesc a b = compareParts (localeOrder b a) (versionParts a) (versionParts b) (seq 0 n).
Proof. intros Ha Hb Hn. symmetry. apply compareParts_extend; [by apply version_numeric..|done]. Qed.

(** Dotted versions are sorted: the comparison is a consistent total order on them. *)
Lemma dotted_sorted l : Forall (fun v => everyChar versionChar v = true) l -> sortedBy (leOf compareVersionsDesc) (jsSort compareVersionsDesc l).
Proof.
  rewrite Forall_forall. intros Hl. apply jsSort_sorted.
  - intros a b Ha%Hl Hb%Hl. unfold compareVersionsDesc. rewrite (Nat.max_comm (List.length (versionParts b))). by apply compareParts_opp; apply version_numeric.
  - intros a b c Ha%Hl Hb%Hl Hc%Hl. set (n := (List.length (versionParts a) + List.length (versionParts b) + List.length (versionParts c))%nat).
    rewrite (compareVersions_at a b n), (compareVersions_at b c n), (compareVersions_at a c n) by (done || lia).
    by apply compareParts_trans; apply version_numeric.
Qed.

(** ** Forge *)

Lemma spanVersion_split s v rest : spanVersion s = (v, rest) -> s = v +:+ rest /\ everyChar versionChar v = true.
Proof.
  revert v rest. induction s as [|c s IH]; intros v rest; simpl; [by intros [= <- <-]|]. destruct (versionChar c) eqn:E; [|by intros [= <- <-]].
  destruct (spanVersion s) as [v' rest'] eqn:Es. intros [= <- <-]. destruct (IH v' rest' eq_refl) as [-> Hv]. split; [done|]. simpl. by rewrite E, Hv.
Qed.

Lemma spanVersion_dash v rest : everyChar versionChar v = true -> spanVersion (v +:+ String "-" rest) = (v, String "-" rest).
Proof.
  induction v as [|c v IH]; [done|]. simpl. intros [Hc Hv]%andb_true_iff. change (String c v +:+ String "-" rest) with (String c (v +:+ String "-" rest)).
  cbn [spanVersion]. by rewrite Hc, IH.
Qed.

Lemma promotedVersion_spec key v : promotedVersion key = Some v <->
  v <> "" /\ everyChar versionChar v = true /\ (key = v +:+ "-recommended" \/ key = v +:+ "-latest").
Proof.
  unfold promotedVersion. split.
  - destruct (spanVersion key) as [v' rest] eqn:E. apply spanVersion_split in E as [-> Hv].
    destruct (negb _ && _) eqn:Ec; [|done]. intros [= ->]. apply andb_true_iff in Ec as [Hn%negb_true_iff%bool_decide_eq_false Hr].
    split_and!; [done|done|]. apply orb_true_iff in Hr as [->%bool_decide_eq_true| ->%bool_decide_eq_true]; auto.
  - intros (Hn & Hv & [-> | ->]); rewrite spanVersion_dash by done; by rewrite (bool_decide_false (v = "")).
Qed.

Lemma addToSet_elem set x y : y ∈ addToSet set x <-> y ∈ set \/ y = x.
Proof.
  unfold addToSet. destruct (includes x set) eqn:E; [apply includes_elem in E; naive_solver|]. by rewrite elem_of_app, list_elem_of_singleton.
Qed.

Lemma toSet_spec l set : NoDup set -> NoDup (fold_left addToSet l set) /\ forall y, y ∈ fold_left addToSet l set <-> y ∈ set \/ y ∈ l.
Proof.
  revert set. induction l as [|x l IH]; intros set Hn; simpl; [split; [done|intros y; rewrite elem_of_nil; tauto]|].
  assert (NoDup (addToSet set x)) as Hn'.
  { unfold addToSet. destruct (includes x set) eqn:E; [done|]. apply NoDup_app. split_and!; [done| |apply NoDup_singleton].
    intros y Hy ->%list_elem_of_singleton. apply includes_elem in Hy. congruence. }
  destruct (IH _ Hn') as [H1 H2]. split; [done|]. intros y. rewrite H2, addToSet_elem, elem_of_cons. tauto.
Qed.

Lemma forgeVersions_elem promos v : v ∈ forgeVersionsOf promos <-> exists e, e ∈ promos /\ promotedVersion (fst e) = Some v.
Proof.
  unfold forgeVersionsOf. rewrite jsSort_perm. destruct (toSet_spec (omap (fun e => promotedVersion (fst e)) promos) [] (NoDup_nil_2)) as [_ ->].
  rewrite elem_of_nil, list_elem_of_omap. naive_solver.
Qed.

(** The Forge list: sorted from the newest version, without duplicates, and with exactly the
    versions that have a recommended or a latest build. *)
Theorem forge_versions_published promos :
  sortedBy (leOf compareVersionsDesc) (forgeVersionsOf promos) /\ NoDup (forgeVersionsOf promos) /\
  forall v, v ∈ forgeVersionsOf promos <-> v <> "" /\ everyChar versionChar v = true /\
    exists e, e ∈ promos /\ (fst e = v +:+ "-recommended" \/ fst e = v +:+ "-latest").
Proof.
  destruct (toSet_spec (omap (fun e => promotedVersion (fst e)) promos) [] (NoDup_nil_2)) as [Hn He]. split_and!.
  - apply dotted_sorted, Forall_forall. intros v Hv. apply He in Hv as [[]%not_elem_of_nil|Hv]. apply list_elem_of_omap in Hv as (e & _ & Hv).
    by apply promotedVersion_spec in Hv as (_ & ? & _).
  - unfold forgeVersionsOf. by rewrite jsSort_perm.
  - intros v. rewrite forgeVersions_elem. setoid_rewrite promotedVersion_spec. naive_solver.
Qed.

Lemma entryOf_some key (l : list (string * Json)) e : e ∈ l -> fst e = key -> is_Some (entryOf key l).
Proof.
  intros Hin Hk. unfold entryOf. destruct (findFirst (fun e => fst e =s key) l) as [x|] eqn:E; [by eexists|].
  pose proof (findFirst_none _ _ E e Hin) as Hf. by apply bool_decide_eq_false in Hf.
Qed.

(** Every version of the Forge list has a build to install, whatever was published. *)
Theorem forge_versions_installable promos v : Forall (fun e => is_Some (stringOf (snd e))) promos ->
  v ∈ forgeVersionsOf promos -> forgeBuildsOf promos v <> [].
Proof.
  intros Hp (e & Hin & Hv)%forgeVersions_elem. apply promotedVersion_spec in Hv as (_ & _ & Hk).
  assert (forall key, fst e = key -> is_Some (entryOf key promos ≫= stringOf)) as Hs.
  { intros key He. destruct (entryOf_some key promos e Hin He) as [j Hj]. rewrite Hj. simpl. unfold entryOf in Hj.
    destruct (findFirst _ promos) as [x|] eqn:E; [|done]. injection Hj as <-. apply findFirst_some in E as [Hx _]. by apply (proj1 (Forall_forall _ _) Hp). }
  unfold forgeBuildsOf. destruct Hk as [Hk|Hk]; apply Hs in Hk as [x ->].
  - destruct (entryOf _ promos ≫= stringOf); [by destruct (bool_decide _)|done].
  - destruct (entryOf _ promos ≫= stringOf); [by destruct (bool_decide _)|done].
Qed.

(** ** NeoForge *)

(** The NeoForge list is a run of the newest published versions, down to the oldest one NeoForge supports. *)
Theorem neoforge_versions_prefix l : exists rest, l = upTo NEOFORGE_OLDEST_MINECRAFT_VERSION l ++ rest /\
  (rest <> [] -> last (upTo NEOFORGE_OLDEST_MINECRAFT_VERSION l) = Some NEOFORGE_OLDEST_MINECRAFT_VERSION).
Proof.
  induction l as [|y l (rest & E & Hl)]; [by exists []|]. simpl. destruct (bool_decide_reflect (y = NEOFORGE_OLDEST_MINECRAFT_VERSION)) as [->|Hy]; [by exists l|].
  exists rest. split; [simpl; by f_equal|]. intros Hr. specialize (Hl Hr). destruct (upTo _ l); [done|]. exact Hl.
Qed.

(** ** Freshness *)

Definition fetchedAt (fetcher : Z -> Res (list string)) (t : Z) : list string := match fetcher t with Ok l => l | Throw _ => [] end.

(** What the cache holds under a key was fetched, and expires ten minutes later. *)
Definition fetchedUnder (cache : gmap string (list string * Z)) (now : Z) (key : string) (fetcher : Z -> Res (list string)) : Prop :=
  forall l e, cache !! key = Some (l, e) -> exists t, t <= now /\ e = t + 600000 /\ l = fetchedAt fetcher t.

(** A list is what the project published at some instant of the last ten minutes, or empty when it could not be read then. *)
Lemma cached_fresh now key fetcher cache : fetchedUnder cache now key fetcher ->
  (exists t, now - 600000 < t <= now /\ fst (cachedDiscovery now key (fetcher now) cache) = fetchedAt fetcher t) /\
  fetchedUnder (snd (cachedDiscovery now key (fetcher now) cache)) now key fetcher.
Proof.
  intros Hc. unfold cachedDiscovery. destruct (liveEntry now cache key) as [hit|] eqn:E.
  - split; [|done]. unfold liveEntry in E. destruct (redisUp now); [|done]. destruct (cache !! key) as [[l e]|] eqn:Ek; [|done].
    destruct (now <? e) eqn:El; [|done]. injection E as <-. destruct (Hc l e Ek) as (t & Ht & -> & ->). exists t. split; [lia|done].
  - split; [exists now; split; [lia|done]|]. simpl. destruct (redisUp now); [|done]. intros l e. rewrite lookup_insert_eq. intros [= <- <-]. exists now. split_and!; [lia|done|done].
Qed.

End Versions.

(** The builds offered for Minecraft 1.21 are those of later versions: the prefix of a version
    without a patch number is a prefix of every later patch, and the newest comes first. *)
Theorem neoforge_builds_of_later_versions `{DiscoveryWorld} : (forall cmp l, jsSort cmp l = sortBy (leOf cmp) l) ->
  neoForgeBuildsOf ["20.4.80"; "21.0.167"; "21.1.77"; "21.11.3"] "1.21" = ["21.11.3"; "21.1.77"; "21.0.167"].
Proof. intros Hs. unfold neoForgeBuildsOf. rewrite Hs. vm_compute. reflexivity. Qed.
