(* ===== verification/Templates.v ===== *)
(** Templates: the catalogue of game software.

    [templates/templates.service.ts] with its request bodies (groups, templates, variables, the
    quick creation from a preset and the curation of versions), and the catalogue [public/public-templates.service.ts] shows
    at checkout. *)

From S2P Require Import Prelude JsNum Store Scheduler Subscriptions JsString Dto Variables Servers Accounts Presets Discovery.
From Stdlib Require Import Ascii String Lia.

Local Open Scope Z_scope.

(** ** Request bodies *)

Record UpdateVariableDto := mkUpdateVariable {
  uv_name : Field string; uv_description : Field string; uv_defaultValue : Field string; uv_rules : Field string;
  uv_isUserViewable : Field bool; uv_isUserEditable : Field bool; uv_sortOrder : Field Z }.

Record CreateTemplateDto := mkCreateTemplate {
  ct_groupId : string; ct_name : string; ct_author : string; ct_description : Field string; ct_dockerImages : list (string * string);
  ct_startupCommand : string; ct_stopCommand : Field string; ct_installImage : Field string; ct_installEntrypoint : Field string;
  ct_installScript : string; ct_softwareKind : Field string; ct_variables : Field (list VariableDto); ct_isPublic : Field bool;
  ct_sortOrder : Field Z; ct_iconUrl : Field string }.

Record UpdateTemplateDto := mkUpdateTemplate {
  ut_name : Field string; ut_author : Field string; ut_groupId : Field string; ut_description : Field string;
  ut_dockerImages : Field (list (string * string)); ut_startupCommand : Field string; ut_stopCommand : Field string;
  ut_installImage : Field string; ut_installEntrypoint : Field string; ut_installScript : Field string; ut_softwareKind : Field string;
  ut_isActive : Field bool; ut_isPublic : Field bool; ut_sortOrder : Field Z; ut_iconUrl : Field string }.

(** ** Rows and state *)

Record TemplateGroup := mkGroup {
  tg_id : string; tg_name : string; tg_description : option string; tg_iconUrl : option string; tg_sortOrder : Z; tg_deletedAt : option Z }.
#[export] Instance TemplateGroup_row : Row TemplateGroup := tg_id.

(** A template with the columns only the catalogue uses. *)
Record CatalogTemplate := mkCatalogTemplate {
  cg_template : Template; cg_groupId : string; cg_author : string; cg_description : option string; cg_stopCommand : string; cg_sortOrder : Z;
  cg_iconUrl : option string }.
Definition cg_id (t : CatalogTemplate) : string := tp_id (cg_template t).
#[export] Instance CatalogTemplate_row : Row CatalogTemplate := cg_id.
#[export] Instance CatalogTemplate_settable : Settable CatalogTemplate := fun t =>
  mkCatalogTemplate (cg_template t) (cg_groupId t) (cg_author t) (cg_description t) (cg_stopCommand t) (cg_sortOrder t) (cg_iconUrl t).

Record PublicTemplateOption := mkOption {
  po_envVariable : string; po_name : string; po_description : option string; po_defaultValue : string; po_shape : VariableOptionShape }.

Record PublicTemplate := mkPublicTemplate {
  pt_id : string; pt_name : string; pt_description : option string; pt_iconUrl : option string; pt_softwareKind : option string;
  pt_group : option (string * string * option string); pt_options : list PublicTemplateOption }.

(** The tables, the servers, the cached catalogue with its expiry, the cached discoveries, draws and the clock. *)
Record Catalog := mkCatalog {
  q_groups : list TemplateGroup; q_templates : list CatalogTemplate; q_variables : list TemplateVariable; q_servers : list Server;
  q_cache : option (list PublicTemplate * Z); q_discovery : gmap string (list string * Z); q_next : N; q_nextVariable : Z; q_now : Z }.
#[export] Instance Catalog_settable : Settable Catalog := fun s =>
  mkCatalog (q_groups s) (q_templates s) (q_variables s) (q_servers s) (q_cache s) (q_discovery s) (q_next s) (q_nextVariable s) (q_now s).

Abbreviation MT := (M Catalog).

Section Service.
Context `{Platform} `{DiscoveryWorld}.

Definition nameEq (a b : string) : bool := toLowerCase a =s toLowerCase b.

(** ** public-templates.service.ts *)

Definition CACHE_TTL_SECONDS : Z := 60.

Definition invalidateCache : MT unit := modify (fun s => if redisUp (q_now s) then s <| q_cache := None |> else s).

Definition bySortOrder (a b : TemplateVariable) : bool := tv_sortOrder a <=? tv_sortOrder b.

Definition variablesOf (s : Catalog) (templateId : string) : list TemplateVariable :=
  sortBy bySortOrder (List.filter (fun v => tv_templateId v =s templateId) (q_variables s)).

Definition publicOption (v : TemplateVariable) : PublicTemplateOption :=
  mkOption (tv_envVariable v) (tv_name v) (tv_description v) (tv_defaultValue v) (deriveVariableOptionShape (tv_rules v)).

Definition publicTemplate (s : Catalog) (t : CatalogTemplate) : PublicTemplate :=
  let g := findId (cg_groupId t) (q_groups s) in
  mkPublicTemplate (cg_id t) (tp_name (cg_template t)) (cg_description t) (cg_iconUrl t) (tp_softwareKind (cg_template t))
    ((fun g => (tg_id g, tg_name g, tg_iconUrl g)) <$> g)
    (map publicOption (List.filter (fun v => tv_isUserViewable v && tv_isUserEditable v) (variablesOf s (cg_id t)))).

Definition onSale (t : CatalogTemplate) : bool :=
  (tp_deletedAt (cg_template t) =s None) && tp_isPublic (cg_template t) && tp_isActive (cg_template t).

(** [orderBy: [{ sortOrder: 'asc' }, { name: 'asc' }]]. *)
Definition catalogOrder (a b : CatalogTemplate) : bool :=
  (cg_sortOrder a <? cg_sortOrder b) ||
  ((cg_sortOrder a =? cg_sortOrder b) && collate (tp_name (cg_template a)) (tp_name (cg_template b))).

Definition queryCatalog (s : Catalog) : list PublicTemplate :=
  map (publicTemplate s) (sortBy catalogOrder (List.filter onSale (q_templates s))).

Definition cachedCatalog (s : Catalog) : option (list PublicTemplate) :=
  if redisUp (q_now s) then
    match q_cache s with Some (l, expiresAt) => if q_now s <? expiresAt then Some l else None | None => None end
  else None.

Definition listCatalog : MT (list PublicTemplate) :=
  cached ← gets cachedCatalog;
  match cached with
  | Some l => mret l
  | None =>
    result ← gets queryCatalog;
    modify (fun s => if redisUp (q_now s) then s <| q_cache := Some (result, q_now s + CACHE_TTL_SECONDS * 1000) |> else s) ;;
    mret result
  end.

(** ** templates.service.ts: groups *)

Definition liveGroup (g : TemplateGroup) : bool := tg_deletedAt g =s None.

Definition listGroups (s : Catalog) : list (TemplateGroup * Z) :=
  map (fun g => (g, countWhere (fun t => cg_groupId t =s tg_id g) (q_templates s)))
    (sortBy (fun a b => tg_sortOrder a <=? tg_sortOrder b) (List.filter liveGroup (q_groups s))).

Definition freshT : MT N := fun s => (Ok (q_next s), s <| q_next := (q_next s + 1)%N |>).

Definition createGroup (name : string) (description : Field string) : MT TemplateGroup :=
  existing ← gets (fun s => existsb (fun g => nameEq (tg_name g) name && liveGroup g) (q_groups s));
  throwIf existing (Conflict "A group with this name already exists") ;;
  n ← freshT;
  let g := mkGroup (uuidv7 n) name (given description) None 0 None in
  modify (fun s => s <| q_groups := q_groups s ++ [g] |>) ;;
  mret g.

(** ** Templates *)

Definition liveTemplate (t : CatalogTemplate) : bool := tp_deletedAt (cg_template t) =s None.

Definition listTemplates (groupId : option string) (s : Catalog) : list CatalogTemplate :=
  sortBy (fun a b => collate (tp_name (cg_template a)) (tp_name (cg_template b)))
    (List.filter (fun t => liveTemplate t && match truthy groupId with Some g => cg_groupId t =s g | None => true end) (q_templates s)).

Definition getTemplate (id : string) : MT (CatalogTemplate * list TemplateVariable) :=
  found ← gets (fun s => findFirst (fun t => (cg_id t =s id) && liveTemplate t) (q_templates s));
  t ← orThrow found (NotFound "Template not found");
  variables ← gets (fun s => variablesOf s (cg_id t));
  mret (t, variables).

Definition upperChar (c : ascii) : bool := (65 <=? code c)%N && (code c <=? 90)%N.
Definition envChar (c : ascii) : bool := upperChar c || isDigit c || (code c =? 95)%N.

(** [/^[A-Z][A-Z0-9_]{0,63}$/]. *)
Definition ENV_VAR_RE (s : string) : bool :=
  match s with EmptyString => false | String c s' => upperChar c && everyChar envChar s' && (String.length s' <=? 63)%nat end.

Fixpoint validateDeclaredVariables (vars : list VariableDto) : Res unit :=
  match vars with
  | [] => Ok tt
  | v :: vs =>
    if ENV_VAR_RE (vd_envVariable v) then validateDeclaredVariables vs
    else Throw (Conflict ("Invalid envVariable " +:+ quoted (vd_envVariable v) +:+ ": must match /^[A-Z][A-Z0-9_]{0,63}$/ to be usable by the agent"))
  end.

Definition toVariableCreateInput (templateId : string) (id : Z) (v : VariableDto) (sortOrder : Z) : TemplateVariable :=
  mkTemplateVariable id templateId (vd_envVariable v) (vd_name v) (default "" (given (vd_defaultValue v)))
    (default "nullable|string" (given (vd_rules v))) (default true (given (vd_isUserViewable v))) (default true (given (vd_isUserEditable v)))
    (given (vd_description v)) (default sortOrder (given (vd_sortOrder v))).

(** [templateVariable.create]: one variable of a name per template. *)
Definition insertVariable (templateId : string) (v : VariableDto) (sortOrder : Z) : MT TemplateVariable :=
  id ← gets q_nextVariable;
  let row := toVariableCreateInput templateId id v sortOrder in
  taken ← gets (fun s => existsb (fun x => (tv_templateId x =s templateId) && (tv_envVariable x =s vd_envVariable v)) (q_variables s));
  modify (fun s => s <| q_nextVariable := q_nextVariable s + 1 |>) ;;
  throwIf taken (UniqueViolation "template_variables_template_id_env_variable_key") ;;
  modify (fun s => s <| q_variables := q_variables s ++ [row] |>) ;;
  mret row.

Fixpoint insertVariables (templateId : string) (vs : list VariableDto) (i : Z) : MT unit :=
  match vs with
  | [] => mret tt
  | v :: vs' => insertVariable templateId v i ;; insertVariables templateId vs' (i + 1)
  end.

(** The partial unique index on group and lower-case name. *)
Definition nameTaken (groupId name id : string) (s : Catalog) : bool :=
  existsb (fun t => liveTemplate t && (cg_groupId t =s groupId) && nameEq (tp_name (cg_template t)) name && negb (cg_id t =s id)) (q_templates s).

Definition newTemplate (id : string) (dto : CreateTemplateDto) : CatalogTemplate :=
  mkCatalogTemplate
    (mkTemplate id (ct_name dto) None true (default false (given (ct_isPublic dto))) (ct_dockerImages dto) (given (ct_softwareKind dto))
       (ct_startupCommand dto) (default "ghcr.io/parkervcp/installers:debian" (given (ct_installImage dto)))
       (default "bash" (given (ct_installEntrypoint dto))) (ct_installScript dto))
    (ct_groupId dto) (ct_author dto) (given (ct_description dto)) (default "stop" (given (ct_stopCommand dto)))
    (default 0 (given (ct_sortOrder dto))) (given (ct_iconUrl dto)).

(** A nested create is one statement: all of it or nothing. *)
Definition nested {A} (m : MT A) : MT A := fun s =>
  match m s with
  | (Ok a, s') => (Ok a, s')
  | (Throw e, s') => (Throw e, s' <| q_templates := q_templates s |> <| q_variables := q_variables s |>)
  end.

Definition insertTemplate (dto : CreateTemplateDto) : MT CatalogTemplate :=
  nested (
    n ← freshT;
    let t := newTemplate (uuidv7 n) dto in
    throwIf (negb (fitsInt4 (cg_sortOrder t))) (External "Unable to fit integer value into an INT4") ;;
    dup ← gets (fun s => existsb (fun x => cg_id x =s cg_id t) (q_templates s));
    throwIf dup (UniqueViolation "server_templates_pkey") ;;
    taken ← gets (nameTaken (ct_groupId dto) (ct_name dto) (cg_id t));
    throwIf taken (UniqueViolation "templates_group_name_uq") ;;
    modify (fun s => s <| q_templates := q_templates s ++ [t] |>) ;;
    insertVariables (cg_id t) (default [] (given (ct_variables dto))) 0 ;;
    mret t).

Definition createTemplate (dto : CreateTemplateDto) : MT CatalogTemplate :=
  group ← gets (fun s => findFirst (fun g => (tg_id g =s ct_groupId dto) && liveGroup g) (q_groups s));
  orThrow group (NotFound "Template group not found") ;;
  lift (validateDeclaredVariables (default [] (given (ct_variables dto)))) ;;
  created ← insertTemplate dto;
  invalidateCache ;;
  mret created.

Definition patchTemplate (dto : UpdateTemplateDto) (t : CatalogTemplate) : Res CatalogTemplate :=
  let p := cg_template t in
  name ← patch (ut_name dto) (tp_name p);
  author ← patch (ut_author dto) (cg_author t);
  groupId ← patch (ut_groupId dto) (cg_groupId t);
  dockerImages ← patch (ut_dockerImages dto) (tp_dockerImages p);
  startupCommand ← patch (ut_startupCommand dto) (tp_startupCommand p);
  stopCommand ← patch (ut_stopCommand dto) (cg_stopCommand t);
  installImage ← patch (ut_installImage dto) (tp_installImage p);
  installEntrypoint ← patch (ut_installEntrypoint dto) (tp_installEntrypoint p);
  installScript ← patch (ut_installScript dto) (tp_installScript p);
  isActive ← patch (ut_isActive dto) (tp_isActive p);
  isPublic ← patch (ut_isPublic dto) (tp_isPublic p);
  sortOrder ← patch (ut_sortOrder dto) (cg_sortOrder t);
  mret (mkCatalogTemplate
    (mkTemplate (tp_id p) name (tp_deletedAt p) isActive isPublic dockerImages (patchNull (ut_softwareKind dto) (tp_softwareKind p))
       startupCommand installImage installEntrypoint installScript)
    groupId author (patchNull (ut_description dto) (cg_description t)) stopCommand sortOrder (patchNull (ut_iconUrl dto) (cg_iconUrl t))).

Definition updateTemplate (id : string) (dto : UpdateTemplateDto) : MT CatalogTemplate :=
  found ← getTemplate id;
  updated ← lift (patchTemplate dto (fst found));
  throwIf (negb (fitsInt4 (cg_sortOrder updated))) (External "Unable to fit integer value into an INT4") ;;
  group ← gets (fun s => findId (cg_groupId updated) (q_groups s));
  orThrow group (External "server_templates_group_id_fkey") ;;
  taken ← gets (nameTaken (cg_groupId updated) (tp_name (cg_template updated)) id);
  throwIf taken (UniqueViolation "templates_group_name_uq") ;;
  modify (fun s => s <| q_templates := updId id (fun _ => updated) (q_templates s) |>) ;;
  invalidateCache ;;
  mret updated.

Definition markDeleted (now : Z) (t : CatalogTemplate) : CatalogTemplate :=
  let p := cg_template t in
  t <| cg_template := mkTemplate (tp_id p) (tp_name p) (Some now) (tp_isActive p) (tp_isPublic p) (tp_dockerImages p) (tp_softwareKind p)
         (tp_startupCommand p) (tp_installImage p) (tp_installEntrypoint p) (tp_installScript p) |>.

Definition removeTemplate (id : string) : MT unit :=
  getTemplate id ;;
  serverCount ← gets (fun s => countWhere (fun v => sv_templateId v =s Some id) (q_servers s));
  throwIf (0 <? serverCount) (Conflict "Template is in use by existing servers") ;;
  modify (fun s => s <| q_templates := updId id (markDeleted (q_now s)) (q_templates s) |>) ;;
  invalidateCache.

(** ** Variables *)

Definition addVariable (templateId : string) (dto : VariableDto) : MT TemplateVariable :=
  getTemplate templateId ;;
  lift (validateDeclaredVariables [dto]) ;;
  count ← gets (fun s => countWhere (fun v => tv_templateId v =s templateId) (q_variables s));
  created ← insertVariable templateId dto count;
  invalidateCache ;;
  mret created.

Definition findVariable (templateId : string) (variableId : Z) : MT TemplateVariable :=
  found ← gets (fun s => findFirst (fun v => (tv_id v =? variableId) && (tv_templateId v =s templateId)) (q_variables s));
  orThrow found (NotFound "Variable not found").

Definition removeVariable (templateId : string) (variableId : Z) : MT unit :=
  findVariable templateId variableId ;;
  modify (fun s => s <| q_variables := List.filter (fun v => negb (tv_id v =? variableId)) (q_variables s) |>) ;;
  invalidateCache.

Definition patchVariable (dto : UpdateVariableDto) (v : TemplateVariable) : Res TemplateVariable :=
  name ← patch (uv_name dto) (tv_name v);
  defaultValue ← patch (uv_defaultValue dto) (tv_defaultValue v);
  rules ← patch (uv_rules dto) (tv_rules v);
  isUserViewable ← patch (uv_isUserViewable dto) (tv_isUserViewable v);
  isUserEditable ← patch (uv_isUserEditable dto) (tv_isUserEditable v);
  sortOrder ← patch (uv_sortOrder dto) (tv_sortOrder v);
  mret (mkTemplateVariable (tv_id v) (tv_templateId v) (tv_envVariable v) name defaultValue rules isUserViewable isUserEditable
    (patchNull (uv_description dto) (tv_description v)) sortOrder).

Definition writeVariable (row : TemplateVariable) : MT unit :=
  modify (fun s => s <| q_variables := updWhere (fun v => tv_id v =? tv_id row) (fun _ => row) (q_variables s) |>).

Definition updateVariable (templateId : string) (variableId : Z) (dto : UpdateVariableDto) : MT TemplateVariable :=
  v ← findVariable templateId variableId;
  updated ← lift (patchVariable dto v);
  throwIf (negb (fitsInt4 (tv_sortOrder updated))) (External "Unable to fit integer value into an INT4") ;;
  writeVariable updated ;;
  invalidateCache ;;
  mret updated.

(** ** Curated lists *)

(** The text from the next ['|'] on. *)
Fixpoint fromBar (s : string) : string :=
  match s with EmptyString => "" | String c s' => if Ascii.eqb c "|" then s else fromBar s' end.

(** [rules.replace(/\|?in:[^|]*/, '')]: the first match goes. *)
Fixpoint stripIn (s : string) : string :=
  if startsWith "|in:" s then fromBar (dropS 4 s)
  else if startsWith "in:" s then fromBar (dropS 3 s)
  else match s with EmptyString => "" | String c s' => String c (stripIn s') end.

Definition withInList (baseRules : option string) (values : list string) : string :=
  stripIn (default "required|string" baseRules) +:+ "|in:" +:+ join "," values.

(** ** The quick creation *)

Record PresetDto := mkPresetDto {
  pd_groupId : string; pd_name : string; pd_softwareKind : PresetKind; pd_description : Field string; pd_minecraftVersions : list string;
  pd_builds : Field (list string); pd_isPublic : Field bool; pd_isActive : Field bool }.

Definition validPresetDto (dto : PresetDto) : bool := lengthOk 1 191 (pd_name dto) && negb (bool_decide (pd_minecraftVersions dto = [])).

Definition curated (v : VariableDto) (values : list string) : VariableDto :=
  mkVariableDto (vd_name v) (vd_description v) (vd_envVariable v) (match values with x :: _ => Val x | [] => Unset end)
    (Val (withInList (given (vd_rules v)) values)) (vd_isUserViewable v) (vd_isUserEditable v) (vd_sortOrder v).

Definition presetVariable (preset : TemplatePreset) (dto : PresetDto) (v : VariableDto) : VariableDto :=
  if vd_envVariable v =s ps_versionVariable preset then curated v (pd_minecraftVersions dto)
  else match ps_buildVariable preset with
       | Some b => if vd_envVariable v =s b then curated v (default [] (given (pd_builds dto))) else v
       | None => v
       end.

Definition deactivate : UpdateTemplateDto :=
  mkUpdateTemplate Unset Unset Unset Unset Unset Unset Unset Unset Unset Unset Unset (Val false) Unset Unset Unset.

Definition presetTemplate (preset : TemplatePreset) (dto : PresetDto) : CreateTemplateDto :=
  mkCreateTemplate (pd_groupId dto) (pd_name dto) "gxhost" (Val (default (ps_description preset) (given (pd_description dto))))
    (ps_dockerImages preset) (ps_startupCommand preset) (Val (ps_stopCommand preset)) (Val (ps_installImage preset))
    (Val (ps_installEntrypoint preset)) (ps_installScript preset) (Val (presetStr (ps_softwareKind preset)))
    (Val (map (presetVariable preset dto) (ps_variables preset))) (Val (default true (given (pd_isPublic dto)))) (Val 0) Unset.

Definition createFromPreset (dto : PresetDto) : MT CatalogTemplate :=
  let preset := SOFTWARE_PRESETS (pd_softwareKind dto) in
  throwIf (bool_decide (is_Some (ps_buildVariable preset)) && bool_decide (default [] (given (pd_builds dto)) = []))
    (BadRequest (ps_name preset +:+ " requires at least one build/loader version")) ;;
  created ← createTemplate (presetTemplate preset dto);
  if match pd_isActive dto with Val false => true | _ => false end then updateTemplate (cg_id created) deactivate else mret created.

Definition fieldOf {A} (o : option A) : Field A := match o with Some a => Val a | None => Unset end.

Definition copiedVariable (v : TemplateVariable) : VariableDto :=
  mkVariableDto (tv_name v) (fieldOf (tv_description v)) (tv_envVariable v) (Val (tv_defaultValue v)) (Val (tv_rules v)) (Val (tv_isUserViewable v))
    (Val (tv_isUserEditable v)) (Val (tv_sortOrder v)).

Definition duplicateTemplate (id newName : string) : MT CatalogTemplate :=
  source ← getTemplate id;
  let t := fst source in
  let p := cg_template t in
  createTemplate (mkCreateTemplate (cg_groupId t) newName (cg_author t) (fieldOf (cg_description t)) (tp_dockerImages p) (tp_startupCommand p)
    (Val (cg_stopCommand t)) (Val (tp_installImage p)) (Val (tp_installEntrypoint p)) (tp_installScript p) (fieldOf (tp_softwareKind p))
    (Val (map copiedVariable (snd source))) (Val false) (Val (cg_sortOrder t)) (fieldOf (cg_iconUrl t))).

(** [this.discovery.getVersions(kind)] and [getBuilds(kind, mcVersion)]. *)
Definition discoverVersions (kind : PresetKind) : MT (list string) := fun s =>
  let '(l, cache) := getVersions (q_now s) kind (q_discovery s) in (Ok l, s <| q_discovery := cache |>).

Definition discoverBuilds (kind : PresetKind) (mcVersion : string) : MT (list string) := fun s =>
  let '(l, cache) := getBuilds (q_now s) kind mcVersion (q_discovery s) in (Ok l, s <| q_discovery := cache |>).

Definition refreshMinecraftVersions (templateId : string) : MT TemplateVariable :=
  found ← getTemplate templateId;
  let t := fst found in
  kind ← orThrow (truthy (tp_softwareKind (cg_template t)) ≫= presetOf)
    (Conflict "Este template não declara um softwareKind reconhecido — não há de onde descobrir versões automaticamente");
  liveVersions ← discoverVersions kind;
  let versions := if bool_decide (liveVersions = []) then KNOWN_MINECRAFT_VERSIONS kind else liveVersions in
  let versionVariable := ps_versionVariable (SOFTWARE_PRESETS kind) in
  variable ← orThrow (findFirst (fun v => tv_envVariable v =s versionVariable) (snd found))
    (NotFound ("Este template não tem uma variável " +:+ versionVariable +:+ " para curar"));
  let updated := mkTemplateVariable (tv_id variable) (tv_templateId variable) (tv_envVariable variable) (tv_name variable)
    (if includes (tv_defaultValue variable) versions then tv_defaultValue variable else default "" (head versions))
    (withInList (Some (tv_rules variable)) versions) (tv_isUserViewable variable) (tv_isUserEditable variable)
    (tv_description variable) (tv_sortOrder variable) in
  writeVariable updated ;;
  invalidateCache ;;
  mret updated.

End Service.
