(* ===== verification/TemplateRules.v ===== *)
(** TemplateRules: what a curated version list means, and what the catalogue shows.

    A template created from a preset offers exactly the versions it was given and the setup
    accepts exactly those; curating again replaces the list; and the cached catalogue is the
    current one. *)

From S2P Require Import Prelude JsNum Store Scheduler Subscriptions JsString Dto Variables Servers Accounts Presets Discovery Templates.
From Stdlib Require Import QArith Ascii String Lia.

Local Open Scope Z_scope.

(** ** Splitting and joining *)

Lemma splitOn_app sep a b : splitOn sep (a +:+ String sep b) = splitOn sep a ++ splitOn sep b.
Proof.
  induction a as [|c a IH].
  - change ("" +:+ String sep b) with (String sep b). simpl. by rewrite Ascii.eqb_refl.
  - change (String c a +:+ String sep b) with (String c (a +:+ String sep b)). simpl. rewrite IH. destruct (Ascii.eqb c sep); [done|].
    destruct (splitOn sep a) as [|x l] eqn:E; [|done]. exfalso. destruct a as [|d a']; simpl in E; [done|].
    destruct (Ascii.eqb d sep); [done|]. by destruct (splitOn sep a').
Qed.

Lemma splitOn_join sep vs : vs <> [] -> Forall (fun v => noChar sep v = true) vs -> splitOn sep (join (String sep "") vs) = vs.
Proof.
  intros Hne. induction vs as [|v vs IH]; [done|]. intros Hvs. apply Forall_cons in Hvs as [Hv Hvs]. unfold join in *.
  destruct vs as [|w vs]; [by apply splitOn_noChar|].
  change (splitOn sep (v +:+ String sep (String.concat (String sep "") (w :: vs))) = v :: w :: vs). rewrite splitOn_segment by done.
  f_equal. by apply IH.
Qed.

Lemma everyChar_noChar p c s : p c = false -> everyChar p s = true -> noChar c s = true.
Proof.
  intros Hp. induction s as [|x s IH]; [done|]. simpl. rewrite !andb_true_iff. intros [Hx Hs]. split; [|by apply IH].
  apply negb_true_iff. destruct (Ascii.eqb_spec x c) as [->|]; [congruence|done].
Qed.

Lemma everyChar_join p sep vs : everyChar p sep = true -> Forall (fun v => everyChar p v = true) vs -> everyChar p (join sep vs) = true.
Proof.
  intros Hs. unfold join. induction vs as [|v vs IH]; [done|]. intros Hvs. apply Forall_cons in Hvs as [Hv Hvs].
  destruct vs as [|w vs]; [done|]. change (everyChar p (v +:+ sep +:+ String.concat sep (w :: vs)) = true).
  by rewrite !everyChar_app, Hv, Hs, IH.
Qed.

(** ** Rule texts *)

(** The characters of a value that has no meaning of its own in a rule text. *)
Definition plainChar (c : ascii) : bool := visible c && negb (Ascii.eqb c "|") && negb (Ascii.eqb c ",") && negb (Ascii.eqb c ":").
Definition plainValue (v : string) : bool := negb (v =s "") && everyChar plainChar v.

(** Rules that declare no choice list, and that the replacement leaves alone. *)
Definition noInList (rules : string) : bool := (stripIn rules =s rules) && negb (existsb (startsWith "in:") (ruleTokens rules)).

Lemma ruleTokens_bar a b : ruleTokens (a +:+ String "|" b) = ruleTokens a ++ ruleTokens b.
Proof. unfold ruleTokens. by rewrite splitOn_app, map_app, List.filter_app. Qed.

(** The token that carries the list. *)
Definition listToken (values : list string) : string := "in:" +:+ join "," values.

Definition tokenChar (c : ascii) : bool := visible c && negb (Ascii.eqb c "|").

Lemma plain_values_chars values : forallb plainValue values = true -> Forall (fun v => everyChar plainChar v = true) values.
Proof. rewrite forallb_forall, Forall_forall. intros Hv v Hin%list_elem_of_In. apply Hv in Hin. by apply andb_true_iff in Hin as [_ ?]. Qed.

Lemma listToken_rules values : forallb plainValue values = true -> ruleTokens (listToken values) = [listToken values].
Proof.
  intros Hv. assert (everyChar tokenChar (listToken values) = true) as Hc.
  { unfold listToken. rewrite everyChar_app. apply andb_true_iff. split; [done|]. apply everyChar_join; [done|].
    eapply Forall_impl; [by apply plain_values_chars|]. intros v. apply everyChar_impl. intros c.
    unfold plainChar, tokenChar. rewrite !andb_true_iff. tauto. }
  unfold ruleTokens. rewrite splitOn_noChar by (by eapply (everyChar_noChar tokenChar)). simpl.
  rewrite trim_visible; [done|]. eapply everyChar_impl; [|exact Hc]. intros c. unfold tokenChar. by intros [? _]%andb_true_iff.
Qed.

Lemma withInList_tokens base values : noInList base = true -> forallb plainValue values = true ->
  ruleTokens (withInList (Some base) values) = ruleTokens base ++ [listToken values].
Proof.
  intros Hb Hv. unfold noInList in Hb. apply andb_true_iff in Hb as [Hs%bool_decide_eq_true _].
  unfold withInList. change (default "required|string" (Some base)) with base. rewrite Hs. change (base +:+ "|in:" +:+ join "," values) with (base +:+ String "|" (listToken values)).
  by rewrite ruleTokens_bar, listToken_rules.
Qed.

Lemma listToken_in values : startsWith "in:" (listToken values) = true.
Proof. unfold listToken. by destruct (join "," values). Qed.

Lemma splitOn_values values : values <> [] -> forallb plainValue values = true -> splitOn "," (join "," values) = values.
Proof.
  intros Hne Hv. apply (splitOn_join ","); [done|]. eapply Forall_impl; [by apply plain_values_chars|].
  intros v. by apply everyChar_noChar.
Qed.

Lemma listToken_arg values : forallb plainValue values = true ->
  tokenName (listToken values) = "in" /\ tokenArg (listToken values) = Some (join "," values).
Proof.
  intros Hv. apply (in_token (listToken values)); [apply listToken_in|]. change (dropS 3 (listToken values)) with (join "," values).
  apply (everyChar_noChar (fun c => visible c && negb (Ascii.eqb c ":"))); [done|]. apply everyChar_join; [done|].
  eapply Forall_impl; [by apply plain_values_chars|]. intros v. apply everyChar_impl. intros c.
  unfold plainChar. rewrite !andb_true_iff. tauto.
Qed.

Lemma checkToken_in tokens values v : values <> [] -> forallb plainValue values = true ->
  checkToken tokens v (listToken values) = None <-> v ∈ values.
Proof.
  intros Hne Hv. destruct (listToken_arg values Hv) as [E1 E2]. unfold checkToken. rewrite E1, E2.
  pose proof (splitOn_values values Hne Hv) as Hs. revert Hs. generalize (join "," values). intros l Hs. simpl. rewrite Hs.
  rewrite <- includes_elem. by destruct (includes v values).
Qed.

Lemma checkToken_app tokens t v u : includes "integer" [u] = false -> checkToken (tokens ++ [u]) v t = checkToken tokens v t.
Proof.
  intros Hu. unfold checkToken. assert (includes "integer" (tokens ++ [u]) = includes "integer" tokens) as ->; [|done].
  unfold includes in *. by rewrite existsb_app, Hu, orb_false_r.
Qed.

(** The list is offered as it is, and exactly its values are accepted, among those the rules
    accepted before. *)
Lemma curated_versions_exact base values : noInList base = true -> values <> [] -> forallb plainValue values = true ->
  sh_choices (deriveVariableOptionShape (withInList (Some base) values)) = Some values /\
  forall v, v <> "" ->
    (validateVariableValue v (withInList (Some base) values) = None <-> v ∈ values /\ validateVariableValue v base = None).
Proof.
  intros Hb Hne Hv. pose proof (withInList_tokens base values Hb Hv) as Ht. split.
  - unfold deriveVariableOptionShape. rewrite Ht, findFirst_app.
    apply andb_true_iff in Hb as [_ Hb%negb_true_iff]. assert (findFirst (startsWith "in:") (ruleTokens base) = None) as ->.
    { destruct (findFirst _ _) as [t|] eqn:E; [|done]. apply findFirst_some in E as [Hin Hp]. exfalso. eapply eq_true_false_abs, Hb.
      apply existsb_exists. exists t. by rewrite <- list_elem_of_In. }
    assert (findFirst (startsWith "in:") [listToken values] = Some (listToken values)) as -> by (unfold findFirst, List.find; by rewrite listToken_in).
    cbv iota. cbn [sh_choices].
    change (dropS 3 (listToken values)) with (join "," values). by rewrite splitOn_values.
  - intros v Hnv. unfold validateVariableValue. rewrite (bool_decide_false (v = "")) by done. rewrite Ht, !firstError_none.
    setoid_rewrite elem_of_app. setoid_rewrite list_elem_of_singleton.
    assert (forall t, checkToken (ruleTokens base ++ [listToken values]) v t = checkToken (ruleTokens base) v t) as He by (intros; by apply checkToken_app).
    setoid_rewrite He. rewrite <- (checkToken_in (ruleTokens base) values v Hne Hv). naive_solver.
Qed.

(** ** Replacing a list *)

Lemma startsWith_bar w b r : noChar "|" w = true -> startsWith w (b +:+ String "|" r) = startsWith w b.
Proof.
  unfold startsWith. revert b. induction w as [|x w IH]; intros b Hw; [by destruct b|]. apply andb_true_iff in Hw as [Hx%negb_true_iff Hw].
  destruct b as [|c b].
  - simpl. destruct (ascii_dec x "|") as [->|]; [by rewrite Ascii.eqb_refl in Hx|done].
  - change (String c b +:+ String "|" r) with (String c (b +:+ String "|" r)). simpl. destruct (ascii_dec x c); [by apply IH|done].
Qed.

Lemma fromBar_length s : (String.length (fromBar s) <= String.length s)%nat.
Proof. induction s as [|c s IH]; simpl; [done|]. destruct (Ascii.eqb c "|"); simpl; lia. Qed.

Lemma fromBar_drop n c s : (0 < n)%nat -> fromBar (dropS n (String c s)) <> String c s.
Proof.
  intros Hn E. apply (f_equal String.length) in E. pose proof (fromBar_length (dropS n (String c s))).
  destruct n as [|n]; [lia|]. assert (forall k t, (String.length (dropS k t) <= String.length t)%nat) as Hd.
  { induction k as [|k IHk]; intros [|d t]; simpl; try lia. specialize (IHk t). lia. }
  specialize (Hd n s). simpl in *. lia.
Qed.

(** What the replacement leaves alone it finds again behind a list. *)
Lemma stripIn_after base r : stripIn base = base -> stripIn (base +:+ "|in:" +:+ r) = base +:+ fromBar r.
Proof.
  induction base as [|c b IH]; intros Hs.
  - change (stripIn ("|in:" +:+ r) = fromBar r). simpl. by destruct r.
  - cbn [stripIn] in Hs. destruct (startsWith "|in:" (String c b)) eqn:E1; [by apply fromBar_drop in Hs; lia|].
    destruct (startsWith "in:" (String c b)) eqn:E2; [by apply fromBar_drop in Hs; lia|]. injection Hs as Hs.
    change (String c b +:+ "|in:" +:+ r) with (String c (b +:+ "|in:" +:+ r)). cbn [stripIn].
    assert (startsWith "in:" (String c (b +:+ "|in:" +:+ r)) = false) as ->.
    { etransitivity; [exact (startsWith_bar "in:" (String c b) _ eq_refl)|exact E2]. }
    assert (startsWith "|in:" (String c (b +:+ "|in:" +:+ r)) = false) as ->.
    { etransitivity; [|exact E1]. unfold startsWith. cbn [String.prefix]. destruct (ascii_dec "|" c); [|done].
      exact (startsWith_bar "in:" b _ eq_refl). }
    change (String c b +:+ fromBar r) with (String c (b +:+ fromBar r)). by rewrite IH.
Qed.

Lemma append_empty s : s +:+ "" = s.
Proof. induction s as [|c s IH]; [done|]. exact (f_equal (String c) IH). Qed.

Lemma fromBar_plain s : noChar "|" s = true -> fromBar s = "".
Proof. induction s as [|c s IH]; simpl; [done|]. rewrite andb_true_iff, negb_true_iff. intros [-> Hs]. by apply IH. Qed.

(** Curating again replaces the earlier list. *)
Lemma recurated base old values : noInList base = true -> forallb plainValue old = true ->
  withInList (Some (withInList (Some base) old)) values = withInList (Some base) values.
Proof.
  intros Hb Ho. apply andb_true_iff in Hb as [Hs%bool_decide_eq_true _].
  assert (forall x l, withInList (Some x) l = stripIn x +:+ "|in:" +:+ join "," l) as Hw by done. rewrite !Hw, Hs, (stripIn_after base (join "," old) Hs), fromBar_plain.
  - by rewrite append_empty.
  - apply (everyChar_noChar tokenChar); [done|]. apply everyChar_join; [done|]. eapply Forall_impl; [by apply plain_values_chars|].
    intros v. apply everyChar_impl. intros c. unfold plainChar, tokenChar. rewrite !andb_true_iff. tauto.
Qed.

(** ** Runs of the operations *)

Section Runs.
Context {S : Type}.

Lemma bind_paths {A B} (m : M S A) (k : A -> M S B) s r s' : mbind k m s = (r, s') ->
  exists x s1, m s = (x, s1) /\ match x with Ok a => k a s1 = (r, s') | Throw e => r = Throw e /\ s' = s1 end.
Proof. unfold mbind, M_bind. destruct (m s) as [x s1]. intros E. exists x, s1. split; [done|]. destruct x; [done|]. by injection E as <- <-. Qed.

Lemma throwIf_run b e (s : S) r s' : throwIf b e s = (r, s') -> s' = s /\ r = if b then Throw e else Ok tt.
Proof. destruct b; by intros [= <- <-]. Qed.

Lemma orThrow_run {A} (o : option A) e (s : S) r s' : orThrow o e s = (r, s') -> s' = s /\ r = match o with Some a => Ok a | None => Throw e end.
Proof. destruct o; by intros [= <- <-]. Qed.

End Runs.

(** [mrun] follows a run through the primitives, on every path. *)
Ltac mrun_step :=
  match goal with
  | H : mbind _ _ _ = (_, _) |- _ => apply bind_paths in H; destruct H as ([?|?] & ? & ? & H)
  | H : gets _ _ = (_, _) |- _ => apply gets_ok in H; destruct H as [? ->]
  | H : mret _ _ = (_, _) |- _ => apply mret_ok in H; destruct H as [? ->]
  | H : lift _ _ = (_, _) |- _ => apply lift_ok in H; destruct H as [? ->]
  | H : modify _ _ = (_, _) |- _ => apply modify_ok in H; destruct H as [? ->]
  | H : throwIf _ _ _ = (_, _) |- _ => apply throwIf_run in H; destruct H as [-> ?]
  | H : orThrow _ _ _ = (_, _) |- _ => apply orThrow_run in H; destruct H as [-> ?]
  | H : Throw _ = Throw _ /\ _ = _ |- _ => destruct H as [? ->]
  | H : _ = Throw _ /\ _ = _ |- _ => destruct H as [? ->]
  | H : Ok _ = Throw _ |- _ => discriminate H
  | H : Throw _ = Ok _ |- _ => discriminate H
  | H : Ok ?a = Ok _ |- _ => injection H as H; try (is_var a; subst a)
  | H : Ok _ = (if ?b then _ else _) |- _ => destruct b eqn:?; [discriminate H|]
  | H : Throw _ = (if ?b then _ else _) |- _ => destruct b eqn:?; [|discriminate H]
  | H : Ok _ = match ?o with Some _ => _ | None => _ end |- _ => destruct o eqn:?; [|discriminate H]
  | H : Throw _ = match ?o with Some _ => _ | None => _ end |- _ => destruct o eqn:?; [discriminate H|]
  | H : @eq () _ _ |- _ => clear H
  | u : () |- _ => destruct u
  end.
Ltac mrun := repeat mrun_step.

Section Catalogue.
Context `{Platform} `{DiscoveryWorld}.

(** What the catalogue is computed from, and the cached copy. *)
Definition catalogCore (s : Catalog) := (q_groups s, q_templates s, q_variables s, q_cache s).

(** The keys: template ids are unique, a variable belongs to a template, a template to a group. *)
Record catalogKeys (s : Catalog) : Prop := mkCatalogKeys {
  ko_ids : NoDup (map rid (q_templates s));
  ko_variables : Forall (fun v => tv_templateId v ∈ map rid (q_templates s)) (q_variables s);
  ko_groups : Forall (fun t => is_Some (findId (cg_groupId t) (q_groups s))) (q_templates s) }.

(** What a request may do to the tables and to the cache. *)
Inductive catalogEffect (s s' : Catalog) : Prop :=
  | effect_none : catalogCore s' = catalogCore s -> catalogEffect s s'
  | effect_group g : q_groups s' = q_groups s ++ [g] -> q_templates s' = q_templates s -> q_variables s' = q_variables s ->
      q_cache s' = q_cache s -> catalogEffect s s'
  | effect_write : q_groups s' = q_groups s -> (catalogKeys s -> catalogKeys s') ->
      q_cache s' = (if redisUp (q_now s) then None else q_cache s) -> catalogEffect s s'.

Definition cacheCurrent (s : Catalog) : Prop := forall l e, q_cache s = Some (l, e) -> l = queryCatalog s.

Lemma queryCatalog_core s s' : q_groups s' = q_groups s -> q_templates s' = q_templates s -> q_variables s' = q_variables s ->
  queryCatalog s' = queryCatalog s.
Proof. destruct s, s'; simpl. by intros -> -> ->. Qed.

Lemma queryCatalog_group s s' g : catalogKeys s -> q_groups s' = q_groups s ++ [g] -> q_templates s' = q_templates s ->
  q_variables s' = q_variables s -> queryCatalog s' = queryCatalog s.
Proof.
  intros [_ _ Hg] E1 E2 E3. unfold queryCatalog. rewrite E2. apply map_ext_in. intros t Ht. unfold publicTemplate, variablesOf. rewrite E1, E3.
  assert (is_Some (findId (cg_groupId t) (q_groups s))) as [x Hx].
  { rewrite Forall_forall in Hg. apply Hg. rewrite <- list_elem_of_In, (sortBy_perm catalogOrder) in Ht. apply list_elem_of_In, filter_In in Ht as [Ht _].
    by apply list_elem_of_In. }
  by rewrite Hx, (findId_app_l _ _ x [g]).
Qed.

Lemma catalogKeys_core s s' : q_groups s' = q_groups s -> q_templates s' = q_templates s -> q_variables s' = q_variables s -> catalogKeys s -> catalogKeys s'.
Proof. intros E1 E2 E3 [K1 K2 K3]. split; by rewrite ?E1, ?E2, ?E3. Qed.

Lemma effect_keys s s' : catalogEffect s s' -> catalogKeys s -> catalogKeys s'.
Proof.
  intros [E|g E1 E2 E3 _|_ Hk _]; [| |done].
  - injection E as E1 E2 E3 _. by apply catalogKeys_core.
  - intros [K1 K2 K3]. split; rewrite ?E2, ?E3; [done|done|]. rewrite E1. eapply Forall_impl; [exact K3|].
    intros t [x Hx]. exists x. by apply findId_app_l.
Qed.

Lemma effect_cache s s' : redisUp (q_now s) = true -> catalogKeys s -> catalogEffect s s' -> cacheCurrent s -> cacheCurrent s'.
Proof.
  intros Hr Hk [E|g E1 E2 E3 E4|_ _ E] Hc l e.
  - injection E as E1 E2 E3 ->. rewrite (queryCatalog_core s s') by done. apply Hc.
  - rewrite E4, (queryCatalog_group s s' g) by done. apply Hc.
  - by rewrite E, Hr.
Qed.

(** ** The writes *)

(** A statement that changes no table and no cached copy. *)
Lemma effect_refl s : catalogEffect s s.
Proof. by apply effect_none. Qed.

Lemma getTemplate_ok id s t vs s1 : getTemplate id s = (Ok (t, vs), s1) ->
  s1 = s /\ t ∈ q_templates s /\ cg_id t = id /\ liveTemplate t = true /\ vs = variablesOf s id.
Proof.
  unfold getTemplate. intros E. mrun. simplify_eq. match goal with Hf : findFirst _ _ = Some _ |- _ => apply findFirst_some in Hf as [Hin [Hi%bool_decide_eq_true Hl]%andb_true_iff] end.
  subst id. by split_and!.
Qed.

Lemma getTemplate_same id s r s1 : getTemplate id s = (r, s1) -> s1 = s.
Proof. unfold getTemplate. intros E. by mrun. Qed.

Lemma variablesOf_elem s id v : v ∈ variablesOf s id <-> v ∈ q_variables s /\ tv_templateId v = id.
Proof.
  unfold variablesOf. rewrite (sortBy_perm bySortOrder). by rewrite !list_elem_of_In, filter_In, bool_decide_eq_true.
Qed.

Fixpoint variableRows (templateId : string) (id : Z) (vs : list VariableDto) (i : Z) : list TemplateVariable :=
  match vs with [] => [] | v :: vs' => toVariableCreateInput templateId id v i :: variableRows templateId (id + 1) vs' (i + 1) end.

Lemma insertVariable_run templateId v i s r s' : insertVariable templateId v i s = (r, s') ->
  q_groups s' = q_groups s /\ q_templates s' = q_templates s /\ q_cache s' = q_cache s /\ q_now s' = q_now s /\
  q_nextVariable s' = q_nextVariable s + 1 /\
  match r with
  | Ok row => row = toVariableCreateInput templateId (q_nextVariable s) v i /\ q_variables s' = (q_variables s ++ [row])%list
  | Throw _ => q_variables s' = q_variables s
  end.
Proof. unfold insertVariable. intros E. mrun; simplify_eq; by split_and!. Qed.

Lemma insertVariables_run templateId vs i s r s' : insertVariables templateId vs i s = (r, s') ->
  q_groups s' = q_groups s /\ q_templates s' = q_templates s /\ q_cache s' = q_cache s /\ q_now s' = q_now s /\
  (r = Ok tt -> q_variables s' = q_variables s ++ variableRows templateId (q_nextVariable s) vs i).
Proof.
  revert i s. induction vs as [|v vs IH]; intros i s; simpl; [intros E; mrun; split_and!; try done; by rewrite app_nil_r|].
  intros E. apply bind_paths in E as ([row|e] & s1 & E1 & E2); apply insertVariable_run in E1 as (F1 & F2 & F3 & F4 & F5 & F6).
  - destruct F6 as [-> F6]. apply IH in E2 as (-> & -> & -> & -> & G). split_and!; try done. intros Hr. rewrite (G Hr), F5, F6. by rewrite <- app_assoc.
  - destruct E2 as [-> ->]. by split_and!.
Qed.

Lemma variableRows_template templateId id vs i v : v ∈ variableRows templateId id vs i -> tv_templateId v = templateId.
Proof.
  revert id i. induction vs as [|x vs IH]; intros id i; simpl; [by intros ?%not_elem_of_nil|].
  rewrite elem_of_cons. intros [->|Hv]; [done|by eapply IH].
Qed.

Lemma absent_id id s : existsb (fun x => cg_id x =s id) (q_templates s) = false -> ~ id ∈ map rid (q_templates s).
Proof.
  intros Hd Hin. apply list_elem_of_In, in_map_iff in Hin as (t & Ht & Hin).
  assert (existsb (fun x => cg_id x =s id) (q_templates s) = true) as Hc; [|congruence].
  apply existsb_exists. exists t. split; [done|]. by apply bool_decide_eq_true.
Qed.

(** A created template: its row, its variables, and nothing else. *)
Lemma insertTemplate_run dto s r s' : insertTemplate dto s = (r, s') ->
  q_groups s' = q_groups s /\ q_cache s' = q_cache s /\ q_now s' = q_now s /\
  match r with
  | Ok t => t = newTemplate (uuidv7 (q_next s)) dto /\ ~ cg_id t ∈ map rid (q_templates s) /\ q_templates s' = q_templates s ++ [t] /\
      q_variables s' = q_variables s ++ variableRows (cg_id t) (q_nextVariable s) (default [] (given (ct_variables dto))) 0
  | Throw _ => q_templates s' = q_templates s /\ q_variables s' = q_variables s
  end.
Proof.
  unfold insertTemplate, nested. lazymatch goal with |- match ?run with _ => _ end = _ -> _ => destruct run as [x s1] eqn:E end.
  assert (q_groups s1 = q_groups s /\ q_cache s1 = q_cache s /\ q_now s1 = q_now s /\
    (forall t, x = Ok t -> t = newTemplate (uuidv7 (q_next s)) dto /\ ~ cg_id t ∈ map rid (q_templates s) /\ q_templates s1 = q_templates s ++ [t] /\
      q_variables s1 = q_variables s ++ variableRows (cg_id t) (q_nextVariable s) (default [] (given (ct_variables dto))) 0)) as (G1 & G2 & G3 & G4).
  { apply bind_paths in E as (y & s2 & E1 & E2). injection E1 as <- <-. mrun; simplify_eq; try (by split_and!; try done; intros ? [=]).
    all: match goal with Hi : insertVariables _ _ _ _ = _ |- _ => apply insertVariables_run in Hi as (-> & -> & -> & -> & Hv) end.
    all: split_and!; try done; intros t [= <-]. split_and!; try done; [|by rewrite Hv].
    by eapply absent_id. }
  destruct x as [t|e]; intros [= <- <-]; split_and!; try done; by apply G4.
Qed.

(** ** Every request keeps the keys and the cached copy *)

(** What a request may not break, at one instant. *)
Definition sound (s s' : Catalog) : Prop :=
  q_now s' = q_now s /\ (catalogKeys s -> catalogKeys s') /\ (redisUp (q_now s) = true -> catalogKeys s -> cacheCurrent s -> cacheCurrent s').

#[local] Instance sound_preorder : PreOrder sound.
Proof.
  split; [by intros s; split_and!|]. intros s1 s2 s3 (N1 & K1 & C1) (N2 & K2 & C2). split_and!; [congruence|auto|].
  intros Hr Hk Hc. apply C2; [congruence|auto|auto].
Qed.

Lemma effect_sound s s' : q_now s' = q_now s -> catalogEffect s s' -> sound s s'.
Proof. intros Hn He. split_and!; [done|by apply effect_keys|]. intros Hr Hk. by apply effect_cache. Qed.

Lemma invalidateCache_run s r s' : invalidateCache s = (r, s') ->
  r = Ok tt /\ s' = s <| q_cache := if redisUp (q_now s) then None else q_cache s |>.
Proof. unfold invalidateCache. intros E. mrun. split; [done|]. destruct (redisUp (q_now s)); [done|by destruct s]. Qed.

Lemma rid_updId id f (l : list CatalogTemplate) : (forall t, findFirst (fun r => rid r =s id) l = Some t -> rid (f t) = rid t) -> map rid (updId id f l) = map rid l.
Proof.
  unfold updId, findFirst. induction l as [|x l IH]; simpl; [done|]. destruct (bool_decide (rid x = id)); intros Hf; simpl; [by rewrite Hf|]. by rewrite IH.
Qed.

Lemma createTemplate_run dto s r s' : createTemplate dto s = (r, s') ->
  sound s s' /\ forall t, r = Ok t -> t = newTemplate (uuidv7 (q_next s)) dto /\ ~ cg_id t ∈ map rid (q_templates s) /\
    q_groups s' = q_groups s /\ q_templates s' = q_templates s ++ [t] /\
    q_variables s' = q_variables s ++ variableRows (cg_id t) (q_nextVariable s) (default [] (given (ct_variables dto))) 0.
Proof.
  unfold createTemplate. intros E. mrun; simplify_eq; try (by split; [apply effect_sound; [done|by apply effect_refl]|by intros ? [=]]).
  all: repeat match goal with Hc : invalidateCache _ = _ |- _ => apply invalidateCache_run in Hc as [? ->]; simplify_eq end.
  all: match goal with Hi : insertTemplate _ _ = _ |- _ => apply insertTemplate_run in Hi as (F1 & F2 & F3 & F4) end.
  - destruct F4 as (Ht & F4 & F5 & F6). split; [|by intros ? [= <-]]. apply effect_sound; [done|]. apply effect_write; [done| |by rewrite <- F2, <- F3].
    intros [K1 K2 K3]. split; simpl; rewrite ?F1, ?F5, ?F6, ?map_app.
    + apply NoDup_app. split_and!; [done| |apply NoDup_singleton]. intros x Hx ->%list_elem_of_singleton. by apply F4.
    + apply Forall_app. split.
      * eapply Forall_impl; [exact K2|]. intros v Hv. apply elem_of_app. by left.
      * apply Forall_forall. intros v Hv. rewrite (variableRows_template _ _ _ _ _ Hv). apply elem_of_app. right. by apply list_elem_of_singleton.
    + apply Forall_app. split; [done|]. apply Forall_singleton. match goal with Hg : findFirst _ (q_groups s) = Some _ |- _ =>
        apply findFirst_some in Hg as [Hgi [Hgid%bool_decide_eq_true _]%andb_true_iff] end. apply findId_elem in Hgi. rewrite Ht. simpl. by rewrite <- Hgid.
  - split; [|by intros ? [=]]. apply effect_sound; [done|]. apply effect_none. destruct F4 as [F4 F5]. unfold catalogCore. by rewrite F1, F2, F4, F5.
Qed.

Lemma patchTemplate_id dto t u : patchTemplate dto t = Ok u -> cg_id u = cg_id t.
Proof. unfold patchTemplate. intros E. patches E. done. Qed.

Lemma updateTemplate_run id dto s r s' : updateTemplate id dto s = (r, s') ->
  sound s s' /\ q_variables s' = q_variables s /\ q_groups s' = q_groups s /\ map rid (q_templates s') = map rid (q_templates s) /\
  forall u, r = Ok u -> cg_id u = id.
Proof.
  unfold updateTemplate. intros E. mrun; simplify_eq; repeat match goal with Hg : getTemplate _ _ = (Throw _, _) |- _ => apply getTemplate_same in Hg as -> end;
    try (split_and!; [reflexivity|done|done|done|by intros ? [=]]).
  all: repeat match goal with Hg : getTemplate _ _ = (Ok ?p, _) |- _ => destruct p as [old vs]; apply getTemplate_ok in Hg as (-> & Hold & <- & _ & ->) end.
  all: try (split_and!; [reflexivity|done|done|done|by intros ? [=]]).
  all: match goal with Hc : invalidateCache _ = _ |- _ => apply invalidateCache_run in Hc as [? ->]; simplify_eq end.
  match goal with Hp : patchTemplate _ _ = Ok _ |- _ => apply patchTemplate_id in Hp; simpl in Hp end.
  assert (map rid (updId (cg_id old) (fun _ => a0) (q_templates s)) = map rid (q_templates s)) as Hm.
  { apply rid_updId. intros x Hx. apply findFirst_some in Hx as [_ Hx%bool_decide_eq_true]. unfold rid, CatalogTemplate_row in *. congruence. }
  split_and!; try done; [|by intros ? [= <-]].
  apply effect_sound; [done|]. apply effect_write; [done| |done]. intros [K1 K2 K3]. split; simpl; rewrite ?Hm; try done.
  apply Forall_forall. intros x Hx. apply updFirst_elem in Hx as [Hx|(y & _ & ->)]; [|by eexists]. by apply (proj1 (Forall_forall _ _) K3).
Qed.

Ltac same_catalog := try (by apply effect_sound; [done|apply effect_none]).
Ltac loaded :=
  repeat match goal with
  | Hg : getTemplate _ _ = (Throw _, _) |- _ => apply getTemplate_same in Hg as ->
  | Hg : getTemplate _ _ = (Ok ?p, _) |- _ => destruct p as [old vs]; apply getTemplate_ok in Hg as (-> & Hold & <- & _ & ->)
  | Hc : invalidateCache _ = _ |- _ => apply invalidateCache_run in Hc as [? ->]; simplify_eq
  end.

Lemma removeTemplate_sound id s r s' : removeTemplate id s = (r, s') -> sound s s'.
Proof.
  unfold removeTemplate. intros E. mrun; simplify_eq; loaded; same_catalog. apply effect_sound; [done|]. apply effect_write; [done| |done].
  assert (map rid (updId (cg_id old) (markDeleted (q_now s)) (q_templates s)) = map rid (q_templates s)) as Hm by (by apply rid_updId).
  intros [K1 K2 K3]. split; simpl; rewrite ?Hm; try done. apply Forall_forall. intros x Hx. rewrite Forall_forall in K3.
  apply updFirst_elem in Hx as [Hx|(y & Hy & ->)]; [by apply K3|]. apply findFirst_some in Hy as [Hy _]. exact (K3 y Hy).
Qed.

(** A write to the variables that keeps their templates. *)
Lemma variables_sound s s' : q_now s' = q_now s -> q_groups s' = q_groups s -> q_templates s' = q_templates s ->
  (forall v, v ∈ q_variables s' -> tv_templateId v ∈ map rid (q_templates s) \/ exists w, w ∈ q_variables s /\ tv_templateId v = tv_templateId w) ->
  q_cache s' = (if redisUp (q_now s) then None else q_cache s) -> sound s s'.
Proof.
  intros E1 E2 E3 Hv E4. apply effect_sound; [done|]. apply effect_write; [done| |done]. intros [K1 K2 K3].
  split; rewrite ?E2, ?E3; try done. apply Forall_forall. intros v [Hin|(w & Hw & ->)]%Hv; [done|]. by apply (proj1 (Forall_forall _ _) K2).
Qed.

Lemma addVariable_sound templateId dto s r s' : addVariable templateId dto s = (r, s') -> sound s s'.
Proof.
  unfold addVariable. intros E. mrun; simplify_eq; loaded; same_catalog.
  all: match goal with Hi : insertVariable _ _ _ _ = _ |- _ => apply insertVariable_run in Hi as (F1 & F2 & F3 & F4 & _ & F5) end.
  - destruct F5 as [-> F5]. apply variables_sound; simpl; rewrite ?F4, ?F3; try done. intros v. rewrite F5, elem_of_app, list_elem_of_singleton.
    intros [Hv| ->]; [right; by exists v|left]. apply list_elem_of_In, in_map_iff. exists old. by rewrite <- list_elem_of_In.
  - apply effect_sound; [done|]. apply effect_none. unfold catalogCore. by rewrite F1, F2, F3, F5.
Qed.

Lemma findVariable_run templateId variableId s r s' : findVariable templateId variableId s = (r, s') ->
  s' = s /\ forall v, r = Ok v -> v ∈ q_variables s /\ tv_id v = variableId /\ tv_templateId v = templateId.
Proof.
  unfold findVariable. intros E. mrun. split; [done|]. intros v ->. destruct (findFirst _ _) as [w|] eqn:Ef; [|done]. simplify_eq.
  apply findFirst_some in Ef as [Hin [Hi Ht%bool_decide_eq_true]%andb_true_iff]. split_and!; [done|lia|done].
Qed.

Lemma removeVariable_sound templateId variableId s r s' : removeVariable templateId variableId s = (r, s') -> sound s s'.
Proof.
  unfold removeVariable. intros E. mrun; simplify_eq; loaded;
    match goal with Hf : findVariable _ _ _ = _ |- _ => apply findVariable_run in Hf as [-> Hw] end; same_catalog.
  apply variables_sound; try done. simpl. intros v [Hv _]%list_elem_of_In%filter_In. right. exists v. by rewrite list_elem_of_In.
Qed.

(** Overwriting a variable found in the table. *)
Lemma writeVariable_sound s row w : w ∈ q_variables s -> tv_templateId row = tv_templateId w ->
  sound s (s <| q_variables := updWhere (fun v => tv_id v =? tv_id row) (fun _ => row) (q_variables s) |>
             <| q_cache := if redisUp (q_now s) then None else q_cache s |>).
Proof.
  intros Hw Hr. apply variables_sound; try done. simpl. intros v (u & Hu & ->)%updWhere_elem. right.
  destruct (tv_id u =? tv_id row); [by exists w|by exists u].
Qed.

Lemma updateVariable_sound templateId variableId dto s r s' : updateVariable templateId variableId dto s = (r, s') -> sound s s'.
Proof.
  unfold updateVariable, writeVariable. intros E. mrun; simplify_eq; loaded;
    match goal with Hf : findVariable _ _ _ = _ |- _ => apply findVariable_run in Hf as [-> Hw] end; same_catalog.
  destruct (Hw _ eq_refl) as (Hin & _ & Ht). apply (writeVariable_sound s a0 a); [done|].
  match goal with Hp : patchVariable _ _ = Ok _ |- _ => unfold patchVariable in Hp; patches Hp; done end.
Qed.

Lemma discoverVersions_run kind s r s' : discoverVersions kind s = (r, s') ->
  r = Ok (fst (getVersions (q_now s) kind (q_discovery s))) /\ s' = s <| q_discovery := snd (getVersions (q_now s) kind (q_discovery s)) |>.
Proof. unfold discoverVersions. destruct (getVersions _ _ _). by intros [= <- <-]. Qed.

Ltac discovered := repeat match goal with Hd : discoverVersions _ _ = _ |- _ => apply discoverVersions_run in Hd as [? ->] end; simplify_eq.

Lemma refreshMinecraftVersions_sound templateId s r s' : refreshMinecraftVersions templateId s = (r, s') -> sound s s'.
Proof.
  unfold refreshMinecraftVersions, writeVariable. intros E. mrun; simplify_eq; discovered; loaded; same_catalog.
  match goal with Hf : findFirst _ _ = Some ?v |- _ => apply findFirst_some in Hf as [[Hin _]%variablesOf_elem _] end.
  etransitivity; [|by eapply (writeVariable_sound (s <| q_discovery := _ |>) (mkTemplateVariable _ _ _ _ _ _ _ _ _ _))]. by apply effect_sound; [|apply effect_none].
Qed.

Lemma createGroup_sound name description s r s' : createGroup name description s = (r, s') -> sound s s'.
Proof.
  unfold createGroup. intros E. apply bind_paths in E as (x & s1 & E1 & E). apply gets_ok in E1 as [-> ->].
  apply bind_paths in E as (x & s1 & E1 & E). apply throwIf_run in E1 as [-> ->]. destruct (existsb _ _); [by destruct E as [_ ->]|].
  injection E as <- <-. apply effect_sound; [done|]. by eapply effect_group.
Qed.

Lemma listCatalog_run s r s' : listCatalog s = (r, s') ->
  sound s s' /\ exists l, r = Ok l /\ (redisUp (q_now s) = true -> cacheCurrent s -> l = queryCatalog s).
Proof.
  unfold listCatalog. rewrite bind_gets. destruct (cachedCatalog s) as [l|] eqn:Ec.
  - intros E. mrun. split; [reflexivity|]. exists l. split; [done|]. intros Hr Hc. unfold cachedCatalog in Ec. rewrite Hr in Ec.
    destruct (q_cache s) as [[l0 e]|] eqn:Eq; [|done]. destruct (q_now s <? e); simplify_eq. by eapply Hc.
  - rewrite bind_gets. intros E. mrun. split; [|by eexists]. destruct (redisUp (q_now s)); [|reflexivity]. split_and!; [done|by apply catalogKeys_core|].
    intros _ _ _ l e [= <- _]. symmetry. by apply queryCatalog_core.
Qed.

Lemma createFromPreset_sound dto s r s' : createFromPreset dto s = (r, s') -> sound s s'.
Proof.
  unfold createFromPreset. intros E. mrun; simplify_eq; same_catalog;
    match goal with Hc : createTemplate _ _ = _ |- _ => apply createTemplate_run in Hc as [Hs _] end; [|done].
  etransitivity; [exact Hs|]. destruct (match pd_isActive dto with Val false => true | _ => false end); [by eapply updateTemplate_run|by mrun].
Qed.

Lemma duplicateTemplate_sound id newName s r s' : duplicateTemplate id newName s = (r, s') -> sound s s'.
Proof. unfold duplicateTemplate. intros E. mrun; simplify_eq; loaded; same_catalog. by eapply createTemplate_run. Qed.

(** ** The served catalogue *)

Inductive CatalogRequest :=
  | ReqGroup (name : string) (description : Field string) | ReqCreate (dto : CreateTemplateDto) | ReqPreset (dto : PresetDto)
  | ReqDuplicate (id newName : string) | ReqUpdate (id : string) (dto : UpdateTemplateDto) | ReqRemove (id : string)
  | ReqAddVariable (templateId : string) (dto : VariableDto) | ReqUpdateVariable (templateId : string) (variableId : Z) (dto : UpdateVariableDto)
  | ReqRemoveVariable (templateId : string) (variableId : Z) | ReqRefresh (templateId : string) | ReqList.

Definition serveCatalog (q : CatalogRequest) (s : Catalog) : Catalog :=
  match q with
  | ReqGroup name description => snd (createGroup name description s)
  | ReqCreate dto => snd (createTemplate dto s)
  | ReqPreset dto => snd (createFromPreset dto s)
  | ReqDuplicate id newName => snd (duplicateTemplate id newName s)
  | ReqUpdate id dto => snd (updateTemplate id dto s)
  | ReqRemove id => snd (removeTemplate id s)
  | ReqAddVariable templateId dto => snd (addVariable templateId dto s)
  | ReqUpdateVariable templateId variableId dto => snd (updateVariable templateId variableId dto s)
  | ReqRemoveVariable templateId variableId => snd (removeVariable templateId variableId s)
  | ReqRefresh templateId => snd (refreshMinecraftVersions templateId s)
  | ReqList => snd (listCatalog s)
  end.

Definition emptyCatalog : Catalog := mkCatalog [] [] [] [] None ∅ 0 1 0.

(** Requests one after another; in between time passes and servers come and go. *)
Inductive servedCatalog : Catalog -> Prop :=
  | catalog_initial : servedCatalog emptyCatalog
  | catalog_request q s : servedCatalog s -> servedCatalog (serveCatalog q s)
  | catalog_time s dt servers : servedCatalog s -> 0 <= dt -> servedCatalog (s <| q_now := q_now s + dt |> <| q_servers := servers |>).

Lemma serveCatalog_sound q s : sound s (serveCatalog q s).
Proof.
  destruct q; simpl; match goal with |- sound s (snd ?run) => destruct run as [x s1] eqn:E end; simpl.
  - by eapply createGroup_sound.
  - by eapply createTemplate_run.
  - by eapply createFromPreset_sound.
  - by eapply duplicateTemplate_sound.
  - by eapply updateTemplate_run.
  - by eapply removeTemplate_sound.
  - by eapply addVariable_sound.
  - by eapply updateVariable_sound.
  - by eapply removeVariable_sound.
  - by eapply refreshMinecraftVersions_sound.
  - by eapply listCatalog_run.
Qed.

Lemma served_keys s : servedCatalog s -> catalogKeys s.
Proof.
  induction 1 as [|q s _ IH|s dt servers _ IH]; [|by apply (serveCatalog_sound q s)|by apply (catalogKeys_core s)].
  split; [apply NoDup_nil_2|done|done].
Qed.

(** While Redis answers, the catalogue shown at checkout is the current one: whatever groups, templates and
    variables were created, changed, curated, duplicated or removed before, the cached answer equals the query. *)
Theorem catalogue_current s : (forall t, redisUp t = true) -> servedCatalog s ->
  exists s', listCatalog s = (Ok (queryCatalog s), s').
Proof.
  intros Hr Hs. assert (cacheCurrent s) as Hc.
  { induction Hs as [|q s Hs IH|s dt servers Hs IH]; [done| |].
    - apply (serveCatalog_sound q s); [done|by apply served_keys|done].
    - intros l e El. rewrite (queryCatalog_core s) by done. by eapply IH. }
  destruct (listCatalog s) as [r s'] eqn:E. exists s'. apply listCatalog_run in E as (_ & l & -> & Hl). by rewrite Hl.
Qed.

(** ** The quick creation *)

(** The rules of a version or build variable of a preset. *)
Definition limitRules (lim : string) : string := "required|string|max:" +:+ lim.

Lemma limit_exact lim x : lim ∈ [16; 32] -> x <> "" -> validateVariableValue x (limitRules (zstr lim)) = None <-> jsLength x <= lim.
Proof.
  intros Hl Hx. unfold validateVariableValue. rewrite (bool_decide_false (x = "")) by done.
  assert (ruleTokens (limitRules (zstr lim)) = ["required"; "string"; "max:" +:+ zstr lim] /\ jsNumber (zstr lim) = Fin (inject_Z lim) /\
    tokenName ("max:" +:+ zstr lim) = "max" /\ tokenArg ("max:" +:+ zstr lim) = Some (zstr lim)) as (E1 & E2 & E3 & E4).
  { rewrite !elem_of_cons, elem_of_nil in Hl. destruct Hl as [->|[->|[]]]; vm_compute; done. }
  rewrite E1. unfold firstError, checkToken. rewrite E3, E4. simpl. rewrite E2.
  assert (jsGt (Fin (inject_Z (jsLength x))) (Fin (inject_Z lim)) = negb (jsLength x <=? lim)) as ->.
  { unfold jsGt, jsLt, Qle_bool. simpl. by rewrite !Z.mul_1_r. }
  destruct (reDecimal x), (Z.leb_spec (jsLength x) lim) as [Hle|Hgt]; cbn [negb]; split; intros Hc; first [reflexivity|assumption|discriminate Hc|exfalso; lia].
Qed.

(** A variable whose choices are shown, defaulted and accepted as one list, up to a length. *)
Definition offersExactly (vs : list TemplateVariable) (env : string) (values : list string) (lim : Z) : Prop :=
  (exists v, byEnvVar vs env = Some v /\ sh_choices (deriveVariableOptionShape (tv_rules v)) = Some values /\ head values = Some (tv_defaultValue v)) /\
  forall x, checkDeclared vs (env, x) = Ok tt <-> x ∈ values /\ jsLength x <= lim.

(** An empty value is refused: the variable stays required. *)
Lemma empty_refused lim values : lim ∈ [16; 32] -> noInList (limitRules (zstr lim)) = true -> forallb plainValue values = true ->
  validateVariableValue "" (withInList (Some (limitRules (zstr lim))) values) = Some "é obrigatório.".
Proof.
  intros Hl Hno Hv. unfold validateVariableValue. rewrite (withInList_tokens _ _ Hno Hv).
  unfold includes. rewrite !existsb_app. cbn [existsb]. rewrite (bool_decide_false (listToken values = "nullable")), (bool_decide_false (listToken values = "required")) by (by destruct values as [|? []]).
  rewrite !elem_of_cons, elem_of_nil in Hl. destruct Hl as [->|[->|[]]]; vm_compute; done.
Qed.

Lemma limit_noInList lim : lim ∈ [16; 32] -> noInList (limitRules (zstr lim)) = true.
Proof. rewrite !elem_of_cons, elem_of_nil. intros [->|[->|[]]]; vm_compute; done. Qed.

Lemma offers_curated vs env v values lim : lim ∈ [16; 32] -> values <> [] -> forallb plainValue values = true ->
  byEnvVar vs env = Some v -> tv_rules v = withInList (Some (limitRules (zstr lim))) values -> head values = Some (tv_defaultValue v) ->
  tv_isUserViewable v = true -> tv_isUserEditable v = true -> offersExactly vs env values lim.
Proof.
  intros Hl Hne Hv Hb Hr Hd H1' H2'. pose proof (limit_noInList lim Hl) as Hno.
  destruct (curated_versions_exact _ values Hno Hne Hv) as [C1 C2]. split; [exists v; rewrite Hr; exact (conj Hb (conj C1 Hd))|].
  intros x. unfold checkDeclared. rewrite Hb, H1', H2', Hr. cbn [negb orb]. destruct (decide (x = "")) as [->|Hx].
  - rewrite (empty_refused lim values Hl Hno Hv). split; [done|]. intros [Hin _]. rewrite forallb_forall in Hv. by apply list_elem_of_In, Hv in Hin.
  - rewrite <- (limit_exact lim x Hl Hx), <- (C2 x Hx). destruct (validateVariableValue x _); split; congruence.
Qed.
Definition buildLimit (k : PresetKind) : Z := match k with preset_quilt | preset_forge | preset_neoforge => 32 | _ => 16 end.

(** The rows a quick creation writes. *)
Definition presetRows (dto : PresetDto) (templateId : string) (id : Z) : list TemplateVariable :=
  let preset := SOFTWARE_PRESETS (pd_softwareKind dto) in
  variableRows templateId id (map (presetVariable preset dto) (ps_variables preset)) 0.

(** A row curated from a preset's variable. *)
Definition curatedRow (lim : Z) (values : list string) (v : TemplateVariable) : Prop :=
  tv_rules v = withInList (Some (limitRules (zstr lim))) values /\ tv_defaultValue v = default "" (head values) /\
  tv_isUserViewable v = true /\ tv_isUserEditable v = true.

Lemma presetRows_version dto templateId id :
  exists v, byEnvVar (sortBy bySortOrder (presetRows dto templateId id)) "MINECRAFT_VERSION" = Some v /\ curatedRow 16 (pd_minecraftVersions dto) v.
Proof.
  destruct dto as [g name k d versions builds p a]. destruct versions as [|x versions]; destruct k; eexists; (split; [reflexivity|]); by split_and!.
Qed.

Lemma presetRows_build dto templateId id b : ps_buildVariable (SOFTWARE_PRESETS (pd_softwareKind dto)) = Some b ->
  exists v, byEnvVar (sortBy bySortOrder (presetRows dto templateId id)) b = Some v /\
    curatedRow (buildLimit (pd_softwareKind dto)) (default [] (given (pd_builds dto))) v.
Proof.
  destruct dto as [g name k d versions builds p a]. cbn [pd_softwareKind].
  destruct k; intros [= <-]; destruct builds as [| |[|x values]]; eexists; (split; [reflexivity|]); by split_and!.
Qed.
Lemma filter_every {A} (p : A -> bool) l : (forall x, x ∈ l -> p x = true) -> List.filter p l = l.
Proof. induction l as [|x l IH]; intros Hp; simpl; [done|]. rewrite (Hp x) by apply list_elem_of_here. f_equal. apply IH. intros y Hy. apply Hp. by right. Qed.

(** The variables of a created template are the rows its creation wrote. *)
Lemma created_variables dto s t s' : catalogKeys s -> createFromPreset dto s = (Ok t, s') ->
  (forall b, ps_buildVariable (SOFTWARE_PRESETS (pd_softwareKind dto)) = Some b -> default [] (given (pd_builds dto)) <> []) /\
  variablesOf s' (cg_id t) = sortBy bySortOrder (presetRows dto (cg_id t) (q_nextVariable s)).
Proof.
  intros [_ Hk _]. unfold createFromPreset. intros E. mrun; simplify_eq.
  match goal with Hc : createTemplate _ _ = (Ok ?c, ?s1) |- _ => apply createTemplate_run in Hc as [_ Hc];
    destruct (Hc c eq_refl) as (_ & Hnew & _ & _ & Hv); clear Hc; assert (cg_id t = cg_id c /\ q_variables s' = q_variables s1) as [Ht Hs'] end.
  { destruct (match pd_isActive dto with Val false => true | _ => false end).
    - apply updateTemplate_run in E as (_ & Hq & _ & _ & Hu). split; [by apply Hu|done].
    - mrun. by simplify_eq. }
  split.
  - intros b Hb Hn. match goal with Hg : _ && _ = false |- _ => rewrite Hb, Hn in Hg; vm_compute in Hg; done end.
  - unfold variablesOf. rewrite Hs', Ht, Hv, List.filter_app. rewrite (filter_none _ (q_variables s)), filter_every; [done| |].
    + intros v Hin. apply bool_decide_eq_true. by eapply variableRows_template.
    + intros v Hin. apply bool_decide_eq_false. intros He. apply Hnew. rewrite <- He. by apply (proj1 (Forall_forall _ _) Hk).
Qed.
(** C11: given versions and builds that are plain values (not empty, of visible characters, without comma, colon
    and pipe, which separate rules and choices), a template created from a preset offers exactly these: they are
    the choices the panel shows, the first of each is the default, and the setup of a server accepts a value
    exactly when it is one of them and fits the length the preset allows. *)
Theorem quick_created_versions_exact dto s t s' : servedCatalog s -> validPresetDto dto = true ->
  forallb plainValue (pd_minecraftVersions dto) = true -> forallb plainValue (default [] (given (pd_builds dto))) = true ->
  createFromPreset dto s = (Ok t, s') ->
  offersExactly (variablesOf s' (cg_id t)) "MINECRAFT_VERSION" (pd_minecraftVersions dto) 16 /\
  forall b, ps_buildVariable (SOFTWARE_PRESETS (pd_softwareKind dto)) = Some b ->
    offersExactly (variablesOf s' (cg_id t)) b (default [] (given (pd_builds dto))) (buildLimit (pd_softwareKind dto)).
Proof.
  intros Hs Hd Hv Hb E. apply andb_true_iff in Hd as [_ Hne%negb_true_iff%bool_decide_eq_false].
  destruct (created_variables dto s t s' (served_keys s Hs) E) as [Hbn ->].
  assert (forall vs env v values lim, lim ∈ [16; 32] -> values <> [] -> forallb plainValue values = true -> byEnvVar vs env = Some v ->
    curatedRow lim values v -> offersExactly vs env values lim) as Hcur.
  { intros vs env v values lim Hl Hn Hp Hf (R1 & R2 & R3 & R4). eapply offers_curated; try done. rewrite R2. by destruct values. }
  split.
  - destruct (presetRows_version dto (cg_id t) (q_nextVariable s)) as (v & Hf & Hc). eapply Hcur; try done. by left.
  - intros b Hbv. destruct (presetRows_build dto (cg_id t) (q_nextVariable s) b Hbv) as (v & Hf & Hc). eapply Hcur; try done; [|by eapply Hbn].
    destruct (pd_softwareKind dto); simpl; set_solver.
Qed.

Lemma known_plain k : KNOWN_MINECRAFT_VERSIONS k <> [] /\ forallb plainValue (KNOWN_MINECRAFT_VERSIONS k) = true.
Proof. destruct k; split; [done|vm_compute; reflexivity|done|vm_compute; reflexivity|done|vm_compute; reflexivity|done|vm_compute; reflexivity|done|vm_compute; reflexivity|done|vm_compute; reflexivity|done|vm_compute; reflexivity]. Qed.

(** Refreshing a template replaces the version list: the written row offers and accepts the
    versions the discovery found, or the built-in ones when it found none, and its default is
    one of them. *)
Theorem refreshed_versions_exact base listed templateId s v s' : noInList base = true -> forallb plainValue listed = true ->
  (forall w, w ∈ q_variables s -> tv_templateId w = templateId -> tv_envVariable w = "MINECRAFT_VERSION" ->
     tv_rules w = base \/ tv_rules w = withInList (Some base) listed) ->
  (forall k, forallb plainValue (fst (getVersions (q_now s) k (q_discovery s))) = true) ->
  refreshMinecraftVersions templateId s = (Ok v, s') ->
  exists k, let live := fst (getVersions (q_now s) k (q_discovery s)) in
    let versions := if bool_decide (live = []) then KNOWN_MINECRAFT_VERSIONS k else live in
    v ∈ q_variables s' /\ sh_choices (deriveVariableOptionShape (tv_rules v)) = Some versions /\ tv_defaultValue v ∈ versions /\
    forall x, x <> "" -> (validateVariableValue x (tv_rules v) = None <-> x ∈ versions /\ validateVariableValue x base = None).
Proof.
  intros Hb Ho Hw Hdis. unfold refreshMinecraftVersions, writeVariable. intros E. mrun; simplify_eq; discovered; loaded.
  apply findFirst_some in Heqo as [[Hin Ht]%variablesOf_elem He%bool_decide_eq_true].
  exists p. cbv zeta. set (live := fst (getVersions _ _ _)). set (versions := if bool_decide (live = []) then _ else _).
  pose proof (known_plain p) as [Hkn Hkp]. specialize (Hdis p). fold live in Hdis.
  assert (versions <> [] /\ forallb plainValue versions = true) as [Vn Vp] by (unfold versions; by case_bool_decide).
  assert (withInList (Some (tv_rules t)) versions = withInList (Some base) versions) as ->.
  { destruct (Hw _ Hin Ht) as [->| ->]; [|done|by apply recurated]. rewrite He. by destruct p. }
  destruct (curated_versions_exact base versions Hb Vn Vp) as [C1 C2]. cbn [tv_rules tv_defaultValue]. split_and!; [|done| |done].
  - simpl. apply updWhere_elem. eexists. split; [exact Hin|]. simpl. by rewrite Z.eqb_refl.
  - destruct (includes _ versions) eqn:Hi; [by apply includes_elem|]. destruct versions as [|x l]; [done|]. by left.
Qed.
(** A variable without its keys. *)
Definition variableContent (v : TemplateVariable) :=
  (tv_envVariable v, tv_name v, tv_defaultValue v, tv_rules v, tv_isUserViewable v, tv_isUserEditable v, tv_description v, tv_sortOrder v).

Lemma copied_rows templateId id vs i : map variableContent (variableRows templateId id (map copiedVariable vs) i) = map variableContent vs.
Proof.
  revert id i. induction vs as [|v vs IH]; intros id i; simpl; [done|]. rewrite IH. f_equal. unfold variableContent. simpl. by destruct (tv_description v).
Qed.

(** A duplicate has the variables of its source and is not on sale. *)
Theorem duplicate_faithful id newName s t s' : catalogKeys s -> duplicateTemplate id newName s = (Ok t, s') ->
  map variableContent (variablesOf s' (cg_id t)) ≡ₚ map variableContent (variablesOf s id) /\ onSale t = false /\ tp_name (cg_template t) = newName.
Proof.
  intros [_ Hk _]. unfold duplicateTemplate. intros E. mrun; simplify_eq; loaded. apply createTemplate_run in E as [_ E].
  destruct (E t eq_refl) as (Ht & Hnew & _ & _ & Hv). split_and!; [|by subst t|by subst t].
  unfold variablesOf at 1. rewrite (Permutation_map variableContent (sortBy_perm bySortOrder _)), Hv, List.filter_app.
  rewrite (filter_none _ (q_variables s)), filter_every.
  - rewrite app_nil_l. apply reflexive_eq, copied_rows.
  - intros v Hin. apply bool_decide_eq_true. by eapply variableRows_template.
  - intros v Hin. apply bool_decide_eq_false. intros He. apply Hnew. rewrite <- He. by apply (proj1 (Forall_forall _ _) Hk).
Qed.

End Catalogue.

(** Every version of the built-in lists has an image for its Java, and fits its variable. *)
Theorem known_versions_runnable k v : v ∈ KNOWN_MINECRAFT_VERSIONS k ->
  exists major, requiredJavaMajor v = Some major /\
    pickDockerImage JAVA_IMAGES (Some v) = Some ("ghcr.io/pterodactyl/yolks:java_" +:+ zstr major) /\ jsLength v <= 16.
Proof.
  assert (forallb (fun k => forallb (fun v => match requiredJavaMajor v with
    | Some major => (pickDockerImage JAVA_IMAGES (Some v) =s Some ("ghcr.io/pterodactyl/yolks:java_" +:+ zstr major)) && (jsLength v <=? 16)
    | None => false end) (KNOWN_MINECRAFT_VERSIONS k)) PRESET_KINDS = true) as Hall by (vm_compute; reflexivity).
  intros Hv%list_elem_of_In. rewrite forallb_forall in Hall. specialize (Hall k). rewrite forallb_forall in Hall.
  specialize (Hall ltac:(destruct k; simpl; tauto) v Hv). destruct (requiredJavaMajor v) as [major|]; [|done].
  apply andb_true_iff in Hall as [Hi%bool_decide_eq_true Hl]. exists major. split_and!; [done|done|lia].
Qed.

(** The replacement matches inside another rule: curating rules that have a minimum cuts the
    minimum, keeps the old list in front of the new one, and the new version is refused. *)
Theorem curation_cuts_minimum :
  withInList (Some "required|string|min:2|in:a") ["b"] = "required|string|m|in:a|in:b" /\
  sh_choices (deriveVariableOptionShape (withInList (Some "required|string|min:2|in:a") ["b"])) = Some ["a"] /\
  validateVariableValue "b" (withInList (Some "required|string|min:2|in:a") ["b"]) = Some "deve ser um dos seguintes valores: a.".
Proof. split_and!; vm_compute; reflexivity. Qed.

(** ** Witnesses *)

Module Demo.
Import Scheduler.Demo.

#[export] Instance world : DiscoveryWorld :=
  {| httpJson _ _ := None; encodeComponent s := s; localeOrder := String.compare; jsSort cmp l := sortBy (leOf cmp) l; redisUp _ := true |}.

Definition withGroup : Catalog := serveCatalog (ReqGroup "Minecraft" Unset) emptyCatalog.
Definition paper : PresetDto :=
  mkPresetDto "id-0" "Paper" preset_paper Unset ["1.21.4"; "1.20.1"] (Val ["latest"; "130"]) Unset Unset.

End Demo.

Section Witnesses.
Import Scheduler.Demo Demo.

Lemma quick_created_versions_exact_witness : exists t s',
  createFromPreset paper withGroup = (Ok t, s') /\ offersExactly (variablesOf s' (cg_id t)) "MINECRAFT_VERSION" ["1.21.4"; "1.20.1"] 16 /\
  checkDeclared (variablesOf s' (cg_id t)) ("MINECRAFT_VERSION", "1.20.1") = Ok tt.
Proof.
  eexists _, _. split; [vm_compute; reflexivity|]. split; [|vm_compute; reflexivity].
  apply (quick_created_versions_exact paper withGroup); [|vm_compute; reflexivity..]. apply catalog_request, catalog_initial.
Defined.

(** The body of the request does not exclude the separators: a version with a comma becomes two choices. *)
Theorem separator_splits_choice :
  let dto := mkPresetDto "id-0" "Paper" preset_paper Unset ["1.21,4"] (Val ["latest"]) Unset Unset in
  validPresetDto dto = true /\ exists t s', createFromPreset dto withGroup = (Ok t, s') /\
    (sh_choices ∘ deriveVariableOptionShape ∘ tv_rules) <$> byEnvVar (variablesOf s' (cg_id t)) "MINECRAFT_VERSION" = Some (Some ["1.21"; "4"]).
Proof. split; [vm_compute; reflexivity|]. eexists _, _. split; [vm_compute; reflexivity|]. vm_compute. reflexivity. Qed.

Lemma catalogue_current_witness : exists s',
  listCatalog (serveCatalog (ReqPreset paper) withGroup) = (Ok (queryCatalog (serveCatalog (ReqPreset paper) withGroup)), s') /\
  List.length (queryCatalog (serveCatalog (ReqPreset paper) withGroup)) = 1%nat.
Proof.
  destruct (catalogue_current (serveCatalog (ReqPreset paper) withGroup)) as [s' E].
  - reflexivity.
  - apply catalog_request, catalog_request, catalog_initial.
  - exists s'. split; [exact E|vm_compute; reflexivity].
Defined.

End Witnesses.
