(* ===== verification/Report.v ===== *)
(** Report: the capacity figures administrators see.

    [capacity/capacity-report.service.ts]: the dashboard, the detail of a node, the use of the plans,
    the plans of a node, and the simulation of a placement.  Every method only reads, in one
    transaction; the columns of a node beyond those of [Store.Node] are looked up in [details]. *)

From S2P Require Import Prelude JsNum Capacity Store Scheduler JsString Dto Fleet.
From Stdlib Require Import QArith Qround Lia.

Local Open Scope Z_scope.

Record DimensionUsage := mkDimensionUsage {
  du_totalPhysical : Z; du_reservedAmount : Z; du_overallocatePct : Z; du_ceiling : option Z; du_commercial : Z; du_isUnlimited : bool;
  du_allocated : Z; du_available : option Z; du_usedPct : Z; du_status : CapacityStatus }.

Definition snapshotDimension (total reserved overallocatePct allocated : Z) (thresholds : CapacityThresholds) : DimensionUsage :=
  let ceiling := ceilingFor total reserved overallocatePct in
  let commercial := default (Z.max (total - reserved) 0) ceiling in
  let available := (fun c => Z.max (c - allocated) 0) <$> ceiling in
  let usedPct := if 0 <? commercial then math_round (fmul (fdiv (inject_Z allocated) (inject_Z commercial)) 100) else 0 in
  mkDimensionUsage total reserved overallocatePct ceiling commercial (bool_decide (ceiling = None)) allocated available usedPct
    (capacityStatus (inject_Z usedPct) thresholds).

Record DimensionSnapshot := mkDimensionSnapshot {
  ds_usage : DimensionUsage; ds_provenance : CapacityProvenance; ds_detected : option Z; ds_safetyMarginPct : Z }.

Record NodeCapacitySnapshot := mkNodeSnapshot {
  ns_id : string; ns_name : string; ns_healthStatus : string; ns_maintenanceMode : bool; ns_isPublic : bool; ns_serverCount : Z;
  ns_capacityMode : string; ns_telemetryStale : bool; ns_acceptsNewServers : bool; ns_acceptsNewServersReason : option string;
  ns_memory : DimensionSnapshot; ns_disk : DimensionSnapshot; ns_cpu : DimensionSnapshot; ns_cpuAccountingEnabled : bool }.

Section Service.
Context `{Platform} (now : Z) (details : string -> NodeDetails) (d : Db).

Definition thresholdsOf (nodeId : string) : CapacityThresholds :=
  let dt := details nodeId in
  mkThresholds (inject_Z (dt_capacityWarnPct dt)) (inject_Z (dt_capacityHighPct dt)) (inject_Z (dt_capacityCriticalPct dt)).

Definition withProvenance (u : DimensionUsage) (r : ResolvedDimension) : DimensionSnapshot :=
  mkDimensionSnapshot u (provenance r) (detected r) (safetyMarginPct r).

Definition snapshotNode (node : Node) : NodeCapacitySnapshot :=
  let usage := usageForNode d (nd_id node) in
  let serverCount := countWhere (fun s => (sv_nodeId s =s nd_id node) && negb (sv_status s =s Srv_deleting)) (db_servers d) in
  let health := deriveHealthStatus now (nd_lastHeartbeatAt node) in
  let resolved := resolveNodeCapacity now (nd_config node) in
  let i := rc_inputs resolved in
  let thresholds := thresholdsOf (nd_id node) in
  let acceptance := acceptanceOf now node in
  mkNodeSnapshot (nd_id node) (nd_name node) health (nd_maintenanceMode node) (nd_isPublic node) serverCount
    (capacityMode (nd_config node)) (telemetryStale resolved) (bool_decide (acceptance = None)) acceptance
    (withProvenance (snapshotDimension (memoryTotalMb i) (memoryReservedMb i) (memoryOverallocatePct i) (u_memoryMb usage) thresholds) (rc_memory resolved))
    (withProvenance (snapshotDimension (diskTotalMb i) (diskReservedMb i) (diskOverallocatePct i) (u_diskMb usage) thresholds) (rc_disk resolved))
    (withProvenance (snapshotDimension (cpuTotalPercent i) (cpuReservedPercent i) (cpuOverallocatePct i) (u_cpuPercent usage) thresholds) (rc_cpu resolved))
    (0 <? cpuTotalPercent i).

Definition liveNodes : list Node := List.filter (fun n => nd_deletedAt n =s None) (db_nodes d).
Definition livePlans : list Plan :=
  sortBy (fun a b => pd_sortOrder (pl_details a) <=? pd_sortOrder (pl_details b)) (List.filter (fun p => pl_deletedAt p =s None) (db_plans d)).

(** ** dashboard *)

Record DimensionSum := mkSum {
  su_physical : Z; su_reserved : Z; su_commercial : Z; su_commercialIsFloor : bool; su_allocated : Z; su_available : Z }.

Record Dashboard := mkDashboard {
  da_nodesTotal : Z; da_nodesOnline : Z; da_nodesOffline : Z; da_nodesDisabled : Z; da_serversTotal : Z; da_serversActive : Z;
  da_serversSuspended : Z; da_serversOffline : Z; da_byStatus : gmap string Z; da_memory : DimensionSum; da_disk : DimensionSum;
  da_cpu : DimensionSum; da_perNode : list NodeCapacitySnapshot }.

(** [groupBy(['status'])] with the counts. *)
Definition groupByStatus (rows : list Server) : list (string * Z) :=
  map (fun status => (status, countWhere (fun s => serverStatusStr (sv_status s) =s status) rows))
    (remove_dups (map (fun s => serverStatusStr (sv_status s)) rows)).

Definition sumStep (acc : DimensionSum) (u : DimensionUsage) : DimensionSum :=
  mkSum (su_physical acc + du_totalPhysical u) (su_reserved acc + du_reservedAmount u) (su_commercial acc + du_commercial u)
    (du_isUnlimited u || su_commercialIsFloor acc) (su_allocated acc + du_allocated u) 0.

Definition sumDimension (pick : NodeCapacitySnapshot -> DimensionSnapshot) (perNode : list NodeCapacitySnapshot) : DimensionSum :=
  let t := fold_left (fun acc n => sumStep acc (ds_usage (pick n))) perNode (mkSum 0 0 0 false 0 0) in
  mkSum (su_physical t) (su_reserved t) (su_commercial t) (su_commercialIsFloor t) (su_allocated t)
    (Z.max (su_commercial t - su_allocated t) 0).

Definition dashboard : Dashboard :=
  let nodes := sortBy (fun a b => collate (nd_name a) (nd_name b)) liveNodes in
  let perNode := map snapshotNode nodes in
  let statusRows := groupByStatus (db_servers d) in
  let byStatus := fold_left (fun m row => <[fst row := snd row]> m) statusRows (∅ : gmap string Z) in
  let total := sumZ snd (List.filter (fun e => negb (fst e =s "deleting")) (map_to_list byStatus)) in
  let offline := countWhere (fun s => (sv_status s =s Srv_ready) && (sv_powerState s =s "offline")) (db_servers d) in
  mkDashboard (Z.of_nat (List.length perNode)) (countWhere (fun n => ns_healthStatus n =s "online") perNode)
    (countWhere (fun n => (ns_healthStatus n =s "offline") || (ns_healthStatus n =s "degraded")) perNode)
    (countWhere ns_maintenanceMode perNode) total (default 0 (byStatus !! "ready")) (default 0 (byStatus !! "suspended")) offline byStatus
    (sumDimension ns_memory perNode) (sumDimension ns_disk perNode) (sumDimension ns_cpu perNode) perNode.

Definition nodeDetail (id : string) : Res NodeCapacitySnapshot :=
  match findFirst (fun n => (nd_id n =s id) && (nd_deletedAt n =s None)) (db_nodes d) with
  | None => Throw (NotFound "Node not found")
  | Some node => Ok (snapshotNode node)
  end.

(** ** planUsage *)

Record NodeSlots := mkNodeSlots {
  nl_nodeId : string; nl_nodeName : string; nl_slots : option Z; nl_limiting : option Dim; nl_reason : option string }.

Record PlanUsageRow := mkPlanUsage {
  pu_id : string; pu_name : string; pu_slug : string; pu_isPublic : bool; pu_memoryMb : Z; pu_diskMb : Z; pu_cpuLimitPercent : Z;
  pu_occupied : Z; pu_maxSlots : option Z; pu_derivedSlots : option Z; pu_effectiveSlots : option Z; pu_remaining : option Z;
  pu_perNode : list NodeSlots }.

(** [groupBy(['planId'])] with the counts; a server without a plan is a group of its own. *)
Definition groupByPlan {R} (planIdOf : R -> option string) (rows : list R) : list (option string * Z) :=
  map (fun planId => (planId, countWhere (fun r => planIdOf r =s planId) rows)) (remove_dups (map planIdOf rows)).

Definition addCount (m : gmap (option string) Z) (row : option string * Z) : gmap (option string) Z :=
  <[fst row := default 0 (m !! fst row) + snd row]> m.

Definition occupiedByPlan : gmap (option string) Z :=
  let serverCounts := groupByPlan sv_planId (List.filter (fun s => negb (sv_status s =s Srv_deleting)) (db_servers d)) in
  let subscriptionCounts := groupByPlan (fun s => Some (sb_planId s))
    (List.filter (fun s => (sb_serverId s =s None) && bool_decide (sb_status s ∈ SLOT_HOLDING_SUBSCRIPTION_STATUSES)) (db_subscriptions d)) in
  fold_left addCount subscriptionCounts (fold_left (fun m row => <[fst row := snd row]> m) serverCounts ∅).

(** One turn of [eligibleNodes.map]: the entry of the node, and the running [derivedSlots]. *)
Definition nodeTurn (usageByNode : gmap string NodeUsage) (request : ResourceRequest) (acc : option Z * list NodeSlots) (node : Node)
    : option Z * list NodeSlots :=
  let '(derived, entries) := acc in
  match acceptanceOf now node with
  | Some reason => (derived, entries ++ [mkNodeSlots (nd_id node) (nd_name node) (Some 0) None (Some reason)])
  | None =>
    let usage := default (mkUsage 0 0 0) (usageByNode !! nd_id node) in
    let result := slotsForPlanOnNode (rc_inputs (resolveNodeCapacity now (nd_config node))) usage request in
    (match slots result with None => None | Some n => match derived with None => None | Some x => Some (x + n) end end,
     entries ++ [mkNodeSlots (nd_id node) (nd_name node) (slots result) (limiting result) None])
  end.

Definition effectiveSlotsOf (maxSlots derivedSlots : option Z) : option Z :=
  match maxSlots, derivedSlots with
  | None, _ => derivedSlots
  | Some m, None => Some m
  | Some m, Some s => Some (Z.min s m)
  end.

Definition planUsageRow (nodes : list Node) (usageByNode : gmap string NodeUsage) (restrictionsByPlan : gmap string (gset string))
    (occupied : gmap (option string) Z) (p : Plan) : PlanUsageRow :=
  let eligibleNodes := match restrictionsByPlan !! pl_id p with
                       | Some restricted => List.filter (fun n => bool_decide (nd_id n ∈ restricted)) nodes
                       | None => nodes end in
  let '(derivedSlots, perNode) := fold_left (nodeTurn usageByNode (planRequest p)) eligibleNodes (Some 0, []) in
  let taken := default 0 (occupied !! Some (pl_id p)) in
  let effectiveSlots := effectiveSlotsOf (pl_maxSlots p) derivedSlots in
  let remaining := (fun e => Z.max (e - taken) 0) <$> effectiveSlots in
  mkPlanUsage (pl_id p) (pl_name p) (pd_slug (pl_details p)) (pl_isPublic p) (pl_memoryMb p) (pl_diskMb p) (pl_cpuLimitPercent p)
    taken (pl_maxSlots p) derivedSlots effectiveSlots remaining perNode.

Definition planUsage : list PlanUsageRow :=
  let restrictionsByPlan := fold_left restrictionsStep (db_planNodes d) ∅ in
  let usageByNode := usageForNodes d (map nd_id liveNodes) in
  map (planUsageRow liveNodes usageByNode restrictionsByPlan occupiedByPlan) livePlans.

(** ** nodePlans *)

Record PlanSlots := mkPlanSlots {
  pk_planId : string; pk_planName : string; pk_slots : option Z; pk_limiting : option Dim; pk_reason : option string }.

Record NodePlans := mkNodePlans { np_nodeId : string; np_nodeName : string; np_acceptsNewServers : bool; np_results : list PlanSlots }.

Definition planSlotsOn (node : Node) (usage : NodeUsage) (p : Plan) : PlanSlots :=
  match acceptanceOf now node with
  | Some reason => mkPlanSlots (pl_id p) (pl_name p) (Some 0) None (Some reason)
  | None =>
    let result := slotsForPlanOnNode (rc_inputs (resolveNodeCapacity now (nd_config node))) usage (planRequest p) in
    mkPlanSlots (pl_id p) (pl_name p) (slots result) (limiting result) None
  end.

Definition nodePlans (nodeId : string) : Res NodePlans :=
  match findFirst (fun n => (nd_id n =s nodeId) && (nd_deletedAt n =s None)) (db_nodes d) with
  | None => Throw (NotFound "Node not found")
  | Some node =>
    let restrictedPlanIds := map pn_planId (List.filter (fun r => pn_nodeId r =s nodeId) (db_planNodes d)) in
    let plansWithAnyRestriction := map pn_planId (db_planNodes d) in
    let usage := usageForNode d nodeId in
    let offered := List.filter (fun p => negb (bool_decide (pl_id p ∈ plansWithAnyRestriction)) || bool_decide (pl_id p ∈ restrictedPlanIds)) livePlans in
    Ok (mkNodePlans (nd_id node) (nd_name node) (bool_decide (acceptanceOf now node = None)) (map (planSlotsOn node usage) offered))
  end.

(** ** simulate *)

Record SimulationRow := mkSimulationRow {
  sr_nodeId : string; sr_name : string; sr_fits : bool; sr_reasons : list string; sr_healthStatus : string }.

Definition simulateOn (request : ResourceRequest) (node : Node) : SimulationRow :=
  let health := deriveHealthStatus now (nd_lastHeartbeatAt node) in
  match acceptanceOf now node with
  | Some reason => mkSimulationRow (nd_id node) (nd_name node) false [reason] health
  | None =>
    let reasons := nodeFitReasons (rc_inputs (resolveNodeCapacity now (nd_config node))) (usageForNode d (nd_id node)) request in
    mkSimulationRow (nd_id node) (nd_name node) (bool_decide (reasons = [])) reasons health
  end.

Definition simulate (planId : string) (nodeId : option string) : Res (Plan * list SimulationRow) :=
  match findFirst (fun p => (pl_id p =s planId) && (pl_deletedAt p =s None)) (db_plans d) with
  | None => Throw (NotFound "Plan not found")
  | Some plan =>
    let nodes := match nodeId with
                 | Some id => List.filter (fun n => (nd_id n =s id) && (nd_deletedAt n =s None)) (db_nodes d)
                 | None => List.filter (fun n => (nd_deletedAt n =s None) && negb (nd_maintenanceMode n) && nd_isPublic n) (db_nodes d)
                 end in
    match nodeId, nodes with
    | Some _, [] => Throw (NotFound "Node not found")
    | _, _ => Ok (plan, map (simulateOn (planRequest plan)) nodes)
    end
  end.

End Service.
