(* ===== verification/ReportRules.v ===== *)
(** ReportRules: the reported figures are the ones the gates use.

    The report computes occupancy and slots for all plans at once; here it is shown to agree with
    the counts and the checks of the paths that create servers, and where it does not. *)

From S2P Require Import Prelude JsNum Capacity Store Scheduler JsString Dto Fleet Report.
From Stdlib Require Import QArith Qround Lia.

Local Open Scope Z_scope.

(** ** Grouped counts *)

Section Groups.
Context {K : Type} `{Countable K}.

Lemma group_insert (f : K -> Z) keys (m : gmap K Z) k :
  fold_left (fun m row => <[fst row := snd row]> m) (map (fun k => (k, f k)) keys) m !! k = if bool_decide (k ∈ keys) then Some (f k) else m !! k.
Proof.
  revert m. induction keys as [|x keys IH]; intros m; simpl; [done|]. rewrite IH, (bool_decide_ext (k ∈ x :: keys) (k = x \/ k ∈ keys)) by apply elem_of_cons.
  destruct (decide (k = x)) as [->|Hn].
  - rewrite (bool_decide_true (x = x \/ _)) by auto. case_bool_decide; [done|]. by rewrite lookup_insert_eq.
  - rewrite lookup_insert_ne by done. by repeat case_bool_decide; naive_solver.
Qed.

End Groups.

Lemma group_add (f : option string -> Z) (keys : list (option string)) (m : gmap (option string) Z) k : NoDup keys ->
  fold_left addCount (map (fun k => (k, f k)) keys) m !! k = if bool_decide (k ∈ keys) then Some (default 0 (m !! k) + f k) else m !! k.
Proof.
  revert m. induction keys as [|x keys IH]; intros m Hn; simpl; [done|]. apply NoDup_cons in Hn as [Hx Hn]. rewrite IH, (bool_decide_ext (k ∈ x :: keys) (k = x \/ k ∈ keys)) by (done || apply elem_of_cons).
  unfold addCount. simpl. destruct (decide (k = x)) as [->|Hk].
  - rewrite (bool_decide_true (x = x \/ _)), bool_decide_false by auto. by rewrite lookup_insert_eq.
  - rewrite lookup_insert_ne by done. by repeat case_bool_decide; naive_solver.
Qed.

Lemma count_absent {R K} `{EqDecision K} (key : R -> K) rows k : k ∉ remove_dups (map key rows) -> countWhere (fun r => key r =s k) rows = 0.
Proof.
  intros Hk. unfold countWhere. rewrite filter_none; [done|]. intros r Hr. apply bool_decide_eq_false. intros <-. apply Hk.
  rewrite elem_of_remove_dups. apply list_elem_of_In, in_map. by apply list_elem_of_In.
Qed.

Lemma countWhere_filter {R} (p q : R -> bool) l : countWhere p (List.filter q l) = countWhere (fun x => q x && p x) l.
Proof. unfold countWhere. by rewrite filter_filter. Qed.

Lemma countWhere_ext {R} (p q : R -> bool) l : (forall x, p x = q x) -> countWhere p l = countWhere q l.
Proof. intros Hpq. unfold countWhere. by rewrite (filter_ext_in p q) by (intros; apply Hpq). Qed.

(** Counting by key and summing the counts of some keys counts the rows with those keys. *)
Lemma sum_counts {R} (key : R -> string) (q : string -> bool) keys rows : NoDup keys ->
  sumZ (fun k => countWhere (fun r => key r =s k) rows) (List.filter q keys) =
  countWhere (fun r => q (key r) && bool_decide (key r ∈ keys)) rows.
Proof.
  intros Hn. induction keys as [|k keys IH].
  - cbn [List.filter]. unfold sumZ, countWhere. cbn [fold_right]. rewrite filter_none; [reflexivity|]. intros r _. cbv beta. rewrite bool_decide_false by apply not_elem_of_nil. by rewrite andb_false_r.
  - apply NoDup_cons in Hn as [Hk Hn]. specialize (IH Hn). cbn [List.filter].
    assert (countWhere (fun r => q (key r) && bool_decide (key r ∈ k :: keys)) rows =
      (if q k then countWhere (fun r => key r =s k) rows else 0) + countWhere (fun r => q (key r) && bool_decide (key r ∈ keys)) rows) as ->.
    { clear IH. unfold countWhere. induction rows as [|r rows IHr]; [by destruct (q k)|]. cbn [List.filter].
      rewrite (bool_decide_ext (key r ∈ k :: keys) (key r = k \/ key r ∈ keys)) by apply elem_of_cons.
      destruct (decide (key r = k)) as [Ek|Hne].
      - rewrite (bool_decide_true (key r = k \/ _)), (bool_decide_true (key r = k)) by auto. rewrite (bool_decide_false (key r ∈ keys)) by congruence.
        rewrite Ek, andb_true_r, andb_false_r. destruct (q k); simpl List.length; lia.
      - rewrite (bool_decide_false (key r = k)) by done.
        rewrite (bool_decide_ext (key r = k \/ key r ∈ keys) (key r ∈ keys)) by tauto.
        destruct (q (key r) && _); simpl List.length; destruct (q k); lia. }
    rewrite <- IH. destruct (q k); simpl; unfold sumZ; simpl; lia.
Qed.

Lemma group_list (f : string -> Z) keys : NoDup keys ->
  map_to_list (fold_left (fun m row => <[fst row := snd row]> m) (map (fun k => (k, f k)) keys) (∅ : gmap string Z)) ≡ₚ map (fun k => (k, f k)) keys.
Proof.
  intros Hn. set (m := fold_left _ _ _). assert (m = list_to_map (map (fun k => (k, f k)) keys)) as ->.
  { apply map_eq. intros k. unfold m. rewrite group_insert, lookup_empty. clear. induction keys as [|x keys IH]; simpl; [done|].
    rewrite (bool_decide_ext (k ∈ x :: keys) (k = x \/ k ∈ keys)) by apply elem_of_cons. destruct (decide (k = x)) as [->|Hne].
    - rewrite lookup_insert_eq. by rewrite bool_decide_true by auto.
    - rewrite lookup_insert_ne by done. rewrite <- IH. apply (f_equal (fun b : bool => if b then _ else _)). apply bool_decide_ext. tauto. }
  apply map_to_list_to_map. rewrite map_map_fst || (rewrite <- list_fmap_compose; simpl; by rewrite list_fmap_id).
Qed.

Section Rules.
Context `{Platform} (now : Z) (details : string -> NodeDetails) (d : Db).

Lemma occupied_agrees planId : default 0 (occupiedByPlan d !! Some planId) = occupiedSlots d planId.
Proof.
  unfold occupiedByPlan, groupByPlan. cbv zeta.
  set (servers := List.filter _ (db_servers d)). set (subs := List.filter _ (db_subscriptions d)).
  set (f1 := fun k => countWhere (fun r => sv_planId r =s k) servers). set (f2 := fun k => countWhere (fun r => Some (sb_planId r) =s k) subs).
  assert (occupiedSlots d planId = f1 (Some planId) + f2 (Some planId)) as ->.
  { unfold occupiedSlots, f1, f2, servers, subs. rewrite !countWhere_filter. f_equal; apply countWhere_ext; intros x; [by rewrite andb_comm|].
    assert (bool_decide (Some (sb_planId x) = Some planId) = bool_decide (sb_planId x = planId)) as -> by (apply bool_decide_ext; naive_solver).
    by rewrite <- andb_assoc, andb_comm. }
  rewrite (group_add f2 _ _ _ (NoDup_remove_dups _)), !(group_insert f1), lookup_empty.
  assert (Some planId ∉ remove_dups (map sv_planId servers) -> f1 (Some planId) = 0) as A1 by apply count_absent.
  assert (Some planId ∉ remove_dups (map (fun r => Some (sb_planId r)) subs) -> f2 (Some planId) = 0) as A2 by apply count_absent.
  repeat case_bool_decide; simpl; rewrite ?A1, ?A2 by done; lia.
Qed.

(** ** Eligible nodes *)

Lemma restrictions_all p n :
  isNodeAllowedForPlan d p n =
  match fold_left restrictionsStep (db_planNodes d) (∅ : gmap string (gset string)) !! p with
  | Some restricted => bool_decide (n ∈ restricted)
  | None => true
  end.
Proof.
  rewrite restrictions_lookup, lookup_empty. apply eq_bool_prop_intro. rewrite !Is_true_true, isNodeAllowedForPlan_spec.
  destruct (List.filter (fun r => pn_planId r =s p) (db_planNodes d)) as [|r0 l] eqn:F.
  - split; [done|]. intros _. left. intros r Hr Ep. assert (In r (List.filter (fun r => pn_planId r =s p) (db_planNodes d))) as Hc; [|by rewrite F in Hc].
    apply filter_In. split; [by apply list_elem_of_In|by apply bool_decide_eq_true].
  - rewrite <- F. set (own := List.filter _ _) in *. assert (forall r, r ∈ own <-> r ∈ db_planNodes d /\ pn_planId r = p) as Ho.
    { intros r. unfold own. by rewrite list_elem_of_In, filter_In, <- list_elem_of_In, bool_decide_eq_true. }
    rewrite bool_decide_eq_true. simpl default. rewrite union_empty_r_L, elem_of_list_to_set, list_elem_of_In, in_map_iff. setoid_rewrite <- list_elem_of_In.
    setoid_rewrite Ho. split; [|naive_solver]. intros [Hn|(r & Hr & Ep & En)]; [|by exists r]. exfalso.
    assert (r0 ∈ own) as Hr0 by (rewrite F; by left). apply Ho in Hr0 as [Hr0 Ep]. by apply (Hn r0).
Qed.

Lemma eligible_filter p nodes :
  match fold_left restrictionsStep (db_planNodes d) (∅ : gmap string (gset string)) !! p with
  | Some restricted => List.filter (fun n => bool_decide (nd_id n ∈ restricted)) nodes
  | None => nodes
  end = List.filter (fun n => isNodeAllowedForPlan d p (nd_id n)) nodes.
Proof.
  pose proof (restrictions_all p) as Hr. destruct (_ !! p) as [restricted|].
  - apply filter_ext_in. intros n _. by rewrite Hr.
  - induction nodes as [|n nodes IH]; simpl; [done|]. by rewrite Hr, <- IH.
Qed.

(** ** Plans *)

(** The entry of a node in the report of a plan. *)
Definition nodeEntry (p : Plan) (node : Node) : NodeSlots :=
  let e := planSlotsOn now node (usageForNode d (nd_id node)) p in
  mkNodeSlots (nd_id node) (nd_name node) (pk_slots e) (pk_limiting e) (pk_reason e).

Lemma nodeTurns (usageByNode : gmap string NodeUsage) p nodes acc entries :
  (forall n, n ∈ nodes -> usageByNode !! nd_id n = Some (usageForNode d (nd_id n))) ->
  fold_left (nodeTurn now usageByNode (planRequest p)) nodes (acc, entries) =
  (fold_left (derivedStep now usageByNode (planRequest p)) nodes acc, entries ++ map (nodeEntry p) nodes).
Proof.
  revert acc entries. induction nodes as [|n nodes IH]; intros acc entries Hu; [simpl; by rewrite app_nil_r|]. cbn [fold_left map].
  assert (forall m, m ∈ nodes -> usageByNode !! nd_id m = Some (usageForNode d (nd_id m))) as Hu' by (intros m Hm; apply Hu; by right).
  assert (nodeTurn now usageByNode (planRequest p) (acc, entries) n =
    (derivedStep now usageByNode (planRequest p) acc n, entries ++ [nodeEntry p n])) as ->.
  { unfold nodeTurn, derivedStep, nodeEntry, planSlotsOn. destruct (acceptanceOf now n); [done|]. rewrite (Hu n) by (by left). done. }
  rewrite IH by done. by rewrite <- app_assoc.
Qed.

(** What a row of the report says about its plan. *)
Record rowAgrees (p : Plan) (row : PlanUsageRow) : Prop := mkRowAgrees {
  ag_id : pu_id row = pl_id p;
  ag_occupied : pu_occupied row = occupiedSlots d (pl_id p);
  ag_derived : pu_derivedSlots row = derivedSpec now d p;
  ag_effective : pu_effectiveSlots row = effectiveSlotsOf (pl_maxSlots p) (derivedSpec now d p);
  ag_remaining : pu_remaining row = (fun e => Z.max (e - occupiedSlots d (pl_id p)) 0) <$> pu_effectiveSlots row;
  ag_perNode : pu_perNode row = map (nodeEntry p) (List.filter (fun n => isNodeAllowedForPlan d (pl_id p) (nd_id n)) (liveNodes d)) }.

Lemma planUsage_agrees : Forall2 rowAgrees (livePlans d) (planUsage now d).
Proof.
  unfold planUsage. cbv zeta. induction (livePlans d) as [|p plans IH]; simpl; constructor; [|exact IH]. clear IH.
  set (usage := usageForNodes d (map nd_id (liveNodes d))).
  assert (forall n, n ∈ liveNodes d -> usage !! nd_id n = Some (usageForNode d (nd_id n))) as Hu.
  { intros n Hn. unfold usage. rewrite usageForNodes_lookup, bool_decide_true; [done|]. apply list_elem_of_In, in_map. by apply list_elem_of_In. }
  unfold planUsageRow. pose proof (derived_fold now d p usage (fold_left restrictionsStep (db_planNodes d) ∅ !! pl_id p) (liveNodes d) (Some 0) Hu (restrictions_all (pl_id p))) as Hd.
  cbv zeta in Hd. rewrite eligible_filter in Hd |- *. rewrite nodeTurns.
  - rewrite Hd. rewrite occupied_agrees. split; try done.
  - intros n Hn. apply Hu. apply list_elem_of_In, filter_In in Hn as [Hn _]. by apply list_elem_of_In.
Qed.

(** The entry of a node against the path that creates on it: a node that accepts no servers has no slots and says
    why; on any other, with numbers within their columns, the locked check passes for [k] servers of the plan one
    after the other exactly when [k] is within the slots of the entry and no dimension the plan asks nothing of is
    over its ceiling already. *)
Definition entryMatchesGate (p : Plan) (node : Node) (e : NodeSlots) : Prop :=
  let inputs := rc_inputs (resolveNodeCapacity now (nd_config node)) in let usage := usageForNode d (nd_id node) in
  nl_nodeId e = nd_id node /\
  match acceptanceOf now node with
  | Some reason => nl_slots e = Some 0 /\ nl_reason e = Some reason
  | None => nl_reason e = None /\ (Forall dimOk (checks inputs usage (planRequest p)) -> forall k, 0 <= k ->
      (forall i, 0 <= i < k -> assertNodeFits inputs (usageAfter usage (planRequest p) i) (planRequest p) = Ok tt) <->
      k = 0 \/ unrequestedFit inputs usage (planRequest p) = true /\ match nl_slots e with None => True | Some m => k <= m end)
  end.

Lemma nodeEntry_gate p node : entryMatchesGate p node (nodeEntry p node).
Proof.
  unfold entryMatchesGate, nodeEntry, planSlotsOn. cbv zeta. destruct (acceptanceOf now node); [done|]. split_and!; [done|done|].
  intros Hok k Hk. by apply gate_slots.
Qed.

(** C13: the figures the capacity report shows for a plan on sale are those of the code that sells and creates: its
    occupancy is the count a creation checks against the plan's limit, its derived slots are what the public
    catalogue shows, its nodes are the ones (public or not) the plan is allowed on, each with as many slots as the
    locked check of a creation accepts there in a row (see [entryMatchesGate]), and while slots remain a creation is
    not refused for want of slots.  The scheduler chooses among the public nodes only: [hidden_node_slots]. *)
Theorem plan_report_agrees :
  Forall2 (fun p row => rowAgrees p row /\
    Forall2 (entryMatchesGate p) (List.filter (fun n => isNodeAllowedForPlan d (pl_id p) (nd_id n)) (liveNodes d)) (pu_perNode row) /\
    forall n, pu_remaining row = Some n -> 0 < n -> assertSlots (occupiedSlots d (pl_id p)) (pl_maxSlots p) = Ok tt)
    (livePlans d) (planUsage now d).
Proof.
  eapply Forall2_impl; [exact planUsage_agrees|]. intros p row Ha. split; [done|]. split.
  { rewrite (ag_perNode _ _ Ha). apply Forall2_fmap_r, Forall_Forall2_diag, Forall_forall. intros n _. apply nodeEntry_gate. }
  intros n Hr Hn. destruct Ha as [_ _ _ He Hm _].
  rewrite Hm, He in Hr. unfold effectiveSlotsOf, assertSlots in *. destruct (pl_maxSlots p) as [m|]; [|done].
  destruct (derivedSpec now d p) as [s|]; injection Hr as <-; (destruct (Z.leb_spec m (occupiedSlots d (pl_id p))); [lia|]); by repeat case_match; try lia.
Qed.

(** The plans of a node are those it is allowed for, each with the entry the report of the plan has. *)
Theorem node_plans_agree nodeId r : nodePlans now d nodeId = Ok r ->
  exists node, node ∈ liveNodes d /\ nd_id node = nodeId /\
    np_results r = map (planSlotsOn now node (usageForNode d nodeId)) (List.filter (fun p => isNodeAllowedForPlan d (pl_id p) nodeId) (livePlans d)).
Proof.
  unfold nodePlans. destruct (findFirst _ _) as [node|] eqn:E; [|done]. intros [= <-]. apply findFirst_some in E as [Hin [Hi%bool_decide_eq_true Hd]%andb_true_iff].
  exists node. split_and!; [unfold liveNodes; apply list_elem_of_In, filter_In; by rewrite <- list_elem_of_In|done|]. cbn [np_results]. f_equal.
  apply filter_ext_in. intros p _. apply eq_bool_prop_intro.
  rewrite !Is_true_true, orb_true_iff, negb_true_iff, bool_decide_eq_false, bool_decide_eq_true, isNodeAllowedForPlan_spec.
  rewrite !list_elem_of_In, !in_map_iff. setoid_rewrite filter_In. setoid_rewrite bool_decide_eq_true. setoid_rewrite <- list_elem_of_In. naive_solver.
Qed.

(** A simulated placement fits exactly when the node accepts servers and the locked check of a creation passes. *)
Theorem simulate_agrees planId nodeId plan rows : simulate now d planId nodeId = Ok (plan, rows) ->
  forall row, row ∈ rows -> exists node, node ∈ liveNodes d /\ sr_nodeId row = nd_id node /\
    (sr_fits row = true <-> acceptanceOf now node = None /\
      assertNodeFits (rc_inputs (resolveNodeCapacity now (nd_config node))) (usageForNode d (nd_id node)) (planRequest plan) = Ok tt).
Proof.
  unfold simulate. destruct (findFirst _ (db_plans d)) as [p|]; [|done]. cbv zeta. lazymatch goal with |- context [map (simulateOn _ _ _) ?n] => set (nodes := n) end.
  intros Hs. assert (plan = p /\ rows = map (simulateOn now d (planRequest p)) nodes) as [-> ->] by (destruct nodeId, nodes; by simplify_eq).
  assert (forall n, n ∈ nodes -> n ∈ liveNodes d) as Hl.
  { intros n. unfold nodes, liveNodes. destruct nodeId; rewrite !list_elem_of_In, !filter_In, ?andb_true_iff; tauto. }
  intros row (node & <- & Hn)%list_elem_of_In%in_map_iff. apply list_elem_of_In in Hn. exists node. split; [by apply Hl|]. unfold simulateOn.
  destruct (acceptanceOf now node); [split; [done|]; split; naive_solver|]. split; [done|]. cbn [sr_fits].
  rewrite bool_decide_eq_true, assertNodeFits_ok, nodeFitReasons_nil. naive_solver.
Qed.

(** The server counts of the dashboard: all but those being deleted, and the ready ones. *)
Theorem dashboard_counts :
  da_serversTotal (dashboard now details d) = countWhere (fun s => negb (sv_status s =s Srv_deleting)) (db_servers d) /\
  da_serversActive (dashboard now details d) = countWhere (fun s => sv_status s =s Srv_ready) (db_servers d).
Proof.
  set (key := fun s => serverStatusStr (sv_status s)). set (keys := remove_dups (map key (db_servers d))).
  assert (forall st, bool_decide (serverStatusStr st = "deleting") = bool_decide (st = Srv_deleting)) as E1 by (by intros []).
  assert (forall st, bool_decide (serverStatusStr st = "ready") = bool_decide (st = Srv_ready)) as E2 by (by intros []).
  unfold dashboard. cbn [da_serversTotal da_serversActive]. change (groupByStatus (db_servers d)) with (map (fun k => (k, countWhere (fun s => key s =s k) (db_servers d))) keys). split.
  - rewrite (sumZ_perm snd _ (map (fun k => (k, countWhere (fun s => key s =s k) (db_servers d))) (List.filter (fun k => negb (k =s "deleting")) keys))).
    + rewrite sumZ_map. cbn [snd]. rewrite (sum_counts key (fun k => negb (k =s "deleting")) keys (db_servers d)) by apply NoDup_remove_dups.
      unfold countWhere. rewrite (filter_ext_in _ (fun s => negb (bool_decide (sv_status s = Srv_deleting)))); [done|]. intros s Hs.
      rewrite (bool_decide_true (key s ∈ keys)); [by rewrite andb_true_r; unfold key; rewrite E1|].
      unfold keys. rewrite elem_of_remove_dups. apply list_elem_of_In, in_map. by apply list_elem_of_In.
    + pose proof (group_list (fun k => countWhere (fun s => key s =s k) (db_servers d)) keys (NoDup_remove_dups _)) as G. cbv beta in G.
      rewrite G. apply reflexive_eq.
      clear. induction keys as [|k l IH]; simpl; [done|]. destruct (negb _); simpl; by rewrite IH.
  - pose proof (group_insert (fun k => countWhere (fun s => key s =s k) (db_servers d)) keys ∅ "ready") as G. cbv beta in G. rewrite G, lookup_empty.
    assert (countWhere (fun s => sv_status s =s Srv_ready) (db_servers d) = countWhere (fun s => key s =s "ready") (db_servers d)) as ->
      by (apply countWhere_ext; intros s; unfold key; by rewrite E2).
    case_bool_decide as Hk; [done|]. simpl. symmetry. by apply (count_absent key).
Qed.

End Rules.

(** ** A node out of sale *)

Module Demo.
Import Scheduler.Demo.

Definition hidden : Node := mkNode "a" "node a" "loc" None false false (Some 1000) None (config 4096 100000).
Definition hiddenDb : Db :=
  mkDb [] [plan "p" 2990 None] [] [hidden] [alloc 1 "a" None] [] [] [] [] [] [] [] [] [] [].

End Demo.

(** A node that is not public counts towards the slots of a plan, in the report as in the public
    catalogue, but the scheduler never selects it: the plan is shown with two slots that no paid
    order can be placed on. *)
Theorem hidden_node_slots : let platform := Scheduler.Demo.platform in
  map pu_remaining (planUsage 2000 Demo.hiddenDb) = [Some 2] /\
  derivedSlotsForPlans 2000 Demo.hiddenDb (livePlans Demo.hiddenDb) !! "p" = Some (Some 2) /\
  selected <$> (match selectNode 2000 Demo.hiddenDb "p" [] None with Ok r => Some r | Throw _ => None end) = Some None.
Proof. split_and!; vm_compute; reflexivity. Qed.
