(* ===== verification/PublicSite.v ===== *)
(** PublicSite: what visitors see.

    [public/public-plans.service.ts] (the catalogue with its availability), [public/public-status.service.ts]
    (the platform status) and [site-announcement/site-announcement.service.ts] (the banner), each with its
    cached copy in Redis. *)

From S2P Require Import Prelude JsNum Capacity Store Scheduler JsString IsoDate Dto Fleet Report.
From Stdlib Require Import QArith Qround Ascii String Lia.

Local Open Scope Z_scope.

(** ** Rows and state *)

Inductive AvailabilityStatus := av_available | av_limited | av_sold_out.
Record PlanAvailability := mkAvailability { av_status : AvailabilityStatus; av_remaining : option Z }.

(** [PLAN_PUBLIC_SELECT] without [maxSlots] and [planFamily]. *)
Record PublicPlan := mkPublicPlan {
  pb_id : string; pb_name : string; pb_slug : string; pb_description : option string; pb_memoryMb : Z; pb_diskMb : Z; pb_cpuLimitPercent : Z;
  pb_maxBackups : Z; pb_maxDatabases : Z; pb_maxSchedules : Z; pb_backupRetentionDays : Z; pb_hardwareLabel : option string; pb_priceCents : Z;
  pb_compareAtPriceCents : option Z; pb_currency : string; pb_billingPeriod : BillingPeriod; pb_maxServers : option Z;
  pb_players : option Z * option Z; pb_mods : option Z * option Z; pb_plugins : option Z * option Z; pb_isFeatured : bool;
  pb_highlightLabel : option string; pb_sortOrder : Z; pb_availability : PlanAvailability }.

Inductive PlatformStatusLevel := lvl_operational | lvl_maintenance | lvl_offline.
#[export] Instance PlatformStatusLevel_eq : EqDecision PlatformStatusLevel.
Proof. solve_decision. Defined.
Record PublicPlatformStatus := mkPlatformStatus { ps_level : PlatformStatusLevel; ps_nextMaintenanceAt : option string }.

Record SiteAnnouncement := mkAnnouncement { sa_id : string; sa_message : string; sa_isActive : bool; sa_updatedBy : option string; sa_updatedAt : Z }.
#[export] Instance SiteAnnouncement_row : Row SiteAnnouncement := sa_id.
Record PublicAnnouncement := mkPublicAnnouncement { pa_message : string; pa_updatedAt : string }.

(** An entry of Redis with the instant it expires. *)
Abbreviation Cached A := (option (A * Z)).

Record SiteState := mkSite {
  z_db : Db; z_nodes : list NodeRow; z_locations : list (string * option Z); z_announcements : list SiteAnnouncement;
  z_plansCache : Cached (list PublicPlan); z_statusCache : Cached (option PublicPlatformStatus); z_bannerCache : Cached (option PublicAnnouncement);
  z_audit : list AuditEntry; z_next : N; z_now : Z }.
#[export] Instance SiteState_settable : Settable SiteState := fun s =>
  mkSite (z_db s) (z_nodes s) (z_locations s) (z_announcements s) (z_plansCache s) (z_statusCache s) (z_bannerCache s) (z_audit s) (z_next s) (z_now s).

Abbreviation MZ := (M SiteState).

Section Service.
Context `{Platform} (cacheUp : Z -> bool).

(** [redis.get(KEY)], [null] when it is missing, expired, or Redis does not answer. *)
Definition hitOf {A} (s : SiteState) (entry : Cached A) : option A :=
  if cacheUp (z_now s) then match entry with Some (a, e) => if z_now s <? e then Some a else None | None => None end else None.

Definition entryFor {A} (s : SiteState) (a : A) (ttlSeconds : Z) (old : Cached A) : Cached A :=
  if cacheUp (z_now s) then Some (a, z_now s + ttlSeconds * 1000) else old.

(** ** public-plans.service.ts *)

Definition PLANS_TTL_SECONDS : Z := 30.
Definition LOW_STOCK_THRESHOLD : Z := 3.

(** [derivedSlots]: [None] is [undefined]. *)
Definition computeAvailability (maxSlots : option Z) (occupied : Z) (derivedSlots : option (option Z)) : PlanAvailability :=
  let effectiveSlots := match derivedSlots with
                        | None => maxSlots
                        | Some derived => match maxSlots, derived with
                                          | None, _ => derived
                                          | Some m, None => Some m
                                          | Some m, Some n => Some (Z.min m n)
                                          end
                        end in
  match effectiveSlots with
  | None => mkAvailability av_available None
  | Some n =>
    let remaining := n - occupied in
    if remaining <=? 0 then mkAvailability av_sold_out (Some 0)
    else mkAvailability (if remaining <=? LOW_STOCK_THRESHOLD then av_limited else av_available) (Some remaining)
  end.

Definition toPublicPlan (p : Plan) (a : PlanAvailability) : PublicPlan :=
  let e := pl_details p in
  mkPublicPlan (pl_id p) (pl_name p) (pd_slug e) (pd_description e) (pl_memoryMb p) (pl_diskMb p) (pl_cpuLimitPercent p) (pl_maxBackups p)
    (pl_maxDatabases p) (pl_maxSchedules p) (pd_backupRetentionDays e) (pd_hardwareLabel e) (pl_priceCents p) (pd_compareAtPriceCents e)
    (pl_currency p) (pl_billingPeriod p) (pd_maxServers e) (pd_playersMin e, pd_playersMax e) (pd_modsMin e, pd_modsMax e)
    (pd_pluginsMin e, pd_pluginsMax e) (pd_isFeatured e) (pd_highlightLabel e) (pd_sortOrder e) a.

(** [None] is [undefined]: no node is healthy. *)
Definition shownSlots (now : Z) (d : Db) (plans : list Plan) : option (gmap string (option Z)) :=
  match plans with
  | [] => Some ∅
  | _ => if hasAnyHealthyNode now d then Some (derivedSlotsForPlans now d plans) else None
  end.

Definition occupancyForPlans (d : Db) (planIds : list string) : gmap (option string) Z :=
  match planIds with
  | [] => ∅
  | _ =>
    let serverCounts := groupByPlan sv_planId
      (List.filter (fun s => bool_decide (sv_planId s ∈ map Some planIds) && negb (sv_status s =s Srv_deleting)) (db_servers d)) in
    let subscriptionCounts := groupByPlan (fun s => Some (sb_planId s))
      (List.filter (fun s => bool_decide (sb_planId s ∈ planIds) && (sb_serverId s =s None) && bool_decide (sb_status s ∈ SLOT_HOLDING_SUBSCRIPTION_STATUSES))
        (db_subscriptions d)) in
    fold_left addCount subscriptionCounts (fold_left addCount serverCounts ∅)
  end.

Definition withAvailability (now : Z) (d : Db) (plans : list Plan) : list PublicPlan :=
  let occupiedByPlan := occupancyForPlans d (map pl_id plans) in
  let derivedSlotsByPlan := shownSlots now d plans in
  map (fun p => toPublicPlan p (computeAvailability (pl_maxSlots p) (default 0 (occupiedByPlan !! Some (pl_id p)))
                                 (derivedSlotsByPlan ≫= fun m => m !! pl_id p))) plans.

Definition forSale (p : Plan) : bool := (pl_deletedAt p =s None) && pl_isPublic p.

(** [orderBy: [{ sortOrder: 'asc' }, { memoryMb: 'asc' }]]. *)
Definition gridOrder (a b : Plan) : bool :=
  let x := pd_sortOrder (pl_details a) in let y := pd_sortOrder (pl_details b) in
  (x <? y) || ((x =? y) && (pl_memoryMb a <=? pl_memoryMb b)).

Definition listPlans : MZ (list PublicPlan) :=
  cached ← gets (fun s => hitOf s (z_plansCache s));
  match cached with
  | Some l => mret l
  | None =>
    result ← gets (fun s => withAvailability (z_now s) (z_db s) (sortBy gridOrder (List.filter forSale (db_plans (z_db s)))));
    modify (fun s => s <| z_plansCache := entryFor s result PLANS_TTL_SECONDS (z_plansCache s) |>) ;;
    mret result
  end.

Definition familyOf (d : Db) (p : Plan) : list Plan :=
  match pd_planFamily (pl_details p) with
  | Some f => if f =s "" then [p]
              else sortBy (fun a b => pl_priceCents a <=? pl_priceCents b)
                     (List.filter (fun q => (pd_planFamily (pl_details q) =s Some f) && forSale q) (db_plans d))
  | None => [p]
  end.

(** The plan and its [familyCycles]. *)
Definition getBySlug (slug : string) : MZ (option PublicPlan * list PublicPlan) :=
  found ← gets (fun s => findFirst (fun p => (pd_slug (pl_details p) =s slug) && forSale p) (db_plans (z_db s)));
  plan ← orThrow found (NotFound "Plan not found");
  familyCycles ← gets (fun s => withAvailability (z_now s) (z_db s) (familyOf (z_db s) plan));
  let selected := match findFirst (fun p => pb_id p =s pl_id plan) familyCycles with Some p => Some p | None => head familyCycles end in
  mret (selected, familyCycles).

(** ** public-status.service.ts *)

Definition STATUS_TTL_SECONDS : Z := 30.

Definition aggregateStatus (now : Z) (nodes : list NodeRow) : PlatformStatusLevel :=
  if existsb (fun n => deriveHealthStatus now (nd_lastHeartbeatAt (fn_node n)) =s "online") nodes then lvl_operational
  else if existsb (fun n => nd_maintenanceMode (fn_node n)) nodes then lvl_maintenance
  else lvl_offline.

Definition minOf (x : Z) (l : list Z) : Z := fold_left Z.min l x.

Definition aggregateSchedule (now : Z) (nodes : list NodeRow) : option string :=
  match List.filter (fun t => now <? t) (omap (fun n => dt_maintenanceScheduledAt (fn_details n)) nodes) with
  | [] => None
  | t :: ts => Some (toISOString (minOf t ts))
  end.

Definition visitorNodes (s : SiteState) : list NodeRow :=
  List.filter (fun n => (nd_deletedAt (fn_node n) =s None) && nd_isPublic (fn_node n) &&
                        bool_decide ((nd_locationId (fn_node n), None) ∈ z_locations s)) (z_nodes s).

Definition statusOf (s : SiteState) : option PublicPlatformStatus :=
  match visitorNodes s with
  | [] => None
  | nodes =>
    let status := aggregateStatus (z_now s) nodes in
    Some (mkPlatformStatus status (if status =s lvl_maintenance then None else aggregateSchedule (z_now s) nodes))
  end.

(** The cached text ["null"] is a hit. *)
Definition getNodeStatus : MZ (option PublicPlatformStatus) :=
  cached ← gets (fun s => hitOf s (z_statusCache s));
  match cached with
  | Some r => mret r
  | None =>
    result ← gets statusOf;
    modify (fun s => s <| z_statusCache := entryFor s result STATUS_TTL_SECONDS (z_statusCache s) |>) ;;
    mret result
  end.

(** ** site-announcement.service.ts *)

Definition BANNER_TTL_SECONDS : Z := 10.

Definition getRow : MZ SiteAnnouncement :=
  existing ← gets (fun s => head (z_announcements s));
  match existing with
  | Some row => mret row
  | None =>
    n ← gets z_next;
    now ← gets z_now;
    let row := mkAnnouncement (uuidv7 n) "" false None now in
    modify (fun s => s <| z_next := (z_next s + 1)%N |> <| z_announcements := [row] |>) ;;
    mret row
  end.

Definition bannerOf (row : SiteAnnouncement) : option PublicAnnouncement :=
  if sa_isActive row && negb (trim (sa_message row) =s "") then Some (mkPublicAnnouncement (sa_message row) (toISOString (sa_updatedAt row))) else None.

Definition getPublic : MZ (option PublicAnnouncement) :=
  cached ← gets (fun s => hitOf s (z_bannerCache s));
  match cached with
  | Some r => mret r
  | None =>
    row ← getRow;
    modify (fun s => s <| z_bannerCache := entryFor s (bannerOf row) BANNER_TTL_SECONDS (z_bannerCache s) |>) ;;
    mret (bannerOf row)
  end.

Record UpdateSiteAnnouncementDto := mkUpdateAnnouncement { ud_message : Field string; ud_isActive : Field bool }.

(** [null] passes [@IsOptional]: [null.trim()] throws, and the database client refuses a [null] flag. *)
Definition updateAnnouncement (dto : UpdateSiteAnnouncementDto) (actorId : string) : MZ SiteAnnouncement :=
  before ← getRow;
  nextMessage ← lift (match ud_message dto with
                      | Val m => Ok (trim m) | Null => Throw (External "Cannot read properties of null") | Unset => Ok (sa_message before) end);
  let active := match ud_isActive dto with Val b => b | Null => false | Unset => sa_isActive before end in
  throwIf (active && (nextMessage =s "")) (BadRequest "message is required to activate the announcement") ;;
  nextActive ← lift (patch (ud_isActive dto) (sa_isActive before));
  now ← gets z_now;
  let updated := mkAnnouncement (sa_id before) nextMessage nextActive (Some actorId) now in
  modify (fun s => s <| z_announcements := updId (sa_id before) (fun _ => updated) (z_announcements s) |>) ;;
  modify (fun s => if cacheUp (z_now s) then s <| z_bannerCache := None |> else s) ;;
  modify (fun s => s <| z_audit := z_audit s ++ [mkAudit "admin.site_announcement.update" (Some actorId) "site_announcement" (sa_id updated)] |>) ;;
  mret updated.

End Service.
