(* ===== verification/PublicSiteRules.v ===== *)
(** PublicSiteRules: what visitors see is what the gates decide.

    The availability of a plan agrees with the slot check of a subscription and with the capacity
    report; the banner is shown exactly while it is active; the announced maintenance is the next one. *)

From S2P Require Import Prelude JsNum Capacity Store Scheduler Subscriptions JsString IsoDate Dto Fleet Report ReportRules PublicSite.
From Stdlib Require Import QArith Qround Ascii String Lia.

Local Open Scope Z_scope.

(** ** Availability *)

Lemma occupancy_agrees d ids planId : planId ∈ ids -> default 0 (occupancyForPlans d ids !! Some planId) = occupiedSlots d planId.
Proof.
  intros Hin. unfold occupancyForPlans, groupByPlan. destruct ids as [|i0 ids0]; [by apply not_elem_of_nil in Hin|]. set (ids := i0 :: ids0) in *. cbv zeta.
  set (servers := List.filter _ (db_servers d)). set (subs := List.filter _ (db_subscriptions d)).
  set (f1 := fun k => countWhere (fun r => sv_planId r =s k) servers). set (f2 := fun k => countWhere (fun r => Some (sb_planId r) =s k) subs).
  assert (occupiedSlots d planId = f1 (Some planId) + f2 (Some planId)) as ->.
  { unfold occupiedSlots, f1, f2, servers, subs. rewrite !countWhere_filter. f_equal; apply countWhere_ext; intros x.
    - destruct (bool_decide_reflect (sv_planId x = Some planId)) as [->|]; simpl; [|by rewrite andb_false_r].
      rewrite (bool_decide_true (Some planId ∈ map Some ids)) by (apply list_elem_of_In, in_map; by apply list_elem_of_In). by rewrite andb_true_r.
    - assert (bool_decide (Some (sb_planId x) = Some planId) = bool_decide (sb_planId x = planId)) as -> by (apply bool_decide_ext; naive_solver).
      destruct (bool_decide_reflect (sb_planId x = planId)) as [->|]; simpl; [|by rewrite andb_false_r]. by rewrite (bool_decide_true (planId ∈ ids)), andb_true_r. }
  rewrite (group_add f2 _ _ _ (NoDup_remove_dups _)), !(group_add f1 _ _ _ (NoDup_remove_dups _)), lookup_empty.
  assert (Some planId ∉ remove_dups (map sv_planId servers) -> f1 (Some planId) = 0) as A1 by apply count_absent.
  assert (Some planId ∉ remove_dups (map (fun r => Some (sb_planId r)) subs) -> f2 (Some planId) = 0) as A2 by apply count_absent.
  repeat case_bool_decide; simpl; rewrite ?A1, ?A2 by done; lia.
Qed.

(** The row of a plan in a catalogue. *)
Definition shownFor (now : Z) (d : Db) (p : Plan) : PlanAvailability :=
  computeAvailability (pl_maxSlots p) (occupiedSlots d (pl_id p)) (if hasAnyHealthyNode now d then Some (derivedSpec now d p) else None).

Lemma withAvailability_spec now d plans : NoDup (map pl_id plans) ->
  withAvailability now d plans = map (fun p => toPublicPlan p (shownFor now d p)) plans.
Proof.
  intros Hn. unfold withAvailability. cbv zeta. apply map_ext_in. intros p Hp. unfold shownFor. f_equal. f_equal.
  - apply occupancy_agrees. apply list_elem_of_In. by apply in_map.
  - unfold shownSlots. destruct plans as [|p0 ps]; [done|]. destruct (hasAnyHealthyNode now d); [|done]. cbn [mbind option_bind].
    apply derivedSlotsForPlans_spec; [done|by apply list_elem_of_In].
Qed.

(** A plan shown available is not refused for want of slots by the check of a subscription; when
    no node is healthy the two are equivalent; and otherwise the number shown is the one of the report. *)
Theorem shown_availability_agrees now d p :
  (av_status (shownFor now d p) <> av_sold_out -> assertSlots (occupiedSlots d (pl_id p)) (pl_maxSlots p) = Ok tt) /\
  (hasAnyHealthyNode now d = false ->
     (av_status (shownFor now d p) <> av_sold_out <-> assertSlots (occupiedSlots d (pl_id p)) (pl_maxSlots p) = Ok tt)) /\
  (hasAnyHealthyNode now d = true -> forall row, rowAgrees now d p row -> av_remaining (shownFor now d p) = pu_remaining row).
Proof.
  unfold shownFor. rewrite !assertSlots_ok. split_and!.
  - unfold computeAvailability. intros Hs m Hm. rewrite Hm in Hs.
    destruct (hasAnyHealthyNode now d); [destruct (derivedSpec now d p) as [n|]|]; repeat case_match; simpl in *; try done; lia.
  - intros ->. unfold computeAvailability. destruct (pl_maxSlots p) as [m|]; [|split; [intros _ x [=]|done]]. split.
    + intros Hs x [= <-]. repeat case_match; simpl in *; try done; lia.
    + intros Hm. specialize (Hm m eq_refl). repeat case_match; simpl; try done; lia.
  - intros -> row [_ _ _ He Hr _]. rewrite Hr, He. unfold computeAvailability, effectiveSlotsOf.
    destruct (pl_maxSlots p) as [m|], (derivedSpec now d p) as [n|]; simpl; try done; repeat case_match; simpl; f_equal; lia.
Qed.

(** ** Platform status *)

Lemma minOf_spec x l : minOf x l ∈ x :: l /\ forall y, y ∈ x :: l -> minOf x l <= y.
Proof.
  unfold minOf. revert x. induction l as [|z l IH]; intros x; simpl.
  - split; [by left|]. intros y ->%list_elem_of_singleton. done.
  - destruct (IH (Z.min x z)) as [H1 H2]. split.
    + apply elem_of_cons in H1 as [->|H1]; [|by right; right]. destruct (Z.min_spec x z) as [[_ ->]|[_ ->]]; [by left|by right; left].
    + intros y Hy. apply elem_of_cons in Hy as [->|Hy]; [transitivity (Z.min x z); [apply H2; by left|lia]|].
      apply elem_of_cons in Hy as [->|Hy]; [transitivity (Z.min x z); [apply H2; by left|lia]|]. apply H2. by right.
Qed.

(** The platform is operational exactly when a public node is online, and the maintenance announced
    is the first one still to come. *)
Theorem status_announces_next_maintenance s st : statusOf s = Some st ->
  (ps_level st = lvl_operational <-> exists n, n ∈ visitorNodes s /\ deriveHealthStatus (z_now s) (nd_lastHeartbeatAt (fn_node n)) = "online") /\
  forall text, ps_nextMaintenanceAt st = Some text -> exists t, text = toISOString t /\ z_now s < t /\
    (exists n, n ∈ visitorNodes s /\ dt_maintenanceScheduledAt (fn_details n) = Some t) /\
    forall n u, n ∈ visitorNodes s -> dt_maintenanceScheduledAt (fn_details n) = Some u -> z_now s < u -> t <= u.
Proof.
  unfold statusOf. destruct (visitorNodes s) as [|n0 ns] eqn:Ev; [done|]. set (nodes := n0 :: ns). intros [= <-]. cbn [ps_level ps_nextMaintenanceAt]. split.
  - unfold aggregateStatus. destruct (existsb _ nodes) eqn:E.
    + split; [intros _|done]. apply existsb_exists in E as (n & Hn & Ho%bool_decide_eq_true). exists n. by rewrite list_elem_of_In.
    + split; [intros Hs; exfalso; by destruct (existsb (fun n => nd_maintenanceMode (fn_node n)) nodes)|]. intros (n & Hn & Ho). exfalso. eapply eq_true_false_abs, E. apply existsb_exists. exists n.
      rewrite <- list_elem_of_In. split; [done|by apply bool_decide_eq_true].
  - intros text. case_bool_decide; [done|]. unfold aggregateSchedule. destruct (List.filter _ _) as [|t ts] eqn:Ef; [done|]. intros [= <-].
    assert (forall u, u ∈ t :: ts <-> (exists n, n ∈ nodes /\ dt_maintenanceScheduledAt (fn_details n) = Some u) /\ z_now s < u) as Hu.
    { intros u. rewrite <- Ef, list_elem_of_In, filter_In, <- list_elem_of_In, list_elem_of_omap. rewrite Z.ltb_lt. naive_solver. }
    destruct (minOf_spec t ts) as [Hm Hle]. apply Hu in Hm as [Hn Hlt]. exists (minOf t ts). split_and!; [done|done|done|].
    intros n u Hn' Hs Hnow. apply Hle, Hu. split; [by exists n|done].
Qed.

(** ** The banner *)

Section Banner.
Context `{Platform} (cacheUp : Z -> bool).

(** An active announcement has a text, trimmed. *)
Definition bannerOk (s : SiteState) : Prop :=
  Forall (fun r => trim (sa_message r) = sa_message r /\ (sa_isActive r = true -> sa_message r <> "")) (z_announcements s).

Lemma getRow_ok s r s' : getRow s = (r, s') -> bannerOk s ->
  bannerOk s' /\ z_now s' = z_now s /\ exists row, r = Ok row /\ head (z_announcements s') = Some row.
Proof.
  unfold getRow. rewrite bind_gets. destruct (z_announcements s) as [|row rows] eqn:E.
  - cbn [head]. intros [= <- <-] _. split_and!; [|done|by eexists]. constructor; [|constructor]. split; [vm_compute; reflexivity|done].
  - intros [= <- <-] Hb. split_and!; [done|done|]. exists row. by rewrite E.
Qed.

Lemma getPublic_fresh s row rows : z_announcements s = row :: rows -> z_bannerCache s = None ->
  exists s2, getPublic cacheUp s = (Ok (bannerOf row), s2).
Proof.
  intros E1 E2. unfold getPublic. rewrite bind_gets. assert (hitOf cacheUp s (z_bannerCache s) = None) as -> by (unfold hitOf; rewrite E2; by destruct (cacheUp _)).
  unfold getRow. eexists. unfold mbind at 1, M_bind at 1. rewrite bind_gets, E1. reflexivity.
Qed.

(** An update that succeeds keeps the announcement presentable, and the banner is then shown
    exactly while it is active. *)
Theorem banner_shown_when_active dto actorId s row s' : bannerOk s -> cacheUp (z_now s) = true ->
  updateAnnouncement cacheUp dto actorId s = (Ok row, s') ->
  bannerOk s' /\ exists s2, getPublic cacheUp s' =
    (Ok (if sa_isActive row then Some (mkPublicAnnouncement (sa_message row) (toISOString (sa_updatedAt row))) else None), s2).
Proof.
  intros Hb Hc. unfold updateAnnouncement. intros E. mok.
  match goal with Hg : getRow _ = _ |- _ => apply getRow_ok in Hg as (Hb1 & Hn & before & Hr & Hh); [|done] end. simplify_eq.
  destruct (z_announcements x0) as [|row0 rows] eqn:Ea; [done|]. injection Hh as ->. cbn [z_now]. unfold bannerOk in Hb1. rewrite Ea in Hb1.
  apply Forall_cons in Hb1 as [[Ht Ha] Hrows].
  assert (trim x1 = x1) as Hx by (destruct (ud_message dto); simplify_eq; [done|apply trim_trim]).
  assert (x5 = true -> x1 <> "") as Hne.
  { intros -> ->. destruct (ud_isActive dto) as [| |b]; simpl in H3; [|discriminate H3|]; injection H3 as H3; by rewrite H3 in H2. }
  assert (cacheUp (z_now x0) = true) as Hcx by (by rewrite Hn).
  lazymatch goal with |- bannerOk ?st /\ _ => set (s2 := st) end.
  assert (z_announcements s2 = mkAnnouncement (sa_id before) x1 x5 (Some actorId) (z_now x0) :: rows /\ z_bannerCache s2 = None) as [E1 E2].
  { unfold s2. cbn -[updId]. rewrite Hcx. cbn -[updId]. unfold updId. cbn [updFirst]. by rewrite bool_decide_true. }
  split; [unfold bannerOk; rewrite E1; by constructor|]. destruct (getPublic_fresh s2 _ _ E1 E2) as [s3 ->]. exists s3. unfold bannerOf. cbn [sa_isActive sa_message sa_updatedAt]. rewrite Hx.
  destruct x5; [|done]. by rewrite bool_decide_false by auto.
Qed.

End Banner.
