(* ===== verification/RetryPlan.v ===== *)
(** RetryPlan: what an automatic retry of a failed modpack leaves out.

    [modpacks/curseforge-retry-plan.ts]: the failure text of the game server is searched for mods that miss a
    dependency and for mods that failed, and the projects to skip next time are planned. *)

From S2P Require Import Prelude JsNum Store JsString Dto Variables Presets Discovery.
From Stdlib Require Import Ascii String Lia.

Local Open Scope Z_scope.

(** [CurseForgeProjectMeta] of [plugins/curseforge.provider.ts]. *)
Record ProjectMeta := mkMeta { mt_slug : string; mt_name : string; mt_requires : list Z; mt_filename : option string }.

(** A record of projects: its entries in the order of [Object.keys], ascending. *)
Abbreviation MetaTable := (list (Z * ProjectMeta)).

Definition metaOf (meta : MetaTable) (id : Z) : option ProjectMeta := snd <$> findFirst (fun e => fst e =? id) meta.

(** ** Text *)

(** One character of a UTF-8 text: its number of bytes. *)
Definition charLength (c : ascii) : nat :=
  if (code c <? 128)%N then 1 else if (code c <? 224)%N then 2 else if (code c <? 240)%N then 3 else 4.

(** The characters [.] does not match. *)
Definition lineEnds : list string := map bytes ([[10]; [13]; [226; 128; 168]; [226; 128; 169]])%N.
Definition atLineEnd (s : string) : bool := existsb (fun w => startsWith w s) lineEnds.

Definition SECTION : string := bytes [194; 167]%N.

(** [text.replace(/§./g, '')]; a character outside the basic plane goes whole. *)
Fixpoint stripFormattingF (fuel : nat) (s : string) : string :=
  match fuel, s with
  | S f, String c s' =>
    let rest := dropS 2 s in
    match rest with
    | String d _ => if startsWith SECTION s && negb (atLineEnd rest) then stripFormattingF f (dropS (charLength d) rest) else String c (stripFormattingF f s')
    | EmptyString => String c (stripFormattingF f s')
    end
  | _, _ => s
  end.
Definition stripFormatting (s : string) : string := stripFormattingF (String.length s) s.

Definition letterChar (c : ascii) : bool := ((97 <=? code c)%N && (code c <=? 122)%N).

Fixpoint keepAlnum (s : string) : string :=
  match s with
  | EmptyString => ""
  | String c s' => if letterChar c || isDigit c then String c (keepAlnum s') else keepAlnum s'
  end.

(** [[a-z0-9_.-]] under the [i] flag. *)
Definition idChar (c : ascii) : bool := letterChar (foldCase c) || isDigit c || Ascii.eqb c "_" || Ascii.eqb c "." || Ascii.eqb c "-".

Fixpoint spanId (s : string) : string * string :=
  match s with
  | EmptyString => ("", "")
  | String c s' => if idChar c then let '(v, rest) := spanId s' in (String c v, rest) else ("", s)
  end.

(** A literal under the [i] flag, given in lower case. *)
Definition literal (w s : string) : option string := if startsWith w (foldCaseS s) then Some (dropS (String.length w) s) else None.

(** [\s+]. *)
Definition spaces1 (s : string) : option string := let t := trimStart s in if t =s s then None else Some t.

(** [([a-z0-9_.-]+)]. *)
Definition id1 (s : string) : option (string * string) := let '(v, rest) := spanId s in if v =s "" then None else Some (v, rest).

(** [/Mod\s+([a-z0-9_.-]+)\s+requires\s+([a-z0-9_.-]+)/i] at the start of the text. *)
Definition missingAt (s : string) : option (string * string * string) :=
  s ← literal "mod" s;
  s ← spaces1 s;
  '(complaining, s) ← id1 s;
  s ← spaces1 s;
  s ← literal "requires" s;
  s ← spaces1 s;
  '(missing, s) ← id1 s;
  Some (complaining, missing, s).

(** [text.matchAll(MISSING_DEPENDENCY)]. *)
Fixpoint missingDependenciesF (fuel : nat) (s : string) : list (string * string) :=
  match fuel, s with
  | S f, String _ s' =>
    match missingAt s with
    | Some (complaining, missing, rest) => (complaining, missing) :: missingDependenciesF f rest
    | None => missingDependenciesF f s'
    end
  | _, _ => []
  end.
Definition missingDependencies (s : string) : list (string * string) := missingDependenciesF (String.length s) s.

(** [\S+]. *)
Fixpoint nonSpaceF (fuel : nat) (s : string) : string :=
  match fuel, s with
  | S f, String c s' => match spaceAt s with Some _ => s | None => nonSpaceF f s' end
  | _, _ => s
  end.
Definition nonSpace1 (s : string) : option string := let t := nonSpaceF (String.length s) s in if t =s s then None else Some t.

Definition failurePhrase (s : string) : bool :=
  bool_decide (is_Some (literal "has failed to load correctly" s)) ||
  bool_decide (is_Some (s ← literal "encountered an error during the " s; s ← nonSpace1 s; literal " event phase" s)).

(** [\s*\(([a-z0-9_.-]+)\)\s+(?:...)] at the start of the text. *)
Definition failedAt (s : string) : option string :=
  s ← literal "(" (trimStart s);
  '(modId, s) ← id1 s;
  s ← literal ")" s;
  s ← spaces1 s;
  if failurePhrase s then Some modId else None.

(** [(.*?)]: the shortest text in front. *)
Fixpoint failedFrom (fuel : nat) (name s : string) : option (string * string) :=
  match failedAt s with
  | Some modId => Some (name, modId)
  | None =>
    match fuel, s with
    | S f, String c s' => if atLineEnd s then None else failedFrom f (name +:+ String c "") s'
    | _, _ => None
    end
  end.

(** [MOD_FAILED.exec(line)]: the two groups. *)
Definition modFailed (line : string) : option (string * string) :=
  let s := trimStart line in failedFrom (String.length s) "" s.

Example missing_ex : missingDependencies "Mod colorwheel requires oculus 1.7.0 or above; MOD a.b  Requires c_d" = [("colorwheel", "oculus"); ("a.b", "c_d")].
Proof. vm_compute. reflexivity. Qed.

Example failed_ex :
  map modFailed ["  Sodium Extras (sodiumextras) has failed to load correctly";
                 "Distant Horizons (distanthorizons) encountered an error during the sided_setup event phase"; "Sodium (sodium) is fine"] =
  [Some ("Sodium Extras", "sodiumextras"); Some ("Distant Horizons", "distanthorizons"); None].
Proof. vm_compute. reflexivity. Qed.

(** ** The plan *)

Section Plan.
Context `{Platform} (meta : MetaTable).

Definition normalize (value : string) : string := keepAlnum (toLowerCase value).

Definition projectIds : list Z := map fst meta.

Definition has (x : Z) (set : list Z) : bool := existsb (Z.eqb x) set.
Definition addTo (set : list Z) (x : Z) : list Z := if has x set then set else set ++ [x].

Definition labelled (wanted : list string) (e : Z * ProjectMeta) : bool :=
  includes (normalize (mt_slug (snd e))) wanted || includes (normalize (mt_name (snd e))) wanted.

Definition fileOf (id : string) (e : Z * ProjectMeta) : bool :=
  match toLowerCase <$> mt_filename (snd e) with
  | None => false
  | Some file => startsWith id file && match dropS (String.length id) file with String c _ => negb (letterChar c) | EmptyString => true end
  end.

Definition lookupProject (modId : string) (displayName : option string) : option Z :=
  let labels := List.filter (fun l => negb (l =s "")) (modId :: match displayName with Some n => [n] | None => [] end) in
  let wanted := List.filter (fun l => negb (l =s "")) (map normalize labels) in
  match findFirst (labelled wanted) meta with
  | Some e => Some (fst e)
  | None => match List.filter (fileOf (toLowerCase modId)) meta with [e] => Some (fst e) | _ => None end
  end.

(** One reported missing dependency. *)
Definition missingStep (excluded newSkips : list Z) (m : string * string) : list Z :=
  match lookupProject (snd m) None with
  | None => newSkips
  | Some missingId =>
    if negb (has missingId excluded) then newSkips
    else match lookupProject (fst m) None with
         | None => newSkips
         | Some complainingId => if has complainingId excluded then newSkips else addTo newSkips complainingId
         end
  end.

(** The body of the [for] over the projects; the flag is [changed]. *)
Definition dependentStep (excluded : list Z) (acc : list Z * bool) (e : Z * ProjectMeta) : list Z * bool :=
  let '(newSkips, changed) := acc in
  if has (fst e) excluded || has (fst e) newSkips then acc
  else if existsb (fun dep => has dep newSkips) (mt_requires (snd e)) then (addTo newSkips (fst e), true) else acc.

Definition dependentPass (excluded newSkips : list Z) : list Z * bool := fold_left (dependentStep excluded) meta (newSkips, false).

(** The [while (changed)]. *)
Fixpoint dependents (fuel : nat) (excluded newSkips : list Z) : list Z :=
  match fuel with
  | O => newSkips
  | S f => let '(next, changed) := dependentPass excluded newSkips in if changed then dependents f excluded next else next
  end.

Definition candidateStep (excluded newSkips candidates : list Z) (line : string) : list Z :=
  match modFailed line with
  | None => candidates
  | Some (name, modId) =>
    match lookupProject modId (Some name) with
    | Some id => if negb (has id excluded) && negb (has id newSkips) then addTo candidates id else candidates
    | None => candidates
    end
  end.

Definition requiresOf (id : Z) : list Z := match metaOf meta id with Some m => mt_requires m | None => [] end.

Definition failedStep (kept newSkips : list Z) (id : Z) : list Z :=
  if existsb (fun keptId => has id (requiresOf keptId)) kept then newSkips else addTo newSkips id.

Definition newLine : ascii := ascii_of_N 10.

Definition reportedFailed (text : string) (excluded newSkips : list Z) : list Z :=
  fold_left (candidateStep excluded newSkips) (splitOn newLine text) [].

(** The sets the last loop starts from: the skips found so far, and the failed mods. *)
Definition missingSkips (errorMessage : string) (excluded : list Z) : list Z :=
  let found := fold_left (missingStep excluded) (missingDependencies (stripFormatting errorMessage)) [] in
  match found with [] => [] | _ => dependents (S (List.length meta)) excluded found end.

Definition planCurseForgeRetrySkips (errorMessage : string) (alreadySkipped : list Z) : list Z :=
  let text := stripFormatting errorMessage in
  let excluded := alreadySkipped in
  let newSkips := missingSkips errorMessage excluded in
  let candidates := reportedFailed text excluded newSkips in
  let kept := List.filter (fun id => negb (has id excluded) && negb (has id newSkips) && negb (has id candidates)) projectIds in
  fold_left (failedStep kept) candidates newSkips.

End Plan.
