(* ===== verification/RetryRules.v ===== *)
(** RetryRules: what a planned retry may leave out.

    The loop over dependents ends with a closed set, the plan only names projects of the pack that
    were not left out before, and no project that stays and did not fail itself loses a requirement. *)

From S2P Require Import Prelude JsNum Store JsString Dto Variables Presets Discovery RetryPlan.
From Stdlib Require Import Ascii String Lia.

Local Open Scope Z_scope.

Lemma has_elem x set : has x set = true <-> x ∈ set.
Proof. unfold has. rewrite existsb_exists. setoid_rewrite Z.eqb_eq. setoid_rewrite <- list_elem_of_In. naive_solver. Qed.

Lemma has_false x set : has x set = false <-> x ∉ set.
Proof. by rewrite <- not_true_iff_false, has_elem. Qed.

Lemma addTo_elem set x y : y ∈ addTo set x <-> y ∈ set \/ y = x.
Proof.
  unfold addTo. destruct (has x set) eqn:E; [apply has_elem in E; naive_solver|]. by rewrite elem_of_app, list_elem_of_singleton.
Qed.

Lemma addTo_NoDup set x : NoDup set -> NoDup (addTo set x).
Proof.
  intros Hn. unfold addTo. destruct (has x set) eqn:E; [done|]. apply has_false in E. apply NoDup_app. split_and!; [done| |apply NoDup_singleton].
  by intros y Hy ->%list_elem_of_singleton.
Qed.

Section Rules.
Context `{Platform} (meta : MetaTable).

(** A set of projects the rest of the pack, less those left out before, does not require. *)
Definition closedUnder (excluded set : list Z) : Prop :=
  forall e dep, e ∈ meta -> fst e ∉ excluded -> fst e ∉ set -> dep ∈ mt_requires (snd e) -> dep ∉ set.

(** One pass over the projects in [l]: what it adds, and that it adds nothing only when the set is closed. *)
Lemma pass_spec excluded l n c n' c' : (forall e, e ∈ l -> e ∈ meta) -> fold_left (dependentStep excluded) l (n, c) = (n', c') ->
  (forall x, x ∈ n -> x ∈ n') /\ (forall x, x ∈ n' -> x ∈ n \/ (x ∈ projectIds meta /\ ~ x ∈ excluded)) /\ (NoDup n -> NoDup n') /\
  (c = true -> c' = true) /\
  (c' = false -> n' = n /\ forall e dep, e ∈ l -> fst e ∉ excluded -> fst e ∉ n -> dep ∈ mt_requires (snd e) -> dep ∉ n) /\
  (c = false -> c' = true -> exists x, x ∈ n' /\ ~ x ∈ n /\ x ∈ projectIds meta).
Proof.
  revert n c. induction l as [|e l IH]; intros n c Hl; cbn [fold_left].
  { intros [= <- <-]. split_and!; try done; try (by left; fail).
    - intros x Hx. by left.
    - intros _. split; [done|]. by intros e dep ?%not_elem_of_nil.
    - congruence. }
  assert (forall x, x ∈ l -> x ∈ meta) as Hl' by (intros x Hx; apply Hl; by right). assert (e ∈ meta) as He by (apply Hl; by left).
  assert (fst e ∈ projectIds meta) as Hid by (apply list_elem_of_In, in_map; by apply list_elem_of_In).
  unfold dependentStep at 2. destruct (has (fst e) excluded || has (fst e) n) eqn:Eb.
  - intros Hf. destruct (IH n c Hl' Hf) as (I1 & I2 & I3 & I4 & I5 & I6). split_and!; try done. intros Hc. destruct (I5 Hc) as [En Hcl]. split; [done|].
    intros x dep Hx Hxe Hxn. apply elem_of_cons in Hx as [->|Hx]; [|by apply Hcl]. apply orb_true_iff in Eb as [?%has_elem|?%has_elem]; done.
  - apply orb_false_iff in Eb as [Ee%has_false En%has_false]. destruct (existsb _ _) eqn:Ed.
    + intros Hf. destruct (IH (addTo n (fst e)) true Hl' Hf) as (I1 & I2 & I3 & I4 & I5 & I6). assert (c' = true) as -> by auto.
      split_and!; try done.
      * intros x Hx. apply I1, addTo_elem. by left.
      * intros x [[?| ->]%addTo_elem|?]%I2; auto.
      * intros Hn. by apply I3, addTo_NoDup.
      * intros _ _. exists (fst e). split_and!; [|done|done]. apply I1, addTo_elem. by right.
    + intros Hf. destruct (IH n c Hl' Hf) as (I1 & I2 & I3 & I4 & I5 & I6). split_and!; try done. intros Hc. destruct (I5 Hc) as [Enn Hcl]. split; [done|].
      intros x dep Hx Hxe Hxn Hdep. apply elem_of_cons in Hx as [->|Hx]; [|by eapply Hcl]. intros Hin. eapply eq_true_false_abs, Ed.
      apply existsb_exists. exists dep. split; [by apply list_elem_of_In|by apply has_elem].
Qed.

(** The projects not in a set yet. *)
Definition missing (n : list Z) : nat := List.length (List.filter (fun e => negb (has (fst e) n)) meta).

Lemma missing_lt n n' : (forall x, x ∈ n -> x ∈ n') -> (exists x, x ∈ n' /\ ~ x ∈ n /\ x ∈ projectIds meta) -> (missing n' < missing n)%nat.
Proof.
  intros Hsub (x & Hx' & Hx & Hm). unfold missing. apply list_elem_of_In, in_map_iff in Hm as (e & <- & He).
  assert (forall l : MetaTable, (List.length (List.filter (fun e => negb (has (fst e) n')) l) <= List.length (List.filter (fun e => negb (has (fst e) n)) l))%nat) as Hle.
  { intros l. induction l as [|y l IH]; simpl; [done|]. destruct (has (fst y) n) eqn:E1.
    - apply has_elem, Hsub, has_elem in E1. by rewrite E1.
    - destruct (has (fst y) n'); simpl; lia. }
  apply in_split in He as (l1 & l2 & ->). rewrite !List.filter_app, !length_app. simpl.
  rewrite (proj2 (has_elem (fst e) n') Hx'), (proj2 (has_false (fst e) n) Hx). simpl. pose proof (Hle l1). pose proof (Hle l2). lia.
Qed.

(** The [while] ends: a pass more than there are projects is never needed, and the set is then closed. *)
Lemma dependents_spec excluded fuel n : (missing n < fuel)%nat -> NoDup n -> (forall x, x ∈ n -> x ∈ projectIds meta /\ ~ x ∈ excluded) ->
  let r := dependents meta fuel excluded n in
  closedUnder excluded r /\ NoDup r /\ (forall x, x ∈ n -> x ∈ r) /\ forall x, x ∈ r -> x ∈ projectIds meta /\ ~ x ∈ excluded.
Proof.
  revert n. induction fuel as [|f IH]; intros n Hm Hn Hin; [lia|]. cbn [dependents]. unfold dependentPass.
  destruct (fold_left _ meta (n, false)) as [n' c'] eqn:E. destruct (pass_spec excluded meta n false n' c' (fun _ h => h) E) as (P1 & P2 & P3 & _ & P5 & P6).
  assert (forall x, x ∈ n' -> x ∈ projectIds meta /\ ~ x ∈ excluded) as Hin' by (intros x [?%Hin|?]%P2; done). destruct c'.
  - destruct (IH n') as (R1 & R2 & R3 & R4); [|by apply P3|done|].
    + pose proof (missing_lt n n' P1 (P6 eq_refl eq_refl)). lia.
    + split_and!; try done. intros x Hx. by apply R3, P1.
  - destruct (P5 eq_refl) as [-> Hcl]. split_and!; done.
Qed.

Lemma lookupProject_project modId name id : lookupProject meta modId name = Some id -> id ∈ projectIds meta.
Proof.
  unfold lookupProject, projectIds. intros Hl. apply list_elem_of_In, in_map_iff. destruct (findFirst _ meta) as [e|] eqn:E.
  - injection Hl as <-. apply findFirst_some in E as [He _]. exists e. split; [done|by apply list_elem_of_In].
  - destruct (List.filter _ meta) as [|e [|]] eqn:Ef; try done. injection Hl as <-. exists e. split; [done|].
    eapply proj1, filter_In. rewrite Ef. by left.
Qed.

(** A loop whose body keeps a set of projects of the pack that were not left out before. *)
Definition fresh (excluded set : list Z) : Prop := NoDup set /\ forall x, x ∈ set -> x ∈ projectIds meta /\ ~ x ∈ excluded.

Lemma fresh_nil excluded : fresh excluded [].
Proof. split; [apply NoDup_nil_2|]. by intros x ?%not_elem_of_nil. Qed.

Lemma fresh_addTo excluded set x : fresh excluded set -> x ∈ projectIds meta -> ~ x ∈ excluded -> fresh excluded (addTo set x).
Proof. intros [Hn Hs] Hx He. split; [by apply addTo_NoDup|]. by intros y [?%Hs| ->]%addTo_elem. Qed.

Lemma fresh_fold {A} excluded (f : list Z -> A -> list Z) l set : (forall set x, fresh excluded set -> fresh excluded (f set x)) ->
  fresh excluded set -> fresh excluded (fold_left f l set).
Proof. intros Hf. revert set. induction l as [|x l IH]; intros set Hs; [done|]. by apply IH, Hf. Qed.

Lemma missingStep_fresh excluded set m : fresh excluded set -> fresh excluded (missingStep meta excluded set m).
Proof.
  intros Hs. unfold missingStep. destruct (lookupProject meta (snd m) None); [|done]. destruct (negb _); [done|].
  destruct (lookupProject meta (fst m) None) as [c|] eqn:Ec; [|done]. destruct (has c excluded) eqn:Eh; [done|]. apply has_false in Eh.
  apply fresh_addTo; [done|by eapply lookupProject_project|done].
Qed.

Lemma missing_le set : (missing set < S (List.length meta))%nat.
Proof. unfold missing. pose proof (List.filter_length_le (fun e : Z * ProjectMeta => negb (has (fst e) set)) meta). lia. Qed.

(** The projects left out for a missing dependency: the set is closed, whatever was reported. *)
Lemma missingSkips_spec msg excluded : fresh excluded (missingSkips meta msg excluded) /\ closedUnder excluded (missingSkips meta msg excluded).
Proof.
  unfold missingSkips. set (found := fold_left _ _ _). assert (fresh excluded found) as Hf.
  { apply fresh_fold; [apply missingStep_fresh|apply fresh_nil]. }
  destruct found as [|x found'] eqn:E; [split; [done|]; by intros e dep _ _ _ _ ?%not_elem_of_nil|]. rewrite <- E in *. clear E.
  destruct Hf as [Hn Hin]. destruct (dependents_spec excluded _ found (missing_le found) Hn Hin) as (R1 & R2 & _ & R4). done.
Qed.

Lemma candidateStep_fresh excluded newSkips set line : fresh excluded set -> fresh excluded (candidateStep meta excluded newSkips set line).
Proof.
  intros Hs. unfold candidateStep. destruct (modFailed line) as [[name modId]|]; [|done].
  destruct (lookupProject meta modId (Some name)) as [x|] eqn:El; [|done]. destruct (has x excluded) eqn:Eh; [done|]. apply has_false in Eh. simpl.
  destruct (negb _); [|done]. apply fresh_addTo; [done|by eapply lookupProject_project|done].
Qed.

Lemma reportedFailed_fresh text excluded newSkips : fresh excluded (reportedFailed meta text excluded newSkips).
Proof. apply fresh_fold; [intros; by apply candidateStep_fresh|apply fresh_nil]. Qed.

(** The last loop adds exactly the failed mods no kept project requires. *)
Lemma failed_exact kept candidates set x : x ∈ fold_left (failedStep meta kept) candidates set <->
  x ∈ set \/ (x ∈ candidates /\ forall k, k ∈ kept -> ~ x ∈ requiresOf meta k).
Proof.
  revert set. induction candidates as [|c l IH]; intros set; cbn [fold_left]; [rewrite elem_of_nil; naive_solver|]. rewrite IH, elem_of_cons.
  unfold failedStep. destruct (existsb _ kept) eqn:E.
  - apply existsb_exists in E as (k & Hk%list_elem_of_In & Hc%has_elem). naive_solver.
  - rewrite addTo_elem. assert (forall k, k ∈ kept -> ~ c ∈ requiresOf meta k) as Hno; [|naive_solver]. intros k Hk Hc.
    eapply eq_true_false_abs, E. apply existsb_exists. exists k. split; [by apply list_elem_of_In|by apply has_elem].
Qed.

Lemma requiresOf_entry e : NoDup (projectIds meta) -> e ∈ meta -> requiresOf meta (fst e) = mt_requires (snd e).
Proof.
  unfold requiresOf, metaOf, projectIds. induction meta as [|y l IH]; [by intros _ ?%not_elem_of_nil|]. simpl.
  intros [Hy Hn]%NoDup_cons He. unfold findFirst in *. simpl. destruct (Z.eqb_spec (fst y) (fst e)) as [Ey|Ne].
  - apply elem_of_cons in He as [->|He]; [done|]. destruct Hy. rewrite Ey. apply list_elem_of_In, in_map. by apply list_elem_of_In.
  - apply elem_of_cons in He as [->|He]; [done|]. by apply IH.
Qed.

(** The projects of the pack that stay and did not fail themselves. *)
Definition staysSound (msg : string) (excluded : list Z) (id : Z) : Prop :=
  id ∈ projectIds meta /\ ~ id ∈ excluded /\ ~ id ∈ planCurseForgeRetrySkips meta msg excluded /\
  ~ id ∈ reportedFailed meta (stripFormatting msg) excluded (missingSkips meta msg excluded).

(** A retry leaves out projects of the pack, none twice and none already left out: an automatic retry
    with a non-empty plan always makes progress. *)
Theorem plan_fresh msg excluded : fresh excluded (planCurseForgeRetrySkips meta msg excluded).
Proof.
  unfold planCurseForgeRetrySkips. set (c := reportedFailed _ _ _ _).
  assert (forall x, x ∈ c -> x ∈ projectIds meta /\ ~ x ∈ excluded) as Hc by (apply reportedFailed_fresh). revert Hc.
  generalize (proj1 (missingSkips_spec msg excluded)). set (kept := List.filter _ _). clearbody kept. clearbody c. generalize (missingSkips meta msg excluded).
  induction c as [|x l IH]; intros n Hn Hc; [done|]. cbn [fold_left]. apply IH; [|intros y Hy; apply Hc; by right].
  unfold failedStep. destruct (existsb _ _); [done|]. destruct (Hc x) as [? ?]; [by left|]. by apply fresh_addTo.
Qed.

(** No project that stays and did not fail itself loses a project it requires. *)
Theorem plan_keeps_requirements msg excluded e dep : NoDup (projectIds meta) -> e ∈ meta -> staysSound msg excluded (fst e) ->
  dep ∈ mt_requires (snd e) -> ~ dep ∈ planCurseForgeRetrySkips meta msg excluded.
Proof.
  intros Hn He (Hp & Hx & Hs & Hf) Hd Hr. unfold planCurseForgeRetrySkips in Hs, Hr. rewrite failed_exact in Hs, Hr.
  assert (~ fst e ∈ missingSkips meta msg excluded) as Hm by naive_solver. destruct Hr as [Hr|[Hc Hk]].
  - by eapply (proj2 (missingSkips_spec msg excluded)).
  - eapply (Hk (fst e)); [|by rewrite requiresOf_entry]. apply list_elem_of_In, filter_In. split; [by apply list_elem_of_In|].
    by rewrite (proj2 (has_false _ _) Hx), (proj2 (has_false _ _) Hm), (proj2 (has_false _ _) Hf).
Qed.

End Rules.

(** ** Witnesses *)

Module DemoPack.

#[local] Instance platform : Platform :=
  {| uuidv7 n := "id-" +:+ pretty n; randomRef n := "ref-" +:+ pretty n; randomBytes8 n := [Z.of_N n];
     collate a b := leOf String.compare a b; toLowerCase := foldCaseS |}.

(** A world generator requires an addon, which requires a library; a shader and its companion. *)
Definition pack : MetaTable :=
  [(1, mkMeta "addon" "Addon" [2] (Some "addon-1.0.jar")); (2, mkMeta "library" "Library" [] (Some "library-2.jar"));
   (3, mkMeta "generator" "Generator" [1] None); (4, mkMeta "oculus" "Oculus" [] None); (5, mkMeta "color-wheel" "Colorwheel" [4] None);
   (6, mkMeta "patcher" "Patcher" [5] (Some "colorpatch-1.jar")); (7, mkMeta "map" "Map" [] None)].

Definition lines (l : list string) : string := String.concat (String newLine "") l.

(** The companion of a mod left out goes, with what requires it. *)
Example companions_go : planCurseForgeRetrySkips pack "Mod colorwheel requires oculus 1.7.0 or above" [4] = [5; 6].
Proof. vm_compute. reflexivity. Qed.

(** A failed mod a sound one requires stays. *)
Example cascade_victim_stays :
  planCurseForgeRetrySkips pack (lines ["Addon (addon) has failed to load correctly"; "Map (map) has failed to load correctly"]) [] = [7].
Proof. vm_compute. reflexivity. Qed.

Lemma plan_keeps_requirements_witness :
  ~ 1 ∈ planCurseForgeRetrySkips pack (lines ["Addon (addon) has failed to load correctly"; "Map (map) has failed to load correctly"]) [].
Proof.
  eapply (plan_keeps_requirements pack _ [] (3, mkMeta "generator" "Generator" [1] None) 1).
  - apply (bool_decide_unpack _). vm_compute. exact I.
  - do 2 right. by left.
  - repeat split; apply (bool_decide_unpack _); vm_compute; exact I.
  - apply (bool_decide_unpack _). vm_compute. exact I.
Defined.

(** The comment of the plan says that a failed mod is left out only if no project that stays requires it.
    The projects asked are those that did not fail: the addon stays, since the generator requires it,
    and the library it requires goes. *)
Theorem requirement_of_kept_mod_skipped :
  let msg := lines ["Addon (addon) has failed to load correctly"; "Library (library) has failed to load correctly"] in
  planCurseForgeRetrySkips pack msg [] = [2] /\ 2 ∈ requiresOf pack 1.
Proof. vm_compute. split; [reflexivity|by left]. Qed.

End DemoPack.
