(* ===== verification/Catalogues.v ===== *)
(** Catalogues: the two modpack catalogues the API consults for a customer.

    [modpacks/modrinth.provider.ts], [plugins/curseforge.provider.ts] and the cache in front of them
    ([modpacks/modpack-cache.service.ts]): projects, versions, and the files a CurseForge manifest names. *)

From S2P Require Import Prelude JsNum Store JsString Dto Variables Presets Discovery RetryPlan.
From Stdlib Require Import Ascii String Lia.

Local Open Scope Z_scope.

(** ** Answers of the catalogues *)

Record CurseForgeMod := mkMod {
  cm_id : Z; cm_slug : option string; cm_name : string; cm_summary : option string; cm_downloadCount : option Z;
  cm_dateModified : option string; cm_dateCreated : option string; cm_websiteUrl : option string;
  cm_logoThumbnail : option string; cm_logoUrl : option string; cm_authors : list (option string);
  cm_categories : list (option string * option string); cm_indexes : list (option string * option Z);
  cm_screenshots : list (option string * option string); cm_classId : option Z }.

Record CurseForgeFile := mkFile {
  cf_id : Z; cf_modId : Z; cf_displayName : option string; cf_fileName : string; cf_downloadUrl : option string; cf_isServerPack : bool;
  cf_releaseType : Z; cf_fileDate : string; cf_fileLength : Z; cf_downloadCount : option Z; cf_gameVersions : list string;
  cf_hashes : list (string * Z); cf_dependencies : list (Z * Z) }.

Record ModrinthProject := mkMrProject {
  rp_id : string; rp_slug : option string; rp_title : string; rp_description : string; rp_body : string; rp_categories : list string;
  rp_additional : list string; rp_gameVersions : list string; rp_loaders : list string; rp_downloads : Z; rp_iconUrl : option string;
  rp_published : string; rp_updated : string; rp_team : string; rp_gallery : list string }.

Record PackFile := mkPackFile {
  pk_filename : string; pk_size : Z; pk_primary : bool; pk_url : string; pk_sha1 : option string; pk_sha512 : option string;
  pk_distributable : option bool; pk_distributionMessage : option string }.

Record ModrinthVersion := mkMrVersion {
  rv_id : string; rv_projectId : string; rv_name : string; rv_versionNumber : string; rv_gameVersions : list string; rv_loaders : list string;
  rv_versionType : string; rv_published : string; rv_downloads : Z; rv_files : list PackFile }.

Inductive ModpackSource := modrinth | curseforge.
#[export] Instance ModpackSource_eq : EqDecision ModpackSource.
Proof. solve_decision. Defined.

(** [ModpackProject]. *)
Record ModpackProject := mkPackProject {
  pj_source : ModpackSource; pj_projectId : string; pj_slug : string; pj_name : string; pj_author : option string; pj_icon : option string;
  pj_description : string; pj_downloads : Z; pj_categories : list string; pj_minecraftVersions : list string; pj_loaders : list string;
  pj_updatedAt : string; pj_body : string; pj_gallery : list string; pj_pageUrl : string; pj_publishedAt : string }.

(** [ModpackVersion]. *)
Record ModpackVersion := mkPackVersion {
  pv_source : ModpackSource; pv_versionId : string; pv_projectId : string; pv_name : string; pv_versionNumber : string;
  pv_minecraftVersions : list string; pv_loaders : list string; pv_releaseType : string; pv_publishedAt : string; pv_downloads : Z;
  pv_files : list PackFile }.

(** A request to a catalogue; the path and the body are determined by it. *)
Inductive CatCall :=
  | CfMod (projectId : string)
  | CfFileOf (projectId versionId : string)
  | CfFiles (fileIds : list Z)
  | CfMods (modIds : list Z)
  | MrProject (projectId : string)
  | MrTeam (team : string)
  | MrVersion (versionId : string).

(** What [fetch] and [response.json()] give; a rejection of either is [NoReply]. *)
Inductive Reply (A : Type) := NoReply | Answer (status : Z) (body : A).
Arguments NoReply {A}.
Arguments Answer {A} status body.

(** The catalogues, given every request sent so far, this one last: the answers, the finite number of
    seconds of an [x-ratelimit-reset] header, and how long they take. *)
Class CatalogueWorld := {
  modReply : list CatCall -> Reply CurseForgeMod;
  fileReply : list CatCall -> Reply CurseForgeFile;
  filesReply : list CatCall -> Reply (list CurseForgeFile);
  modsReply : list CatCall -> Reply (list CurseForgeMod);
  projectReply : list CatCall -> Reply ModrinthProject;
  teamReply : list CatCall -> Reply (list (string * string));
  versionReply : list CatCall -> Reply ModrinthVersion;
  rateReset : list CatCall -> option Z;
  catElapsed : list CatCall -> N }.

(** A parsed address, the WHATWG [URL] of the runtime: the parts the code reads, and the rest. *)
Record Url := mkUrl { url_protocol : string; url_username : string; url_password : string; url_hostname : string; url_rest : string }.

Class WebUrl := { parseUrl : string -> option Url; urlToString : Url -> string }.

(** The serialisation of a parsed address parses to the same address, and is not empty. *)
Class WebUrlLaws `{WebUrl} := {
  parse_toString raw u : parseUrl raw = Some u -> parseUrl (urlToString u) = Some u;
  toString_nonempty raw u : parseUrl raw = Some u -> urlToString u <> "" }.

(** ** State: the cache, the requests sent, the clock

    An entry of the cache is under its namespace and its identity; the digest of the identity stands for it. *)
Abbreviation CacheKey := (list string).

Record Shelf := mkShelf {
  h_apiKey : bool; h_projects : list (CacheKey * (ModpackProject * Z)); h_versions : list (CacheKey * (ModpackVersion * Z));
  h_http : list CatCall; h_now : Z }.

#[export] Instance Shelf_settable : Settable Shelf := fun s => mkShelf (h_apiKey s) (h_projects s) (h_versions s) (h_http s) (h_now s).

Abbreviation MH := (M Shelf).

(** A value that has not expired. *)
Definition cacheGet {A} (key : CacheKey) (now : Z) (cache : list (CacheKey * (A * Z))) : option A :=
  match findFirst (fun e => bool_decide (fst e = key) && (now <? snd (snd e))) cache with Some e => Some (fst (snd e)) | None => None end.

Definition cachePut {A} (key : CacheKey) (v : A) (expires : Z) (cache : list (CacheKey * (A * Z))) : list (CacheKey * (A * Z)) :=
  (key, (v, expires)) :: List.filter (fun e => negb (bool_decide (fst e = key))) cache.

(** [ModpackCacheService.remember]. *)
Definition remember {A} (get : Shelf -> list (CacheKey * (A * Z))) (put : list (CacheKey * (A * Z)) -> Shelf -> Shelf)
    (namespace : string) (identity : list string) (ttlSeconds : Z) (load : MH A) : MH A :=
  let key := namespace :: identity in
  cached ← gets (fun s => cacheGet key (h_now s) (get s));
  match cached with
  | Some v => mret v
  | None =>
    value ← load;
    modify (fun s => put (cachePut key value (h_now s + ttlSeconds * 1000) (get s)) s) ;;
    mret value
  end.

Definition rememberProject := remember h_projects (fun c s => s <| h_projects := c |>).
Definition rememberVersion := remember h_versions (fun c s => s <| h_versions := c |>).

Definition PROJECT_TTL_SECONDS : Z := 15 * 60.
Definition VERSION_TTL_SECONDS : Z := 5 * 60.

(** ** Requests *)

(** [ModpackProviderError]: an [HttpException], by default of status 502. *)
Definition providerError (message : string) (status : Z) : exn := Http message status.
Definition BAD_GATEWAY : Z := 502.

Definition pause (ms : Z) : MH unit := modify (fun s => s <| h_now := h_now s + ms |>).

Section Catalogues.
Context `{Platform} `{CatalogueWorld} `{WebUrl}.

Definition fetchOnce {A} (answer : list CatCall -> Reply A) (call : CatCall) : MH (Reply A) := fun s =>
  let sent := h_http s ++ [call] in
  (Ok (answer sent), s <| h_http := sent |> <| h_now := h_now s + Z.of_N (catElapsed sent) |>).

Definition CF_UNAVAILABLE : exn := providerError "Não foi possível consultar o CurseForge agora." BAD_GATEWAY.

(** One pass of the [for] over the attempts: an answer, or [None] for [continue]. *)
Definition cfAttempt {A} (first : bool) (answer : list CatCall -> Reply A) (call : CatCall) : MH (option A) :=
  r ← fetchOnce answer call;
  match r with
  | NoReply => if first then pause 250 ;; mret None else throw CF_UNAVAILABLE
  | Answer status body =>
    if (200 <=? status) && (status <? 300) then mret (Some body)
    else if status =? 404 then throw (providerError "Modpack não encontrado no CurseForge." 404)
    else if ((status =? 429) || (500 <=? status)) && first then pause 250 ;; mret None
    else if status =? 429 then throw (providerError "O CurseForge atingiu o limite de consultas. Tente novamente em instantes." 429)
    else throw CF_UNAVAILABLE
  end.

(** [CurseForgeProvider.request]. *)
Definition cfRequest {A} (answer : list CatCall -> Reply A) (call : CatCall) : MH A :=
  apiKey ← gets h_apiKey;
  throwIf (negb apiKey) (providerError "O catálogo do CurseForge ainda não foi configurado pelo administrador." 503) ;;
  a ← cfAttempt true answer call;
  match a with
  | Some body => mret body
  | None =>
    b ← cfAttempt false answer call;
    match b with Some body => mret body | None => throw CF_UNAVAILABLE end
  end.

Definition MR_UNAVAILABLE : exn := providerError "Não foi possível consultar o Modrinth agora." BAD_GATEWAY.

(** [retryDelay] of the first attempt. *)
Definition retryDelay (reset : option Z) : Z :=
  match reset with Some r => if 0 <? r then Z.min (r * 1000) 1000 else 150 | None => 150 end.

Definition mrPause : MH unit := sent ← gets h_http; pause (retryDelay (rateReset sent)).

Definition mrAttempt {A} (first : bool) (answer : list CatCall -> Reply A) (call : CatCall) : MH (option A) :=
  r ← fetchOnce answer call;
  match r with
  | NoReply => if first then pause 150 ;; mret None else throw MR_UNAVAILABLE
  | Answer status body =>
    if (200 <=? status) && (status <? 300) then mret (Some body)
    else if status =? 404 then throw (providerError "Modpack não encontrado." 404)
    else if status =? 429 then
      if first then mrPause ;; mret None
      else throw (providerError "O Modrinth atingiu o limite de consultas. Tente novamente em instantes." 429)
    else if (500 <=? status) && first then mrPause ;; mret None
    else throw (providerError "O Modrinth está temporariamente indisponível." BAD_GATEWAY)
  end.

(** [ModrinthProvider.request]. *)
Definition mrRequest {A} (answer : list CatCall -> Reply A) (call : CatCall) : MH A :=
  a ← mrAttempt true answer call;
  match a with
  | Some body => mret body
  | None =>
    b ← mrAttempt false answer call;
    match b with Some body => mret body | None => throw MR_UNAVAILABLE end
  end.

(** ** Modrinth *)

Definition MODPACK_LOADERS : list string := ["fabric"; "forge"; "neoforge"; "quilt"].
Definition PLUGIN_LOADERS : list string := ["paper"; "purpur"; "spigot"; "bukkit"; "velocity"; "bungeecord"; "waterfall"].
Definition ALL_LOADERS : list string := MODPACK_LOADERS ++ PLUGIN_LOADERS.

(** [[...new Set(l)]]. *)
Definition uniq (l : list string) : list string := fold_left (fun acc x => if includes x acc then acc else acc ++ [x]) l [].

Definition isLoader (category : string) : bool := includes (toLowerCase category) ALL_LOADERS.

Definition contentCategories (categories : list string) : list string := uniq (List.filter (fun c => negb (isLoader c)) categories).

Definition ownerOf (members : list (string * string)) : option string :=
  match findFirst (fun m => toLowerCase (fst m) =s "owner") members with
  | Some m => Some (snd m)
  | None => snd <$> head members
  end.

(** The team's owner; only a rate limit makes the project fail. *)
Definition authorOf (team : string) : MH (option string) :=
  tryCatch (members ← mrRequest teamReply (MrTeam team); mret (ownerOf members))
    (fun e => match e with Http _ 429 => throw e | _ => mret None end).

Definition projectPage (projectType : string) (p : ModrinthProject) : string :=
  "https://modrinth.com/" +:+ projectType +:+ "/" +:+ default (rp_id p) (rp_slug p).

Definition mrProjectView (projectType : string) (p : ModrinthProject) (author : option string) : ModpackProject :=
  mkPackProject modrinth (rp_id p) (default (rp_id p) (rp_slug p)) (rp_title p) author (rp_iconUrl p) (rp_description p) (rp_downloads p)
    (contentCategories (rp_categories p ++ rp_additional p)) (rp_gameVersions p) (List.filter isLoader (rp_loaders p)) (rp_updated p)
    (rp_body p) (rp_gallery p) (projectPage projectType p) (rp_published p).

(** [getProjectType]. *)
Definition mrGetProject (projectType projectId : string) : MH ModpackProject :=
  rememberProject ("modrinth:" +:+ projectType +:+ ":project") [projectId] PROJECT_TTL_SECONDS (
    project ← mrRequest projectReply (MrProject projectId);
    author ← authorOf (rp_team project);
    mret (mrProjectView projectType project author)).

Definition mrNormalizeVersion (row : ModrinthVersion) : ModpackVersion :=
  mkPackVersion modrinth (rv_id row) (rv_projectId row) (rv_name row) (rv_versionNumber row) (rv_gameVersions row)
    (List.filter isLoader (rv_loaders row)) (rv_versionType row) (rv_published row) (rv_downloads row)
    (map (fun f => mkPackFile (pk_filename f) (pk_size f) (pk_primary f) (pk_url f) (pk_sha1 f) (pk_sha512 f) None None) (rv_files row)).

Definition mrGetVersion (versionId : string) : MH ModpackVersion :=
  rememberVersion "modrinth:version" [versionId] VERSION_TTL_SECONDS (
    row ← mrRequest versionReply (MrVersion versionId);
    mret (mrNormalizeVersion row)).

(** ** CurseForge *)

Definition CLIENT_ONLY_CLASS_IDS : list Z := [12; 6552].
Definition ALLOWED_CDN_HOSTS : list string := ["edge.forgecdn.net"; "mediafilez.forgecdn.net"].
Definition LOADER_TYPES : list string := ["forge"; "fabric"; "quilt"; "neoforge"].
Definition LOADER_NAMES (type : Z) : option string :=
  match type with 1 => Some "forge" | 4 => Some "fabric" | 5 => Some "quilt" | 6 => Some "neoforge" | _ => None end.
Definition REQUIRED_DEPENDENCY : Z := 3.
Definition EPOCH : string := "1970-01-01T00:00:00.000Z".

(** [.filter(Boolean)] over texts. *)
Definition present (l : list (option string)) : list string := List.filter (fun s => negb (s =s "")) (omap id l).

Definition orElseS (a b : option string) : option string := match a with Some x => Some x | None => b end.

Definition hostAllowed (hosts : list string) (u : Url) : bool := (url_protocol u =s "https:") && includes (url_hostname u) hosts.

(** [assertAllowedCdnUrl]. *)
Definition assertAllowedCdnUrl (raw : string) : Res string :=
  match parseUrl raw with
  | None => Throw (providerError "O CurseForge retornou um link de download inválido." 422)
  | Some u =>
    if hostAllowed ALLOWED_CDN_HOSTS u && (url_username u =s "") && (url_password u =s "") then Ok (urlToString u)
    else Throw (providerError "O CurseForge retornou um link de download fora do CDN permitido." 422)
  end.

Definition allowedCdnUrlOrEmpty (raw : option string) : string :=
  match raw with
  | None => ""
  | Some raw => if raw =s "" then "" else match assertAllowedCdnUrl raw with Ok url => url | Throw _ => "" end
  end.

Fixpoint dropDigits (s : string) : string :=
  match s with EmptyString => "" | String c s' => if isDigit c then dropDigits s' else s end.

(** [\d+] *)
Definition someDigits (s : string) : option string := let t := dropDigits s in if t =s s then None else Some t.

(** [/^1\.\d+(\.\d+)?(?:-pre\d+)?$/i]. *)
Definition minecraftRelease (s : string) : bool :=
  match (s ← literal "1." s; someDigits s) with
  | None => false
  | Some s =>
    let s := default s (s ← literal "." s; someDigits s) in
    let s := default s (s ← literal "-pre" s; someDigits s) in
    s =s ""
  end.

Definition sha1Of (hashes : list (string * Z)) : option string := fst <$> findFirst (fun h => snd h =? 1) hashes.

Definition cfNormalizeVersion (file : CurseForgeFile) (projectId : string) : ModpackVersion :=
  let url := allowedCdnUrlOrEmpty (cf_downloadUrl file) in
  let name := default (cf_fileName file) (cf_displayName file) in
  mkPackVersion curseforge (pretty (cf_id file)) projectId name name
    (List.filter minecraftRelease (cf_gameVersions file))
    (List.filter (fun v => includes v LOADER_TYPES) (map toLowerCase (cf_gameVersions file)))
    (if cf_releaseType file =? 1 then "release" else if cf_releaseType file =? 2 then "beta" else "alpha")
    (cf_fileDate file) (default 0 (cf_downloadCount file))
    [mkPackFile (cf_fileName file) (cf_fileLength file) true url
       (match sha1Of (cf_hashes file) with Some s => if s =s "" then None else Some s | None => None end) None (Some (negb (url =s "")))
       (if url =s "" then Some "O autor desta versão não permite download por aplicativos de terceiros." else None)].

Definition cfProjectView (md : CurseForgeMod) : ModpackProject :=
  let idText := pretty (cm_id md) in
  mkPackProject curseforge idText (default idText (cm_slug md)) (cm_name md) (head (present (cm_authors md)))
    (orElseS (cm_logoThumbnail md) (cm_logoUrl md)) (default "" (cm_summary md)) (default 0 (cm_downloadCount md))
    (present (map (fun c => orElseS (snd c) (fst c)) (cm_categories md)))
    (uniq (present (map fst (cm_indexes md))))
    (uniq (omap (fun i => snd i ≫= LOADER_NAMES) (cm_indexes md)))
    (default EPOCH (cm_dateModified md)) (default "" (cm_summary md))
    (present (map (fun s => orElseS (snd s) (fst s)) (cm_screenshots md)))
    (default ("https://www.curseforge.com/minecraft/modpacks/" +:+ default idText (cm_slug md)) (cm_websiteUrl md))
    (default EPOCH (orElseS (cm_dateCreated md) (cm_dateModified md))).

Definition cfGetProject (projectId : string) : MH ModpackProject :=
  rememberProject "curseforge:modpacks:project" [projectId] PROJECT_TTL_SECONDS (
    md ← cfRequest modReply (CfMod projectId);
    mret (cfProjectView md)).

(** [getVersion]. *)
Definition cfGetVersion (versionId projectId : string) : MH ModpackVersion :=
  throwIf (projectId =s "") (providerError "O modpack da versão não foi informado." 400) ;;
  rememberVersion "curseforge:modpacks:version" [projectId; versionId] VERSION_TTL_SECONDS (
    file ← cfRequest fileReply (CfFileOf projectId versionId);
    throwIf (negb (pretty (cf_modId file) =s projectId)) (providerError "Versão do modpack não encontrada." 404) ;;
    mret (cfNormalizeVersion file projectId)).

(** ** The files a manifest names *)

(** [CurseForgeFileRequest]. *)
Record FileRequest := mkFileRequest { fr_projectId : Z; fr_fileId : Z }.

(** [CurseForgeResolvedFile]; the pair of [manual] is its name and its page. *)
Record ResolvedFile := mkResolvedFile {
  rf_projectId : Z; rf_fileId : Z; rf_filename : string; rf_size : Z; rf_url : string; rf_sha1 : string; rf_skip : bool;
  rf_manual : option (string * string) }.

#[export] Instance ResolvedFile_settable : Settable ResolvedFile := fun f =>
  mkResolvedFile (rf_projectId f) (rf_fileId f) (rf_filename f) (rf_size f) (rf_url f) (rf_sha1 f) (rf_skip f) (rf_manual f).

(** [Map.set]: a key keeps the place of its first insertion. *)
Definition putEntry {A} (l : list (Z * A)) (e : Z * A) : list (Z * A) :=
  if existsb (fun x => fst x =? fst e) l then map (fun x => if fst x =? fst e then e else x) l else l ++ [e].
Definition toMap {A} (l : list (Z * A)) : list (Z * A) := fold_left putEntry l [].
Definition getEntry {A} (key : Z) (l : list (Z * A)) : option A := snd <$> findFirst (fun e => fst e =? key) l.

(** [record[key] = value] with an integer key: the keys of a record come in ascending order. *)
Fixpoint putRecord {A} (key : Z) (v : A) (l : list (Z * A)) : list (Z * A) :=
  match l with
  | [] => [(key, v)]
  | e :: l' => if key <? fst e then (key, v) :: l else if key =? fst e then (key, v) :: l' else e :: putRecord key v l'
  end.

Definition isClientOnlyFile (file : CurseForgeFile) : bool :=
  let tags := map toLowerCase (cf_gameVersions file) in includes "client" tags && negb (includes "server" tags).

Definition clientOnlyClass (md : option CurseForgeMod) : bool :=
  match md ≫= cm_classId with Some c => has c CLIENT_ONLY_CLASS_IDS | None => false end.

(** [text.replace(/\/$/, '')]. *)
Definition dropSlash (s : string) : string := if endsWith "/" s then String.substring 0 (String.length s - 1) s else s.

Definition CANNOT_VALIDATE : exn := providerError "Um arquivo declarado pelo modpack não pôde ser validado no CurseForge." 422.

Definition manualOf (md : option CurseForgeMod) (file : CurseForgeFile) : string * string :=
  let page := default ("https://www.curseforge.com/minecraft/mc-mods/" +:+ default (pretty (cf_modId file)) (md ≫= cm_slug)) (md ≫= cm_websiteUrl) in
  (default (default (cf_fileName file) (cf_displayName file)) (cm_name <$> md), dropSlash page +:+ "/files/" +:+ pretty (cf_id file)).

(** The body of the first loop: one file of the manifest. *)
Definition resolveOne (files : list (Z * CurseForgeFile)) (mods : list (Z * CurseForgeMod)) (requested : FileRequest) : Res ResolvedFile :=
  match getEntry (fr_fileId requested) files with
  | None => Throw CANNOT_VALIDATE
  | Some file =>
    if negb (cf_modId file =? fr_projectId requested) then Throw CANNOT_VALIDATE
    else
      let md := getEntry (cf_modId file) mods in
      let skipped := mkResolvedFile (fr_projectId requested) (fr_fileId requested) (cf_fileName file) (cf_fileLength file) "" "" true in
      let download := default "" (cf_downloadUrl file) in
      let sha1 := default "" (sha1Of (cf_hashes file)) in
      if clientOnlyClass md || isClientOnlyFile file then Ok (skipped None)
      else if download =s "" then Ok (skipped (Some (manualOf md file)))
      else if (sha1 =s "") || (cf_fileName file =s "") || (cf_fileLength file <=? 0) then
        Throw (providerError ("O arquivo " +:+ (if cf_fileName file =s "" then pretty (cf_id file) else cf_fileName file) +:+
          " não possui os dados necessários para uma instalação segura.") 422)
      else
        url ← assertAllowedCdnUrl download;
        Ok (mkResolvedFile (fr_projectId requested) (fr_fileId requested) (cf_fileName file) (cf_fileLength file) url sha1 false None)
  end.

Fixpoint resolveAll (files : list (Z * CurseForgeFile)) (mods : list (Z * CurseForgeMod)) (l : list FileRequest) : Res (list ResolvedFile) :=
  match l with
  | [] => Ok []
  | r :: l' => f ← resolveOne files mods r; fs ← resolveAll files mods l'; Ok (f :: fs)
  end.

(** The required dependencies of a file, within the manifest. *)
Definition requiredOf (inManifest : list Z) (file : CurseForgeFile) : list Z :=
  map fst (List.filter (fun d => (snd d =? REQUIRED_DEPENDENCY) && negb (fst d =? cf_modId file) && has (fst d) inManifest) (cf_dependencies file)).

(** The body of the second loop. *)
Definition metaStep (files : list (Z * CurseForgeFile)) (mods : list (Z * CurseForgeMod)) (inManifest : list Z)
    (meta : MetaTable) (requested : FileRequest) : MetaTable :=
  match getEntry (fr_fileId requested) files with
  | None => meta
  | Some file =>
    let md := getEntry (cf_modId file) mods in
    let existing := match getEntry (cf_modId file) meta with Some m => mt_requires m | None => [] end in
    putRecord (cf_modId file)
      (mkMeta (default (pretty (cf_modId file)) (md ≫= cm_slug)) (default (default (cf_fileName file) (cf_displayName file)) (cm_name <$> md))
         (fold_left addTo (existing ++ requiredOf inManifest file) []) (Some (cf_fileName file))) meta
  end.

(** One pass of [cascadeClientOnlySkips] over the files. *)
Fixpoint cascadePass (meta : MetaTable) (files : list ResolvedFile) (clientOnly : list Z) : list ResolvedFile * list Z * bool :=
  match files with
  | [] => ([], clientOnly, false)
  | file :: rest =>
    if rf_skip file then
      let '(rest', co, changed) := cascadePass meta rest clientOnly in (file :: rest', co, changed)
    else if existsb (fun dep => has dep clientOnly) (requiresOf meta (rf_projectId file)) then
      let '(rest', co, _) := cascadePass meta rest (addTo clientOnly (rf_projectId file)) in
      (file <| rf_skip := true |> <| rf_url := "" |> <| rf_sha1 := "" |> :: rest', co, true)
    else
      let '(rest', co, changed) := cascadePass meta rest clientOnly in (file :: rest', co, changed)
  end.

Fixpoint cascadeLoop (fuel : nat) (meta : MetaTable) (files : list ResolvedFile) (clientOnly : list Z) : list ResolvedFile :=
  match fuel with
  | O => files
  | S f => let '(files', co, changed) := cascadePass meta files clientOnly in if changed then cascadeLoop f meta files' co else files'
  end.

Definition clientOnlyOf (files : list ResolvedFile) : list Z :=
  fold_left addTo (map rf_projectId (List.filter (fun f => rf_skip f && negb (bool_decide (is_Some (rf_manual f)))) files)) [].

Definition cascadeClientOnlySkips (files : list ResolvedFile) (meta : MetaTable) : list ResolvedFile :=
  cascadeLoop (S (List.length files)) meta files (clientOnlyOf files).

(** [Promise.all] of two calls: both run, the first failure is the outcome. *)
Definition allOf2 {S A B} (m : M S A) (n : M S B) : M S (A * B) := fun s =>
  let (r1, s1) := m s in
  let (r2, s2) := n s1 in
  (match r1, r2 with Ok a, Ok b => Ok (a, b) | Throw e, _ => Throw e | _, Throw e => Throw e end, s2).

Definition resolveFiles (requests : list FileRequest) : MH (list ResolvedFile * list (Z * string) * MetaTable) :=
  match requests with
  | [] => mret ([], [], [])
  | _ =>
    let distinct := map snd (toMap (map (fun r => (fr_fileId r, r)) requests)) in
    throwIf (1000 <? Z.of_nat (List.length distinct)) (providerError "O modpack declara arquivos demais para uma instalação segura." 422) ;;
    '(fileData, modData) ← allOf2 (cfRequest filesReply (CfFiles (map fr_fileId distinct)))
                                  (cfRequest modsReply (CfMods (fold_left addTo (map fr_projectId distinct) [])));
    let files := toMap (map (fun f => (cf_id f, f)) fileData) in
    let mods := toMap (map (fun m => (cm_id m, m)) modData) in
    resolved ← lift (resolveAll files mods distinct);
    let meta := fold_left (metaStep files mods (map fr_projectId distinct)) distinct [] in
    let slugs := fold_left (fun l m => putRecord (cm_id m) (default (pretty (cm_id m)) (cm_slug m)) l) modData [] in
    mret (cascadeClientOnlySkips resolved meta, slugs, meta)
  end.

End Catalogues.
