(* ===== verification/CatalogueRules.v ===== *)
(** CatalogueRules: what the catalogues hand to an installation.

    The files left out with a client-only mod are exactly its dependents, and every address that leaves
    the CurseForge catalogue is on its content network. *)

From S2P Require Import Prelude JsNum Store JsString Dto Variables Presets Discovery RetryPlan RetryRules Catalogues.
From Stdlib Require Import Ascii String Lia.

Local Open Scope Z_scope.

(** ** The cascade *)

Definition marked (f : ResolvedFile) : ResolvedFile := f <| rf_skip := true |> <| rf_url := "" |> <| rf_sha1 := "" |>.

Section Cascade.
Context (meta : MetaTable).

Definition needs (f : ResolvedFile) (P : Z -> Prop) : Prop := exists dep, dep ∈ requiresOf meta (rf_projectId f) /\ P dep.

(** The projects that cannot load on a server: those left out as client-only, and what requires one of them. *)
Inductive doomed (files : list ResolvedFile) : Z -> Prop :=
  | doomed_client x : x ∈ clientOnlyOf files -> doomed files x
  | doomed_dependent f dep : f ∈ files -> rf_skip f = false -> dep ∈ requiresOf meta (rf_projectId f) -> doomed files dep ->
      doomed files (rf_projectId f).

(** A file and what the cascade made of it. *)
Definition cascaded (co : list Z) (f g : ResolvedFile) : Prop :=
  g = f \/ rf_skip f = false /\ g = marked f /\ rf_projectId f ∈ co /\ needs f (fun d => d ∈ co).

Definition open (files : list ResolvedFile) : nat := List.length (List.filter (fun f => negb (rf_skip f)) files).

Lemma needs_dec f co : existsb (fun dep => has dep co) (requiresOf meta (rf_projectId f)) = true <-> needs f (fun d => d ∈ co).
Proof. unfold needs. rewrite existsb_exists. setoid_rewrite has_elem. by setoid_rewrite list_elem_of_In. Qed.

Lemma cascaded_mono co co' f g : (forall x, x ∈ co -> x ∈ co') -> cascaded co f g -> cascaded co' f g.
Proof. intros Hs [->|(? & ? & ? & d & ? & ?)]; [by left|]. right. split_and!; auto. exists d. auto. Qed.

(** One pass, for every property of projects that is closed under requiring. *)
Lemma cascadePass_spec files co files' co' ch : cascadePass meta files co = (files', co', ch) ->
  (forall x, x ∈ co -> x ∈ co') /\ Forall2 (cascaded co') files files' /\
  (forall P : Z -> Prop, (forall x, x ∈ co -> P x) -> (forall f, f ∈ files -> rf_skip f = false -> needs f P -> P (rf_projectId f)) -> forall x, x ∈ co' -> P x) /\
  (ch = false -> files' = files /\ co' = co /\ forall f, f ∈ files -> rf_skip f = false -> ~ needs f (fun d => d ∈ co)) /\
  (open files' <= open files)%nat /\ (ch = true -> open files' < open files)%nat.
Proof.
  revert co files' co' ch. induction files as [|f files IH]; intros co files' co' ch; cbn [cascadePass].
  { intros [= <- <- <-]. split_and!; try done; try (by auto). intros _. split_and!; try done. by intros f ?%not_elem_of_nil. }
  destruct (rf_skip f) eqn:Es; [|destruct (existsb _ _) eqn:En].
  - destruct (cascadePass meta files co) as [[rest c1] c2] eqn:E. intros [= <- <- <-]. destruct (IH _ _ _ _ E) as (I1 & I2 & I3 & I4 & I5 & I6).
    unfold open in *. simpl. rewrite Es. simpl. split_and!; try done; [constructor; [by left|done]| |].
    + intros P Hb Hc. apply I3; [done|]. intros g Hg. apply Hc. by right.
    + intros Hch. destruct (I4 Hch) as (-> & -> & Hn). split_and!; try done. intros g [->|Hg]%elem_of_cons Hs; [congruence|by apply Hn].
  - apply needs_dec in En. destruct (cascadePass meta files (addTo co (rf_projectId f))) as [[rest c1] c2] eqn:E. intros [= <- <- <-].
    destruct (IH _ _ _ _ E) as (I1 & I2 & I3 & I4 & I5 & I6). assert (forall x, x ∈ co -> x ∈ c1) as Hs by (intros x Hx; apply I1, addTo_elem; by left).
    unfold open in *. simpl. rewrite Es. simpl. split_and!; try done; try lia.
    + constructor; [|done]. right. destruct En as (d & Hd & Hc). split_and!; [done|done|apply I1, addTo_elem; by right|]. exists d. auto.
    + intros P Hb Hc. apply I3; [|intros g Hg; apply Hc; by right]. intros x [Hx| ->]%addTo_elem; [auto|].
      apply Hc; [by left|done|]. destruct En as (d & Hd & Hdc). exists d. auto.
  - apply not_true_iff_false in En. rewrite needs_dec in En. destruct (cascadePass meta files co) as [[rest c1] c2] eqn:E. intros [= <- <- <-].
    destruct (IH _ _ _ _ E) as (I1 & I2 & I3 & I4 & I5 & I6). unfold open in *. simpl. rewrite Es. simpl. split_and!; try done; try lia.
    + constructor; [by left|done].
    + intros P Hb Hc. apply I3; [done|]. intros g Hg. apply Hc. by right.
    + intros Hch. destruct (I4 Hch) as (-> & -> & Hn). split_and!; try done. intros g [->|Hg]%elem_of_cons Hs; [done|by apply Hn].
    + intros Hch. pose proof (I6 Hch). lia.
Qed.

Lemma cascaded_project co f g : cascaded co f g -> rf_projectId g = rf_projectId f.
Proof. by intros [->|(_ & -> & _)]. Qed.

Lemma cascaded_trans co f g h : cascaded co f g -> cascaded co g h -> cascaded co f h.
Proof.
  intros Hfg [->|(Hs & -> & Hc & Hn)]; [done|]. destruct Hfg as [->|(_ & -> & _)]; [|done]. right. done.
Qed.

Lemma Forall2_cascaded_trans co l1 l2 l3 : Forall2 (cascaded co) l1 l2 -> Forall2 (cascaded co) l2 l3 -> Forall2 (cascaded co) l1 l3.
Proof.
  intros H12. revert l3. induction H12 as [|f g l1 l2 Hf _ IH]; intros l3 H23; inversion H23; subst; [done|]. constructor; [by eapply cascaded_trans|auto].
Qed.

(** The unskipped files after a pass were unskipped before it. *)
Lemma cascaded_closed co files files' (P : Z -> Prop) : Forall2 (cascaded co) files files' ->
  (forall f, f ∈ files -> rf_skip f = false -> needs f P -> P (rf_projectId f)) -> forall g, g ∈ files' -> rf_skip g = false -> needs g P -> P (rf_projectId g).
Proof.
  intros HF Hc g Hg Hs. apply list_elem_of_lookup in Hg as [i Hi]. destruct (Forall2_lookup_r _ _ _ _ _ HF Hi) as (f & Hf & [->|(_ & -> & _)]); [|done].
  apply Hc; [by eapply list_elem_of_lookup_2|done].
Qed.

(** The [while] ends with a set [co] closed under requiring. *)
Lemma cascadeLoop_spec fuel files co : (open files < fuel)%nat -> exists co',
  (forall x, x ∈ co -> x ∈ co') /\ Forall2 (cascaded co') files (cascadeLoop fuel meta files co) /\
  (forall P : Z -> Prop, (forall x, x ∈ co -> P x) -> (forall f, f ∈ files -> rf_skip f = false -> needs f P -> P (rf_projectId f)) -> forall x, x ∈ co' -> P x) /\
  (forall g, g ∈ cascadeLoop fuel meta files co -> rf_skip g = false -> ~ needs g (fun d => d ∈ co')).
Proof.
  revert files co. induction fuel as [|fuel IH]; intros files co Hf; [lia|]. cbn [cascadeLoop].
  destruct (cascadePass meta files co) as [[files' c1] ch] eqn:E. destruct (cascadePass_spec _ _ _ _ _ E) as (P1 & P2 & P3 & P4 & P5 & P6). destruct ch.
  - destruct (IH files' c1) as (co' & Q1 & Q2 & Q3 & Q4); [pose proof (P6 eq_refl); lia|]. exists co'. split_and!; auto.
    + eapply Forall2_cascaded_trans; [|done]. eapply Forall2_impl; [done|]. intros f g. by apply cascaded_mono.
    + intros P Hb Hc. apply Q3; [by apply P3|]. by eapply cascaded_closed.
  - destruct (P4 eq_refl) as (-> & -> & Hn). exists co. split_and!; done.
Qed.

Lemma open_le files : (open files < S (List.length files))%nat.
Proof. pose proof (List.filter_length_le (fun f => negb (rf_skip f)) files). unfold open. lia. Qed.

(** Each file is kept or marked. *)
Lemma cascade_marks files : Forall2 (fun f g => g = f \/ g = marked f) files (cascadeClientOnlySkips files meta).
Proof.
  unfold cascadeClientOnlySkips. destruct (cascadeLoop_spec _ files (clientOnlyOf files) (open_le files)) as (co & _ & Q & _).
  eapply Forall2_impl; [done|]. intros f g [->|(_ & -> & _)]; auto.
Qed.

Definition cascadeRef (files : list ResolvedFile) (f g : ResolvedFile) : Prop :=
  rf_skip f = false /\ needs f (doomed files) /\ g = marked f \/ ~ (rf_skip f = false /\ needs f (doomed files)) /\ g = f.

(** The cascade ends and leaves out exactly the dependents of client-only files: a file is marked as left
    out, its address and hash cleared, if and only if it was not left out and requires, directly or through
    other files of the manifest, a project left out as client-only; every other file is unchanged. *)
Theorem cascade_exact files : Forall2 (cascadeRef files) files (cascadeClientOnlySkips files meta).
Proof.
  unfold cascadeClientOnlySkips. destruct (cascadeLoop_spec _ files (clientOnlyOf files) (open_le files)) as (co & Q1 & Q2 & Q3 & Q4).
  assert (forall x, x ∈ co -> doomed files x) as Hd.
  { apply Q3; [by constructor|]. intros f Hf Hs (d & ? & ?). by eapply doomed_dependent. }
  assert (forall x, doomed files x -> x ∈ co) as Hc.
  { induction 1 as [x Hx|f d Hf Hs Hr _ IH]; [auto|]. apply list_elem_of_lookup in Hf as [i Hi].
    destruct (Forall2_lookup_l _ _ _ _ _ Q2 Hi) as (g & Hg & [->|(_ & _ & ? & _)]); [|done]. apply list_elem_of_lookup_2 in Hg. destruct (Q4 _ Hg Hs). by exists d. }
  apply Forall2_same_length_lookup. split; [by eapply Forall2_length|]. intros i f g Hf Hg.
  pose proof (Forall2_lookup_lr _ _ _ _ _ _ Q2 Hf Hg) as [->|(Hs & -> & _ & d & Hr & Hdc)].
  - right. split; [|done]. intros [Hs (d & Hr & Hdd)]. apply list_elem_of_lookup_2 in Hg. destruct (Q4 _ Hg Hs). exists d. auto.
  - left. split_and!; try done. exists d. auto.
Qed.

End Cascade.

(** ** Addresses *)

Section Addresses.
Context `{Platform} `{CatalogueWorld} `{WebUrlLaws}.

Definition trustedUrl (hosts : list string) (url : string) : Prop := exists u, parseUrl url = Some u /\ hostAllowed hosts u = true.

Lemma assertAllowed_trusted raw url : assertAllowedCdnUrl raw = Ok url -> trustedUrl ALLOWED_CDN_HOSTS url.
Proof.
  unfold assertAllowedCdnUrl. destruct (parseUrl raw) as [u|] eqn:E; [|done]. destruct (hostAllowed _ u) eqn:Eh; simpl; [|done].
  destruct (_ && _); [|done]. intros [= <-]. exists u. split; [by eapply parse_toString|done].
Qed.

Definition urlsTrusted (v : ModpackVersion) : Prop := forall f, f ∈ pv_files v -> pk_url f = "" \/ trustedUrl ALLOWED_CDN_HOSTS (pk_url f).

Lemma cfNormalize_trusted file projectId : urlsTrusted (cfNormalizeVersion file projectId).
Proof.
  intros f ->%list_elem_of_singleton. simpl. unfold allowedCdnUrlOrEmpty. destruct (cf_downloadUrl file) as [raw|]; [|by left].
  destruct (raw =s ""); [by left|]. destruct (assertAllowedCdnUrl raw) eqn:E; [|by left]. right. by eapply assertAllowed_trusted.
Qed.

(** The CurseForge versions in the cache. *)
Definition cacheTrusted (h : Shelf) : Prop :=
  forall e, e ∈ h_versions h -> head (fst e) = Some "curseforge:modpacks:version" -> urlsTrusted (fst (snd e)).

Definition safeShelf (h h' : Shelf) : Prop := cacheTrusted h -> cacheTrusted h'.
#[export] Instance safeShelf_pre : PreOrder safeShelf.
Proof. split; [by intros h Hh|]. intros h1 h2 h3 H12 H23 Hh. auto. Qed.

Lemma safe_same h h' : h_versions h' = h_versions h -> safeShelf h h'.
Proof. unfold safeShelf, cacheTrusted. by intros ->. Qed.

Lemma safe_fetch {A} (answer : list CatCall -> Reply A) call : keeps safeShelf (fetchOnce answer call).
Proof. intros h r h' [= _ <-]. by apply safe_same. Qed.

Lemma safe_pause ms : keeps safeShelf (pause ms).
Proof. intros h r h' [= _ <-]. by apply safe_same. Qed.
#[local] Hint Resolve safe_fetch safe_pause : keeps.

Lemma safe_cfRequest {A} (answer : list CatCall -> Reply A) call : keeps safeShelf (cfRequest answer call).
Proof. unfold cfRequest, cfAttempt. keeps_auto. Qed.

Lemma safe_mrRequest {A} (answer : list CatCall -> Reply A) call : keeps safeShelf (mrRequest answer call).
Proof. unfold mrRequest, mrAttempt, mrPause. keeps_auto. Qed.
#[local] Hint Resolve safe_cfRequest safe_mrRequest : keeps.

Lemma cacheGet_elem {A} key now (cache : list (CacheKey * (A * Z))) v : cacheGet key now cache = Some v -> exists x, (key, (v, x)) ∈ cache.
Proof.
  unfold cacheGet. destruct (findFirst _ cache) as [[k [w x]]|] eqn:E; [|done]. intros [= <-]. apply findFirst_some in E as [He Hk].
  apply andb_true_iff in Hk as [Hk _]. apply bool_decide_eq_true in Hk. simpl in Hk. subst k. eauto.
Qed.

(** A remembered version of CurseForge: its loader decides. *)
Lemma safe_rememberVersion namespace identity ttl load :
  keeps safeShelf load -> (namespace = "curseforge:modpacks:version" -> forall h v h', load h = (Ok v, h') -> urlsTrusted v) ->
  keeps safeShelf (rememberVersion namespace identity ttl load) /\
  (namespace = "curseforge:modpacks:version" -> forall h v h', cacheTrusted h -> rememberVersion namespace identity ttl load h = (Ok v, h') -> urlsTrusted v).
Proof.
  intros Hl Hv. unfold rememberVersion, remember. split.
  - intros h r h' E. unfold mbind, M_bind, gets in E. destruct (cacheGet _ _ _); [injection E as _ <-; done|].
    destruct (load h) as [[v|e] h1] eqn:El; [|injection E as _ <-; by eapply Hl]. injection E as _ <-. intros Hh. apply (Hl _ _ _ El) in Hh.
    intros e He Hn. apply elem_of_cons in He as [->|He]; [simpl in *; apply Hv in El; [done|congruence]|].
    apply (Hh e); [|done]. apply list_elem_of_In, filter_In in He as [He _]. by apply list_elem_of_In.
  - intros Hn h v h' Hh E. unfold mbind, M_bind, gets in E. destruct (cacheGet _ _ _) as [w|] eqn:Ec.
    + injection E as <- <-. apply cacheGet_elem in Ec as [x Hx]. apply (Hh _ Hx). simpl. congruence.
    + destruct (load h) as [[w|e] h1] eqn:El; [|done]. injection E as <- <-. by eapply Hv.
Qed.

Lemma cfGetVersion_trusted versionId projectId : keeps safeShelf (cfGetVersion versionId projectId) /\
  forall h v h', cacheTrusted h -> cfGetVersion versionId projectId h = (Ok v, h') -> urlsTrusted v.
Proof.
  unfold cfGetVersion. set (load := cfRequest _ _ ≫= _).
  destruct (safe_rememberVersion "curseforge:modpacks:version" [projectId; versionId] VERSION_TTL_SECONDS load) as [H1' H2'].
  - unfold load. keeps_auto.
  - intros _ h v h' E. unfold load in E. mok. subst v. apply cfNormalize_trusted.
  - split; [keeps_auto|]. intros h v h' Hh E. mok. eauto.
Qed.

Lemma safe_mrGetVersion versionId : keeps safeShelf (mrGetVersion versionId).
Proof. unfold mrGetVersion. eapply proj1, safe_rememberVersion; [keeps_auto|done]. Qed.

Lemma safe_rememberProject namespace identity ttl load : keeps safeShelf load -> keeps safeShelf (rememberProject namespace identity ttl load).
Proof. intros Hl. unfold rememberProject, remember. keeps_auto. intros h r h' [= _ <-]. by apply safe_same. Qed.

Lemma safe_projects projectId : keeps safeShelf (cfGetProject projectId) /\ forall type, keeps safeShelf (mrGetProject type projectId).
Proof.
  split; [|intros type]; apply safe_rememberProject; [keeps_auto|]. unfold authorOf. keeps_auto.
  all: destruct e; keeps_auto.
Qed.

(** ** The files of a manifest *)

Lemma resolveOne_trusted files mods r f : resolveOne files mods r = Ok f -> rf_projectId f = fr_projectId r /\ rf_fileId f = fr_fileId r /\
  (rf_skip f = false -> trustedUrl ALLOWED_CDN_HOSTS (rf_url f) /\ rf_sha1 f <> "" /\ 0 < rf_size f /\ rf_manual f = None).
Proof.
  unfold resolveOne. destruct (getEntry _ files) as [file|]; [|done]. destruct (negb _); [done|]. destruct (_ || isClientOnlyFile file); [by intros [= <-]|].
  destruct (default "" (cf_downloadUrl file) =s ""); [by intros [= <-]|]. destruct (_ || (cf_fileLength file <=? 0)) eqn:Eb; [done|].
  apply orb_false_iff in Eb as [[Es%bool_decide_eq_false _]%orb_false_iff Hl%Z.leb_gt].
  unfold mbind, Res_bind. destruct (assertAllowedCdnUrl _) eqn:E; [|done]. intros [= <-]. split_and!; try done. intros _. split_and!; try done.
  by eapply assertAllowed_trusted.
Qed.

Lemma resolveAll_elem files mods l fs : resolveAll files mods l = Ok fs -> Forall2 (fun r f => resolveOne files mods r = Ok f) l fs.
Proof.
  revert fs. induction l as [|r l IH]; intros fs; cbn [resolveAll]; [by intros [= <-]|]. unfold mbind, Res_bind.
  destruct (resolveOne files mods r) eqn:E; [|done]. destruct (resolveAll files mods l); [|done]. intros [= <-]. constructor; auto.
Qed.

Lemma toMap_elem {A} (l : list (Z * A)) e : e ∈ toMap l -> e ∈ l.
Proof.
  unfold toMap. assert (forall acc, e ∈ fold_left putEntry l acc -> e ∈ acc \/ e ∈ l) as Ha; [|by intros [?%not_elem_of_nil|?]%Ha].
  induction l as [|x l IH]; intros acc; cbn [fold_left]; [by left|]. intros [Hx|Hx]%IH; [|by right; right]. unfold putEntry in Hx. destruct (existsb _ acc).
  - apply list_elem_of_In, in_map_iff in Hx as (y & <- & Hy). destruct (fst y =? fst x); [right; by left|left; by apply list_elem_of_In].
  - apply elem_of_app in Hx as [?|?]; [by left|]. right. apply list_elem_of_singleton in H3 as ->. by left.
Qed.

Lemma safe_allOf2 {A B} (m : MH A) (n : MH B) : keeps safeShelf m -> keeps safeShelf n -> keeps safeShelf (allOf2 m n).
Proof.
  intros Hm Hn h r h' E. unfold allOf2 in E. destruct (m h) as [r1 h1] eqn:E1, (n h1) as [r2 h2] eqn:E2. injection E as _ <-. intros Hh.
  eapply Hn; [done|]. by eapply Hm.
Qed.

Lemma safe_resolveFiles requests : keeps safeShelf (resolveFiles requests).
Proof.
  unfold resolveFiles. destruct requests; [keeps_auto|]. cbv zeta. apply (keeps_bind _); [keeps_auto|intros _].
  apply (keeps_bind _); [apply safe_allOf2; apply safe_cfRequest|]. intros [fileData modData]. keeps_auto.
Qed.

(** Every file the catalogue lets an agent download was asked for, is on the content network, and has a hash. *)
Lemma resolveFiles_trusted requests h files slugs meta h' : resolveFiles requests h = (Ok (files, slugs, meta), h') -> forall f, f ∈ files ->
  mkFileRequest (rf_projectId f) (rf_fileId f) ∈ requests /\
  (rf_skip f = false -> trustedUrl ALLOWED_CDN_HOSTS (rf_url f) /\ rf_sha1 f <> "" /\ 0 < rf_size f).
Proof.
  unfold resolveFiles. destruct requests as [|r0 requests0] eqn:Er; [intros [= <- <- <- <-] f ?%not_elem_of_nil; done|]. rewrite <- Er. clear Er.
  set (distinct := map snd _). intros E. mok.
  match goal with p : (list CurseForgeFile * list CurseForgeMod)%type |- _ => destruct p as [fileData modData] end. mok.
  match goal with Hr : resolveAll _ _ _ = Ok _ |- _ => rename Hr into Ea end. simplify_eq.
  intros f Hf. apply list_elem_of_lookup in Hf as [i Hi]. destruct (Forall2_lookup_r _ _ _ _ _ (cascade_marks _ _) Hi) as (g & Hg & Hm).
  apply resolveAll_elem in Ea. destruct (Forall2_lookup_r _ _ _ _ _ Ea Hg) as (r & Hr & (R1 & R2 & R3)%resolveOne_trusted).
  assert (r ∈ requests) as Hin.
  { apply list_elem_of_lookup_2 in Hr. unfold distinct in Hr. apply list_elem_of_In, in_map_iff in Hr as ([k r'] & <- & Hk). apply list_elem_of_In, toMap_elem in Hk.
    apply list_elem_of_In, in_map_iff in Hk as (r'' & [= <- <-] & Hk). by apply list_elem_of_In. }
  destruct Hm as [->| ->]; simpl; rewrite R1, R2; (split; [by destruct r|]); [|done]. intros Hs. destruct (R3 Hs) as (? & ? & ? & _). done.
Qed.

End Addresses.
