(* ===== verification/Modpacks.v ===== *)
(** Modpacks: installing a modpack on a server.

    [modpacks/modpacks.service.ts]: the installation a customer asks for, the reports of the agent that
    carries it out, the automatic retries of a CurseForge pack, the files the agent asks for, and the removal.
    An access check has been made by [Access.resolve] when an operation begins; its result is an argument. *)

From S2P Require Import Prelude JsNum Capacity Store Scheduler Subscriptions JsString Accounts Sessions Access Dto Variables Setup Presets Discovery RetryPlan Catalogues.
From S2P Require Import Controls.
From Stdlib Require Import Ascii String Lia.

Local Open Scope Z_scope.

(** ** State *)

Inductive PackStatus :=
  | pk_pending | pk_downloading | pk_installing | pk_configuring | pk_rolling_back | pk_completed | pk_failed | pk_uninstalled.
#[export] Instance PackStatus_eq : EqDecision PackStatus.
Proof. solve_decision. Defined.

(** A restricted file the customer adds by hand. *)
Record ManualFile := mkManual { mf_name : string; mf_filename : string; mf_pageUrl : string }.

(** The table [modpack_installations]. *)
Record Installation := mkInstallation {
  mi_id : string; mi_serverId : string; mi_requestedBy : string; mi_source : ModpackSource; mi_projectId : string; mi_versionId : string;
  mi_projectName : string; mi_versionName : string; mi_minecraftVersion : string; mi_loader : string; mi_status : PackStatus;
  mi_progress : Z; mi_message : option string; mi_backupId : option string; mi_errorMessage : option string;
  mi_manualFiles : option (list ManualFile); mi_extraSkip : option (list Z); mi_skipped : option (list Z);
  mi_fileSlugs : option (list (Z * string)); mi_projectMeta : option MetaTable; mi_retryCount : Z; mi_retriedFromId : option string;
  mi_createdAt : Z; mi_updatedAt : Z; mi_completedAt : option Z }.

#[export] Instance Installation_settable : Settable Installation := fun r =>
  mkInstallation (mi_id r) (mi_serverId r) (mi_requestedBy r) (mi_source r) (mi_projectId r) (mi_versionId r)
    (mi_projectName r) (mi_versionName r) (mi_minecraftVersion r) (mi_loader r) (mi_status r) (mi_progress r) (mi_message r) (mi_backupId r)
    (mi_errorMessage r) (mi_manualFiles r) (mi_extraSkip r) (mi_skipped r) (mi_fileSlugs r) (mi_projectMeta r) (mi_retryCount r)
    (mi_retriedFromId r) (mi_createdAt r) (mi_updatedAt r) (mi_completedAt r).
#[export] Instance Installation_row : Row Installation := mi_id.

(** The requests to the agents this service makes. *)
Inductive PackRequest :=
  | AskStatus
  | InstallPack (source : ModpackSource) (operationId : string) (file : PackFile) (diskLimitMb : Z)
  | RestoreSnapshot (backupId : string)
  | ListDirectory (dir : string).

Record PackCall := mkPackCall { pc_nodeId : string; pc_serverId : string; pc_request : PackRequest }.

(** What the agents answer, given every request sent so far, this one last; the entries of a directory
    are names with the mark of a directory. *)
Class PackAgents := {
  stateAnswer : list PackCall -> Res string;
  dispatchAnswer : list PackCall -> Res unit;
  snapshotAnswer : list PackCall -> Res unit;
  entriesAnswer : list PackCall -> Res (list (string * bool));
  packElapsed : list PackCall -> N }.

Record PackLog := mkPackLog { pl_action : string; pl_actorId : string; pl_serverId : string; pl_names : list string }.

Record Packs := mkPacks {
  k_servers : list Server; k_rows : list Installation; k_shelf : Shelf; k_calls : list PackCall; k_log : list PackLog; k_next : N }.

#[export] Instance Packs_settable : Settable Packs := fun s =>
  mkPacks (k_servers s) (k_rows s) (k_shelf s) (k_calls s) (k_log s) (k_next s).

Abbreviation MK := (M Packs).

Definition k_now (s : Packs) : Z := h_now (k_shelf s).

Definition onShelf {A} (m : MH A) : MK A := fun s => let (r, h) := m (k_shelf s) in (r, s <| k_shelf := h |>).

Definition onRows (f : Z -> list Installation -> list Installation) : MK unit := modify (fun s => s <| k_rows := f (k_now s) (k_rows s) |>).

(** [Promise.allSettled] of the audit and activity records. *)
Definition noteInstall (action actorId serverId : string) (names : list string) : MK unit :=
  modify (fun s => s <| k_log := k_log s ++ [mkPackLog action actorId serverId names] |>).

(** The server of a resolved access, with the software of its template and its Minecraft version. *)
Record PackTarget := mkTarget { tg_access : ResolvedAccess; tg_softwareKind : option string; tg_version : option string }.
Definition tg_server (t : PackTarget) : Server := ra_server (tg_access t).

Definition MAX_CURSEFORGE_AUTO_RETRIES : Z := 3.
Definition EXPIRY_MS : Z := 2 * 60 * 60 * 1000.

Definition packActive (st : PackStatus) : bool :=
  match st with pk_pending | pk_downloading | pk_installing | pk_configuring | pk_rolling_back => true | _ => false end.

Definition activeOn (serverId : string) (r : Installation) : bool := (mi_serverId r =s serverId) && packActive (mi_status r).

Section Service.
Context `{Platform} `{CatalogueWorld} `{WebUrl} `{PackAgents}.

(** [AgentClient]. *)
Definition askAgent {A} (answer : list PackCall -> Res A) (nodeId serverId : string) (req : PackRequest) : MK A := fun s =>
  let sent := k_calls s ++ [mkPackCall nodeId serverId req] in
  (answer sent, s <| k_calls := sent |> <| k_shelf := (k_shelf s) <| h_now := k_now s + Z.of_N (packElapsed sent) |> |>).

(** ** Opening an operation *)

Record Retry := mkRetry { rt_extraSkip : list Z; rt_retryCount : Z; rt_retriedFromId : string }.

Record InstallParams := mkParams {
  ip_serverId : string; ip_nodeId : string; ip_diskMb : Z; ip_requestedBy : string; ip_source : ModpackSource; ip_projectId : string;
  ip_versionId : string; ip_projectName : string; ip_versionName : string; ip_minecraftVersion : string; ip_loader : string;
  ip_file : PackFile; ip_retry : option Retry }.

Definition newInstallation (id : string) (now : Z) (p : InstallParams) : Installation :=
  mkInstallation id (ip_serverId p) (ip_requestedBy p) (ip_source p) (ip_projectId p) (ip_versionId p) (ip_projectName p) (ip_versionName p)
    (ip_minecraftVersion p) (ip_loader p) pk_pending 0 (Some "Aguardando o Agent") None None None (rt_extraSkip <$> ip_retry p) None None None
    (match ip_retry p with Some r => rt_retryCount r | None => 0 end) (rt_retriedFromId <$> ip_retry p) now now None.

Definition expireOperation (now : Z) (r : Installation) : Installation :=
  r <| mi_status := pk_failed |> <| mi_progress := 100 |> <| mi_message := Some "Operação expirada" |>
    <| mi_errorMessage := Some "O Agent não concluiu a operação dentro do prazo." |> <| mi_completedAt := Some now |> <| mi_updatedAt := now |>.

(** The transaction under the server's advisory lock. *)
Definition openOperation (p : InstallParams) : MK Installation :=
  active ← gets (fun s => findFirst (activeOn (ip_serverId p)) (k_rows s));
  now ← gets k_now;
  match active with
  | Some a => throwIf (now - EXPIRY_MS <? mi_updatedAt a) (Conflict "Já existe uma instalação de modpack em andamento.")
  | None => mret tt
  end ;;
  match active with
  | Some a => onRows (fun now => updId (mi_id a) (expireOperation now))
  | None => mret tt
  end ;;
  n ← gets k_next;
  let row := newInstallation (uuidv7 n) now p in
  modify (fun s => s <| k_next := (n + 1)%N |> <| k_rows := k_rows s ++ [row] |>) ;;
  mret row.

(** ** Reports *)

(** The statuses the agent reports. *)
Inductive ReportStatus := rs_downloading | rs_installing | rs_configuring | rs_completed | rs_failed | rs_rolling_back.
#[export] Instance ReportStatus_eq : EqDecision ReportStatus.
Proof. solve_decision. Defined.

Definition reported (st : ReportStatus) : PackStatus :=
  match st with
  | rs_downloading => pk_downloading | rs_installing => pk_installing | rs_configuring => pk_configuring | rs_completed => pk_completed
  | rs_failed => pk_failed | rs_rolling_back => pk_rolling_back
  end.

(** [ModpackProgressDto]. *)
Record Progress := mkProgress {
  pg_operationId : string; pg_status : ReportStatus; pg_progress : Z; pg_message : string; pg_backupId : option string;
  pg_errorMessage : option string }.

Definition applyProgress (now : Z) (dto : Progress) (r : Installation) : Installation :=
  r <| mi_status := reported (pg_status dto) |> <| mi_progress := Z.max 0 (Z.min 100 (pg_progress dto)) |>
    <| mi_message := Some (pg_message dto) |>
    <| mi_backupId := match pg_backupId dto with Some b => Some b | None => mi_backupId r end |>
    <| mi_errorMessage := match pg_errorMessage dto with Some e => Some e | None => mi_errorMessage r end |>
    <| mi_completedAt := if bool_decide (pg_status dto ∈ [rs_completed; rs_failed]) then Some now else None |> <| mi_updatedAt := now |>.

Definition updateOperation (serverId : string) (dto : Progress) : MK unit :=
  onRows (fun now => updWhere (fun r => (mi_id r =s pg_operationId dto) && (mi_serverId r =s serverId)) (applyProgress now dto)).

(** [dispatchInstall]: the operation and its request to the agent. *)
Definition dispatchInstall (p : InstallParams) : MK Installation :=
  operation ← openOperation p;
  tryCatch (askAgent dispatchAnswer (ip_nodeId p) (ip_serverId p) (InstallPack (ip_source p) (mi_id operation) (ip_file p) (ip_diskMb p)))
    (fun error =>
       updateOperation (ip_serverId p) (mkProgress (mi_id operation) rs_failed 0 "O Agent recusou a instalação" None (Some (message error))) ;;
       throw error) ;;
  mret operation.

(** ** Retries *)

Definition findPack (extension : string) (files : list PackFile) : option PackFile :=
  let installable f := endsWith extension (toLowerCase (pk_filename f)) in
  match findFirst (fun f => pk_primary f && installable f) files with Some f => Some f | None => findFirst installable files end.

Definition asProjectMeta (r : Installation) : MetaTable :=
  match mi_projectMeta r with
  | Some meta => meta
  | None => map (fun e => (fst e, mkMeta (snd e) (snd e) [] None)) (default [] (mi_fileSlugs r))
  end.

Definition alreadySkipped (r : Installation) : list Z := fold_left addTo (default [] (mi_skipped r) ++ default [] (mi_extraSkip r)) [].

Definition plannedSkips (r : Installation) : list Z :=
  match mi_errorMessage r with
  | None => []
  | Some e => if e =s "" then [] else planCurseForgeRetrySkips (asProjectMeta r) e (alreadySkipped r)
  end.

(** The [try] of [maybeRetryCurseForgeInstall]. *)
Definition retryInstall (r : Installation) (newSkips : list Z) : MK unit :=
  server ← (found ← gets (fun s => findId (mi_serverId r) (k_servers s)); orThrow found RecordNotFound);
  state ← askAgent stateAnswer (sv_nodeId server) (mi_serverId r) AskStatus;
  if negb (isStoppedState state) then mret tt
  else
    version ← onShelf (cfGetVersion (mi_versionId r) (mi_projectId r));
    match findPack ".zip" (pv_files version) with
    | None => mret tt
    | Some file =>
      if pk_url file =s "" then mret tt
      else
        retried ← dispatchInstall (mkParams (mi_serverId r) (sv_nodeId server) (sv_diskMb server) (mi_requestedBy r) curseforge (mi_projectId r)
          (mi_versionId r) (mi_projectName r) (mi_versionName r) (mi_minecraftVersion r) (mi_loader r) file
          (Some (mkRetry (default [] (mi_extraSkip r) ++ newSkips) (mi_retryCount r + 1) (mi_id r))));
        noteInstall "server.modpack.install.retry" (mi_requestedBy r) (mi_serverId r)
          (map (fun x => match metaOf (asProjectMeta r) x with Some m => mt_name m | None => pretty x end) newSkips)
    end.

Definition maybeRetryCurseForgeInstall (r : Installation) : MK unit :=
  if (MAX_CURSEFORGE_AUTO_RETRIES <=? mi_retryCount r) then mret tt
  else match plannedSkips r with
       | [] => mret tt
       | newSkips => tryCatch (retryInstall r newSkips) (fun _ => mret tt)
       end.

(** [reportProgress], called by the node that has authenticated. *)
Definition reportProgress (nodeId serverId : string) (dto : Progress) : MK unit :=
  server ← gets (fun s => findFirst (fun v => (sv_id v =s serverId) && (sv_nodeId v =s nodeId)) (k_servers s));
  throwIf (negb (bool_decide (is_Some server))) (Forbidden "Este node não controla o servidor informado.") ;;
  updateOperation serverId dto ;;
  match pg_status dto with
  | rs_failed =>
    operation ← gets (fun s => findId (pg_operationId dto) (k_rows s));
    match operation with
    | Some r => if bool_decide (mi_source r = curseforge) then maybeRetryCurseForgeInstall r else mret tt
    | None => mret tt
    end
  | _ => mret tt
  end.

(** ** The customer's requests *)

Record InstallModpackDto := mkInstallDto { id_source : ModpackSource; id_projectId : string; id_versionId : string }.

Definition getProject (source : ModpackSource) (projectId : string) : MH ModpackProject :=
  match source with modrinth => mrGetProject "modpack" projectId | curseforge => cfGetProject projectId end.

Definition getVersion (source : ModpackSource) (versionId projectId : string) : MH ModpackVersion :=
  match source with modrinth => mrGetVersion versionId | curseforge => cfGetVersion versionId projectId end.

Definition packExtension (source : ModpackSource) : string := match source with modrinth => ".mrpack" | curseforge => ".zip" end.
Definition allowedHosts (source : ModpackSource) : list string :=
  match source with modrinth => ["cdn.modrinth.com"] | curseforge => ["edge.forgecdn.net"; "mediafilez.forgecdn.net"] end.

Definition compatible (version : ModpackVersion) (minecraftVersion loader : string) : bool :=
  negb (minecraftVersion =s "") && includes minecraftVersion (pv_minecraftVersions version) && includes loader (pv_loaders version).

(** The pack of a version, once every check on it has passed. *)
Definition checkedFile (source : ModpackSource) (version : ModpackVersion) : Res PackFile :=
  match findPack (packExtension source) (pv_files version) with
  | None => Throw (Http ("Esta versão não possui um pacote " +:+ packExtension source +:+ " instalável.") 422)
  | Some file =>
    if pk_url file =s "" then Throw (Http "O autor deste modpack não permite download por aplicativos de terceiros. Baixe-o manualmente pelo site do CurseForge." 422)
    else match parseUrl (pk_url file) with
         | None => Throw (External "Invalid URL")
         | Some u => if hostAllowed (allowedHosts source) u then Ok file
                     else Throw (Http ("O arquivo principal não está hospedado no CDN permitido do " +:+
                       match source with modrinth => "Modrinth" | curseforge => "CurseForge" end +:+ ".") 422)
         end
  end.

(** The newest operation of a server ([orderBy: { createdAt: 'desc' }]). *)
Definition newestOperation (a b : Installation) : bool := mi_createdAt b <=? mi_createdAt a.
Definition latestOf (serverId : string) (rows : list Installation) : option Installation :=
  head (sortBy newestOperation (List.filter (fun r => mi_serverId r =s serverId) rows)).

(** [templates/software.ts]: the software of a server and where its add-ons go. *)
Record SoftwareInfo := mkSoftwareInfo {
  si_kind : option string; si_label : string; si_addonDir : option string; si_addonDirDisplay : option string; si_addonNoun : option string;
  si_addonLabel : option string; si_isProxy : bool }.

Definition SOFTWARE_LABELS : list (string * string) :=
  [("paper", "Paper"); ("purpur", "Purpur"); ("spigot", "Spigot"); ("bukkit", "Bukkit"); ("fabric", "Fabric"); ("quilt", "Quilt");
   ("forge", "Forge"); ("neoforge", "NeoForge"); ("vanilla", "Vanilla"); ("bungeecord", "BungeeCord"); ("velocity", "Velocity"); ("other", "Outro")].

Definition PLUGIN_KINDS : list string := ["paper"; "purpur"; "spigot"; "bukkit"; "bungeecord"; "velocity"].
Definition MOD_KINDS : list string := ["fabric"; "quilt"; "forge"; "neoforge"].
Definition PROXY_KINDS : list string := ["bungeecord"; "velocity"].

Definition describeSoftware (kind : option string) : SoftwareInfo :=
  match (kind ≫= fun k => findFirst (fun e => fst e =s k) SOFTWARE_LABELS) with
  | None => mkSoftwareInfo None "Desconhecido" None None None None false
  | Some (k, label) =>
    if includes k PLUGIN_KINDS then
      mkSoftwareInfo (Some k) label (Some "plugins") (Some "/plugins") (Some "plugin") (Some "Plugins") (includes k PROXY_KINDS)
    else if includes k MOD_KINDS then mkSoftwareInfo (Some k) label (Some "mods") (Some "/mods") (Some "mod") (Some "Mods") false
    else mkSoftwareInfo (Some k) label None None None None false
  end.

Definition withManual (manual : option (list ManualFile)) (now : Z) (r : Installation) : Installation :=
  r <| mi_manualFiles := manual |> <| mi_updatedAt := now |>.

(** [withResolvedManualFiles]: the files the customer has added since leave the list. *)
Definition withResolvedManualFiles (t : PackTarget) (r : Installation) : MK Installation :=
  match mi_status r, mi_manualFiles r, si_addonDir (describeSoftware (tg_softwareKind t)) with
  | pk_completed, Some (m :: ms), Some dir =>
    tryCatch (
      entries ← askAgent entriesAnswer (sv_nodeId (tg_server t)) (sv_id (tg_server t)) (ListDirectory dir);
      let there := map (fun e => toLowerCase (fst e)) (List.filter (fun e => negb (snd e)) entries) in
      let outstanding := List.filter (fun f => negb (includes (toLowerCase (mf_filename f)) there)) (m :: ms) in
      if (List.length outstanding =? List.length (m :: ms))%nat then mret r
      else
        let manual := match outstanding with [] => None | _ => Some outstanding end in
        onRows (fun now => updId (mi_id r) (withManual manual now)) ;;
        mret (r <| mi_manualFiles := manual |>))
      (fun _ => mret r)
  | _, _, _ => mret r
  end.

Definition latestInstallation (t : PackTarget) : MK (option Installation) :=
  requirePermission (tg_access t) "addons.catalog.read" ;;
  latest ← gets (fun s => latestOf (sv_id (tg_server t)) (k_rows s));
  match latest with
  | None => mret None
  | Some r => r' ← withResolvedManualFiles t r; mret (Some r')
  end.

Definition install (actor : AccessActor) (t : PackTarget) (dto : InstallModpackDto) : MK (option Installation) :=
  let server := tg_server t in
  requirePermission (tg_access t) "addons.install" ;;
  let kind := default "" (tg_softwareKind t) in
  throwIf (kind =s "") (Conflict "O software atual do servidor não foi identificado.") ;;
  state ← askAgent stateAnswer (sv_nodeId server) (sv_id server) AskStatus;
  throwIf (negb (isStoppedState state)) (Conflict "Desligue o servidor antes de instalar um modpack.") ;;
  '(project, version) ← onShelf (allOf2 (getProject (id_source dto) (id_projectId dto)) (getVersion (id_source dto) (id_versionId dto) (id_projectId dto)));
  throwIf (negb (pv_projectId version =s id_projectId dto)) (Http "A versão selecionada não pertence a este modpack." 422) ;;
  let minecraftVersion := default "" (tg_version t) in
  let loader := toLowerCase kind in
  throwIf (negb (compatible version minecraftVersion loader)) (Conflict "Escolha uma versão compatível com o Minecraft e o loader atuais do servidor.") ;;
  file ← lift (checkedFile (id_source dto) version);
  operation ← dispatchInstall (mkParams (sv_id server) (sv_nodeId server) (sv_diskMb server) (xa_id actor) (id_source dto) (id_projectId dto)
    (id_versionId dto) (pj_name project) (pv_versionNumber version) minecraftVersion loader file None);
  noteInstall "server.modpack.install" (xa_id actor) (sv_id server) [mi_id operation] ;;
  latestInstallation t.

Definition uninstalled (now : Z) (r : Installation) : Installation :=
  r <| mi_status := pk_uninstalled |> <| mi_progress := 100 |> <| mi_message := Some "Modpack removido; backup anterior restaurado." |>
    <| mi_completedAt := Some now |> <| mi_updatedAt := now |>.

Definition NOTHING_TO_REMOVE : exn := Conflict "Não há um modpack instalado para remover.".

Definition uninstallLatest (actor : AccessActor) (t : PackTarget) : MK unit :=
  let server := tg_server t in
  requirePermission (tg_access t) "addons.install" ;;
  latest ← gets (fun s => latestOf (sv_id server) (k_rows s));
  installation ← orThrow latest NOTHING_TO_REMOVE;
  match mi_status installation with
  | pk_uninstalled => mret tt
  | pk_completed =>
    let backupId := default "" (mi_backupId installation) in
    throwIf (backupId =s "") (Conflict "O backup de segurança desta instalação não está disponível para remoção segura.") ;;
    state ← askAgent stateAnswer (sv_nodeId server) (sv_id server) AskStatus;
    throwIf (negb (isStoppedState state)) (Conflict "Desligue o servidor antes de remover o modpack.") ;;
    askAgent snapshotAnswer (sv_nodeId server) (sv_id server) (RestoreSnapshot backupId) ;;
    onRows (fun now => updId (mi_id installation) (uninstalled now)) ;;
    noteInstall "server.modpack.uninstall" (xa_id actor) (sv_id server) [mi_id installation; backupId]
  | _ => throw NOTHING_TO_REMOVE
  end.

(** ** The files of a CurseForge pack *)

Definition resolvable (nodeId serverId operationId : string) (servers : list Server) (r : Installation) : bool :=
  (mi_id r =s operationId) && (mi_serverId r =s serverId) && bool_decide (mi_source r = curseforge) &&
  bool_decide (mi_status r ∈ [pk_pending; pk_downloading; pk_installing]) &&
  existsb (fun v => (sv_id v =s mi_serverId r) && (sv_nodeId v =s nodeId)) servers.

Definition forceSkip (extra : list Z) (f : ResolvedFile) : ResolvedFile := if has (rf_projectId f) extra then f <| rf_skip := true |> else f.

Definition manualEntry (f : ResolvedFile) : option ManualFile :=
  match rf_manual f with Some (name, page) => Some (mkManual name (rf_filename f) page) | None => None end.

Definition skippedIds (files : list ResolvedFile) : list Z := fold_left addTo (map rf_projectId (List.filter rf_skip files)) [].

Definition withResolution (files : list ResolvedFile) (slugs : list (Z * string)) (meta : MetaTable) (now : Z) (r : Installation) : Installation :=
  r <| mi_manualFiles := match omap manualEntry files with [] => None | l => Some l end |> <| mi_skipped := Some (skippedIds files) |>
    <| mi_fileSlugs := Some slugs |> <| mi_projectMeta := Some meta |> <| mi_updatedAt := now |>.

(** The answer leaves [manual] out. *)
Definition resolveCurseForgeFiles (nodeId serverId operationId : string) (requests : list FileRequest) : MK (list ResolvedFile) :=
  operation ← gets (fun s => findFirst (resolvable nodeId serverId operationId (k_servers s)) (k_rows s));
  operation ← orThrow operation (Forbidden "A instalação do CurseForge não está ativa neste node.");
  '(resolved, slugs, meta) ← onShelf (resolveFiles requests);
  let files := map (forceSkip (default [] (mi_extraSkip operation))) resolved in
  onRows (fun now => updId (mi_id operation) (withResolution files slugs meta now)) ;;
  mret (map (fun f => f <| rf_manual := None |>) files).

End Service.
