(* ===== verification/ModpackRules.v ===== *)
(** ModpackRules: what the reports of agents and the requests of customers may do to installations.

    In every history, the packs sent to agents come from the content network of their catalogue, and an
    automatic retry extends its predecessor, at most three times; an operation is opened alone. *)

From S2P Require Import Prelude JsNum Capacity Store Scheduler Subscriptions JsString Accounts Sessions Access Dto Variables Setup Presets Discovery RetryPlan RetryRules Catalogues CatalogueRules.
From S2P Require Import Controls Modpacks.
From Stdlib Require Import Ascii String Lia.

Local Open Scope Z_scope.

(** ** Histories *)

Section Histories.
Context `{Platform} `{CatalogueWorld} `{WebUrlLaws} `{PackAgents}.

Inductive PackEvent :=
  | EvInstall (actor : AccessActor) (t : PackTarget) (dto : InstallModpackDto)
  | EvReport (nodeId serverId : string) (dto : Progress)
  | EvUninstall (actor : AccessActor) (t : PackTarget)
  | EvLatest (t : PackTarget)
  | EvResolve (nodeId serverId operationId : string) (requests : list FileRequest).

Definition serveEvent (s : Packs) (e : PackEvent) : Packs :=
  match e with
  | EvInstall actor t dto => snd (install actor t dto s)
  | EvReport nodeId serverId dto => snd (reportProgress nodeId serverId dto s)
  | EvUninstall actor t => snd (uninstallLatest actor t s)
  | EvLatest t => snd (latestInstallation t s)
  | EvResolve nodeId serverId operationId requests => snd (resolveCurseForgeFiles nodeId serverId operationId requests s)
  end.

Definition serveAll (events : list PackEvent) (s : Packs) : Packs := fold_left serveEvent events s.

(** Nothing installed, nothing sent, nothing cached. *)
Definition fresh_packs (s : Packs) : Prop := k_rows s = [] /\ k_calls s = [] /\ h_versions (k_shelf s) = [].

Lemma keeps_bind_lift {S A B} (R : S -> S -> Prop) `{!PreOrder R} (x : Res A) (k : A -> M S B) :
  (forall a, x = Ok a -> keeps R (k a)) -> keeps R (lift x ≫= k).
Proof. intros Hk s r s' E. unfold mbind, M_bind, lift in E. destruct x as [a|e]; [by eapply Hk|]. injection E as _ <-. reflexivity. Qed.

Lemma serve_invariant (R : Packs -> Packs -> Prop) `{!PreOrder R} :
  (forall actor t dto, keeps R (install actor t dto)) -> (forall nodeId serverId dto, keeps R (reportProgress nodeId serverId dto)) ->
  (forall actor t, keeps R (uninstallLatest actor t)) -> (forall t, keeps R (latestInstallation t)) ->
  (forall nodeId serverId operationId requests, keeps R (resolveCurseForgeFiles nodeId serverId operationId requests)) ->
  forall events s, R s (serveAll events s).
Proof.
  intros H1' H2' H3' H4' H5' events. unfold serveAll. induction events as [|e events IH]; intros s; simpl; [reflexivity|]. etransitivity; [|apply IH].
  destruct e; simpl; [eapply H1'|eapply H2'|eapply H3'|eapply H4'|eapply H5']; apply surjective_pairing.
Qed.

(** *** Addresses *)

Definition requestTrusted (req : PackRequest) : Prop :=
  match req with InstallPack source _ file _ => trustedUrl (allowedHosts source) (pk_url file) | _ => True end.

Definition trusted (s : Packs) : Prop := (forall c, c ∈ k_calls s -> requestTrusted (pc_request c)) /\ cacheTrusted (k_shelf s).

Definition staysTrusted (s s' : Packs) : Prop := trusted s -> trusted s'.
#[local] Instance staysTrusted_pre : PreOrder staysTrusted.
Proof. split; [by intros s Hs|]. intros s1 s2 s3 H12 H23 Hs. auto. Qed.

Lemma trusted_onShelf {A} (m : MH A) : keeps safeShelf m -> keeps staysTrusted (onShelf m).
Proof. intros Hm s r s' E [Hc Hh]. unfold onShelf in E. destruct (m (k_shelf s)) as [r' h] eqn:Em. injection E as _ <-. split; [done|]. by eapply Hm. Qed.

Lemma trusted_ask {A} (answer : list PackCall -> Res A) nodeId serverId req : requestTrusted req -> keeps staysTrusted (askAgent answer nodeId serverId req).
Proof.
  intros Hr s r s' [= _ <-] [Hc Hh]. split; [|done]. simpl. intros c [Hx|Hx]%elem_of_app; [auto|]. by apply list_elem_of_singleton in Hx as ->.
Qed.

Lemma trusted_rows f : keeps staysTrusted (onRows f).
Proof. intros s r s' [= _ <-] Ht. exact Ht. Qed.

Lemma trusted_note a b c l : keeps staysTrusted (noteInstall a b c l).
Proof. intros s r s' [= _ <-] Ht. exact Ht. Qed.
#[local] Hint Resolve trusted_ask trusted_rows trusted_note : keeps.

Lemma trusted_open p : keeps staysTrusted (openOperation p).
Proof. unfold openOperation. keeps_auto. intros s r s' [= _ <-] Ht. exact Ht. Qed.
#[local] Hint Resolve trusted_open : keeps.

Lemma trusted_dispatch p : trustedUrl (allowedHosts (ip_source p)) (pk_url (ip_file p)) -> keeps staysTrusted (dispatchInstall p).
Proof. intros Hp. unfold dispatchInstall, updateOperation. keeps_auto. Qed.

Lemma findPack_elem extension files f : findPack extension files = Some f -> f ∈ files.
Proof. unfold findPack. destruct (findFirst _ files) eqn:E1; intros E; [injection E as <-; by apply findFirst_some in E1 as [? _]|by apply findFirst_some in E as [? _]]. Qed.

Lemma checkedFile_trusted source version f : checkedFile source version = Ok f -> trustedUrl (allowedHosts source) (pk_url f).
Proof.
  unfold checkedFile. destruct (findPack _ _) as [f'|]; [|done]. destruct (_ =s ""); [done|]. destruct (parseUrl _) as [u|] eqn:Eu; [|done].
  destruct (hostAllowed _ u) eqn:Eh; [|done]. intros [= <-]. by exists u.
Qed.

(** The retried pack is the one the catalogue answered with, or its cached copy. *)
Lemma trusted_retry r newSkips : keeps staysTrusted (retryInstall r newSkips).
Proof.
  unfold retryInstall. apply (keeps_bind _); [keeps_auto|intros server]. apply (keeps_bind _); [by apply trusted_ask|intros state].
  destruct (negb _); [keeps_auto|]. intros s x s' E Ht. apply bind_inv in E as [(e & E & _)|(v & s1 & Ev & E)].
  { unshelve eapply (trusted_onShelf _ _ _ _ _ E Ht). apply cfGetVersion_trusted. }
  assert (trusted s1) as Ht1 by (unshelve eapply (trusted_onShelf _ _ _ _ _ Ev Ht); apply cfGetVersion_trusted).
  assert (urlsTrusted v) as Hu.
  { unfold onShelf in Ev. destruct (cfGetVersion _ _ (k_shelf s)) as [r' h] eqn:Eg. injection Ev as -> _. eapply cfGetVersion_trusted; [|done]. apply Ht. }
  destruct (findPack _ _) as [f|] eqn:Ef; [|by injection E as _ <-]. destruct (pk_url f =s "") eqn:Eu; [by injection E as _ <-|].
  apply bool_decide_eq_false in Eu. apply findPack_elem, Hu in Ef as [?|Hf]; [done|]. revert E Ht1. apply (keeps_bind staysTrusted); [|keeps_auto].
  by apply trusted_dispatch.
Qed.
#[local] Hint Resolve trusted_retry : keeps.

Lemma trusted_latest t : keeps staysTrusted (latestInstallation t).
Proof. unfold latestInstallation, requirePermission, withResolvedManualFiles. keeps_auto. all: by apply trusted_ask. Qed.
#[local] Hint Resolve trusted_latest : keeps.

Lemma trusted_report nodeId serverId dto : keeps staysTrusted (reportProgress nodeId serverId dto).
Proof. unfold reportProgress, updateOperation, maybeRetryCurseForgeInstall. keeps_auto. Qed.

Lemma safe_getProject source projectId : keeps safeShelf (getProject source projectId).
Proof. destruct source; apply safe_projects. Qed.

Lemma safe_getVersion source versionId projectId : keeps safeShelf (getVersion source versionId projectId).
Proof. destruct source; [apply safe_mrGetVersion|apply cfGetVersion_trusted]. Qed.

Lemma trusted_install actor t dto : keeps staysTrusted (install actor t dto).
Proof.
  unfold install, requirePermission. cbv zeta. do 3 (apply (keeps_bind _); [keeps_auto; try (by apply trusted_ask)|intros ?]).
  apply (keeps_bind _); [keeps_auto|intros _]. apply (keeps_bind _); [|intros [project version]].
  { apply trusted_onShelf, safe_allOf2; [apply safe_getProject|apply safe_getVersion]. }
  do 2 (apply (keeps_bind _); [keeps_auto|intros _]). apply (keeps_bind_lift _). intros f Hf%checkedFile_trusted.
  apply (keeps_bind _); [by apply trusted_dispatch|intros op]. keeps_auto.
Qed.

Lemma trusted_uninstall actor t : keeps staysTrusted (uninstallLatest actor t).
Proof. unfold uninstallLatest, requirePermission. keeps_auto. all: by apply trusted_ask. Qed.

Lemma trusted_resolve nodeId serverId operationId requests : keeps staysTrusted (resolveCurseForgeFiles nodeId serverId operationId requests).
Proof.
  unfold resolveCurseForgeFiles. do 2 (apply (keeps_bind _); [keeps_auto|intros ?]). apply (keeps_bind _); [|intros [[files slugs] meta]; keeps_auto].
  apply trusted_onShelf, safe_resolveFiles.
Qed.

(** C10: in every history of requests and reports, every pack an agent has been told to install is at an
    address of its catalogue's content network, over HTTPS: the pack a customer chose, and the pack of every
    automatic retry, whether its version came from the catalogue or from the cache. *)
Theorem dispatched_packs_trusted events s c source operationId file diskLimitMb : fresh_packs s -> c ∈ k_calls (serveAll events s) ->
  pc_request c = InstallPack source operationId file diskLimitMb -> trustedUrl (allowedHosts source) (pk_url file).
Proof.
  intros (_ & Hc & Hh) Hin Hr. assert (trusted (serveAll events s)) as [Hall _].
  { apply (serve_invariant staysTrusted); [apply trusted_install|apply trusted_report|apply trusted_uninstall|apply trusted_latest|apply trusted_resolve|].
    split; [rewrite Hc; by intros ? ?%not_elem_of_nil|]. intros e. rewrite Hh. by intros ?%not_elem_of_nil. }
  apply Hall in Hin. by rewrite Hr in Hin.
Qed.

(** *** Retries *)

(** The columns of a row that are written once. *)
Record Lineage := mkLineage {
  ln_id : string; ln_serverId : string; ln_source : ModpackSource; ln_projectId : string; ln_versionId : string; ln_retryCount : Z;
  ln_retriedFromId : option string; ln_extraSkip : option (list Z) }.

Definition lineage (r : Installation) : Lineage :=
  mkLineage (mi_id r) (mi_serverId r) (mi_source r) (mi_projectId r) (mi_versionId r) (mi_retryCount r) (mi_retriedFromId r) (mi_extraSkip r).
Definition lineages (s : Packs) : list Lineage := map lineage (k_rows s).

(** [r] retries [q]: the same pack on the same server, one retry later, with more left out. *)
Definition retries (q r : Lineage) : Prop :=
  ln_serverId r = ln_serverId q /\ ln_source q = curseforge /\ ln_source r = curseforge /\ ln_projectId r = ln_projectId q /\
  ln_versionId r = ln_versionId q /\ ln_retryCount r = ln_retryCount q + 1 /\ ln_retryCount r <= MAX_CURSEFORGE_AUTO_RETRIES /\
  exists new, ln_extraSkip r = Some (default [] (ln_extraSkip q) ++ new) /\ new <> [] /\ forall x, x ∈ new -> ~ x ∈ default [] (ln_extraSkip q).

Definition rooted (all : list Lineage) (r : Lineage) : Prop :=
  match ln_retriedFromId r with
  | None => ln_retryCount r = 0 /\ ln_extraSkip r = None
  | Some p => exists q, q ∈ all /\ ln_id q = p /\ retries q r
  end.

Definition chained (s : Packs) : Prop := forall r, r ∈ lineages s -> rooted (lineages s) r /\ 0 <= ln_retryCount r.

(** Rows are never dropped, and a row [c] that is there stays a valid parent. *)
Definition extends (c : option Lineage) (s s' : Packs) : Prop :=
  (forall r, r ∈ lineages s -> r ∈ lineages s') /\ ((forall q, c = Some q -> q ∈ lineages s) -> chained s -> chained s').
#[local] Instance extends_pre c : PreOrder (extends c).
Proof. split; [by intros s|]. intros s1 s2 s3 [A1 A2] [B1 B2]. split; auto. Qed.

Lemma extends_same c s s' : lineages s' = lineages s -> extends c s s'.
Proof. unfold extends, chained. by intros ->. Qed.

Lemma extends_onShelf c {A} (m : MH A) : keeps (extends c) (onShelf m).
Proof. intros s r s' E. unfold onShelf in E. destruct (m _). injection E as _ <-. by apply extends_same. Qed.

Lemma extends_ask c {A} (answer : list PackCall -> Res A) nodeId serverId req : keeps (extends c) (askAgent answer nodeId serverId req).
Proof. intros s r s' [= _ <-]. by apply extends_same. Qed.

Lemma extends_note c a b d l : keeps (extends c) (noteInstall a b d l).
Proof. intros s r s' [= _ <-]. by apply extends_same. Qed.

Lemma extends_rows c f : (forall now l, map lineage (f now l) = map lineage l) -> keeps (extends c) (onRows f).
Proof. intros Hf s r s' [= _ <-]. apply extends_same. unfold lineages. simpl. apply Hf. Qed.

Lemma extends_update c serverId dto : keeps (extends c) (updateOperation serverId dto).
Proof. apply extends_rows. intros now l. by apply map_updWhere. Qed.

Lemma extends_updId c id f : (forall now x, lineage (f now x) = lineage x) -> keeps (extends c) (onRows (fun now => updId id (f now))).
Proof. intros Hf. apply extends_rows. intros now l. by apply map_updId. Qed.
#[local] Hint Resolve extends_onShelf extends_ask extends_note extends_update : keeps.

(** The parameters of an operation, as a child of [c]. *)
Definition childOf (c : option Lineage) (p : InstallParams) : Prop :=
  match ip_retry p, c with
  | None, _ => True
  | Some t, Some q => rt_retriedFromId t = ln_id q /\ forall id now, retries q (lineage (newInstallation id now p))
  | Some _, None => False
  end.

Lemma extends_create c p row s : lineage row = lineage (newInstallation (mi_id row) 0 p) -> childOf c p ->
  extends c s (s <| k_next := (k_next s + 1)%N |> <| k_rows := k_rows s ++ [row] |>).
Proof.
  intros Hrow Hp. unfold extends, chained, lineages. simpl. rewrite map_app. simpl. split; [intros r Hr; apply elem_of_app; by left|]. intros Hc Hs r Hr.
  assert (forall r, rooted (map lineage (k_rows s)) r -> rooted (map lineage (k_rows s) ++ [lineage row]) r) as Hm.
  { intros x. unfold rooted. destruct (ln_retriedFromId x); [|done]. intros (q & Hq & Hx). exists q. split; [apply elem_of_app; by left|done]. }
  apply elem_of_app in Hr as [Hr|Hr]; [destruct (Hs r Hr); auto|]. apply list_elem_of_singleton in Hr as ->. rewrite Hrow at 2 3. unfold childOf in Hp. unfold rooted.
  simpl in *. destruct (ip_retry p) as [t|] eqn:Et; [|done]. simpl. destruct c as [q|]; [|done]. destruct Hp as [Hid Hret].
  pose proof (Hret (mi_id row) 0) as Hq. destruct (Hs q (Hc q eq_refl)) as [_ Hq0]. split; [|destruct Hq as (_ & _ & _ & _ & _ & Hn & _); simpl in Hn; rewrite Et in Hn; lia].
  exists q. split_and!; [apply elem_of_app; left; auto|done|done].
Qed.

Lemma extends_open c p : childOf c p -> keeps (extends c) (openOperation p).
Proof.
  intros Hp. unfold openOperation. do 2 (apply (keeps_bind _); [keeps_auto|intros ?]). apply (keeps_bind _); [keeps_auto|intros _].
  apply (keeps_bind _); [|intros _]. { destruct a; [by apply extends_updId|keeps_auto]. }
  intros s r s'. rewrite bind_gets. intros [= _ <-]. by apply (extends_create c p (newInstallation (uuidv7 (k_next s)) a0 p)).
Qed.

Lemma extends_dispatch c p : childOf c p -> keeps (extends c) (dispatchInstall p).
Proof. intros Hp. pose proof (extends_open c p Hp). unfold dispatchInstall. keeps_auto. Qed.

Lemma fold_addTo_elem l acc x : x ∈ fold_left addTo l acc <-> x ∈ acc \/ x ∈ l.
Proof. revert acc. induction l as [|y l IH]; intros acc; simpl; [rewrite elem_of_nil; tauto|]. rewrite IH, addTo_elem, elem_of_cons. tauto. Qed.

Lemma plannedSkips_new r x : x ∈ plannedSkips r -> ~ x ∈ default [] (mi_extraSkip r).
Proof.
  unfold plannedSkips. destruct (mi_errorMessage r) as [e|]; [|by intros ?%not_elem_of_nil]. destruct (e =s ""); [by intros ?%not_elem_of_nil|].
  intros Hx He. apply (proj2 (plan_fresh _ e (alreadySkipped r))) in Hx as [_ Hx]. apply Hx. unfold alreadySkipped. apply fold_addTo_elem. right.
  apply elem_of_app. by right.
Qed.

Lemma extends_maybeRetry r : mi_source r = curseforge -> keeps (extends (Some (lineage r))) (maybeRetryCurseForgeInstall r).
Proof.
  intros Hsrc. unfold maybeRetryCurseForgeInstall. destruct (Z.leb_spec MAX_CURSEFORGE_AUTO_RETRIES (mi_retryCount r)) as [|Hlt]; [keeps_auto|].
  destruct (plannedSkips r) as [|n ns] eqn:Ep; [keeps_auto|]. apply (keeps_tryCatch _); [|intros ?; keeps_auto]. unfold retryInstall. keeps_auto.
  apply extends_dispatch. split; [done|]. intros id now. unfold retries. simpl. split_and!; try done; [lia|]. exists (n :: ns). split_and!; [done|done|].
  intros x Hx. apply plannedSkips_new. by rewrite Ep.
Qed.

Lemma extends_report nodeId serverId dto : keeps (extends None) (reportProgress nodeId serverId dto).
Proof.
  unfold reportProgress. do 3 (apply (keeps_bind _); [keeps_auto|intros ?]). destruct (pg_status dto); try solve [keeps_auto].
  intros s x s'. rewrite bind_gets. destruct (findId _ _) as [r|] eqn:Ef; [|intros [= _ <-]; reflexivity].
  destruct (bool_decide (mi_source r = curseforge)) eqn:Es; [|intros [= _ <-]; reflexivity]. apply bool_decide_eq_true in Es. intros E.
  destruct (extends_maybeRetry r Es _ _ _ E) as [E1 E2]. split; [done|]. intros _. apply E2. intros q [= <-]. apply findFirst_some in Ef as [Hr _].
  apply list_elem_of_In, in_map. by apply list_elem_of_In.
Qed.

Lemma extends_latest c t : keeps (extends c) (latestInstallation t).
Proof. unfold latestInstallation, requirePermission, withResolvedManualFiles. keeps_auto; by apply extends_updId. Qed.
#[local] Hint Resolve extends_latest : keeps.

Lemma extends_install actor t dto : keeps (extends None) (install actor t dto).
Proof. unfold install, requirePermission. keeps_auto. all: by apply extends_dispatch. Qed.

Lemma extends_uninstall c actor t : keeps (extends c) (uninstallLatest actor t).
Proof. unfold uninstallLatest, requirePermission. keeps_auto. all: by apply extends_updId. Qed.

Lemma extends_resolve c nodeId serverId operationId requests : keeps (extends c) (resolveCurseForgeFiles nodeId serverId operationId requests).
Proof. unfold resolveCurseForgeFiles. keeps_auto. all: by apply extends_updId. Qed.

(** In every history, an operation the customer asked for is no retry and leaves nothing extra out, and
    every automatic retry repeats a recorded CurseForge operation: the same pack and version on the same server,
    one retry later and never a fourth time, leaving out everything its predecessor was told to leave out and at
    least one project more. *)
Theorem retry_chains_bounded events s r : fresh_packs s -> r ∈ lineages (serveAll events s) ->
  rooted (lineages (serveAll events s)) r /\ 0 <= ln_retryCount r <= MAX_CURSEFORGE_AUTO_RETRIES.
Proof.
  intros (Hr & _ & _) Hin.
  assert (chained (serveAll events s)) as Hc.
  { eapply (serve_invariant (extends None)); [apply extends_install|apply extends_report|apply extends_uninstall|apply extends_latest|apply extends_resolve|done|].
    unfold chained, lineages. rewrite Hr. by intros ? ?%not_elem_of_nil. }
  destruct (Hc r Hin) as [Hroot H0']. split_and!; [done|done|]. unfold rooted in Hroot. destruct (ln_retriedFromId r).
  - by destruct Hroot as (q & _ & _ & _ & _ & _ & _ & _ & _ & Hle & _).
  - destruct Hroot as [-> _]. done.
Qed.

(** ** One operation at a time *)

Definition activeRows (serverId : string) (rows : list Installation) : list Installation := List.filter (activeOn serverId) rows.

Lemma updId_split (f : Installation -> Installation) l1 a l2 : (forall x, x ∈ l1 -> mi_id x <> mi_id a) ->
  updId (mi_id a) f (l1 ++ a :: l2) = l1 ++ f a :: l2.
Proof.
  intros Hne. unfold updId. induction l1 as [|x l1 IH]; simpl.
  - unfold rid, Installation_row. by rewrite bool_decide_eq_true_2.
  - unfold rid, Installation_row in *. rewrite bool_decide_eq_false_2 by (apply Hne; by left). f_equal. apply IH. intros y Hy. apply Hne. by right.
Qed.

(** Opening an operation: refused while another one is active and was heard of in the last two hours, and
    then nothing changes; otherwise the new operation is the only active one of its server. *)
Theorem operation_opened_alone p s r s' : NoDup (map mi_id (k_rows s)) -> (List.length (activeRows (ip_serverId p) (k_rows s)) <= 1)%nat ->
  openOperation p s = (r, s') ->
  match r with
  | Ok row => activeRows (ip_serverId p) (k_rows s') = [row] /\ mi_serverId row = ip_serverId p /\
      (forall a, a ∈ activeRows (ip_serverId p) (k_rows s) -> mi_updatedAt a <= k_now s - EXPIRY_MS)
  | Throw e => s' = s /\ exists a, a ∈ activeRows (ip_serverId p) (k_rows s) /\ k_now s - EXPIRY_MS < mi_updatedAt a
  end.
Proof.
  intros Hn Hone. unfold openOperation. rewrite !bind_gets. set (row := newInstallation (uuidv7 (k_next s)) (k_now s) p).
  assert (activeRows (ip_serverId p) [row] = [row]) as Hrow by (unfold activeRows, activeOn; simpl; by rewrite bool_decide_eq_true_2).
  destruct (findFirst _ (k_rows s)) as [a|] eqn:Ea.
  - assert (activeOn (ip_serverId p) a = true) as Hact by (by apply findFirst_some in Ea as [_ ?]).
    assert (a ∈ k_rows s) as Hin by (by apply findFirst_some in Ea as [? _]). apply list_elem_of_split in Hin as (l1 & l2 & El). rewrite El in *.
    unfold activeRows in Hone |- *. rewrite List.filter_app in Hone |- *. simpl in Hone |- *. rewrite Hact in Hone |- *. rewrite length_app in Hone. simpl in Hone.
    destruct (List.filter _ l1) eqn:E1; [|simpl in Hone; lia]. destruct (List.filter _ l2) eqn:E2; [|simpl in Hone; lia].
    intros E. apply bind_throwIf_inv in E as [(Hb & -> & ->)|[Hb E]].
    + apply Z.ltb_lt in Hb. split; [done|]. exists a. split; [by left|done].
    + apply Z.ltb_ge in Hb. injection E as <- <-. simpl. rewrite El, updId_split.
      * rewrite !List.filter_app. simpl. unfold activeRows in Hrow. simpl in Hrow. rewrite E1. simpl. unfold activeOn at 1. simpl. rewrite andb_false_r, E2.
        split_and!; [done|done|]. by intros x ->%list_elem_of_singleton.
      * rewrite map_app in Hn. apply NoDup_app in Hn as (_ & Hn & _). intros x Hx Hid. apply (Hn (mi_id x)); [apply list_elem_of_In, in_map; by apply list_elem_of_In|].
        simpl. rewrite Hid. by left.
  - intros [= <- <-]. simpl. assert (activeRows (ip_serverId p) (k_rows s) = []) as H0'.
    { apply filter_none. by apply findFirst_none. }
    unfold activeRows in *. rewrite List.filter_app, H0'. split_and!; [done|done|]. by intros a ?%not_elem_of_nil.
Qed.

(** ** What a node may ask the catalogue *)

(** A node learns about the files of a pack only through an active CurseForge operation of a server it runs:
    otherwise nothing is asked and nothing changes.  What it is told to download was in its request, is on the
    content network with a hash, and is not among the projects the retry leaves out. *)
Theorem node_resolution_confined nodeId serverId operationId requests s r s' :
  resolveCurseForgeFiles nodeId serverId operationId requests s = (r, s') ->
  (r = Throw (Forbidden "A instalação do CurseForge não está ativa neste node.") /\ s' = s) \/
  exists op, op ∈ k_rows s /\ resolvable nodeId serverId operationId (k_servers s) op = true /\
    match r with
    | Ok files => forall f, f ∈ files -> rf_skip f = false ->
        mkFileRequest (rf_projectId f) (rf_fileId f) ∈ requests /\ trustedUrl ALLOWED_CDN_HOSTS (rf_url f) /\ rf_sha1 f <> "" /\
        ~ rf_projectId f ∈ default [] (mi_extraSkip op)
    | Throw _ => k_rows s' = k_rows s
    end.
Proof.
  unfold resolveCurseForgeFiles. rewrite bind_gets. intros E. apply bind_orThrow_inv in E as [(_ & -> & ->)|(op & Ef & E)]; [by left|]. right.
  exists op. apply findFirst_some in Ef as [Hin Hr]. split_and!; [done|done|]. apply bind_inv in E as [(e & E & ->)|(x & s1 & E1 & E)].
  { unfold onShelf in E. destruct (resolveFiles _ _). by injection E as _ <-. }
  unfold onShelf in E1. destruct (resolveFiles requests (k_shelf s)) as [r1 h1] eqn:Er. injection E1 as -> <-. destruct x as [[files slugs] meta].
  injection E as <- <-. intros f Hf Hs. apply list_elem_of_In, in_map_iff in Hf as (g & <- & Hg). apply in_map_iff in Hg as (h & <- & Hh%list_elem_of_In).
  pose proof (resolveFiles_trusted _ _ _ _ _ _ Er h Hh) as [Hreq Hsafe]. unfold forceSkip in *. destruct (has (rf_projectId h) _) eqn:Ehas; [done|].
  apply has_false in Ehas. simpl in *. destruct (Hsafe Hs) as (? & ? & _). done.
Qed.

End Histories.

(** ** Witnesses *)

Module DemoInstall.

#[export] Instance platform : Platform :=
  {| uuidv7 n := "id-" +:+ pretty n; randomRef n := "ref-" +:+ pretty n; randomBytes8 n := [Z.of_N n];
     collate a b := leOf String.compare a b; toLowerCase := foldCaseS |}.

Definition CDN : string := "https://edge.forgecdn.net/".

(** Addresses of one host. *)
#[export] Instance url : WebUrl :=
  {| parseUrl s := if startsWith CDN s then Some (mkUrl "https:" "" "" "edge.forgecdn.net" (dropS 26 s)) else None;
     urlToString u := "https://" +:+ url_hostname u +:+ "/" +:+ url_rest u |}.

Lemma parse_shape raw u : parseUrl raw = Some u -> u = mkUrl "https:" "" "" "edge.forgecdn.net" (dropS 26 raw).
Proof. unfold parseUrl, url. destruct (startsWith CDN raw); congruence. Qed.

#[export] Instance urlLaws : WebUrlLaws.
Proof. split; intros raw u ->%parse_shape; generalize (dropS 26 raw); intros rest; [by destruct rest|done]. Qed.

Definition pack : CurseForgeFile :=
  mkFile 20 10 (Some "Pack 1.0") "pack-1.0.zip" (Some "https://edge.forgecdn.net/files/pack-1.0.zip") false 1 "2026-01-01" 1000 None ["1.20.1"; "Forge"]
    [("aa", 1)] [].

Definition md : CurseForgeMod := mkMod 10 (Some "pack") "Pack" None None None None None None None [] [] [] [] (Some 4471).

#[export] Instance world : CatalogueWorld :=
  {| modReply _ := Answer 200 md; fileReply _ := Answer 200 pack; filesReply _ := Answer 200 []; modsReply _ := Answer 200 [];
     projectReply _ := NoReply; teamReply _ := NoReply; versionReply _ := NoReply; rateReset _ := None; catElapsed _ := 1%N |}.

#[export] Instance agents : PackAgents :=
  {| stateAnswer _ := Ok "offline"; dispatchAnswer _ := Ok tt; snapshotAnswer _ := Ok tt; entriesAnswer _ := Ok []; packElapsed _ := 1%N |}.

Definition server (id nodeId : string) : Server :=
  mkServer id id "u" nodeId (Some "t") (Some "p") (Some 2000) "srv" None None 100 1024 0 4096 500 false 1 1 1 1 Srv_ready None None None None "offline".

Definition state (rows : list Installation) : Packs :=
  mkPacks [server "s1" "a"; server "s2" "b"] rows (mkShelf true [] [] [] 10000000) [] [] 0%N.

Definition target (id nodeId : string) : PackTarget :=
  mkTarget (mkResolved (server id nodeId) role_owner (fun _ => true)) (Some "forge") (Some "1.20.1").

Definition order : PackEvent := EvInstall (mkActor "u" false) (target "s2" "b") (mkInstallDto curseforge "10" "20").

(** An operation of the second server. *)
Definition row (id : string) (status : PackStatus) (error : option string) : Installation :=
  mkInstallation id "s2" "u" curseforge "10" "20" "Pack" "Pack 1.0" "1.20.1" "forge" status 50 None None error None None (Some [4]) None
    (Some DemoPack.pack) 0 None 1000 1000 None.

End DemoInstall.

Import DemoInstall.

Lemma dispatched_packs_trusted_witness :
  trustedUrl (allowedHosts curseforge) "https://edge.forgecdn.net/files/pack-1.0.zip".
Proof.
  apply (dispatched_packs_trusted [order] (state []) (mkPackCall "b" "s2" (InstallPack curseforge "id-0"
    (mkPackFile "pack-1.0.zip" 1000 true "https://edge.forgecdn.net/files/pack-1.0.zip" (Some "aa") None (Some true) None) 4096)) curseforge "id-0"
    (mkPackFile "pack-1.0.zip" 1000 true "https://edge.forgecdn.net/files/pack-1.0.zip" (Some "aa") None (Some true) None) 4096).
  - repeat split; reflexivity.
  - vm_compute. right. by left.
  - reflexivity.
Defined.

Lemma retry_chains_bounded_witness : let s := serveAll [order] (state []) in
  lineages s = [lineage (newInstallation "id-0" 0 (mkParams "s2" "b" 4096 "u" curseforge "10" "20" "Pack" "Pack 1.0" "1.20.1" "forge"
    (mkPackFile "" 0 true "" None None None None) None))] /\ forall r, r ∈ lineages s -> 0 <= ln_retryCount r <= 3.
Proof. split; [vm_compute; reflexivity|]. intros r Hr. apply (retry_chains_bounded [order] (state []) r); [repeat split; reflexivity|exact Hr]. Defined.

(** The update of an operation does not look at its status: a report of an operation that expired, and was
    replaced, makes it active again beside its replacement. *)
Theorem late_report_reopens :
  let s := serveAll [order; EvReport "b" "s2" (mkProgress "old" rs_installing 60 "mods" None None)] (state [row "old" pk_installing None]) in
  map mi_id (activeRows "s2" (k_rows s)) = ["old"; "id-0"].
Proof. vm_compute. reflexivity. Qed.

(** The operation of a failure is read by its id alone: a node reporting on its own server with the id of
    another server's operation makes the panel retry that operation, on another node. *)
Theorem foreign_failure_retried :
  let failed := row "old" pk_failed (Some "Mod colorwheel requires oculus 1.7.0 or above") in
  let s := serveAll [EvReport "a" "s1" (mkProgress "old" rs_failed 0 "x" None None)] (state [failed]) in
  map (fun c => (pc_nodeId c, pc_serverId c)) (k_calls s) = [("b", "s2"); ("b", "s2")] /\ map mi_id (k_rows s) = ["old"; "id-0"] /\
  map mi_extraSkip (k_rows s) = [None; Some [5; 6]].
Proof. vm_compute. repeat split. Qed.
