(* ===== verification/Community.v ===== *)
(** Community: support tickets, testimonials, friendships and the directory of published servers.

    [support/support.service.ts], [testimonials/testimonials.service.ts] and [social/social.service.ts],
    with the shaping of a server for its customer ([servers/server-view.ts]).
    Each request is one step; the search pages, the details of a listing and its downloads are left out.
    The cache answers. *)

From S2P Require Import Prelude JsNum Capacity Store Scheduler Subscriptions JsString Accounts Sessions Access Dto Variables Setup Presets Discovery RetryPlan Catalogues.
From S2P Require Import Servers Gateway Modpacks.
From Stdlib Require Import Ascii String Lia.

Local Open Scope Z_scope.

(** ** Rows *)

Inductive TicketCategory := tc_server_offline | tc_server_error | tc_performance_mods | tc_billing | tc_account_access | tc_general_question.
Inductive TicketPriority := tp_low | tp_normal | tp_high | tp_urgent.
Inductive TicketStatus := ts_open | ts_in_progress | ts_waiting_customer | ts_closed.
#[export] Instance TicketStatus_eq : EqDecision TicketStatus.
Proof. solve_decision. Defined.

(** [TICKET_CATEGORY_PRIORITY]. *)
Definition TICKET_CATEGORY_PRIORITY (c : TicketCategory) : TicketPriority :=
  match c with
  | tc_server_offline => tp_urgent | tc_server_error => tp_high | tc_performance_mods => tp_normal | tc_billing => tp_normal
  | tc_account_access => tp_high | tc_general_question => tp_low
  end.

Record Ticket := mkTicket {
  tk_id : string; tk_userId : string; tk_serverId : option string; tk_subject : string; tk_category : TicketCategory; tk_priority : TicketPriority;
  tk_status : TicketStatus; tk_lastMessageAt : Z; tk_closedAt : option Z; tk_createdAt : Z }.
#[export] Instance Ticket_settable : Settable Ticket := fun t =>
  mkTicket (tk_id t) (tk_userId t) (tk_serverId t) (tk_subject t) (tk_category t) (tk_priority t) (tk_status t) (tk_lastMessageAt t) (tk_closedAt t)
    (tk_createdAt t).
#[export] Instance Ticket_row : Row Ticket := tk_id.

Record TicketMessage := mkMessage {
  tm_id : string; tm_ticketId : string; tm_authorId : string; tm_body : string; tm_isStaff : bool; tm_createdAt : Z }.

Inductive TestimonialStatus := te_pending | te_approved | te_rejected.
#[export] Instance TestimonialStatus_eq : EqDecision TestimonialStatus.
Proof. solve_decision. Defined.

Record Testimonial := mkTestimonial {
  te_id : string; te_userId : string; te_authorName : string; te_rating : Z; te_message : string; te_status : TestimonialStatus; te_featured : bool;
  te_featuredOrder : option Z; te_moderatedBy : option string; te_moderatedAt : option Z; te_createdAt : Z }.
#[export] Instance Testimonial_settable : Settable Testimonial := fun t =>
  mkTestimonial (te_id t) (te_userId t) (te_authorName t) (te_rating t) (te_message t) (te_status t) (te_featured t) (te_featuredOrder t)
    (te_moderatedBy t) (te_moderatedAt t) (te_createdAt t).
#[export] Instance Testimonial_row : Row Testimonial := te_id.

(** [PublicTestimonial]. *)
Record PublicTestimonial := mkPublicTestimonial { pt_id : string; pt_authorName : string; pt_rating : Z; pt_message : string }.

Inductive FriendshipStatus := fs_pending | fs_accepted.
#[export] Instance FriendshipStatus_eq : EqDecision FriendshipStatus.
Proof. solve_decision. Defined.

Record Friendship := mkFriendship {
  fr_id : string; fr_pairKey : string; fr_requesterId : string; fr_addresseeId : string; fr_status : FriendshipStatus; fr_acceptedAt : option Z;
  fr_createdAt : Z }.
#[export] Instance Friendship_settable : Settable Friendship := fun f =>
  mkFriendship (fr_id f) (fr_pairKey f) (fr_requesterId f) (fr_addresseeId f) (fr_status f) (fr_acceptedAt f) (fr_createdAt f).
#[export] Instance Friendship_row : Row Friendship := fr_id.

Record Listing := mkListing {
  li_id : string; li_serverId : string; li_ownerId : string; li_name : string; li_description : string; li_address : string;
  li_software : option string; li_version : option string; li_publishedAt : Z }.
#[export] Instance Listing_settable : Settable Listing := fun l =>
  mkListing (li_id l) (li_serverId l) (li_ownerId l) (li_name l) (li_description l) (li_address l) (li_software l) (li_version l) (li_publishedAt l).

Record Forum := mkForum {
  g_users : list Account; g_servers : list Server; g_subscriptions : list Subscription; g_tickets : list Ticket; g_messages : list TicketMessage;
  g_testimonials : list Testimonial; g_cache : option (list PublicTestimonial * Z); g_friendships : list Friendship; g_listings : list Listing;
  g_audit : list (string * string * string); g_next : N; g_now : Z }.
#[export] Instance Forum_settable : Settable Forum := fun s =>
  mkForum (g_users s) (g_servers s) (g_subscriptions s) (g_tickets s) (g_messages s) (g_testimonials s) (g_cache s) (g_friendships s) (g_listings s)
    (g_audit s) (g_next s) (g_now s).

Abbreviation MG := (M Forum).

Section Services.
Context `{Platform}.

Definition newId : MG string := fun s => (Ok (uuidv7 (g_next s)), s <| g_next := (g_next s + 1)%N |>).

(** ** Support *)

Record CreateSupportTicketDto := mkTicketDto {
  td_subject : string; td_category : TicketCategory; td_serverId : option string; td_message : string }.

(** The bounds of the request bodies, on the trimmed texts. *)
Definition ticketDtoValid (dto : CreateSupportTicketDto) : bool := lengthOk 4 120 (trim (td_subject dto)) && lengthOk 10 5000 (trim (td_message dto)).
Definition replyDtoValid (body : string) : bool := lengthOk 1 5000 (trim body).

Definition addMessage (ticketId authorId body : string) (isStaff : bool) : MG unit :=
  id ← newId;
  modify (fun s => s <| g_messages := g_messages s ++ [mkMessage id ticketId authorId (trim body) isStaff (g_now s)] |>).

Definition createTicket (userId : string) (dto : CreateSupportTicketDto) : MG string :=
  match td_serverId dto with
  | Some serverId =>
    owned ← gets (fun s => existsb (fun v => (sv_id v =s serverId) && (sv_ownerId v =s userId)) (g_servers s));
    throwIf (negb owned) (NotFound "Servidor não encontrado")
  | None => mret tt
  end ;;
  id ← newId;
  modify (fun s => s <| g_tickets := g_tickets s ++ [mkTicket id userId (td_serverId dto) (trim (td_subject dto)) (td_category dto)
    (TICKET_CATEGORY_PRIORITY (td_category dto)) ts_open (g_now s) None (g_now s)] |>) ;;
  addMessage id userId (td_message dto) false ;;
  mret id.

Definition ownTicket (userId id : string) (s : Forum) : option Ticket :=
  findFirst (fun t => (tk_id t =s id) && (tk_userId t =s userId)) (g_tickets s).

Definition TICKET_NOT_FOUND : exn := NotFound "Ticket não encontrado".

(** The conversation of a ticket, oldest message first. *)
Definition conversation (id : string) (s : Forum) : list TicketMessage :=
  sortBy (fun a b => tm_createdAt a <=? tm_createdAt b) (List.filter (fun m => tm_ticketId m =s id) (g_messages s)).

Definition getTicket (userId id : string) : MG (Ticket * list TicketMessage) :=
  found ← gets (ownTicket userId id);
  ticket ← orThrow found TICKET_NOT_FOUND;
  messages ← gets (conversation id);
  mret (ticket, messages).

Definition replied (status : TicketStatus) (now : Z) (t : Ticket) : Ticket := t <| tk_status := status |> <| tk_lastMessageAt := now |>.

(** The writes of a reply, after the ticket has been read. *)
Definition writeReply (id authorId body : string) (isStaff : bool) (status : TicketStatus) : MG unit :=
  addMessage id authorId body isStaff ;;
  modify (fun s => s <| g_tickets := updId id (replied status (g_now s)) (g_tickets s) |>).

Definition replyAsUser (userId id body : string) : MG unit :=
  found ← gets (ownTicket userId id);
  ticket ← orThrow found TICKET_NOT_FOUND;
  throwIf (bool_decide (tk_status ticket = ts_closed)) (Conflict "TICKET_CLOSED: este ticket já foi fechado") ;;
  writeReply id userId body false (if bool_decide (tk_status ticket = ts_waiting_customer) then ts_open else tk_status ticket).

Definition replyAsAdmin (actorId id body : string) : MG unit :=
  found ← gets (fun s => findId id (g_tickets s));
  ticket ← orThrow found TICKET_NOT_FOUND;
  throwIf (bool_decide (tk_status ticket = ts_closed)) (Conflict "TICKET_CLOSED: reabra o ticket antes de responder") ;;
  writeReply id actorId body true ts_waiting_customer.

Record UpdateSupportTicketDto := mkTicketUpdate { tu_status : option TicketStatus; tu_priority : option TicketPriority }.

Definition updatedTicket (dto : UpdateSupportTicketDto) (now : Z) (t : Ticket) : Ticket :=
  let t := t <| tk_priority := default (tk_priority t) (tu_priority dto) |> in
  match tu_status dto with
  | Some st => t <| tk_status := st |> <| tk_closedAt := if bool_decide (st = ts_closed) then Some now else None |>
  | None => t
  end.

Definition updateAsAdmin (id : string) (dto : UpdateSupportTicketDto) : MG unit :=
  found ← gets (fun s => findId id (g_tickets s));
  orThrow found TICKET_NOT_FOUND ;;
  modify (fun s => s <| g_tickets := updId id (updatedTicket dto (g_now s)) (g_tickets s) |>).

(** The messages go with their ticket (ON DELETE CASCADE). *)
Definition removeAsAdmin (id : string) : MG unit :=
  modify (fun s => s <| g_tickets := List.filter (fun t => negb (tk_id t =s id)) (g_tickets s) |>
                     <| g_messages := List.filter (fun m => negb (tm_ticketId m =s id)) (g_messages s) |>).

(** ** Testimonials *)

Definition TESTIMONIALS_TTL_SECONDS : Z := 30.

(** [SubmitTestimonialDto]. *)
Definition testimonialDtoValid (rating : Z) (text : string) : bool := (1 <=? rating) && (rating <=? 5) && lengthOk 10 1000 text.

Definition isEligible (userId : string) (s : Forum) : bool :=
  existsb (fun b => (sb_userId b =s userId) && bool_decide (is_Some (sb_serverId b))) (g_subscriptions s).

(** [[firstName, lastName].filter(Boolean).join(' ').trim() || username]. *)
Definition authorName (u : Account) : string :=
  let name := trim (join " " (List.filter (fun x => negb (x =s "")) (omap id [ac_firstName u; ac_lastName u]))) in
  if name =s "" then ac_username u else name.

Definition resubmitted (name : string) (rating : Z) (text : string) (t : Testimonial) : Testimonial :=
  t <| te_authorName := name |> <| te_rating := rating |> <| te_message := text |> <| te_status := te_pending |> <| te_featured := false |>
    <| te_featuredOrder := None |> <| te_moderatedBy := None |> <| te_moderatedAt := None |>.

Definition dropCache : MG unit := modify (fun s => s <| g_cache := None |>).

Definition submit (userId : string) (rating : Z) (text : string) : MG unit :=
  eligible ← gets (isEligible userId);
  throwIf (negb eligible) (Conflict "Depoimentos são exclusivos para clientes que já tiveram um servidor contratado.") ;;
  found ← gets (fun s => findId userId (g_users s));
  user ← orThrow found RecordNotFound;
  let name := authorName user in
  existing ← gets (fun s => findFirst (fun t => te_userId t =s userId) (g_testimonials s));
  match existing with
  | Some t => modify (fun s => s <| g_testimonials := updWhere (fun r => te_userId r =s userId) (resubmitted name rating text) (g_testimonials s) |>)
  | None =>
    id ← newId;
    modify (fun s => s <| g_testimonials := g_testimonials s ++ [mkTestimonial id userId name rating text te_pending false None None None (g_now s)] |>)
  end ;;
  dropCache.

Record ModerateTestimonialDto := mkModerate { md_status : option TestimonialStatus; md_featured : option bool; md_featuredOrder : option Z }.

Definition nextStatus (dto : ModerateTestimonialDto) (before : Testimonial) : TestimonialStatus := default (te_status before) (md_status dto).

Definition moderated (dto : ModerateTestimonialDto) (actorId : string) (now : Z) (before : Testimonial) (t : Testimonial) : Testimonial :=
  let status := nextStatus dto before in
  let featured := if bool_decide (status = te_approved) then default (te_featured before) (md_featured dto) else false in
  t <| te_status := status |> <| te_featured := featured |>
    <| te_featuredOrder := if featured then match md_featuredOrder dto with Some o => Some o | None => te_featuredOrder before end else None |>
    <| te_moderatedBy := Some actorId |> <| te_moderatedAt := Some now |>.

Definition moderate (id : string) (dto : ModerateTestimonialDto) (actorId : string) : MG unit :=
  found ← gets (fun s => findId id (g_testimonials s));
  before ← orThrow found RecordNotFound;
  throwIf (default false (md_featured dto) && negb (bool_decide (nextStatus dto before = te_approved)))
    (BadRequest "Só é possível destacar um depoimento aprovado.") ;;
  modify (fun s => s <| g_testimonials := updId id (moderated dto actorId (g_now s) before) (g_testimonials s) |>) ;;
  dropCache ;;
  modify (fun s => s <| g_audit := g_audit s ++ [("admin.testimonial.moderate", actorId, id)] |>).

Definition publicTestimonial (t : Testimonial) : PublicTestimonial := mkPublicTestimonial (te_id t) (te_authorName t) (te_rating t) (te_message t).

(** [orderBy: [{ featuredOrder: 'asc' }, { moderatedAt: 'desc' }]]; NULL comes last ascending, first descending. *)
Definition featuredBefore (a b : Testimonial) : bool :=
  match te_featuredOrder a, te_featuredOrder b with
  | Some x, Some y => if x =? y then default true (z ← te_moderatedAt a; w ← te_moderatedAt b; Some (w <=? z)) else x <? y
  | Some _, None => true
  | None, Some _ => false
  | None, None => default true (z ← te_moderatedAt a; w ← te_moderatedAt b; Some (w <=? z))
  end.

Definition featuredRows (s : Forum) : list PublicTestimonial :=
  map publicTestimonial (sortBy featuredBefore (List.filter (fun t => bool_decide (te_status t = te_approved) && te_featured t) (g_testimonials s))).

Definition listPublicFeatured : MG (list PublicTestimonial) :=
  cached ← gets (fun s => match g_cache s with Some (rows, expires) => if g_now s <? expires then Some rows else None | None => None end);
  match cached with
  | Some rows => mret rows
  | None =>
    rows ← gets featuredRows;
    modify (fun s => s <| g_cache := Some (rows, g_now s + TESTIMONIALS_TTL_SECONDS * 1000) |>) ;;
    mret rows
  end.

(** ** Friendships *)

(** [[a, b].sort().join(':')]: by code units, which for the text of an id is by bytes. *)
Definition pairKey (a b : string) : string := if leOf String.compare a b then a +:+ ":" +:+ b else b +:+ ":" +:+ a.

Definition friendTarget (targetId : string) (s : Forum) : bool :=
  existsb (fun u => (ac_id u =s targetId) && ac_isActive u && bool_decide (ac_deletedAt u = None) && (ac_globalRole u =s "user")) (g_users s).

Definition requestFriend (userId targetId : string) : MG unit :=
  throwIf (userId =s targetId) (BadRequest "Você não pode adicionar a si mesmo.") ;;
  target ← gets (friendTarget targetId);
  throwIf (negb target) (NotFound "Usuário não encontrado.") ;;
  let key := pairKey userId targetId in
  existing ← gets (fun s => findFirst (fun f => fr_pairKey f =s key) (g_friendships s));
  match existing with
  | Some f => throw (Conflict (if bool_decide (fr_status f = fs_accepted) then "Vocês já são amigos." else "Já existe um pedido de amizade."))
  | None =>
    id ← newId;
    modify (fun s => s <| g_friendships := g_friendships s ++ [mkFriendship id key userId targetId fs_pending None (g_now s)] |>)
  end.

Definition acceptedNow (now : Z) (f : Friendship) : Friendship := f <| fr_status := fs_accepted |> <| fr_acceptedAt := Some now |>.

Definition acceptFriend (userId friendshipId : string) : MG unit :=
  row ← gets (fun s => findFirst (fun f => (fr_id f =s friendshipId) && (fr_addresseeId f =s userId) && bool_decide (fr_status f = fs_pending)) (g_friendships s));
  row ← orThrow row (NotFound "Pedido de amizade não encontrado.");
  modify (fun s => s <| g_friendships := updId (fr_id row) (acceptedNow (g_now s)) (g_friendships s) |>).

Definition takesPart (userId : string) (f : Friendship) : bool := (fr_requesterId f =s userId) || (fr_addresseeId f =s userId).

Definition removeFriend (userId friendshipId : string) : MG unit :=
  row ← gets (fun s => findFirst (fun f => (fr_id f =s friendshipId) && takesPart userId f) (g_friendships s));
  row ← orThrow row (NotFound "Amizade ou pedido não encontrado.");
  modify (fun s => s <| g_friendships := List.filter (fun f => negb (fr_id f =s fr_id row)) (g_friendships s) |>).

(** The friend of a user in one of his accepted rows. *)
Definition otherOf (userId : string) (f : Friendship) : string := if fr_requesterId f =s userId then fr_addresseeId f else fr_requesterId f.

Definition friendIds (userId : string) (s : Forum) : list string :=
  map (otherOf userId) (List.filter (fun f => bool_decide (fr_status f = fs_accepted) && takesPart userId f) (g_friendships s)).

(** A listing of the directory with [isFriend] and [isOwner]. *)
Definition directory (userId : string) : MG (list (Listing * bool * bool)) :=
  friends ← gets (friendIds userId);
  listings ← gets (fun s => firstn 100 (sortBy (fun a b => li_publishedAt b <=? li_publishedAt a) (g_listings s)));
  mret (map (fun l => (l, includes (li_ownerId l) friends, li_ownerId l =s userId)) listings).

(** [servers/server-view.ts]: what is shown of a server, from its row, the software kind of its template, its route
    with the host of its gateway, and its Minecraft version. *)
Record ServerSource := mkSource { so_softwareKind : option string; so_route : option (PublicRoute * string); so_version : option string }.

Record ServerView := mkView {
  vw_software : SoftwareInfo; vw_publicAddress : option string; vw_customHostname : option string; vw_minecraftVersion : option string }.

Definition toClientServerSummary (server : Server) (source : ServerSource) (zone : option string) (dnsAutomationActive : bool) : ServerView :=
  let custom := so_route source ≫= fun r => pr_customHostname (fst r) in
  let address :=
    match so_route source with
    | None => None
    | Some (route, publicHost) =>
      if negb (bool_decide (pr_state route = R_active)) then None
      else if dnsAutomationActive then Some (default (publicHost +:+ ":" +:+ zstr (pr_publicPort route)) (pr_dnsSyncedHostname route))
      else match truthy custom, truthy zone with
           | Some label, Some z => Some (deriveCustomHostname label z +:+ ":" +:+ zstr (pr_publicPort route))
           | _, _ => Some (derivePublicAddress publicHost (sv_shortId server) (pr_publicPort route) zone dnsAutomationActive)
           end
    end in
  mkView (describeSoftware (so_softwareKind source)) address custom (so_version source).

Definition relisted (name description address : string) (view : ServerView) (l : Listing) : Listing :=
  l <| li_name := name |> <| li_description := trim description |> <| li_address := address |> <| li_software := Some (si_label (vw_software view)) |>
    <| li_version := vw_minecraftVersion view |>.

Definition publish (zone : option string) (dnsActive : bool) (userId serverId description : string) (source : ServerSource) : MG unit :=
  found ← gets (fun s => findFirst (fun v => (sv_id v =s serverId) && (sv_ownerId v =s userId)) (g_servers s));
  server ← orThrow found (NotFound "Servidor não encontrado.");
  let view := toClientServerSummary server source zone dnsActive in
  let address := default "" (vw_publicAddress view) in
  throwIf (address =s "") (BadRequest "Este servidor ainda não possui um endereço público ativo.") ;;
  existing ← gets (fun s => findFirst (fun l => li_serverId l =s serverId) (g_listings s));
  match existing with
  | Some _ => modify (fun s => s <| g_listings := updWhere (fun l => li_serverId l =s serverId) (relisted (sv_name server) description address view) (g_listings s) |>)
  | None =>
    id ← newId;
    modify (fun s => s <| g_listings := g_listings s ++
      [mkListing id serverId userId (sv_name server) (trim description) address (Some (si_label (vw_software view))) (vw_minecraftVersion view) (g_now s)] |>)
  end.

Definition unpublish (userId serverId : string) : MG unit :=
  found ← gets (fun s => findFirst (fun l => (li_serverId l =s serverId) && (li_ownerId l =s userId)) (g_listings s));
  listing ← orThrow found (NotFound "Publicação não encontrada.");
  modify (fun s => s <| g_listings := List.filter (fun l => negb (li_id l =s li_id listing)) (g_listings s) |>).

End Services.
