(* ===== verification/CommunityRules.v ===== *)
(** CommunityRules: what holds of tickets, testimonials and friendships after any sequence of requests. *)

From S2P Require Import Prelude JsNum Capacity Store Scheduler Subscriptions JsString Accounts Sessions Access Dto Variables Setup Presets Discovery RetryPlan Catalogues.
From S2P Require Import CatalogueRules Servers Gateway Modpacks ModpackRules Community.
From Stdlib Require Import Ascii String Lia.

Local Open Scope Z_scope.

Section Rules.
Context `{PlatformLaws}.

(** ** Requests *)

Inductive ForumEvent :=
  | EvTicket (userId : string) (dto : CreateSupportTicketDto)
  | EvReplyUser (userId id body : string)
  | EvReplyStaff (actorId id body : string)
  | EvUpdateTicket (id : string) (dto : UpdateSupportTicketDto)
  | EvRemoveTicket (id : string)
  | EvSubmit (userId : string) (rating : Z) (text : string)
  | EvModerate (id : string) (dto : ModerateTestimonialDto) (actorId : string)
  | EvShow
  | EvBefriend (userId targetId : string)
  | EvAccept (userId friendshipId : string)
  | EvUnfriend (userId friendshipId : string)
  | EvElsewhere (users : list Account) (servers : list Server) (subscriptions : list Subscription)
  | EvWait (ms : N).

(** A request whose body does not pass validation does not reach the service. *)
Definition validated {A} (valid : bool) (m : MG A) (s : Forum) : Forum := if valid then snd (m s) else s.

Definition serveForum (s : Forum) (e : ForumEvent) : Forum :=
  match e with
  | EvTicket userId dto => validated (ticketDtoValid dto) (createTicket userId dto) s
  | EvReplyUser userId id body => validated (replyDtoValid body) (replyAsUser userId id body) s
  | EvReplyStaff actorId id body => validated (replyDtoValid body) (replyAsAdmin actorId id body) s
  | EvUpdateTicket id dto => snd (updateAsAdmin id dto s)
  | EvRemoveTicket id => snd (removeAsAdmin id s)
  | EvSubmit userId rating text => validated (testimonialDtoValid rating text) (submit userId rating text) s
  | EvModerate id dto actorId => snd (moderate id dto actorId s)
  | EvShow => snd (listPublicFeatured s)
  | EvBefriend userId targetId => snd (requestFriend userId targetId s)
  | EvAccept userId friendshipId => snd (acceptFriend userId friendshipId s)
  | EvUnfriend userId friendshipId => snd (removeFriend userId friendshipId s)
  | EvElsewhere users servers subscriptions => s <| g_users := users |> <| g_servers := servers |> <| g_subscriptions := subscriptions |>
  | EvWait ms => s <| g_now := g_now s + Z.of_N ms |>
  end.

Definition forum (events : list ForumEvent) (s : Forum) : Forum := fold_left serveForum events s.

Definition emptyForum (s : Forum) : Prop :=
  g_tickets s = [] /\ g_messages s = [] /\ g_testimonials s = [] /\ g_cache s = None /\ g_friendships s = [].

(** An invariant of every request, which may use the requests made so far. *)
Lemma forum_invariant (Inv : list ForumEvent -> Forum -> Prop) events s :
  (forall past e s, Inv past s -> Inv (past ++ [e]) (serveForum s e)) -> Inv [] s -> Inv events (forum events s).
Proof.
  intros Hstep. unfold forum. assert (forall past s, Inv past s -> Inv (past ++ events) (fold_left serveForum events s)) as Hall; [|apply (Hall [])].
  induction events as [|e events IH]; intros past s0 Hs; simpl; [by rewrite app_nil_r|]. rewrite cons_middle, app_assoc. by apply IH, Hstep.
Qed.

(** What a request leaves alone: a part of the state; identifiers are only drawn. *)
Definition frame {X} (P : Forum -> X) (s s' : Forum) : Prop := P s' = P s /\ (g_next s <= g_next s')%N.
#[local] Instance frame_pre {X} (P : Forum -> X) : PreOrder (frame P).
Proof. split; [by intros s|]. intros s1 s2 s3 [E1 L1] [E2 L2]. split; [congruence|lia]. Qed.

Lemma frame_run {X A} (P : Forum -> X) (m : MG A) s : keeps (frame P) m -> frame P s (snd (m s)).
Proof. intros Hm. eapply Hm, surjective_pairing. Qed.

Lemma frame_validated {X A} (P : Forum -> X) valid (m : MG A) s : keeps (frame P) m -> frame P s (validated valid m s).
Proof. intros Hm. unfold validated. destruct valid; [by apply frame_run|reflexivity]. Qed.

Ltac framed := keeps_auto; intros ? ? ? [= _ <-]; (split; [reflexivity|simpl; lia]).

Definition supportPart (s : Forum) := (g_tickets s, g_messages s, g_now s).
Definition testimonialPart (s : Forum) := (g_testimonials s, g_cache s).

Lemma frame_submit userId rating text : keeps (frame supportPart) (submit userId rating text) /\ keeps (frame g_friendships) (submit userId rating text).
Proof. unfold submit, dropCache. split; framed. Qed.

Lemma frame_moderate id dto actorId : keeps (frame supportPart) (moderate id dto actorId) /\ keeps (frame g_friendships) (moderate id dto actorId).
Proof. unfold moderate, dropCache. split; framed. Qed.

Lemma frame_show : keeps (frame supportPart) listPublicFeatured /\ keeps (frame g_friendships) listPublicFeatured.
Proof. unfold listPublicFeatured. split; framed. Qed.

Lemma frame_befriend userId targetId : keeps (frame supportPart) (requestFriend userId targetId) /\ keeps (frame testimonialPart) (requestFriend userId targetId).
Proof. unfold requestFriend. cbv zeta. split; framed. Qed.

Lemma frame_accept userId id : keeps (frame supportPart) (acceptFriend userId id) /\ keeps (frame testimonialPart) (acceptFriend userId id).
Proof. unfold acceptFriend. split; framed. Qed.

Lemma frame_unfriend userId id : keeps (frame supportPart) (removeFriend userId id) /\ keeps (frame testimonialPart) (removeFriend userId id).
Proof. unfold removeFriend. split; framed. Qed.

Lemma frame_ticket userId dto : keeps (frame testimonialPart) (createTicket userId dto) /\ keeps (frame g_friendships) (createTicket userId dto).
Proof. unfold createTicket, addMessage. split; framed. Qed.

Lemma frame_replyUser userId id body : keeps (frame testimonialPart) (replyAsUser userId id body) /\ keeps (frame g_friendships) (replyAsUser userId id body).
Proof. unfold replyAsUser, writeReply, addMessage. split; framed. Qed.

Lemma frame_replyStaff userId id body : keeps (frame testimonialPart) (replyAsAdmin userId id body) /\ keeps (frame g_friendships) (replyAsAdmin userId id body).
Proof. unfold replyAsAdmin, writeReply, addMessage. split; framed. Qed.

Lemma frame_updateTicket id dto : keeps (frame testimonialPart) (updateAsAdmin id dto) /\ keeps (frame g_friendships) (updateAsAdmin id dto).
Proof. unfold updateAsAdmin. split; framed. Qed.

Lemma frame_removeTicket id : keeps (frame testimonialPart) (removeAsAdmin id) /\ keeps (frame g_friendships) (removeAsAdmin id).
Proof. unfold removeAsAdmin. split; framed. Qed.

(** ** Support *)

Definition ticketOk (now : Z) (t : Ticket) : Prop := (is_Some (tk_closedAt t) <-> tk_status t = ts_closed) /\ tk_lastMessageAt t <= now.

Lemma ticketOk_new now t : tk_closedAt t = None -> tk_status t <> ts_closed -> tk_lastMessageAt t <= now -> ticketOk now t.
Proof. intros Hc Hs Hl. split; [|done]. rewrite Hc. split; [by intros [? ?]|done]. Qed.

(** The ticket of a message. *)
Definition messageOk (m : TicketMessage) (t : Ticket) : Prop :=
  tk_id t = tm_ticketId m /\ (tm_isStaff m = false -> tm_authorId m = tk_userId t) /\ tm_createdAt m <= tk_lastMessageAt t /\ tm_body m <> "".

Definition supportOk (next : N) (now : Z) (tickets : list Ticket) (messages : list TicketMessage) : Prop :=
  NoDup (map rid tickets) /\ (forall t, t ∈ tickets -> exists n, (n < next)%N /\ tk_id t = uuidv7 n) /\ (forall t, t ∈ tickets -> ticketOk now t) /\
  forall m, m ∈ messages -> exists t, t ∈ tickets /\ messageOk m t.

Lemma support_mono next next' now now' tickets messages : (next <= next')%N -> now <= now' ->
  supportOk next now tickets messages -> supportOk next' now' tickets messages.
Proof.
  intros Hn Ht (A & B & C & D). split_and!; [done| | |done].
  - intros t Hin. destruct (B t Hin) as (n & ? & ?). exists n. split; [lia|done].
  - intros t Hin. destruct (C t Hin). split; [done|lia].
Qed.

(** A change of one ticket that keeps its owner and does not take back its last message, with further messages on it. *)
Lemma support_upd next now tickets messages id f more : supportOk next now tickets messages -> (forall t, tk_id (f t) = tk_id t /\ tk_userId (f t) = tk_userId t) ->
  (forall t, t ∈ tickets -> tk_id t = id -> tk_lastMessageAt t <= tk_lastMessageAt (f t) /\ ticketOk now (f t) /\ forall m, m ∈ more -> messageOk m (f t)) ->
  (more <> [] -> exists t, t ∈ tickets /\ tk_id t = id) ->
  supportOk next now (updId id f tickets) (messages ++ more).
Proof.
  intros (A & B & C & D) Hid Hf Hmore.
  assert (forall x, x ∈ updId id f tickets -> exists y, y ∈ tickets /\ (tk_id y = id /\ x = f y \/ x = y)) as Hfrom.
  { intros x Hx. apply updFirst_elem in Hx as [Hx|(r & Hr & ->)]; [exists x; auto|]. apply findFirst_some in Hr as [Hr E]. apply bool_decide_eq_true in E.
    exists r. split; [done|]. by left. }
  assert (forall y, y ∈ tickets -> exists x, x ∈ updId id f tickets /\ (tk_id y = id /\ x = f y \/ tk_id y <> id /\ x = y)) as Hto.
  { intros y Hy. exists (if rid y =s id then f y else y). split; [apply updId_elem; [done|by exists y]|]. destruct (bool_decide_reflect (rid y = id)); auto. }
  split_and!.
  - rewrite updId_rids; [done|]. intros x. apply Hid.
  - intros x (y & Hy & Hxy)%Hfrom. destruct (B y Hy) as (n & ? & ?). exists n. split; [done|]. destruct Hxy as [[_ ->]| ->]; [|done]. by rewrite (proj1 (Hid y)).
  - intros x (y & Hy & [[Ey ->]| ->])%Hfrom; [by apply Hf|auto].
  - intros m [Hm|Hm]%elem_of_app.
    + destruct (D m Hm) as (y & Hy & M1 & M2 & M3 & M4). destruct (Hto y Hy) as (x & Hx & [[Ey ->]|[_ ->]]); [|by exists y]. exists (f y).
      destruct (Hid y) as [I1 I2], (Hf y Hy Ey) as (L & _). split_and!; [done|]. split_and!; [congruence|rewrite I2; done|lia|done].
    + destruct Hmore as (y & Hy & Ey); [intros ->; by apply not_elem_of_nil in Hm|]. destruct (Hto y Hy) as (x & Hx & [[_ ->]|[? _]]); [|done]. exists (f y).
      destruct (Hf y Hy Ey) as (_ & _ & Hok). auto.
Qed.

Lemma support_add next now tickets messages t m : supportOk next now tickets messages -> tk_id t = uuidv7 next -> ticketOk now t -> messageOk m t ->
  supportOk (next + 1 + 1) now (tickets ++ [t]) (messages ++ [m]).
Proof.
  intros (A & B & C & D) Hid Ht Hm. split_and!.
  - rewrite map_app. apply NoDup_app. split_and!; [done| |apply NoDup_singleton]. intros x Hx ->%list_elem_of_singleton.
    apply list_elem_of_In, in_map_iff in Hx as (y & Ey & Hy%list_elem_of_In). destruct (B y Hy) as (n & Hn & En). unfold rid, Ticket_row in Ey.
    rewrite Hid, En in Ey. apply uuidv7_inj in Ey. lia.
  - intros x [Hx|Hx]%elem_of_app; [destruct (B x Hx) as (n & ? & ?); exists n; split; [lia|done]|]. apply list_elem_of_singleton in Hx as ->. exists next. split; [lia|done].
  - intros x [Hx|Hx]%elem_of_app; [auto|]. by apply list_elem_of_singleton in Hx as ->.
  - intros x [Hx|Hx]%elem_of_app.
    + destruct (D x Hx) as (y & Hy & ?). exists y. split; [|done]. apply elem_of_app. by left.
    + apply list_elem_of_singleton in Hx as ->. exists t. split; [|done]. apply elem_of_app. right. by apply list_elem_of_singleton.
Qed.

Lemma support_remove next now tickets messages id : supportOk next now tickets messages ->
  supportOk next now (List.filter (fun t => negb (tk_id t =s id)) tickets) (List.filter (fun m => negb (tm_ticketId m =s id)) messages).
Proof.
  intros (A & B & C & D). split_and!.
  - by apply NoDup_map_filter.
  - intros t [Ht _]%list_elem_of_In%filter_In. apply B. by apply list_elem_of_In.
  - intros t [Ht _]%list_elem_of_In%filter_In. apply C. by apply list_elem_of_In.
  - intros m [Hm Hi]%list_elem_of_In%filter_In. destruct (D m) as (t & Ht & M1 & M2); [by apply list_elem_of_In|]. exists t. split; [|done].
    apply list_elem_of_In, filter_In. split; [by apply list_elem_of_In|by rewrite M1].
Qed.

Definition supportInv (s : Forum) : Prop := supportOk (g_next s) (g_now s) (g_tickets s) (g_messages s).

(** A reply, by the owner or by staff, on a ticket that is not closed. *)
Lemma support_reply s t id author body staff status : supportInv s -> t ∈ g_tickets s -> tk_id t = id -> tk_status t <> ts_closed -> status <> ts_closed ->
  (staff = false -> author = tk_userId t) -> trim body <> "" -> supportInv (snd (writeReply id author body staff status s)).
Proof.
  intros Hs Ht Hid Hopen Hst Hauthor Hbody. unfold supportInv. simpl. eapply (support_mono (g_next s)); [lia|reflexivity|].
  pose proof Hs as (A & _ & C & _). apply support_upd; [done|done| |by exists t].
  intros u Hu Eu. assert (u = t) as -> by (eapply (NoDup_map_inj rid); [done|done|done|]; unfold rid, Ticket_row; congruence).
  destruct (C t Ht) as [C1 C2]. split_and!; [done| |].
  - split; [|simpl; lia]. simpl. rewrite C1. split; [done|]. intros ->. done.
  - intros m ->%list_elem_of_singleton. split_and!; [done|done|simpl; lia|done].
Qed.

Lemma ownTicket_elem userId id s t : ownTicket userId id s = Some t -> t ∈ g_tickets s /\ tk_id t = id /\ tk_userId t = userId.
Proof. intros [Ht E]%findFirst_some. apply andb_true_iff in E as [E1%bool_decide_eq_true E2%bool_decide_eq_true]. done. Qed.

Lemma lengthOk_text lo hi text : 1 <= lo -> lengthOk lo hi text = true -> text <> "".
Proof. intros Hlo E ->. unfold lengthOk in E. apply andb_true_iff in E as [E%Z.leb_le _]. simpl in E. lia. Qed.

Lemma support_frame s s' : frame supportPart s s' -> supportInv s -> supportInv s'.
Proof. intros [[= E1 E2 E3] Hn]. unfold supportInv. rewrite E1, E2, E3. by apply support_mono. Qed.

Lemma support_step s e : supportInv s -> supportInv (serveForum s e).
Proof.
  intros Hs. destruct e; simpl.
  - unfold validated. destruct (ticketDtoValid dto) eqn:Ev; [|done]. apply andb_true_iff in Ev as [_ Ev%lengthOk_text]; [|lia].
    unfold createTicket. destruct (td_serverId dto) as [sid|] eqn:Es.
    + unfold mbind at 1, M_bind at 1. unfold mbind at 1, M_bind at 1. simpl. destruct (existsb _ _); simpl; [|done].
      apply support_add; [done|done|by apply ticketOk_new|split_and!; [done|done|simpl; lia|done]].
    + simpl. apply support_add; [done|done|by apply ticketOk_new|split_and!; [done|done|simpl; lia|done]].
  - unfold validated. destruct (replyDtoValid body) eqn:Ev; [|done]. apply lengthOk_text in Ev; [|lia].
    unfold replyAsUser, mbind, M_bind, gets, orThrow, throwIf. destruct (ownTicket userId id s) as [t|] eqn:Et; [|done].
    apply ownTicket_elem in Et as (Ht & Hid & Hu). simpl. destruct (bool_decide_reflect (tk_status t = ts_closed)) as [|Hc]; [done|]. simpl.
    eapply support_reply; [done|exact Ht|done|done| |done|done]. by destruct (bool_decide _).
  - unfold validated. destruct (replyDtoValid body) eqn:Ev; [|done]. apply lengthOk_text in Ev; [|lia].
    unfold replyAsAdmin, mbind, M_bind, gets, orThrow, throwIf. destruct (findId id (g_tickets s)) as [t|] eqn:Et; [|done].
    apply findId_some in Et as [Ht Hid]. simpl. destruct (bool_decide_reflect (tk_status t = ts_closed)) as [|Hc]; [done|]. simpl.
    by eapply support_reply.
  - unfold updateAsAdmin, mbind, M_bind, gets, orThrow. destruct (findId id (g_tickets s)) as [t|] eqn:Et; [|done]. simpl. unfold supportInv. simpl.
    rewrite <- (app_nil_r (g_messages s)). pose proof Hs as (_ & _ & C & _). apply support_upd; [done|intros x; by destruct dto as [[]]| |done].
    intros x Hx Ex. destruct (C x Hx) as [C1 C2]. destruct dto as [[st|] pr]; simpl; (split_and!; [done| |by intros m ?%not_elem_of_nil]); [|split; done].
    split; [|done]. simpl. destruct (bool_decide_reflect (st = ts_closed)) as [->|Hne]; [split; [done|eauto]|]. split; [intros [? ?]; done|done].
  - by apply support_remove.
  - eapply support_frame; [apply frame_validated, frame_submit|done].
  - eapply support_frame; [apply frame_run, frame_moderate|done].
  - eapply support_frame; [apply frame_run, frame_show|done].
  - eapply support_frame; [apply frame_run, frame_befriend|done].
  - eapply support_frame; [apply frame_run, frame_accept|done].
  - eapply support_frame; [apply frame_run, frame_unfriend|done].
  - done.
  - eapply support_mono; [| |exact Hs]; simpl; lia.
Qed.

(** In every sequence of requests: a ticket carries a closing time exactly when it is closed; every message is on a
    ticket on file, not empty, at or before the ticket's last activity; and a message not marked as staff is by the ticket's owner. *)
Theorem support_consistent events s : emptyForum s -> supportInv (forum events s).
Proof.
  intros (E1 & E2 & _). apply (forum_invariant (fun _ => supportInv)); [intros past e s0; apply support_step|].
  unfold supportInv. rewrite E1, E2. split_and!; [apply NoDup_nil_2| | |]; by intros ? ?%not_elem_of_nil.
Qed.

(** ** Testimonials *)

Definition testimonialOk (t : Testimonial) : Prop :=
  (te_featured t = true -> te_status t = te_approved) /\ (te_status t <> te_pending -> is_Some (te_moderatedBy t) /\ is_Some (te_moderatedAt t)) /\
  (is_Some (te_featuredOrder t) -> te_featured t = true) /\ 1 <= te_rating t <= 5.

Definition testimonialsInv (s : Forum) : Prop :=
  NoDup (map te_userId (g_testimonials s)) /\ (forall t, t ∈ g_testimonials s -> testimonialOk t) /\
  forall rows expires, g_cache s = Some (rows, expires) -> rows = featuredRows s.

Lemma testimonials_frame s s' : frame testimonialPart s s' -> testimonialsInv s -> testimonialsInv s'.
Proof. intros [[= E1 E2] _]. unfold testimonialsInv, featuredRows. by rewrite E1, E2. Qed.

Lemma testimonials_submit s userId rating text : 1 <= rating <= 5 -> testimonialsInv s -> testimonialsInv (snd (submit userId rating text s)).
Proof.
  intros Hr (A & B & C). unfold submit, mbind, M_bind, gets, throwIf, orThrow. destruct (isEligible userId s); [|done]. simpl.
  destruct (findId userId (g_users s)) as [u|]; [|done]. simpl. destruct (findFirst _ _) as [t|] eqn:E; simpl; (split_and!; simpl; [| |done]).
  - by rewrite map_updWhere.
  - intros x (y & Hy & ->)%updWhere_elem. destruct (_ =s _); [|auto]. split_and!; simpl; [done|done|by intros [? ?]|lia..].
  - rewrite map_app. apply NoDup_app. split_and!; [done| |apply NoDup_singleton]. intros x Hx ->%list_elem_of_singleton.
    apply list_elem_of_In, in_map_iff in Hx as (y & Ey & Hy%list_elem_of_In). eapply findFirst_none in E; [|done]. by apply bool_decide_eq_false in E.
  - intros x [Hx|Hx]%elem_of_app; [auto|]. apply list_elem_of_singleton in Hx as ->. split_and!; simpl; [done|done|by intros [? ?]|lia..].
Qed.

Lemma moderated_ok dto actorId now before t : 1 <= te_rating t <= 5 -> testimonialOk (moderated dto actorId now before t).
Proof.
  intros Hr. split_and!; simpl; [|by eauto| |lia..]; (destruct (bool_decide_reflect (nextStatus dto before = te_approved)); [|try done; by intros [? ?]]); [done|].
  destruct (default (te_featured before) (md_featured dto)); [done|by intros [? ?]].
Qed.

Lemma testimonials_moderate s id dto actorId : testimonialsInv s -> testimonialsInv (snd (moderate id dto actorId s)).
Proof.
  intros (A & B & C). unfold moderate, mbind, M_bind, gets, throwIf, orThrow. destruct (findId id (g_testimonials s)) as [t|]; [|done]. simpl.
  destruct (_ && _); [done|]. simpl. split_and!; simpl; [by rewrite map_updId| |done].
  intros x [Hx|(y & Hy & ->)]%updFirst_elem; [auto|]. apply moderated_ok. apply findFirst_some in Hy as [Hy _]. apply (B y Hy).
Qed.

Lemma testimonials_show s : testimonialsInv s -> testimonialsInv (snd (listPublicFeatured s)).
Proof.
  intros (A & B & C). unfold listPublicFeatured, mbind, M_bind, gets. destruct (match g_cache s with Some _ => _ | None => _ end); [done|]. simpl.
  split_and!; [done|done|]. by intros rows expires [= <- _].
Qed.

Lemma testimonials_step s e : testimonialsInv s -> testimonialsInv (serveForum s e).
Proof.
  intros Hs. destruct e; simpl; try (by apply testimonials_moderate); try (by apply testimonials_show); try done;
    try (by unfold validated, testimonialDtoValid; destruct (_ && _) eqn:E; [apply testimonials_submit; [lia|done]|done]);
    (eapply testimonials_frame; [|done]); first [apply frame_run|apply frame_validated];
    first [apply frame_ticket|apply frame_replyUser|apply frame_replyStaff|apply frame_updateTicket|apply frame_removeTicket|apply frame_befriend|apply frame_accept|apply frame_unfriend].
Qed.

(** In every sequence of requests the public list, cached or not, is exactly the approved testimonials an administrator
    has put on the site, at most one per customer; each carries its moderator, and none is waiting or rejected. *)
Theorem public_testimonials_moderated events s rows s' : emptyForum s -> listPublicFeatured (forum events s) = (Ok rows, s') ->
  rows = featuredRows (forum events s) /\ NoDup (map te_userId (g_testimonials (forum events s))) /\
  forall x, x ∈ rows -> exists t, t ∈ g_testimonials (forum events s) /\ x = publicTestimonial t /\ te_status t = te_approved /\ is_Some (te_moderatedBy t).
Proof.
  intros (_ & _ & E1 & E2 & _) Hl. assert (testimonialsInv (forum events s)) as (A & B & C).
  { apply (forum_invariant (fun _ => testimonialsInv)); [intros past e s0; apply testimonials_step|]. unfold testimonialsInv. rewrite E1, E2.
    split_and!; [apply NoDup_nil_2|by intros ? ?%not_elem_of_nil|done]. }
  assert (rows = featuredRows (forum events s)) as ->.
  { unfold listPublicFeatured, mbind, M_bind, gets in Hl. destruct (g_cache (forum events s)) as [[cached expires]|] eqn:Ec; [|by injection Hl as <- _].
    destruct (_ <? expires); [|by injection Hl as <- _]. injection Hl as <- _. by eapply C. }
  split_and!; [done|done|]. intros x Hx. apply list_elem_of_In, in_map_iff in Hx as (t & <- & Ht). apply list_elem_of_In in Ht.
  rewrite sortBy_perm in Ht. apply list_elem_of_In, filter_In in Ht as [Ht Hf]. apply andb_true_iff in Hf as [Hs%bool_decide_eq_true Hf].
  apply list_elem_of_In in Ht. exists t. split_and!; try done. destruct (B t Ht) as (_ & Hm & _). apply Hm. by rewrite Hs.
Qed.

(** An edited testimonial waits for a new moderation and is not on the site. *)
Theorem edit_returns_to_moderation s userId rating text s' : 1 <= rating <= 5 -> testimonialsInv s -> submit userId rating text s = (Ok tt, s') ->
  exists t, t ∈ g_testimonials s' /\ te_userId t = userId /\ te_message t = text /\ te_status t = te_pending /\
    forall x, x ∈ featuredRows s' -> exists u, u ∈ g_testimonials s' /\ x = publicTestimonial u /\ te_userId u <> userId.
Proof.
  intros Hr Hinv E. assert (testimonialsInv s') as (A & _ & _) by (pose proof (testimonials_submit s userId rating text Hr Hinv) as Hs; by rewrite E in Hs).
  assert (exists t, t ∈ g_testimonials s' /\ te_userId t = userId /\ te_message t = text /\ te_status t = te_pending) as (t & Ht & Hu & Hm & Hs).
  { unfold submit, mbind, M_bind, gets, throwIf, orThrow in E. destruct (isEligible userId s); [|done]. simpl in E.
    destruct (findId userId (g_users s)) as [u|]; [|done]. simpl in E. destruct (findFirst _ _) as [t|] eqn:Et; simpl in E; injection E as <-; simpl.
    - apply findFirst_some in Et as [Ht Hu]. eexists. split; [apply updWhere_elem; exists t; split; [done|]; by rewrite Hu|]. by apply bool_decide_eq_true in Hu.
    - eexists. split; [apply elem_of_app; right; by apply list_elem_of_singleton|done]. }
  exists t. split_and!; try done. intros x Hx. apply list_elem_of_In, in_map_iff in Hx as (u & <- & Hin). apply list_elem_of_In in Hin.
  rewrite sortBy_perm in Hin. apply list_elem_of_In, filter_In in Hin as [Hin Hf]. apply andb_true_iff in Hf as [Hsu%bool_decide_eq_true _].
  apply list_elem_of_In in Hin. exists u. split_and!; try done. intros Heq. assert (u = t) as -> by (eapply (NoDup_map_inj te_userId); [done|done|done|congruence]).
  congruence.
Qed.

(** ** Friendships *)

Lemma pairKey_comm a b : pairKey a b = pairKey b a.
Proof.
  unfold pairKey. destruct (leOf String.compare a b) eqn:E1, (leOf String.compare b a) eqn:E2; try done.
  - unfold leOf in *. rewrite (cmp_opp a b) in E2. destruct (String.compare a b) eqn:E; [|done|done].
    apply String.compare_eq_iff in E. by subst.
  - destruct (leOf_total String.compare a b); congruence.
Qed.

Definition friendshipOk (past : list ForumEvent) (f : Friendship) : Prop :=
  fr_pairKey f = pairKey (fr_requesterId f) (fr_addresseeId f) /\ fr_requesterId f <> fr_addresseeId f /\
  (fr_status f = fs_accepted <-> is_Some (fr_acceptedAt f)) /\ (fr_status f = fs_accepted -> EvAccept (fr_addresseeId f) (fr_id f) ∈ past).

Definition friendshipsInv (past : list ForumEvent) (s : Forum) : Prop :=
  NoDup (map rid (g_friendships s)) /\ (forall f, f ∈ g_friendships s -> exists n, (n < g_next s)%N /\ fr_id f = uuidv7 n) /\
  NoDup (map fr_pairKey (g_friendships s)) /\ forall f, f ∈ g_friendships s -> friendshipOk past f.

Lemma friendshipOk_past past e f : friendshipOk past f -> friendshipOk (past ++ [e]) f.
Proof. intros (A & B & C & D). do 3 (split; [done|]). intros Hs. apply elem_of_app. left. auto. Qed.

Lemma friendships_frame past e s s' : frame g_friendships s s' -> friendshipsInv past s -> friendshipsInv (past ++ [e]) s'.
Proof.
  intros [E Hn] (A & B & C & D). unfold friendshipsInv. rewrite E. split_and!; [done| |done|intros f Hf; by apply friendshipOk_past, D].
  intros f Hf. destruct (B f Hf) as (n & ? & ?). exists n. split; [lia|done].
Qed.

Lemma NoDup_map_snoc {A B} (f : A -> B) l x : NoDup (map f l) -> (forall y, y ∈ l -> f y <> f x) -> NoDup (map f (l ++ [x])).
Proof.
  intros Hn Hx. rewrite map_app. apply NoDup_app. split_and!; [done| |apply NoDup_singleton]. intros z Hz ->%list_elem_of_singleton.
  apply list_elem_of_In, in_map_iff in Hz as (y & Ey & Hy%list_elem_of_In). by apply (Hx y).
Qed.

Lemma friendships_befriend past userId targetId s : friendshipsInv past s ->
  friendshipsInv (past ++ [EvBefriend userId targetId]) (snd (requestFriend userId targetId s)).
Proof.
  intros Hinv. assert (friendshipsInv (past ++ [EvBefriend userId targetId]) s) as Hs by (by eapply friendships_frame).
  unfold requestFriend, mbind, M_bind, gets, throwIf. destruct (bool_decide_reflect (userId = targetId)) as [|Hne]; [done|]. simpl.
  destruct (friendTarget targetId s); [|done]. simpl. destruct (findFirst _ _) as [f|] eqn:E; [done|]. simpl. destruct Hs as (A & B & C & D). split_and!; simpl.
  - apply NoDup_map_snoc; [done|]. intros y Hy Ey. destruct (B y Hy) as (n & Hn & En). unfold rid, Friendship_row in Ey. simpl in Ey. rewrite En in Ey.
    apply uuidv7_inj in Ey. lia.
  - intros f [Hf|Hf]%elem_of_app; [destruct (B f Hf) as (n & ? & ?); exists n; split; [lia|done]|]. apply list_elem_of_singleton in Hf as ->.
    exists (g_next s). split; [lia|done].
  - apply NoDup_map_snoc; [done|]. intros y Hy. simpl. eapply findFirst_none in E; [|done]. by apply bool_decide_eq_false in E.
  - intros f [Hf|Hf]%elem_of_app; [auto|]. apply list_elem_of_singleton in Hf as ->. do 2 (split; [done|]). split; [|done]. split; [done|by intros [? ?]].
Qed.

Lemma friendships_accept past userId id s : friendshipsInv past s -> friendshipsInv (past ++ [EvAccept userId id]) (snd (acceptFriend userId id s)).
Proof.
  intros Hinv. assert (friendshipsInv (past ++ [EvAccept userId id]) s) as Hs by (by eapply friendships_frame).
  unfold acceptFriend, mbind, M_bind, gets, orThrow. destruct (findFirst _ _) as [r|] eqn:E; [|done]. simpl. destruct Hs as (A & B & C & D).
  apply findFirst_some in E as [Hr Hb]. rewrite !andb_true_iff, !bool_decide_eq_true in Hb. destruct Hb as [[Hid Hu] Hp].
  assert (forall f, f ∈ updId (fr_id r) (acceptedNow (g_now s)) (g_friendships s) -> f ∈ g_friendships s \/ f = acceptedNow (g_now s) r) as Hel.
  { intros f [Hf|(y & Hy & ->)]%updFirst_elem; [by left|]. right. apply findFirst_some in Hy as [Hy Ey%bool_decide_eq_true].
    assert (y = r) as -> by (by eapply (NoDup_map_inj rid)). done. }
  split_and!; simpl.
  - by rewrite updId_rids.
  - intros f [Hf| ->]%Hel; [auto|]. exact (B r Hr).
  - by rewrite map_updId.
  - intros f [Hf| ->]%Hel; [auto|]. destruct (D r Hr) as (D1 & D2 & _ & _). do 2 (split; [done|]). split; [split; [by eauto|done]|]. intros _. simpl. rewrite Hu, Hid.
    apply elem_of_app. right. by apply list_elem_of_singleton.
Qed.

Lemma friendships_unfriend past userId id s : friendshipsInv past s -> friendshipsInv (past ++ [EvUnfriend userId id]) (snd (removeFriend userId id s)).
Proof.
  intros Hinv. assert (friendshipsInv (past ++ [EvUnfriend userId id]) s) as Hs by (by eapply friendships_frame).
  unfold removeFriend, mbind, M_bind, gets, orThrow. destruct (findFirst _ _) as [r|]; [|done]. simpl. destruct Hs as (A & B & C & D).
  split_and!; simpl; [by apply NoDup_map_filter| |by apply NoDup_map_filter|]; intros f [Hf%list_elem_of_In _]%list_elem_of_In%filter_In; auto.
Qed.

Lemma friendships_step past e s : friendshipsInv past s -> friendshipsInv (past ++ [e]) (serveForum s e).
Proof.
  intros Hs. destruct e; simpl; try (by apply friendships_befriend); try (by apply friendships_accept); try (by apply friendships_unfriend);
    (eapply friendships_frame; [|exact Hs]); try (split; [done|simpl; lia]); first [apply frame_run|apply frame_validated];
    first [apply frame_ticket|apply frame_replyUser|apply frame_replyStaff|apply frame_updateTicket|apply frame_removeTicket|apply frame_submit|apply frame_moderate|apply frame_show].
Qed.

Lemma friendIds_elem s u v : v ∈ friendIds u s <-> exists f, f ∈ g_friendships s /\ fr_status f = fs_accepted /\ takesPart u f = true /\ otherOf u f = v.
Proof.
  unfold friendIds. rewrite list_elem_of_In, in_map_iff. setoid_rewrite filter_In. setoid_rewrite andb_true_iff. setoid_rewrite bool_decide_eq_true.
  setoid_rewrite <- list_elem_of_In. naive_solver.
Qed.

Lemma otherOf_swap u f : fr_requesterId f <> fr_addresseeId f -> takesPart u f = true -> takesPart (otherOf u f) f = true /\ otherOf (otherOf u f) f = u.
Proof.
  unfold takesPart, otherOf. rewrite !orb_true_iff, !bool_decide_eq_true. intros Hne.
  destruct (bool_decide_reflect (fr_requesterId f = u)) as [<-|Hn].
  - intros _. rewrite bool_decide_eq_false_2 by done. auto.
  - intros [?|<-]; [done|]. rewrite bool_decide_eq_true_2 by done. auto.
Qed.

(** In every sequence of requests two accounts share at most one row, whoever asked; friends are friends of each other,
    and of two friends one has accepted a request the other had made. *)
Theorem friendship_consented events s u v : emptyForum s -> let s' := forum events s in
  (forall f g, f ∈ g_friendships s' -> g ∈ g_friendships s' -> otherOf u f = v -> otherOf u g = v -> takesPart u f = true -> takesPart u g = true -> f = g) /\
  (v ∈ friendIds u s' -> u ∈ friendIds v s' /\ exists id, EvAccept u id ∈ events \/ EvAccept v id ∈ events).
Proof.
  intros (_ & _ & _ & _ & E0) s'. assert (friendshipsInv events s') as (A & B & C & D).
  { apply (forum_invariant friendshipsInv); [apply friendships_step|]. unfold friendshipsInv. rewrite E0.
    split_and!; [apply NoDup_nil_2|by intros ? ?%not_elem_of_nil|apply NoDup_nil_2|by intros ? ?%not_elem_of_nil]. }
  assert (forall f, f ∈ g_friendships s' -> takesPart u f = true -> otherOf u f = v -> fr_pairKey f = pairKey u v) as Hkey.
  { intros f Hf Ht Ho. destruct (D f Hf) as (K & _). rewrite K. unfold takesPart, otherOf in *. rewrite orb_true_iff, !bool_decide_eq_true in Ht.
    destruct (bool_decide_reflect (fr_requesterId f = u)) as [<-|Hn]; [by rewrite Ho|]. destruct Ht as [?|<-]; [done|]. rewrite Ho. apply pairKey_comm. }
  split.
  - intros f g Hf Hg Hof Hog Htf Htg. eapply (NoDup_map_inj fr_pairKey); [done|done|done|]. rewrite (Hkey f), (Hkey g); done.
  - rewrite !friendIds_elem. intros (f & Hf & Hs & Ht & <-). destruct (D f Hf) as (_ & Hne & _ & Hacc). destruct (otherOf_swap u f Hne Ht) as [Ht' Ho'].
    split; [by exists f|]. exists (fr_id f). specialize (Hacc Hs). unfold takesPart, otherOf in *. rewrite orb_true_iff, !bool_decide_eq_true in Ht.
    destruct (bool_decide_reflect (fr_requesterId f = u)) as [<-|Hn]; [by right|]. destruct Ht as [?|<-]; [done|]. by left.
Qed.

End Rules.

(** ** Witnesses *)

Module DemoForum.

#[local] Existing Instance DemoInstall.platform.

Definition user (id : string) : Account := mkAccount id (id +:+ "@x.br") id "" (Some "Ana") (Some "Lima") "user" [] true None None 0 None 0 None.
Definition state : Forum := mkForum [user "u"; user "v"] [] [mkSubscription "b" "u" "p" (Some "s1") Sub_active 100 "BRL" monthly None None None None false None "" None false]
  [] [] [] None [] [] [] 0%N 1000.

(** The moderation does not name the text it approves: a text changed after the administrator has read it goes to the site. *)
Theorem approval_of_unseen_text :
  let s := forum [EvSubmit "u" 5 "Muito bom mesmo"] state in
  let read := map te_message (g_testimonials s) in
  let s' := forum [EvSubmit "u" 5 "Outro texto aqui"; EvModerate "id-0" (mkModerate (Some te_approved) (Some true) None) "admin"] s in
  read = ["Muito bom mesmo"] /\ map pt_message (featuredRows s') = ["Outro texto aqui"].
Proof. vm_compute. split; reflexivity. Qed.

(** A reply writes the status it derived from what it read: a ticket closed in between is reopened, with its closing time. *)
Theorem close_lost_to_reply :
  let s := forum [EvTicket "u" (mkTicketDto "Ajuda aqui" tc_billing None "Preciso de ajuda"); EvUpdateTicket "id-0" (mkTicketUpdate (Some ts_closed) None)] state in
  let s' := snd (writeReply "id-0" "staff" "Oi" true ts_waiting_customer s) in
  map (fun t => (tk_status t, tk_closedAt t)) (g_tickets s') = [(ts_waiting_customer, Some 1000)].
Proof. vm_compute. reflexivity. Qed.

Example friends_ex :
  let s := forum [EvBefriend "u" "v"; EvAccept "v" "id-0"; EvBefriend "v" "u"] state in
  friendIds "u" s = ["v"] /\ friendIds "v" s = ["u"] /\ List.length (g_friendships s) = 1%nat.
Proof. vm_compute. repeat split. Qed.

End DemoForum.
